(* ===== verification/_CoqProject ===== *)
-Q . S2P
Prelude.v
Bytes.v
Encoding.v
Types.v
Records.v
Commit.v
Hex.v
Receipt.v
CoreSamples.v
AssetTypes.v
AssetRules.v
Asset.v
AssetCorrect.v
AssetStrategy.v
AssetRecord.v
Nft.v
NftCorrect.v
AssetSamples.v
TokenSamples.v
Lane.v
IndexerTypes.v
Indexer.v
IndexerCorrect.v
IndexerCodec.v
Sled.v
Rebuild.v
Kaspa.v
Sync.v
SyncCorrect.v
SyncLive.v
SyncSamples.v
Resolver.v
ResolverCorrect.v
ResolverSamples.v
Wrpc.v
WrpcCorrect.v
WrpcSamples.v
Covenant.v
CovenantCorrect.v
CovenantScript.v
ScriptNumber.v
ScriptMeaning.v
CovenantSamples.v
Tx.v
TxCorrect.v
TxGenesis.v
TxBorsh.v
CovenantFlow.v
TxSamples.v
Zk.v
ZkCorrect.v
ZkGadgets.v
ZkCircuits.v
ZkCircuitsCorrect.v
ZkAllocation.v
ZkTransition.v
ZkLane.v
ZkLaneCorrect.v
ZkAudit.v
ZkAuditCorrect.v
ZkAuditBundle.v
ZkAuditComplete.v
ZkSamples.v
ZkStack.v
ZkCertificate.v
ZkManifest.v
ZkCertificateCorrect.v
ZkManifestCorrect.v
ZkCertificateAudit.v
ZkCertificateSamples.v
WalletText.v
WalletTypes.v
WalletIdentity.v
WalletIndex.v
WalletIndexCorrect.v
Wallet.v
WalletDaemon.v
WalletDaemonCorrect.v
WalletBehaviour.v
WalletSamples.v
