(* ===== verification/Prelude.v ===== *)
(** * RGK: a verification development

    RGK keeps asset state off the Kaspa chain and commits to it on chain.  A
    covenant output carries the digest of the asset state; spending it advances
    the covenant, a receipt describes the step, an indexer records the receipts
    and a resolver answers, from the index and the chain, what the state of a
    covenant is.  The crates live under [src/crates/].

    ** Parts, files and sources

    - [Prelude]: the result monad, loops ([try_fold], [try_foldi], [opt_fold]),
      machine integers ([uint w], a [Z] with its width), list lemmas, tactics,
      collisions among listed messages ([collides], [hits]).
    - [Bytes], [Encoding], [Types], [Records], [Commit], [Hex]:
      [rgk-core] ([encoding.rs], [types.rs], [chain.rs], [policy.rs],
      [commit.rs], [bytes.rs]).  A [Writer] is the bytes written so far, a
      [Reader] a buffer and a position, a decoder a [parser]: state passing
      over the reader with errors.  [Canonical] is the trait of that name, with
      its law as a second class.  [Records] reads fixed-size records.
    - [Receipt]: [rgk-receipt]; builder, verifier and replay set.
    - [AssetTypes], [AssetRules], [Asset], [AssetCorrect], [AssetSamples]:
      [rgk-asset/src/native.rs]; issues, transitions, burn and ownership proofs,
      continuation plans and finalisation.
    - [AssetStrategy], [AssetRecord]: of the same file, the production ZK
      transfers and allocation strategies (fixed proof vectors or a segmented
      audit), and the strategy records with their codec.  [Nft], [NftCorrect]:
      collections, tokens, mint, transfer, burn and marketplace sale, as checks
      over issues, transitions and plans.
    - [Lane]: the blinded lanes, nullifiers and transcript roots of the same
      file.
    - [IndexerTypes], [Indexer], [IndexerCorrect]: [rgk-indexer]; validators,
      spends, rollback, lanes, cursors, the in-memory store.
      [IndexerCodec], [Sled]: the persistent store and its record codecs over
      an abstract key-value tree.  [Rebuild]: rebuilding from chain evidence,
      over the [Indexer] interface.
    - [Sync]: [rgk-sync]; the scan service as a state-passing program over the
      state of its backend and of its store, and the rebuild source over a chain
      backend.  [SyncCorrect]: what a history of ticks keeps, against classes
      that say what a store and a scanner promise, instances for both stores.
      [SyncLive]: that it catches up.
    - [Kaspa]: [rgk-kaspa]; the chain backend interface and the fixture.
      [Resolver], [ResolverCorrect], [ResolverSamples]: [rgk-resolver], over the
      indexer and the chain backend interfaces.
    - [Wrpc]: [rgk-kaspa/src/wrpc.rs], the backend over a live node, with its
      scanner trait of [rgk-sync] and the program [rgk-sync.rs].  [WrpcCorrect]:
      what it reads, how deep a spend is, and what the resolver and the
      synchroniser make of it.
    - [Covenant], [CovenantCorrect]: [rgk-covenant]; covenant states and
      payloads, advanced flows, evidence, plans and records, covenant ids.
      [CovenantScript]: the script builders.  [ScriptNumber]: the integers they
      push.  [ScriptMeaning]: what the scripts mean on an engine.
    - [Tx], [TxCorrect], [TxGenesis], [TxBorsh]: [rgk-tx]; builders, version-1
      transactions with their ids, hashes and signature hashes, genesis
      covenants, the Borsh form.  [CovenantFlow]: covenants and transactions
      together.
    - [Zk], [ZkCorrect]: [rgk-zk/src/lib.rs]; the statements of the
      zero-knowledge mode, proofs, ZK receipts, the semantic transition
      statement.
    - [ZkGadgets]: the circuits of [rgk-zk/src/real_zk.rs] as programs that emit
      constraints ([synth]), over the gadgets of the proving library.
      [ZkCircuits], [ZkCircuitsCorrect], [ZkAllocation], [ZkTransition]: the
      semantic circuit and the circuits over allocations.  [ZkLane],
      [ZkLaneCorrect]: the receipt circuit and those of private lanes.
      [ZkAudit], [ZkAuditCorrect], [ZkAuditBundle], [ZkAuditComplete]: the
      segmented allocation audit: statements, circuits, bundles.
      [ZkStack]: the shapes of allocation circuits, keys, proofs and the stacks
      of the precompile.  [ZkCertificate], [ZkCertificateCorrect]: audit
      certificates and their codec.  [ZkManifest], [ZkManifestCorrect],
      [ZkCertificateAudit]: building and verifying them.
    - [WalletText], [WalletTypes], [WalletIdentity], [WalletIndex], [Wallet],
      [WalletDaemon]: the wallet daemon, [rgk-walletd/src/main.rs]: what it
      accepts as text, its state and requests, the identity vault, its work on
      the scanner database, the state file and the scan, the handlers.
      [WalletIndexCorrect], [WalletDaemonCorrect], [WalletBehaviour]: their
      theorems.
    - The files ending in [Samples] evaluate the definitions on concrete
      inputs, with toy hashes and a toy engine.

    ** How the code is read

    A handler is a function of the old state to a [result] of the new one; a
    failing handler leaves the state as it was, as the code does, and where the
    code works in place ([&mut]) and could fail half-way the definition returns
    both ([stateful]), so that what an error leaves is something to prove.  Guards
    appear in the order of the code, as [fail_if].  Integers keep their width:
    [wrap] where the code wraps or casts, a check where the code checks.
    Hash functions, the script engine, the key-value tree and the chain are
    outside the repository: they are classes ([Sha256], [KaspaTxHashes],
    [TxScript], [Tree], [KaspaChainBackend]).  So are the variables and gadgets
    of the proving library: [Gadgets] names them, [GadgetLaws] says what they
    mean under an assignment (bytes are bytes, field elements are residues of a
    modulus above 2^200, the SHA-256 gadget is SHA-256); a
    circuit is satisfied when it synthesises and its constraints hold.  Keys,
    proofs and their serialisation are [Groth16Library], with [Groth16Laws]
    (what is serialised reads back); that a proof of a key shows a satisfied
    circuit is a hypothesis of the one theorem that needs it. Nothing assumes
    that a hash is injective, and by counting no hash with a bounded digest is,
    so "or some collision exists" would say nothing. A theorem that depends on a
    hash names instead the messages the code hashes in the case at hand, a
    finite list computed from its inputs ([history_messages],
    [witness_messages], ...), and ends in [collision] of that list: two
    different ones of those messages have one digest, or, where a digest of zero
    matters, [zero_digest]: one of them has it. Both are decidable, and the
    witnesses refute them on a toy hash. Order matters where the code iterates
    over a list; maps are [gmap]s where the code uses a map.

    ** What the theorems show

    - Supply and lineage: the amounts held plus everything burned equal the
      issued supply along any validated history; each step is authorised by the
      owner; a history of calls on the indexer keeps every entry a linked list
      of spends; a minted token stays one unit in one allocation until it is
      burned; the synchroniser never skips a spend, whatever fails.
    - Exact acceptance: verification of receipts, issues, transitions, plans,
      spends, advanced covenant flows, genesis groups, token sales, strategy
      plans, ZK receipts and resolver verdicts, each as an equivalence between
      the code and its conditions.
    - Circuits: what each accepts, as a relation on the native types; every
      finalised transition of a supported shape has a satisfied circuit, and a
      satisfied circuit over canonical allocations with distinct outpoints is, for
      each policy the statement commits to, a validated transition, whose reports
      make the statement when it spends at most the total supply; an audit bundle with satisfied circuits conserves
      the total, and every balanced pair of transcripts has one.
    - Certificates: the self-contained verifier accepts what the verifier against
      a bundle accepts, which is what the builder makes; a verified certificate
      with sound keys conserves the total, and one with other keys shows nothing.
    - Wallet daemon: however handlers interleave and whatever fails, a locked
      wallet has no identity in memory and an unlocked one its own, lane ids are
      distinct and the state file loads to a locked wallet; creating, restarting
      and unlocking restores the identity; a recorded transition extends its
      covenant by a receipt the local verifier accepts, and ingests elsewhere;
      what an unlock that finishes after an import does.
    - Live node: the depth the backend reports is exact; the scanner program
      records every input, but for the null outpoint, of the blocks its stored
      cursor moves over; over this backend the resolver
      reports no covenant as open, a daemon scan without a new spend forgets its
      lanes, and spends of removed blocks stay.
    - Formats: each decoder accepts exactly the encodings of valid values
      (receipts, states, covenant payloads, execution records, strategy
      records, persistent entries, hexadecimal); the Borsh form is unambiguous.
    - Binding: digests, commitments, covenant ids, transaction ids, hashes and
      signature hashes identify what they are computed from, unless two of the
      messages hashed for the two cases collide.
    - Refinement and composition: the persistent store refines the in-memory
      one; a rebuild replays only what the chain shows; a covenant script
      accepts exactly the spends its policy allows, so a covenant stays in its
      lineage, and every advance of a state has an accepted spend.
    - Bounds and termination: the one shortest push of every 64-bit integer, the
      overflow of the balance check, the sizes of segmented audits, the ticks
      [run_until_idle] needs.
    - Where the code does something else than its documents say, a theorem
      states what it does.

    ** Fuel

    Two loops of the modelled code are not structural.  The digit loop of
    [push_script_i64] divides by 256; [value_bytes] runs it with eight steps,
    enough for 64 bits ([ScriptNumber.value_loop_terminates]).
    [run_until_idle] ticks until nothing is new; [run_loop] takes a number of
    ticks and returns [None] when they were not enough, with the bound that
    suffices in [SyncCorrect.run_until_idle_terminates].

    ** Not modelled

    The HTTP probe of [rgk-kaspa] and the RPC client of the node (network I/O);
    of the wallet daemon, the HTTP layer and its origins, the command line, the
    mode bits of files and the zeroing of memory; of [rgk-zk/src/real_zk.rs], the
    proof system itself; the command-line parsers and the exit codes; the fuzz
    targets, end-to-end tests, scripts and examples.  Formatting of errors for
    people is left out where no result depends on it. *)

From stdpp Require Import base list strings pretty sorting gmap.
From Stdlib Require Import ZArith Lia Logic.Decidable.

(** * Fallible code: Rust's [Result<A, E>] *)

Inductive result (E A : Type) : Type :=
| Ok (a : A)
| Err (e : E).
Arguments Ok {E A} a.
Arguments Err {E A} e.

#[export] Instance result_eq_dec {E A} `{EqDecision E, EqDecision A} :
  EqDecision (result E A).
Proof. solve_decision. Defined.

#[export] Instance Ok_inj {E A} : Inj (=) (=) (@Ok E A).
Proof. by intros ? ? [= ->]. Qed.

#[export] Instance result_ret {E} : MRet (result E) := λ _ a, Ok a.
#[export] Instance result_bind {E} : MBind (result E) := λ _ _ f m,
  match m with Ok a => f a | Err e => Err e end.
#[export] Instance result_fmap {E} : FMap (result E) := λ _ _ f m,
  match m with Ok a => Ok (f a) | Err e => Err e end.

(** [if cond { return Err(e) }] *)
Definition fail_if {E} (P : Prop) {dec : Decision P} (e : E) : result E unit :=
  if decide P then Err e else Ok ().
Arguments fail_if {E} P {dec} e : simpl never.

(** [opt.ok_or(e)] *)
Definition ok_or {E A} (o : option A) (e : E) : result E A :=
  match o with Some a => Ok a | None => Err e end.

(** [res.map_err(f)] *)
Definition map_err {E F A} (f : E → F) (m : result E A) : result F A :=
  match m with Ok a => Ok a | Err e => Err (f e) end.

(** [res.ok()] and [res.is_ok()] *)
Definition to_option {E A} (m : result E A) : option A :=
  match m with Ok a => Some a | Err _ => None end.

Definition is_ok {E A} (m : result E A) : bool :=
  match m with Ok _ => true | Err _ => false end.

(** [for x in l { s = f(s, x)?; }] and the same loop with
    [l.iter().enumerate()]. *)
Fixpoint try_fold {E S A} (f : S → A → result E S) (s : S) (l : list A) : result E S :=
  match l with
  | [] => Ok s
  | x :: l' => s' ← f s x; try_fold f s' l'
  end.

Fixpoint try_foldi {E S A} (f : nat → S → A → result E S) (i : nat) (s : S) (l : list A)
  : result E S :=
  match l with
  | [] => Ok s
  | x :: l' => s' ← f i s x; try_foldi f (Datatypes.S i) s' l'
  end.

(** The same loop when the body can panic ([None]). *)
Fixpoint opt_fold {S A} (f : S → A → option S) (s : S) (l : list A) : option S :=
  match l with
  | [] => Some s
  | x :: l' => s' ← f s x; opt_fold f s' l'
  end.

Section result_lemmas.
Context {E : Type}.

Lemma bind_ok {A B} (m : result E A) (f : A → result E B) b :
  m ≫= f = Ok b ↔ ∃ a, m = Ok a ∧ f a = Ok b.
Proof. destruct m; cbn; naive_solver. Qed.

Lemma bind_err {A B} (m : result E A) (f : A → result E B) e :
  m ≫= f = Err e ↔ m = Err e ∨ ∃ a, m = Ok a ∧ f a = Err e.
Proof. destruct m; cbn; naive_solver. Qed.

Lemma fail_if_ok (P : Prop) `{Decision P} (e : E) u :
  fail_if P e = Ok u ↔ ¬ P.
Proof. unfold fail_if. destruct u; case_decide; naive_solver. Qed.

Lemma fail_if_neq_ok {A} `{EqDecision A} (a b : A) (e : E) u :
  fail_if (a ≠ b) e = Ok u ↔ a = b.
Proof. rewrite fail_if_ok. split; [apply dec_stable|intros -> Hn; by apply Hn]. Qed.

Lemma bind_unit_ok {A} (m : result E unit) (k : unit → result E A) a :
  (m ≫= k) = Ok a ↔ m = Ok () ∧ k () = Ok a.
Proof. destruct m as [[]|]; cbn; naive_solver. Qed.

Lemma fail_if_err (P : Prop) `{Decision P} (e e' : E) :
  fail_if P e = Err e' ↔ P ∧ e' = e.
Proof. unfold fail_if. case_decide; naive_solver. Qed.

Lemma fail_if_false (P : Prop) `{Decision P} (e : E) : ¬ P → fail_if P e = Ok ().
Proof. unfold fail_if. by case_decide. Qed.

Lemma fail_if_true (P : Prop) `{Decision P} (e : E) : P → fail_if P e = Err e.
Proof. unfold fail_if. by case_decide. Qed.

Lemma ok_or_ok {A} (o : option A) (e : E) a : ok_or o e = Ok a ↔ o = Some a.
Proof. destruct o; naive_solver. Qed.

Lemma map_err_ok {F A} (f : E → F) (m : result E A) a :
  map_err f m = Ok a ↔ m = Ok a.
Proof. destruct m; naive_solver. Qed.

Lemma try_fold_app {S A} (f : S → A → result E S) s l1 l2 :
  try_fold f s (l1 ++ l2) = s' ← try_fold f s l1; try_fold f s' l2.
Proof. revert s; induction l1 as [|x l1 IH]; intros s; [done|]. cbn. by destruct (f s x); cbn. Qed.
End result_lemmas.

(** [inv_ok] turns every hypothesis [m = Ok a] about a chain of binds, guards
    and conversions into the facts that made each step succeed. *)
Ltac inv_ok_step :=
  match goal with
  | H : _ ≫= _ = Ok _ |- _ => apply bind_ok in H as (? & ? & H)
  | H : fail_if _ _ = Ok _ |- _ => apply fail_if_ok in H
  | H : ok_or _ _ = Ok _ |- _ => apply ok_or_ok in H
  | H : map_err _ _ = Ok _ |- _ => apply map_err_ok in H
  | H : ¬ (_ ∨ _) |- _ => apply Decidable.not_or in H as [? ?]
  | H : ¬ (_ ≠ _) |- _ => apply dec_stable in H
  | H : mret _ = Ok _ |- _ => unfold mret, result_ret in H
  | H : Ok _ = Ok _ |- _ => injection H as H; try subst
  | H : Err _ = Ok _ |- _ => discriminate H
  | H : Ok _ = Err _ |- _ => discriminate H
  | H : (_, _) = (_, _) |- _ => injection H as H; try subst
  | u : unit |- _ => destruct u
  end.
Ltac inv_ok := repeat inv_ok_step.

(** [by_guards] runs a chain of guards forward, each discharged by the
    context. *)
Ltac solve_guard :=
  solve [ assumption | intros ?; destruct_or?; congruence | lia | naive_solver ].
Ltac pass_guard := rewrite fail_if_false by solve_guard.
Ltac by_guards := repeat (pass_guard; cbn [mbind result_bind]).

(** [&l[lo..hi]], for bounds within the slice *)
Definition slice {A} (l : list A) (lo hi : nat) : list A := take (hi - lo) (drop lo l).
Arguments slice {A} l lo hi : simpl never.

Section slices.
Context {A : Type}.
Implicit Types l k : list A.

Lemma slice_app_skip l k lo hi :
  length l <= lo → length l <= hi →
  slice (l ++ k) lo hi = slice k (lo - length l) (hi - length l).
Proof.
  intros Hlo Hhi. unfold slice. rewrite drop_app_ge by done. f_equal. lia.
Qed.

Lemma slice_app_head l k : slice (l ++ k) 0 (length l) = l.
Proof. unfold slice. rewrite drop_0, Nat.sub_0_r. by rewrite take_app_length. Qed.

Lemma slices_cat l lo mid hi : lo <= mid <= hi → slice l lo mid ++ slice l mid hi = slice l lo hi.
Proof.
  intros H. unfold slice. replace (hi - lo) with ((mid - lo) + (hi - mid)) by lia.
  rewrite <-take_take_drop, drop_drop. by replace (lo + (mid - lo)) with mid by lia.
Qed.

Lemma slice_length l lo hi : hi <= length l → length (slice l lo hi) = hi - lo.
Proof. intros. unfold slice. rewrite length_take, length_drop. lia. Qed.

Lemma slice_fmap {B} (f : A → B) l lo hi : f <$> slice l lo hi = slice (f <$> l) lo hi.
Proof. unfold slice. by rewrite fmap_take, fmap_drop. Qed.

Lemma slice_all l : slice l 0 (length l) = l.
Proof. unfold slice. by rewrite drop_0, Nat.sub_0_r, firstn_all. Qed.
End slices.

(** A buffer of fixed layout, cut into fields of the given widths. *)
Fixpoint cuts {A} (off : nat) (widths : list nat) (l : list A) : list (list A) :=
  match widths with
  | [] => []
  | w :: widths' => slice l off (off + w) :: cuts (off + w) widths' l
  end.

Section cuts.
Context {A : Type}.
Implicit Types l : list A.

Lemma concat_cuts widths l off :
  length l = off + sum_list widths → concat (cuts off widths l) = drop off l.
Proof.
  revert off. induction widths as [|w ws IH]; intros off; cbn; intros Hl.
  - symmetry. apply drop_ge. lia.
  - rewrite IH by lia. rewrite <-(take_drop w (drop off l)). rewrite drop_drop.
    unfold slice. by replace (off + w - off) with w by lia.
Qed.

Lemma cuts_app_skip (k l : list A) widths off :
  cuts (length k + off) widths (k ++ l) = cuts off widths l.
Proof.
  revert off. induction widths as [|w ws IH]; intros off; cbn; [done|].
  rewrite <-Nat.add_assoc, IH. f_equal.
  rewrite slice_app_skip by lia. f_equal; lia.
Qed.

(** The fields of a concatenation are what was concatenated. *)
Lemma cuts_concat (fields : list (list A)) : cuts 0 (length <$> fields) (concat fields) = fields.
Proof.
  induction fields as [|f fs IH]; cbn; [done|]. rewrite slice_app_head. f_equal.
  etransitivity; [|exact IH]. rewrite <-(Nat.add_0_r (length f)). apply cuts_app_skip.
Qed.

Lemma cuts_fields (fields : list (list A)) widths l :
  l = concat fields → length <$> fields = widths → cuts 0 widths l = fields.
Proof. intros -> <-. apply cuts_concat. Qed.
End cuts.

(** * Computations on a store *)

Definition stateful (S E A : Type) : Type := S → result E A * S.
#[export] Instance stateful_ret {S E} : MRet (stateful S E) := λ _ a s, (Ok a, s).
#[export] Instance stateful_bind {S E} : MBind (stateful S E) := λ _ _ f m s,
  match m s with (Ok a, s') => f a s' | (Err e, s') => (Err e, s') end.

(** [f(self)?] for a reading or failing expression, and [self.op(..)?]. *)
Definition reading {S E A} (f : S → result E A) : stateful S E A := λ s, (f s, s).
Definition updating {S E} (f : S → result E S) : stateful S E unit := λ s,
  match f s with Ok s' => (Ok (), s') | Err e => (Err e, s) end.

(** A loop on the store, with a value of its own. *)
Fixpoint stateful_fold {S E A B} (f : B → A → stateful S E B) (b : B) (l : list A)
  : stateful S E B :=
  match l with
  | [] => mret b
  | x :: l' => b' ← f b x; stateful_fold f b' l'
  end.

(** A loop whose turns only read the store is a loop on the value. *)
Lemma stateful_fold_reads {S E A B} (f : B → A → stateful S E B) (g : B → A → result E B) s b l :
  (∀ b x, f b x s = (g b x, s)) → stateful_fold f b l s = (try_fold g b l, s).
Proof.
  intros Hf. revert b. induction l as [|x l IH]; intros b; [done|].
  cbn [stateful_fold try_fold]. unfold mbind, stateful_bind, result_bind. rewrite Hf.
  by destruct (g b x).
Qed.

(** * Orders: Rust's [Ord] with derived lexicographic instances *)

Class Ord (A : Type) := cmp : A → A → comparison.
Class OrdLaws (A : Type) {O : Ord A} := {
  cmp_eq : ∀ a b : A, cmp a b = Eq ↔ a = b;
  cmp_antisym : ∀ a b : A, cmp b a = CompOpp (cmp a b);
  cmp_trans : ∀ a b c : A, cmp a b = Lt → cmp b c = Lt → cmp a c = Lt
}.

#[export] Instance Z_ord : Ord Z := Z.compare.
#[export] Instance Z_ord_laws : OrdLaws Z.
Proof.
  split; unfold cmp, Z_ord.
  - apply Z.compare_eq_iff.
  - intros. by rewrite Z.compare_antisym.
  - intros a b c. rewrite !Z.compare_lt_iff. lia.
Qed.

Definition then_cmp (c d : comparison) : comparison :=
  match c with Eq => d | _ => c end.

#[export] Instance prod_ord {A B} `{Ord A, Ord B} : Ord (A * B) := λ p q,
  then_cmp (cmp p.1 q.1) (cmp p.2 q.2).

#[export] Instance prod_ord_laws {A B} `{OrdLaws A, OrdLaws B} : OrdLaws (A * B).
Proof.
  split; unfold cmp, prod_ord.
  - intros [a b] [a' b']; cbn. unfold then_cmp. destruct (cmp a a') eqn:E.
    + apply cmp_eq in E as ->. rewrite cmp_eq. naive_solver.
    + split; [done|]. intros [= -> ->]. by rewrite (proj2 (cmp_eq a' a') eq_refl) in E.
    + split; [done|]. intros [= -> ->]. by rewrite (proj2 (cmp_eq a' a') eq_refl) in E.
  - intros [a b] [a' b']; cbn. rewrite (cmp_antisym a a'), (cmp_antisym b b').
    by destruct (cmp a a').
  - intros [a1 b1] [a2 b2] [a3 b3]; cbn. unfold then_cmp.
    destruct (cmp a1 a2) eqn:E12; [apply cmp_eq in E12 as ->| |done].
    + destruct (cmp a2 a3); [apply cmp_trans|done..].
    + destruct (cmp a2 a3) eqn:E23; [apply cmp_eq in E23 as <-| |done].
      * intros _ _. by rewrite E12.
      * intros _ _. by rewrite (cmp_trans _ _ _ E12 E23).
Qed.

(** Orders transported along an injection (a struct and its fields). *)
Lemma inj_ord_laws {A B} `{OrdLaws B} (f : A → B) (OA : Ord A) :
  Inj (=) (=) f → (∀ a b, @cmp A OA a b = cmp (f a) (f b)) → @OrdLaws A OA.
Proof.
  intros Hinj Hf. split.
  - intros a b. rewrite Hf, cmp_eq. split; [apply Hinj|by intros ->].
  - intros a b. rewrite !Hf. apply cmp_antisym.
  - intros a b c. rewrite !Hf. apply cmp_trans.
Qed.

Fixpoint lex_cmp {A} `{Ord A} (l k : list A) : comparison :=
  match l, k with
  | [], [] => Eq
  | [], _ :: _ => Lt
  | _ :: _, [] => Gt
  | x :: l', y :: k' => then_cmp (cmp x y) (lex_cmp l' k')
  end.
#[export] Instance list_ord {A} `{Ord A} : Ord (list A) := lex_cmp.

#[export] Instance list_ord_laws {A} `{OrdLaws A} : OrdLaws (list A).
Proof.
  split; unfold cmp, list_ord.
  - induction a as [|x a IH]; intros [|y b]; cbn; try done.
    unfold then_cmp. destruct (cmp x y) eqn:E.
    + apply cmp_eq in E as ->. rewrite IH. naive_solver.
    + split; [done|]. intros [= -> ->]. by rewrite (proj2 (cmp_eq y y) eq_refl) in E.
    + split; [done|]. intros [= -> ->]. by rewrite (proj2 (cmp_eq y y) eq_refl) in E.
  - induction a as [|x a IH]; intros [|y b]; cbn; try done.
    rewrite (cmp_antisym x y), IH. by destruct (cmp x y).
  - induction a as [|x a IH]; intros [|y b] [|z c]; cbn; try done.
    unfold then_cmp. destruct (cmp x y) eqn:Exy; [apply cmp_eq in Exy as ->| |done].
    + destruct (cmp y z); [apply IH|done..].
    + destruct (cmp y z) eqn:Eyz; [apply cmp_eq in Eyz as <-| |done].
      * intros _ _. by rewrite Exy.
      * intros _ _. by rewrite (cmp_trans _ _ _ Exy Eyz).
Qed.

Section ord_facts.
Context `{OrdLaws A}.

Definition ole (a b : A) : Prop := cmp a b ≠ Gt.

Lemma cmp_refl (a : A) : cmp a a = Eq.
Proof. by apply cmp_eq. Qed.

Lemma ole_total a b : ole a b ∨ ole b a.
Proof. unfold ole. rewrite (cmp_antisym a b). destruct (cmp a b); naive_solver. Qed.

Lemma ole_trans a b c : ole a b → ole b c → ole a c.
Proof.
  unfold ole. destruct (cmp a b) eqn:E1; [apply cmp_eq in E1 as ->; done| |done].
  destruct (cmp b c) eqn:E2; [apply cmp_eq in E2 as <-; by rewrite E1| |done].
  by rewrite (cmp_trans _ _ _ E1 E2).
Qed.

Lemma ole_antisym a b : ole a b → ole b a → a = b.
Proof.
  unfold ole. rewrite (cmp_antisym a b). rewrite <-cmp_eq.
  destruct (cmp a b); naive_solver.
Qed.
End ord_facts.

(** * [slice::sort_by_key]: the stable sort by a key *)

Section sort_by_key.
Context {A K : Type} `{OrdLaws K} (key : A → K).

Fixpoint insert_by_key (x : A) (l : list A) : list A :=
  match l with
  | [] => [x]
  | y :: l' =>
      match cmp (key x) (key y) with
      | Gt => y :: insert_by_key x l'
      | _ => x :: l
      end
  end.

Definition sort_by_key (l : list A) : list A := foldr insert_by_key [] l.

Lemma insert_by_key_perm x l : insert_by_key x l ≡ₚ x :: l.
Proof.
  induction l as [|y l IH]; cbn; [done|].
  destruct (cmp _ _); [done..|]. rewrite IH. by constructor.
Qed.

Lemma sort_by_key_perm l : sort_by_key l ≡ₚ l.
Proof. induction l as [|x l IH]; cbn; [done|]. by rewrite insert_by_key_perm, IH. Qed.

Lemma sort_by_key_length l : length (sort_by_key l) = length l.
Proof. apply Permutation_length, sort_by_key_perm. Qed.

Let le_key (x y : A) : Prop := ole (key x) (key y).

Lemma insert_by_key_sorted x l :
  StronglySorted le_key l → StronglySorted le_key (insert_by_key x l).
Proof.
  induction 1 as [|y l Hl IH Hy]; cbn; [repeat constructor|].
  destruct (cmp (key x) (key y)) eqn:E.
  1,2: assert (Hxy : le_key x y) by (unfold le_key, ole; congruence);
       constructor; [by constructor|constructor; [done|]];
       eapply Forall_impl; [exact Hy|]; intros z Hyz; exact (ole_trans _ _ _ Hxy Hyz).
  constructor; [done|]. rewrite insert_by_key_perm. constructor; [|done].
  unfold le_key, ole. rewrite (cmp_antisym (key x)), E. done.
Qed.

Lemma sort_by_key_sorted l : StronglySorted le_key (sort_by_key l).
Proof. induction l; cbn; [constructor|by apply insert_by_key_sorted]. Qed.

(** With pairwise distinct keys the sorted list does not depend on the
    order the input came in. *)
Lemma sort_by_key_unique l k :
  NoDup (key <$> l) → l ≡ₚ k → sort_by_key l = sort_by_key k.
Proof.
  intros Hnd Hperm.
  assert (Hinj : ∀ x y, x ∈ l → y ∈ l → key x = key y → x = y).
  { clear -Hnd. induction l as [|z l IH]; [set_solver|].
    cbn in Hnd. apply NoDup_cons in Hnd as [Hz Hnd]. intros x y Hx Hy Hk.
    apply elem_of_cons in Hx, Hy. destruct Hx as [->|Hx], Hy as [->|Hy]; [done|..].
    - destruct Hz. rewrite Hk. by apply list_elem_of_fmap_2.
    - destruct Hz. rewrite <-Hk. by apply list_elem_of_fmap_2.
    - by apply IH. }
  apply (StronglySorted_unique_strong le_key);
    [|apply sort_by_key_sorted..|by rewrite !sort_by_key_perm].
  intros x y Hx Hy Hxy Hyx. rewrite sort_by_key_perm in Hx. rewrite sort_by_key_perm, <-Hperm in Hy.
  apply Hinj; [done..|]. exact (ole_antisym _ _ Hxy Hyx).
Qed.
End sort_by_key.

(** * Collisions

    What a hash binds is stated over the messages that were hashed: [collides]
    says that two different ones of a given list have one image, [hits] that one
    of them has a given image.  Both are decidable, and both grow with the
    list. *)

Section collisions.
Context {A B : Type} `{EqDecision A, EqDecision B} (h : A → B).
Implicit Types (ms ks : list A).

Definition collides ms : Prop := ∃ x y, x ∈ ms ∧ y ∈ ms ∧ x ≠ y ∧ h x = h y.
Definition hits (v : B) ms : Prop := ∃ x, x ∈ ms ∧ h x = v.

#[export] Instance collides_dec ms : Decision (collides ms).
Proof.
  refine (cast_if (decide (Exists (λ x, Exists (λ y, x ≠ y ∧ h x = h y) ms) ms)));
    [abstract (rewrite Exists_exists in e; setoid_rewrite Exists_exists in e; unfold collides; naive_solver)
    |abstract (rewrite Exists_exists in n; setoid_rewrite Exists_exists in n; unfold collides; naive_solver)].
Defined.

#[export] Instance hits_dec v ms : Decision (hits v ms).
Proof.
  refine (cast_if (decide (Exists (λ x, h x = v) ms)));
    [abstract (by rewrite Exists_exists in e)|abstract (by rewrite Exists_exists in n)].
Defined.

Lemma collides_mono ms ks : ms ⊆ ks → collides ms → collides ks.
Proof. intros Hs (x & y & Hx & Hy & Hxy). exists x, y. auto. Qed.

Lemma hits_mono v ms ks : ms ⊆ ks → hits v ms → hits v ks.
Proof. intros Hs (x & Hx & E). exists x. auto. Qed.

Lemma inj_or_collides x y : h x = h y → x = y ∨ collides [x; y].
Proof.
  intros E. destruct (decide (x = y)); [by left|right].
  exists x, y. split_and!; [by left|by right; left|done|done].
Qed.

Lemma avoids_or_hits v x : h x ≠ v ∨ hits v [x].
Proof. destruct (decide (h x = v)); [right|by left]. exists x. split; [by left|done]. Qed.
End collisions.

Lemma app_included {A} (l k ms : list A) : l ⊆ ms → k ⊆ ms → l ++ k ⊆ ms.
Proof. intros Hl Hk x [Hx|Hx]%elem_of_app; auto. Qed.

Lemma cons_included {A} (x : A) l ms : x ∈ ms → l ⊆ ms → x :: l ⊆ ms.
Proof. intros Hx Hl y [->|Hy]%elem_of_cons; auto. Qed.

Lemma included_app_l {A} (l k ms : list A) : l ⊆ k → l ⊆ k ++ ms.
Proof. intros Hl x Hx. apply elem_of_app. auto. Qed.

Lemma included_app_r {A} (l k ms : list A) : l ⊆ k → l ⊆ ms ++ k.
Proof. intros Hl x Hx. apply elem_of_app. auto. Qed.

Lemma included_cons {A} (x : A) l ms : l ⊆ ms → l ⊆ x :: ms.
Proof. intros Hl y Hy. apply elem_of_cons. auto. Qed.

(** Inclusion of message lists.  [messages] unfolds the names of such lists, when
    the names alone do not show it. *)
Create HintDb messages.

Ltac in_messages :=
  lazymatch goal with
  | |- ?x ∈ ?y :: _ =>
      first [constr_eq x y; apply list_elem_of_here
            |apply list_elem_of_further; in_messages
            |apply list_elem_of_here]
  | |- _ ∈ _ ++ _ => apply elem_of_app; first [left; in_messages|right; in_messages]
  | |- _ => assumption
  end.

Ltac within_messages :=
  first
    [ eassumption
    | reflexivity
    | lazymatch goal with
      | |- _ ⊆ _ ++ _ => first [apply included_app_l; within_messages|apply included_app_r; within_messages]
      | |- _ ⊆ _ :: _ => apply included_cons; within_messages
      end ].

Ltac included_messages :=
  lazymatch goal with
  | |- [] ⊆ _ => apply list_subseteq_nil
  | |- _ :: _ ⊆ _ => apply cons_included; [in_messages|included_messages]
  | |- _ ++ _ ⊆ _ => apply app_included; included_messages
  | |- _ ⊆ _ => within_messages
  end.

Ltac solve_messages :=
  solve [included_messages | autounfold with messages; cbn [app]; included_messages].

(** A goal [P ∨ .. ∨ C ks] from a hypothesis [C ms] with [ms] in [ks], where [C]
    is one of the two. *)
Ltac by_messages :=
  solve
    [ match goal with
      | H : _ |- _ => eapply collides_mono; [|exact H]; solve_messages
      | H : _ |- _ => eapply hits_mono; [|exact H]; solve_messages
      end
    | right; by_messages
    | left; by_messages ].

(** No two of the concrete messages of [H] collide (none hits the value). *)
Ltac no_collision H := exfalso; revert H; apply (bool_decide_unpack _); by vm_compute.

(** * Generic list facts *)

Lemma take_app_length' {A} (l k : list A) n : n = length l → take n (l ++ k) = l.
Proof. intros ->. by rewrite take_app_length. Qed.

Lemma drop_app_length' {A} (l k : list A) n : n = length l → drop n (l ++ k) = k.
Proof. intros ->. by rewrite drop_app_length. Qed.

Lemma app_eq_length_inv {A} (l1 l2 k1 k2 : list A) :
  length l1 = length k1 → l1 ++ l2 = k1 ++ k2 → l1 = k1 ∧ l2 = k2.
Proof. intros ? ?. by apply app_inj_1. Qed.

(** [if let Some(x) = opt { f(x)?; }] *)
Definition when_some {E A} (o : option A) (f : A → result E unit) : result E unit :=
  match o with Some a => f a | None => Ok () end.

Lemma when_some_ok {E A} (o : option A) (f : A → result E unit) u :
  when_some o f = Ok u ↔ ∀ a, o = Some a → f a = Ok ().
Proof. destruct u, o; naive_solver. Qed.

(** The keys and the values of a [BTreeMap], in key order. *)
Definition ordered {K A} `{Countable K} `{Ord K} (m : gmap K A) : list (K * A) :=
  sort_by_key fst (map_to_list m).
