(* ===== verification/Bytes.v ===== *)
(** Machine integers and fixed-width byte arrays.

    [uint w] is Rust's unsigned [w]-bit integer, [bytes n] is [[u8; n]]
    ([Bytes32] is [bytes 32], src/crates/rgk-core/src/bytes.rs) and
    [list byte] is a byte slice or [Vec<u8>].  The width of an integer and
    the length of an array are part of the type, carried by a strict
    proposition, so that two values are convertible as soon as their contents
    are and [vm_compute] compares them directly. *)

From stdpp Require Import base list gmap numbers.
From Stdlib Require Import ZArith Lia Strings.Byte StrictProp.
From S2P Require Import Prelude.

Abbreviation byte := (Init.Byte.byte).
Abbreviation u8 := (Init.Byte.byte).

(** * Strict truth *)

Definition STrue (b : bool) : SProp := if b then sUnit else sEmpty.

Lemma STrue_elim b : STrue b → b = true.
Proof. destruct b; [done|]. intros f; destruct f. Qed.

Definition STrue_intro b (H : b = true) : STrue b :=
  match H in _ = c return STrue c → STrue b with eq_refl => λ s, s end stt.

(** * Bytes *)

Definition byte_Z (b : byte) : Z := Z.of_N (Byte.to_N b).

Definition byte_of_Z (z : Z) : byte :=
  match Byte.of_N (Z.to_N (z mod 256)) with Some b => b | None => x00 end.

#[export] Instance byte_eq_decision : EqDecision byte := Byte.byte_eq_dec.

Lemma byte_Z_range b : (0 <= byte_Z b < 256)%Z.
Proof. unfold byte_Z. pose proof (Byte.to_N_bounded b). lia. Qed.

Lemma byte_of_Z_Z b : byte_of_Z (byte_Z b) = b.
Proof.
  unfold byte_of_Z. rewrite Z.mod_small by apply byte_Z_range.
  unfold byte_Z. by rewrite N2Z.id, Byte.of_to_N.
Qed.

Lemma byte_Z_of_Z z : byte_Z (byte_of_Z z) = (z mod 256)%Z.
Proof.
  unfold byte_of_Z. pose proof (Z.mod_pos_bound z 256 ltac:(lia)) as Hz.
  destruct (Byte.of_N _) as [b|] eqn:E.
  - unfold byte_Z. apply Byte.to_of_N in E. rewrite E. lia.
  - apply Byte.of_N_None_iff in E. lia.
Qed.

#[export] Instance byte_Z_inj : Inj (=) (=) byte_Z.
Proof. intros a b H. by rewrite <-(byte_of_Z_Z a), H, byte_of_Z_Z. Qed.

#[export] Instance byte_ord : Ord byte := λ a b, Z.compare (byte_Z a) (byte_Z b).
#[export] Instance byte_ord_laws : OrdLaws byte.
Proof. apply (inj_ord_laws byte_Z); [apply _|done]. Qed.

#[export] Instance byte_countable : Countable byte.
Proof. exact (inj_countable' byte_Z byte_of_Z byte_of_Z_Z). Defined.

(** * Little-endian digits: [to_le_bytes] and [from_le_bytes] *)

Fixpoint le_bytes (n : nat) (z : Z) : list byte :=
  match n with
  | O => []
  | S n' => byte_of_Z z :: le_bytes n' (z / 256)
  end.

Fixpoint le_val (l : list byte) : Z :=
  match l with
  | [] => 0
  | b :: l' => byte_Z b + 256 * le_val l'
  end.

Lemma le_bytes_length n z : length (le_bytes n z) = n.
Proof. revert z; induction n as [|n IH]; intros z; cbn; [done|]. by rewrite IH. Qed.

Lemma le_val_le_bytes n z : le_val (le_bytes n z) = (z mod 256 ^ Z.of_nat n)%Z.
Proof.
  revert z; induction n as [|n IH]; intros z; [by rewrite Z.mod_1_r|].
  cbn [le_bytes le_val]. rewrite byte_Z_of_Z, IH, Nat2Z.inj_succ, Z.pow_succ_r by lia.
  by rewrite (Z.rem_mul_r z 256) by lia.
Qed.

Lemma le_val_range l : (0 <= le_val l < 256 ^ Z.of_nat (length l))%Z.
Proof.
  induction l as [|b l IH]; [done|].
  cbn [le_val length]. rewrite Nat2Z.inj_succ, Z.pow_succ_r by lia.
  pose proof (byte_Z_range b). lia.
Qed.

Lemma le_bytes_le_val l : le_bytes (length l) (le_val l) = l.
Proof.
  induction l as [|b l IH]; [done|]. cbn [le_val length le_bytes].
  pose proof (byte_Z_range b). f_equal.
  - apply byte_Z_inj. rewrite byte_Z_of_Z, (Z.mul_comm 256), Z_mod_plus_full.
    by apply Z.mod_small.
  - by rewrite (Z.mul_comm 256), Z.div_add, Z.div_small, Z.add_0_l by lia.
Qed.

(** * Unsigned machine integers *)

Record uint (w : positive) := Uint {
  uval :> Z;
  uint_wf : STrue ((0 <=? uval)%Z && (uval <? 2 ^ Z.pos w)%Z)
}.
Arguments Uint {w} uval uint_wf.
Arguments uval {w} u.

Abbreviation u16 := ((uint 16)).
Abbreviation u32 := ((uint 32)).
Abbreviation u64 := ((uint 64)).

Lemma uint_range {w} (u : uint w) : (0 <= u < 2 ^ Z.pos w)%Z.
Proof. destruct u as [z Hz]; cbn. apply STrue_elim in Hz. lia. Qed.

#[export] Instance uval_inj {w} : Inj (=) (=) (@uval w).
Proof. intros [a Ha] [b Hb]; cbn. by intros <-. Qed.

#[export] Instance uint_eq_dec {w} : EqDecision (uint w).
Proof.
  refine (λ a b, match decide (uval a = uval b) with
                 | left H => left (inj uval a b H)
                 | right H => right _
                 end).
  by intros ->.
Defined.

#[export] Instance uint_ord {w} : Ord (uint w) := λ a b, Z.compare a b.
#[export] Instance uint_ord_laws {w} : OrdLaws (uint w).
Proof. apply (inj_ord_laws uval); [apply _|done]. Qed.

(** [z as uN]: the value modulo [2^w]. *)
Lemma uint_wrap_wf w z :
  ((0 <=? z mod 2 ^ Z.pos w)%Z && (z mod 2 ^ Z.pos w <? 2 ^ Z.pos w)%Z) = true.
Proof. pose proof (Z.mod_pos_bound z (2 ^ Z.pos w) ltac:(lia)). lia. Qed.

Definition wrap (w : positive) (z : Z) : uint w :=
  Uint (z mod 2 ^ Z.pos w) (STrue_intro _ (uint_wrap_wf w z)).

Lemma uval_wrap w z : uval (wrap w z) = (z mod 2 ^ Z.pos w)%Z.
Proof. done. Qed.

Lemma uval_wrap_small w z : (0 <= z < 2 ^ Z.pos w)%Z → uval (wrap w z) = z.
Proof. apply Z.mod_small. Qed.

Lemma wrap_uval {w} (u : uint w) : wrap w u = u.
Proof. apply (inj uval). rewrite uval_wrap_small; [done|apply uint_range]. Qed.

(** [usize] is 64 bits wide on the targets of the repository. *)
Abbreviation usize := (uint 64).

Definition usize_of (n : nat) : usize := wrap 64 (Z.of_nat n).

Lemma uval_usize_of n : (Z.of_nat n < 2 ^ 64)%Z → uval (usize_of n) = Z.of_nat n.
Proof. intros. apply uval_wrap_small. lia. Qed.

(** [checked_add]: [None] on overflow; [saturating_sub]: clamps at zero;
    [sub]: plain subtraction, used by the source only when [b <= a]. *)
Definition checked_add {w} (a b : uint w) : option (uint w) :=
  if decide (a + b < 2 ^ Z.pos w)%Z then Some (wrap w (a + b)) else None.

Definition saturating_sub {w} (a b : uint w) : uint w := wrap w (Z.max 0 (a - b)).

(** [a + b] in the release profile, and [saturating_add]. *)
Definition wrapping_add {w} (a b : uint w) : uint w := wrap w (a + b).
Definition saturating_add {w} (a b : uint w) : uint w := wrap w (Z.min (2 ^ Z.pos w - 1) (a + b)).

Definition usub {w} (a b : uint w) : uint w := wrap w (a - b).

Lemma checked_add_some {w} (a b c : uint w) :
  checked_add a b = Some c ↔ (uval c = a + b)%Z.
Proof.
  unfold checked_add. pose proof (uint_range a). pose proof (uint_range b).
  pose proof (uint_range c). case_decide; split.
  - intros [= <-]. rewrite uval_wrap_small; lia.
  - intros E. f_equal. apply (inj uval). rewrite uval_wrap_small; lia.
  - done.
  - lia.
Qed.

Lemma checked_add_none {w} (a b : uint w) :
  checked_add a b = None ↔ (2 ^ Z.pos w <= a + b)%Z.
Proof. unfold checked_add. case_decide; split; intros; [done|lia|lia|done]. Qed.

Lemma uval_usub {w} (a b : uint w) : (b <= a)%Z → uval (usub a b) = (a - b)%Z.
Proof.
  intros. pose proof (uint_range a). pose proof (uint_range b).
  unfold usub. rewrite uval_wrap_small; lia.
Qed.

Lemma uval_saturating_add {w} (a b : uint w) :
  uval (saturating_add a b) = Z.min (2 ^ Z.pos w - 1) (a + b).
Proof.
  pose proof (uint_range a). pose proof (uint_range b). unfold saturating_add.
  apply uval_wrap_small. pose proof (Z.pow_pos_nonneg 2 (Z.pos w)). lia.
Qed.

Lemma uval_saturating_sub {w} (a b : uint w) :
  uval (saturating_sub a b) = Z.max 0 (a - b).
Proof.
  pose proof (uint_range a). pose proof (uint_range b).
  unfold saturating_sub. rewrite uval_wrap_small; lia.
Qed.

(** [uN::to_le_bytes] and [uN::from_le_bytes] *)
Definition u16_le (v : u16) : list byte := le_bytes 2 v.
Definition u32_le (v : u32) : list byte := le_bytes 4 v.
Definition u64_le (v : u64) : list byte := le_bytes 8 v.
Arguments u16_le v : simpl never.
Arguments u32_le v : simpl never.
Arguments u64_le v : simpl never.

Lemma le_val_inj l k : length l = length k → le_val l = le_val k → l = k.
Proof. intros Hl E. rewrite <-(le_bytes_le_val l), <-(le_bytes_le_val k), Hl, E. done. Qed.

Lemma wrap_le_val w n (u : uint w) :
  (256 ^ Z.of_nat n = 2 ^ Z.pos w)%Z → wrap w (le_val (le_bytes n u)) = u.
Proof.
  intros Hw. rewrite le_val_le_bytes, Hw, Z.mod_small by apply uint_range. apply wrap_uval.
Qed.

Lemma le_bytes_wrap w n l :
  (256 ^ Z.of_nat n = 2 ^ Z.pos w)%Z → length l = n → le_bytes n (wrap w (le_val l)) = l.
Proof.
  intros Hw <-. rewrite uval_wrap_small by (rewrite <-Hw; apply le_val_range).
  apply le_bytes_le_val.
Qed.

Lemma u64_le_length v : length (u64_le v) = 8%nat.
Proof. apply le_bytes_length. Qed.
Lemma u32_le_length v : length (u32_le v) = 4%nat.
Proof. apply le_bytes_length. Qed.

(** * Fixed-width arrays *)

Record bytes (n : nat) := MkBytes {
  blist :> list byte;
  bytes_wf : STrue (Nat.eqb (length blist) n)
}.
Arguments MkBytes {n} blist bytes_wf.
Arguments blist {n} b.

Abbreviation Bytes20 := (bytes 20).
Abbreviation Bytes32 := (bytes 32).
Abbreviation Bytes64 := (bytes 64).

Lemma bytes_length {n} (b : bytes n) : length b = n.
Proof. destruct b as [l Hl]; cbn. by apply Nat.eqb_eq, STrue_elim. Qed.

#[export] Instance blist_inj {n} : Inj (=) (=) (@blist n).
Proof. intros [a Ha] [b Hb]; cbn. by intros <-. Qed.

#[export] Instance bytes_eq_dec {n} : EqDecision (bytes n).
Proof.
  refine (λ a b, match decide (blist a = blist b) with
                 | left H => left (inj blist a b H)
                 | right H => right _
                 end).
  by intros ->.
Defined.

#[export] Instance bytes_ord {n} : Ord (bytes n) := λ a b, cmp (blist a) (blist b).
#[export] Instance bytes_ord_laws {n} : OrdLaws (bytes n).
Proof. apply (inj_ord_laws blist); [apply _|done]. Qed.

(** [let mut out = [0u8; N]; out.copy_from_slice(l)]: the slice's bytes, in an
    array of the declared width. *)
Lemma bytes_pad_wf n l :
  Nat.eqb (length (take n l ++ replicate (n - length l) x00)) n = true.
Proof. apply Nat.eqb_eq. rewrite length_app, length_take, length_replicate. lia. Qed.

Definition to_array (n : nat) (l : list byte) : bytes n :=
  MkBytes (take n l ++ replicate (n - length l) x00) (STrue_intro _ (bytes_pad_wf n l)).

Lemma to_array_list n l : length l = n → blist (to_array n l) = l.
Proof.
  intros <-. cbn. rewrite firstn_all, Nat.sub_diag. cbn. apply app_nil_r.
Qed.

Lemma to_array_blist {n} (b : bytes n) : to_array n b = b.
Proof. apply (inj blist), to_array_list, bytes_length. Qed.

(** [[b; N]] *)
Definition fill (n : nat) (b : byte) : bytes n := to_array n (replicate n b).

Abbreviation zero32 := (fill 32 x00).

Definition is_zero32 (b : Bytes32) : bool := forallb (λ x, Byte.eqb x x00) b.

Lemma forallb_zero l :
  forallb (λ x, Byte.eqb x x00) l = true ↔ l = replicate (length l) x00.
Proof.
  induction l as [|x l IH]; [done|]. cbn. rewrite andb_true_iff, IH. split.
  - intros [Hx Hl]. apply Byte.byte_dec_bl in Hx. congruence.
  - intros [= -> Hl]. done.
Qed.

Lemma is_zero32_spec b : is_zero32 b = true ↔ b = zero32.
Proof.
  unfold is_zero32. rewrite forallb_zero, bytes_length.
  change (replicate 32 x00) with (blist zero32).
  split; [apply (inj blist)|by intros ->].
Qed.

(** Array keys of maps. *)
#[export] Instance bytes_countable {n} : Countable (bytes n).
Proof.
  refine (inj_countable' (λ b, le_val (blist b)) (λ z, to_array n (le_bytes n z)) _).
  intros b. pose proof (le_bytes_le_val b) as Hb. rewrite bytes_length in Hb.
  rewrite Hb. apply to_array_blist.
Defined.

#[export] Instance uint_countable {w} : Countable (uint w).
Proof. exact (inj_countable' uval (wrap w) wrap_uval). Defined.

(** The first 32 bytes of a 32-byte array followed by anything are the array. *)
Lemma bytes_app_inj {n} (a b : bytes n) (l k : list byte) :
  blist a ++ l = blist b ++ k → a = b ∧ l = k.
Proof.
  intros H. apply app_inj_1 in H as [H1 H2]; [|by rewrite !bytes_length].
  split; [by apply (inj blist)|done].
Qed.

Lemma le_bytes_app_inj n (x y : Z) (l k : list byte) :
  (0 <= x < 256 ^ Z.of_nat n)%Z → (0 <= y < 256 ^ Z.of_nat n)%Z →
  le_bytes n x ++ l = le_bytes n y ++ k → x = y ∧ l = k.
Proof.
  intros Hx Hy H. apply app_inj_1 in H as [H1 H2]; [|by rewrite !le_bytes_length].
  split; [|done]. apply (f_equal le_val) in H1.
  by rewrite !le_val_le_bytes, !Z.mod_small in H1.
Qed.

Lemma u64_le_app_inj (x y : u64) l k : u64_le x ++ l = u64_le y ++ k → x = y ∧ l = k.
Proof.
  intros H. apply le_bytes_app_inj in H as [H ->]; [|exact (uint_range x)|exact (uint_range y)].
  split; [by apply (inj uval)|done].
Qed.

Lemma u32_le_app_inj (x y : u32) l k : u32_le x ++ l = u32_le y ++ k → x = y ∧ l = k.
Proof.
  intros H. apply le_bytes_app_inj in H as [H ->]; [|exact (uint_range x)|exact (uint_range y)].
  split; [by apply (inj uval)|done].
Qed.

Lemma u16_le_app_inj (x y : u16) l k : u16_le x ++ l = u16_le y ++ k → x = y ∧ l = k.
Proof.
  intros H. apply le_bytes_app_inj in H as [H ->]; [|exact (uint_range x)|exact (uint_range y)].
  split; [by apply (inj uval)|done].
Qed.

Lemma u64_le_inj x y : u64_le x = u64_le y → x = y.
Proof.
  intros E. apply (f_equal (λ l, l ++ [])) in E. by apply u64_le_app_inj in E as [E _].
Qed.

Lemma cons_byte_inj (x y : byte) l k : x :: l = y :: k → x = y ∧ l = k.
Proof. by intros [= -> ->]. Qed.

(** [peel_bytes E] splits [E : a1 ++ .. ++ an = b1 ++ .. ++ bn], field by
    field, for fields of fixed width. *)
Ltac peel_step E :=
  let F := fresh "Ef" in
  match type of E with
  | (blist _ ++ _)%list = _ => apply bytes_app_inj in E as [F E]
  | (u64_le _ ++ _)%list = _ => apply u64_le_app_inj in E as [F E]
  | (u32_le _ ++ _)%list = _ => apply u32_le_app_inj in E as [F E]
  | (u16_le _ ++ _)%list = _ => apply u16_le_app_inj in E as [F E]
  | (_ :: _) = (_ :: _) => apply cons_byte_inj in E as [F E]
  | blist _ = blist _ => apply (inj blist) in E
  end.
Ltac peel_bytes E := cbn [app] in E; rewrite <-?app_assoc in E; repeat (peel_step E; cbn [app] in E).

Lemma is_zero32_false b : is_zero32 b = false ↔ b ≠ zero32.
Proof. pose proof (is_zero32_spec b). destruct (is_zero32 b); naive_solver. Qed.
Lemma is_zero32_not b : ¬ (is_zero32 b = true) ↔ b ≠ zero32.
Proof. by rewrite is_zero32_spec. Qed.

(** Lists of fixed-width encodings. *)
Lemma concat_fixed_inj {A} (f : A → list byte) n :
  (∀ x, length (f x) = S n) → (∀ x y, f x = f y → x = y) →
  ∀ l k, concat (f <$> l) = concat (f <$> k) → l = k.
Proof.
  intros Hlen Hinj. induction l as [|x l IH]; intros [|y k] E; cbn in E; [done|..].
  - apply (f_equal length) in E. rewrite length_app, Hlen in E. done.
  - apply (f_equal length) in E. rewrite length_app, Hlen in E. done.
  - apply app_inj_1 in E as [Ex E]; [|by rewrite !Hlen].
    apply Hinj in Ex as ->. f_equal. by apply IH.
Qed.

Lemma concat_fixed_length {A} (f : A → list byte) n :
  (∀ x, length (f x) = n) → ∀ l, length (concat (f <$> l)) = (length l * n)%nat.
Proof. intros Hlen. induction l as [|x l IH]; [done|]. cbn. by rewrite length_app, Hlen, IH. Qed.
