(* ===== verification/Encoding.v ===== *)
(** The canonical byte encoder and decoder: src/crates/rgk-core/src/encoding.rs
    and the decode errors of src/crates/rgk-core/src/error.rs.

    A [Writer] is the vector of bytes written so far, a [Reader] is the input
    buffer and the cursor in it.  Functions that take [&mut Reader] and can fail
    are values of [parser]; [Canonical] is the source's trait of that name. *)

From stdpp Require Import base list strings.
From Stdlib Require Import ZArith Lia Strings.Byte.
From S2P Require Import Prelude.
From S2P Require Import Bytes.

(** [usize] is 64 bits wide on the supported targets. *)
Definition checked_add_usize (a b : Z) : option Z :=
  if decide (a + b < 2 ^ 64)%Z then Some (a + b)%Z else None.

Inductive DecodeError : Type :=
| Eof
| TrailingBytes (remaining : Z)
| BadMagic
| UnknownVersion (v : u16)
| UnknownChain (tag : u8)
| UnknownReceiptPolicy (tag : u8)
| UnknownProofMode (tag : u8)
| BadDomainTag (expected got : u8)
| BlobTooLong (len max : Z)
| InvalidUtf8
| HexBadLength (expected got : Z)
| HexBadChar (c : u8)
| Structural (msg : string).

#[export] Instance DecodeError_eq_dec : EqDecision DecodeError.
Proof. solve_decision. Defined.

(** * Constants *)

Definition ENCODING_VERSION : u16 := wrap 16 1.
Definition MAX_BLOB_BYTES : u32 := wrap 32 (Z.shiftl 1 20).
(** [b"rgk:v0\x00\x00"] *)
Definition DOMAIN_MAGIC : bytes 8 :=
  to_array 8 [x72; x67; x6b; x3a; x76; x30; x00; x00].

(** * Writer *)

Definition Writer : Type := list byte.
Definition writer_new : Writer := [].
Definition into_vec (w : Writer) : list byte := w.

Definition write_u8 (v : u8) (w : Writer) : Writer := w ++ [v].
Definition write_u16 (v : u16) (w : Writer) : Writer := w ++ u16_le v.
Definition write_u32 (v : u32) (w : Writer) : Writer := w ++ u32_le v.
Definition write_u64 (v : u64) (w : Writer) : Writer := w ++ u64_le v.
Definition write_bytes (b : list byte) (w : Writer) : Writer := w ++ b.
Definition write_bytes20 (b : Bytes20) (w : Writer) : Writer := w ++ b.
Definition write_bytes32 (b : Bytes32) (w : Writer) : Writer := w ++ b.
(** [self.write_u32(b.len() as u32)] truncates the length to 32 bits. *)
Definition write_blob (b : list byte) (w : Writer) : Writer :=
  write_u32 (wrap 32 (Z.of_nat (length b))) w ++ b.
Definition write_str (s : string) (w : Writer) : Writer :=
  write_blob (String.list_byte_of_string s) w.
Definition write_bool (b : bool) (w : Writer) : Writer :=
  write_u8 (if b then x01 else x00) w.

(** Statement sequencing: [f; g] on the same writer. *)
Definition write_seq (f g : Writer → Writer) : Writer → Writer := λ w, g (f w).
Notation "f ▷ g" := (write_seq f g) (at level 60, right associativity).
Definition write_nothing : Writer → Writer := λ w, w.

(** [for x in l { f(x) }] *)
Definition write_all {A} (f : A → Writer → Writer) (l : list A) : Writer → Writer :=
  λ w, foldl (λ w x, f x w) w l.

(** * Reader *)

Record Reader := MkReader { r_buf : list byte; r_pos : nat }.

Definition reader_new (buf : list byte) : Reader := MkReader buf 0.

Definition remaining (r : Reader) : nat := length (r_buf r) - r_pos r.

(** A fallible function of [&mut Reader]. *)
Definition parser (E A : Type) : Type := Reader → result E (A * Reader).

#[export] Instance parser_ret {E} : MRet (parser E) := λ _ a r, Ok (a, r).
#[export] Instance parser_bind {E} : MBind (parser E) := λ _ _ f p r,
  match p r with Ok (a, r') => f a r' | Err e => Err e end.

(** [e?] on a result that does not touch the reader. *)
Definition plift {E A} (m : result E A) : parser E A := λ r,
  match m with Ok a => Ok (a, r) | Err e => Err e end.

(** [.map_err(f)] on a reading call *)
Definition pmap_err {E F A} (f : E → F) (p : parser E A) : parser F A := λ r, map_err f (p r).

(** [for _ in 0..n { out.push(p(r)?) }] *)
Fixpoint read_n {E A} (n : nat) (p : parser E A) : parser E (list A) :=
  match n with
  | O => mret []
  | S n' => x ← p; l ← read_n n' p; mret (x :: l)
  end.

(** [Reader::take] *)
Definition take_bytes (n : nat) : parser DecodeError (list byte) := λ r,
  match checked_add_usize (Z.of_nat (r_pos r)) (Z.of_nat n) with
  | None => Err Eof
  | Some end_ =>
      if decide (Z.of_nat (length (r_buf r)) < end_)%Z then Err Eof
      else Ok (take n (drop (r_pos r) (r_buf r)), MkReader (r_buf r) (r_pos r + n))
  end.

Definition read_array (n : nat) : parser DecodeError (bytes n) :=
  slice ← take_bytes n; mret (to_array n slice).

(** [self.take(1)?[0]] *)
Definition read_u8 : parser DecodeError u8 := s ← take_bytes 1; mret (default x00 (head s)).
Definition read_u16 : parser DecodeError u16 := a ← read_array 2; mret (wrap 16 (le_val (blist a))).
Definition read_u32 : parser DecodeError u32 := a ← read_array 4; mret (wrap 32 (le_val (blist a))).
Definition read_u64 : parser DecodeError u64 := a ← read_array 8; mret (wrap 64 (le_val (blist a))).
Definition read_bytes20 : parser DecodeError Bytes20 := read_array 20.
Definition read_bytes32 : parser DecodeError Bytes32 := read_array 32.
(** [Ok(self.read_u8()? != 0)] *)
Definition read_bool : parser DecodeError bool := b ← read_u8; mret (bool_decide (b ≠ x00)).

Definition read_blob : parser DecodeError (list byte) :=
  len ← read_u32;
  _ ← plift (fail_if (uval MAX_BLOB_BYTES < uval len)%Z (BlobTooLong len MAX_BLOB_BYTES));
  take_bytes (Z.to_nat (uval len)).

Definition ensure_consumed : parser DecodeError unit := λ r,
  if decide (r_pos r = length (r_buf r))%nat then Ok ((), r)
  else Err (TrailingBytes (Z.of_nat (length (r_buf r) - r_pos r))).

(** * The [Canonical] trait and its provided methods *)

Class Canonical (A : Type) := {
  encode : A → Writer → Writer;
  decode : parser DecodeError A
}.

Definition encode_canonical `{Canonical A} (a : A) : list byte :=
  into_vec ((write_bytes DOMAIN_MAGIC ▷ write_u16 ENCODING_VERSION ▷ encode a) writer_new).

Definition decode_canonical `{Canonical A} (buf : list byte) : result DecodeError A :=
  let p : parser DecodeError A :=
    magic ← read_array 8;
    _ ← plift (fail_if (magic ≠ DOMAIN_MAGIC) BadMagic);
    version ← read_u16;
    _ ← plift (fail_if (version ≠ ENCODING_VERSION) (UnknownVersion version));
    value ← decode;
    _ ← ensure_consumed;
    mret value in
  match p (reader_new buf) with Ok (a, _) => Ok a | Err e => Err e end.

Arguments encode_canonical : simpl never.
Arguments decode_canonical : simpl never.
Arguments write_seq : simpl never.

(** * Reading exactly the bytes [bs] *)

Definition step (r : Reader) (bs : list byte) (r' : Reader) : Prop :=
  r_buf r' = r_buf r ∧ r_pos r' = r_pos r + length bs ∧
  r_pos r' ≤ length (r_buf r) ∧ (Z.of_nat (r_pos r') < 2 ^ 64)%Z ∧
  take (length bs) (drop (r_pos r) (r_buf r)) = bs.

Lemma step_app r b1 b2 r'' :
  step r (b1 ++ b2) r'' ↔ ∃ r', step r b1 r' ∧ step r' b2 r''.
Proof.
  unfold step. rewrite length_app. split.
  - intros (Hb & Hp & Hle & Hlt & Ht).
    rewrite <-take_take_drop, drop_drop in Ht.
    assert (Hl : length (take (length b1) (drop (r_pos r) (r_buf r))) = length b1).
    { rewrite length_take, length_drop. lia. }
    apply app_inj_1 in Ht as [Ht1 Ht2]; [|done].
    exists (MkReader (r_buf r) (r_pos r + length b1)); cbn.
    repeat split; try done; try lia.
  - intros (r' & (Hb1 & Hp1 & Hle1 & Hlt1 & Ht1) & (Hb2 & Hp2 & Hle2 & Hlt2 & Ht2)).
    rewrite Hb1 in *. repeat split; [congruence|lia|done|done|].
    rewrite <-take_take_drop, drop_drop. rewrite Hp1 in Ht2. congruence.
Qed.

(** A cursor inside the buffer: every reader the program builds. *)
Definition wf (r : Reader) : Prop :=
  r_pos r ≤ length (r_buf r) ∧ (Z.of_nat (r_pos r) < 2 ^ 64)%Z.

Lemma wf_new buf : wf (reader_new buf).
Proof. unfold wf; cbn. lia. Qed.

Lemma step_wf r bs r' : step r bs r' → wf r'.
Proof. unfold step, wf. intros (-> & _ & ? & ? & _). done. Qed.

Lemma step_refl r : wf r → step r [] r.
Proof. unfold step, wf; cbn. intros [??]. repeat split; try done; lia. Qed.

Lemma step_nil r r' : step r [] r' → r' = r.
Proof.
  destruct r, r'. unfold step; cbn. intros (-> & -> & _). f_equal. lia.
Qed.

(** A reader stepping over the same bytes ends in the same place. *)
Lemma step_det r bs r1 r2 : step r bs r1 → step r bs r2 → r1 = r2.
Proof.
  destruct r1, r2. unfold step; cbn. intros (-> & -> & _) (-> & -> & _). done.
Qed.

Lemma step_length_inj r b1 b2 r1 r2 :
  length b1 = length b2 → step r b1 r1 → step r b2 r2 → b1 = b2.
Proof. unfold step. intros Hl (_ & _ & _ & _ & H1) (_ & _ & _ & _ & H2). congruence. Qed.

Lemma take_bytes_ok n r bs r' :
  take_bytes n r = Ok (bs, r') ↔ length bs = n ∧ step r bs r'.
Proof.
  unfold take_bytes, checked_add_usize, step. split.
  - case_decide; [|done]. case_decide; [done|]. intros [= <- <-]; cbn.
    rewrite length_take, length_drop. repeat split; try lia.
    rewrite Nat.min_l by lia. done.
  - intros (<- & Hb & Hp & Hle & Hlt & Ht). rewrite decide_True by lia.
    rewrite decide_False by lia. rewrite Ht. destruct r'; cbn in *; subst. done.
Qed.

(** Running a reader that consumes the whole buffer, or stops early. *)
Lemma step_whole buf bs r' :
  step (reader_new buf) bs r' → r_pos r' = length (r_buf r') → buf = bs.
Proof.
  destruct r' as [b p]. unfold step, reader_new; cbn. intros (-> & -> & Hle & _ & Ht) He.
  rewrite drop_0 in Ht. rewrite <-Ht, He. by rewrite firstn_all.
Qed.

Lemma step_whole_intro bs :
  (Z.of_nat (length bs) < 2 ^ 64)%Z → step (reader_new bs) bs (MkReader bs (length bs)).
Proof. unfold step, reader_new; cbn. intros. rewrite drop_0, firstn_all. repeat split; lia || done. Qed.

(** * Appending writers *)

(** A writer only ever appends. *)
Class Appending (f : Writer → Writer) := appending w : f w = w ++ f [].

#[export] Instance write_u8_appending v : Appending (write_u8 v).
Proof. done. Qed.
#[export] Instance write_u16_appending v : Appending (write_u16 v).
Proof. done. Qed.
#[export] Instance write_u32_appending v : Appending (write_u32 v).
Proof. done. Qed.
#[export] Instance write_u64_appending v : Appending (write_u64 v).
Proof. done. Qed.
#[export] Instance write_bytes_appending b : Appending (write_bytes b).
Proof. done. Qed.
#[export] Instance write_bytes32_appending b : Appending (write_bytes32 b).
Proof. done. Qed.
#[export] Instance write_blob_appending b : Appending (write_blob b).
Proof. intros w. unfold write_blob, write_u32. by rewrite app_assoc. Qed.
#[export] Instance write_bool_appending b : Appending (write_bool b).
Proof. done. Qed.
#[export] Instance write_nothing_appending : Appending write_nothing.
Proof. intros w. unfold write_nothing. by rewrite app_nil_r. Qed.
#[export] Instance write_seq_appending f g :
  Appending f → Appending g → Appending (f ▷ g).
Proof.
  intros Hf Hg w. unfold write_seq. rewrite (Hg (f w)), (Hg (f [])), (Hf w).
  by rewrite app_assoc.
Qed.

Lemma write_all_cons {A} (f : A → Writer → Writer) x l :
  write_all f (x :: l) = f x ▷ write_all f l.
Proof. done. Qed.

#[export] Instance write_all_appending {A} (f : A → Writer → Writer) l :
  (∀ x, Appending (f x)) → Appending (write_all f l).
Proof.
  intros Hf. induction l as [|x l IH]; [apply write_nothing_appending|].
  rewrite write_all_cons. apply _.
Qed.

Lemma write_seq_nil f g `{!Appending g} : (f ▷ g) [] = f [] ++ g [].
Proof. unfold write_seq. apply appending. Qed.

Lemma step_seq f g `{!Appending g} r r'' :
  step r ((f ▷ g) []) r'' ↔ ∃ r', step r (f []) r' ∧ step r' (g []) r''.
Proof. rewrite write_seq_nil by done. apply step_app. Qed.

(** * Codecs *)

(** [p] reads exactly what [f] writes, for the values that satisfy [P]: the
    left-to-right direction says that [p] accepts no other bytes for a value
    (no second encoding), the right-to-left one that it accepts these. *)
Class Codec {E A} (p : parser E A) (P : A → Prop) (f : A → Writer → Writer) :=
  codec_iff r a r' : wf r → p r = Ok (a, r') ↔ P a ∧ step r (f a []) r'.
#[export] Hint Mode Codec + + ! - - : typeclass_instances.

Definition always {A} (_ : A) : Prop := True.

Lemma pbind_ok {E A B} (p : parser E A) (k : A → parser E B) r b r' :
  (p ≫= k) r = Ok (b, r') ↔ ∃ a r1, p r = Ok (a, r1) ∧ k a r1 = Ok (b, r').
Proof. unfold mbind, parser_bind. destruct (p r) as [[a r1]|e]; naive_solver. Qed.

Lemma plift_ok {E A} (m : result E A) r a r' : plift m r = Ok (a, r') ↔ m = Ok a ∧ r' = r.
Proof. unfold plift. destruct m; naive_solver. Qed.

Lemma pmap_err_ok {E F A} (f : E → F) (p : parser E A) r a :
  pmap_err f p r = Ok a ↔ p r = Ok a.
Proof. apply map_err_ok. Qed.

Lemma pret_ok {E A} (a : A) r b r' : (mret a : parser E A) r = Ok (b, r') ↔ b = a ∧ r' = r.
Proof. unfold mret, parser_ret. naive_solver. Qed.

(** The two directions, with the reader's invariant threaded through. *)
Lemma codec_sound {E A} (p : parser E A) P f `{!Codec p P f} r a r' :
  wf r → p r = Ok (a, r') → P a ∧ step r (f a []) r' ∧ wf r'.
Proof. intros Hr H. apply codec_iff in H as [??]; eauto using step_wf. Qed.

Lemma codec_complete {E A} (p : parser E A) P f `{!Codec p P f} r a r' :
  wf r → P a → step r (f a []) r' → p r = Ok (a, r').
Proof. intros Hr ??. by apply codec_iff. Qed.

Lemma pbind_intro {E A B} (p : parser E A) (k : A → parser E B) r a r1 :
  p r = Ok (a, r1) → (p ≫= k) r = k a r1.
Proof. unfold mbind, parser_bind. by intros ->. Qed.

Lemma plift_intro {E A B} (m : result E A) (k : A → parser E B) r a :
  m = Ok a → (plift m ≫= k) r = k a r.
Proof. unfold mbind, parser_bind, plift. by intros ->. Qed.

#[export] Instance pmap_err_codec {E F A} (g : E → F) (p : parser E A) P f :
  Codec p P f → Codec (pmap_err g p) P f.
Proof. intros Hc r a r' Hr. rewrite pmap_err_ok. by apply Hc. Qed.

(** The primitive readers. *)
#[export] Instance read_array_codec n :
  Codec (read_array n) always (λ b : bytes n, write_bytes b).
Proof.
  intros r a r' Hr. unfold read_array. rewrite pbind_ok. setoid_rewrite take_bytes_ok.
  setoid_rewrite pret_ok. unfold write_bytes, always; cbn [app]. split.
  - intros (s & r1 & [Hl Hs] & -> & ->). by rewrite to_array_list.
  - intros [_ Hs]. exists (blist a), r'. split; [|split; [by rewrite to_array_blist|done]].
    split; [apply bytes_length|done].
Qed.

#[export] Instance read_bytes32_codec : Codec read_bytes32 always write_bytes32 := read_array_codec 32.

Lemma read_uint_codec w n (p : parser DecodeError (uint w)) :
  (256 ^ Z.of_nat n = 2 ^ Z.pos w)%Z →
  p = (a ← read_array n; mret (wrap w (le_val (blist a)))) →
  Codec p always (λ u w', w' ++ le_bytes n (uval u)).
Proof.
  intros Hw -> r a r' Hr. rewrite pbind_ok. setoid_rewrite pret_ok. cbn [app]. split.
  - intros (s & r1 & Hs & -> & ->). apply codec_iff in Hs as [_ Hs]; [|done]. split; [done|].
    rewrite le_bytes_wrap; [done..|apply bytes_length].
  - intros [_ Hs]. exists (to_array n (le_bytes n a)), r'.
    assert (Hb : blist (to_array n (le_bytes n a)) = le_bytes n a)
      by (apply to_array_list, le_bytes_length).
    split; [|split; [|done]].
    + apply codec_iff; [done|]. unfold write_bytes; cbn [app]. by rewrite Hb.
    + rewrite Hb. symmetry. by apply wrap_le_val.
Qed.

#[export] Instance read_u16_codec : Codec read_u16 always write_u16.
Proof. by apply (read_uint_codec 16 2). Qed.
#[export] Instance read_u32_codec : Codec read_u32 always write_u32.
Proof. by apply (read_uint_codec 32 4). Qed.
#[export] Instance read_u64_codec : Codec read_u64 always write_u64.
Proof. by apply (read_uint_codec 64 8). Qed.

#[export] Instance read_u8_codec : Codec read_u8 always write_u8.
Proof.
  intros r a r' Hr. unfold read_u8. rewrite pbind_ok. setoid_rewrite take_bytes_ok.
  setoid_rewrite pret_ok. unfold write_u8; cbn [app]. split.
  - intros (s & r1 & [Hl Hs] & -> & ->). destruct s as [|b [|? ?]]; done.
  - intros [_ Hs]. by exists [a], r'.
Qed.

(** [write_bool] writes 0 or 1; [read_bool] takes every non-zero byte for
    [true], so it reads back what was written but accepts more. *)
Lemma read_bool_ok r b r' :
  wf r → read_bool r = Ok (b, r') ↔ ∃ c, step r [c] r' ∧ b = bool_decide (c ≠ x00).
Proof.
  intros Hr. unfold read_bool. rewrite pbind_ok. setoid_rewrite pret_ok. split.
  - intros (c & r1 & H & -> & ->). apply codec_iff in H as [_ H]; [|done]. by exists c.
  - intros (c & H & ->). exists c, r'. split; [|done]. by apply codec_iff.
Qed.

Lemma read_bool_write b r r' :
  wf r → step r (write_bool b []) r' → read_bool r = Ok (b, r').
Proof. intros Hr Hs. apply read_bool_ok; [done|]. eexists; split; [exact Hs|]. by destruct b. Qed.

#[export] Instance read_blob_codec :
  Codec read_blob (λ b, Z.of_nat (length b) <= MAX_BLOB_BYTES)%Z write_blob.
Proof.
  intros r a r' Hr. unfold read_blob. rewrite pbind_ok. unfold write_blob, write_u32 at 1; cbn [app].
  rewrite step_app. assert (Hmax : (MAX_BLOB_BYTES < 2 ^ 32)%Z) by done. split.
  - intros (len & r1 & H1 & H). apply codec_iff in H1 as [_ H1]; [|done].
    rewrite pbind_ok in H. destruct H as (u & r2 & H2 & H).
    apply plift_ok in H2 as [H2 ->]. apply fail_if_ok in H2.
    apply take_bytes_ok in H as [Hl H]. pose proof (uint_range len). split; [lia|].
    exists r1. split; [|done]. replace (wrap 32 _) with len; [done|].
    apply (inj uval). rewrite uval_wrap_small; lia.
  - intros (Hle & r1 & H1 & H2). exists (wrap 32 (Z.of_nat (length a))), r1.
    split; [by apply codec_iff|]. rewrite pbind_ok. exists (), r1.
    assert (Hv : uval (wrap 32 (Z.of_nat (length a))) = Z.of_nat (length a))
      by (apply uval_wrap_small; lia).
    split.
    + apply plift_ok. split; [|done]. apply fail_if_false. lia.
    + apply take_bytes_ok. split; [lia|done].
Qed.

Lemma read_n_codec {E A} (p : parser E A) P f n :
  Codec p P f → (∀ a, Appending (f a)) →
  Codec (read_n n p) (λ l, length l = n ∧ Forall P l) (write_all f).
Proof.
  intros Hp Hf. induction n as [|n IH]; intros r l r' Hr; cbn [read_n].
  - rewrite pret_ok. split.
    + intros [-> ->]. split; [by split; [|constructor]|by apply step_refl].
    + intros [[Hl _] Hs]. destruct l; [|done]. by apply step_nil in Hs as ->.
  - rewrite pbind_ok. setoid_rewrite pbind_ok. setoid_rewrite pret_ok. split.
    + intros (x & r1 & Hx & l' & r2 & Hl' & -> & ->).
      destruct (codec_sound p _ _ _ _ _ Hr Hx) as (HP & Hs & Hr1).
      apply IH in Hl' as [[Hlen HF] Hs']; [|done].
      rewrite write_all_cons, step_seq by apply _. cbn. eauto 10.
    + intros [[Hlen HF] Hs]. destruct l as [|x l']; [done|].
      rewrite write_all_cons, step_seq in Hs by apply _. destruct Hs as (r1 & Hs1 & Hs2).
      apply Forall_cons in HF as [HP HF]. exists x, r1.
      split; [by apply codec_iff|]. exists l', r'. split; [|done].
      apply IH; [by eapply step_wf|]. split; [|done]. split; [|done]. cbn in Hlen; lia.
Qed.

(** [sound_steps] inverts a successful run of a do-block, one reading call at
    a time; [complete_steps] replays one on the bytes its encoder wrote. *)
Ltac sound_step :=
  match goal with
  | H : (_ ≫= _) _ = Ok _ |- _ => apply pbind_ok in H as (? & ? & ? & H)
  | H : plift _ _ = Ok _ |- _ => apply plift_ok in H as [H ->]
  | H : (mret _) _ = Ok (_, _) |- _ => apply pret_ok in H as [H ->]; try subst
  | Hw : wf ?r, H : ?p ?r = Ok _ |- _ => destruct (codec_sound p _ _ _ _ _ Hw H) as (? & ? & ?); clear H
  | H : fail_if _ _ = Ok _ |- _ => apply fail_if_ok in H
  | H : map_err _ _ = Ok _ |- _ => apply map_err_ok in H
  | H : ok_or _ _ = Ok _ |- _ => apply ok_or_ok in H
  | H : ¬ (_ ≠ _) |- _ => apply dec_stable in H; try subst
  | u : unit |- _ => destruct u
  end.
Ltac sound_steps := repeat sound_step.

Ltac split_steps :=
  repeat match goal with
  | H : step _ ((_ ▷ _) []) _ |- _ =>
      apply step_seq in H; [|apply _]; destruct H as (? & ? & H)
  end.

(** Joins the steps in the context into the step over the whole encoding. *)
Ltac join_steps :=
  repeat (rewrite step_seq by apply _; eexists; split; [eassumption|]); try eassumption.

Ltac complete_step :=
  match goal with
  | |- (plift _ ≫= _) _ = _ => erewrite plift_intro; [|solve [eauto using fail_if_false]]
  | Hs : step ?r _ _ |- (?p ≫= _) ?r = _ =>
      let HC := fresh in
      epose proof (codec_complete p _ _) as HC;
      erewrite (pbind_intro p);
      [|eapply HC; [eauto using step_wf| |exact Hs]; try done]; try clear HC
  end; cbn beta.
Ltac complete_steps := repeat complete_step.

(** * Readers that take back what was written *)

(** [p] reads back what [f] writes, for the values that satisfy [P]; unlike a
    [Codec] it may accept other bytes too, as [read_bool] does. *)
Class Reads {E A} (p : parser E A) (P : A → Prop) (f : A → Writer → Writer) :=
  reads r a r' : wf r → P a → step r (f a []) r' → p r = Ok (a, r').
#[export] Hint Mode Reads + + ! - - : typeclass_instances.

#[export] Instance codec_reads {E A} (p : parser E A) P f : Codec p P f → Reads p P f | 10.
Proof. intros Hc r a r' ???. by apply codec_iff. Qed.

#[export] Instance read_bool_reads : Reads read_bool always write_bool.
Proof. intros r a r' ? _ ?. by apply read_bool_write. Qed.

#[export] Instance pmap_err_reads {E F A} (g : E → F) (p : parser E A) P f :
  Reads p P f → Reads (pmap_err g p) P f | 5.
Proof. intros Hp r a r' ???. apply pmap_err_ok. by apply (reads (P := P) (f := f)). Qed.

Lemma reads_bind {E A B} (p : parser E A) P f (k : A → parser E B) r a r' :
  Reads p P f → wf r → P a → step r (f a []) r' → (p ≫= k) r = k a r'.
Proof. intros Hp ???. apply pbind_intro. by apply (reads (P := P) (f := f)). Qed.

(** [w.write_bool(o.is_some()); if let Some(x) = o { f(x) }] and
    [if r.read_bool()? { Some(p(r)?) } else { None }] *)
Definition write_option {A} (f : A → Writer → Writer) (o : option A) : Writer → Writer :=
  write_bool (bool_decide (is_Some o)) ▷ match o with Some x => f x | None => write_nothing end.

Definition read_option {E A} (b : parser E bool) (p : parser E A) : parser E (option A) :=
  some ← b;
  if some : bool then x ← p; mret (Some x) else mret None.

#[export] Instance write_option_appending {A} (f : A → Writer → Writer) o :
  (∀ x, Appending (f x)) → Appending (write_option f o).
Proof. intros Hf. unfold write_option. destruct o; apply _. Qed.

Definition on_some {A} (P : A → Prop) (o : option A) : Prop := ∀ x, o = Some x → P x.

Lemma read_option_reads {E A} (b : parser E bool) (p : parser E A) P f :
  Reads b always write_bool → Reads p P f → (∀ x, Appending (f x)) →
  Reads (read_option b p) (on_some P) (write_option f).
Proof.
  intros Hb Hp Hf r o r' Hr HP Hs. unfold read_option, write_option in *.
  assert (Appending match o with Some x => f x | None => write_nothing end) by (destruct o; apply _).
  apply step_seq in Hs as (r1 & H1 & H2); [|done].
  rewrite (reads_bind b always write_bool _ _ _ _ _ Hr I H1). destruct o as [x|]; cbn.
  - rewrite (reads_bind p P f _ r1 x r'); [done|done|by eapply step_wf|by apply HP|done].
  - by apply step_nil in H2 as ->.
Qed.

Lemma read_n_reads {E A} (p : parser E A) P f n :
  Reads p P f → (∀ a, Appending (f a)) →
  Reads (read_n n p) (λ l, length l = n ∧ Forall P l) (write_all f).
Proof.
  intros Hp Hf. induction n as [|n IH]; intros r l r' Hr [Hl HP] Hs; cbn [read_n].
  - destruct l; [|done]. by apply step_nil in Hs as ->.
  - destruct l as [|x l]; [done|]. apply Forall_cons in HP as [Hx HP].
    rewrite write_all_cons, step_seq in Hs by apply _. destruct Hs as (r1 & H1 & H2).
    rewrite (reads_bind p P f _ r x r1) by done.
    assert (wf r1) by by eapply step_wf.
    rewrite (pbind_intro _ _ _ l r'); [done|]. apply IH; [done| |done]. cbn in Hl. split; [lia|done].
Qed.

Ltac read_step :=
  match goal with
  | |- (plift _ ≫= _) _ = _ =>
      erewrite plift_intro;
      [|solve [eassumption | apply fail_if_false; cbn; (assumption || by intros []) ]]
  | Hs : step ?r _ ?r1 |- (?p ≫= _) ?r = _ =>
      erewrite (reads_bind p _ _ _ r _ r1); [|apply _|eauto using step_wf| |exact Hs]; try done
  end; cbn beta.
Ltac read_steps := cbv zeta; repeat read_step.

(** * What an implementation of [Canonical] promises *)

Class CanonicalLaws (A : Type) `{Canonical A} := {
  well_formed : A → Prop;
  encode_appending (a : A) :: Appending (encode a);
  decode_codec :: Codec decode well_formed encode
}.

Section canonical.
Context `{CanonicalLaws A}.

Let header : Writer → Writer := write_bytes DOMAIN_MAGIC ▷ write_u16 ENCODING_VERSION.

Lemma encode_canonical_app (a : A) :
  encode_canonical a = DOMAIN_MAGIC ++ u16_le ENCODING_VERSION ++ encode a [].
Proof.
  unfold encode_canonical, into_vec, writer_new. by rewrite !write_seq_nil by apply _.
Qed.

Let decode_all : parser DecodeError A :=
  magic ← read_array 8;
  _ ← plift (fail_if (magic ≠ DOMAIN_MAGIC) BadMagic);
  version ← read_u16;
  _ ← plift (fail_if (version ≠ ENCODING_VERSION) (UnknownVersion version));
  value ← decode;
  _ ← ensure_consumed;
  mret value.

Lemma decode_all_ok buf (a : A) r' :
  decode_all (reader_new buf) = Ok (a, r') ↔
    well_formed a ∧ step (reader_new buf) (encode_canonical a) r' ∧
    r_pos r' = length (r_buf r').
Proof.
  pose proof (wf_new buf) as Hw0.
  unfold encode_canonical, into_vec, writer_new, decode_all. split.
  - intros Hok. sound_steps.
    unfold ensure_consumed in *. case_decide; [|done]. simplify_eq.
    split; [done|]. split; [|done]. join_steps.
  - intros (Hwf & Hs & He). split_steps. complete_steps.
    unfold ensure_consumed. erewrite pbind_intro; [|by rewrite decide_True]. done.
Qed.

(** The decoder accepts only encodings of well-formed values, each value
    having one encoding, *)
Lemma decode_canonical_sound (buf : list byte) (a : A) :
  decode_canonical buf = Ok a → well_formed a ∧ buf = encode_canonical a.
Proof.
  unfold decode_canonical. fold decode_all.
  destruct (decode_all (reader_new buf)) as [[a' r']|e] eqn:E; [|done]. intros [= ->].
  apply decode_all_ok in E as (Hwf & Hs & He). split; [done|]. by eapply step_whole.
Qed.

(** and it accepts all of those that fit the address space. *)
Lemma decode_canonical_complete (a : A) :
  (Z.of_nat (length (encode_canonical a)) < 2 ^ 64)%Z →
  well_formed a → decode_canonical (encode_canonical a) = Ok a.
Proof.
  intros Hlen Hwf. unfold decode_canonical. fold decode_all.
  rewrite (proj2 (decode_all_ok _ a (MkReader (encode_canonical a) (length (encode_canonical a))))); [done|].
  split; [done|]. split; [by apply step_whole_intro|done].
Qed.

(** Fact: Canonical encodings are strict and lossless, for every type that has
    one (its [CanonicalLaws] instance): [decode_canonical] accepts a buffer iff
    it is, byte for byte, the canonical encoding of a well-formed value, with
    magic, version and no trailing bytes, and then returns that value; so no
    two distinct buffers decode to the same value and every well-formed value
    round-trips. *)
Theorem canonical_encoding_strict (buf : list byte) (a : A) :
  (Z.of_nat (length buf) < 2 ^ 64)%Z →
  decode_canonical buf = Ok a ↔ well_formed a ∧ buf = encode_canonical a.
Proof.
  intros Hlen. split; [apply decode_canonical_sound|].
  intros [Hwf ->]. by apply decode_canonical_complete.
Qed.
End canonical.
