(* ===== verification/Types.v ===== *)
(** The canonical objects of src/crates/rgk-core/src/{chain,policy,types}.rs:
    chain ids, receipt policies, proof modes, outpoints, asset references,
    state commitments and receipts, with their structural validation and their
    [Canonical] instances. *)

From stdpp Require Import base list strings pretty gmap.
From Stdlib Require Import ZArith Lia Strings.Byte.
From S2P Require Import Prelude.
From S2P Require Import Bytes.
From S2P Require Import Encoding.

Open Scope string_scope.

(** * chain.rs *)

Inductive KaspaChainId : Type :=
| KaspaMainnet
| KaspaTestnet
| KaspaSimnet
| KaspaDevnet
| KaspaLocalToccata.

#[export] Instance KaspaChainId_eq_dec : EqDecision KaspaChainId.
Proof. solve_decision. Defined.

(** [self as u8] *)
Definition chain_as_u8 (c : KaspaChainId) : u8 :=
  match c with
  | KaspaMainnet => x01
  | KaspaTestnet => x02
  | KaspaSimnet => x03
  | KaspaDevnet => x04
  | KaspaLocalToccata => x05
  end.

Definition chain_TAG : u8 := x4b.

Definition chain_ALL : list KaspaChainId :=
  [KaspaMainnet; KaspaTestnet; KaspaSimnet; KaspaDevnet; KaspaLocalToccata].

Definition chain_as_domain_str (c : KaspaChainId) : string :=
  match c with
  | KaspaMainnet => "kaspa-mainnet"
  | KaspaTestnet => "kaspa-testnet"
  | KaspaSimnet => "kaspa-simnet"
  | KaspaDevnet => "kaspa-devnet"
  | KaspaLocalToccata => "kaspa-local-toccata"
  end.

Definition toccata_active_by_default (c : KaspaChainId) : bool :=
  match c with
  | KaspaMainnet | KaspaTestnet | KaspaSimnet | KaspaLocalToccata => true
  | KaspaDevnet => false
  end.

Definition chain_from_tag (tag : u8) : option KaspaChainId :=
  match tag with
  | x01 => Some KaspaMainnet
  | x02 => Some KaspaTestnet
  | x03 => Some KaspaSimnet
  | x04 => Some KaspaDevnet
  | x05 => Some KaspaLocalToccata
  | _ => None
  end.

(** The three tagged enums share one wire shape: a type tag, then the
    discriminant. *)
Definition read_tagged {A} (TAG : u8) (from_tag : u8 → option A) (unknown : u8 → DecodeError)
  : parser DecodeError A :=
  tag ← read_u8;
  _ ← plift (fail_if (tag ≠ TAG) (BadDomainTag TAG tag));
  val ← read_u8;
  plift (ok_or (from_tag val) (unknown val)).

#[export] Instance KaspaChainId_canonical : Canonical KaspaChainId := {
  encode c := write_u8 chain_TAG ▷ write_u8 (chain_as_u8 c);
  decode := read_tagged chain_TAG chain_from_tag UnknownChain
}.

(** * policy.rs *)

Inductive ProofMode : Type := VerifierReceipt | ZkReceipt | P2mrRet.

#[export] Instance ProofMode_eq_dec : EqDecision ProofMode.
Proof. solve_decision. Defined.

Definition mode_as_u8 (m : ProofMode) : u8 :=
  match m with VerifierReceipt => x01 | ZkReceipt => x02 | P2mrRet => x03 end.

Definition mode_TAG : u8 := x50.

Definition mode_from_tag (tag : u8) : option ProofMode :=
  match tag with
  | x01 => Some VerifierReceipt
  | x02 => Some ZkReceipt
  | x03 => Some P2mrRet
  | _ => None
  end.

Definition mode_as_domain_str (m : ProofMode) : string :=
  match m with
  | VerifierReceipt => "verifier-receipt"
  | ZkReceipt => "zk-receipt"
  | P2mrRet => "p2mr-ret"
  end.

#[export] Instance ProofMode_canonical : Canonical ProofMode := {
  encode m := write_u8 mode_TAG ▷ write_u8 (mode_as_u8 m);
  decode := read_tagged mode_TAG mode_from_tag UnknownProofMode
}.

Inductive ReceiptPolicy : Type := Any | VerifierOnly | ZkOrVerifier.

#[export] Instance ReceiptPolicy_eq_dec : EqDecision ReceiptPolicy.
Proof. solve_decision. Defined.

Definition policy_as_u8 (p : ReceiptPolicy) : u8 :=
  match p with Any => x01 | VerifierOnly => x02 | ZkOrVerifier => x03 end.

Definition policy_TAG : u8 := x52.

Definition policy_from_tag (tag : u8) : option ReceiptPolicy :=
  match tag with
  | x01 => Some Any
  | x02 => Some VerifierOnly
  | x03 => Some ZkOrVerifier
  | _ => None
  end.

Definition admits (self : ReceiptPolicy) (mode : ProofMode) : bool :=
  match self, mode with
  | Any, _ => true
  | VerifierOnly, VerifierReceipt => true
  | VerifierOnly, _ => false
  | ZkOrVerifier, (VerifierReceipt | ZkReceipt) => true
  | ZkOrVerifier, P2mrRet => false
  end.

Definition policy_as_domain_str (p : ReceiptPolicy) : string :=
  match p with
  | Any => "any"
  | VerifierOnly => "verifier-only"
  | ZkOrVerifier => "zk-or-verifier"
  end.

#[export] Instance ReceiptPolicy_canonical : Canonical ReceiptPolicy := {
  encode p := write_u8 policy_TAG ▷ write_u8 (policy_as_u8 p);
  decode := read_tagged policy_TAG policy_from_tag UnknownReceiptPolicy
}.

(** [{:?}] of the two derived [Debug] enums *)
Definition mode_debug (m : ProofMode) : string :=
  match m with
  | VerifierReceipt => "VerifierReceipt" | ZkReceipt => "ZkReceipt" | P2mrRet => "P2mrRet"
  end.
Definition policy_debug (p : ReceiptPolicy) : string :=
  match p with
  | Any => "Any" | VerifierOnly => "VerifierOnly" | ZkOrVerifier => "ZkOrVerifier"
  end.

(** * types.rs: data *)

Abbreviation RgkAssetId := Bytes32.
Abbreviation RgkSchemaId := Bytes32.
Abbreviation KaspaCovenantId := Bytes32.
Abbreviation CovenantLineageId := Bytes32.
Abbreviation TransitionDigest := Bytes32.
Abbreviation ContinuationCommitment := Bytes32.
Abbreviation PolicyMigrationCommitment := Bytes32.
Abbreviation ReceiptId := Bytes32.

Record RgkAssetRef := {
  ar_asset_id : RgkAssetId;
  ar_schema_id : RgkSchemaId
}.

Record KaspaOutpoint := {
  transaction_id : Bytes32;
  index : u32
}.

#[export] Instance KaspaOutpoint_eq_dec : EqDecision KaspaOutpoint.
Proof. solve_decision. Defined.

#[export] Instance KaspaOutpoint_ord : Ord KaspaOutpoint := λ a b,
  cmp (transaction_id a, index a) (transaction_id b, index b).
#[export] Instance KaspaOutpoint_ord_laws : OrdLaws KaspaOutpoint.
Proof.
  apply (inj_ord_laws (λ o, (transaction_id o, index o))); [|done].
  intros [t i] [t' i']; cbn. by intros [= -> ->].
Qed.

#[export] Instance KaspaOutpoint_countable : Countable KaspaOutpoint.
Proof.
  refine (inj_countable' (λ o, (transaction_id o, index o))
            (λ p, {| transaction_id := p.1; index := p.2 |}) _).
  by intros [].
Defined.

Definition outpoint_NULL : KaspaOutpoint := {| transaction_id := zero32; index := wrap 32 0 |}.

Record PolicyMigrationInput := {
  pmi_previous_policy : ReceiptPolicy;
  pmi_new_policy : ReceiptPolicy;
  pmi_previous_state_digest : Bytes32;
  pmi_new_state_digest : Bytes32;
  pmi_transition_digest : TransitionDigest;
  pmi_authorization_commitment : Bytes32
}.

Record PolicyMigrationProof := {
  pm_previous_policy : ReceiptPolicy;
  pm_new_policy : ReceiptPolicy;
  pm_previous_state_digest : Bytes32;
  pm_new_state_digest : Bytes32;
  pm_transition_digest : TransitionDigest;
  pm_authorization_commitment : Bytes32;
  pm_migration_commitment : PolicyMigrationCommitment
}.

#[export] Instance PolicyMigrationProof_eq_dec : EqDecision PolicyMigrationProof.
Proof. solve_decision. Defined.

Record RgkStateCommitment := {
  sc_version : u16;
  sc_chain_id : KaspaChainId;
  sc_covenant_id : KaspaCovenantId;
  sc_asset_id : RgkAssetId;
  sc_state_digest : Bytes32;
  sc_receipt_policy : ReceiptPolicy
}.

#[export] Instance RgkStateCommitment_eq_dec : EqDecision RgkStateCommitment.
Proof. solve_decision. Defined.

Record RgkReceipt := {
  rc_version : u16;
  rc_chain_id : KaspaChainId;
  rc_covenant_id : KaspaCovenantId;
  rc_old_state : RgkStateCommitment;
  rc_new_state : RgkStateCommitment;
  rc_transition_digest : TransitionDigest;
  rc_continuation_commitment : ContinuationCommitment;
  rc_proof_mode : ProofMode;
  rc_replay_nonce : Bytes32
}.

#[export] Instance RgkReceipt_eq_dec : EqDecision RgkReceipt.
Proof. solve_decision. Defined.

(** * types.rs: structural validation *)

Definition u16_display (v : u16) : string := pretty (Z.to_N v).

Definition state_validate_structure (self : RgkStateCommitment) : result DecodeError unit :=
  _ ← fail_if (sc_version self ≠ ENCODING_VERSION)
        (Structural ("unsupported state commitment version: got " ++ u16_display (sc_version self)
                     ++ ", expected " ++ u16_display ENCODING_VERSION));
  _ ← fail_if (sc_covenant_id self = zero32) (Structural "state commitment covenant id missing");
  _ ← fail_if (sc_asset_id self = zero32) (Structural "state commitment asset id missing");
  fail_if (sc_state_digest self = zero32) (Structural "state commitment digest missing").

Definition state_new (chain_id : KaspaChainId) (covenant_id : KaspaCovenantId)
    (asset_id : RgkAssetId) (state_digest : Bytes32) (receipt_policy : ReceiptPolicy)
  : result DecodeError RgkStateCommitment :=
  let commitment := {|
    sc_version := ENCODING_VERSION;
    sc_chain_id := chain_id;
    sc_covenant_id := covenant_id;
    sc_asset_id := asset_id;
    sc_state_digest := state_digest;
    sc_receipt_policy := receipt_policy
  |} in
  _ ← state_validate_structure commitment;
  Ok commitment.

Definition receipt_validate_structure (self : RgkReceipt) : result DecodeError unit :=
  _ ← fail_if (rc_version self ≠ ENCODING_VERSION)
        (Structural ("unsupported receipt version: got " ++ u16_display (rc_version self)
                     ++ ", expected " ++ u16_display ENCODING_VERSION));
  _ ← state_validate_structure (rc_old_state self);
  _ ← state_validate_structure (rc_new_state self);
  _ ← fail_if (sc_chain_id (rc_old_state self) ≠ rc_chain_id self
               ∨ sc_chain_id (rc_new_state self) ≠ rc_chain_id self)
        (Structural "chain id mismatch in receipt");
  _ ← fail_if (sc_covenant_id (rc_old_state self) ≠ rc_covenant_id self
               ∨ sc_covenant_id (rc_new_state self) ≠ rc_covenant_id self)
        (Structural "covenant id mismatch in receipt");
  _ ← fail_if (sc_asset_id (rc_old_state self) ≠ sc_asset_id (rc_new_state self))
        (Structural "asset id changed across transition");
  _ ← fail_if (sc_receipt_policy (rc_old_state self) ≠ sc_receipt_policy (rc_new_state self))
        (Structural "receipt policy changed across transition");
  _ ← fail_if (sc_state_digest (rc_old_state self) = sc_state_digest (rc_new_state self))
        (Structural "state digest did not change");
  _ ← fail_if (rc_transition_digest self = zero32) (Structural "transition digest missing");
  _ ← fail_if (rc_continuation_commitment self = zero32)
        (Structural "continuation commitment missing");
  fail_if (admits (sc_receipt_policy (rc_old_state self)) (rc_proof_mode self) = false)
    (Structural ("proof mode " ++ mode_debug (rc_proof_mode self)
                 ++ " not admitted by receipt policy "
                 ++ policy_debug (sc_receipt_policy (rc_old_state self)))).

Definition receipt_new (chain_id : KaspaChainId) (covenant_id : KaspaCovenantId)
    (old_state new_state : RgkStateCommitment) (transition_digest : TransitionDigest)
    (continuation_commitment : ContinuationCommitment) (proof_mode : ProofMode)
    (replay_nonce : Bytes32) : result DecodeError RgkReceipt :=
  let receipt := {|
    rc_version := ENCODING_VERSION;
    rc_chain_id := chain_id;
    rc_covenant_id := covenant_id;
    rc_old_state := old_state;
    rc_new_state := new_state;
    rc_transition_digest := transition_digest;
    rc_continuation_commitment := continuation_commitment;
    rc_proof_mode := proof_mode;
    rc_replay_nonce := replay_nonce
  |} in
  _ ← receipt_validate_structure receipt;
  Ok receipt.

(** * types.rs: canonical encodings *)

#[export] Instance KaspaOutpoint_canonical : Canonical KaspaOutpoint := {
  encode o := write_bytes32 (transaction_id o) ▷ write_u32 (index o);
  decode :=
    t ← read_bytes32;
    i ← read_u32;
    mret {| transaction_id := t; index := i |}
}.

#[export] Instance RgkAssetRef_canonical : Canonical RgkAssetRef := {
  encode a := write_bytes32 (ar_asset_id a) ▷ write_bytes32 (ar_schema_id a);
  decode :=
    a ← read_bytes32;
    s ← read_bytes32;
    mret {| ar_asset_id := a; ar_schema_id := s |}
}.

#[export] Instance RgkStateCommitment_canonical : Canonical RgkStateCommitment := {
  encode s :=
    write_u16 (sc_version s) ▷
    encode (sc_chain_id s) ▷
    write_bytes32 (sc_covenant_id s) ▷
    write_bytes32 (sc_asset_id s) ▷
    write_bytes32 (sc_state_digest s) ▷
    encode (sc_receipt_policy s);
  decode :=
    version ← read_u16;
    chain_id ← decode;
    covenant_id ← read_bytes32;
    asset_id ← read_bytes32;
    state_digest ← read_bytes32;
    receipt_policy ← decode;
    let commitment := {|
      sc_version := version;
      sc_chain_id := chain_id;
      sc_covenant_id := covenant_id;
      sc_asset_id := asset_id;
      sc_state_digest := state_digest;
      sc_receipt_policy := receipt_policy
    |} in
    _ ← plift (state_validate_structure commitment);
    mret commitment
}.

#[export] Instance RgkReceipt_canonical : Canonical RgkReceipt := {
  encode r :=
    write_u16 (rc_version r) ▷
    encode (rc_chain_id r) ▷
    write_bytes32 (rc_covenant_id r) ▷
    encode (rc_old_state r) ▷
    encode (rc_new_state r) ▷
    write_bytes32 (rc_transition_digest r) ▷
    write_bytes32 (rc_continuation_commitment r) ▷
    encode (rc_proof_mode r) ▷
    write_bytes32 (rc_replay_nonce r);
  decode :=
    version ← read_u16;
    chain_id ← decode;
    covenant_id ← read_bytes32;
    old_state ← decode;
    new_state ← decode;
    transition_digest ← read_bytes32;
    continuation_commitment ← read_bytes32;
    proof_mode ← decode;
    replay_nonce ← read_bytes32;
    let receipt := {|
      rc_version := version;
      rc_chain_id := chain_id;
      rc_covenant_id := covenant_id;
      rc_old_state := old_state;
      rc_new_state := new_state;
      rc_transition_digest := transition_digest;
      rc_continuation_commitment := continuation_commitment;
      rc_proof_mode := proof_mode;
      rc_replay_nonce := replay_nonce
    |} in
    _ ← plift (receipt_validate_structure receipt);
    mret receipt
}.

(** * Laws of the canonical encodings *)

Lemma read_tagged_codec {A} (TAG : u8) (from_tag : u8 → option A) unknown (to_tag : A → u8) :
  (∀ b a, from_tag b = Some a ↔ b = to_tag a) →
  Codec (read_tagged TAG from_tag unknown) always (λ a, write_u8 TAG ▷ write_u8 (to_tag a)).
Proof.
  intros Htag r a r' Hr. unfold read_tagged. split.
  - intros H. sound_steps. split; [done|]. apply Htag in H as ->. join_steps.
  - intros [_ H]. split_steps. complete_steps.
    apply plift_ok. split; [|done]. apply ok_or_ok. by apply Htag.
Qed.

Lemma chain_from_tag_iff b c : chain_from_tag b = Some c ↔ b = chain_as_u8 c.
Proof. split; [destruct b; try done; by intros [= <-]|intros ->; by destruct c]. Qed.
Lemma mode_from_tag_iff b m : mode_from_tag b = Some m ↔ b = mode_as_u8 m.
Proof. split; [destruct b; try done; by intros [= <-]|intros ->; by destruct m]. Qed.
Lemma policy_from_tag_iff b p : policy_from_tag b = Some p ↔ b = policy_as_u8 p.
Proof. split; [destruct b; try done; by intros [= <-]|intros ->; by destruct p]. Qed.

Lemma chain_as_u8_inj c c' : chain_as_u8 c = chain_as_u8 c' → c = c'.
Proof. by destruct c, c'. Qed.

#[export] Instance KaspaChainId_laws : CanonicalLaws KaspaChainId := {
  well_formed := always;
  encode_appending c := write_seq_appending _ _ _ _;
  decode_codec := read_tagged_codec _ _ _ _ chain_from_tag_iff
}.
#[export] Instance ProofMode_laws : CanonicalLaws ProofMode := {
  well_formed := always;
  encode_appending c := write_seq_appending _ _ _ _;
  decode_codec := read_tagged_codec _ _ _ _ mode_from_tag_iff
}.
#[export] Instance ReceiptPolicy_laws : CanonicalLaws ReceiptPolicy := {
  well_formed := always;
  encode_appending c := write_seq_appending _ _ _ _;
  decode_codec := read_tagged_codec _ _ _ _ policy_from_tag_iff
}.

#[export] Instance KaspaOutpoint_laws : CanonicalLaws KaspaOutpoint.
Proof.
  refine {| well_formed := always |}.
  intros r a r' Hr. cbn [encode decode KaspaOutpoint_canonical]. split.
  - intros H. sound_steps. split; [done|]. join_steps.
  - intros [_ H]. split_steps. complete_steps. by destruct a.
Defined.

#[export] Instance RgkAssetRef_laws : CanonicalLaws RgkAssetRef.
Proof.
  refine {| well_formed := always |}.
  intros r a r' Hr. cbn [encode decode RgkAssetRef_canonical]. split.
  - intros H. sound_steps. split; [done|]. join_steps.
  - intros [_ H]. split_steps. complete_steps. by destruct a.
Defined.

Definition state_valid (s : RgkStateCommitment) : Prop := state_validate_structure s = Ok ().
Definition receipt_valid (r : RgkReceipt) : Prop := receipt_validate_structure r = Ok ().

#[export] Instance RgkStateCommitment_laws : CanonicalLaws RgkStateCommitment.
Proof.
  refine {| well_formed := state_valid |}.
  intros r a r' Hr. cbn [encode decode RgkStateCommitment_canonical]. split.
  - intros H. sound_steps. split; [done|]. join_steps.
  - intros [Hv H]. destruct a. split_steps. complete_steps. done.
Defined.

Lemma receipt_valid_states r :
  receipt_valid r → state_valid (rc_old_state r) ∧ state_valid (rc_new_state r).
Proof. unfold receipt_valid, receipt_validate_structure, state_valid. intros H. inv_ok. split; assumption. Qed.

#[export] Instance RgkReceipt_laws : CanonicalLaws RgkReceipt.
Proof.
  refine {| well_formed := receipt_valid |}. intros r a r' Hr.
  cbn [encode decode RgkReceipt_canonical]. split.
  - intros H. sound_steps. split; [done|]. join_steps.
  - intros [Hv H]. destruct (receipt_valid_states _ Hv). destruct a.
    split_steps. complete_steps. done.
Defined.

(** * What validation establishes *)

Lemma state_valid_spec s :
  state_valid s ↔ sc_version s = ENCODING_VERSION ∧ sc_covenant_id s ≠ zero32 ∧
    sc_asset_id s ≠ zero32 ∧ sc_state_digest s ≠ zero32.
Proof.
  unfold state_valid, state_validate_structure. split.
  - intros H. inv_ok. repeat split; assumption.
  - intros (H1 & H2 & H3 & H4). by by_guards.
Qed.

Lemma receipt_valid_spec r :
  receipt_valid r ↔
    rc_version r = ENCODING_VERSION ∧
    state_valid (rc_old_state r) ∧ state_valid (rc_new_state r) ∧
    (sc_chain_id (rc_old_state r) = rc_chain_id r ∧ sc_chain_id (rc_new_state r) = rc_chain_id r) ∧
    (sc_covenant_id (rc_old_state r) = rc_covenant_id r ∧
     sc_covenant_id (rc_new_state r) = rc_covenant_id r) ∧
    sc_asset_id (rc_old_state r) = sc_asset_id (rc_new_state r) ∧
    sc_receipt_policy (rc_old_state r) = sc_receipt_policy (rc_new_state r) ∧
    sc_state_digest (rc_old_state r) ≠ sc_state_digest (rc_new_state r) ∧
    rc_transition_digest r ≠ zero32 ∧ rc_continuation_commitment r ≠ zero32 ∧
    admits (sc_receipt_policy (rc_old_state r)) (rc_proof_mode r) = true.
Proof.
  unfold receipt_valid, receipt_validate_structure, state_valid. split.
  - intros H. inv_ok. apply not_false_is_true in H. repeat split; assumption.
  - intros (H1 & H2 & H3 & [H4 H4'] & [H5 H5'] & H6 & H7 & H8 & H9 & H10 & H11).
    rewrite H2, H3. cbn [mbind result_bind].
    by by_guards.
Qed.

(** [RgkStateCommitment::new] and [RgkReceipt::new] build exactly the values
    that pass validation, at the current version. *)
Lemma state_new_ok c cov a d p s :
  state_new c cov a d p = Ok s ↔
    s = {| sc_version := ENCODING_VERSION; sc_chain_id := c; sc_covenant_id := cov;
           sc_asset_id := a; sc_state_digest := d; sc_receipt_policy := p |} ∧ state_valid s.
Proof.
  unfold state_new, state_valid. split.
  - intros H. inv_ok. split; [done|assumption].
  - intros [-> H]. by rewrite H.
Qed.

Lemma receipt_new_ok c cov o n td cc m rn r :
  receipt_new c cov o n td cc m rn = Ok r ↔
    r = {| rc_version := ENCODING_VERSION; rc_chain_id := c; rc_covenant_id := cov;
           rc_old_state := o; rc_new_state := n; rc_transition_digest := td;
           rc_continuation_commitment := cc; rc_proof_mode := m; rc_replay_nonce := rn |} ∧
    receipt_valid r.
Proof.
  unfold receipt_new, receipt_valid. split.
  - intros H. inv_ok. split; [done|assumption].
  - intros [-> H]. by rewrite H.
Qed.

(** The wire length of a receipt is fixed, so it fits any address space. *)
Lemma receipt_encoding_length (r : RgkReceipt) : length (encode_canonical r) = 348.
Proof.
  cbv [encode_canonical encode RgkReceipt_canonical RgkStateCommitment_canonical
    KaspaChainId_canonical ProofMode_canonical ReceiptPolicy_canonical write_seq write_u8
    write_u16 write_bytes write_bytes32 into_vec writer_new].
  rewrite !length_app, !bytes_length. reflexivity.
Qed.

(** Decoding a receipt accepts exactly the encodings of valid receipts. *)
Lemma receipt_decode_iff (buf : list byte) (r : RgkReceipt) :
  decode_canonical buf = Ok r ↔ receipt_valid r ∧ buf = encode_canonical r.
Proof.
  split; [exact (decode_canonical_sound buf r)|]. intros [Hv ->].
  apply decode_canonical_complete; [rewrite receipt_encoding_length; lia|exact Hv].
Qed.
