(* ===== verification/Records.v ===== *)
(** Records: decoders of a whole buffer with the caller's error type, and the
    lengths of the fields they are made of. *)

From stdpp Require Import base list strings.
From Stdlib Require Import ZArith Lia Strings.Byte.
From S2P Require Import Prelude.
From S2P Require Import Bytes.
From S2P Require Import Encoding.
From S2P Require Import Types.

Open Scope list_scope.

(** Running a record decoder on a buffer. *)
Definition run_record {E A} (p : parser E A) (buf : list byte) : result E A :=
  match p (reader_new buf) with Ok (a, _) => Ok a | Err e => Err e end.

Lemma run_record_complete {E A} (p : parser E A) (f : Writer → Writer) a :
  (Z.of_nat (length (f [])) < 2 ^ 64)%Z →
  (∀ r r', wf r → step r (f []) r' → r_pos r' = length (r_buf r') → p r = Ok (a, r')) →
  run_record p (into_vec (f writer_new)) = Ok a.
Proof.
  intros Hlen Hp. unfold run_record, into_vec, writer_new.
  rewrite (Hp _ (MkReader (f []) (length (f [])))); [done|apply wf_new| |done].
  by apply step_whole_intro.
Qed.

Lemma consumed_intro {E B} (f : DecodeError → E) r (k : unit → parser E B) :
  r_pos r = length (r_buf r) → (pmap_err f ensure_consumed ≫= k) r = k () r.
Proof. intros Hr. apply pbind_intro. unfold pmap_err, ensure_consumed. by rewrite decide_True. Qed.

Lemma run_record_ok {E A} (p : parser E A) buf a :
  run_record p buf = Ok a ↔ ∃ r', p (reader_new buf) = Ok (a, r').
Proof. unfold run_record. destruct (p _) as [[a' r']|]; naive_solver. Qed.

Lemma ensure_consumed_ok {E} (f : DecodeError → E) r u r' :
  pmap_err f ensure_consumed r = Ok (u, r') ↔ r' = r ∧ r_pos r = length (r_buf r).
Proof. rewrite pmap_err_ok. unfold ensure_consumed. destruct u. case_decide; naive_solver. Qed.

(** A decoder that returns [a] exactly after the bytes [f] writes accepts, for
    [a], exactly that buffer. *)
Lemma run_record_iff {E A} (p : parser E A) (P : Prop) (f : Writer → Writer) a buf :
  (Z.of_nat (length buf) < 2 ^ 64)%Z →
  (∀ r r', wf r →
    p r = Ok (a, r') ↔ P ∧ step r (f []) r' ∧ r_pos r' = length (r_buf r')) →
  run_record p buf = Ok a ↔ P ∧ buf = into_vec (f writer_new).
Proof.
  intros Hlen Hp. rewrite run_record_ok. unfold into_vec, writer_new. split.
  - intros (r' & (HP & Hs & He)%Hp); [|apply wf_new]. split; [done|]. by eapply step_whole.
  - intros [HP ->]. exists (MkReader (f []) (length (f []))). apply Hp; [apply wf_new|].
    split; [done|]. split; [by apply step_whole_intro|done].
Qed.

(** The same for a decoder that refuses buffers above a bound first. *)
Lemma bounded_record_iff {E A} (p : parser E A) (P : Prop) (f : Writer → Writer) a buf max e :
  (max < 2 ^ 64)%Z →
  (∀ r r', wf r →
    p r = Ok (a, r') ↔ P ∧ step r (f []) r' ∧ r_pos r' = length (r_buf r')) →
  (_ ← fail_if (max < Z.of_nat (length buf))%Z e; run_record p buf) = Ok a ↔
    P ∧ buf = into_vec (f writer_new) ∧ (Z.of_nat (length buf) <= max)%Z.
Proof.
  intros Hmax Hp. rewrite bind_unit_ok, fail_if_ok. split.
  - intros [Hlen Hr]. apply (run_record_iff p P f) in Hr as [??]; [|lia|done].
    split_and!; [done..|lia].
  - intros (HP & Hb & Hlen). split; [lia|]. apply (run_record_iff p P f); [lia|done..].
Qed.

#[export] Instance read_option_record_reads {E A} (b : parser E bool) (p : parser E A) P f :
  Reads b always write_bool → Reads p P f → (∀ x, Appending (f x)) →
  Reads (read_option b p) (on_some P) (write_option f) | 5 := read_option_reads b p P f.

#[export] Instance read_n_record_reads {E A} (p : parser E A) P f n :
  Reads p P f → (∀ a, Appending (f a)) →
  Reads (read_n n p) (λ l, length l = n ∧ Forall P l) (write_all f) | 5 := read_n_reads p P f n.

Lemma on_some_always {A} (o : option A) : on_some always o.
Proof. by intros x _. Qed.
#[export] Hint Resolve on_some_always : core.

(** Lengths of the fixed-width fields. *)
Lemma length_bytes32 (b : Bytes32) : length (write_bytes32 b []) = 32%nat.
Proof. unfold write_bytes32. cbn [app]. apply bytes_length. Qed.
Lemma length_blob b : length (write_blob b []) = (4 + length b)%nat.
Proof. unfold write_blob, write_u32. cbn [app]. by rewrite length_app, u32_le_length. Qed.
Lemma length_u64 v : length (write_u64 v []) = 8%nat.
Proof. apply le_bytes_length. Qed.
Lemma length_u32 v : length (write_u32 v []) = 4%nat.
Proof. apply le_bytes_length. Qed.
Lemma length_bool b : length (write_bool b []) = 1%nat.
Proof. done. Qed.
Lemma length_magic (b : bytes 8) : length (write_bytes b []) = 8%nat.
Proof. apply bytes_length. Qed.
Lemma length_chain (c : KaspaChainId) : length (encode c []) = 2%nat.
Proof. by destruct c. Qed.
Lemma length_outpoint (o : KaspaOutpoint) : length (encode o []) = 36%nat.
Proof.
  cbn [encode KaspaOutpoint_canonical]. rewrite write_seq_nil by apply _.
  by rewrite length_app, length_bytes32, length_u32.
Qed.
Lemma length_option {A} (f : A → Writer → Writer) n o :
  (∀ x, Appending (f x)) → (∀ x, length (f x []) = n) → (length (write_option f o []) <= S n)%nat.
Proof.
  intros Hf Hn. unfold write_option. destruct o as [x|];
    rewrite write_seq_nil by apply _; rewrite length_app, length_bool; [rewrite Hn|cbn]; lia.
Qed.

Lemma length_policy (p : ReceiptPolicy) : length (encode p []) = 2%nat.
Proof. by destruct p. Qed.

Ltac record_length :=
  repeat rewrite !write_seq_nil by apply _; rewrite ?length_app;
  rewrite ?length_bytes32, ?length_u64, ?length_u32, ?length_bool, ?length_magic, ?length_chain,
    ?length_outpoint, ?length_policy.
