(* ===== verification/Commit.v ===== *)
(** Domain-separated commitments: src/crates/rgk-core/src/commit.rs.

    SHA-256 is the [sha2] crate's and is a parameter of the model: the class
    [Sha256] holds a function from byte strings to 32-byte digests, about which
    nothing else is assumed.  Statements about what a commitment binds conclude
    with "or two of these messages collide", where the messages are the ones
    hashed for the commitments at hand. *)

From stdpp Require Import base list strings.
From Stdlib Require Import ZArith Lia Strings.Byte.
From S2P Require Import Prelude.
From S2P Require Import Bytes.
From S2P Require Import Encoding.
From S2P Require Import Types.

Open Scope string_scope.

Class Sha256 := sha256 : list byte → Bytes32.

(** Two different ones of the messages [ms] have one digest; one of them has the
    digest zero. *)
Definition collision `{Sha256} (ms : list (list byte)) : Prop := collides sha256 ms.
Definition zero_digest `{Sha256} (ms : list (list byte)) : Prop := hits sha256 zero32 ms.

#[export] Instance collision_dec `{Sha256} ms : Decision (collision ms) := collides_dec sha256 ms.
#[export] Instance zero_digest_dec `{Sha256} ms : Decision (zero_digest ms) :=
  hits_dec sha256 zero32 ms.

Lemma sha256_inj_or `{Sha256} x y : sha256 x = sha256 y → x = y ∨ collision [x; y].
Proof. apply inj_or_collides. Qed.

Lemma sha256_nonzero_or `{Sha256} x : sha256 x ≠ zero32 ∨ zero_digest [x].
Proof. apply avoids_or_hits. Qed.

(** The message a digest hashes, read off the digest's definition. *)
Ltac message_of t := let u := eval hnf in t in lazymatch u with _ ?m => exact m end.

(** [s.as_bytes()] of a string *)
Definition as_bytes (s : string) : list byte := String.list_byte_of_string s.

Inductive DomainTag : Type :=
| TagStateCommitment
| TagReceipt
| TagLineage
| TagReplayNonce
| TagPolicyMigration
| TagAdvancedCovenantPolicy
| TagAdvancedCovenantExecution.

Definition tag_ascii (t : DomainTag) : string :=
  match t with
  | TagStateCommitment => "rgk:state-commitment"
  | TagReceipt => "rgk:receipt"
  | TagLineage => "rgk:lineage"
  | TagReplayNonce => "rgk:replay-nonce"
  | TagPolicyMigration => "rgk:policy-migration"
  | TagAdvancedCovenantPolicy => "rgk:advanced-covenant-policy:v1"
  | TagAdvancedCovenantExecution => "rgk:advanced-covenant-execution:v1"
  end.

Section commit.
Context `{Sha256}.

(** The bytes fed to the hasher by [domain_hash_str]. *)
Definition domain_preimage (domain : string) (payload : list byte) : list byte :=
  u32_le (wrap 32 (Z.of_nat (length (as_bytes domain)))) ++ as_bytes domain ++ payload.

Definition domain_hash_str (domain : string) (payload : list byte) : Bytes32 :=
  sha256 (domain_preimage domain payload).

Definition domain_hash (tag : DomainTag) (payload : list byte) : Bytes32 :=
  domain_hash_str (tag_ascii tag) payload.

Definition domain_string (chain : KaspaChainId) (policy : ReceiptPolicy)
    (mode : option ProofMode) : string :=
  match mode with
  | Some m => "rgk:v0 | chain=" ++ chain_as_domain_str chain
              ++ " | policy=" ++ policy_as_domain_str policy
              ++ " | mode=" ++ mode_as_domain_str m
  | None => "rgk:v0 | chain=" ++ chain_as_domain_str chain
            ++ " | policy=" ++ policy_as_domain_str policy
  end.

Definition state_encode_body (s : RgkStateCommitment) : list byte :=
  into_vec ((write_str (domain_string (sc_chain_id s) (sc_receipt_policy s) None) ▷
             write_bytes32 (sc_covenant_id s) ▷
             write_bytes32 (sc_asset_id s) ▷
             write_bytes32 (sc_state_digest s)) writer_new).

Definition receipt_encode_body (r : RgkReceipt) : list byte :=
  into_vec ((write_str (domain_string (rc_chain_id r) (sc_receipt_policy (rc_old_state r))
                          (Some (rc_proof_mode r))) ▷
             write_bytes32 (rc_covenant_id r) ▷
             write_bytes32 (sc_state_digest (rc_old_state r)) ▷
             write_bytes32 (sc_state_digest (rc_new_state r)) ▷
             write_bytes32 (rc_transition_digest r) ▷
             write_bytes32 (rc_continuation_commitment r) ▷
             write_bytes32 (rc_replay_nonce r)) writer_new).

Definition state_commitment (s : RgkStateCommitment) : Bytes32 :=
  domain_hash TagStateCommitment (state_encode_body s).

Definition receipt_commitment (r : RgkReceipt) : Bytes32 :=
  domain_hash TagReceipt (receipt_encode_body r).

Definition lineage_id (genesis_outpoint_payload : list byte) (asset_id : RgkAssetId) : Bytes32 :=
  domain_hash TagLineage (genesis_outpoint_payload ++ asset_id).

Definition replay_nonce (prev_outpoint_payload : list byte) (transition_digest : TransitionDigest)
  : Bytes32 :=
  domain_hash TagReplayNonce (prev_outpoint_payload ++ transition_digest).

Definition policy_migration_commitment (previous_policy new_policy : ReceiptPolicy)
    (previous_state_digest new_state_digest : Bytes32) (transition_digest : TransitionDigest)
    (authorization_commitment : Bytes32) : PolicyMigrationCommitment :=
  let w := (encode previous_policy ▷
            encode new_policy ▷
            write_bytes32 previous_state_digest ▷
            write_bytes32 new_state_digest ▷
            write_bytes32 transition_digest ▷
            write_bytes32 authorization_commitment) writer_new in
  domain_hash TagPolicyMigration (into_vec w).

Definition build_policy_migration_proof (input : PolicyMigrationInput) : PolicyMigrationProof :=
  let migration_commitment := policy_migration_commitment
    (pmi_previous_policy input) (pmi_new_policy input) (pmi_previous_state_digest input)
    (pmi_new_state_digest input) (pmi_transition_digest input)
    (pmi_authorization_commitment input) in
  {| pm_previous_policy := pmi_previous_policy input;
     pm_new_policy := pmi_new_policy input;
     pm_previous_state_digest := pmi_previous_state_digest input;
     pm_new_state_digest := pmi_new_state_digest input;
     pm_transition_digest := pmi_transition_digest input;
     pm_authorization_commitment := pmi_authorization_commitment input;
     pm_migration_commitment := migration_commitment |}.
End commit.

(** A stand-in digest for evaluating the model on concrete inputs: a
    polynomial checksum of the bytes modulo the prime [2^31 - 1]. *)
Definition toy_sha256 (l : list byte) : Bytes32 :=
  to_array 32 (le_bytes 32 (foldl (λ acc b, (acc * 257 + byte_Z b + 1) mod 2147483647)%Z 1%Z l)).

(** * What the commitments bind *)

Lemma as_bytes_inj s t : as_bytes s = as_bytes t → s = t.
Proof.
  unfold as_bytes. intros E. rewrite <-(String.string_of_list_byte_of_string s), E.
  apply String.string_of_list_byte_of_string.
Qed.

(** Domain separation: for domain strings shorter than [2^32] bytes, the
    hashed preimage determines the domain and the payload. *)
Lemma domain_preimage_inj d1 p1 d2 p2 :
  (Z.of_nat (length (as_bytes d1)) < 2 ^ 32)%Z → (Z.of_nat (length (as_bytes d2)) < 2 ^ 32)%Z →
  domain_preimage d1 p1 = domain_preimage d2 p2 → d1 = d2 ∧ p1 = p2.
Proof.
  intros H1 H2 E. unfold domain_preimage in E. apply u32_le_app_inj in E as [El E].
  apply (f_equal uval) in El. rewrite !uval_wrap_small in El by lia.
  apply app_inj_1 in E as [Ed ->]; [|lia]. split; [by apply as_bytes_inj|done].
Qed.

Lemma write_str_app_inj s t l k :
  (Z.of_nat (length (as_bytes s)) < 2 ^ 32)%Z → (Z.of_nat (length (as_bytes t)) < 2 ^ 32)%Z →
  (write_str s [] ++ l = write_str t [] ++ k)%list → s = t ∧ l = k.
Proof.
  unfold write_str, write_blob, write_u32. cbn [app]. rewrite <-!app_assoc.
  apply domain_preimage_inj.
Qed.

Lemma domain_string_length c p m :
  (Z.of_nat (length (as_bytes (domain_string c p m))) < 2 ^ 32)%Z.
Proof. by destruct c, p, m as [[]|]. Qed.

Definition domain_params : list (KaspaChainId * ReceiptPolicy * option ProofMode) :=
  c ← chain_ALL; p ← [Any; VerifierOnly; ZkOrVerifier];
  m ← [None; Some VerifierReceipt; Some ZkReceipt; Some P2mrRet]; [(c, p, m)].

Lemma domain_params_all c p m : (c, p, m) ∈ domain_params.
Proof. apply (bool_decide_unpack _). by destruct c, p, m as [[]|]. Qed.

Lemma domain_string_inj c p m c' p' m' :
  domain_string c p m = domain_string c' p' m' → (c, p, m) = (c', p', m').
Proof.
  assert (D : Forall (λ x, Forall (λ y, domain_string x.1.1 x.1.2 x.2 = domain_string y.1.1 y.1.2 y.2
    → x = y) domain_params) domain_params).
  { apply (bool_decide_unpack _). by vm_compute. }
  rewrite Forall_forall in D. specialize (D _ (domain_params_all c p m)).
  rewrite Forall_forall in D. exact (D _ (domain_params_all c' p' m')).
Qed.

Section binding.
Context `{Sha256}.

Lemma domain_hash_str_binds d1 p1 d2 p2 :
  (Z.of_nat (length (as_bytes d1)) < 2 ^ 32)%Z →
  (Z.of_nat (length (as_bytes d2)) < 2 ^ 32)%Z →
  domain_hash_str d1 p1 = domain_hash_str d2 p2 →
  (d1 = d2 ∧ p1 = p2) ∨ collision [domain_preimage d1 p1; domain_preimage d2 p2].
Proof.
  intros H1 H2 E. unfold domain_hash_str in E. apply sha256_inj_or in E as [E|]; [left|by right].
  by apply domain_preimage_inj.
Qed.

(** The message of a tagged digest, of a receipt id and of a state
    commitment. *)
Definition tagged_message (t : DomainTag) (p : list byte) : list byte :=
  domain_preimage (tag_ascii t) p.
Definition receipt_message (r : RgkReceipt) : list byte :=
  tagged_message TagReceipt (receipt_encode_body r).
Definition state_commitment_message (s : RgkStateCommitment) : list byte :=
  tagged_message TagStateCommitment (state_encode_body s).

Lemma tag_ascii_length t : (Z.of_nat (length (as_bytes (tag_ascii t))) < 2 ^ 32)%Z.
Proof. by destruct t. Qed.

Lemma tag_ascii_inj t t' : tag_ascii t = tag_ascii t' → t = t'.
Proof. by destruct t, t'. Qed.

Lemma domain_hash_binds t1 p1 t2 p2 :
  domain_hash t1 p1 = domain_hash t2 p2 →
  (t1 = t2 ∧ p1 = p2) ∨ collision [tagged_message t1 p1; tagged_message t2 p2].
Proof.
  intros E. apply domain_hash_str_binds in E as [[E ->]|]; [|by right|apply tag_ascii_length..].
  left. split; [by apply tag_ascii_inj|done].
Qed.

(** Each field of the bodies is recovered from the bytes. *)
Ltac peel E :=
  repeat rewrite !write_seq_nil in E by apply _;
  unfold write_bytes32 in E; cbn [app] in E;
  repeat match type of E with
  | (blist _ ++ _)%list = _ =>
      let E1 := fresh "Ef" in apply bytes_app_inj in E as [E1 E]
  | (write_str _ [] ++ _)%list = _ =>
      let E1 := fresh "Es" in
      apply write_str_app_inj in E as [E1 E]; [|apply domain_string_length..]
  | blist _ = blist _ => apply (inj blist) in E
  end.

Lemma receipt_body_inj r1 r2 :
  receipt_encode_body r1 = receipt_encode_body r2 ↔
    rc_chain_id r1 = rc_chain_id r2 ∧
    sc_receipt_policy (rc_old_state r1) = sc_receipt_policy (rc_old_state r2) ∧
    rc_proof_mode r1 = rc_proof_mode r2 ∧
    rc_covenant_id r1 = rc_covenant_id r2 ∧
    sc_state_digest (rc_old_state r1) = sc_state_digest (rc_old_state r2) ∧
    sc_state_digest (rc_new_state r1) = sc_state_digest (rc_new_state r2) ∧
    rc_transition_digest r1 = rc_transition_digest r2 ∧
    rc_continuation_commitment r1 = rc_continuation_commitment r2 ∧
    rc_replay_nonce r1 = rc_replay_nonce r2.
Proof.
  unfold receipt_encode_body, into_vec, writer_new. split.
  - intros E. peel E. apply domain_string_inj in Es. repeat split; congruence.
  - intros (-> & -> & -> & -> & -> & -> & -> & -> & ->). done.
Qed.

Lemma receipt_commitment_binds r1 r2 :
  receipt_commitment r1 = receipt_commitment r2 →
  receipt_encode_body r1 = receipt_encode_body r2 ∨
  collision [receipt_message r1; receipt_message r2].
Proof. intros E. apply domain_hash_binds in E as [[_ E]|]; auto. Qed.

Lemma state_body_inj s1 s2 :
  state_encode_body s1 = state_encode_body s2 →
    sc_chain_id s1 = sc_chain_id s2 ∧ sc_receipt_policy s1 = sc_receipt_policy s2 ∧
    sc_covenant_id s1 = sc_covenant_id s2 ∧ sc_asset_id s1 = sc_asset_id s2 ∧
    sc_state_digest s1 = sc_state_digest s2.
Proof.
  unfold state_encode_body, into_vec, writer_new. intros E. peel E.
  apply domain_string_inj in Es. repeat split; congruence.
Qed.

(** Fact: The state commitment binds a valid state commitment object: two valid
    objects with the same digest are equal in every field (chain, policy,
    covenant, asset, state digest, version), unless the two messages hashed for
    them collide. *)
Theorem state_commitment_binding (s1 s2 : RgkStateCommitment) :
  state_valid s1 → state_valid s2 →
  state_commitment s1 = state_commitment s2 →
  s1 = s2 ∨ collision [state_commitment_message s1; state_commitment_message s2].
Proof.
  intros H1 H2 E. apply domain_hash_binds in E as [[_ E]|]; [left|by right].
  apply state_body_inj in E as (?&?&?&?&?).
  apply state_valid_spec in H1 as [V1 _], H2 as [V2 _].
  destruct s1, s2; cbn in *; congruence.
Qed.

(** Fact: Domain separation: commitments taken for different purposes never
    coincide, whatever the payloads (state commitments, receipt ids, lineage
    ids, replay nonces, policy migrations, covenant policies and executions),
    unless the two messages hashed for them collide. *)
Theorem commitments_domain_separated t1 p1 t2 p2 :
  t1 ≠ t2 → domain_hash t1 p1 = domain_hash t2 p2 →
  collision [tagged_message t1 p1; tagged_message t2 p2].
Proof. intros Ht E. by apply domain_hash_binds in E as [[? _]|]. Qed.

Lemma encode_policy_app_inj (p q : ReceiptPolicy) l k :
  (encode p [] ++ l = encode q [] ++ k)%list → p = q ∧ l = k.
Proof. by destruct p, q; cbn; intros [=]. Qed.

Definition migration_message (i : PolicyMigrationInput) : list byte :=
  ltac:(message_of (pm_migration_commitment (build_policy_migration_proof i))).

(** Fact: A policy-migration commitment binds all six of its fields: two
    migration proofs built by [build_policy_migration_proof] with the same
    commitment have the same inputs, unless the two messages hashed for them
    collide. *)
Theorem policy_migration_binding (i1 i2 : PolicyMigrationInput) :
  pm_migration_commitment (build_policy_migration_proof i1) =
    pm_migration_commitment (build_policy_migration_proof i2) →
  i1 = i2 ∨ collision [migration_message i1; migration_message i2].
Proof.
  intros E. apply domain_hash_binds in E as [[_ E]|]; [left|by right].
  destruct i1, i2. unfold into_vec, writer_new in E. cbn in E.
  repeat rewrite !write_seq_nil in E by apply _.
  apply encode_policy_app_inj in E as [-> E]. apply encode_policy_app_inj in E as [-> E].
  unfold write_bytes32 in E; cbn [app] in E. rewrite <-?app_assoc in E.
  apply bytes_app_inj in E as [-> E]. apply bytes_app_inj in E as [-> E].
  apply bytes_app_inj in E as [-> E]. apply (inj blist) in E as ->. done.
Qed.
End binding.
