(* ===== verification/Hex.v ===== *)
(** Lowercase hexadecimal: [to_hex] and [from_hex] of
    src/crates/rgk-core/src/bytes.rs, with the proof that each is the other's
    inverse; and the texts of numbers and decoding errors. *)

From stdpp Require Import base list strings pretty.
From Stdlib Require Import ZArith Lia Strings.Byte.
From Stdlib Require Import ZArith Strings.Byte.
From S2P Require Import Prelude.
From S2P Require Import Bytes.
From S2P Require Import Encoding.
From S2P Require Import Types.
From S2P Require Import Commit.

Open Scope string_scope.

(** [b"0123456789abcdef"] *)
Definition HEX : list byte := as_bytes "0123456789abcdef".

(** [HEX.iter().position(|&c| c == x)] *)
Fixpoint position (l : list byte) (x : byte) : option nat :=
  match l with
  | [] => None
  | c :: l' => if decide (c = x) then Some 0%nat else S <$> position l' x
  end.

(** The digit loop over [bytes.chunks_exact(2)]; a digit is [position as u8],
    and a pair is [(hi << 4) | lo]. *)
Fixpoint from_hex_chunks (l : list byte) : result DecodeError (list byte) :=
  match l with
  | h :: o :: l' =>
      hi ← ok_or (position HEX h) (HexBadChar h);
      lo ← ok_or (position HEX o) (HexBadChar o);
      out ← from_hex_chunks l';
      Ok (byte_of_Z (Z.lor (Z.shiftl (Z.of_nat hi) 4) (Z.of_nat lo)) :: out)
  | _ => Ok []
  end.

Definition from_hex (N : nat) (s : string) : result DecodeError (bytes N) :=
  let expected := N * 2 in
  let bs := as_bytes s in
  _ ← fail_if (length bs ≠ expected)%nat
        (HexBadLength (Z.of_nat expected) (Z.of_nat (length bs)));
  out ← from_hex_chunks bs;
  Ok (to_array N out).

(** [HEX[(b >> 4) as usize]] and [HEX[(b & 0x0f) as usize]] *)
Definition hex_digit (d : Z) : byte := default x00 (HEX !! Z.to_nat d).

Fixpoint to_hex_bytes (l : list byte) : list byte :=
  match l with
  | [] => []
  | b :: l' =>
      hex_digit (Z.shiftr (byte_Z b) 4) :: hex_digit (Z.land (byte_Z b) 15) :: to_hex_bytes l'
  end.

Definition to_hex {N} (b : bytes N) : string := String.string_of_list_byte (to_hex_bytes b).

(** [format!("0x{}", to_hex(b))]: [hex_display], and [Display] of [Hex32]. *)
Definition hex_display {N} (b : bytes N) : string := "0x" ++ to_hex b.

(** * Round trip *)

Definition all_bytes : list byte := (λ n, byte_of_Z (Z.of_nat n)) <$> seq 0 256.

Lemma all_bytes_complete b : b ∈ all_bytes.
Proof.
  apply list_elem_of_fmap. exists (Z.to_nat (byte_Z b)). pose proof (byte_Z_range b).
  rewrite Z2Nat.id by lia. split; [by rewrite byte_of_Z_Z|]. apply elem_of_seq. lia.
Qed.

(** A property of a byte that evaluates to true on the 256 of them. *)
Lemma byte_ind (P : byte → Prop) `{∀ b, Decision (P b)} :
  forallb (λ b, bool_decide (P b)) all_bytes = true → ∀ b, P b.
Proof.
  intros Hall b. rewrite forallb_forall in Hall.
  specialize (Hall b (proj1 (list_elem_of_In _ _) (all_bytes_complete b))).
  by apply bool_decide_eq_true in Hall.
Qed.

Lemma hex_pair_of_byte b :
  position HEX (hex_digit (Z.shiftr (byte_Z b) 4)) = Some (Z.to_nat (Z.shiftr (byte_Z b) 4)) ∧
  position HEX (hex_digit (Z.land (byte_Z b) 15)) = Some (Z.to_nat (Z.land (byte_Z b) 15)) ∧
  byte_of_Z (Z.lor (Z.shiftl (Z.of_nat (Z.to_nat (Z.shiftr (byte_Z b) 4))) 4)
               (Z.of_nat (Z.to_nat (Z.land (byte_Z b) 15)))) = b.
Proof. revert b. apply (byte_ind _). vm_compute. reflexivity. Qed.

Lemma position_HEX h n : position HEX h = Some n → (n < 16)%nat ∧ h = hex_digit (Z.of_nat n).
Proof.
  assert (D : ∀ b, match position HEX b with
    | Some m => bool_decide ((m < 16)%nat ∧ b = hex_digit (Z.of_nat m)) | None => true end = true).
  { apply (byte_ind _). vm_compute. reflexivity. }
  intros E. specialize (D h). rewrite E in D. by apply bool_decide_eq_true in D.
Qed.

Lemma hex_byte_of_pair hi lo :
  (hi < 16)%nat → (lo < 16)%nat →
  let b := byte_of_Z (Z.lor (Z.shiftl (Z.of_nat hi) 4) (Z.of_nat lo)) in
  Z.shiftr (byte_Z b) 4 = Z.of_nat hi ∧ Z.land (byte_Z b) 15 = Z.of_nat lo.
Proof.
  intros Hhi Hlo.
  assert (D : Forall (λ h, Forall (λ l,
    Z.shiftr (byte_Z (byte_of_Z (Z.lor (Z.shiftl (Z.of_nat h) 4) (Z.of_nat l)))) 4 = Z.of_nat h ∧
    Z.land (byte_Z (byte_of_Z (Z.lor (Z.shiftl (Z.of_nat h) 4) (Z.of_nat l)))) 15 = Z.of_nat l)
    (seq 0 16)) (seq 0 16)).
  { apply (bool_decide_unpack _). vm_compute. exact I. }
  rewrite Forall_forall in D. specialize (D hi ltac:(apply elem_of_seq; lia)).
  rewrite Forall_forall in D. exact (D lo ltac:(apply elem_of_seq; lia)).
Qed.

Lemma from_hex_chunks_to_hex l : from_hex_chunks (to_hex_bytes l) = Ok l.
Proof.
  induction l as [|b l IH]; cbn [to_hex_bytes from_hex_chunks]; [done|].
  destruct (hex_pair_of_byte b) as (-> & -> & E). cbn [ok_or mbind result_bind].
  rewrite IH. cbn [mbind result_bind]. by rewrite E.
Qed.

Lemma to_hex_bytes_length l : length (to_hex_bytes l) = (2 * length l)%nat.
Proof. induction l as [|b l IH]; cbn; lia. Qed.

Lemma from_hex_chunks_sound n l out :
  length l = (2 * n)%nat → from_hex_chunks l = Ok out → to_hex_bytes out = l ∧ length out = n.
Proof.
  revert l out. induction n as [|n IH]; intros l out Hl E.
  - destruct l; [|done]. cbn in E. by inv_ok.
  - destruct l as [|h [|o l]]; cbn in Hl; [lia..|]. cbn [from_hex_chunks] in E. inv_ok.
    match goal with
    | H : from_hex_chunks l = Ok ?x |- _ => destruct (IH l x ltac:(lia) H) as [El Hlen]
    end.
    repeat match goal with H : position HEX _ = Some _ |- _ => apply position_HEX in H as [? ->] end.
    cbn [to_hex_bytes length]. destruct (hex_byte_of_pair x x0) as [-> ->]; [done..|].
    rewrite El, Hlen. done.
Qed.

(** Fact: Hexadecimal text is canonical: [from_hex::<N>] accepts a string exactly
    when it is the [2N]-character lowercase rendering [to_hex] of the array it
    returns, so parsing and printing are inverse to each other. *)
Theorem from_hex_iff (N : nat) (s : string) (b : bytes N) :
  from_hex N s = Ok b ↔ s = to_hex b.
Proof.
  unfold from_hex, to_hex. split.
  - intros E. inv_ok.
    destruct (from_hex_chunks_sound N (as_bytes s) x0) as [E Hl]; [lia|done|].
    rewrite to_array_list by done. rewrite E. symmetry. apply String.string_of_list_byte_of_string.
  - intros ->. unfold as_bytes. rewrite String.list_byte_of_string_of_list_byte.
    rewrite fail_if_false by (rewrite to_hex_bytes_length, bytes_length; lia).
    cbn [mbind result_bind]. rewrite from_hex_chunks_to_hex. cbn [mbind result_bind].
    by rewrite to_array_blist.
Qed.

(** * Formatting of the values that appear in messages *)

Definition usize_display (z : Z) : string := pretty (Z.to_N z).

(** [{:?}] of a byte array, an outpoint and an optional outpoint. *)
Definition debug_bytes (b : list byte) : string :=
  "[" ++ String.concat ", " ((λ x, usize_display (byte_Z x)) <$> b) ++ "]".
Definition debug_outpoint (o : KaspaOutpoint) : string :=
  "KaspaOutpoint { transaction_id: " ++ debug_bytes (transaction_id o)
  ++ ", index: " ++ usize_display (index o) ++ " }".
Definition debug_outpoint_opt (o : option KaspaOutpoint) : string :=
  match o with Some o => "Some(" ++ debug_outpoint o ++ ")" | None => "None" end.

(** [Display] of [DecodeError] (src/crates/rgk-core/src/error.rs). The [{:#04x}]
    of a tag is its two hexadecimal digits; a character is shown quoted, as
    [{:?}] shows a printable one. *)
Definition hex_tag (b : byte) : string := "0x" ++ to_hex (to_array 1 [b]).
Definition decode_error_display (e : DecodeError) : string :=
  match e with
  | Eof => "unexpected end of canonical buffer"
  | TrailingBytes remaining =>
      "trailing " ++ usize_display remaining ++ " byte(s) after canonical object"
  | BadMagic => "bad domain magic prefix"
  | UnknownVersion v => "unknown canonical encoding version " ++ usize_display v
  | UnknownChain tag => "unknown Kaspa chain id tag " ++ hex_tag tag
  | UnknownReceiptPolicy tag => "unknown receipt policy tag " ++ hex_tag tag
  | UnknownProofMode tag => "unknown proof mode tag " ++ hex_tag tag
  | BadDomainTag expected got =>
      "bad domain tag byte: expected " ++ hex_tag expected ++ ", got " ++ hex_tag got
  | BlobTooLong len max =>
      "variable blob length " ++ usize_display len ++ " exceeds max " ++ usize_display max
  | InvalidUtf8 => "canonical object contained invalid UTF-8"
  | HexBadLength expected got =>
      "hex decode: expected " ++ usize_display expected ++ " chars, got " ++ usize_display got
  | HexBadChar c => "hex decode: bad char '" ++ String.string_of_list_byte [c] ++ "'"
  | Structural msg => "structural invariant violated: " ++ msg
  end.
