(* ===== verification/Receipt.v ===== *)
(** Receipts: src/crates/rgk-receipt/src/lib.rs.  The builder, the local
    verifier, the replay set and the helpers around them. *)

From stdpp Require Import base list strings pretty sets.
From Stdlib Require Import ZArith Lia Strings.Byte.
From S2P Require Import Prelude.
From S2P Require Import Bytes.
From S2P Require Import Encoding.
From S2P Require Import Types.
From S2P Require Import Commit.
From S2P Require Import Hex.

Open Scope string_scope.

Inductive ReceiptError : Type :=
| RE_ChainMismatch (receipt verifier : KaspaChainId)
| RE_CovenantMismatch (covenant actual : Bytes32)
| RE_AssetMismatch (expected actual : Bytes32)
| RE_OldStateMismatch (expected actual : Bytes32)
| RE_PolicyRejectsMode (policy : ReceiptPolicy) (mode : ProofMode)
| RE_DecodeFailure (e : DecodeError)
| RE_Structural (msg : string)
| RE_Replay (id : Bytes32)
| RE_UnknownChain (c : KaspaChainId)
| RE_MissingTransitionDigest
| RE_MissingContinuationCommitment
| RE_MissingReplayNonce.

#[export] Instance ReceiptError_eq_dec : EqDecision ReceiptError.
Proof. solve_decision. Defined.

Record ReceiptInput := {
  ri_chain_id : KaspaChainId;
  ri_covenant_id : KaspaCovenantId;
  ri_old_state : RgkStateCommitment;
  ri_new_state : RgkStateCommitment;
  ri_transition_digest : TransitionDigest;
  ri_continuation_commitment : ContinuationCommitment;
  ri_proof_mode : ProofMode;
  ri_replay_nonce : Bytes32
}.

Definition to_validated_receipt (self : ReceiptInput) : result ReceiptError RgkReceipt :=
  _ ← fail_if (ri_transition_digest self = zero32) RE_MissingTransitionDigest;
  _ ← fail_if (ri_continuation_commitment self = zero32) RE_MissingContinuationCommitment;
  _ ← fail_if (ri_replay_nonce self = zero32) RE_MissingReplayNonce;
  map_err RE_DecodeFailure
    (receipt_new (ri_chain_id self) (ri_covenant_id self) (ri_old_state self) (ri_new_state self)
       (ri_transition_digest self) (ri_continuation_commitment self) (ri_proof_mode self)
       (ri_replay_nonce self)).

Definition receipt_input_new (chain_id : KaspaChainId) (covenant_id : KaspaCovenantId)
    (old_state new_state : RgkStateCommitment) (transition_digest : TransitionDigest)
    (continuation_commitment : ContinuationCommitment) (proof_mode : ProofMode)
    (replay_nonce : Bytes32) : result ReceiptError ReceiptInput :=
  let input := {|
    ri_chain_id := chain_id;
    ri_covenant_id := covenant_id;
    ri_old_state := old_state;
    ri_new_state := new_state;
    ri_transition_digest := transition_digest;
    ri_continuation_commitment := continuation_commitment;
    ri_proof_mode := proof_mode;
    ri_replay_nonce := replay_nonce
  |} in
  _ ← to_validated_receipt input;
  Ok input.

Section receipt.
Context `{Sha256}.

(** [ReceiptBuilder::build] *)
Definition receipt_build (input : ReceiptInput)
  : result ReceiptError (RgkReceipt * ReceiptId * list byte) :=
  receipt ← to_validated_receipt input;
  let bytes := encode_canonical receipt in
  let id := receipt_commitment receipt in
  Ok (receipt, id, bytes).

(** [ReceiptVerifier::verify_local_structured] *)
Definition verify_local_structured (receipt : RgkReceipt)
    (expected_covenant_id : KaspaCovenantId) (expected_old_state : RgkStateCommitment)
    (verifier_chain : KaspaChainId) : result ReceiptError ReceiptId :=
  _ ← fail_if (rc_chain_id receipt ≠ verifier_chain)
        (RE_ChainMismatch (rc_chain_id receipt) verifier_chain);
  _ ← fail_if (rc_covenant_id receipt ≠ expected_covenant_id)
        (RE_CovenantMismatch (rc_covenant_id receipt) expected_covenant_id);
  _ ← fail_if (sc_asset_id (rc_old_state receipt) ≠ sc_asset_id expected_old_state
               ∨ sc_asset_id (rc_new_state receipt) ≠ sc_asset_id expected_old_state)
        (RE_AssetMismatch (sc_asset_id expected_old_state)
           (sc_asset_id (rc_old_state receipt)));
  _ ← fail_if (sc_state_digest (rc_old_state receipt) ≠ sc_state_digest expected_old_state)
        (RE_OldStateMismatch (sc_state_digest (rc_old_state receipt))
           (sc_state_digest expected_old_state));
  _ ← fail_if (admits (sc_receipt_policy expected_old_state) (rc_proof_mode receipt) = false)
        (RE_PolicyRejectsMode (sc_receipt_policy expected_old_state) (rc_proof_mode receipt));
  Ok (receipt_commitment receipt).

(** [ReceiptVerifier::verify_local] *)
Definition verify_local (receipt_bytes : list byte) (expected_covenant_id : KaspaCovenantId)
    (expected_old_state : RgkStateCommitment) (verifier_chain : KaspaChainId)
  : result ReceiptError ReceiptId :=
  receipt ← map_err RE_DecodeFailure (decode_canonical (A := RgkReceipt) receipt_bytes);
  verify_local_structured receipt expected_covenant_id expected_old_state verifier_chain.

(** Helpers *)
Definition receipt_id_hex (id : ReceiptId) : string := "0x" ++ to_hex id.

(** [s[..n].to_string()] of an ASCII string *)
Definition hex_short (b : Bytes32) : string := String.substring 0 16 (to_hex b).

Definition receipt_summary (r : RgkReceipt) : string :=
  "RGK receipt id=0x" ++ String.substring 0 18 (receipt_id_hex (receipt_commitment r))
  ++ " chain=" ++ chain_as_domain_str (rc_chain_id r)
  ++ " covenant=0x" ++ hex_short (rc_covenant_id r)
  ++ " mode=" ++ mode_as_domain_str (rc_proof_mode r)
  ++ " policy=" ++ policy_as_domain_str (sc_receipt_policy (rc_old_state r))
  ++ " transition=0x" ++ hex_short (rc_transition_digest r)
  ++ " continuation=0x" ++ hex_short (rc_continuation_commitment r).

Definition derive_replay_nonce (prev_outpoint_payload : list byte)
    (transition_digest : TransitionDigest) : Bytes32 :=
  replay_nonce prev_outpoint_payload transition_digest.
End receipt.

(** * The replay set *)

Record ReplaySet := { seen : list ReceiptId }.

Definition replay_set_new : ReplaySet := {| seen := [] |}.

Definition replay_record (self : ReplaySet) (id : ReceiptId) : result ReceiptError ReplaySet :=
  _ ← fail_if (id ∈ seen self) (RE_Replay id);
  Ok {| seen := seen self ++ [id] |}.

Definition replay_contains (self : ReplaySet) (id : ReceiptId) : bool :=
  bool_decide (id ∈ seen self).

Definition replay_len (self : ReplaySet) : nat := length (seen self).
Definition replay_is_empty (self : ReplaySet) : bool := bool_decide (seen self = []).

(** * [NewStateSpec] *)

Record NewStateSpec := {
  ns_chain_id : KaspaChainId;
  ns_covenant_id : KaspaCovenantId;
  ns_asset_id : Bytes32;
  ns_state_digest : Bytes32;
  ns_receipt_policy : ReceiptPolicy
}.

Definition into_commitment (self : NewStateSpec) : result ReceiptError RgkStateCommitment :=
  map_err RE_DecodeFailure
    (state_new (ns_chain_id self) (ns_covenant_id self) (ns_asset_id self)
       (ns_state_digest self) (ns_receipt_policy self)).

(** * Building and verifying *)

Lemma to_validated_receipt_ok input r :
  to_validated_receipt input = Ok r ↔
    ri_replay_nonce input ≠ zero32 ∧ receipt_valid r ∧
    r = {| rc_version := ENCODING_VERSION; rc_chain_id := ri_chain_id input;
           rc_covenant_id := ri_covenant_id input; rc_old_state := ri_old_state input;
           rc_new_state := ri_new_state input; rc_transition_digest := ri_transition_digest input;
           rc_continuation_commitment := ri_continuation_commitment input;
           rc_proof_mode := ri_proof_mode input; rc_replay_nonce := ri_replay_nonce input |}.
Proof.
  unfold to_validated_receipt. split.
  - intros E. inv_ok. apply receipt_new_ok in E as [-> E]. done.
  - intros (Hn & Hv & Hr). pose proof Hv as Hs. apply receipt_valid_spec in Hs.
    destruct Hs as (_&_&_&_&_&_&_&_&Ht&Hc&_). rewrite Hr in Ht, Hc. cbn in Ht, Hc.
    by_guards. apply map_err_ok. by apply receipt_new_ok.
Qed.

Section verifier.
Context `{Sha256}.

Lemma verify_local_structured_ok r cov st c id :
  verify_local_structured r cov st c = Ok id ↔
    rc_chain_id r = c ∧ rc_covenant_id r = cov ∧
    sc_asset_id (rc_old_state r) = sc_asset_id st ∧
    sc_asset_id (rc_new_state r) = sc_asset_id st ∧
    sc_state_digest (rc_old_state r) = sc_state_digest st ∧
    admits (sc_receipt_policy st) (rc_proof_mode r) = true ∧
    id = receipt_commitment r.
Proof.
  unfold verify_local_structured. split.
  - intros E. inv_ok. repeat split; try assumption. by apply not_false_is_true.
  - intros (H1 & H2 & H3 & H4 & H5 & H6 & ->). by by_guards.
Qed.

(** Fact: The wire format of receipts: [decode_canonical] returns a receipt
    exactly when it is structurally valid (states on one chain, covenant, asset
    and policy, a moved digest, non-zero commitments, an admitted proof mode)
    and the input is its canonical encoding, which is always 348 bytes long. *)
Theorem receipt_wire_format (bs : list byte) (r : RgkReceipt) :
  (decode_canonical bs = Ok r ↔ receipt_valid r ∧ bs = encode_canonical r) ∧
  length (encode_canonical r) = 348%nat.
Proof. split; [apply receipt_decode_iff|apply receipt_encoding_length]. Qed.

(** A receipt without its replay nonce. *)
Definition without_nonce (r : RgkReceipt) : RgkReceipt := {|
  rc_version := rc_version r; rc_chain_id := rc_chain_id r;
  rc_covenant_id := rc_covenant_id r; rc_old_state := rc_old_state r;
  rc_new_state := rc_new_state r; rc_transition_digest := rc_transition_digest r;
  rc_continuation_commitment := rc_continuation_commitment r;
  rc_proof_mode := rc_proof_mode r; rc_replay_nonce := zero32 |}.

Lemma without_nonce_accepted (r : RgkReceipt) cov st c id :
  receipt_valid r → verify_local (encode_canonical r) cov st c = Ok id →
  verify_local (encode_canonical (without_nonce r)) cov st c =
    Ok (receipt_commitment (without_nonce r)).
Proof.
  intros Hv E.
  assert (Hv0 : receipt_valid (without_nonce r))
    by (apply receipt_valid_spec in Hv; by apply receipt_valid_spec).
  unfold verify_local in *. rewrite (proj2 (receipt_decode_iff _ r)) in E by done.
  rewrite (proj2 (receipt_decode_iff _ (without_nonce r))) by done.
  cbn [map_err mbind result_bind] in *.
  apply verify_local_structured_ok in E. apply verify_local_structured_ok. naive_solver.
Qed.

Lemma build_needs_nonce (i : ReceiptInput) x :
  receipt_build i = Ok x → ri_replay_nonce i ≠ zero32.
Proof.
  unfold receipt_build. intros E. inv_ok. by apply to_validated_receipt_ok in H0 as [? _].
Qed.

(** C3: What an accepted receipt is: [verify_local] returns an id exactly when
    the bytes are the canonical encoding of a structurally valid receipt for the
    verifier's chain and the covenant under spend, whose old state carries the
    expected asset and digest, whose new state stays on that chain, covenant,
    asset and receipt policy and moves the digest, and whose proof mode both its
    own policy and the expected state's policy admit; the id returned is then
    the receipt commitment.  The replay nonce is not among the conditions,
    against the documents, which have structural validation reject a zero one:
    wherever a receipt is accepted, the same receipt with a zero nonce is
    accepted too, with its own id; only the builder refuses a zero nonce. *)
Theorem verify_local_iff (bs : list byte) cov st c id :
  (verify_local bs cov st c = Ok id ↔
    ∃ r, bs = encode_canonical r ∧ receipt_valid r ∧ id = receipt_commitment r ∧
      rc_chain_id r = c ∧ sc_chain_id (rc_new_state r) = c ∧
      rc_covenant_id r = cov ∧ sc_covenant_id (rc_new_state r) = cov ∧
      sc_asset_id (rc_old_state r) = sc_asset_id st ∧
      sc_asset_id (rc_new_state r) = sc_asset_id st ∧
      sc_state_digest (rc_old_state r) = sc_state_digest st ∧
      sc_state_digest (rc_new_state r) ≠ sc_state_digest st ∧
      sc_receipt_policy (rc_new_state r) = sc_receipt_policy (rc_old_state r) ∧
      admits (sc_receipt_policy (rc_old_state r)) (rc_proof_mode r) = true ∧
      admits (sc_receipt_policy st) (rc_proof_mode r) = true) ∧
  (∀ r, receipt_valid r → verify_local (encode_canonical r) cov st c = Ok id →
     verify_local (encode_canonical (without_nonce r)) cov st c =
       Ok (receipt_commitment (without_nonce r))) ∧
  (∀ i x, receipt_build i = Ok x → ri_replay_nonce i ≠ zero32).
Proof.
  split; [|split; [intros r; apply without_nonce_accepted|apply build_needs_nonce]].
  unfold verify_local. split.
  - intros E. inv_ok. apply receipt_decode_iff in H0 as [Hv ->].
    apply verify_local_structured_ok in E as (H1 & H2 & H3 & H4 & H5 & H6 & ->).
    exists x. pose proof Hv as Hs. apply receipt_valid_spec in Hs.
    destruct Hs as (_&_&_&[_ ?]&[_ ?]&_&?&?&_&_&?).
    repeat split; congruence || done.
  - intros (r & -> & Hv & -> & ? & _ & ? & _ & ? & ? & ? & _ & _ & _ & ?).
    rewrite (proj2 (receipt_decode_iff _ r)) by done. cbn [map_err mbind result_bind].
    by apply verify_local_structured_ok.
Qed.

(** Fact: Build, encode, decode, verify: whatever [ReceiptBuilder::build] returns
    decodes from its bytes to the same receipt, and the local verifier run on
    those bytes with the input's own chain, covenant and old state accepts it
    and returns the id the builder returned. *)
Theorem build_verify_roundtrip (input : ReceiptInput) r id bs :
  receipt_build input = Ok (r, id, bs) →
  decode_canonical bs = Ok r ∧
  verify_local bs (ri_covenant_id input) (ri_old_state input) (ri_chain_id input) = Ok id.
Proof.
  unfold receipt_build. intros E. inv_ok.
  apply to_validated_receipt_ok in H0 as (_ & Hv & Hr).
  assert (Hd : decode_canonical (encode_canonical r) = Ok r) by by apply receipt_decode_iff.
  split; [done|]. unfold verify_local. rewrite Hd. cbn [map_err mbind result_bind].
  apply receipt_valid_spec in Hv as (_&_&_&_&_&Ha&_&_&_&_&Hm).
  apply verify_local_structured_ok. subst r. cbn in *. by repeat split.
Qed.

(** Fact: No cross-chain acceptance: a valid receipt presented to a verifier
    configured for another chain is rejected with [ChainMismatch], whatever
    covenant and state that verifier expects. *)
Theorem verify_local_cross_chain (r : RgkReceipt) cov st c :
  receipt_valid r → rc_chain_id r ≠ c →
  verify_local (encode_canonical r) cov st c = Err (RE_ChainMismatch (rc_chain_id r) c).
Proof.
  intros Hv Hc. unfold verify_local. rewrite (proj2 (receipt_decode_iff _ r)) by done.
  cbn [map_err mbind result_bind]. unfold verify_local_structured.
  by rewrite (fail_if_true (rc_chain_id r ≠ c)).
Qed.

(** [RgkReceipt] with another asset label on both of its states. *)
Definition with_asset (a : RgkAssetId) (s : RgkStateCommitment) : RgkStateCommitment :=
  {| sc_version := sc_version s; sc_chain_id := sc_chain_id s;
     sc_covenant_id := sc_covenant_id s; sc_asset_id := a;
     sc_state_digest := sc_state_digest s; sc_receipt_policy := sc_receipt_policy s |}.
Definition relabel (a : RgkAssetId) (r : RgkReceipt) : RgkReceipt :=
  {| rc_version := rc_version r; rc_chain_id := rc_chain_id r;
     rc_covenant_id := rc_covenant_id r; rc_old_state := with_asset a (rc_old_state r);
     rc_new_state := with_asset a (rc_new_state r);
     rc_transition_digest := rc_transition_digest r;
     rc_continuation_commitment := rc_continuation_commitment r;
     rc_proof_mode := rc_proof_mode r; rc_replay_nonce := rc_replay_nonce r |}.

(** Fact: The receipt id does not commit to the asset: relabelling both states of
    a valid receipt with any other non-zero asset id gives a valid receipt with
    different canonical bytes and the same receipt id, so the id is not a
    commitment to the whole canonical encoding. *)
Theorem receipt_id_ignores_asset (r : RgkReceipt) (a : RgkAssetId) :
  receipt_valid r → a ≠ zero32 → a ≠ sc_asset_id (rc_old_state r) →
  receipt_valid (relabel a r) ∧
  encode_canonical (relabel a r) ≠ encode_canonical r ∧
  receipt_commitment (relabel a r) = receipt_commitment r.
Proof.
  intros Hv Ha Hne.
  assert (Hv' : receipt_valid (relabel a r)).
  { apply receipt_valid_spec in Hv as (H1&H2&H3&[H4 H4']&[H5 H5']&_&H7&H8&H9&H10&H11).
    apply state_valid_spec in H2 as (?&?&_&?), H3 as (?&?&_&?).
    apply receipt_valid_spec. cbn [relabel rc_old_state rc_new_state]. rewrite !state_valid_spec.
    split_and!; assumption || reflexivity. }
  split; [done|]. split; [|done]. intros E.
  assert (Ok (E := DecodeError) (relabel a r) = Ok r) as [= Er].
  { rewrite <-(proj2 (receipt_decode_iff _ (relabel a r)) (conj Hv' eq_refl)), E.
    by apply receipt_decode_iff. }
  apply Hne. apply (f_equal (λ x, sc_asset_id (rc_old_state x))) in Er. exact Er.
Qed.

(** Fact: Up to the asset label the receipt id is binding: two valid receipts of
    the same asset with the same id are the same receipt (every field, the
    states' included), unless the two messages hashed for the ids collide. *)
Theorem receipt_id_binding (r1 r2 : RgkReceipt) :
  receipt_valid r1 → receipt_valid r2 →
  sc_asset_id (rc_old_state r1) = sc_asset_id (rc_old_state r2) →
  receipt_commitment r1 = receipt_commitment r2 →
  r1 = r2 ∨ collision [receipt_message r1; receipt_message r2].
Proof.
  intros H1 H2 Ha E. apply receipt_commitment_binds in E as [E|]; [left|by right].
  apply receipt_body_inj in E as (?&?&?&?&?&?&?&?&?).
  apply receipt_valid_spec in H1 as (V1&O1&N1&[C1 D1]&[F1 G1]&A1&P1&_).
  apply receipt_valid_spec in H2 as (V2&O2&N2&[C2 D2]&[F2 G2]&A2&P2&_).
  apply state_valid_spec in O1 as [W1 _], O2 as [W2 _], N1 as [X1 _], N2 as [X2 _].
  destruct r1 as [? ? ? [] []], r2 as [? ? ? [] []]; cbn in *. congruence.
Qed.
End verifier.

(** * The replay set *)

Definition record_all (s : ReplaySet) (ids : list ReceiptId) : result ReceiptError ReplaySet :=
  try_fold replay_record s ids.

Lemma replay_record_ok s id s' :
  replay_record s id = Ok s' ↔ (id ∉ seen s) ∧ s' = {| seen := (seen s ++ [id])%list |}.
Proof.
  unfold replay_record. split.
  - intros E. by inv_ok.
  - intros [Hn ->]. by rewrite fail_if_false.
Qed.

Lemma record_all_from l ids s :
  NoDup l →
  record_all {| seen := l |} ids = Ok s ↔ NoDup ((l ++ ids)%list) ∧ s = {| seen := (l ++ ids)%list |}.
Proof.
  revert l. induction ids as [|id ids IH]; intros l Hl; unfold record_all; cbn [try_fold].
  - rewrite app_nil_r. split; [by intros [= <-]|by intros [_ ->]].
  - rewrite bind_ok. setoid_rewrite replay_record_ok. cbn [seen].
    assert (El : (l ++ id :: ids = (l ++ [id]) ++ ids)%list) by by rewrite <-app_assoc.
    rewrite El. split.
    + intros (s1 & [Hn ->] & E). apply IH in E; [done|].
      apply NoDup_app; split_and!; [done|set_solver|apply NoDup_singleton].
    + intros [Hnd ->]. exists {| seen := (l ++ [id])%list |}.
      assert (Hs : NoDup (l ++ [id])%list) by by apply NoDup_app in Hnd as [? _].
      split; [|by apply IH]. split; [|done].
      apply NoDup_app in Hs as (_ & Hs & _). intros Hin. by destruct (Hs id Hin); left.
Qed.

(** Fact: Replay protection over any sequence of submissions: starting from the
    empty set, a sequence of ids is accepted in full exactly when no id occurs
    twice in it, and the set then holds those ids in submission order; resubmitting
    an accepted id is rejected with [Replay] of that id. *)
Theorem replay_set_accepts_once (ids : list ReceiptId) :
  (∀ s, record_all replay_set_new ids = Ok s ↔ NoDup ids ∧ seen s = ids) ∧
  (NoDup ids → ∀ id, id ∈ ids →
     record_all replay_set_new (ids ++ [id])%list = Err (RE_Replay id)).
Proof.
  split.
  - intros s. unfold replay_set_new. rewrite record_all_from by constructor. cbn [app].
    destruct s as [l]; cbn. split; intros [? E]; split; congruence.
  - intros Hnd id Hin. unfold record_all. rewrite try_fold_app.
    fold (record_all replay_set_new ids). unfold replay_set_new.
    rewrite (proj2 (record_all_from [] ids _ (NoDup_nil_2))) by done.
    cbn [mbind result_bind try_fold app]. unfold replay_record. by rewrite fail_if_true.
Qed.
