(* ===== verification/CoreSamples.v ===== *)
(** Concrete states and receipts, on which the witnesses of the core theorems
    evaluate the model. *)

From stdpp Require Import base list strings sets.
From Stdlib Require Import ZArith Lia Strings.Byte.
From S2P Require Import Prelude.
From S2P Require Import Bytes.
From S2P Require Import Encoding.
From S2P Require Import Types.
From S2P Require Import Commit.
From S2P Require Import Hex.
From S2P Require Import Receipt.

Definition b32 (z : Z) : Bytes32 := to_array 32 (le_bytes 32 z).
Definition n64 (z : Z) : u64 := wrap 64 z.
Definition n32 (z : Z) : u32 := wrap 32 z.

Definition sample_state (digest : Z) : RgkStateCommitment := {|
  sc_version := ENCODING_VERSION; sc_chain_id := KaspaLocalToccata; sc_covenant_id := b32 21;
  sc_asset_id := b32 22; sc_state_digest := b32 digest; sc_receipt_policy := Any |}.

Definition sample_input : ReceiptInput := {|
  ri_chain_id := KaspaLocalToccata; ri_covenant_id := b32 21;
  ri_old_state := sample_state 100; ri_new_state := sample_state 101;
  ri_transition_digest := b32 41; ri_continuation_commitment := b32 42;
  ri_proof_mode := VerifierReceipt; ri_replay_nonce := b32 43 |}.

Definition sample_receipt : RgkReceipt := {|
  rc_version := ENCODING_VERSION; rc_chain_id := KaspaLocalToccata; rc_covenant_id := b32 21;
  rc_old_state := sample_state 100; rc_new_state := sample_state 101;
  rc_transition_digest := b32 41; rc_continuation_commitment := b32 42;
  rc_proof_mode := VerifierReceipt; rc_replay_nonce := b32 43 |}.

Lemma sample_receipt_valid : receipt_valid sample_receipt.
Proof. by vm_compute. Qed.

Definition sample_migration : PolicyMigrationInput := {|
  pmi_previous_policy := Any; pmi_new_policy := VerifierOnly;
  pmi_previous_state_digest := b32 1; pmi_new_state_digest := b32 2;
  pmi_transition_digest := b32 3; pmi_authorization_commitment := b32 4 |}.

Section witnesses.
#[local] Instance sample_sha256 : Sha256 := toy_sha256.

Lemma canonical_encoding_strict_witness :
  decode_canonical (encode_canonical sample_receipt) = Ok sample_receipt.
Proof.
  apply (canonical_encoding_strict (encode_canonical sample_receipt) sample_receipt);
    [by vm_compute|]. split; [apply sample_receipt_valid|done].
Defined.

Lemma state_commitment_binding_witness :
  sample_state 100 = sample_state 100 ∨
  collision [state_commitment_message (sample_state 100); state_commitment_message (sample_state 100)].
Proof. apply (state_commitment_binding (sample_state 100) (sample_state 100)); by vm_compute. Defined.

Lemma policy_migration_binding_witness :
  sample_migration = sample_migration ∨
  collision [migration_message sample_migration; migration_message sample_migration].
Proof. by apply (policy_migration_binding sample_migration sample_migration). Defined.

Lemma build_verify_roundtrip_witness :
  verify_local (encode_canonical sample_receipt) (b32 21) (sample_state 100) KaspaLocalToccata =
    Ok (receipt_commitment sample_receipt).
Proof.
  apply (build_verify_roundtrip sample_input sample_receipt (receipt_commitment sample_receipt)
           (encode_canonical sample_receipt)). by vm_compute.
Defined.

Lemma verify_local_iff_witness :
  verify_local (encode_canonical (without_nonce sample_receipt)) (b32 21) (sample_state 100)
    KaspaLocalToccata = Ok (receipt_commitment (without_nonce sample_receipt)).
Proof.
  destruct (verify_local_iff (encode_canonical sample_receipt) (b32 21) (sample_state 100)
    KaspaLocalToccata (receipt_commitment sample_receipt)) as (_ & H & _).
  apply H; by vm_compute.
Defined.

Lemma verify_local_cross_chain_witness :
  verify_local (encode_canonical sample_receipt) (b32 21) (sample_state 100) KaspaMainnet =
    Err (RE_ChainMismatch KaspaLocalToccata KaspaMainnet).
Proof. by apply (verify_local_cross_chain sample_receipt); vm_compute. Defined.

Lemma receipt_id_ignores_asset_witness :
  encode_canonical (relabel (b32 99) sample_receipt) ≠ encode_canonical sample_receipt ∧
  receipt_commitment (relabel (b32 99) sample_receipt) = receipt_commitment sample_receipt.
Proof. apply (receipt_id_ignores_asset sample_receipt (b32 99)); by vm_compute. Defined.

Lemma receipt_id_binding_witness :
  sample_receipt = sample_receipt ∨
  collision [receipt_message sample_receipt; receipt_message sample_receipt].
Proof. apply (receipt_id_binding sample_receipt sample_receipt); by vm_compute. Defined.
End witnesses.

Section degenerate_hash.
(** With a constant digest every pair of preimages collides. *)
#[local] Instance constant_sha256 : Sha256 := λ _, zero32.

Lemma commitments_domain_separated_witness :
  collision [tagged_message TagReceipt []; tagged_message TagLineage []].
Proof. by apply (commitments_domain_separated TagReceipt [] TagLineage []). Defined.
End degenerate_hash.
