(* ===== verification/AssetTypes.v ===== *)
(** Data of the native asset grammar (src/crates/rgk-asset/src/native.rs): the
    commitments, policies, lanes, anchors, allocations, issues, transitions,
    continuation plans, reports, strategies and errors.

    The [bytes32_marker!] newtypes are 32-byte arrays here; lengths of vectors
    are [nat]; other [usize] quantities are [Z], with their overflow checks
    written out where they are computed. *)

From stdpp Require Import base list strings.
From Stdlib Require Import ZArith Lia Strings.Byte.
From S2P Require Import Prelude.
From S2P Require Import Bytes.
From S2P Require Import Encoding.
From S2P Require Import Types.

Open Scope string_scope.

Abbreviation BlindedLaneId := Bytes32.
Abbreviation RgkCollectionId := Bytes32.
Abbreviation RgkNftTokenId := Bytes32.
Abbreviation RgkStateDigest := Bytes32.
Abbreviation RgkTransitionDigest := Bytes32.
Abbreviation RgkReceiptCommitment := Bytes32.
Abbreviation RgkNullifier := Bytes32.
Abbreviation RgkScanTag := Bytes32.
Abbreviation RgkPolicyCommitment := Bytes32.
Abbreviation RgkMetadataCommitment := Bytes32.
Abbreviation RgkOwnerCommitment := Bytes32.
Abbreviation RgkNftTemplateCommitment := Bytes32.
Abbreviation RgkNftPolicyCommitment := Bytes32.
Abbreviation RgkNftTokenCommitment := Bytes32.
Abbreviation RgkNftMarketplaceSaleCommitment := Bytes32.
Abbreviation RgkContinuationCommitment := Bytes32.
Abbreviation RgkContinuationShapeRoot := Bytes32.

(** * Errors *)

Inductive RgkAssetError : Type :=
| AE_ZeroSchemaId
| AE_ZeroAssetId
| AE_ZeroTotalSupply
| AE_ZeroCommitment (name : string)
| AE_ZeroMetadataCommitment
| AE_ZeroOwnerCommitment (role : string)
| AE_ZeroOwnerDescriptor (kind : string)
| AE_ZeroNftCollectionId
| AE_ZeroNftTokenId
| AE_ZeroNftTemplateCommitment
| AE_ZeroNftPolicyCommitment
| AE_ZeroNftMarketplacePaymentAsset
| AE_ZeroNftMarketplacePrice
| AE_NftMarketplaceRoyaltyExceedsPrice (royalty price : u64)
| AE_NftMarketplaceCollectionMismatch
| AE_NftMarketplaceTokenMismatch
| AE_NftMarketplaceRoyaltyPolicyMismatch
| AE_NftMarketplaceSelfSale
| AE_NftMarketplaceAuthorizationMismatch
| AE_NftTokenIndexOutOfRange (token_index max_supply : u64)
| AE_NftChainMismatch (expected actual : KaspaChainId)
| AE_NftSchemaMismatch
| AE_NftAssetMismatch
| AE_NftSupplyMismatch (expected actual : u64)
| AE_NftAllocationShapeMismatch (role : string) (count : nat)
| AE_NftAllocationAmountMismatch (role : string) (expected actual : u64)
| AE_NftMetadataMismatch
| AE_NftOwnerMismatch (role : string)
| AE_NftUnexpectedBurn
| AE_ZeroOwnershipAuthorization
| AE_EmptyAllocations
| AE_ZeroAllocationAmount (index : nat)
| AE_ChainMismatch (index : nat) (expected actual : KaspaChainId)
| AE_NullCovenantOutpoint (index : nat)
| AE_ZeroCovenantId (index : nat)
| AE_ZeroWitnessTxid (index : nat)
| AE_ZeroEncryptedNote (index : nat)
| AE_UnconfirmedAnchor (index : nat)
| AE_DuplicateAnchorOutpoint (index : nat)
| AE_SupplyOverflow
| AE_SupplyMismatch (expected actual : u64)
| AE_SupplyInflation (spent new : u64)
| AE_SupplyDeflationWithoutBurn (spent new : u64)
| AE_ZeroBurnAmount
| AE_ZeroBurnAuthorization
| AE_BurnAmountMismatch (expected actual : u64)
| AE_DigestMismatch (expected actual : Bytes32)
| AE_ZeroPreviousStateDigest
| AE_ZeroTransitionWitnessTxid
| AE_NoOpTransition
| AE_ReusedSpentAnchor (index : nat)
| AE_PreviousStateDigestMismatch (expected actual : Bytes32)
| AE_TransitionDigestMismatch (expected actual : Bytes32)
| AE_ZeroLaneId
| AE_ZeroVerifierKey
| AE_UnconstrainedImageId
| AE_EmptyContinuationShape
| AE_ZeroContinuationAmount (index : nat)
| AE_ZeroContinuationCovenantId (index : nat)
| AE_ZeroContinuationEncryptedNote (index : nat)
| AE_DuplicateContinuationOutput (index : nat)
| AE_ContinuationCommitmentMismatch (expected actual : Bytes32)
| AE_UnsupportedProductionZkAllocationShape (spent_count new_count : nat)
| AE_ProductionZkAllocationBoundExceeded (role : string) (count max : nat)
| AE_SegmentedAllocationAuditRequiresConservation (burned_supply : u64)
| AE_SegmentedAllocationAuditEmptySide (role : string)
| AE_SegmentedAllocationAuditInvalidSegmentCapacity (segment_capacity : Z)
| AE_SegmentedAllocationAuditGridTooLarge
| AE_ProductionAllocationStrategyRecordDecode (reason : string)
| AE_ProductionAllocationStrategyRecordEncode (reason : string)
| AE_ProductionAllocationStrategyRecordMismatch (field : string).

#[export] Instance RgkAssetError_eq_dec : EqDecision RgkAssetError.
Proof. solve_decision. Defined.

Abbreviation aresult := (result RgkAssetError).

(** [reject_zero] and the marker constructor [from_bytes] *)
Definition reject_zero (b : Bytes32) (e : RgkAssetError) : aresult unit :=
  if is_zero32 b then Err e else Ok ().

Definition marker_from_bytes (name : string) (b : Bytes32) : aresult Bytes32 :=
  _ ← fail_if (is_zero32 b = true) (AE_ZeroCommitment name);
  Ok b.

Lemma reject_zero_ok b e u : reject_zero b e = Ok u ↔ b ≠ zero32.
Proof.
  unfold reject_zero. pose proof (is_zero32_spec b). destruct u, (is_zero32 b); naive_solver.
Qed.

Lemma reject_zero_nonzero b e : b ≠ zero32 → reject_zero b e = Ok ().
Proof. by rewrite reject_zero_ok. Qed.

(** * Owners *)

Inductive RgkOwnerDescriptor : Type :=
| KeyHash (b : Bytes32)
| ScriptHash (b : Bytes32)
| OwnerCovenantId (b : KaspaCovenantId).

Definition descriptor_kind (d : RgkOwnerDescriptor) : string :=
  match d with
  | KeyHash _ => "key-hash" | ScriptHash _ => "script-hash" | OwnerCovenantId _ => "covenant-id"
  end.
Definition descriptor_tag (d : RgkOwnerDescriptor) : u8 :=
  match d with KeyHash _ => x00 | ScriptHash _ => x01 | OwnerCovenantId _ => x02 end.
Definition descriptor_payload (d : RgkOwnerDescriptor) : Bytes32 :=
  match d with KeyHash b | ScriptHash b | OwnerCovenantId b => b end.

(** * Policies *)

Inductive LanePrivacyPolicy : Type := PublicLineage | PrivateLane | StealthLane.

#[export] Instance LanePrivacyPolicy_eq_dec : EqDecision LanePrivacyPolicy.
Proof. solve_decision. Defined.

Definition privacy_as_u8 (p : LanePrivacyPolicy) : u8 :=
  match p with PublicLineage => x00 | PrivateLane => x01 | StealthLane => x02 end.

Definition exposes_public_fields (p : LanePrivacyPolicy) : bool :=
  match p with PublicLineage => true | _ => false end.

Inductive ImageIdPolicy : Type :=
| Fixed (image_id : Bytes32)
| AllowedSet (set : list Bytes32)
| PolicyBranch (branch : Bytes32).

#[export] Instance ImageIdPolicy_eq_dec : EqDecision ImageIdPolicy.
Proof. solve_decision. Defined.

Inductive RgkProofPolicy : Type :=
| PP_VerifierReceipt (verifier_key_hash : Bytes32)
| PP_ZkReceipt (verifier_key_id : Bytes32) (image_id_policy : ImageIdPolicy)
| PP_Hybrid (verifier_key_hash verifier_key_id : Bytes32).

#[export] Instance RgkProofPolicy_eq_dec : EqDecision RgkProofPolicy.
Proof. solve_decision. Defined.

Definition proof_policy_validate (self : RgkProofPolicy) : aresult unit :=
  match self with
  | PP_VerifierReceipt verifier_key_hash => reject_zero verifier_key_hash AE_ZeroVerifierKey
  | PP_ZkReceipt verifier_key_id image_id_policy =>
      _ ← reject_zero verifier_key_id AE_ZeroVerifierKey;
      match image_id_policy with
      | Fixed image_id => reject_zero image_id AE_UnconstrainedImageId
      | AllowedSet set =>
          _ ← fail_if (set = []) AE_UnconstrainedImageId;
          try_fold (λ _ image_id, reject_zero image_id AE_UnconstrainedImageId) () set
      | PolicyBranch branch => reject_zero branch AE_UnconstrainedImageId
      end
  | PP_Hybrid verifier_key_hash verifier_key_id =>
      _ ← reject_zero verifier_key_hash AE_ZeroVerifierKey;
      reject_zero verifier_key_id AE_ZeroVerifierKey
  end.

(** * Anchors, allocations and burns *)

Record RgkCovenantAnchor := {
  an_chain : KaspaChainId;
  an_covenant_outpoint : KaspaOutpoint;
  an_covenant_id : KaspaCovenantId;
  an_witness_txid : Bytes32;
  an_daa_score : u64;
  an_confirmation_depth : u64
}.
#[export] Instance RgkCovenantAnchor_eq_dec : EqDecision RgkCovenantAnchor.
Proof. solve_decision. Defined.

Record RgkAllocation := {
  al_anchor : RgkCovenantAnchor;
  al_amount : u64;
  al_encrypted_note_commitment : Bytes32
}.
#[export] Instance RgkAllocation_eq_dec : EqDecision RgkAllocation.
Proof. solve_decision. Defined.

Record RgkBurnProof := {
  bp_amount : u64;
  bp_authorization_commitment : Bytes32
}.
#[export] Instance RgkBurnProof_eq_dec : EqDecision RgkBurnProof.
Proof. solve_decision. Defined.

Record RgkContinuationAllocationShape := {
  sh_output_index : u32;
  sh_covenant_id : KaspaCovenantId;
  sh_amount : u64;
  sh_encrypted_note_commitment : Bytes32
}.
#[export] Instance RgkContinuationAllocationShape_eq_dec :
  EqDecision RgkContinuationAllocationShape.
Proof. solve_decision. Defined.

(** * Issues, transitions, continuation plans *)

Record RgkAssetIssue := {
  is_chain : KaspaChainId;
  is_schema_id : RgkSchemaId;
  is_asset_id : RgkAssetId;
  is_total_supply : u64;
  is_metadata_commitment : RgkMetadataCommitment;
  is_owner_commitment : RgkOwnerCommitment;
  is_allocations : list RgkAllocation;
  is_lane_id : BlindedLaneId;
  is_privacy_policy : LanePrivacyPolicy;
  is_proof_policy : RgkProofPolicy
}.

Record RgkTransition := {
  tr_chain : KaspaChainId;
  tr_schema_id : RgkSchemaId;
  tr_asset_id : RgkAssetId;
  tr_total_supply : u64;
  tr_metadata_commitment : RgkMetadataCommitment;
  tr_previous_owner_commitment : RgkOwnerCommitment;
  tr_new_owner_commitment : RgkOwnerCommitment;
  tr_ownership_authorization_commitment : Bytes32;
  tr_previous_state_digest : RgkStateDigest;
  tr_spent_allocations : list RgkAllocation;
  tr_new_allocations : list RgkAllocation;
  tr_burn : option RgkBurnProof;
  tr_witness_txid : Bytes32;
  tr_lane_id : BlindedLaneId;
  tr_privacy_policy : LanePrivacyPolicy;
  tr_proof_policy : RgkProofPolicy
}.

Record RgkContinuationPlan := {
  cp_chain : KaspaChainId;
  cp_schema_id : RgkSchemaId;
  cp_asset_id : RgkAssetId;
  cp_total_supply : u64;
  cp_metadata_commitment : RgkMetadataCommitment;
  cp_previous_owner_commitment : RgkOwnerCommitment;
  cp_new_owner_commitment : RgkOwnerCommitment;
  cp_ownership_authorization_commitment : Bytes32;
  cp_previous_state_digest : RgkStateDigest;
  cp_spent_allocations : list RgkAllocation;
  cp_new_allocation_shapes : list RgkContinuationAllocationShape;
  cp_burn : option RgkBurnProof;
  cp_lane_id : BlindedLaneId;
  cp_privacy_policy : LanePrivacyPolicy;
  cp_proof_policy : RgkProofPolicy
}.
#[export] Instance RgkContinuationPlan_eq_dec : EqDecision RgkContinuationPlan.
Proof. solve_decision. Defined.

(** * Reports *)

Record RgkIssueReport := {
  ir_chain : KaspaChainId;
  ir_schema_id : RgkSchemaId;
  ir_asset_id : RgkAssetId;
  ir_total_supply : u64;
  ir_metadata_commitment : RgkMetadataCommitment;
  ir_owner_commitment : RgkOwnerCommitment;
  ir_allocation_count : nat;
  ir_lane_id : BlindedLaneId;
  ir_privacy_policy : LanePrivacyPolicy;
  ir_policy_commitment : RgkPolicyCommitment;
  ir_state_digest : RgkStateDigest
}.

Record RgkTransitionReport := {
  trr_chain : KaspaChainId;
  trr_schema_id : RgkSchemaId;
  trr_asset_id : RgkAssetId;
  trr_total_supply : u64;
  trr_metadata_commitment : RgkMetadataCommitment;
  trr_previous_owner_commitment : RgkOwnerCommitment;
  trr_new_owner_commitment : RgkOwnerCommitment;
  trr_ownership_authorization_commitment : Bytes32;
  trr_spent_supply : u64;
  trr_new_supply : u64;
  trr_burned_supply : u64;
  trr_burn_authorization_commitment : Bytes32;
  trr_spent_allocation_count : nat;
  trr_new_allocation_count : nat;
  trr_lane_id : BlindedLaneId;
  trr_privacy_policy : LanePrivacyPolicy;
  trr_policy_commitment : RgkPolicyCommitment;
  trr_previous_state_digest : RgkStateDigest;
  trr_new_state_digest : RgkStateDigest;
  trr_transition_digest : RgkTransitionDigest
}.

Record RgkContinuationReport := {
  cr_chain : KaspaChainId;
  cr_schema_id : RgkSchemaId;
  cr_asset_id : RgkAssetId;
  cr_total_supply : u64;
  cr_metadata_commitment : RgkMetadataCommitment;
  cr_previous_owner_commitment : RgkOwnerCommitment;
  cr_new_owner_commitment : RgkOwnerCommitment;
  cr_ownership_authorization_commitment : Bytes32;
  cr_spent_supply : u64;
  cr_new_supply : u64;
  cr_burned_supply : u64;
  cr_burn_authorization_commitment : Bytes32;
  cr_spent_allocation_count : nat;
  cr_new_allocation_count : nat;
  cr_lane_id : BlindedLaneId;
  cr_privacy_policy : LanePrivacyPolicy;
  cr_policy_commitment : RgkPolicyCommitment;
  cr_previous_state_digest : RgkStateDigest;
  cr_shape_root : RgkContinuationShapeRoot;
  cr_commitment : RgkContinuationCommitment
}.

Record RgkFinalizedContinuation := {
  fc_commitment : RgkContinuationCommitment;
  fc_transition : RgkTransition;
  fc_transition_report : RgkTransitionReport
}.
