(* ===== verification/AssetRules.v ===== *)
(** The validation rules and commitment preimages the asset grammar shares
    (the private functions of src/crates/rgk-asset/src/native.rs): zero checks,
    allocation and continuation-shape sets, the supply rule, allocation roots,
    state digests and shape roots. *)

From stdpp Require Import base list strings gmap sets.
From Stdlib Require Import ZArith Lia Strings.Byte.
From S2P Require Import Prelude.
From S2P Require Import Bytes.
From S2P Require Import Encoding.
From S2P Require Import Types.
From S2P Require Import Commit.
From S2P Require Import AssetTypes.

Open Scope string_scope.

(** [vec.len() as u32] and [as u64] *)
Definition len_u32 {A} (l : list A) : u32 := wrap 32 (Z.of_nat (length l)).
Definition len_u64 {A} (l : list A) : u64 := wrap 64 (Z.of_nat (length l)).

(** * Field checks *)

Definition validate_metadata_commitment (m : RgkMetadataCommitment) : aresult unit :=
  reject_zero m AE_ZeroMetadataCommitment.

Definition validate_owner_commitment (o : RgkOwnerCommitment) (role : string) : aresult unit :=
  reject_zero o (AE_ZeroOwnerCommitment role).

Definition validate_owner_descriptor (d : RgkOwnerDescriptor) : aresult unit :=
  reject_zero (descriptor_payload d) (AE_ZeroOwnerDescriptor (descriptor_kind d)).

Definition validate_common (schema_id : RgkSchemaId) (asset_id : RgkAssetId) (total_supply : u64)
    (lane_id : BlindedLaneId) (proof_policy : RgkProofPolicy) : aresult unit :=
  _ ← fail_if (is_zero32 schema_id = true) AE_ZeroSchemaId;
  _ ← fail_if (is_zero32 asset_id = true) AE_ZeroAssetId;
  _ ← fail_if (uval total_supply = 0%Z) AE_ZeroTotalSupply;
  _ ← fail_if (is_zero32 lane_id = true) AE_ZeroLaneId;
  proof_policy_validate proof_policy.

Definition validate_ownership_handoff (previous_owner new_owner : RgkOwnerCommitment)
    (ownership_authorization_commitment : Bytes32) : aresult unit :=
  fail_if (previous_owner ≠ new_owner ∧ is_zero32 ownership_authorization_commitment = true)
    AE_ZeroOwnershipAuthorization.

(** * Allocation sets *)

(** One iteration of the loop over [allocations.iter().enumerate()], on the
    set of outpoints seen and the running total. *)
Definition check_allocation (chain : KaspaChainId) (index : nat)
    (s : gset KaspaOutpoint * u64) (allocation : RgkAllocation)
  : aresult (gset KaspaOutpoint * u64) :=
  let '(seen, total) := s in
  let anchor := al_anchor allocation in
  _ ← fail_if (uval (al_amount allocation) = 0%Z) (AE_ZeroAllocationAmount index);
  _ ← fail_if (an_chain anchor ≠ chain) (AE_ChainMismatch index chain (an_chain anchor));
  _ ← fail_if (an_covenant_outpoint anchor = outpoint_NULL) (AE_NullCovenantOutpoint index);
  _ ← fail_if (is_zero32 (an_covenant_id anchor) = true) (AE_ZeroCovenantId index);
  _ ← fail_if (is_zero32 (an_witness_txid anchor) = true) (AE_ZeroWitnessTxid index);
  _ ← fail_if (is_zero32 (al_encrypted_note_commitment allocation) = true)
        (AE_ZeroEncryptedNote index);
  _ ← fail_if (uval (an_confirmation_depth anchor) = 0%Z) (AE_UnconfirmedAnchor index);
  _ ← fail_if (an_covenant_outpoint anchor ∈ seen) (AE_DuplicateAnchorOutpoint index);
  total' ← ok_or (checked_add total (al_amount allocation)) AE_SupplyOverflow;
  Ok ({[ an_covenant_outpoint anchor ]} ∪ seen, total').

Definition validate_allocation_set_structure_allow_empty (chain : KaspaChainId)
    (allocations : list RgkAllocation) : aresult u64 :=
  s ← try_foldi (check_allocation chain) 0 (∅, wrap 64 0) allocations;
  Ok s.2.

Definition validate_allocation_set_structure (chain : KaspaChainId)
    (allocations : list RgkAllocation) : aresult u64 :=
  _ ← fail_if (allocations = []) AE_EmptyAllocations;
  validate_allocation_set_structure_allow_empty chain allocations.

Definition validate_allocation_set_exact (chain : KaspaChainId) (total_supply : u64)
    (allocations : list RgkAllocation) : aresult unit :=
  total ← validate_allocation_set_structure chain allocations;
  fail_if (total ≠ total_supply) (AE_SupplyMismatch total_supply total).

(** * Continuation shapes *)

Definition check_shape (index : nat) (s : gset u32 * u64) (shape : RgkContinuationAllocationShape)
  : aresult (gset u32 * u64) :=
  let '(seen, total) := s in
  _ ← fail_if (uval (sh_amount shape) = 0%Z) (AE_ZeroContinuationAmount index);
  _ ← fail_if (is_zero32 (sh_covenant_id shape) = true) (AE_ZeroContinuationCovenantId index);
  _ ← fail_if (is_zero32 (sh_encrypted_note_commitment shape) = true)
        (AE_ZeroContinuationEncryptedNote index);
  _ ← fail_if (sh_output_index shape ∈ seen) (AE_DuplicateContinuationOutput index);
  total' ← ok_or (checked_add total (sh_amount shape)) AE_SupplyOverflow;
  Ok ({[ sh_output_index shape ]} ∪ seen, total').

Definition validate_continuation_shapes_structure
    (shapes : list RgkContinuationAllocationShape) : aresult u64 :=
  _ ← fail_if (shapes = []) AE_EmptyContinuationShape;
  s ← try_foldi check_shape 0 (∅, wrap 64 0) shapes;
  Ok s.2.

Definition validate_continuation_shapes_structure_allow_empty
    (shapes : list RgkContinuationAllocationShape) (burn : option RgkBurnProof) : aresult u64 :=
  match shapes with
  | [] => match burn with Some _ => Ok (wrap 64 0) | None => Err AE_EmptyContinuationShape end
  | _ => validate_continuation_shapes_structure shapes
  end.

(** * The supply rule *)

Definition validate_supply_delta (spent_supply new_supply : u64) (burn : option RgkBurnProof)
  : aresult u64 :=
  _ ← fail_if (uval spent_supply < uval new_supply)%Z (AE_SupplyInflation spent_supply new_supply);
  let burned_supply := usub spent_supply new_supply in
  match decide (uval burned_supply = 0%Z), burn with
  | left _, None => Ok (wrap 64 0)
  | left _, Some proof =>
      _ ← fail_if (uval (bp_amount proof) = 0%Z) AE_ZeroBurnAmount;
      Err (AE_BurnAmountMismatch (wrap 64 0) (bp_amount proof))
  | right _, None => Err (AE_SupplyDeflationWithoutBurn spent_supply new_supply)
  | right _, Some proof =>
      _ ← fail_if (uval (bp_amount proof) = 0%Z) AE_ZeroBurnAmount;
      _ ← fail_if (is_zero32 (bp_authorization_commitment proof) = true) AE_ZeroBurnAuthorization;
      _ ← fail_if (bp_amount proof ≠ burned_supply)
            (AE_BurnAmountMismatch burned_supply (bp_amount proof));
      Ok burned_supply
  end.

Definition burn_authorization_commitment (burn : option RgkBurnProof) : Bytes32 :=
  match burn with Some proof => bp_authorization_commitment proof | None => zero32 end.

(** * Preimages *)

Definition encode_allocation (a : RgkAllocation) : list byte :=
  ([chain_as_u8 (an_chain (al_anchor a))] ++
  transaction_id (an_covenant_outpoint (al_anchor a)) ++
  u32_le (index (an_covenant_outpoint (al_anchor a))) ++
  an_covenant_id (al_anchor a) ++
  an_witness_txid (al_anchor a) ++
  u64_le (an_daa_score (al_anchor a)) ++
  u64_le (an_confirmation_depth (al_anchor a)) ++
  u64_le (al_amount a) ++
  al_encrypted_note_commitment a)%list.

Definition encode_burn_proof (burn : option RgkBurnProof) : list byte :=
  match burn with
  | None => [x00]
  | Some proof =>
      ([x01] ++ u64_le (bp_amount proof) ++ bp_authorization_commitment proof)%list
  end.

Definition encode_image_id_policy (policy : ImageIdPolicy) : list byte :=
  match policy with
  | Fixed image_id => ([x00] ++ image_id)%list
  | AllowedSet set => ([x01] ++ u32_le (len_u32 set) ++ concat (blist <$> set))%list
  | PolicyBranch branch => ([x02] ++ branch)%list
  end.

Definition encode_proof_policy (policy : RgkProofPolicy) : list byte :=
  match policy with
  | PP_VerifierReceipt verifier_key_hash => ([x00] ++ verifier_key_hash)%list
  | PP_ZkReceipt verifier_key_id image_id_policy =>
      ([x01] ++ verifier_key_id ++ encode_image_id_policy image_id_policy)%list
  | PP_Hybrid verifier_key_hash verifier_key_id =>
      ([x02] ++ verifier_key_hash ++ verifier_key_id)%list
  end.

Definition allocation_key (a : RgkAllocation) : KaspaOutpoint * Bytes32 * Bytes32 * u64 * u64 :=
  (an_covenant_outpoint (al_anchor a), an_covenant_id (al_anchor a),
   an_witness_txid (al_anchor a), an_daa_score (al_anchor a), al_amount a).

Definition shape_key (s : RgkContinuationAllocationShape) : u32 * Bytes32 * Bytes32 * u64 :=
  (sh_output_index s, sh_covenant_id s, sh_encrypted_note_commitment s, sh_amount s).

Record RgkStateDigestInput := {
  sd_asset_id : RgkAssetId;
  sd_total_supply : u64;
  sd_allocations : list RgkAllocation;
  sd_lane_id : BlindedLaneId;
  sd_privacy_policy : LanePrivacyPolicy;
  sd_policy_commitment : RgkPolicyCommitment;
  sd_metadata_commitment : RgkMetadataCommitment;
  sd_owner_commitment : RgkOwnerCommitment
}.

Section digests.
Context `{Sha256}.

Definition asset_domain_hash (domain : string) (payload : list byte) : Bytes32 :=
  domain_hash_str domain payload.

Definition derive_owner_commitment (self : RgkOwnerDescriptor) : aresult RgkOwnerCommitment :=
  _ ← validate_owner_descriptor self;
  let payload := ([descriptor_tag self] ++ descriptor_payload self)%list in
  Ok (asset_domain_hash "rgk:owner:descriptor:v1" payload).

Definition proof_policy_commitment (self : RgkProofPolicy) : aresult RgkPolicyCommitment :=
  _ ← proof_policy_validate self;
  let payload := encode_proof_policy self in
  Ok (asset_domain_hash "rgk:asset:policy:v1" payload).

Definition allocation_root (allocations : list RgkAllocation) : Bytes32 :=
  let ordered := sort_by_key allocation_key allocations in
  let payload := (u32_le (len_u32 ordered) ++ concat (encode_allocation <$> ordered))%list in
  asset_domain_hash "rgk:asset:allocation-root:v1" payload.

Definition state_digest_for_allocations (input : RgkStateDigestInput) : Bytes32 :=
  let allocation_root := allocation_root (sd_allocations input) in
  let payload :=
    (sd_asset_id input ++
     u64_le (sd_total_supply input) ++
     allocation_root ++
     sd_policy_commitment input ++
     sd_metadata_commitment input ++
     sd_owner_commitment input ++
     [privacy_as_u8 (sd_privacy_policy input)] ++
     sd_lane_id input)%list in
  asset_domain_hash "rgk:asset:state:v2" payload.

Definition continuation_shape_root (chain : KaspaChainId)
    (shapes : list RgkContinuationAllocationShape) : Bytes32 :=
  let ordered := sort_by_key shape_key shapes in
  let payload :=
    ([chain_as_u8 chain] ++ u32_le (len_u32 ordered) ++
     concat ((λ shape, u32_le (sh_output_index shape) ++ sh_covenant_id shape ++
                       u64_le (sh_amount shape) ++ sh_encrypted_note_commitment shape)%list
             <$> ordered))%list in
  asset_domain_hash "rgk:continuation:shape-root:v1" payload.
(** The messages behind an allocation root, a state digest and a shape root: one
    of its own for each, and for a state digest that of its root. *)
Definition root_message (l : list RgkAllocation) : list byte := ltac:(message_of (allocation_root l)).
Definition state_messages (i : RgkStateDigestInput) : list (list byte) :=
  [ltac:(message_of (state_digest_for_allocations i)); root_message (sd_allocations i)].
Definition shape_root_message (c : KaspaChainId) (l : list RgkContinuationAllocationShape)
  : list byte := ltac:(message_of (continuation_shape_root c l)).
End digests.

#[export] Hint Unfold state_messages : messages.

(** * What the checks establish *)

(** Well-formedness of one allocation on [chain]. *)
Record allocation_ok (chain : KaspaChainId) (a : RgkAllocation) : Prop := {
  ao_amount : (0 < al_amount a)%Z;
  ao_chain : an_chain (al_anchor a) = chain;
  ao_outpoint : an_covenant_outpoint (al_anchor a) ≠ outpoint_NULL;
  ao_covenant : an_covenant_id (al_anchor a) ≠ zero32;
  ao_witness : an_witness_txid (al_anchor a) ≠ zero32;
  ao_note : al_encrypted_note_commitment a ≠ zero32;
  ao_depth : (0 < an_confirmation_depth (al_anchor a))%Z
}.

Record shape_ok (s : RgkContinuationAllocationShape) : Prop := {
  so_amount : (0 < sh_amount s)%Z;
  so_covenant : sh_covenant_id s ≠ zero32;
  so_note : sh_encrypted_note_commitment s ≠ zero32
}.

Definition outpoint_of (a : RgkAllocation) : KaspaOutpoint := an_covenant_outpoint (al_anchor a).

(** Sum of amounts, without wrap-around. *)
Definition total {A} (amount : A → u64) (l : list A) : Z :=
  foldr (λ x z, amount x + z)%Z 0%Z l.
Arguments total : simpl never.
Abbreviation supply := (total al_amount).
Abbreviation shape_supply := (total sh_amount).

Section total.
Context {A : Type}.
Implicit Type (amount : A → u64).

Lemma total_cons amount x l : total amount (x :: l) = (amount x + total amount l)%Z.
Proof. done. Qed.

Lemma total_nonneg amount l : (0 <= total amount l)%Z.
Proof.
  induction l as [|a l IH]; [done|]. rewrite total_cons. pose proof (uint_range (amount a)). lia.
Qed.

Lemma total_app amount l k : total amount (l ++ k)%list = (total amount l + total amount k)%Z.
Proof. induction l as [|a l IH]; [done|]. cbn [app]. rewrite !total_cons, IH. lia. Qed.

Lemma total_fmap {B} (f : B → A) amount l :
  total amount (f <$> l) = total (λ x, amount (f x)) l.
Proof. induction l as [|a l IH]; [done|]. cbn. by rewrite !total_cons, IH. Qed.

Lemma total_perm amount l k : l ≡ₚ k → total amount l = total amount k.
Proof. induction 1; rewrite ?total_cons; lia. Qed.
End total.

(** The shared shape of the two set-checking loops: each element passes its
    own check, has a fresh key, and its amount does not overflow the total. *)
Section checked_set.
Context {A K : Type} `{Countable K} (key : A → K) (amount : A → u64) (P : A → Prop).
Context (f : nat → gset K * u64 → A → aresult (gset K * u64)).
Hypothesis f_ok : ∀ i s t x s' t',
  f i (s, t) x = Ok (s', t') ↔
    P x ∧ (key x ∉ s) ∧ s' = ({[ key x ]} ∪ s) ∧ uval t' = (t + amount x)%Z.

Local Ltac sets := try match goal with H : ∀ (_ : nat) (_ : gset K), _ |- _ => clear H end; set_solver.

Lemma checked_set_ok l i s t s' t' :
  try_foldi f i (s, t) l = Ok (s', t') ↔
    Forall P l ∧ NoDup (key <$> l) ∧ (∀ x, x ∈ l → key x ∉ s) ∧
    s' = (list_to_set (key <$> l) ∪ s) ∧
    uval t' = (t + total amount l)%Z.
Proof.
  revert i s t. induction l as [|x l IH]; intros i s t; cbn [try_foldi fmap list_fmap].
  - split.
    + intros [= -> ->]. split_and!; [constructor|constructor|sets|sets|by rewrite Z.add_0_r].
    + intros (_ & _ & _ & -> & E). do 2 f_equal; [sets|].
      apply (inj uval). by rewrite E, Z.add_0_r.
  - rewrite bind_ok. split.
    + intros ([s1 t1] & H1 & H2). apply f_ok in H1 as (HP & Hk & -> & Et).
      apply IH in H2 as (HF & Hnd & Hfresh & -> & Et').
      split_and!; [by constructor| |sets|sets|rewrite total_cons; lia].
      constructor; [|done]. intros (y & Ey & Hy)%list_elem_of_fmap.
      apply (Hfresh y Hy). rewrite <-Ey. sets.
    + intros (HF & Hnd & Hfresh & -> & Et). apply Forall_cons in HF as [HP HF].
      apply NoDup_cons in Hnd as [Hx Hnd].
      pose proof (total_nonneg amount l). rewrite total_cons in Et.
      assert (Hval : uval (wrap 64 (t + amount x)) = (t + amount x)%Z).
      { apply uval_wrap_small. pose proof (uint_range t'). pose proof (uint_range t).
        pose proof (uint_range (amount x)). lia. }
      exists ({[ key x ]} ∪ s, wrap 64 (t + amount x)). split.
      * apply f_ok. split_and!; [done|sets|done|done].
      * apply IH. split_and!; [done|done| |sets|lia].
        intros y Hy. pose proof (list_elem_of_fmap_2 key l y Hy). sets.
Qed.
End checked_set.

Lemma check_allocation_ok chain i s t a s' t' :
  check_allocation chain i (s, t) a = Ok (s', t') ↔
    allocation_ok chain a ∧ (outpoint_of a ∉ s) ∧ s' = ({[ outpoint_of a ]} ∪ s) ∧
    uval t' = (t + al_amount a)%Z.
Proof.
  unfold check_allocation, outpoint_of. split.
  - intros E. inv_ok. rewrite ?is_zero32_spec in *.
    pose proof (uint_range (al_amount a)). pose proof (uint_range (an_confirmation_depth (al_anchor a))).
    split_and!; try done; [constructor; try done; lia|by apply checked_add_some].
  - intros ([] & Hn & -> & Et). rewrite <-!is_zero32_not in *. by_guards.
    apply checked_add_some in Et. by rewrite Et.
Qed.

Lemma check_shape_ok i s t a s' t' :
  check_shape i (s, t) a = Ok (s', t') ↔
    shape_ok a ∧ (sh_output_index a ∉ s) ∧ s' = ({[ sh_output_index a ]} ∪ s) ∧
    uval t' = (t + sh_amount a)%Z.
Proof.
  unfold check_shape. split.
  - intros E. inv_ok. rewrite ?is_zero32_spec in *. pose proof (uint_range (sh_amount a)).
    split_and!; try done; [constructor; try done; lia|by apply checked_add_some].
  - intros ([] & Hn & -> & Et). rewrite <-!is_zero32_not in *. by_guards.
    apply checked_add_some in Et. by rewrite Et.
Qed.

Lemma allocation_set_allow_empty_ok chain l t :
  validate_allocation_set_structure_allow_empty chain l = Ok t ↔
    Forall (allocation_ok chain) l ∧ NoDup (outpoint_of <$> l) ∧ uval t = supply l.
Proof.
  unfold validate_allocation_set_structure_allow_empty. rewrite bind_ok. split.
  - intros ([s t'] & E & [= <-]).
    apply (checked_set_ok outpoint_of al_amount _ _ (check_allocation_ok chain)) in E.
    destruct E as (HF & Hnd & _ & _ & Et). split_and!; [done..|]. rewrite Et. done.
  - intros (HF & Hnd & Et). exists (list_to_set (outpoint_of <$> l) ∪ ∅, t). split; [|done].
    apply (checked_set_ok outpoint_of al_amount _ _ (check_allocation_ok chain)).
    split_and!; [done|done|set_solver|done|]. rewrite Et. done.
Qed.

Lemma allocation_set_ok chain l t :
  validate_allocation_set_structure chain l = Ok t ↔
    l ≠ [] ∧ Forall (allocation_ok chain) l ∧ NoDup (outpoint_of <$> l) ∧ uval t = supply l.
Proof.
  unfold validate_allocation_set_structure. rewrite bind_ok.
  setoid_rewrite fail_if_ok. setoid_rewrite allocation_set_allow_empty_ok. naive_solver.
Qed.

Lemma allocation_set_exact_ok chain total l u :
  validate_allocation_set_exact chain total l = Ok u ↔
    l ≠ [] ∧ Forall (allocation_ok chain) l ∧ NoDup (outpoint_of <$> l) ∧
    uval total = supply l.
Proof.
  unfold validate_allocation_set_exact. rewrite bind_ok. setoid_rewrite allocation_set_ok.
  setoid_rewrite fail_if_ok. split.
  - intros (t & (?&?&?&?) & Ht). apply dec_stable in Ht as ->. done.
  - intros (?&?&?&?). exists total. naive_solver.
Qed.

Lemma shapes_structure_ok l t :
  validate_continuation_shapes_structure l = Ok t ↔
    l ≠ [] ∧ Forall shape_ok l ∧ NoDup (sh_output_index <$> l) ∧ uval t = shape_supply l.
Proof.
  unfold validate_continuation_shapes_structure. rewrite bind_ok. setoid_rewrite fail_if_ok.
  setoid_rewrite bind_ok. split.
  - intros (_ & Hne & [s t'] & E & [= <-]).
    apply (checked_set_ok sh_output_index sh_amount _ _ check_shape_ok) in E.
    destruct E as (HF & Hnd & _ & _ & Et). split_and!; [done..|]. rewrite Et. done.
  - intros (Hne & HF & Hnd & Et). exists (). split; [done|].
    exists (list_to_set (sh_output_index <$> l) ∪ ∅, t). split; [|done].
    apply (checked_set_ok sh_output_index sh_amount _ _ check_shape_ok).
    split_and!; [done|done|set_solver|done|]. rewrite Et. done.
Qed.

Lemma shapes_allow_empty_ok l burn t :
  validate_continuation_shapes_structure_allow_empty l burn = Ok t ↔
    (l = [] → burn ≠ None) ∧ Forall shape_ok l ∧ NoDup (sh_output_index <$> l) ∧
    uval t = shape_supply l.
Proof.
  unfold validate_continuation_shapes_structure_allow_empty. destruct l as [|s l].
  - destruct burn as [p|]; split.
    + intros [= <-]. split_and!; [done|constructor|constructor|done].
    + intros (_ & _ & _ & E). f_equal. apply (inj uval). by rewrite E.
    + done.
    + intros (Hb & _). by destruct (Hb eq_refl).
  - rewrite shapes_structure_ok. naive_solver.
Qed.

(** The supply rule: nothing is created, and what disappears is burned by an
    authorised proof for exactly that amount. *)
Lemma supply_delta_ok spent new burn b :
  validate_supply_delta spent new burn = Ok b ↔
    uval b = (spent - new)%Z ∧
    match burn with
    | None => uval b = 0%Z
    | Some p => (0 < b)%Z ∧ bp_amount p = b ∧ bp_authorization_commitment p ≠ zero32
    end.
Proof.
  unfold validate_supply_delta. rewrite bind_ok. setoid_rewrite fail_if_ok.
  pose proof (uint_range spent). pose proof (uint_range new). pose proof (uint_range b). split.
  - intros (_ & Hle & E). assert (Hs := uval_usub spent new ltac:(lia)).
    case_decide as Hz; destruct burn as [p|]; inv_ok.
    + split; [|done]. change (uval (wrap 64 0)) with 0%Z; lia.
    + rewrite is_zero32_spec in *. split; [lia|]. split_and!; [lia|done|done].
  - intros [Hb Hburn]. exists (). split; [lia|]. assert (Hs := uval_usub spent new ltac:(lia)).
    assert (Eb : b = usub spent new) by (apply (inj uval); lia).
    destruct burn as [p|]; case_decide; try lia.
    + destruct Hburn as (? & Hp & Ha). rewrite <-is_zero32_not in Ha. rewrite Hp. by_guards.
      rewrite <-Eb. by by_guards.
    + f_equal. apply (inj uval). change (uval (wrap 64 0)) with 0%Z; lia.
Qed.

(** * What the digests bind *)

Lemma privacy_as_u8_inj p p' : privacy_as_u8 p = privacy_as_u8 p' → p = p'.
Proof. by destruct p, p'. Qed.

Lemma encode_allocation_inj a b : encode_allocation a = encode_allocation b → a = b.
Proof.
  unfold encode_allocation. intros E. peel_bytes E. apply chain_as_u8_inj in Ef.
  destruct a as [[? [] ????]], b as [[? [] ????]]. cbn in *. congruence.
Qed.

Lemma encode_allocation_length a : length (encode_allocation a) = 157%nat.
Proof.
  unfold encode_allocation. by rewrite !length_app, !bytes_length, !u64_le_length, u32_le_length.
Qed.

Lemma allocation_keys_NoDup l : NoDup (outpoint_of <$> l) → NoDup (allocation_key <$> l).
Proof.
  intros Hnd. apply (NoDup_fmap_1 (λ k : KaspaOutpoint * Bytes32 * Bytes32 * u64 * u64, k.1.1.1.1)).
  by rewrite <-list_fmap_compose.
Qed.

Lemma shape_keys_NoDup l : NoDup (sh_output_index <$> l) → NoDup (shape_key <$> l).
Proof.
  intros Hnd. apply (NoDup_fmap_1 (λ k : u32 * Bytes32 * Bytes32 * u64, k.1.1.1)).
  by rewrite <-list_fmap_compose.
Qed.

Section digest_facts.
Context `{Sha256}.

Lemma asset_hash_binds d1 p1 d2 p2 :
  (Z.of_nat (length (as_bytes d1)) < 2 ^ 32)%Z → (Z.of_nat (length (as_bytes d2)) < 2 ^ 32)%Z →
  asset_domain_hash d1 p1 = asset_domain_hash d2 p2 →
  (d1 = d2 ∧ p1 = p2) ∨ collision [domain_preimage d1 p1; domain_preimage d2 p2].
Proof. apply domain_hash_str_binds. Qed.

Lemma allocation_root_perm l k :
  NoDup (outpoint_of <$> l) → l ≡ₚ k → allocation_root l = allocation_root k.
Proof.
  intros Hnd Hp. unfold allocation_root.
  by rewrite (sort_by_key_unique _ l k (allocation_keys_NoDup _ Hnd) Hp).
Qed.

Lemma allocation_root_binds l k :
  allocation_root l = allocation_root k → l ≡ₚ k ∨ collision [root_message l; root_message k].
Proof.
  intros E. apply asset_hash_binds in E as [[_ E]|]; [left|by right|done..].
  apply u32_le_app_inj in E as [_ E].
  apply (concat_fixed_inj encode_allocation 156) in E;
    [|apply encode_allocation_length|apply encode_allocation_inj].
  by rewrite <-(sort_by_key_perm allocation_key l), E, sort_by_key_perm.
Qed.

Lemma state_digest_perm i l :
  NoDup (outpoint_of <$> sd_allocations i) → sd_allocations i ≡ₚ l →
  state_digest_for_allocations i =
    state_digest_for_allocations {|
      sd_asset_id := sd_asset_id i; sd_total_supply := sd_total_supply i;
      sd_allocations := l; sd_lane_id := sd_lane_id i;
      sd_privacy_policy := sd_privacy_policy i;
      sd_policy_commitment := sd_policy_commitment i;
      sd_metadata_commitment := sd_metadata_commitment i;
      sd_owner_commitment := sd_owner_commitment i |}.
Proof.
  intros Hnd Hp. unfold state_digest_for_allocations. cbn.
  by rewrite (allocation_root_perm _ _ Hnd Hp).
Qed.

Lemma state_digest_binds i j :
  state_digest_for_allocations i = state_digest_for_allocations j →
  (sd_asset_id i = sd_asset_id j ∧ sd_total_supply i = sd_total_supply j ∧
   sd_allocations i ≡ₚ sd_allocations j ∧ sd_lane_id i = sd_lane_id j ∧
   sd_privacy_policy i = sd_privacy_policy j ∧
   sd_policy_commitment i = sd_policy_commitment j ∧
   sd_metadata_commitment i = sd_metadata_commitment j ∧
   sd_owner_commitment i = sd_owner_commitment j) ∨ collision (state_messages i ++ state_messages j).
Proof.
  intros E. apply asset_hash_binds in E as [[_ E]|]; [|by_messages|done..].
  peel_bytes E. apply allocation_root_binds in Ef1 as [Ef1|]; [left|by_messages].
  apply privacy_as_u8_inj in Ef5. done.
Qed.

Lemma shape_root_perm c l k :
  NoDup (sh_output_index <$> l) → l ≡ₚ k →
  continuation_shape_root c l = continuation_shape_root c k.
Proof.
  intros Hnd Hp. unfold continuation_shape_root.
  by rewrite (sort_by_key_unique _ l k (shape_keys_NoDup _ Hnd) Hp).
Qed.

Lemma shape_root_binds c c' l k :
  continuation_shape_root c l = continuation_shape_root c' k →
  (c = c' ∧ l ≡ₚ k) ∨ collision [shape_root_message c l; shape_root_message c' k].
Proof.
  intros E. apply asset_hash_binds in E as [[_ E]|]; [left|by right|done..].
  cbn [app] in E. apply cons_byte_inj in E as [Ec E]. apply chain_as_u8_inj in Ec.
  split; [done|].
  apply u32_le_app_inj in E as [_ E].
  apply (concat_fixed_inj _ 75) in E.
  - by rewrite <-(sort_by_key_perm shape_key l), E, sort_by_key_perm.
  - intros s. by rewrite !length_app, !bytes_length, u64_le_length, u32_le_length.
  - intros s s' E'. peel_bytes E'. destruct s, s'. cbn in *. congruence.
Qed.

Lemma proof_policy_commitment_ok p c :
  proof_policy_commitment p = Ok c ↔
    proof_policy_validate p = Ok () ∧
    c = asset_domain_hash "rgk:asset:policy:v1" (encode_proof_policy p).
Proof.
  unfold proof_policy_commitment. rewrite bind_ok. split.
  - intros ([] & ? & [= <-]). done.
  - intros [? ->]. by exists ().
Qed.
End digest_facts.
