(* ===== verification/Asset.v ===== *)
(** Issues, transitions and two-phase continuation plans of the native asset
    grammar (src/crates/rgk-asset/src/native.rs): their validation, reports,
    digests and finalisation. *)

From stdpp Require Import base list strings gmap sets.
From Stdlib Require Import ZArith Lia Strings.Byte.
From S2P Require Import Prelude.
From S2P Require Import Bytes.
From S2P Require Import Encoding.
From S2P Require Import Types.
From S2P Require Import Commit.
From S2P Require Import AssetTypes.
From S2P Require Import AssetRules.

Open Scope string_scope.

(** * The fixed proof shapes *)

Inductive RgkAllocationProofShape : Type :=
| OneInZeroOut | OneInOneOut | TwoInTwoOut | ThreeInTwoOut | FourInTwoOut | FourInFourOut.

#[export] Instance RgkAllocationProofShape_eq_dec : EqDecision RgkAllocationProofShape.
Proof. solve_decision. Defined.

Definition ZK_SHAPES : list RgkAllocationProofShape :=
  [OneInZeroOut; OneInOneOut; TwoInTwoOut; ThreeInTwoOut; FourInTwoOut; FourInFourOut].
Definition ZK_MAX_SPENT : nat := 4.
Definition ZK_MAX_NEW : nat := 4.

Definition spent_count (s : RgkAllocationProofShape) : nat :=
  match s with
  | OneInZeroOut => 1 | OneInOneOut => 1 | TwoInTwoOut => 2 | ThreeInTwoOut => 3
  | FourInTwoOut => 4 | FourInFourOut => 4
  end.

Definition new_count (s : RgkAllocationProofShape) : nat :=
  match s with
  | OneInZeroOut => 0 | OneInOneOut => 1
  | TwoInTwoOut | ThreeInTwoOut | FourInTwoOut => 2
  | FourInFourOut => 4
  end.

Definition shape_label (s : RgkAllocationProofShape) : string :=
  match s with
  | OneInZeroOut => "1x0" | OneInOneOut => "1x1" | TwoInTwoOut => "2x2"
  | ThreeInTwoOut => "3x2" | FourInTwoOut => "4x2" | FourInFourOut => "4x4"
  end.

Definition from_counts (sc nc : nat) : option RgkAllocationProofShape :=
  List.find (λ shape, Nat.eqb (spent_count shape) sc && Nat.eqb (new_count shape) nc) ZK_SHAPES.

Definition require_counts (sc nc : nat) : aresult RgkAllocationProofShape :=
  ok_or (from_counts sc nc) (AE_UnsupportedProductionZkAllocationShape sc nc).

Definition validate_production_zk_issue_count (count : nat) : aresult unit :=
  fail_if (ZK_MAX_SPENT < count)%nat
    (AE_ProductionZkAllocationBoundExceeded "issue-state" count ZK_MAX_SPENT).

(** * Issues *)

Record RgkAssetIdDerivation := {
  ad_chain : KaspaChainId;
  ad_schema_id : RgkSchemaId;
  ad_total_supply : u64;
  ad_metadata_commitment : RgkMetadataCommitment;
  ad_owner_commitment : RgkOwnerCommitment;
  ad_allocations : list RgkAllocation;
  ad_lane_id : BlindedLaneId;
  ad_privacy_policy : LanePrivacyPolicy;
  ad_proof_policy : RgkProofPolicy
}.

Section asset.
Context `{Sha256}.

Definition derive_asset_id (input : RgkAssetIdDerivation) : aresult RgkAssetId :=
  _ ← validate_metadata_commitment (ad_metadata_commitment input);
  _ ← validate_owner_commitment (ad_owner_commitment input) "issue";
  policy ← proof_policy_commitment (ad_proof_policy input);
  let root := allocation_root (ad_allocations input) in
  let payload :=
    ([chain_as_u8 (ad_chain input)] ++
     ad_schema_id input ++
     u64_le (ad_total_supply input) ++
     ad_metadata_commitment input ++
     ad_owner_commitment input ++
     root ++
     [privacy_as_u8 (ad_privacy_policy input)] ++
     ad_lane_id input ++
     blist policy)%list in
  Ok (asset_domain_hash "rgk:asset:id:v2" payload).

Definition issue_validate_structure (self : RgkAssetIssue) : aresult unit :=
  _ ← validate_common (is_schema_id self) (is_asset_id self) (is_total_supply self)
        (is_lane_id self) (is_proof_policy self);
  _ ← validate_metadata_commitment (is_metadata_commitment self);
  _ ← validate_owner_commitment (is_owner_commitment self) "issue";
  validate_allocation_set_exact (is_chain self) (is_total_supply self) (is_allocations self).

Definition issue_report_unchecked (self : RgkAssetIssue) : aresult RgkIssueReport :=
  policy_commitment ← proof_policy_commitment (is_proof_policy self);
  Ok {|
    ir_chain := is_chain self;
    ir_schema_id := is_schema_id self;
    ir_asset_id := is_asset_id self;
    ir_total_supply := is_total_supply self;
    ir_metadata_commitment := is_metadata_commitment self;
    ir_owner_commitment := is_owner_commitment self;
    ir_allocation_count := length (is_allocations self);
    ir_lane_id := is_lane_id self;
    ir_privacy_policy := is_privacy_policy self;
    ir_policy_commitment := policy_commitment;
    ir_state_digest := state_digest_for_allocations {|
      sd_asset_id := is_asset_id self;
      sd_total_supply := is_total_supply self;
      sd_allocations := is_allocations self;
      sd_lane_id := is_lane_id self;
      sd_privacy_policy := is_privacy_policy self;
      sd_policy_commitment := policy_commitment;
      sd_metadata_commitment := is_metadata_commitment self;
      sd_owner_commitment := is_owner_commitment self |}
  |}.

Definition issue_validate (self : RgkAssetIssue) : aresult RgkIssueReport :=
  _ ← issue_validate_structure self;
  issue_report_unchecked self.

Definition issue_validate_for_production_zk (self : RgkAssetIssue) : aresult RgkIssueReport :=
  _ ← issue_validate_structure self;
  _ ← validate_production_zk_issue_count (length (is_allocations self));
  issue_report_unchecked self.

Definition validate_against_state_digest (self : RgkAssetIssue) (expected : RgkStateDigest)
  : aresult RgkIssueReport :=
  report ← issue_validate self;
  _ ← fail_if (ir_state_digest report ≠ expected)
        (AE_DigestMismatch expected (ir_state_digest report));
  Ok report.

Definition validate_against_state_digest_for_production_zk (self : RgkAssetIssue)
    (expected : RgkStateDigest) : aresult RgkIssueReport :=
  report ← issue_validate_for_production_zk self;
  _ ← fail_if (ir_state_digest report ≠ expected)
        (AE_DigestMismatch expected (ir_state_digest report));
  Ok report.

(** * Transitions *)

Definition transition_state_digest (self : RgkTransition) (allocations : list RgkAllocation)
    (policy_commitment : RgkPolicyCommitment) (owner : RgkOwnerCommitment) : RgkStateDigest :=
  state_digest_for_allocations {|
    sd_asset_id := tr_asset_id self;
    sd_total_supply := tr_total_supply self;
    sd_allocations := allocations;
    sd_lane_id := tr_lane_id self;
    sd_privacy_policy := tr_privacy_policy self;
    sd_policy_commitment := policy_commitment;
    sd_metadata_commitment := tr_metadata_commitment self;
    sd_owner_commitment := owner |}.

Definition transition_validate_structure (self : RgkTransition) : aresult unit :=
  _ ← validate_common (tr_schema_id self) (tr_asset_id self) (tr_total_supply self)
        (tr_lane_id self) (tr_proof_policy self);
  _ ← validate_metadata_commitment (tr_metadata_commitment self);
  _ ← validate_owner_commitment (tr_previous_owner_commitment self) "previous";
  _ ← validate_owner_commitment (tr_new_owner_commitment self) "new";
  _ ← validate_ownership_handoff (tr_previous_owner_commitment self)
        (tr_new_owner_commitment self) (tr_ownership_authorization_commitment self);
  _ ← fail_if (is_zero32 (tr_previous_state_digest self) = true) AE_ZeroPreviousStateDigest;
  _ ← fail_if (is_zero32 (tr_witness_txid self) = true) AE_ZeroTransitionWitnessTxid;
  _ ← fail_if (tr_spent_allocations self = []) AE_EmptyAllocations;
  spent_supply ← validate_allocation_set_structure (tr_chain self) (tr_spent_allocations self);
  new_supply ← validate_allocation_set_structure_allow_empty (tr_chain self)
                 (tr_new_allocations self);
  _ ← validate_supply_delta spent_supply new_supply (tr_burn self);
  policy_commitment ← proof_policy_commitment (tr_proof_policy self);
  let computed_previous := transition_state_digest self (tr_spent_allocations self)
                             policy_commitment (tr_previous_owner_commitment self) in
  _ ← fail_if (computed_previous ≠ tr_previous_state_digest self)
        (AE_PreviousStateDigestMismatch (tr_previous_state_digest self) computed_previous);
  let new_state_digest := transition_state_digest self (tr_new_allocations self)
                            policy_commitment (tr_new_owner_commitment self) in
  _ ← fail_if (new_state_digest = tr_previous_state_digest self) AE_NoOpTransition;
  let spent_outpoints : gset KaspaOutpoint :=
    list_to_set ((λ allocation, an_covenant_outpoint (al_anchor allocation))
                 <$> tr_spent_allocations self) in
  try_foldi (λ index _ allocation,
      fail_if (an_covenant_outpoint (al_anchor allocation) ∈ spent_outpoints)
        (AE_ReusedSpentAnchor index))
    0 () (tr_new_allocations self).

Definition transition_digest_unchecked (self : RgkTransition)
    (new_state_digest : RgkStateDigest) (policy_commitment : RgkPolicyCommitment) : Bytes32 :=
  let payload :=
    ([chain_as_u8 (tr_chain self)] ++
     tr_schema_id self ++
     tr_asset_id self ++
     u64_le (tr_total_supply self) ++
     tr_previous_state_digest self ++
     new_state_digest ++
     tr_witness_txid self ++
     encode_burn_proof (tr_burn self) ++
     tr_lane_id self ++
     [privacy_as_u8 (tr_privacy_policy self)] ++
     policy_commitment ++
     tr_metadata_commitment self ++
     tr_previous_owner_commitment self ++
     tr_new_owner_commitment self ++
     tr_ownership_authorization_commitment self ++
     u32_le (len_u32 (tr_spent_allocations self)) ++
     concat ((λ allocation, [x69] ++ encode_allocation allocation)
             <$> tr_spent_allocations self) ++
     u32_le (len_u32 (tr_new_allocations self)) ++
     concat ((λ allocation, [x6f] ++ encode_allocation allocation)
             <$> tr_new_allocations self))%list in
  asset_domain_hash "rgk:asset:transition:v2" payload.

Definition transition_report_unchecked (self : RgkTransition) : aresult RgkTransitionReport :=
  spent_supply ← validate_allocation_set_structure (tr_chain self) (tr_spent_allocations self);
  new_supply ← validate_allocation_set_structure_allow_empty (tr_chain self)
                 (tr_new_allocations self);
  burned_supply ← validate_supply_delta spent_supply new_supply (tr_burn self);
  policy_commitment ← proof_policy_commitment (tr_proof_policy self);
  let new_state_digest := transition_state_digest self (tr_new_allocations self)
                            policy_commitment (tr_new_owner_commitment self) in
  let transition_digest :=
    transition_digest_unchecked self new_state_digest policy_commitment in
  Ok {|
    trr_chain := tr_chain self;
    trr_schema_id := tr_schema_id self;
    trr_asset_id := tr_asset_id self;
    trr_total_supply := tr_total_supply self;
    trr_metadata_commitment := tr_metadata_commitment self;
    trr_previous_owner_commitment := tr_previous_owner_commitment self;
    trr_new_owner_commitment := tr_new_owner_commitment self;
    trr_ownership_authorization_commitment := tr_ownership_authorization_commitment self;
    trr_spent_supply := spent_supply;
    trr_new_supply := new_supply;
    trr_burned_supply := burned_supply;
    trr_burn_authorization_commitment := burn_authorization_commitment (tr_burn self);
    trr_spent_allocation_count := length (tr_spent_allocations self);
    trr_new_allocation_count := length (tr_new_allocations self);
    trr_lane_id := tr_lane_id self;
    trr_privacy_policy := tr_privacy_policy self;
    trr_policy_commitment := policy_commitment;
    trr_previous_state_digest := tr_previous_state_digest self;
    trr_new_state_digest := new_state_digest;
    trr_transition_digest := transition_digest
  |}.

Definition transition_validate (self : RgkTransition) : aresult RgkTransitionReport :=
  _ ← transition_validate_structure self;
  transition_report_unchecked self.

Definition transition_validate_for_production_zk (self : RgkTransition)
  : aresult RgkTransitionReport :=
  _ ← transition_validate_structure self;
  _ ← require_counts (length (tr_spent_allocations self)) (length (tr_new_allocations self));
  transition_report_unchecked self.

Definition validate_against_transition_digest (self : RgkTransition)
    (expected : RgkTransitionDigest) : aresult RgkTransitionReport :=
  report ← transition_validate self;
  _ ← fail_if (trr_transition_digest report ≠ expected)
        (AE_TransitionDigestMismatch expected (trr_transition_digest report));
  Ok report.

Definition validate_against_transition_digest_for_production_zk (self : RgkTransition)
    (expected : RgkTransitionDigest) : aresult RgkTransitionReport :=
  report ← transition_validate_for_production_zk self;
  _ ← fail_if (trr_transition_digest report ≠ expected)
        (AE_TransitionDigestMismatch expected (trr_transition_digest report));
  Ok report.

(** * Continuation plans *)

Definition plan_validate_structure (self : RgkContinuationPlan) : aresult unit :=
  _ ← validate_common (cp_schema_id self) (cp_asset_id self) (cp_total_supply self)
        (cp_lane_id self) (cp_proof_policy self);
  _ ← validate_metadata_commitment (cp_metadata_commitment self);
  _ ← validate_owner_commitment (cp_previous_owner_commitment self) "previous";
  _ ← validate_owner_commitment (cp_new_owner_commitment self) "new";
  _ ← validate_ownership_handoff (cp_previous_owner_commitment self)
        (cp_new_owner_commitment self) (cp_ownership_authorization_commitment self);
  _ ← fail_if (is_zero32 (cp_previous_state_digest self) = true) AE_ZeroPreviousStateDigest;
  _ ← fail_if (cp_spent_allocations self = []) AE_EmptyAllocations;
  spent_supply ← validate_allocation_set_structure (cp_chain self) (cp_spent_allocations self);
  policy_commitment ← proof_policy_commitment (cp_proof_policy self);
  let computed_previous := state_digest_for_allocations {|
    sd_asset_id := cp_asset_id self;
    sd_total_supply := cp_total_supply self;
    sd_allocations := cp_spent_allocations self;
    sd_lane_id := cp_lane_id self;
    sd_privacy_policy := cp_privacy_policy self;
    sd_policy_commitment := policy_commitment;
    sd_metadata_commitment := cp_metadata_commitment self;
    sd_owner_commitment := cp_previous_owner_commitment self |} in
  _ ← fail_if (computed_previous ≠ cp_previous_state_digest self)
        (AE_PreviousStateDigestMismatch (cp_previous_state_digest self) computed_previous);
  new_supply ← validate_continuation_shapes_structure_allow_empty
                 (cp_new_allocation_shapes self) (cp_burn self);
  _ ← validate_supply_delta spent_supply new_supply (cp_burn self);
  Ok ().

Definition plan_commitment_unchecked (self : RgkContinuationPlan)
    (policy_commitment : RgkPolicyCommitment) (shape_root : RgkContinuationShapeRoot) : Bytes32 :=
  let spent_root := allocation_root (cp_spent_allocations self) in
  let payload :=
    ([chain_as_u8 (cp_chain self)] ++
     cp_schema_id self ++
     cp_asset_id self ++
     u64_le (cp_total_supply self) ++
     cp_previous_state_digest self ++
     spent_root ++
     shape_root ++
     encode_burn_proof (cp_burn self) ++
     cp_lane_id self ++
     [privacy_as_u8 (cp_privacy_policy self)] ++
     policy_commitment ++
     cp_metadata_commitment self ++
     cp_previous_owner_commitment self ++
     cp_new_owner_commitment self ++
     cp_ownership_authorization_commitment self)%list in
  asset_domain_hash "rgk:continuation:phase1:v2" payload.

Definition plan_report_unchecked (self : RgkContinuationPlan) : aresult RgkContinuationReport :=
  spent_supply ← validate_allocation_set_structure (cp_chain self) (cp_spent_allocations self);
  new_supply ← validate_continuation_shapes_structure_allow_empty
                 (cp_new_allocation_shapes self) (cp_burn self);
  burned_supply ← validate_supply_delta spent_supply new_supply (cp_burn self);
  policy_commitment ← proof_policy_commitment (cp_proof_policy self);
  let shape_root := continuation_shape_root (cp_chain self) (cp_new_allocation_shapes self) in
  let commitment := plan_commitment_unchecked self policy_commitment shape_root in
  Ok {|
    cr_chain := cp_chain self;
    cr_schema_id := cp_schema_id self;
    cr_asset_id := cp_asset_id self;
    cr_total_supply := cp_total_supply self;
    cr_metadata_commitment := cp_metadata_commitment self;
    cr_previous_owner_commitment := cp_previous_owner_commitment self;
    cr_new_owner_commitment := cp_new_owner_commitment self;
    cr_ownership_authorization_commitment := cp_ownership_authorization_commitment self;
    cr_spent_supply := spent_supply;
    cr_new_supply := new_supply;
    cr_burned_supply := burned_supply;
    cr_burn_authorization_commitment := burn_authorization_commitment (cp_burn self);
    cr_spent_allocation_count := length (cp_spent_allocations self);
    cr_new_allocation_count := length (cp_new_allocation_shapes self);
    cr_lane_id := cp_lane_id self;
    cr_privacy_policy := cp_privacy_policy self;
    cr_policy_commitment := policy_commitment;
    cr_previous_state_digest := cp_previous_state_digest self;
    cr_shape_root := shape_root;
    cr_commitment := commitment
  |}.

Definition plan_validate (self : RgkContinuationPlan) : aresult RgkContinuationReport :=
  _ ← plan_validate_structure self;
  plan_report_unchecked self.

Definition plan_validate_for_production_zk (self : RgkContinuationPlan)
  : aresult RgkContinuationReport :=
  _ ← plan_validate_structure self;
  _ ← require_counts (length (cp_spent_allocations self))
        (length (cp_new_allocation_shapes self));
  plan_report_unchecked self.

Definition validate_against_commitment (self : RgkContinuationPlan)
    (expected : RgkContinuationCommitment) : aresult RgkContinuationReport :=
  report ← plan_validate self;
  _ ← fail_if (cr_commitment report ≠ expected)
        (AE_ContinuationCommitmentMismatch expected (cr_commitment report));
  Ok report.

Definition validate_against_commitment_for_production_zk (self : RgkContinuationPlan)
    (expected : RgkContinuationCommitment) : aresult RgkContinuationReport :=
  report ← plan_validate_for_production_zk self;
  _ ← fail_if (cr_commitment report ≠ expected)
        (AE_ContinuationCommitmentMismatch expected (cr_commitment report));
  Ok report.

(** The allocation a shape becomes once its transaction is confirmed. *)
Definition finalize_allocation (self : RgkContinuationPlan) (witness_txid : Bytes32)
    (daa_score confirmation_depth : u64) (shape : RgkContinuationAllocationShape)
  : RgkAllocation :=
  {| al_anchor := {|
       an_chain := cp_chain self;
       an_covenant_outpoint := {| transaction_id := witness_txid; index := sh_output_index shape |};
       an_covenant_id := sh_covenant_id shape;
       an_witness_txid := witness_txid;
       an_daa_score := daa_score;
       an_confirmation_depth := confirmation_depth |};
     al_amount := sh_amount shape;
     al_encrypted_note_commitment := sh_encrypted_note_commitment shape |}.

Definition finalize_transition (self : RgkContinuationPlan) (witness_txid : Bytes32)
    (daa_score confirmation_depth : u64) : RgkTransition :=
  {| tr_chain := cp_chain self;
     tr_schema_id := cp_schema_id self;
     tr_asset_id := cp_asset_id self;
     tr_total_supply := cp_total_supply self;
     tr_metadata_commitment := cp_metadata_commitment self;
     tr_previous_owner_commitment := cp_previous_owner_commitment self;
     tr_new_owner_commitment := cp_new_owner_commitment self;
     tr_ownership_authorization_commitment := cp_ownership_authorization_commitment self;
     tr_previous_state_digest := cp_previous_state_digest self;
     tr_spent_allocations := cp_spent_allocations self;
     tr_new_allocations :=
       finalize_allocation self witness_txid daa_score confirmation_depth
       <$> cp_new_allocation_shapes self;
     tr_burn := cp_burn self;
     tr_witness_txid := witness_txid;
     tr_lane_id := cp_lane_id self;
     tr_privacy_policy := cp_privacy_policy self;
     tr_proof_policy := cp_proof_policy self |}.

Definition plan_finalize (self : RgkContinuationPlan) (witness_txid : Bytes32)
    (daa_score confirmation_depth : u64) : aresult RgkFinalizedContinuation :=
  continuation_report ← plan_validate self;
  let transition := finalize_transition self witness_txid daa_score confirmation_depth in
  transition_report ← transition_validate transition;
  Ok {| fc_commitment := cr_commitment continuation_report;
        fc_transition := transition;
        fc_transition_report := transition_report |}.

Definition plan_finalize_for_production_zk (self : RgkContinuationPlan) (witness_txid : Bytes32)
    (daa_score confirmation_depth : u64) : aresult RgkFinalizedContinuation :=
  _ ← plan_validate_for_production_zk self;
  finalized ← plan_finalize self witness_txid daa_score confirmation_depth;
  _ ← require_counts (length (tr_spent_allocations (fc_transition finalized)))
        (length (tr_new_allocations (fc_transition finalized)));
  Ok finalized.
End asset.

(** * What validation establishes *)

(** The header fields an issue, a transition and a plan share. *)
Record header_ok (schema_id asset_id : Bytes32) (total_supply : u64) (lane_id : Bytes32)
    (proof_policy : RgkProofPolicy) (metadata : Bytes32) : Prop := {
  ho_schema : schema_id ≠ zero32;
  ho_asset : asset_id ≠ zero32;
  ho_total : (0 < total_supply)%Z;
  ho_lane : lane_id ≠ zero32;
  ho_policy : proof_policy_validate proof_policy = Ok ();
  ho_metadata : metadata ≠ zero32
}.

(** The handover of ownership: both commitments are set, and a change of
    owner carries an authorisation. *)
Record owners_ok (previous new authorization : Bytes32) : Prop := {
  oo_previous : previous ≠ zero32;
  oo_new : new ≠ zero32;
  oo_handoff : previous = new ∨ authorization ≠ zero32
}.

(** Supply accounting: without a burn nothing disappears; a burn accounts for
    exactly the difference. *)
Definition burn_accounts (spent new : Z) (burn : option RgkBurnProof) : Prop :=
  match burn with
  | None => spent = new
  | Some p => (0 < bp_amount p)%Z ∧ (spent = new + bp_amount p)%Z ∧
              bp_authorization_commitment p ≠ zero32
  end.

Definition burned (burn : option RgkBurnProof) : Z :=
  match burn with None => 0%Z | Some p => bp_amount p end.

Record issue_ok (i : RgkAssetIssue) : Prop := {
  io_header : header_ok (is_schema_id i) (is_asset_id i) (is_total_supply i) (is_lane_id i)
                (is_proof_policy i) (is_metadata_commitment i);
  io_owner : is_owner_commitment i ≠ zero32;
  io_nonempty : is_allocations i ≠ [];
  io_allocations : Forall (allocation_ok (is_chain i)) (is_allocations i);
  io_distinct : NoDup (outpoint_of <$> is_allocations i);
  io_supply : uval (is_total_supply i) = supply (is_allocations i)
}.

Section specs.
Context `{Sha256}.

Definition policy_digest (p : RgkProofPolicy) : RgkPolicyCommitment :=
  asset_domain_hash "rgk:asset:policy:v1" (encode_proof_policy p).

Definition issue_digest (i : RgkAssetIssue) : RgkStateDigest :=
  state_digest_for_allocations {|
    sd_asset_id := is_asset_id i; sd_total_supply := is_total_supply i;
    sd_allocations := is_allocations i; sd_lane_id := is_lane_id i;
    sd_privacy_policy := is_privacy_policy i;
    sd_policy_commitment := policy_digest (is_proof_policy i);
    sd_metadata_commitment := is_metadata_commitment i;
    sd_owner_commitment := is_owner_commitment i |}.

Definition plan_digest (p : RgkContinuationPlan) : RgkStateDigest :=
  state_digest_for_allocations {|
    sd_asset_id := cp_asset_id p; sd_total_supply := cp_total_supply p;
    sd_allocations := cp_spent_allocations p; sd_lane_id := cp_lane_id p;
    sd_privacy_policy := cp_privacy_policy p;
    sd_policy_commitment := policy_digest (cp_proof_policy p);
    sd_metadata_commitment := cp_metadata_commitment p;
    sd_owner_commitment := cp_previous_owner_commitment p |}.

Definition old_digest (t : RgkTransition) : RgkStateDigest :=
  transition_state_digest t (tr_spent_allocations t) (policy_digest (tr_proof_policy t))
    (tr_previous_owner_commitment t).
Definition new_digest (t : RgkTransition) : RgkStateDigest :=
  transition_state_digest t (tr_new_allocations t) (policy_digest (tr_proof_policy t))
    (tr_new_owner_commitment t).

Record transition_ok (t : RgkTransition) : Prop := {
  to_header : header_ok (tr_schema_id t) (tr_asset_id t) (tr_total_supply t) (tr_lane_id t)
                (tr_proof_policy t) (tr_metadata_commitment t);
  to_owners : owners_ok (tr_previous_owner_commitment t) (tr_new_owner_commitment t)
                (tr_ownership_authorization_commitment t);
  to_previous : tr_previous_state_digest t ≠ zero32;
  to_witness : tr_witness_txid t ≠ zero32;
  to_nonempty : tr_spent_allocations t ≠ [];
  to_spent : Forall (allocation_ok (tr_chain t)) (tr_spent_allocations t);
  to_spent_distinct : NoDup (outpoint_of <$> tr_spent_allocations t);
  to_spent_bound : (supply (tr_spent_allocations t) < 2 ^ 64)%Z;
  to_new : Forall (allocation_ok (tr_chain t)) (tr_new_allocations t);
  to_new_distinct : NoDup (outpoint_of <$> tr_new_allocations t);
  to_supply : burn_accounts (supply (tr_spent_allocations t)) (supply (tr_new_allocations t))
                (tr_burn t);
  to_old_digest : tr_previous_state_digest t = old_digest t;
  to_moves : new_digest t ≠ tr_previous_state_digest t;
  to_fresh : ∀ a, a ∈ tr_new_allocations t →
                  outpoint_of a ∉ outpoint_of <$> tr_spent_allocations t
}.

Record plan_ok (p : RgkContinuationPlan) : Prop := {
  po_header : header_ok (cp_schema_id p) (cp_asset_id p) (cp_total_supply p) (cp_lane_id p)
                (cp_proof_policy p) (cp_metadata_commitment p);
  po_owners : owners_ok (cp_previous_owner_commitment p) (cp_new_owner_commitment p)
                (cp_ownership_authorization_commitment p);
  po_previous : cp_previous_state_digest p ≠ zero32;
  po_nonempty : cp_spent_allocations p ≠ [];
  po_spent : Forall (allocation_ok (cp_chain p)) (cp_spent_allocations p);
  po_spent_distinct : NoDup (outpoint_of <$> cp_spent_allocations p);
  po_spent_bound : (supply (cp_spent_allocations p) < 2 ^ 64)%Z;
  po_digest : cp_previous_state_digest p = plan_digest p;
  po_shapes : Forall shape_ok (cp_new_allocation_shapes p);
  po_shapes_distinct : NoDup (sh_output_index <$> cp_new_allocation_shapes p);
  po_shapes_nonempty : cp_new_allocation_shapes p = [] → cp_burn p ≠ None;
  po_supply : burn_accounts (supply (cp_spent_allocations p))
                (shape_supply (cp_new_allocation_shapes p)) (cp_burn p)
}.

(** The reports, as functions of what was validated. *)
Definition issue_report_of (i : RgkAssetIssue) : RgkIssueReport := {|
  ir_chain := is_chain i; ir_schema_id := is_schema_id i; ir_asset_id := is_asset_id i;
  ir_total_supply := is_total_supply i; ir_metadata_commitment := is_metadata_commitment i;
  ir_owner_commitment := is_owner_commitment i;
  ir_allocation_count := length (is_allocations i); ir_lane_id := is_lane_id i;
  ir_privacy_policy := is_privacy_policy i;
  ir_policy_commitment := policy_digest (is_proof_policy i);
  ir_state_digest := issue_digest i |}.

Definition transition_report_of (t : RgkTransition) : RgkTransitionReport := {|
  trr_chain := tr_chain t; trr_schema_id := tr_schema_id t; trr_asset_id := tr_asset_id t;
  trr_total_supply := tr_total_supply t; trr_metadata_commitment := tr_metadata_commitment t;
  trr_previous_owner_commitment := tr_previous_owner_commitment t;
  trr_new_owner_commitment := tr_new_owner_commitment t;
  trr_ownership_authorization_commitment := tr_ownership_authorization_commitment t;
  trr_spent_supply := wrap 64 (supply (tr_spent_allocations t));
  trr_new_supply := wrap 64 (supply (tr_new_allocations t));
  trr_burned_supply := wrap 64 (burned (tr_burn t));
  trr_burn_authorization_commitment := burn_authorization_commitment (tr_burn t);
  trr_spent_allocation_count := length (tr_spent_allocations t);
  trr_new_allocation_count := length (tr_new_allocations t);
  trr_lane_id := tr_lane_id t; trr_privacy_policy := tr_privacy_policy t;
  trr_policy_commitment := policy_digest (tr_proof_policy t);
  trr_previous_state_digest := tr_previous_state_digest t;
  trr_new_state_digest := new_digest t;
  trr_transition_digest :=
    transition_digest_unchecked t (new_digest t) (policy_digest (tr_proof_policy t)) |}.

Definition plan_report_of (p : RgkContinuationPlan) : RgkContinuationReport :=
  let shape_root := continuation_shape_root (cp_chain p) (cp_new_allocation_shapes p) in {|
  cr_chain := cp_chain p; cr_schema_id := cp_schema_id p; cr_asset_id := cp_asset_id p;
  cr_total_supply := cp_total_supply p; cr_metadata_commitment := cp_metadata_commitment p;
  cr_previous_owner_commitment := cp_previous_owner_commitment p;
  cr_new_owner_commitment := cp_new_owner_commitment p;
  cr_ownership_authorization_commitment := cp_ownership_authorization_commitment p;
  cr_spent_supply := wrap 64 (supply (cp_spent_allocations p));
  cr_new_supply := wrap 64 (shape_supply (cp_new_allocation_shapes p));
  cr_burned_supply := wrap 64 (burned (cp_burn p));
  cr_burn_authorization_commitment := burn_authorization_commitment (cp_burn p);
  cr_spent_allocation_count := length (cp_spent_allocations p);
  cr_new_allocation_count := length (cp_new_allocation_shapes p);
  cr_lane_id := cp_lane_id p; cr_privacy_policy := cp_privacy_policy p;
  cr_policy_commitment := policy_digest (cp_proof_policy p);
  cr_previous_state_digest := cp_previous_state_digest p;
  cr_shape_root := shape_root;
  cr_commitment := plan_commitment_unchecked p (policy_digest (cp_proof_policy p)) shape_root |}.
End specs.
