(* ===== verification/AssetCorrect.v ===== *)
(** Correctness of the native asset grammar: what a validated issue, transition
    and continuation plan guarantee, the finalisation of plans, the lineage of
    an asset from its issue, and what the digests bind. *)

From stdpp Require Import base list strings gmap sets.
From Stdlib Require Import ZArith Lia Strings.Byte.
From S2P Require Import Prelude.
From S2P Require Import Bytes.
From S2P Require Import Encoding.
From S2P Require Import Types.
From S2P Require Import Commit.
From S2P Require Import AssetTypes.
From S2P Require Import AssetRules.
From S2P Require Import Asset.

(** * The checks of each structure, as a predicate *)

Lemma validate_common_ok s a t l p m u :
  validate_common s a t l p = Ok u ∧ m ≠ zero32 ↔ header_ok s a t l p m.
Proof.
  unfold validate_common. pose proof (uint_range t). split.
  - intros [E Hm]. inv_ok. rewrite ?is_zero32_spec in *. constructor; try done. lia.
  - intros [?????]. rewrite <-!is_zero32_not in *. split; [|done]. destruct u. by by_guards.
Qed.

Lemma validate_handoff_ok p n a u :
  validate_ownership_handoff p n a = Ok u ↔ p = n ∨ a ≠ zero32.
Proof.
  unfold validate_ownership_handoff. rewrite fail_if_ok, is_zero32_spec.
  destruct (decide (p = n)), (decide (a = zero32)); naive_solver.
Qed.

Lemma validate_owner_ok o r u : validate_owner_commitment o r = Ok u ↔ o ≠ zero32.
Proof. apply reject_zero_ok. Qed.

Lemma validate_metadata_ok o u : validate_metadata_commitment o = Ok u ↔ o ≠ zero32.
Proof. apply reject_zero_ok. Qed.

Lemma supply_delta_accounts spent new burn b :
  validate_supply_delta spent new burn = Ok b ↔
    burn_accounts spent new burn ∧ uval b = burned burn.
Proof.
  rewrite supply_delta_ok. pose proof (uint_range spent). pose proof (uint_range new).
  destruct burn as [p|]; cbn; split; [|intros [(?&?&?) ?]|intros|intros]; [|split_and!..].
  all: try lia; try done; try (apply (inj uval); lia).
  intros (Hb & Hp & <- & Ha). split_and!; try done; lia.
Qed.

Lemma from_counts_iff sc nc s :
  from_counts sc nc = Some s ↔ spent_count s = sc ∧ new_count s = nc.
Proof.
  unfold from_counts. split.
  - intros [_ E]%List.find_some. apply andb_prop in E as [?%Nat.eqb_eq ?%Nat.eqb_eq]. done.
  - intros [<- <-]. by destruct s.
Qed.

Lemma require_counts_ok sc nc s :
  require_counts sc nc = Ok s ↔ spent_count s = sc ∧ new_count s = nc.
Proof. unfold require_counts. by rewrite ok_or_ok, from_counts_iff. Qed.

(** A loop that only checks, element by element. *)
Lemma try_foldi_check {E A} (P : nat → A → Prop) (f : nat → unit → A → result E unit) l i :
  (∀ j x, f j () x = Ok () ↔ P j x) →
  try_foldi f i () l = Ok () ↔ ∀ j x, l !! j = Some x → P (i + j)%nat x.
Proof.
  intros Hf. revert i. induction l as [|x l IH]; intros i; cbn [try_foldi]; [naive_solver|].
  rewrite bind_ok. split.
  - intros ([] & E1 & E2) [|j] y Hy; cbn in Hy.
    + injection Hy as ->. rewrite Nat.add_0_r. by apply Hf.
    + rewrite <-Nat.add_succ_comm. by apply (proj1 (IH (S i)) E2).
  - intros HP. exists (). split.
    + apply Hf. specialize (HP 0%nat x eq_refl). by rewrite Nat.add_0_r in HP.
    + apply IH. intros j y Hy. rewrite Nat.add_succ_comm. by apply HP.
Qed.

Section correct.
Context `{Sha256}.

Lemma policy_commitment_ok p c :
  proof_policy_commitment p = Ok c ↔ proof_policy_validate p = Ok () ∧ c = policy_digest p.
Proof. apply proof_policy_commitment_ok. Qed.

Lemma issue_structure_ok i u : issue_validate_structure i = Ok u ↔ issue_ok i.
Proof.
  unfold issue_validate_structure. split.
  - intros E. inv_ok.
    repeat match goal with
    | H : validate_metadata_commitment _ = _ |- _ => apply validate_metadata_ok in H
    | H : validate_owner_commitment _ _ = _ |- _ => apply validate_owner_ok in H
    | H : validate_allocation_set_exact _ _ _ = _ |- _ =>
        apply allocation_set_exact_ok in H as (?&?&?&?)
    end.
    constructor; try done. by eapply validate_common_ok.
  - intros [Hh Ho Hn Ha Hd Hs].
    pose proof (ho_metadata _ _ _ _ _ _ Hh) as Hm. apply (validate_common_ok _ _ _ _ _ _ ()) in Hh as [-> _].
    cbn. rewrite (proj2 (validate_metadata_ok _ ()) Hm). cbn.
    rewrite (proj2 (validate_owner_ok _ _ ()) Ho). cbn.
    destruct u. by apply allocation_set_exact_ok.
Qed.

Lemma issue_validate_ok i r :
  issue_validate i = Ok r ↔ issue_ok i ∧ r = issue_report_of i.
Proof.
  unfold issue_validate, issue_report_unchecked. rewrite bind_ok.
  setoid_rewrite issue_structure_ok. setoid_rewrite bind_ok.
  setoid_rewrite policy_commitment_ok. split.
  - by intros (_ & Hi & c & (_ & ->) & [= <-]).
  - intros [Hi ->]. exists (). split; [done|]. exists (policy_digest (is_proof_policy i)).
    split_and!; [apply (ho_policy _ _ _ _ _ _ (io_header _ Hi))|done|done].
Qed.

(** Fact: Issue validation, exactly: [validate] accepts an issue iff its header
    fields and owner are set, its proof policy is constrained, every
    allocation is well formed on the issue's chain, the outpoints are pairwise
    distinct and the amounts add up, without overflow, to the declared total
    supply; the report it returns carries the issue's fields and the digest
    of its state. *)
Theorem issue_validate_iff i r :
  issue_validate i = Ok r ↔ issue_ok i ∧ r = issue_report_of i.
Proof. apply issue_validate_ok. Qed.

(** [use_checks] turns the results of the shared checks into their meaning. *)
Ltac use_checks :=
  repeat match goal with
  | H : validate_metadata_commitment _ = _ |- _ => apply validate_metadata_ok in H
  | H : validate_owner_commitment _ _ = _ |- _ => apply validate_owner_ok in H
  | H : validate_ownership_handoff _ _ _ = _ |- _ => apply validate_handoff_ok in H
  | H : proof_policy_commitment _ = _ |- _ => apply policy_commitment_ok in H as [? ->]
  | H : validate_supply_delta _ _ _ = _ |- _ => apply supply_delta_accounts in H as [? ?]
  | H : validate_allocation_set_structure _ _ = _ |- _ =>
      apply allocation_set_ok in H as (?&?&?&?)
  | H : validate_allocation_set_structure_allow_empty _ _ = _ |- _ =>
      apply allocation_set_allow_empty_ok in H as (?&?&?)
  | H : validate_continuation_shapes_structure_allow_empty _ _ = _ |- _ =>
      apply shapes_allow_empty_ok in H as (?&?&?&?)
  end.

(** Replaces the computed totals by the sums they are. *)
Ltac name_totals :=
  repeat match goal with
  | Hx : uval ?x = total _ _ |- _ => pose proof (uint_range x); rewrite Hx in *; clear Hx
  end.

(** The three successful set checks, run forward. *)
Lemma run_allocation_set chain l :
  l ≠ [] → Forall (allocation_ok chain) l → NoDup (outpoint_of <$> l) →
  (supply l < 2 ^ 64)%Z →
  validate_allocation_set_structure chain l = Ok (wrap 64 (supply l)).
Proof.
  intros. apply allocation_set_ok. pose proof (total_nonneg al_amount l).
  split_and!; try done. by apply uval_wrap_small.
Qed.

Lemma run_allocation_set_allow_empty chain l :
  Forall (allocation_ok chain) l → NoDup (outpoint_of <$> l) → (supply l < 2 ^ 64)%Z →
  validate_allocation_set_structure_allow_empty chain l = Ok (wrap 64 (supply l)).
Proof.
  intros. apply allocation_set_allow_empty_ok. pose proof (total_nonneg al_amount l).
  split_and!; try done. by apply uval_wrap_small.
Qed.

Lemma run_shapes l burn :
  (l = [] → burn ≠ None) → Forall shape_ok l → NoDup (sh_output_index <$> l) →
  (shape_supply l < 2 ^ 64)%Z →
  validate_continuation_shapes_structure_allow_empty l burn = Ok (wrap 64 (shape_supply l)).
Proof.
  intros. apply shapes_allow_empty_ok. pose proof (total_nonneg sh_amount l).
  split_and!; try done. by apply uval_wrap_small.
Qed.

Lemma burned_range spent new burn :
  (0 <= new)%Z → (spent < 2 ^ 64)%Z → burn_accounts spent new burn →
  (0 <= burned burn < 2 ^ 64)%Z ∧ (spent = new + burned burn)%Z.
Proof. destruct burn; cbn; lia. Qed.

Lemma run_supply_delta spent new burn :
  (0 <= new)%Z → (spent < 2 ^ 64)%Z → burn_accounts spent new burn →
  validate_supply_delta (wrap 64 spent) (wrap 64 new) burn = Ok (wrap 64 (burned burn)).
Proof.
  intros Hn Hs Hb. destruct (burned_range _ _ _ Hn Hs Hb).
  apply supply_delta_accounts. rewrite !uval_wrap_small by lia. done.
Qed.

Lemma run_policy p : proof_policy_validate p = Ok () → proof_policy_commitment p = Ok (policy_digest p).
Proof. intros. by apply policy_commitment_ok. Qed.

Lemma transition_structure_ok t u : transition_validate_structure t = Ok u ↔ transition_ok t.
Proof.
  destruct u. unfold transition_validate_structure. split.
  - intros E. inv_ok. use_checks.
    rewrite (try_foldi_check (λ _ x, outpoint_of x ∉@{gset KaspaOutpoint}
      list_to_set (outpoint_of <$> tr_spent_allocations t))) in E by (intros; apply fail_if_ok).
    rewrite ?is_zero32_spec in *.
    name_totals.
    constructor; try done.
    + by eapply validate_common_ok.
    + lia.
    + intros a [j Hj]%list_elem_of_lookup. specialize (E j a Hj). set_solver.
  - intros [Hh0 [Hp Hn Hh] ? ? ? ? ? Hb ? ? Hs Hd ? Hf]. pose proof (ho_policy _ _ _ _ _ _ Hh0).
    pose proof (ho_metadata _ _ _ _ _ _ Hh0) as Hm.
    pose proof (total_nonneg al_amount (tr_new_allocations t)).
    pose proof (burned_range _ _ _ ltac:(done) Hb Hs) as [? ?].
    apply (validate_common_ok _ _ _ _ _ _ ()) in Hh0 as [-> _]. cbn.
    rewrite (proj2 (validate_metadata_ok _ ()) Hm). cbn.
    rewrite (proj2 (validate_owner_ok _ _ ()) Hp). cbn.
    rewrite (proj2 (validate_owner_ok _ _ ()) Hn). cbn.
    rewrite (proj2 (validate_handoff_ok _ _ _ ()) Hh). cbn.
    rewrite <-is_zero32_not in *. by_guards.
    rewrite run_allocation_set by done. cbn.
    rewrite run_allocation_set_allow_empty by (done || lia). cbn.
    rewrite run_supply_delta by (done || lia). cbn.
    rewrite run_policy by done. cbn. fold (old_digest t) (new_digest t). by_guards.
    apply (try_foldi_check (λ _ x, outpoint_of x ∉@{gset KaspaOutpoint}
      list_to_set (outpoint_of <$> tr_spent_allocations t))); [intros; apply fail_if_ok|].
    intros j x Hx%list_elem_of_lookup_2. specialize (Hf x Hx). set_solver.
Qed.

Lemma plan_structure_ok p u : plan_validate_structure p = Ok u ↔ plan_ok p.
Proof.
  destruct u. unfold plan_validate_structure. split.
  - intros E. inv_ok. use_checks. name_totals. rewrite ?is_zero32_spec in *.
    constructor; try done; [by eapply validate_common_ok|lia].
  - intros [Hh0 [Hp Hn Hh] ? ? ? ? Hb Hd ? ? ? Hs].
    pose proof (ho_policy _ _ _ _ _ _ Hh0). pose proof (ho_metadata _ _ _ _ _ _ Hh0) as Hm.
    pose proof (total_nonneg sh_amount (cp_new_allocation_shapes p)).
    pose proof (burned_range _ _ _ ltac:(done) Hb Hs) as [? ?].
    apply (validate_common_ok _ _ _ _ _ _ ()) in Hh0 as [-> _]. cbn.
    rewrite (proj2 (validate_metadata_ok _ ()) Hm). cbn.
    rewrite (proj2 (validate_owner_ok _ _ ()) Hp). cbn.
    rewrite (proj2 (validate_owner_ok _ _ ()) Hn). cbn.
    rewrite (proj2 (validate_handoff_ok _ _ _ ()) Hh). cbn.
    rewrite <-is_zero32_not in *. by_guards.
    rewrite run_allocation_set by done. cbn.
    rewrite run_policy by done. cbn. fold (plan_digest p). by_guards.
    rewrite run_shapes by (done || lia). cbn.
    by rewrite run_supply_delta by (done || lia).
Qed.

Lemma transition_report_ok t :
  transition_ok t → transition_report_unchecked t = Ok (transition_report_of t).
Proof.
  intros Ht. pose proof (total_nonneg al_amount (tr_new_allocations t)) as H0.
  pose proof (burned_range _ _ _ H0 (to_spent_bound _ Ht) (to_supply _ Ht)) as [? ?].
  destruct Ht as [[]]. unfold transition_report_unchecked.
  rewrite run_allocation_set by done. cbn [mbind result_bind].
  rewrite run_allocation_set_allow_empty by (done || lia). cbn [mbind result_bind].
  rewrite run_supply_delta by (done || lia). cbn [mbind result_bind].
  by rewrite run_policy by done.
Qed.

Lemma plan_report_ok p : plan_ok p → plan_report_unchecked p = Ok (plan_report_of p).
Proof.
  intros Hp. pose proof (total_nonneg sh_amount (cp_new_allocation_shapes p)) as H0.
  pose proof (burned_range _ _ _ H0 (po_spent_bound _ Hp) (po_supply _ Hp)) as [? ?].
  destruct Hp as [[]]. unfold plan_report_unchecked.
  rewrite run_allocation_set by done. cbn [mbind result_bind].
  rewrite run_shapes by (done || lia). cbn [mbind result_bind].
  rewrite run_supply_delta by (done || lia). cbn [mbind result_bind].
  by rewrite run_policy by done.
Qed.

Lemma transition_validate_ok t r :
  transition_validate t = Ok r ↔ transition_ok t ∧ r = transition_report_of t.
Proof.
  unfold transition_validate. rewrite bind_ok. setoid_rewrite transition_structure_ok. split.
  - intros (_ & Ht & E). rewrite transition_report_ok in E by done. by injection E as <-.
  - intros [Ht ->]. exists (). by rewrite transition_report_ok.
Qed.

Lemma plan_validate_ok p r :
  plan_validate p = Ok r ↔ plan_ok p ∧ r = plan_report_of p.
Proof.
  unfold plan_validate. rewrite bind_ok. setoid_rewrite plan_structure_ok. split.
  - intros (_ & Hp & E). rewrite plan_report_ok in E by done. by injection E as <-.
  - intros [Hp ->]. exists (). by rewrite plan_report_ok.
Qed.

(** C9: Transition validation, exactly: [validate] accepts a transition iff
    its header, owners and handover are set, both allocation sets are well
    formed with distinct outpoints, the spent supply is the new supply plus
    exactly what the burn proof authorises (nothing without one), the claimed
    previous state digest is the digest of the spent allocations under the
    previous owner, the new digest differs from it, and no new allocation
    reuses a spent outpoint; the report carries the totals, the new state
    digest and the transition digest. *)
Theorem transition_validate_iff t r :
  transition_validate t = Ok r ↔ transition_ok t ∧ r = transition_report_of t.
Proof. apply transition_validate_ok. Qed.

(** Fact: Continuation plans, exactly: [validate] accepts a plan iff its header,
    owners and handover are set, the spent set is well formed and is the
    preimage of the claimed previous digest, the shapes are well formed with
    distinct output indices (none at all only when everything is burned), and
    the spent supply is the shapes' supply plus exactly the authorised burn. *)
Theorem plan_validate_iff p r :
  plan_validate p = Ok r ↔ plan_ok p ∧ r = plan_report_of p.
Proof. apply plan_validate_ok. Qed.

(** * What the asset digests bind *)

Lemma encode_image_id_policy_inj p q :
  encode_image_id_policy p = encode_image_id_policy q → p = q.
Proof.
  destruct p as [a|l|a], q as [b|k|b]; cbn [encode_image_id_policy app]; intros E;
    apply cons_byte_inj in E as [? E]; try done.
  - by apply (inj blist) in E as ->.
  - apply u32_le_app_inj in E as [_ E]. f_equal.
    apply (concat_fixed_inj blist 31); [apply bytes_length|apply (inj blist)|done].
  - by apply (inj blist) in E as ->.
Qed.

Lemma encode_proof_policy_inj p q : encode_proof_policy p = encode_proof_policy q → p = q.
Proof.
  destruct p, q; cbn [encode_proof_policy app]; intros E;
    apply cons_byte_inj in E as [? E]; try done; peel_bytes E; subst; try done.
  by apply encode_image_id_policy_inj in E as ->.
Qed.

(** The messages hashed for a policy, for a transition digest and for the
    continuation commitment of a plan. *)
Definition policy_message (p : RgkProofPolicy) : list byte := ltac:(message_of (policy_digest p)).
Definition transition_message (t : RgkTransition) (d : RgkStateDigest) (c : RgkPolicyCommitment)
  : list byte := ltac:(message_of (transition_digest_unchecked t d c)).
Definition plan_messages (p : RgkContinuationPlan) : list (list byte) :=
  [ltac:(message_of (cr_commitment (plan_report_of p))); root_message (cp_spent_allocations p);
   shape_root_message (cp_chain p) (cp_new_allocation_shapes p); policy_message (cp_proof_policy p)].
Hint Unfold plan_messages : messages.

Lemma policy_digest_binds p q :
  policy_digest p = policy_digest q → p = q ∨ collision [policy_message p; policy_message q].
Proof.
  intros E. apply asset_hash_binds in E as [[_ E]|]; [left|by right|done..].
  by apply encode_proof_policy_inj.
Qed.

Lemma encode_burn_proof_app_inj a b l k :
  (encode_burn_proof a ++ l = encode_burn_proof b ++ k)%list → a = b ∧ l = k.
Proof.
  destruct a as [[]|], b as [[]|]; cbn [encode_burn_proof app]; rewrite <-?app_assoc;
    intros E; apply cons_byte_inj in E as [? E]; try done.
  all: peel_bytes E; cbn in *; subst; by split.
Qed.

(** The transition digest covers every field of the transition, in the order
    the allocations are listed. *)
Lemma transition_digest_binds t1 t2 d1 d2 c1 c2 :
  (Z.of_nat (length (tr_spent_allocations t1)) < 2 ^ 32)%Z →
  (Z.of_nat (length (tr_spent_allocations t2)) < 2 ^ 32)%Z →
  transition_digest_unchecked t1 d1 c1 = transition_digest_unchecked t2 d2 c2 →
  (tr_proof_policy t1 = tr_proof_policy t2 → t1 = t2) ∧ d1 = d2 ∧ c1 = c2 ∨
  collision [transition_message t1 d1 c1; transition_message t2 d2 c2].
Proof.
  intros L1 L2 E. apply asset_hash_binds in E as [[_ E]|]; [left|by right|done..].
  peel_bytes E. apply encode_burn_proof_app_inj in E as [Eburn E]. peel_bytes E.
  apply chain_as_u8_inj in Ef. apply privacy_as_u8_inj in Ef7.
  apply (f_equal uval) in Ef13. unfold len_u32 in Ef13.
  rewrite !uval_wrap_small in Ef13 by lia. apply Nat2Z.inj in Ef13.
  assert (Hl : ∀ c a, length (c :: encode_allocation a) = 158%nat).
  { intros. change (S (length (encode_allocation a)) = 158%nat). by rewrite encode_allocation_length. }
  assert (Hf : ∀ c a b, (c :: encode_allocation a = c :: encode_allocation b) → a = b).
  { intros c a b [_ E']%cons_byte_inj. by apply encode_allocation_inj. }
  apply app_inj_1 in E as [Es E];
    [|rewrite !(concat_fixed_length (cons x69 ∘ encode_allocation) 158) by exact (Hl x69); lia].
  apply u32_le_app_inj in E as [_ En].
  apply (concat_fixed_inj (cons x69 ∘ encode_allocation) 157) in Es;
    [|exact (Hl x69)|exact (Hf x69)].
  apply (concat_fixed_inj (cons x6f ∘ encode_allocation) 157) in En;
    [|exact (Hl x6f)|exact (Hf x6f)].
  clear Hl Hf L1 L2 Ef13. split_and!; try done. intros Hpol. destruct t1, t2. cbn in *.
  by subst.
Qed.

(** Two plans that differ at most in the order their allocations and shapes
    are listed. *)
Definition plan_with (p : RgkContinuationPlan) (spent : list RgkAllocation)
    (shapes : list RgkContinuationAllocationShape) : RgkContinuationPlan := {|
  cp_chain := cp_chain p; cp_schema_id := cp_schema_id p; cp_asset_id := cp_asset_id p;
  cp_total_supply := cp_total_supply p; cp_metadata_commitment := cp_metadata_commitment p;
  cp_previous_owner_commitment := cp_previous_owner_commitment p;
  cp_new_owner_commitment := cp_new_owner_commitment p;
  cp_ownership_authorization_commitment := cp_ownership_authorization_commitment p;
  cp_previous_state_digest := cp_previous_state_digest p;
  cp_spent_allocations := spent; cp_new_allocation_shapes := shapes;
  cp_burn := cp_burn p; cp_lane_id := cp_lane_id p; cp_privacy_policy := cp_privacy_policy p;
  cp_proof_policy := cp_proof_policy p |}.

Definition same_plan (p q : RgkContinuationPlan) : Prop :=
  cp_spent_allocations p ≡ₚ cp_spent_allocations q ∧
  cp_new_allocation_shapes p ≡ₚ cp_new_allocation_shapes q ∧
  q = plan_with p (cp_spent_allocations q) (cp_new_allocation_shapes q).

Lemma plan_commitment_binds p q :
  cr_commitment (plan_report_of p) = cr_commitment (plan_report_of q) →
  same_plan p q ∨ collision (plan_messages p ++ plan_messages q).
Proof.
  intros E. apply asset_hash_binds in E as [[_ E]|]; [|by_messages|done..].
  peel_bytes E. apply encode_burn_proof_app_inj in E as [Eb E]. peel_bytes E.
  apply chain_as_u8_inj in Ef. apply privacy_as_u8_inj in Ef7.
  apply allocation_root_binds in Ef4 as [Ef4|]; [|by_messages].
  apply shape_root_binds in Ef5 as [[_ Ef5]|]; [|by_messages].
  apply policy_digest_binds in Ef8 as [Ef8|]; [|by_messages].
  left. split_and!; [done..|]. destruct p, q. unfold plan_with. cbn in *. by subst.
Qed.

(** Fact: The phase-1 continuation commitment identifies the plan: among
    validated plans, listing the same allocations and shapes in another order
    leaves the commitment unchanged, and two plans with one commitment agree
    on every field up to that order, unless two of the messages hashed for
    their commitments (the plan's, its roots', its policy's) collide. *)
Theorem continuation_commitment_identifies p q rp rq :
  plan_validate p = Ok rp → plan_validate q = Ok rq →
  (same_plan p q → cr_commitment rp = cr_commitment rq) ∧
  (cr_commitment rp = cr_commitment rq →
   same_plan p q ∨ collision (plan_messages p ++ plan_messages q)).
Proof.
  intros [Hp ->]%plan_validate_ok [Hq ->]%plan_validate_ok. split; [|apply plan_commitment_binds].
  intros (Hs & Hn & ->). cbn. unfold plan_commitment_unchecked. cbn.
  rewrite (allocation_root_perm _ _ (po_spent_distinct _ Hp) Hs).
  by rewrite (shape_root_perm _ _ _ (po_shapes_distinct _ Hp) Hn).
Qed.

Definition transition_digest_messages (t : RgkTransition) : list (list byte) :=
  [transition_message t (new_digest t) (policy_digest (tr_proof_policy t));
   policy_message (tr_proof_policy t)].
Hint Unfold transition_digest_messages : messages.

(** Fact: The transition digest identifies the transition: two validated
    transitions (with fewer than 2^32 spent allocations) that report the same
    transition digest are equal, field by field and allocation by allocation,
    unless two of the messages hashed for the digests and the policies
    collide. *)
Theorem transition_digest_identifies t1 t2 r1 r2 :
  transition_validate t1 = Ok r1 → transition_validate t2 = Ok r2 →
  (Z.of_nat (length (tr_spent_allocations t1)) < 2 ^ 32)%Z →
  (Z.of_nat (length (tr_spent_allocations t2)) < 2 ^ 32)%Z →
  trr_transition_digest r1 = trr_transition_digest r2 →
  t1 = t2 ∨ collision (transition_digest_messages t1 ++ transition_digest_messages t2).
Proof.
  intros [_ ->]%transition_validate_ok [_ ->]%transition_validate_ok L1 L2 E.
  apply transition_digest_binds in E as [(Heq & _ & Hc)|]; [|by_messages|done..].
  apply policy_digest_binds in Hc as [Hc|]; [left; by apply Heq|by_messages].
Qed.

(** * The lineage of an asset *)

Local Open Scope list_scope.

(** The states an asset can be brought to from its issue: each transition of
    [ts] is validated and is linked to the previous state by the state digest
    only, as the covenant does.  [b] accumulates what the transitions burned. *)
Inductive asset_lineage (i : RgkAssetIssue)
  : list RgkTransition → RgkStateDigest → list RgkAllocation → RgkOwnerCommitment → Z → Prop :=
| lineage_issue r :
    issue_validate i = Ok r →
    asset_lineage i [] (ir_state_digest r) (is_allocations i) (is_owner_commitment i) 0
| lineage_step ts d l o b t r :
    asset_lineage i ts d l o b →
    tr_previous_state_digest t = d →
    transition_validate t = Ok r →
    asset_lineage i (ts ++ [t]) (trr_new_state_digest r) (tr_new_allocations t)
      (tr_new_owner_commitment t) (b + burned (tr_burn t)).

Definition lineage_state (i : RgkAssetIssue) (l : list RgkAllocation) (o : RgkOwnerCommitment)
  : RgkStateDigestInput := {|
  sd_asset_id := is_asset_id i; sd_total_supply := is_total_supply i; sd_allocations := l;
  sd_lane_id := is_lane_id i; sd_privacy_policy := is_privacy_policy i;
  sd_policy_commitment := policy_digest (is_proof_policy i);
  sd_metadata_commitment := is_metadata_commitment i; sd_owner_commitment := o |}.

(** What the validation of a transition hashes for the state it spends and the
    state it makes, and what a history hashes for all its states. *)
Definition transition_state (t : RgkTransition) (l : list RgkAllocation) (o : RgkOwnerCommitment)
  : RgkStateDigestInput := {|
  sd_asset_id := tr_asset_id t; sd_total_supply := tr_total_supply t; sd_allocations := l;
  sd_lane_id := tr_lane_id t; sd_privacy_policy := tr_privacy_policy t;
  sd_policy_commitment := policy_digest (tr_proof_policy t);
  sd_metadata_commitment := tr_metadata_commitment t; sd_owner_commitment := o |}.

Definition transition_messages (t : RgkTransition) : list (list byte) :=
  state_messages (transition_state t (tr_spent_allocations t) (tr_previous_owner_commitment t)) ++
  state_messages (transition_state t (tr_new_allocations t) (tr_new_owner_commitment t)).

Definition history_messages (i : RgkAssetIssue) (ts : list RgkTransition) : list (list byte) :=
  state_messages (lineage_state i (is_allocations i) (is_owner_commitment i)) ++
  concat (transition_messages <$> ts).

Lemma history_messages_snoc i ts t :
  history_messages i (ts ++ [t]) = history_messages i ts ++ transition_messages t.
Proof.
  unfold history_messages. rewrite fmap_app, concat_app. cbn [fmap list_fmap concat].
  by rewrite app_nil_r, app_assoc.
Qed.

(** What every reachable state satisfies. *)
Record lineage_inv (i : RgkAssetIssue) (ts : list RgkTransition) (d : RgkStateDigest)
    (l : list RgkAllocation) (o : RgkOwnerCommitment) (b : Z) : Prop := {
  li_digest : d = state_digest_for_allocations (lineage_state i l o);
  li_supply : (supply l + b = is_total_supply i)%Z;
  li_burned : (0 <= b)%Z;
  li_allocations : Forall (allocation_ok (is_chain i)) l;
  li_distinct : NoDup (outpoint_of <$> l);
  li_messages : state_messages (lineage_state i l o) ⊆ history_messages i ts
}.

(** A validated transition out of a state with the invariant spends that
    very state. *)
Lemma lineage_spends i ts d l o b t :
  lineage_inv i ts d l o b → tr_previous_state_digest t = d → transition_ok t →
  (tr_asset_id t = is_asset_id i ∧ tr_total_supply t = is_total_supply i ∧
   tr_spent_allocations t ≡ₚ l ∧ tr_lane_id t = is_lane_id i ∧
   tr_privacy_policy t = is_privacy_policy i ∧
   policy_digest (tr_proof_policy t) = policy_digest (is_proof_policy i) ∧
   tr_metadata_commitment t = is_metadata_commitment i ∧
   tr_previous_owner_commitment t = o) ∧ tr_chain t = is_chain i ∨
  collision (history_messages i (ts ++ [t])).
Proof.
  intros [Hd _ _ Hal _ Hm] Hlink Ht. rewrite <-Hlink, (to_old_digest _ Ht) in Hd.
  rewrite history_messages_snoc.
  apply (state_digest_binds (transition_state t _ _)) in Hd as [Hd|Hd];
    [left|by unfold transition_messages; by_messages].
  cbn in Hd. split; [done|].
  destruct Hd as (_ & _ & Hperm & _). pose proof (to_nonempty _ Ht) as Hne.
  pose proof (to_spent _ Ht) as Hsp.
  destruct (tr_spent_allocations t) as [|a k]; [done|].
  apply Forall_cons in Hsp as [Ha _]. rewrite <-(ao_chain _ _ Ha).
  rewrite Forall_forall in Hal. apply ao_chain, Hal. rewrite <-Hperm. set_solver.
Qed.

Lemma lineage_inv_step i ts d l o b t :
  lineage_inv i ts d l o b → tr_previous_state_digest t = d → transition_ok t →
  lineage_inv i (ts ++ [t]) (new_digest t) (tr_new_allocations t) (tr_new_owner_commitment t)
    (b + burned (tr_burn t)) ∨ collision (history_messages i (ts ++ [t])).
Proof.
  intros Hinv Hlink Ht. destruct (lineage_spends _ _ _ _ _ _ _ Hinv Hlink Ht) as [[Hs Hc]|];
    [left|by right].
  destruct Hs as (Ea & Et & Hperm & El & Ep & Epol & Em & _).
  pose proof (total_nonneg al_amount (tr_new_allocations t)) as Hn.
  destruct (burned_range _ _ _ Hn (to_spent_bound _ Ht) (to_supply _ Ht)) as [Hb Hsum].
  pose proof (total_perm al_amount _ _ Hperm). destruct Hinv.
  assert (Es : lineage_state i (tr_new_allocations t) (tr_new_owner_commitment t) =
    transition_state t (tr_new_allocations t) (tr_new_owner_commitment t))
    by (unfold lineage_state, transition_state; congruence).
  constructor; rewrite ?Es.
  - done.
  - lia.
  - lia.
  - rewrite <-Hc. apply (to_new _ Ht).
  - apply (to_new_distinct _ Ht).
  - rewrite history_messages_snoc. unfold transition_messages. solve_messages.
Qed.

Lemma lineage_invariant i ts d l o b :
  asset_lineage i ts d l o b → lineage_inv i ts d l o b ∨ collision (history_messages i ts).
Proof.
  induction 1 as [r Hr|ts d l o b t r _ IH Hlink Hr].
  - left. apply issue_validate_ok in Hr as [Hi ->]. destruct Hi.
    constructor; try done.
    rewrite Z.add_0_r. done.
  - apply transition_validate_ok in Hr as [Ht ->].
    destruct IH as [IH|]; [by eapply lineage_inv_step|]. rewrite history_messages_snoc. by_messages.
Qed.

(** C1: No inflation: in every state an asset can reach from a validated issue
    through validated transitions [ts] linked by state digest, the amounts held
    plus everything burned so far is exactly the issued total supply; so the
    circulating supply never exceeds it.  (Otherwise two different ones of the
    messages hashed for the states of this very history, the issue's and those
    each transition of [ts] spends and makes, have one digest.) *)
Theorem asset_lineage_conserves_supply i ts d l o b :
  asset_lineage i ts d l o b →
  ((supply l + b = is_total_supply i)%Z ∧ (0 <= supply l <= is_total_supply i)%Z ∧
   Forall (allocation_ok (is_chain i)) l ∧ NoDup (outpoint_of <$> l)) ∨
  collision (history_messages i ts).
Proof.
  intros Hl. apply lineage_invariant in Hl as [[]|]; [left|by right].
  pose proof (total_nonneg al_amount l). split_and!; try done; lia.
Qed.

(** Fact: Ownership and identity along a lineage: a validated transition linked
    to a reachable state spends exactly that state's allocations, is made out
    by the owner commitment that state records, changes the owner only with a
    non-zero authorisation, and keeps the asset, chain, lane, privacy policy,
    metadata and total supply of the issue.  (Otherwise two of the messages
    hashed for the states of the history collide.) *)
Theorem asset_lineage_step_authorised i ts d l o b t r :
  asset_lineage i ts d l o b → tr_previous_state_digest t = d → transition_validate t = Ok r →
  (tr_spent_allocations t ≡ₚ l ∧ tr_previous_owner_commitment t = o ∧
   (tr_new_owner_commitment t = o ∨ tr_ownership_authorization_commitment t ≠ zero32) ∧
   tr_asset_id t = is_asset_id i ∧ tr_chain t = is_chain i ∧ tr_lane_id t = is_lane_id i ∧
   tr_privacy_policy t = is_privacy_policy i ∧ tr_total_supply t = is_total_supply i ∧
   tr_metadata_commitment t = is_metadata_commitment i) ∨
  collision (history_messages i (ts ++ [t])).
Proof.
  intros Hl Hlink [Ht ->]%transition_validate_ok.
  apply lineage_invariant in Hl as [Hinv|]; [|rewrite history_messages_snoc; by_messages].
  destruct (lineage_spends _ _ _ _ _ _ _ Hinv Hlink Ht) as [[Hs Hc]|]; [left|by right].
  destruct Hs as (? & ? & ? & ? & ? & ? & ? & Ho). split_and!; try done.
  rewrite <-Ho. destruct (oo_handoff _ _ _ (to_owners _ Ht)); auto.
Qed.

(** * Finalising a plan *)

(** The shape an allocation realises. *)
Definition shape_of (a : RgkAllocation) : RgkContinuationAllocationShape := {|
  sh_output_index := index (outpoint_of a);
  sh_covenant_id := an_covenant_id (al_anchor a);
  sh_amount := al_amount a;
  sh_encrypted_note_commitment := al_encrypted_note_commitment a |}.

Lemma shape_of_finalize p w daa depth s : shape_of (finalize_allocation p w daa depth s) = s.
Proof. by destruct s. Qed.

Lemma finalize_shapes p w daa depth :
  shape_of <$> tr_new_allocations (finalize_transition p w daa depth) =
    cp_new_allocation_shapes p.
Proof.
  cbn. rewrite <-list_fmap_compose. rewrite <-(list_fmap_id (cp_new_allocation_shapes p)) at 2.
  apply list_fmap_ext. intros _ s _. apply shape_of_finalize.
Qed.

Lemma finalize_supply p w daa depth :
  supply (tr_new_allocations (finalize_transition p w daa depth)) =
    shape_supply (cp_new_allocation_shapes p).
Proof. cbn. by rewrite total_fmap. Qed.

Lemma plan_finalize_ok p w daa depth f :
  plan_finalize p w daa depth = Ok f ↔
    let t := finalize_transition p w daa depth in
    plan_ok p ∧ transition_ok t ∧
    f = {| fc_commitment := cr_commitment (plan_report_of p); fc_transition := t;
           fc_transition_report := transition_report_of t |}.
Proof.
  unfold plan_finalize. rewrite bind_ok. setoid_rewrite plan_validate_ok.
  setoid_rewrite bind_ok. setoid_rewrite transition_validate_ok. split.
  - intros (? & [Hp ->] & ? & [Ht ->] & [= <-]). done.
  - intros (Hp & Ht & ->). eexists. split; [done|]. eexists. by split.
Qed.

(** C20: Finalisation realises the plan: what [finalize] returns is a validated
    transition whose new allocations are, one for one, the committed shapes
    anchored at outputs of the witness transaction at the given DAA score and
    depth; it carries the phase-1 commitment and shape root of the validated
    plan, links to the plan's previous state, and moves exactly the planned
    supply. *)
Theorem finalize_realises_plan p w daa depth f :
  plan_finalize p w daa depth = Ok f →
  let t := fc_transition f in
  ∃ r, plan_validate p = Ok r ∧ fc_commitment f = cr_commitment r ∧
    transition_validate t = Ok (fc_transition_report f) ∧
    tr_previous_state_digest t = cr_previous_state_digest r ∧
    shape_of <$> tr_new_allocations t = cp_new_allocation_shapes p ∧
    continuation_shape_root (tr_chain t) (shape_of <$> tr_new_allocations t) = cr_shape_root r ∧
    Forall (λ a, transaction_id (outpoint_of a) = w ∧ an_witness_txid (al_anchor a) = w ∧
                 an_daa_score (al_anchor a) = daa ∧ an_confirmation_depth (al_anchor a) = depth)
      (tr_new_allocations t) ∧
    trr_spent_supply (fc_transition_report f) = cr_spent_supply r ∧
    trr_new_supply (fc_transition_report f) = cr_new_supply r ∧
    trr_burned_supply (fc_transition_report f) = cr_burned_supply r.
Proof.
  intros (Hp & Ht & ->)%plan_finalize_ok. cbn -[finalize_transition].
  exists (plan_report_of p). rewrite finalize_shapes.
  rewrite plan_validate_ok, transition_validate_ok. split_and!; try done.
  - apply Forall_fmap, Forall_true. done.
  - cbn. by rewrite total_fmap.
Qed.

(** Fact: Finalisation succeeds: a validated plan, confirmed at positive depth by
    a transaction (with a non-zero id) that is not the one its spent outputs
    come from, always finalises, unless two of the messages hashed for the
    states of the finalised transition collide. *)
Theorem finalize_succeeds p r w (daa depth : u64) :
  plan_validate p = Ok r →
  w ≠ zero32 → (0 < depth)%Z →
  Forall (λ a, transaction_id (outpoint_of a) ≠ w) (cp_spent_allocations p) →
  (∃ f, plan_finalize p w daa depth = Ok f) ∨
  collision (transition_messages (finalize_transition p w daa depth)).
Proof.
  intros [Hp ->]%plan_validate_ok Hw Hd Hfresh.
  set (t := finalize_transition p w daa depth).
  assert (Hnew : ∀ a, a ∈ tr_new_allocations t → transaction_id (outpoint_of a) = w).
  { intros a (s & -> & Hs)%list_elem_of_fmap. done. }
  assert (Hsep : ∀ a, a ∈ tr_new_allocations t → a ∉ cp_spent_allocations p).
  { rewrite Forall_forall in Hfresh. intros a Ha Hin. by eapply Hfresh, Hnew. }
  destruct (decide (new_digest t = cp_previous_state_digest p)) as [E|Hmoves].
  { rewrite (po_digest _ Hp) in E.
    apply (state_digest_binds (transition_state t (tr_new_allocations t) (tr_new_owner_commitment t))
      (transition_state t (tr_spent_allocations t) (tr_previous_owner_commitment t))) in E as [E|];
      [|unfold transition_messages; by_messages].
    destruct E as (_ & _ & Hperm & _).
    change (tr_new_allocations t ≡ₚ cp_spent_allocations p) in Hperm.
    destruct (cp_spent_allocations p) as [|a k] eqn:Es; [by destruct (po_nonempty _ Hp)|].
    destruct (Hsep a); [|set_solver]. rewrite Hperm. set_solver. }
  left. exists {| fc_commitment := cr_commitment (plan_report_of p); fc_transition := t;
                  fc_transition_report := transition_report_of t |}.
  apply plan_finalize_ok. cbn zeta. split_and!; [done| |done].
  destruct Hp. constructor; try done.
  - apply Forall_fmap. eapply Forall_impl; [done|]. intros s [].
    constructor; try done. cbn. intros [=]. done.
  - cbn. rewrite <-list_fmap_compose. apply (NoDup_fmap_1 index).
    by rewrite <-list_fmap_compose.
  - by rewrite finalize_supply.
  - intros a Ha (a' & Ea & Ha')%list_elem_of_fmap. rewrite Forall_forall in Hfresh.
    apply (Hfresh a'); [done|]. rewrite <-Ea. by apply Hnew.
Qed.
End correct.
