(* ===== verification/AssetStrategy.v ===== *)
(** Production allocation strategies of the native asset grammar
    (src/crates/rgk-asset/src/native.rs): production ZK transfer plans, the
    choice between a fixed allocation vector and a segmented audit, strategy
    plans with their commitment, and their finalisation. *)

From stdpp Require Import base list strings.
From Stdlib Require Import ZArith Lia Strings.Byte.
From S2P Require Import Prelude.
From S2P Require Import Bytes.
From S2P Require Import Encoding.
From S2P Require Import Types.
From S2P Require Import Commit.
From S2P Require Import AssetTypes.
From S2P Require Import AssetRules.
From S2P Require Import Asset.
From S2P Require Import AssetCorrect.

Open Scope string_scope.

(** * Checked arithmetic *)

Definition checked_mul {w} (a b : uint w) : option (uint w) :=
  if decide (a * b < 2 ^ Z.pos w)%Z then Some (wrap w (a * b)) else None.

(** [a.div_ceil(b)] for [b] not zero. *)
Definition div_ceil {w} (a b : uint w) : uint w :=
  wrap w (a / b + if decide (a mod b = 0)%Z then 0 else 1).

(** * Production ZK transfers *)

Record RgkProductionZkTransferPlan := {
  zp_continuation_plan : RgkContinuationPlan;
  zp_continuation_report : RgkContinuationReport;
  zp_allocation_shape : RgkAllocationProofShape
}.

Record RgkFinalizedProductionZkTransfer := {
  zf_finalized_continuation : RgkFinalizedContinuation;
  zf_allocation_shape : RgkAllocationProofShape
}.

(** * Strategies *)

Definition SEGMENT_CAPACITY : usize := wrap 64 2.

Inductive RgkProductionAllocationStrategy : Type :=
| FixedAllocationVector (shape : RgkAllocationProofShape)
| SegmentedAllocationAudit (segment_capacity spent_segments new_segments exclusion_pairs
    groth16_proof_entries : usize).

#[export] Instance RgkProductionAllocationStrategy_eq_dec :
  EqDecision RgkProductionAllocationStrategy.
Proof. solve_decision. Defined.

Definition segmented_audit_for_report (report : RgkContinuationReport) (segment_capacity : usize)
  : aresult RgkProductionAllocationStrategy :=
  _ ← fail_if (uval segment_capacity = 0%Z)
        (AE_SegmentedAllocationAuditInvalidSegmentCapacity segment_capacity);
  _ ← fail_if (uval (cr_burned_supply report) ≠ 0%Z)
        (AE_SegmentedAllocationAuditRequiresConservation (cr_burned_supply report));
  _ ← fail_if (cr_spent_allocation_count report = 0%nat)
        (AE_SegmentedAllocationAuditEmptySide "spent");
  _ ← fail_if (cr_new_allocation_count report = 0%nat)
        (AE_SegmentedAllocationAuditEmptySide "new");
  let spent_segments := div_ceil (usize_of (cr_spent_allocation_count report)) segment_capacity in
  let new_segments := div_ceil (usize_of (cr_new_allocation_count report)) segment_capacity in
  exclusion_pairs ← ok_or (checked_mul spent_segments new_segments)
    AE_SegmentedAllocationAuditGridTooLarge;
  transcript_and_conservation_entries ← ok_or
    (segments ← checked_add spent_segments new_segments; checked_mul segments (wrap 64 2))
    AE_SegmentedAllocationAuditGridTooLarge;
  groth16_proof_entries ← ok_or
    (entries ← checked_add transcript_and_conservation_entries (wrap 64 1);
     checked_add entries exclusion_pairs)
    AE_SegmentedAllocationAuditGridTooLarge;
  Ok (SegmentedAllocationAudit segment_capacity spent_segments new_segments exclusion_pairs
        groth16_proof_entries).

Definition for_continuation_report (report : RgkContinuationReport)
  : aresult RgkProductionAllocationStrategy :=
  match from_counts (cr_spent_allocation_count report) (cr_new_allocation_count report) with
  | Some shape => Ok (FixedAllocationVector shape)
  | None => segmented_audit_for_report report SEGMENT_CAPACITY
  end.

Definition strategy_label (self : RgkProductionAllocationStrategy) : string :=
  match self with
  | FixedAllocationVector _ => "fixed-allocation-vector"
  | SegmentedAllocationAudit _ _ _ _ _ => "segmented-allocation-audit"
  end.

Definition requires_allocation_audit_certificate (self : RgkProductionAllocationStrategy) : bool :=
  match self with SegmentedAllocationAudit _ _ _ _ _ => true | _ => false end.

Definition fixed_shape (self : RgkProductionAllocationStrategy) : option RgkAllocationProofShape :=
  match self with
  | FixedAllocationVector shape => Some shape
  | SegmentedAllocationAudit _ _ _ _ _ => None
  end.

Definition groth16_proof_entries (self : RgkProductionAllocationStrategy) : usize :=
  match self with
  | FixedAllocationVector _ => wrap 64 1
  | SegmentedAllocationAudit _ _ _ _ entries => entries
  end.

Record RgkProductionAllocationStrategyPlan := {
  sp_continuation_plan : RgkContinuationPlan;
  sp_continuation_report : RgkContinuationReport;
  sp_strategy : RgkProductionAllocationStrategy;
  sp_strategy_commitment : Bytes32
}.

Record RgkFinalizedProductionAllocationStrategyTransfer := {
  sf_finalized_continuation : RgkFinalizedContinuation;
  sf_strategy : RgkProductionAllocationStrategy;
  sf_strategy_commitment : Bytes32
}.

Definition strategy_payload (strategy : RgkProductionAllocationStrategy) : list byte :=
  match strategy with
  | FixedAllocationVector shape =>
      ([x00] ++ u64_le (usize_of (spent_count shape)) ++ u64_le (usize_of (new_count shape)))%list
  | SegmentedAllocationAudit segment_capacity spent_segments new_segments exclusion_pairs entries =>
      ([x01] ++ u64_le segment_capacity ++ u64_le spent_segments ++ u64_le new_segments ++
       u64_le exclusion_pairs ++ u64_le entries)%list
  end.

Lemma spent_new_count_inj s s' :
  u64_le (usize_of (spent_count s)) = u64_le (usize_of (spent_count s')) →
  u64_le (usize_of (new_count s)) = u64_le (usize_of (new_count s')) → s = s'.
Proof. destruct s, s'; try reflexivity; intros E1 E2; vm_compute in E1, E2; congruence. Qed.

Lemma strategy_payload_inj s s' : strategy_payload s = strategy_payload s' → s = s'.
Proof.
  unfold strategy_payload. intros E. destruct s as [s|c a b d e], s' as [s'|c' a' b' d' e'];
    cbn [app] in E; apply cons_byte_inj in E as [Et E]; try done.
  - f_equal. apply app_inj_1 in E as [E1 E2]; [|by rewrite !u64_le_length].
    by apply spent_new_count_inj.
  - peel_bytes E. apply u64_le_inj in E. by subst.
Qed.

Section strategy.
Context `{Sha256}.

Definition zk_transfer_plan_new (continuation_plan : RgkContinuationPlan)
  : aresult RgkProductionZkTransferPlan :=
  continuation_report ← plan_validate_for_production_zk continuation_plan;
  allocation_shape ← require_counts (cr_spent_allocation_count continuation_report)
                       (cr_new_allocation_count continuation_report);
  Ok {| zp_continuation_plan := continuation_plan;
        zp_continuation_report := continuation_report;
        zp_allocation_shape := allocation_shape |}.

Definition zk_transfer_finalize (self : RgkProductionZkTransferPlan) (witness_txid : Bytes32)
    (daa_score confirmation_depth : u64) : aresult RgkFinalizedProductionZkTransfer :=
  finalized_continuation ← plan_finalize_for_production_zk (zp_continuation_plan self)
    witness_txid daa_score confirmation_depth;
  let transition_report := fc_transition_report finalized_continuation in
  allocation_shape ← require_counts (trr_spent_allocation_count transition_report)
                       (trr_new_allocation_count transition_report);
  Ok {| zf_finalized_continuation := finalized_continuation;
        zf_allocation_shape := allocation_shape |}.

Definition production_allocation_strategy_commitment (report : RgkContinuationReport)
    (strategy : RgkProductionAllocationStrategy) : Bytes32 :=
  let payload :=
    ([chain_as_u8 (cr_chain report)] ++
     cr_schema_id report ++
     cr_asset_id report ++
     u64_le (cr_total_supply report) ++
     cr_previous_state_digest report ++
     cr_shape_root report ++
     cr_commitment report ++
     u64_le (cr_spent_supply report) ++
     u64_le (cr_new_supply report) ++
     u64_le (cr_burned_supply report) ++
     u64_le (usize_of (cr_spent_allocation_count report)) ++
     u64_le (usize_of (cr_new_allocation_count report)) ++
     strategy_payload strategy)%list in
  asset_domain_hash "rgk:asset:production-allocation-strategy:v1" payload.

Definition strategy_plan_new (continuation_plan : RgkContinuationPlan)
  : aresult RgkProductionAllocationStrategyPlan :=
  continuation_report ← plan_validate continuation_plan;
  strategy ← for_continuation_report continuation_report;
  let strategy_commitment :=
    production_allocation_strategy_commitment continuation_report strategy in
  Ok {| sp_continuation_plan := continuation_plan;
        sp_continuation_report := continuation_report;
        sp_strategy := strategy;
        sp_strategy_commitment := strategy_commitment |}.

Definition strategy_finalize (self : RgkProductionAllocationStrategyPlan) (witness_txid : Bytes32)
    (daa_score confirmation_depth : u64)
  : aresult RgkFinalizedProductionAllocationStrategyTransfer :=
  finalized_continuation ← plan_finalize (sp_continuation_plan self) witness_txid daa_score
                             confirmation_depth;
  finalized_strategy ← for_continuation_report (sp_continuation_report self);
  _ ← fail_if (finalized_strategy ≠ sp_strategy self)
        (AE_UnsupportedProductionZkAllocationShape
           (trr_spent_allocation_count (fc_transition_report finalized_continuation))
           (trr_new_allocation_count (fc_transition_report finalized_continuation)));
  Ok {| sf_finalized_continuation := finalized_continuation;
        sf_strategy := sp_strategy self;
        sf_strategy_commitment := sp_strategy_commitment self |}.
End strategy.

(** * The segmented audit *)

(** The number of segments of capacity [c] that [n] entries fill. *)
Definition segments (n c : Z) : Z := (n + c - 1) / c.

(** The number of proofs of an audit over [s] spent and [n] new segments: a
    transcript and a conservation proof for each segment, one closing proof,
    and an exclusion proof for each pair. *)
Definition audit_entries (s n : Z) : Z := 2 * (s + n) + 1 + s * n.

Lemma segments_cover n c :
  (0 < c)%Z → (c * (segments n c - 1) < n <= c * segments n c)%Z.
Proof.
  intros Hc. unfold segments. pose proof (Z.div_mod (n + c - 1) c ltac:(lia)).
  pose proof (Z.mod_pos_bound (n + c - 1) c Hc). nia.
Qed.

Lemma segments_pos n c : (0 < n)%Z → (0 < c)%Z → (0 < segments n c <= n)%Z.
Proof. intros Hn Hc. pose proof (segments_cover n c Hc). nia. Qed.

Lemma div_ceil_segments (a b : usize) :
  (0 < b)%Z → uval (div_ceil a b) = segments a b.
Proof.
  intros Hb. pose proof (uint_range a). pose proof (uint_range b).
  assert (E : (a / b + (if decide (a mod b = 0) then 0 else 1) = segments a b)%Z).
  { unfold segments. pose proof (Z.div_mod a b ltac:(lia)) as Hdm.
    pose proof (Z.mod_pos_bound a b Hb). case_decide as Hm.
    - rewrite Z.add_0_r. apply (Z.div_unique_pos _ _ _ (b - 1)); lia.
    - apply (Z.div_unique_pos _ _ _ (a mod b - 1)); lia. }
  unfold div_ceil. rewrite E. apply uval_wrap_small.
  destruct (decide (uval a = 0%Z)) as [->|].
  - unfold segments. rewrite Z.div_small by lia. lia.
  - pose proof (segments_pos a b). lia.
Qed.

Lemma checked_mul_some {w} (a b c : uint w) : checked_mul a b = Some c ↔ uval c = (a * b)%Z.
Proof.
  unfold checked_mul. pose proof (uint_range a). pose proof (uint_range b).
  pose proof (uint_range c). case_decide as Hlt; split.
  - intros [= <-]. apply uval_wrap_small. nia.
  - intros E. f_equal. apply (inj uval). rewrite E. apply uval_wrap_small. nia.
  - done.
  - lia.
Qed.

(** The checked sums of the audit, all of them below the last one. *)
Lemma audit_grid_ok (c ss ns : usize) strategy :
  (exclusion_pairs ← ok_or (checked_mul ss ns) AE_SegmentedAllocationAuditGridTooLarge;
   entries ← ok_or (segments ← checked_add ss ns; checked_mul segments (wrap 64 2))
     AE_SegmentedAllocationAuditGridTooLarge;
   groth16_proof_entries ← ok_or
     (entries ← checked_add entries (wrap 64 1); checked_add entries exclusion_pairs)
     AE_SegmentedAllocationAuditGridTooLarge;
   Ok (SegmentedAllocationAudit c ss ns exclusion_pairs groth16_proof_entries)) = Ok strategy ↔
  (audit_entries ss ns < 2 ^ 64)%Z ∧
  strategy = SegmentedAllocationAudit c ss ns (wrap 64 (ss * ns)) (wrap 64 (audit_entries ss ns)).
Proof.
  pose proof (uint_range ss). pose proof (uint_range ns). unfold audit_entries.
  assert (0 <= ss * ns)%Z by nia.
  change (2 * (ss + ns))%Z with (uval (wrap 64 2) * (ss + ns))%Z.
  setoid_rewrite bind_ok. setoid_rewrite ok_or_ok. setoid_rewrite checked_mul_some.
  setoid_rewrite bind_ok. setoid_rewrite ok_or_ok. setoid_rewrite bind_Some.
  setoid_rewrite bind_ok. setoid_rewrite ok_or_ok. setoid_rewrite bind_Some.
  setoid_rewrite checked_mul_some. setoid_rewrite checked_add_some.
  change (uval (wrap 64 1)) with 1%Z. change (uval (wrap 64 2)) with 2%Z. split.
  - intros (pairs & E1 & e2 & (sg & E2 & E2') & e3 & (e4 & E3 & E3') & E). apply (inj Ok) in E as <-.
    pose proof (uint_range e3). split; [lia|].
    f_equal; apply (inj uval); rewrite uval_wrap_small; lia.
  - intros [Hlt ->].
    exists (wrap 64 (ss * ns)). split; [apply uval_wrap_small; lia|].
    exists (wrap 64 (2 * (ss + ns))). split.
    { exists (wrap 64 (ss + ns)). rewrite !uval_wrap_small; lia. }
    exists (wrap 64 (2 * (ss + ns) + 1 + ss * ns)). split; [|done].
    exists (wrap 64 (2 * (ss + ns) + 1)). rewrite !uval_wrap_small; lia.
Qed.

Lemma segmented_audit_ok (report : RgkContinuationReport) (c : usize) strategy :
  (Z.of_nat (cr_spent_allocation_count report) < 2 ^ 64)%Z →
  (Z.of_nat (cr_new_allocation_count report) < 2 ^ 64)%Z →
  let s := segments (Z.of_nat (cr_spent_allocation_count report)) c in
  let n := segments (Z.of_nat (cr_new_allocation_count report)) c in
  segmented_audit_for_report report c = Ok strategy ↔
    (0 < c)%Z ∧ uval (cr_burned_supply report) = 0%Z ∧
    cr_spent_allocation_count report ≠ 0%nat ∧ cr_new_allocation_count report ≠ 0%nat ∧
    (audit_entries s n < 2 ^ 64)%Z ∧
    strategy = SegmentedAllocationAudit c (wrap 64 s) (wrap 64 n) (wrap 64 (s * n))
                 (wrap 64 (audit_entries s n)).
Proof.
  intros Hs Hn s n. unfold segmented_audit_for_report. cbv zeta. pose proof (uint_range c).
  rewrite !bind_unit_ok, !fail_if_ok, audit_grid_ok.
  assert (E : (0 < c)%Z → div_ceil (usize_of (cr_spent_allocation_count report)) c = wrap 64 s ∧
                          div_ceil (usize_of (cr_new_allocation_count report)) c = wrap 64 n ∧
                          uval (wrap 64 s) = s ∧ uval (wrap 64 n) = n).
  { intros Hc. pose proof (div_ceil_segments (usize_of (cr_spent_allocation_count report)) c Hc) as E1.
    pose proof (div_ceil_segments (usize_of (cr_new_allocation_count report)) c Hc) as E2.
    rewrite uval_usize_of in E1, E2 by done. fold s in E1. fold n in E2.
    rewrite <-E1, <-E2, !wrap_uval. done. }
  split.
  - intros (Hc & Hb & Hs0 & Hn0 & Hlt & ->). destruct (E ltac:(lia)) as (E1 & E2 & E3 & E4).
    rewrite E1, E2, E3, E4 in *. split_and!; try done; [lia|by apply dec_stable].
  - intros (Hc & Hb & Hs0 & Hn0 & Hlt & ->). destruct (E Hc) as (E1 & E2 & E3 & E4).
    rewrite E1, E2, E3, E4. split_and!; try done; [lia|by intros ?].
Qed.

(** Fact: The segmented audit is exact and never wraps: for counts that fit a
    [usize], [segmented_audit_for_report] returns a strategy exactly when the
    capacity is positive, nothing is burned, neither side is empty, and the
    number of proofs fits a [usize]; it then holds the least numbers of
    segments that hold the allocations, their product, and
    [2 (s + n) + 1 + s n] proof entries. *)
Theorem segmented_audit_exact (report : RgkContinuationReport) (c : usize) strategy :
  (Z.of_nat (cr_spent_allocation_count report) < 2 ^ 64)%Z →
  (Z.of_nat (cr_new_allocation_count report) < 2 ^ 64)%Z →
  let s := segments (Z.of_nat (cr_spent_allocation_count report)) c in
  let n := segments (Z.of_nat (cr_new_allocation_count report)) c in
  segmented_audit_for_report report c = Ok strategy ↔
    (0 < c)%Z ∧ uval (cr_burned_supply report) = 0%Z ∧
    cr_spent_allocation_count report ≠ 0%nat ∧ cr_new_allocation_count report ≠ 0%nat ∧
    (audit_entries s n < 2 ^ 64)%Z ∧
    strategy = SegmentedAllocationAudit c (wrap 64 s) (wrap 64 n) (wrap 64 (s * n))
                 (wrap 64 (audit_entries s n)).
Proof. apply segmented_audit_ok. Qed.

(** * Strategy plans *)

Section correct.
Context `{Sha256}.

(** The strategy of given counts: one of the six vectors, or the audit at the
    production capacity. *)
Definition strategy_of (spent new : nat) : RgkProductionAllocationStrategy :=
  match from_counts spent new with
  | Some shape => FixedAllocationVector shape
  | None =>
      let s := segments (Z.of_nat spent) SEGMENT_CAPACITY in
      let n := segments (Z.of_nat new) SEGMENT_CAPACITY in
      SegmentedAllocationAudit SEGMENT_CAPACITY (wrap 64 s) (wrap 64 n) (wrap 64 (s * n))
        (wrap 64 (audit_entries s n))
  end.

Definition strategy_plan_of (p : RgkContinuationPlan) : RgkProductionAllocationStrategyPlan :=
  let strategy := strategy_of (length (cp_spent_allocations p)) (length (cp_new_allocation_shapes p)) in
  {| sp_continuation_plan := p;
     sp_continuation_report := plan_report_of p;
     sp_strategy := strategy;
     sp_strategy_commitment :=
       production_allocation_strategy_commitment (plan_report_of p) strategy |}.

Lemma capacity_entries (a b : nat) :
  (Z.of_nat a < 2 ^ 32)%Z → (Z.of_nat b < 2 ^ 32)%Z →
  (audit_entries (segments (Z.of_nat a) SEGMENT_CAPACITY)
                 (segments (Z.of_nat b) SEGMENT_CAPACITY) < 2 ^ 64)%Z.
Proof.
  change (uval SEGMENT_CAPACITY) with 2%Z. intros Ha Hb. unfold audit_entries.
  assert (Hs : ∀ n, (0 <= n < 2 ^ 32)%Z → (0 <= segments n 2 <= 2 ^ 31)%Z).
  { intros n Hn. pose proof (segments_cover n 2 ltac:(lia)). lia. }
  pose proof (Hs (Z.of_nat a) ltac:(lia)). pose proof (Hs (Z.of_nat b) ltac:(lia)). nia.
Qed.

Lemma plan_burns_nothing p :
  plan_ok p → uval (cr_burned_supply (plan_report_of p)) = 0%Z ↔ cp_burn p = None.
Proof.
  intros Hp. pose proof (total_nonneg sh_amount (cp_new_allocation_shapes p)) as H0.
  pose proof (burned_range _ _ _ H0 (po_spent_bound _ Hp) (po_supply _ Hp)) as Hr.
  cbn [cr_burned_supply plan_report_of]. rewrite uval_wrap_small by lia.
  pose proof (po_supply _ Hp) as Hsup. destruct (cp_burn p) as [b|]; cbn in *; [|done].
  split; [lia|done].
Qed.

Lemma strategy_choice p strategy :
  (Z.of_nat (length (cp_spent_allocations p)) < 2 ^ 32)%Z →
  (Z.of_nat (length (cp_new_allocation_shapes p)) < 2 ^ 32)%Z →
  plan_ok p →
  for_continuation_report (plan_report_of p) = Ok strategy ↔
    (is_Some (from_counts (length (cp_spent_allocations p)) (length (cp_new_allocation_shapes p)))
     ∨ cp_burn p = None) ∧
    strategy = strategy_of (length (cp_spent_allocations p)) (length (cp_new_allocation_shapes p)).
Proof.
  intros Hs Hn Hp. unfold for_continuation_report, strategy_of.
  change (cr_spent_allocation_count (plan_report_of p)) with (length (cp_spent_allocations p)).
  change (cr_new_allocation_count (plan_report_of p)) with (length (cp_new_allocation_shapes p)).
  destruct (from_counts _ _) as [shape|] eqn:E.
  { rewrite (inj_iff Ok). naive_solver. }
  rewrite segmented_audit_ok by (cbn; lia). rewrite plan_burns_nothing by done.
  cbn [cr_spent_allocation_count cr_new_allocation_count plan_report_of]. cbv zeta. split.
  - naive_solver.
  - intros [[[? [=]]|Hb] ->]. split_and!; try done.
    + intros ?%length_zero_iff_nil. by apply (po_nonempty _ Hp).
    + intros ?%length_zero_iff_nil. by apply (po_shapes_nonempty _ Hp).
    + by apply capacity_entries.
Qed.

Lemma strategy_plan_ok p sp :
  (Z.of_nat (length (cp_spent_allocations p)) < 2 ^ 32)%Z →
  (Z.of_nat (length (cp_new_allocation_shapes p)) < 2 ^ 32)%Z →
  strategy_plan_new p = Ok sp ↔
    plan_ok p ∧
    (is_Some (from_counts (length (cp_spent_allocations p)) (length (cp_new_allocation_shapes p)))
     ∨ cp_burn p = None) ∧
    sp = strategy_plan_of p.
Proof.
  intros Hs Hn. unfold strategy_plan_new. rewrite bind_ok. setoid_rewrite plan_validate_ok.
  setoid_rewrite bind_ok. split.
  - intros (r & [Hp ->] & st & E & E'). apply strategy_choice in E as [Hc ->]; [|done..].
    apply (inj Ok) in E' as <-. done.
  - intros (Hp & Hc & ->). eexists. split; [done|]. eexists. by rewrite strategy_choice.
Qed.

(** Fact: A production strategy exists for every plan that validates, except for
    burns whose counts no fixed vector has: for plans with fewer than [2^32]
    entries on each side, [RgkProductionAllocationStrategyPlan::new] succeeds
    exactly when the plan validates and its counts are one of the six vectors
    or it burns nothing (an audit never overflows there).  It keeps the plan
    and its report, and chooses the vector when there is one, otherwise the
    audit in segments of two. *)
Theorem strategy_plan_total p :
  (Z.of_nat (length (cp_spent_allocations p)) < 2 ^ 32)%Z →
  (Z.of_nat (length (cp_new_allocation_shapes p)) < 2 ^ 32)%Z →
  (∃ sp, strategy_plan_new p = Ok sp) ↔
    (∃ r, plan_validate p = Ok r) ∧
    (cp_burn p = None ∨
     ∃ shape, length (cp_spent_allocations p) = spent_count shape ∧
              length (cp_new_allocation_shapes p) = new_count shape).
Proof.
  intros Hs Hn.
  assert (Hc : is_Some (from_counts (length (cp_spent_allocations p))
                          (length (cp_new_allocation_shapes p)))
    ↔ ∃ shape, length (cp_spent_allocations p) = spent_count shape ∧
               length (cp_new_allocation_shapes p) = new_count shape).
  { unfold is_Some. setoid_rewrite from_counts_iff. naive_solver. }
  setoid_rewrite plan_validate_ok. rewrite <-Hc. split.
  - intros [sp E]. apply strategy_plan_ok in E as (? & ? & _); [|done..]. naive_solver.
  - intros [[r [Hp _]] Hor]. exists (strategy_plan_of p). apply strategy_plan_ok; naive_solver.
Qed.

(** Fact: Finalising a strategy plan adds no failure: on what
    [RgkProductionAllocationStrategyPlan::new] returns, [finalize] succeeds
    exactly when the continuation plan's own [finalize] does, with its result
    and the strategy and commitment that were announced; the strategy never
    changes between the two phases. *)
Theorem strategy_finalize_iff p sp w daa depth f :
  strategy_plan_new p = Ok sp →
  strategy_finalize sp w daa depth = Ok f ↔
    plan_finalize p w daa depth = Ok (sf_finalized_continuation f) ∧
    sf_strategy f = sp_strategy sp ∧ sf_strategy_commitment f = sp_strategy_commitment sp.
Proof.
  unfold strategy_plan_new. intros (r & E1 & (st & E2 & E)%bind_ok)%bind_ok.
  apply (inj Ok) in E as <-. unfold strategy_finalize.
  cbn [sp_continuation_plan sp_continuation_report sp_strategy sp_strategy_commitment].
  rewrite bind_ok. setoid_rewrite E2. cbn [mbind result_bind].
  setoid_rewrite bind_unit_ok. setoid_rewrite fail_if_ok. split.
  - intros (fc & Ef & _ & E). apply (inj Ok) in E as <-. done.
  - destruct f as [fc s c]. cbn. intros (Ef & -> & ->). exists fc. split; [done|]. by split; [intros ?|].
Qed.

Lemma plan_validate_zk_ok p r :
  plan_validate_for_production_zk p = Ok r ↔
    plan_validate p = Ok r ∧
    ∃ shape, require_counts (length (cp_spent_allocations p))
               (length (cp_new_allocation_shapes p)) = Ok shape.
Proof.
  unfold plan_validate_for_production_zk, plan_validate.
  destruct (plan_validate_structure p); cbn; [|naive_solver].
  destruct (require_counts _ _); cbn; naive_solver.
Qed.

Lemma plan_finalize_zk_ok p w daa depth f :
  plan_finalize_for_production_zk p w daa depth = Ok f ↔
    plan_finalize p w daa depth = Ok f ∧
    ∃ shape, require_counts (length (cp_spent_allocations p))
               (length (cp_new_allocation_shapes p)) = Ok shape.
Proof.
  unfold plan_finalize_for_production_zk. split.
  - intros (r & [_ Hs]%plan_validate_zk_ok & (f' & Hf & (s & _ & E)%bind_ok)%bind_ok)%bind_ok.
    by apply (inj Ok) in E as <-.
  - intros [Hf [s Hs]]. pose proof Hf as (Hp & Ht & E)%plan_finalize_ok.
    apply bind_ok. exists (plan_report_of p).
    split; [apply plan_validate_zk_ok; split; [by apply plan_validate_ok|by exists s]|].
    apply bind_ok. exists f. split; [done|]. apply bind_ok. exists s. split; [|done].
    rewrite E. cbn [fc_transition tr_spent_allocations tr_new_allocations finalize_transition].
    by rewrite length_fmap.
Qed.

(** Fact: Production ZK transfers are the fixed vectors: a ZK transfer plan exists
    exactly when the plan validates with counts of one of the six vectors,
    which is its shape; finalising it succeeds exactly when the plan's own
    [finalize] does, with the same shape. *)
Theorem zk_transfer_iff p zp :
  (zk_transfer_plan_new p = Ok zp ↔
    plan_validate p = Ok (zp_continuation_report zp) ∧ zp_continuation_plan zp = p ∧
    spent_count (zp_allocation_shape zp) = length (cp_spent_allocations p) ∧
    new_count (zp_allocation_shape zp) = length (cp_new_allocation_shapes p)) ∧
  (zk_transfer_plan_new p = Ok zp → ∀ w daa depth f,
    zk_transfer_finalize zp w daa depth = Ok f ↔
      plan_finalize p w daa depth = Ok (zf_finalized_continuation f) ∧
      zf_allocation_shape f = zp_allocation_shape zp).
Proof.
  assert (Hnew : ∀ zp, zk_transfer_plan_new p = Ok zp ↔
    plan_validate p = Ok (zp_continuation_report zp) ∧ zp_continuation_plan zp = p ∧
    spent_count (zp_allocation_shape zp) = length (cp_spent_allocations p) ∧
    new_count (zp_allocation_shape zp) = length (cp_new_allocation_shapes p)).
  { intros z. unfold zk_transfer_plan_new. split.
    - intros (r & [Hr _]%plan_validate_zk_ok & (s & Hs & E)%bind_ok)%bind_ok.
      pose proof Hr as [_ ->]%plan_validate_ok.
      apply require_counts_ok in Hs. by apply (inj Ok) in E as <-.
    - destruct z as [q r s]. cbn. intros (Hr & -> & Hs). pose proof Hr as [_ ->]%plan_validate_ok.
      apply require_counts_ok in Hs. apply bind_ok. eexists.
      split; [apply plan_validate_zk_ok; split; [done|by exists s]|].
      apply bind_ok. by exists s. }
  split; [apply Hnew|]. intros (_ & Ep & Hs)%Hnew w daa depth f.
  apply require_counts_ok in Hs. unfold zk_transfer_finalize. rewrite Ep.
  assert (Hcounts : ∀ fc, plan_finalize p w daa depth = Ok fc →
    require_counts (trr_spent_allocation_count (fc_transition_report fc))
      (trr_new_allocation_count (fc_transition_report fc)) = Ok (zp_allocation_shape zp)).
  { intros fc (_ & _ & ->)%plan_finalize_ok. cbn. by rewrite length_fmap. }
  split.
  - intros (fc & [Hf _]%plan_finalize_zk_ok & (s & Es & E)%bind_ok)%bind_ok.
    rewrite Hcounts in Es by done.
    apply (inj Ok) in E as <-. apply (inj Ok) in Es as <-. done.
  - destruct f as [fc s]. cbn. intros [Hf ->]. apply bind_ok. exists fc.
    split; [apply plan_finalize_zk_ok; split; [done|by eexists]|]. apply bind_ok. eexists.
    by rewrite Hcounts.
Qed.

Definition strategy_messages (p : RgkContinuationPlan) (s : RgkProductionAllocationStrategy)
  : list (list byte) :=
  ltac:(message_of (production_allocation_strategy_commitment (plan_report_of p) s)) :: plan_messages p.
Hint Unfold strategy_messages : messages.

(** Fact: The strategy commitment identifies the transfer: two strategy plans with
    one commitment have the same strategy and the same continuation plan up to
    the order of allocations and shapes, or two of the messages hashed for the
    strategies and the plans collide. *)
Theorem strategy_commitment_identifies p q sp sq :
  strategy_plan_new p = Ok sp → strategy_plan_new q = Ok sq →
  sp_strategy_commitment sp = sp_strategy_commitment sq →
  (same_plan p q ∧ sp_strategy sp = sp_strategy sq) ∨
  collision (strategy_messages p (sp_strategy sp) ++ strategy_messages q (sp_strategy sq)).
Proof.
  unfold strategy_plan_new. intros (r & [_ ->]%plan_validate_ok & (st & E1 & E)%bind_ok)%bind_ok.
  apply (inj Ok) in E as <-.
  intros (r' & [_ ->]%plan_validate_ok & (st' & E1' & E)%bind_ok)%bind_ok.
  apply (inj Ok) in E as <-.
  cbn [sp_strategy_commitment sp_strategy]. intros E.
  apply asset_hash_binds in E as [[_ E]|]; [|by_messages|done..].
  remember (strategy_payload st) as b eqn:Eb. remember (strategy_payload st') as b' eqn:Eb'.
  peel_bytes E. apply plan_commitment_binds in Ef5 as [Hpq|]; [|subst; by_messages]. left.
  split; [done|]. subst. by apply strategy_payload_inj.
Qed.
End correct.
