(* ===== verification/AssetRecord.v ===== *)
(** The canonical record of a production allocation strategy
    (src/crates/rgk-asset/src/native.rs): its encoder, its decoder and that the
    decoder accepts exactly what the encoder writes.

    The lengths [write_len] casts to 32 bits are bounded by
    [validate_canonical_record_plan] before anything is written. *)

From stdpp Require Import base list strings.
From Stdlib Require Import ZArith Lia Strings.Byte.
From S2P Require Import Prelude.
From S2P Require Import Bytes.
From S2P Require Import Encoding.
From S2P Require Import Types.
From S2P Require Import Records.
From S2P Require Import Commit.
From S2P Require Import AssetTypes.
From S2P Require Import AssetRules.
From S2P Require Import Asset.
From S2P Require Import AssetStrategy.

Open Scope string_scope.

(** [b"rgk:pas:0\0\0\0"] *)
Definition RGK_ALLOCATION_STRATEGY_RECORD_TAG : bytes 12 :=
  to_array 12 [x72; x67; x6b; x3a; x70; x61; x73; x3a; x30; x00; x00; x00].

Definition MAX_CANONICAL_RECORD_ITEMS : Z := MAX_BLOB_BYTES / 32.

Record RgkProductionAllocationStrategyRecord := {
  ar_plan : RgkProductionAllocationStrategyPlan
}.

Definition record_decode_error (_ : DecodeError) : RgkAssetError :=
  AE_ProductionAllocationStrategyRecordDecode "malformed canonical bytes".
Definition record_bad_tag (reason : string) : RgkAssetError :=
  AE_ProductionAllocationStrategyRecordDecode reason.
Definition record_encode_error (reason : string) : RgkAssetError :=
  AE_ProductionAllocationStrategyRecordEncode reason.

(** [r.read_x().map_err(production_allocation_strategy_record_decode_error)?] *)
Definition ard {A} (p : parser DecodeError A) : parser RgkAssetError A :=
  pmap_err record_decode_error p.

(** * What fits a record *)

Definition validate_canonical_record_item_count (len : nat) (reason : string) : aresult unit :=
  fail_if (MAX_CANONICAL_RECORD_ITEMS < Z.of_nat len)%Z (record_encode_error reason).

Definition validate_canonical_record_proof_policy (policy : RgkProofPolicy) : aresult unit :=
  match policy with
  | PP_ZkReceipt _ (AllowedSet set) =>
      validate_canonical_record_item_count (length set) "too many image ids"
  | _ => Ok ()
  end.

Definition validate_canonical_record_plan (plan : RgkContinuationPlan) : aresult unit :=
  _ ← validate_canonical_record_item_count (length (cp_spent_allocations plan))
        "too many spent allocations";
  _ ← validate_canonical_record_item_count (length (cp_new_allocation_shapes plan))
        "too many new allocation shapes";
  validate_canonical_record_proof_policy (cp_proof_policy plan).

(** * Fields *)

Definition write_chain (chain : KaspaChainId) : Writer → Writer := write_u8 (chain_as_u8 chain).

Definition read_chain : parser RgkAssetError KaspaChainId :=
  tag ← ard read_u8;
  plift (ok_or (chain_from_tag tag) (record_bad_tag "unknown Kaspa chain id")).

Definition write_len (len : nat) : Writer → Writer := write_u32 (wrap 32 (Z.of_nat len)).

Definition read_len : parser RgkAssetError nat :=
  len ← ard read_u32;
  _ ← plift (fail_if (MAX_CANONICAL_RECORD_ITEMS < uval len)%Z
        (record_bad_tag "record vector count too large"));
  mret (Z.to_nat (uval len)).

(** [write_len(w, l.len()); for x in l { f(w, x) }] and its inverse loop. *)
Definition write_vec {A} (f : A → Writer → Writer) (l : list A) : Writer → Writer :=
  write_len (length l) ▷ write_all f l.
Definition read_vec {A} (p : parser RgkAssetError A) : parser RgkAssetError (list A) :=
  len ← read_len;
  read_n len p.

Definition encode_covenant_anchor (anchor : RgkCovenantAnchor) : Writer → Writer :=
  write_chain (an_chain anchor) ▷
  write_bytes32 (transaction_id (an_covenant_outpoint anchor)) ▷
  write_u32 (index (an_covenant_outpoint anchor)) ▷
  write_bytes32 (an_covenant_id anchor) ▷
  write_bytes32 (an_witness_txid anchor) ▷
  write_u64 (an_daa_score anchor) ▷
  write_u64 (an_confirmation_depth anchor).

Definition decode_covenant_anchor : parser RgkAssetError RgkCovenantAnchor :=
  chain ← read_chain;
  transaction_id ← ard read_bytes32;
  index ← ard read_u32;
  covenant_id ← ard read_bytes32;
  witness_txid ← ard read_bytes32;
  daa_score ← ard read_u64;
  confirmation_depth ← ard read_u64;
  mret {| an_chain := chain;
          an_covenant_outpoint := {| transaction_id := transaction_id; index := index |};
          an_covenant_id := covenant_id; an_witness_txid := witness_txid;
          an_daa_score := daa_score; an_confirmation_depth := confirmation_depth |}.

Definition encode_allocation_record (allocation : RgkAllocation) : Writer → Writer :=
  encode_covenant_anchor (al_anchor allocation) ▷
  write_u64 (al_amount allocation) ▷
  write_bytes32 (al_encrypted_note_commitment allocation).

Definition decode_allocation_record : parser RgkAssetError RgkAllocation :=
  anchor ← decode_covenant_anchor;
  amount ← ard read_u64;
  encrypted_note_commitment ← ard read_bytes32;
  mret {| al_anchor := anchor; al_amount := amount;
          al_encrypted_note_commitment := encrypted_note_commitment |}.

Definition encode_continuation_shape_record (shape : RgkContinuationAllocationShape)
  : Writer → Writer :=
  write_u32 (sh_output_index shape) ▷
  write_bytes32 (sh_covenant_id shape) ▷
  write_u64 (sh_amount shape) ▷
  write_bytes32 (sh_encrypted_note_commitment shape).

Definition decode_continuation_shape_record : parser RgkAssetError RgkContinuationAllocationShape :=
  output_index ← ard read_u32;
  covenant_id ← ard read_bytes32;
  amount ← ard read_u64;
  encrypted_note_commitment ← ard read_bytes32;
  mret {| sh_output_index := output_index; sh_covenant_id := covenant_id; sh_amount := amount;
          sh_encrypted_note_commitment := encrypted_note_commitment |}.

Definition encode_burn_record (burn : option RgkBurnProof) : Writer → Writer :=
  match burn with
  | Some burn =>
      write_u8 x01 ▷ write_u64 (bp_amount burn) ▷ write_bytes32 (bp_authorization_commitment burn)
  | None => write_u8 x00
  end.

Definition decode_burn_record : parser RgkAssetError (option RgkBurnProof) :=
  tag ← ard read_u8;
  match tag with
  | x00 => mret None
  | x01 =>
      amount ← ard read_u64;
      authorization_commitment ← ard read_bytes32;
      mret (Some {| bp_amount := amount; bp_authorization_commitment := authorization_commitment |})
  | _ => plift (Err (record_bad_tag "unknown burn option tag"))
  end.

Definition encode_privacy_policy_record (privacy_policy : LanePrivacyPolicy) : Writer → Writer :=
  write_u8 (privacy_as_u8 privacy_policy).

Definition decode_privacy_policy_record : parser RgkAssetError LanePrivacyPolicy :=
  tag ← ard read_u8;
  match tag with
  | x00 => mret PublicLineage
  | x01 => mret PrivateLane
  | x02 => mret StealthLane
  | _ => plift (Err (record_bad_tag "unknown privacy policy tag"))
  end.

Definition encode_image_id_policy_record (policy : ImageIdPolicy) : Writer → Writer :=
  match policy with
  | Fixed image_id => write_u8 x00 ▷ write_bytes32 image_id
  | AllowedSet set => write_u8 x01 ▷ write_vec write_bytes32 set
  | PolicyBranch branch => write_u8 x02 ▷ write_bytes32 branch
  end.

Definition decode_image_id_policy_record : parser RgkAssetError ImageIdPolicy :=
  tag ← ard read_u8;
  match tag with
  | x00 => image_id ← ard read_bytes32; mret (Fixed image_id)
  | x01 => set ← read_vec (ard read_bytes32); mret (AllowedSet set)
  | x02 => branch ← ard read_bytes32; mret (PolicyBranch branch)
  | _ => plift (Err (record_bad_tag "unknown image id policy tag"))
  end.

Definition encode_proof_policy_record (policy : RgkProofPolicy) : Writer → Writer :=
  match policy with
  | PP_VerifierReceipt verifier_key_hash => write_u8 x00 ▷ write_bytes32 verifier_key_hash
  | PP_ZkReceipt verifier_key_id image_id_policy =>
      write_u8 x01 ▷ write_bytes32 verifier_key_id ▷ encode_image_id_policy_record image_id_policy
  | PP_Hybrid verifier_key_hash verifier_key_id =>
      write_u8 x02 ▷ write_bytes32 verifier_key_hash ▷ write_bytes32 verifier_key_id
  end.

Definition decode_proof_policy_record : parser RgkAssetError RgkProofPolicy :=
  tag ← ard read_u8;
  match tag with
  | x00 => verifier_key_hash ← ard read_bytes32; mret (PP_VerifierReceipt verifier_key_hash)
  | x01 =>
      verifier_key_id ← ard read_bytes32;
      image_id_policy ← decode_image_id_policy_record;
      mret (PP_ZkReceipt verifier_key_id image_id_policy)
  | x02 =>
      verifier_key_hash ← ard read_bytes32;
      verifier_key_id ← ard read_bytes32;
      mret (PP_Hybrid verifier_key_hash verifier_key_id)
  | _ => plift (Err (record_bad_tag "unknown proof policy tag"))
  end.

Definition encode_continuation_plan (plan : RgkContinuationPlan) : Writer → Writer :=
  write_chain (cp_chain plan) ▷
  write_bytes32 (cp_schema_id plan) ▷
  write_bytes32 (cp_asset_id plan) ▷
  write_u64 (cp_total_supply plan) ▷
  write_bytes32 (cp_metadata_commitment plan) ▷
  write_bytes32 (cp_previous_owner_commitment plan) ▷
  write_bytes32 (cp_new_owner_commitment plan) ▷
  write_bytes32 (cp_ownership_authorization_commitment plan) ▷
  write_bytes32 (cp_previous_state_digest plan) ▷
  write_vec encode_allocation_record (cp_spent_allocations plan) ▷
  write_vec encode_continuation_shape_record (cp_new_allocation_shapes plan) ▷
  encode_burn_record (cp_burn plan) ▷
  write_bytes32 (cp_lane_id plan) ▷
  encode_privacy_policy_record (cp_privacy_policy plan) ▷
  encode_proof_policy_record (cp_proof_policy plan).

Definition decode_continuation_plan : parser RgkAssetError RgkContinuationPlan :=
  chain ← read_chain;
  schema_id ← ard read_bytes32;
  asset_id ← ard read_bytes32;
  total_supply ← ard read_u64;
  metadata_commitment ← ard read_bytes32;
  previous_owner_commitment ← ard read_bytes32;
  new_owner_commitment ← ard read_bytes32;
  ownership_authorization_commitment ← ard read_bytes32;
  previous_state_digest ← ard read_bytes32;
  spent_allocations ← read_vec decode_allocation_record;
  new_allocation_shapes ← read_vec decode_continuation_shape_record;
  burn ← decode_burn_record;
  lane_id ← ard read_bytes32;
  privacy_policy ← decode_privacy_policy_record;
  proof_policy ← decode_proof_policy_record;
  mret {| cp_chain := chain; cp_schema_id := schema_id; cp_asset_id := asset_id;
          cp_total_supply := total_supply; cp_metadata_commitment := metadata_commitment;
          cp_previous_owner_commitment := previous_owner_commitment;
          cp_new_owner_commitment := new_owner_commitment;
          cp_ownership_authorization_commitment := ownership_authorization_commitment;
          cp_previous_state_digest := previous_state_digest;
          cp_spent_allocations := spent_allocations;
          cp_new_allocation_shapes := new_allocation_shapes; cp_burn := burn;
          cp_lane_id := lane_id; cp_privacy_policy := privacy_policy;
          cp_proof_policy := proof_policy |}.

Definition encode_allocation_proof_shape_record (shape : RgkAllocationProofShape)
  : Writer → Writer :=
  write_u8 match shape with
           | OneInZeroOut => x00 | OneInOneOut => x01 | TwoInTwoOut => x02
           | ThreeInTwoOut => x03 | FourInTwoOut => x04 | FourInFourOut => x05
           end.

Definition decode_allocation_proof_shape_record : parser RgkAssetError RgkAllocationProofShape :=
  tag ← ard read_u8;
  match tag with
  | x00 => mret OneInZeroOut
  | x01 => mret OneInOneOut
  | x02 => mret TwoInTwoOut
  | x03 => mret ThreeInTwoOut
  | x04 => mret FourInTwoOut
  | x05 => mret FourInFourOut
  | _ => plift (Err (record_bad_tag "unknown allocation proof shape tag"))
  end.

Definition encode_production_allocation_strategy (strategy : RgkProductionAllocationStrategy)
  : Writer → Writer :=
  match strategy with
  | FixedAllocationVector shape => write_u8 x00 ▷ encode_allocation_proof_shape_record shape
  | SegmentedAllocationAudit segment_capacity spent_segments new_segments exclusion_pairs entries =>
      write_u8 x01 ▷
      write_u64 segment_capacity ▷
      write_u64 spent_segments ▷
      write_u64 new_segments ▷
      write_u64 exclusion_pairs ▷
      write_u64 entries
  end.

(** [usize::try_from] of a [u64] never fails on a 64-bit target. *)
Definition decode_usize_record : parser RgkAssetError usize := ard read_u64.

Definition decode_production_allocation_strategy
  : parser RgkAssetError RgkProductionAllocationStrategy :=
  tag ← ard read_u8;
  match tag with
  | x00 => shape ← decode_allocation_proof_shape_record; mret (FixedAllocationVector shape)
  | x01 =>
      segment_capacity ← decode_usize_record;
      spent_segments ← decode_usize_record;
      new_segments ← decode_usize_record;
      exclusion_pairs ← decode_usize_record;
      groth16_proof_entries ← decode_usize_record;
      mret (SegmentedAllocationAudit segment_capacity spent_segments new_segments exclusion_pairs
              groth16_proof_entries)
  | _ => plift (Err (record_bad_tag "unknown production allocation strategy tag"))
  end.

(** * Records *)

Definition strategy_record_writer (plan : RgkProductionAllocationStrategyPlan) : Writer → Writer :=
  write_bytes RGK_ALLOCATION_STRATEGY_RECORD_TAG ▷
  write_u16 ENCODING_VERSION ▷
  encode_continuation_plan (sp_continuation_plan plan) ▷
  encode_production_allocation_strategy (sp_strategy plan) ▷
  write_bytes32 (sp_strategy_commitment plan).

Definition canonical_bytes (self : RgkProductionAllocationStrategyRecord) : aresult (list byte) :=
  _ ← validate_canonical_record_plan (sp_continuation_plan (ar_plan self));
  let bytes := into_vec (strategy_record_writer (ar_plan self) writer_new) in
  _ ← fail_if (uval MAX_BLOB_BYTES < Z.of_nat (length bytes))%Z
        (record_encode_error "record too large");
  Ok bytes.

Section record.
Context `{Sha256}.

Definition from_continuation_plan (continuation_plan : RgkContinuationPlan)
  : aresult RgkProductionAllocationStrategyRecord :=
  plan ← strategy_plan_new continuation_plan;
  Ok {| ar_plan := plan |}.

Definition strategy_record_decode (bytes : list byte)
  : aresult RgkProductionAllocationStrategyRecord :=
  _ ← fail_if (uval MAX_BLOB_BYTES < Z.of_nat (length bytes))%Z
        (record_bad_tag "record too large");
  run_record (
    tag ← ard (read_array 12);
    _ ← plift (fail_if (tag ≠ RGK_ALLOCATION_STRATEGY_RECORD_TAG)
          (record_bad_tag "bad record tag"));
    version ← ard read_u16;
    _ ← plift (fail_if (version ≠ ENCODING_VERSION) (record_bad_tag "unknown version"));
    continuation_plan ← decode_continuation_plan;
    encoded_strategy ← decode_production_allocation_strategy;
    encoded_strategy_commitment ← ard read_bytes32;
    _ ← ard ensure_consumed;
    plan ← plift (strategy_plan_new continuation_plan);
    _ ← plift (fail_if (sp_strategy plan ≠ encoded_strategy)
          (AE_ProductionAllocationStrategyRecordMismatch "strategy"));
    _ ← plift (fail_if (sp_strategy_commitment plan ≠ encoded_strategy_commitment)
          (AE_ProductionAllocationStrategyRecordMismatch "strategy_commitment"));
    mret {| ar_plan := plan |}) bytes.
End record.

(** * Round trips *)

#[export] Instance ard_codec {A} (p : parser DecodeError A) P f : Codec p P f → Codec (ard p) P f.
Proof. apply pmap_err_codec. Qed.

Lemma max_items_u32 : (MAX_CANONICAL_RECORD_ITEMS < 2 ^ 32)%Z.
Proof. done. Qed.

Lemma chain_from_tag_ok tag c : chain_from_tag tag = Some c ↔ tag = chain_as_u8 c.
Proof. split; [|by intros ->; destruct c]. by destruct tag; intros [= <-]. Qed.

#[export] Instance write_chain_appending c : Appending (write_chain c).
Proof. apply _. Qed.
#[export] Instance write_len_appending n : Appending (write_len n).
Proof. apply _. Qed.
#[export] Instance write_vec_appending {A} (f : A → Writer → Writer) l :
  (∀ x, Appending (f x)) → Appending (write_vec f l).
Proof. intros. unfold write_vec. apply _. Qed.

#[export] Instance chain_codec : Codec read_chain always write_chain.
Proof.
  intros r c r' Hr. unfold read_chain, write_chain. split.
  - intros H. sound_steps.
    match goal with H : chain_from_tag _ = _ |- _ => apply chain_from_tag_ok in H as -> end. done.
  - intros [_ H]. rewrite (pbind_intro _ _ _ (chain_as_u8 c) r') by by apply codec_iff.
    apply plift_ok. split; [|done]. apply ok_or_ok. by apply chain_from_tag_ok.
Qed.

Definition item_count (n : nat) : Prop := (Z.of_nat n <= MAX_CANONICAL_RECORD_ITEMS)%Z.

#[export] Instance len_codec : Codec read_len item_count write_len.
Proof.
  intros r n r' Hr. unfold read_len, write_len, item_count. pose proof max_items_u32. split.
  - intros H0. sound_steps. rename select (uint 32) into len. pose proof (uint_range len).
    split; [lia|]. rewrite Z2Nat.id by lia. by rewrite wrap_uval.
  - intros [Hn Hs]. assert (Hv : uval (wrap 32 (Z.of_nat n)) = Z.of_nat n)
      by (apply uval_wrap_small; lia).
    rewrite (pbind_intro _ _ _ (wrap 32 (Z.of_nat n)) r') by by apply codec_iff.
    rewrite (plift_intro _ _ _ ()) by (apply fail_if_false; lia).
    by rewrite Hv, Nat2Z.id.
Qed.

(** A vector within the record bound, of elements that fit. *)
Definition items {A} (P : A → Prop) (l : list A) : Prop := item_count (length l) ∧ Forall P l.

#[export] Instance vec_codec {A} (p : parser RgkAssetError A) P f :
  Codec p P f → (∀ a, Appending (f a)) → Codec (read_vec p) (items P) (write_vec f).
Proof.
  intros Hp Hf r l r' Hr. unfold read_vec, write_vec, items. pose proof (read_n_codec p P f) as Hn.
  rewrite pbind_ok, step_seq by apply _. split.
  - intros (n & r1 & [Hc Hs]%codec_iff & H); [|done].
    apply Hn in H as ([<- HF] & Hs'); [|done..|by eapply step_wf].
    split; [done|]. by exists r1.
  - intros ([Hc HF] & r1 & Hs & Hs'). exists (length l), r1. split; [by apply codec_iff|].
    apply Hn; [done..|by eapply step_wf|done].
Qed.

Lemma items_always {A} (l : list A) : items always l ↔ item_count (length l).
Proof. unfold items. split; [by intros []|]. intros ?. split; [done|by apply Forall_true]. Qed.

#[export] Instance anchor_appending a : Appending (encode_covenant_anchor a).
Proof. unfold encode_covenant_anchor. apply _. Qed.
#[export] Instance allocation_record_appending a : Appending (encode_allocation_record a).
Proof. unfold encode_allocation_record. apply _. Qed.
#[export] Instance shape_record_appending s : Appending (encode_continuation_shape_record s).
Proof. unfold encode_continuation_shape_record. apply _. Qed.
#[export] Instance burn_record_appending b : Appending (encode_burn_record b).
Proof. destruct b; apply _. Qed.
#[export] Instance privacy_record_appending p : Appending (encode_privacy_policy_record p).
Proof. apply _. Qed.
#[export] Instance image_record_appending p : Appending (encode_image_id_policy_record p).
Proof. destruct p; apply _. Qed.
#[export] Instance policy_record_appending p : Appending (encode_proof_policy_record p).
Proof. destruct p; apply _. Qed.
#[export] Instance plan_record_appending p : Appending (encode_continuation_plan p).
Proof. unfold encode_continuation_plan. apply _. Qed.
#[export] Instance proof_shape_record_appending s : Appending (encode_allocation_proof_shape_record s).
Proof. apply _. Qed.
#[export] Instance strategy_record_appending s : Appending (encode_production_allocation_strategy s).
Proof. destruct s; apply _. Qed.

#[export] Instance anchor_codec : Codec decode_covenant_anchor always encode_covenant_anchor.
Proof.
  intros r a r' Hr. unfold decode_covenant_anchor, encode_covenant_anchor. split.
  - intros H. sound_steps. split; [done|]. join_steps.
  - intros [_ H]. split_steps. complete_steps. by destruct a as [? []].
Qed.

#[export] Instance allocation_record_codec :
  Codec decode_allocation_record always encode_allocation_record.
Proof.
  intros r a r' Hr. unfold decode_allocation_record, encode_allocation_record. split.
  - intros H. sound_steps. split; [done|]. join_steps.
  - intros [_ H]. split_steps. complete_steps. by destruct a.
Qed.

#[export] Instance shape_record_codec :
  Codec decode_continuation_shape_record always encode_continuation_shape_record.
Proof.
  intros r a r' Hr. unfold decode_continuation_shape_record, encode_continuation_shape_record. split.
  - intros H. sound_steps. split; [done|]. join_steps.
  - intros [_ H]. split_steps. complete_steps. by destruct a.
Qed.

(** A tag byte followed by the fields it announces. *)
Ltac sound_tag :=
  match goal with
  | H : match ?tag with x00 => _ | _ => _ end _ = Ok _ |- _ =>
      destruct tag; try (apply plift_ok in H as [? _]; discriminate)
  end.

Ltac complete_tag := complete_step; cbn [privacy_as_u8]; cbn iota.

#[export] Instance burn_record_codec : Codec decode_burn_record always encode_burn_record.
Proof.
  intros r b r' Hr. unfold decode_burn_record, encode_burn_record. split.
  - intros H. sound_step. sound_step. sound_tag; sound_steps; (split; [done|]); join_steps.
  - intros [_ H]. destruct b as [[]|]; split_steps; complete_tag; by complete_steps.
Qed.

#[export] Instance privacy_record_codec :
  Codec decode_privacy_policy_record always encode_privacy_policy_record.
Proof.
  intros r p r' Hr. unfold decode_privacy_policy_record, encode_privacy_policy_record. split.
  - intros H. sound_step. sound_step. sound_tag; sound_steps; (split; [done|]); join_steps.
  - intros [_ H]. destruct p; by complete_tag.
Qed.

(** Image-id sets that fit a record. *)
Definition image_ids_fit (p : ImageIdPolicy) : Prop :=
  match p with AllowedSet set => item_count (length set) | _ => True end.

#[export] Instance image_record_codec :
  Codec decode_image_id_policy_record image_ids_fit encode_image_id_policy_record.
Proof.
  intros r p r' Hr. unfold decode_image_id_policy_record, encode_image_id_policy_record. split.
  - intros H. sound_step. sound_step. sound_tag; sound_steps;
      repeat match goal with H : items _ _ |- _ => apply items_always in H end;
      (split; [done|]); join_steps.
  - intros [Hf H]. destruct p; split_steps; complete_tag; complete_steps; try done. by apply items_always.
Qed.

Definition policy_fits (p : RgkProofPolicy) : Prop :=
  match p with PP_ZkReceipt _ images => image_ids_fit images | _ => True end.

#[export] Instance policy_record_codec :
  Codec decode_proof_policy_record policy_fits encode_proof_policy_record.
Proof.
  intros r p r' Hr. unfold decode_proof_policy_record, encode_proof_policy_record. split.
  - intros H. sound_step. sound_step. sound_tag; sound_steps; (split; [done|]); join_steps.
  - intros [Hf H]. destruct p; split_steps; complete_tag; by complete_steps.
Qed.

#[export] Instance proof_shape_record_codec :
  Codec decode_allocation_proof_shape_record always encode_allocation_proof_shape_record.
Proof.
  intros r s r' Hr. unfold decode_allocation_proof_shape_record, encode_allocation_proof_shape_record.
  split.
  - intros H. sound_step. sound_step. sound_tag; sound_steps; (split; [done|]); join_steps.
  - intros [_ H]. destruct s; by complete_tag.
Qed.

#[export] Instance usize_record_codec : Codec decode_usize_record always write_u64.
Proof. unfold decode_usize_record. apply _. Qed.

#[export] Instance strategy_record_codec :
  Codec decode_production_allocation_strategy always encode_production_allocation_strategy.
Proof.
  intros r s r' Hr.
  unfold decode_production_allocation_strategy, encode_production_allocation_strategy. split.
  - intros H. sound_step. sound_step. sound_tag; sound_steps; (split; [done|]); join_steps.
  - intros [_ H]. destruct s; split_steps; complete_tag; by complete_steps.
Qed.

(** The plans a record holds. *)
Definition plan_fits (p : RgkContinuationPlan) : Prop :=
  item_count (length (cp_spent_allocations p)) ∧
  item_count (length (cp_new_allocation_shapes p)) ∧ policy_fits (cp_proof_policy p).

Lemma record_plan_ok p u : validate_canonical_record_plan p = Ok u ↔ plan_fits p.
Proof.
  unfold validate_canonical_record_plan, validate_canonical_record_item_count, plan_fits, item_count.
  destruct u. rewrite !bind_unit_ok, !fail_if_ok.
  assert (validate_canonical_record_proof_policy (cp_proof_policy p) = Ok () ↔
          policy_fits (cp_proof_policy p)) as ->.
  { destruct (cp_proof_policy p) as [|? []|]; cbn; try done.
    unfold validate_canonical_record_item_count, item_count. rewrite fail_if_ok. lia. }
  intuition lia.
Qed.

#[export] Instance plan_record_codec :
  Codec decode_continuation_plan plan_fits encode_continuation_plan.
Proof.
  intros r p r' Hr. unfold decode_continuation_plan, encode_continuation_plan, plan_fits. split.
  - intros H. sound_steps. repeat match goal with H : items _ _ |- _ => apply items_always in H end.
    split; [done|]. join_steps.
  - intros [(Hs & Hn & Hp) H]. apply items_always in Hs. apply items_always in Hn.
    split_steps. complete_steps. by destruct p.
Qed.

(** * Records of strategy plans *)

Section correct.
Context `{Sha256}.

Lemma strategy_plan_self p sp : strategy_plan_new p = Ok sp → sp_continuation_plan sp = p.
Proof.
  unfold strategy_plan_new. intros (r & _ & (st & _ & E)%bind_ok)%bind_ok. by apply (inj Ok) in E as <-.
Qed.

Lemma canonical_bytes_ok rec bytes :
  canonical_bytes rec = Ok bytes ↔
    plan_fits (sp_continuation_plan (ar_plan rec)) ∧
    bytes = into_vec (strategy_record_writer (ar_plan rec) writer_new) ∧
    (Z.of_nat (length bytes) <= uval MAX_BLOB_BYTES)%Z.
Proof.
  unfold canonical_bytes. cbv zeta. rewrite !bind_unit_ok, fail_if_ok, record_plan_ok.
  rewrite (inj_iff Ok). split.
  - intros (Hf & Hl & <-). split_and!; [done..|lia].
  - intros (Hf & -> & Hl). split_and!; [done|lia|done].
Qed.

(** C22: Strategy records are strict: [decode_canonical] accepts a buffer exactly
    when it is what [canonical_bytes] writes for a record whose plan is the
    strategy plan of its own continuation plan, and returns that record.  So a
    record with another strategy or commitment than its plan has, trailing
    bytes, an unknown tag or an oversized vector is refused, and a record that
    was written can be read. *)
Theorem strategy_record_decode_iff (bytes : list byte) (rec : RgkProductionAllocationStrategyRecord) :
  strategy_record_decode bytes = Ok rec ↔
    strategy_plan_new (sp_continuation_plan (ar_plan rec)) = Ok (ar_plan rec) ∧
    canonical_bytes rec = Ok bytes.
Proof.
  rewrite canonical_bytes_ok. unfold strategy_record_decode.
  rewrite (assoc (∧)). apply bounded_record_iff; [done|]. unfold strategy_record_writer.
  intros r r' Hr. split.
  - intros Hd. sound_steps.
    match goal with H : ard ensure_consumed _ = _ |- _ => apply ensure_consumed_ok in H as [-> He] end.
    match goal with H : strategy_plan_new _ = Ok _ |- _ =>
      rename H into Hp; pose proof (strategy_plan_self _ _ Hp) as Es end.
    cbn [ar_plan]. rewrite Es. split_and!; [done..| |done]. subst. join_steps.
  - intros ((Hp & Hf) & Hd & He). destruct rec as [sp]. cbn [ar_plan] in *.
    split_steps. complete_steps. unfold ard. rewrite consumed_intro by done.
    rewrite (plift_intro _ _ _ _ Hp). cbn beta. by complete_steps.
Qed.
End correct.
