(* ===== verification/Nft.v ===== *)
(** Non-fungible tokens of the native asset grammar
    (src/crates/rgk-asset/src/native.rs): collections, token ids and
    commitments, mint, transfer, marketplace sale and burn. *)

From stdpp Require Import base list strings.
From Stdlib Require Import ZArith Lia Strings.Byte.
From S2P Require Import Prelude.
From S2P Require Import Bytes.
From S2P Require Import Encoding.
From S2P Require Import Types.
From S2P Require Import Commit.
From S2P Require Import AssetTypes.
From S2P Require Import AssetRules.
From S2P Require Import Asset.

Open Scope string_scope.

Record RgkNftCollectionIdDerivation := {
  nd_chain : KaspaChainId;
  nd_schema_id : RgkSchemaId;
  nd_max_supply : u64;
  nd_issuer_owner_commitment : RgkOwnerCommitment;
  nd_template_commitment : RgkNftTemplateCommitment;
  nd_royalty_policy_commitment : RgkNftPolicyCommitment
}.

Record RgkNftCollectionPolicy := {
  nc_chain : KaspaChainId;
  nc_schema_id : RgkSchemaId;
  nc_collection_id : RgkCollectionId;
  nc_max_supply : u64;
  nc_issuer_owner_commitment : RgkOwnerCommitment;
  nc_template_commitment : RgkNftTemplateCommitment;
  nc_royalty_policy_commitment : RgkNftPolicyCommitment
}.

Record RgkNftTokenSpec := {
  nt_collection : RgkNftCollectionPolicy;
  nt_token_index : u64;
  nt_metadata_commitment : RgkMetadataCommitment;
  nt_owner_commitment : RgkOwnerCommitment
}.

Record RgkNftMintReport := {
  nm_token_id : RgkNftTokenId;
  nm_token_commitment : RgkNftTokenCommitment;
  nm_issue_report : RgkIssueReport
}.

Record RgkNftTransferReport := {
  nx_token_id : RgkNftTokenId;
  nx_token_commitment : RgkNftTokenCommitment;
  nx_transition_report : RgkTransitionReport
}.

Record RgkNftBurnContinuationReport := {
  nbc_token_id : RgkNftTokenId;
  nbc_burned_token_commitment : RgkNftTokenCommitment;
  nbc_continuation_report : RgkContinuationReport
}.

Record RgkNftBurnReport := {
  nb_token_id : RgkNftTokenId;
  nb_burned_token_commitment : RgkNftTokenCommitment;
  nb_transition_report : RgkTransitionReport
}.

Record RgkNftMarketplaceSaleTerms := {
  ns_chain : KaspaChainId;
  ns_collection_id : RgkCollectionId;
  ns_token_id : RgkNftTokenId;
  ns_seller_owner_commitment : RgkOwnerCommitment;
  ns_buyer_owner_commitment : RgkOwnerCommitment;
  ns_payment_asset_id : RgkAssetId;
  ns_price_amount : u64;
  ns_royalty_policy_commitment : RgkNftPolicyCommitment;
  ns_royalty_amount : u64;
  ns_authorization_commitment : Bytes32
}.

Record RgkNftMarketplaceSaleReport := {
  nsr_token_id : RgkNftTokenId;
  nsr_sale_commitment : RgkNftMarketplaceSaleCommitment;
  nsr_token_commitment : RgkNftTokenCommitment;
  nsr_transition_report : RgkTransitionReport
}.

(** The supply and the amount of a token. *)
Definition one : u64 := wrap 64 1.

(** * Checks *)

Definition validate_basic (self : RgkNftMarketplaceSaleTerms) : aresult unit :=
  _ ← reject_zero (ns_collection_id self) AE_ZeroNftCollectionId;
  _ ← reject_zero (ns_token_id self) AE_ZeroNftTokenId;
  _ ← validate_owner_commitment (ns_seller_owner_commitment self) "marketplace-seller";
  _ ← validate_owner_commitment (ns_buyer_owner_commitment self) "marketplace-buyer";
  _ ← fail_if (ns_seller_owner_commitment self = ns_buyer_owner_commitment self)
        AE_NftMarketplaceSelfSale;
  _ ← reject_zero (ns_payment_asset_id self) AE_ZeroNftMarketplacePaymentAsset;
  _ ← fail_if (uval (ns_price_amount self) = 0%Z) AE_ZeroNftMarketplacePrice;
  _ ← reject_zero (ns_royalty_policy_commitment self) AE_ZeroNftPolicyCommitment;
  _ ← fail_if (ns_price_amount self < ns_royalty_amount self)%Z
        (AE_NftMarketplaceRoyaltyExceedsPrice (ns_royalty_amount self) (ns_price_amount self));
  reject_zero (ns_authorization_commitment self) AE_ZeroOwnershipAuthorization.

Definition validate_nft_collection_material (schema_id : RgkSchemaId) (max_supply : u64)
    (issuer_owner_commitment : RgkOwnerCommitment) (template_commitment : RgkNftTemplateCommitment)
    (royalty_policy_commitment : RgkNftPolicyCommitment) : aresult unit :=
  _ ← fail_if (is_zero32 schema_id = true) AE_ZeroSchemaId;
  _ ← fail_if (uval max_supply = 0%Z) AE_ZeroTotalSupply;
  _ ← validate_owner_commitment issuer_owner_commitment "nft-issuer";
  _ ← reject_zero template_commitment AE_ZeroNftTemplateCommitment;
  reject_zero royalty_policy_commitment AE_ZeroNftPolicyCommitment.

Definition collection_validate (self : RgkNftCollectionPolicy) : aresult unit :=
  _ ← validate_nft_collection_material (nc_schema_id self) (nc_max_supply self)
        (nc_issuer_owner_commitment self) (nc_template_commitment self)
        (nc_royalty_policy_commitment self);
  reject_zero (nc_collection_id self) AE_ZeroNftCollectionId.

Definition token_validate (self : RgkNftTokenSpec) : aresult unit :=
  _ ← collection_validate (nt_collection self);
  _ ← fail_if (nc_max_supply (nt_collection self) <= nt_token_index self)%Z
        (AE_NftTokenIndexOutOfRange (nt_token_index self) (nc_max_supply (nt_collection self)));
  _ ← validate_metadata_commitment (nt_metadata_commitment self);
  _ ← validate_owner_commitment (nt_owner_commitment self) "nft-token";
  Ok ().

Definition validate_single_nft_allocation (role : string) (allocations : list RgkAllocation)
  : aresult unit :=
  match allocations with
  | [allocation] =>
      _ ← fail_if (al_amount allocation ≠ one)
            (AE_NftAllocationAmountMismatch role one (al_amount allocation));
      Ok ()
  | _ => Err (AE_NftAllocationShapeMismatch role (length allocations))
  end.

Definition validate_empty_nft_allocations (role : string) (count : nat) : aresult unit :=
  fail_if (count ≠ 0%nat) (AE_NftAllocationShapeMismatch role count).

Definition validate_nft_issue_shape (spec : RgkNftTokenSpec) (issue : RgkAssetIssue)
    (token_id : RgkNftTokenId) : aresult unit :=
  _ ← fail_if (is_chain issue ≠ nc_chain (nt_collection spec))
        (AE_NftChainMismatch (nc_chain (nt_collection spec)) (is_chain issue));
  _ ← fail_if (is_schema_id issue ≠ nc_schema_id (nt_collection spec)) AE_NftSchemaMismatch;
  _ ← fail_if (is_asset_id issue ≠ token_id) AE_NftAssetMismatch;
  _ ← fail_if (is_total_supply issue ≠ one) (AE_NftSupplyMismatch one (is_total_supply issue));
  _ ← fail_if (is_metadata_commitment issue ≠ nt_metadata_commitment spec) AE_NftMetadataMismatch;
  _ ← fail_if (is_owner_commitment issue ≠ nt_owner_commitment spec) (AE_NftOwnerMismatch "issue");
  validate_single_nft_allocation "issue" (is_allocations issue).

Definition validate_nft_transition_shape (spec : RgkNftTokenSpec) (transition : RgkTransition)
    (token_id : RgkNftTokenId) (new_owner_commitment : RgkOwnerCommitment) : aresult unit :=
  _ ← fail_if (tr_chain transition ≠ nc_chain (nt_collection spec))
        (AE_NftChainMismatch (nc_chain (nt_collection spec)) (tr_chain transition));
  _ ← fail_if (tr_schema_id transition ≠ nc_schema_id (nt_collection spec)) AE_NftSchemaMismatch;
  _ ← fail_if (tr_asset_id transition ≠ token_id) AE_NftAssetMismatch;
  _ ← fail_if (tr_total_supply transition ≠ one)
        (AE_NftSupplyMismatch one (tr_total_supply transition));
  _ ← fail_if (tr_metadata_commitment transition ≠ nt_metadata_commitment spec)
        AE_NftMetadataMismatch;
  _ ← fail_if (tr_previous_owner_commitment transition ≠ nt_owner_commitment spec)
        (AE_NftOwnerMismatch "previous");
  _ ← fail_if (tr_new_owner_commitment transition ≠ new_owner_commitment)
        (AE_NftOwnerMismatch "new");
  _ ← fail_if (is_Some (tr_burn transition)) AE_NftUnexpectedBurn;
  _ ← validate_single_nft_allocation "spent" (tr_spent_allocations transition);
  validate_single_nft_allocation "new" (tr_new_allocations transition).

Definition validate_nft_marketplace_sale_terms (spec : RgkNftTokenSpec)
    (sale_terms : RgkNftMarketplaceSaleTerms) (token_id : RgkNftTokenId) : aresult unit :=
  _ ← validate_basic sale_terms;
  _ ← fail_if (ns_chain sale_terms ≠ nc_chain (nt_collection spec))
        (AE_NftChainMismatch (nc_chain (nt_collection spec)) (ns_chain sale_terms));
  _ ← fail_if (ns_collection_id sale_terms ≠ nc_collection_id (nt_collection spec))
        AE_NftMarketplaceCollectionMismatch;
  _ ← fail_if (ns_token_id sale_terms ≠ token_id) AE_NftMarketplaceTokenMismatch;
  _ ← fail_if (ns_seller_owner_commitment sale_terms ≠ nt_owner_commitment spec)
        (AE_NftOwnerMismatch "marketplace-seller");
  _ ← fail_if (ns_royalty_policy_commitment sale_terms
               ≠ nc_royalty_policy_commitment (nt_collection spec))
        AE_NftMarketplaceRoyaltyPolicyMismatch;
  Ok ().

Record RgkNftBurnCommonInput := {
  bi_spec : RgkNftTokenSpec;
  bi_chain : KaspaChainId;
  bi_schema_id : RgkSchemaId;
  bi_asset_id : RgkAssetId;
  bi_total_supply : u64;
  bi_metadata_commitment : RgkMetadataCommitment;
  bi_previous_owner_commitment : RgkOwnerCommitment;
  bi_new_owner_commitment : RgkOwnerCommitment;
  bi_burn : option RgkBurnProof;
  bi_token_id : RgkNftTokenId
}.

Definition validate_nft_burn_common (input : RgkNftBurnCommonInput) : aresult unit :=
  let spec := bi_spec input in
  _ ← fail_if (bi_chain input ≠ nc_chain (nt_collection spec))
        (AE_NftChainMismatch (nc_chain (nt_collection spec)) (bi_chain input));
  _ ← fail_if (bi_schema_id input ≠ nc_schema_id (nt_collection spec)) AE_NftSchemaMismatch;
  _ ← fail_if (bi_asset_id input ≠ bi_token_id input) AE_NftAssetMismatch;
  _ ← fail_if (bi_total_supply input ≠ one) (AE_NftSupplyMismatch one (bi_total_supply input));
  _ ← fail_if (bi_metadata_commitment input ≠ nt_metadata_commitment spec) AE_NftMetadataMismatch;
  _ ← fail_if (bi_previous_owner_commitment input ≠ nt_owner_commitment spec)
        (AE_NftOwnerMismatch "previous");
  _ ← fail_if (bi_new_owner_commitment input ≠ nt_owner_commitment spec)
        (AE_NftOwnerMismatch "burn");
  match bi_burn input with
  | Some proof =>
      if decide (bp_amount proof = one) then Ok ()
      else Err (AE_NftAllocationAmountMismatch "burn" one (bp_amount proof))
  | None => Err (AE_SupplyDeflationWithoutBurn one (wrap 64 0))
  end.

Definition validate_nft_burn_transition_shape (spec : RgkNftTokenSpec) (transition : RgkTransition)
    (token_id : RgkNftTokenId) : aresult unit :=
  _ ← validate_nft_burn_common {|
        bi_spec := spec; bi_chain := tr_chain transition; bi_schema_id := tr_schema_id transition;
        bi_asset_id := tr_asset_id transition; bi_total_supply := tr_total_supply transition;
        bi_metadata_commitment := tr_metadata_commitment transition;
        bi_previous_owner_commitment := tr_previous_owner_commitment transition;
        bi_new_owner_commitment := tr_new_owner_commitment transition;
        bi_burn := tr_burn transition; bi_token_id := token_id |};
  _ ← validate_single_nft_allocation "spent" (tr_spent_allocations transition);
  validate_empty_nft_allocations "burn-new" (length (tr_new_allocations transition)).

Definition validate_nft_burn_continuation_shape (spec : RgkNftTokenSpec) (plan : RgkContinuationPlan)
    (token_id : RgkNftTokenId) : aresult unit :=
  _ ← validate_nft_burn_common {|
        bi_spec := spec; bi_chain := cp_chain plan; bi_schema_id := cp_schema_id plan;
        bi_asset_id := cp_asset_id plan; bi_total_supply := cp_total_supply plan;
        bi_metadata_commitment := cp_metadata_commitment plan;
        bi_previous_owner_commitment := cp_previous_owner_commitment plan;
        bi_new_owner_commitment := cp_new_owner_commitment plan;
        bi_burn := cp_burn plan; bi_token_id := token_id |};
  _ ← validate_single_nft_allocation "spent" (cp_spent_allocations plan);
  validate_empty_nft_allocations "burn-new" (length (cp_new_allocation_shapes plan)).

(** * Operations *)

Section nft.
Context `{Sha256}.

Definition derive_collection_id (input : RgkNftCollectionIdDerivation) : aresult RgkCollectionId :=
  _ ← validate_nft_collection_material (nd_schema_id input) (nd_max_supply input)
        (nd_issuer_owner_commitment input) (nd_template_commitment input)
        (nd_royalty_policy_commitment input);
  let payload :=
    ([chain_as_u8 (nd_chain input)] ++
     nd_schema_id input ++
     u64_le (nd_max_supply input) ++
     nd_issuer_owner_commitment input ++
     nd_template_commitment input ++
     blist (nd_royalty_policy_commitment input))%list in
  Ok (asset_domain_hash "rgk:nft:collection-id:v1" payload).

Definition sale_commitment (self : RgkNftMarketplaceSaleTerms)
  : aresult RgkNftMarketplaceSaleCommitment :=
  _ ← validate_basic self;
  let payload :=
    ([chain_as_u8 (ns_chain self)] ++
     ns_collection_id self ++
     ns_token_id self ++
     ns_seller_owner_commitment self ++
     ns_buyer_owner_commitment self ++
     ns_payment_asset_id self ++
     u64_le (ns_price_amount self) ++
     ns_royalty_policy_commitment self ++
     u64_le (ns_royalty_amount self) ++
     blist (ns_authorization_commitment self))%list in
  Ok (asset_domain_hash "rgk:nft:marketplace-sale:v1" payload).

Definition token_id (self : RgkNftTokenSpec) : aresult RgkNftTokenId :=
  _ ← token_validate self;
  let payload :=
    (nc_collection_id (nt_collection self) ++
     u64_le (nt_token_index self) ++
     nc_template_commitment (nt_collection self) ++
     nc_royalty_policy_commitment (nt_collection self) ++
     blist (nt_metadata_commitment self))%list in
  Ok (asset_domain_hash "rgk:nft:token-id:v1" payload).

Definition token_commitment_for_owner (self : RgkNftTokenSpec)
    (owner_commitment : RgkOwnerCommitment) : aresult RgkNftTokenCommitment :=
  _ ← validate_owner_commitment owner_commitment "nft-token";
  token_id ← token_id self;
  let payload :=
    (nc_collection_id (nt_collection self) ++ blist token_id ++ blist owner_commitment)%list in
  Ok (asset_domain_hash "rgk:nft:token-commitment:v1" payload).

Definition token_commitment (self : RgkNftTokenSpec) : aresult RgkNftTokenCommitment :=
  token_commitment_for_owner self (nt_owner_commitment self).

Definition validate_mint_issue (self : RgkNftTokenSpec) (issue : RgkAssetIssue)
  : aresult RgkNftMintReport :=
  _ ← token_validate self;
  token_id ← token_id self;
  _ ← validate_nft_issue_shape self issue token_id;
  issue_report ← issue_validate issue;
  token_commitment ← token_commitment self;
  Ok {| nm_token_id := token_id; nm_token_commitment := token_commitment;
        nm_issue_report := issue_report |}.

Definition validate_single_token_transfer (self : RgkNftTokenSpec) (transition : RgkTransition)
    (new_owner_commitment : RgkOwnerCommitment) : aresult RgkNftTransferReport :=
  _ ← token_validate self;
  _ ← validate_owner_commitment new_owner_commitment "new-nft-token";
  token_id ← token_id self;
  _ ← validate_nft_transition_shape self transition token_id new_owner_commitment;
  transition_report ← transition_validate transition;
  token_commitment ← token_commitment_for_owner self new_owner_commitment;
  Ok {| nx_token_id := token_id; nx_token_commitment := token_commitment;
        nx_transition_report := transition_report |}.

Definition validate_marketplace_sale_transition (self : RgkNftTokenSpec)
    (transition : RgkTransition) (sale_terms : RgkNftMarketplaceSaleTerms)
  : aresult RgkNftMarketplaceSaleReport :=
  _ ← token_validate self;
  token_id ← token_id self;
  _ ← validate_nft_marketplace_sale_terms self sale_terms token_id;
  _ ← fail_if (tr_ownership_authorization_commitment transition
               ≠ ns_authorization_commitment sale_terms) AE_NftMarketplaceAuthorizationMismatch;
  transfer_report ← validate_single_token_transfer self transition
                      (ns_buyer_owner_commitment sale_terms);
  sale_commitment ← sale_commitment sale_terms;
  Ok {| nsr_token_id := token_id; nsr_sale_commitment := sale_commitment;
        nsr_token_commitment := nx_token_commitment transfer_report;
        nsr_transition_report := nx_transition_report transfer_report |}.

Definition validate_token_burn_continuation (self : RgkNftTokenSpec) (plan : RgkContinuationPlan)
  : aresult RgkNftBurnContinuationReport :=
  _ ← token_validate self;
  token_id ← token_id self;
  _ ← validate_nft_burn_continuation_shape self plan token_id;
  continuation_report ← plan_validate plan;
  token_commitment ← token_commitment self;
  Ok {| nbc_token_id := token_id; nbc_burned_token_commitment := token_commitment;
        nbc_continuation_report := continuation_report |}.

Definition validate_token_burn_transition (self : RgkNftTokenSpec) (transition : RgkTransition)
  : aresult RgkNftBurnReport :=
  _ ← token_validate self;
  token_id ← token_id self;
  _ ← validate_nft_burn_transition_shape self transition token_id;
  transition_report ← transition_validate transition;
  token_commitment ← token_commitment self;
  Ok {| nb_token_id := token_id; nb_burned_token_commitment := token_commitment;
        nb_transition_report := transition_report |}.
End nft.
