(* ===== verification/NftCorrect.v ===== *)
(** What the non-fungible token rules establish: exact acceptance of mint,
    transfer, sale and burn, what token ids and commitments identify, and that
    a token stays one indivisible allocation along its history. *)

From stdpp Require Import base list strings.
From Stdlib Require Import ZArith Lia Strings.Byte.
From S2P Require Import Prelude.
From S2P Require Import Bytes.
From S2P Require Import Encoding.
From S2P Require Import Types.
From S2P Require Import Commit.
From S2P Require Import AssetTypes.
From S2P Require Import AssetRules.
From S2P Require Import Asset.
From S2P Require Import AssetCorrect.
From S2P Require Import Nft.

Open Scope string_scope.

(** * The checks, as predicates *)

Record collection_ok (c : RgkNftCollectionPolicy) : Prop := {
  co_schema : nc_schema_id c ≠ zero32;
  co_supply : (0 < nc_max_supply c)%Z;
  co_issuer : nc_issuer_owner_commitment c ≠ zero32;
  co_template : nc_template_commitment c ≠ zero32;
  co_royalty : nc_royalty_policy_commitment c ≠ zero32;
  co_id : nc_collection_id c ≠ zero32
}.

Record token_ok (s : RgkNftTokenSpec) : Prop := {
  tk_collection : collection_ok (nt_collection s);
  tk_index : (nt_token_index s < nc_max_supply (nt_collection s))%Z;
  tk_metadata : nt_metadata_commitment s ≠ zero32;
  tk_owner : nt_owner_commitment s ≠ zero32
}.

(** The header a token's issue, transition and plan carry. *)
Record token_header (s : RgkNftTokenSpec) (id : Bytes32) (chain : KaspaChainId)
    (schema asset : Bytes32) (supply : u64) (metadata owner : Bytes32) : Prop := {
  th_chain : chain = nc_chain (nt_collection s);
  th_schema : schema = nc_schema_id (nt_collection s);
  th_asset : asset = id;
  th_supply : supply = one;
  th_metadata : metadata = nt_metadata_commitment s;
  th_owner : owner = nt_owner_commitment s
}.

(** One allocation, of one unit. *)
Definition single (l : list RgkAllocation) : Prop := ∃ a, l = [a] ∧ al_amount a = one.

Definition burns_one (b : option RgkBurnProof) : Prop := ∃ p, b = Some p ∧ bp_amount p = one.

Record terms_ok (m : RgkNftMarketplaceSaleTerms) : Prop := {
  mo_collection : ns_collection_id m ≠ zero32;
  mo_token : ns_token_id m ≠ zero32;
  mo_seller : ns_seller_owner_commitment m ≠ zero32;
  mo_buyer : ns_buyer_owner_commitment m ≠ zero32;
  mo_parties : ns_seller_owner_commitment m ≠ ns_buyer_owner_commitment m;
  mo_payment : ns_payment_asset_id m ≠ zero32;
  mo_price : (0 < ns_price_amount m)%Z;
  mo_policy : ns_royalty_policy_commitment m ≠ zero32;
  mo_royalty : (ns_royalty_amount m <= ns_price_amount m)%Z;
  mo_authorization : ns_authorization_commitment m ≠ zero32
}.

Lemma material_ok s (m : u64) i t r u :
  validate_nft_collection_material s m i t r = Ok u ↔
    s ≠ zero32 ∧ (0 < m)%Z ∧ i ≠ zero32 ∧ t ≠ zero32 ∧ r ≠ zero32.
Proof.
  unfold validate_nft_collection_material. pose proof (uint_range m). destruct u.
  rewrite !bind_unit_ok, !fail_if_ok, is_zero32_spec, validate_owner_ok, !reject_zero_ok.
  intuition lia.
Qed.

Lemma token_validate_ok s u : token_validate s = Ok u ↔ token_ok s.
Proof.
  unfold token_validate, collection_validate. destruct u.
  rewrite !bind_unit_ok, material_ok, reject_zero_ok, fail_if_ok, validate_metadata_ok,
    validate_owner_ok. split.
  - intros (((? & ? & ? & ? & ?) & ?) & ? & ? & ? & _). constructor; [by constructor|lia|done..].
  - intros [[] ???]. split_and!; try done. lia.
Qed.

Lemma single_ok role l u : validate_single_nft_allocation role l = Ok u ↔ single l.
Proof.
  unfold validate_single_nft_allocation, single. destruct u, l as [|a [|? ?]]; [naive_solver| |naive_solver].
  rewrite bind_unit_ok, fail_if_neq_ok. split; [|naive_solver]. intros [? _]. by exists a.
Qed.

Lemma empty_ok role {A} (l : list A) u : validate_empty_nft_allocations role (length l) = Ok u ↔ l = [].
Proof.
  unfold validate_empty_nft_allocations. rewrite fail_if_neq_ok. apply length_zero_iff_nil.
Qed.

Lemma issue_shape_ok s i id u :
  validate_nft_issue_shape s i id = Ok u ↔
    token_header s id (is_chain i) (is_schema_id i) (is_asset_id i) (is_total_supply i)
      (is_metadata_commitment i) (is_owner_commitment i) ∧ single (is_allocations i).
Proof.
  unfold validate_nft_issue_shape. destruct u.
  rewrite !bind_unit_ok, !fail_if_neq_ok, single_ok. split.
  - intros (?&?&?&?&?&?&?). split; [by constructor|done].
  - intros [[] ?]. by split_and!.
Qed.

Lemma transition_shape_ok s t id o u :
  validate_nft_transition_shape s t id o = Ok u ↔
    token_header s id (tr_chain t) (tr_schema_id t) (tr_asset_id t) (tr_total_supply t)
      (tr_metadata_commitment t) (tr_previous_owner_commitment t) ∧
    tr_new_owner_commitment t = o ∧ tr_burn t = None ∧
    single (tr_spent_allocations t) ∧ single (tr_new_allocations t).
Proof.
  unfold validate_nft_transition_shape. destruct u.
  rewrite !bind_unit_ok, !fail_if_neq_ok, fail_if_ok, !single_ok, <-eq_None_not_Some. split.
  - intros (?&?&?&?&?&?&?&?&?&?). split; [by constructor|done].
  - intros ([] & ? & ? & ? & ?). by split_and!.
Qed.

Lemma terms_basic_ok m u : validate_basic m = Ok u ↔ terms_ok m.
Proof.
  unfold validate_basic. pose proof (uint_range (ns_price_amount m)). destruct u.
  rewrite !bind_unit_ok, !fail_if_ok, !reject_zero_ok, !validate_owner_ok. split.
  - intros (?&?&?&?&?&?&?&?&?&?). constructor; try done; lia.
  - intros []. split_and!; try done; lia.
Qed.

Record sale_matches (s : RgkNftTokenSpec) (m : RgkNftMarketplaceSaleTerms) (id : Bytes32) : Prop := {
  sm_terms : terms_ok m;
  sm_chain : ns_chain m = nc_chain (nt_collection s);
  sm_collection : ns_collection_id m = nc_collection_id (nt_collection s);
  sm_token : ns_token_id m = id;
  sm_seller : ns_seller_owner_commitment m = nt_owner_commitment s;
  sm_royalty : ns_royalty_policy_commitment m = nc_royalty_policy_commitment (nt_collection s)
}.

Lemma sale_terms_ok s m id u :
  validate_nft_marketplace_sale_terms s m id = Ok u ↔ sale_matches s m id.
Proof.
  unfold validate_nft_marketplace_sale_terms. destruct u.
  rewrite !bind_unit_ok, !fail_if_neq_ok, terms_basic_ok. split.
  - intros (?&?&?&?&?&?&_). by constructor.
  - intros []. by split_and!.
Qed.

Lemma burn_common_ok i u :
  validate_nft_burn_common i = Ok u ↔
    token_header (bi_spec i) (bi_token_id i) (bi_chain i) (bi_schema_id i) (bi_asset_id i)
      (bi_total_supply i) (bi_metadata_commitment i) (bi_previous_owner_commitment i) ∧
    bi_new_owner_commitment i = nt_owner_commitment (bi_spec i) ∧ burns_one (bi_burn i).
Proof.
  unfold validate_nft_burn_common, burns_one. destruct u. cbv zeta.
  rewrite !bind_unit_ok, !fail_if_neq_ok. split.
  - intros (?&?&?&?&?&?&?&Hb). split; [by constructor|]. split; [done|].
    destruct (bi_burn i) as [p|]; [|done]. case_decide; [by exists p|done].
  - intros ([] & ? & p & -> & ?). split_and!; try done. by rewrite decide_True.
Qed.

Lemma burn_transition_shape_ok s t id u :
  validate_nft_burn_transition_shape s t id = Ok u ↔
    token_header s id (tr_chain t) (tr_schema_id t) (tr_asset_id t) (tr_total_supply t)
      (tr_metadata_commitment t) (tr_previous_owner_commitment t) ∧
    tr_new_owner_commitment t = nt_owner_commitment s ∧ burns_one (tr_burn t) ∧
    single (tr_spent_allocations t) ∧ tr_new_allocations t = [].
Proof.
  unfold validate_nft_burn_transition_shape. destruct u.
  rewrite !bind_unit_ok, burn_common_ok, single_ok, empty_ok. cbn. tauto.
Qed.

Lemma burn_plan_shape_ok s p id u :
  validate_nft_burn_continuation_shape s p id = Ok u ↔
    token_header s id (cp_chain p) (cp_schema_id p) (cp_asset_id p) (cp_total_supply p)
      (cp_metadata_commitment p) (cp_previous_owner_commitment p) ∧
    cp_new_owner_commitment p = nt_owner_commitment s ∧ burns_one (cp_burn p) ∧
    single (cp_spent_allocations p) ∧ cp_new_allocation_shapes p = [].
Proof.
  unfold validate_nft_burn_continuation_shape. destruct u.
  rewrite !bind_unit_ok, burn_common_ok, single_ok, empty_ok. cbn. tauto.
Qed.

(** * Identifiers *)

Section correct.
Context `{Sha256}.

Definition token_id_of (s : RgkNftTokenSpec) : RgkNftTokenId :=
  asset_domain_hash "rgk:nft:token-id:v1"
    (nc_collection_id (nt_collection s) ++ u64_le (nt_token_index s) ++
     nc_template_commitment (nt_collection s) ++
     nc_royalty_policy_commitment (nt_collection s) ++ blist (nt_metadata_commitment s))%list.

Definition token_commitment_of (s : RgkNftTokenSpec) (owner : RgkOwnerCommitment)
  : RgkNftTokenCommitment :=
  asset_domain_hash "rgk:nft:token-commitment:v1"
    (nc_collection_id (nt_collection s) ++ blist (token_id_of s) ++ blist owner)%list.

Definition sale_commitment_of (m : RgkNftMarketplaceSaleTerms) : RgkNftMarketplaceSaleCommitment :=
  asset_domain_hash "rgk:nft:marketplace-sale:v1"
    ([chain_as_u8 (ns_chain m)] ++ ns_collection_id m ++ ns_token_id m ++
     ns_seller_owner_commitment m ++ ns_buyer_owner_commitment m ++ ns_payment_asset_id m ++
     u64_le (ns_price_amount m) ++ ns_royalty_policy_commitment m ++
     u64_le (ns_royalty_amount m) ++ blist (ns_authorization_commitment m))%list.

Lemma token_id_ok s id : token_id s = Ok id ↔ token_ok s ∧ id = token_id_of s.
Proof.
  unfold token_id. rewrite bind_unit_ok, token_validate_ok, (inj_iff Ok). naive_solver.
Qed.

Lemma token_commitment_for_owner_ok s o c :
  token_commitment_for_owner s o = Ok c ↔
    o ≠ zero32 ∧ token_ok s ∧ c = token_commitment_of s o.
Proof.
  unfold token_commitment_for_owner. rewrite bind_unit_ok, validate_owner_ok. split.
  - intros (Ho & (id & [Hs ->]%token_id_ok & E)%bind_ok). by apply (inj Ok) in E as <-.
  - intros (Ho & Hs & ->). split; [done|]. apply bind_ok. exists (token_id_of s).
    split; [by apply token_id_ok|done].
Qed.

Lemma token_commitment_ok s c :
  token_commitment s = Ok c ↔ token_ok s ∧ c = token_commitment_of s (nt_owner_commitment s).
Proof.
  unfold token_commitment. rewrite token_commitment_for_owner_ok. split; [naive_solver|].
  intros [Hs ->]. split_and!; [by apply tk_owner|done..].
Qed.

Lemma sale_commitment_ok m c : sale_commitment m = Ok c ↔ terms_ok m ∧ c = sale_commitment_of m.
Proof.
  unfold sale_commitment. rewrite bind_unit_ok, terms_basic_ok, (inj_iff Ok). naive_solver.
Qed.

(** The prefix of all token operations: the spec validates and its id is
    derived. *)
Lemma with_token_id {A} s (k : RgkNftTokenId → aresult A) r :
  (_ ← token_validate s; id ← token_id s; k id) = Ok r ↔ token_ok s ∧ k (token_id_of s) = Ok r.
Proof.
  rewrite bind_unit_ok, token_validate_ok. split.
  - intros (Hs & (id & [_ ->]%token_id_ok & E)%bind_ok). done.
  - intros [Hs E]. split; [done|]. apply bind_ok. exists (token_id_of s).
    split; [by apply token_id_ok|done].
Qed.

(** * Acceptance *)

Definition mint_ok (s : RgkNftTokenSpec) (i : RgkAssetIssue) : Prop :=
  token_header s (token_id_of s) (is_chain i) (is_schema_id i) (is_asset_id i)
    (is_total_supply i) (is_metadata_commitment i) (is_owner_commitment i) ∧
  single (is_allocations i).

Definition transfer_ok (s : RgkNftTokenSpec) (t : RgkTransition) (o : RgkOwnerCommitment) : Prop :=
  token_header s (token_id_of s) (tr_chain t) (tr_schema_id t) (tr_asset_id t)
    (tr_total_supply t) (tr_metadata_commitment t) (tr_previous_owner_commitment t) ∧
  tr_new_owner_commitment t = o ∧ tr_burn t = None ∧
  single (tr_spent_allocations t) ∧ single (tr_new_allocations t).

Definition burn_ok (s : RgkNftTokenSpec) (t : RgkTransition) : Prop :=
  token_header s (token_id_of s) (tr_chain t) (tr_schema_id t) (tr_asset_id t)
    (tr_total_supply t) (tr_metadata_commitment t) (tr_previous_owner_commitment t) ∧
  tr_new_owner_commitment t = nt_owner_commitment s ∧ burns_one (tr_burn t) ∧
  single (tr_spent_allocations t) ∧ tr_new_allocations t = [].

Lemma mint_iff s i r :
  validate_mint_issue s i = Ok r ↔
    token_ok s ∧ mint_ok s i ∧ issue_validate i = Ok (nm_issue_report r) ∧
    nm_token_id r = token_id_of s ∧
    nm_token_commitment r = token_commitment_of s (nt_owner_commitment s).
Proof.
  unfold validate_mint_issue. rewrite with_token_id, bind_unit_ok, issue_shape_ok. split.
  - intros (Hs & Hm & (ir & Hi & (c & [_ ->]%token_commitment_ok & E)%bind_ok)%bind_ok).
    by apply (inj Ok) in E as <-.
  - destruct r as [id c ir]. cbn. intros (Hs & Hm & Hi & -> & ->). split; [done|]. split; [done|].
    apply bind_ok. exists ir. split; [done|]. apply bind_ok. eexists.
    split; [by apply token_commitment_ok|done].
Qed.

Lemma transfer_iff s t o r :
  validate_single_token_transfer s t o = Ok r ↔
    token_ok s ∧ o ≠ zero32 ∧ transfer_ok s t o ∧
    transition_validate t = Ok (nx_transition_report r) ∧
    nx_token_id r = token_id_of s ∧ nx_token_commitment r = token_commitment_of s o.
Proof.
  unfold validate_single_token_transfer. rewrite bind_unit_ok, token_validate_ok, bind_unit_ok,
    validate_owner_ok. split.
  - intros (Hs & Ho & (id & [_ ->]%token_id_ok & E)%bind_ok).
    rewrite bind_unit_ok, transition_shape_ok in E. destruct E as [Ht E].
    apply bind_ok in E as (tr & Hv & (c & (_ & _ & ->)%token_commitment_for_owner_ok & E)%bind_ok).
    by apply (inj Ok) in E as <-.
  - destruct r as [id c tr]. cbn. intros (Hs & Ho & Ht & Hv & -> & ->).
    split; [done|]. split; [done|]. apply bind_ok. exists (token_id_of s).
    split; [by apply token_id_ok|]. rewrite bind_unit_ok, transition_shape_ok. split; [done|].
    apply bind_ok. exists tr. split; [done|]. apply bind_ok. eexists.
    split; [by apply token_commitment_for_owner_ok|done].
Qed.

Lemma burn_transition_iff s t r :
  validate_token_burn_transition s t = Ok r ↔
    token_ok s ∧ burn_ok s t ∧ transition_validate t = Ok (nb_transition_report r) ∧
    nb_token_id r = token_id_of s ∧
    nb_burned_token_commitment r = token_commitment_of s (nt_owner_commitment s).
Proof.
  unfold validate_token_burn_transition.
  rewrite with_token_id, bind_unit_ok, burn_transition_shape_ok. split.
  - intros (Hs & Hm & (tr & Hi & (c & [_ ->]%token_commitment_ok & E)%bind_ok)%bind_ok).
    by apply (inj Ok) in E as <-.
  - destruct r as [id c tr]. cbn. intros (Hs & Hm & Hi & -> & ->). split; [done|]. split; [done|].
    apply bind_ok. exists tr. split; [done|]. apply bind_ok. eexists.
    split; [by apply token_commitment_ok|done].
Qed.

Lemma burn_continuation_iff s p r :
  validate_token_burn_continuation s p = Ok r ↔
    token_ok s ∧
    (token_header s (token_id_of s) (cp_chain p) (cp_schema_id p) (cp_asset_id p)
       (cp_total_supply p) (cp_metadata_commitment p) (cp_previous_owner_commitment p) ∧
     cp_new_owner_commitment p = nt_owner_commitment s ∧ burns_one (cp_burn p) ∧
     single (cp_spent_allocations p) ∧ cp_new_allocation_shapes p = []) ∧
    plan_validate p = Ok (nbc_continuation_report r) ∧
    nbc_token_id r = token_id_of s ∧
    nbc_burned_token_commitment r = token_commitment_of s (nt_owner_commitment s).
Proof.
  unfold validate_token_burn_continuation.
  rewrite with_token_id, bind_unit_ok, burn_plan_shape_ok. split.
  - intros (Hs & Hm & (tr & Hi & (c & [_ ->]%token_commitment_ok & E)%bind_ok)%bind_ok).
    by apply (inj Ok) in E as <-.
  - destruct r as [id c tr]. cbn. intros (Hs & Hm & Hi & -> & ->). split; [done|]. split; [done|].
    apply bind_ok. exists tr. split; [done|]. apply bind_ok. eexists.
    split; [by apply token_commitment_ok|done].
Qed.

(** Fact: A marketplace sale is accepted exactly on its terms:
    [validate_marketplace_sale_transition] succeeds exactly when the token spec
    and the terms are valid (distinct parties, a price, a royalty of at most
    the price, an authorisation), the terms name the token's chain, collection,
    id, owner and royalty policy, the transition carries the terms'
    authorisation, and it is a validated transfer of the one token from the
    seller to the buyer; the report holds the commitment to the terms and the
    token commitment for the buyer. *)
Theorem marketplace_sale_iff s t m r :
  validate_marketplace_sale_transition s t m = Ok r ↔
    token_ok s ∧ sale_matches s m (token_id_of s) ∧
    tr_ownership_authorization_commitment t = ns_authorization_commitment m ∧
    transfer_ok s t (ns_buyer_owner_commitment m) ∧
    transition_validate t = Ok (nsr_transition_report r) ∧
    nsr_token_id r = token_id_of s ∧ nsr_sale_commitment r = sale_commitment_of m ∧
    nsr_token_commitment r = token_commitment_of s (ns_buyer_owner_commitment m).
Proof.
  unfold validate_marketplace_sale_transition.
  rewrite with_token_id, !bind_unit_ok, sale_terms_ok, fail_if_neq_ok. split.
  - intros (Hs & Hm & Ha & (tr & Ht & (c & [_ ->]%sale_commitment_ok & E)%bind_ok)%bind_ok).
    apply transfer_iff in Ht as (_ & _ & Ht & Hv & _ & Ec). by apply (inj Ok) in E as <-.
  - destruct r as [id c tc tr]. cbn. intros (Hs & Hm & Ha & Ht & Hv & -> & -> & ->).
    split_and!; [done..|]. apply bind_ok.
    exists {| nx_token_id := token_id_of s;
              nx_token_commitment := token_commitment_of s (ns_buyer_owner_commitment m);
              nx_transition_report := tr |}. split.
    + apply transfer_iff. split_and!; [done| |done..]. apply (mo_buyer _ (sm_terms _ _ _ Hm)).
    + apply bind_ok. eexists. split; [|done]. apply sale_commitment_ok.
      split; [by eapply sm_terms|done].
Qed.

(** * Histories *)

(** A validated transition out of a token's state spends the one allocation. *)
Lemma unit_state l chain b :
  Forall (allocation_ok chain) l → (0 <= b)%Z → (supply l + b = 1)%Z →
  (b = 0%Z ∧ single l) ∨ (b = 1%Z ∧ l = []).
Proof.
  intros Hl Hb Hsum. destruct l as [|a l]; [right; change (supply []) with 0%Z in Hsum; split; [lia|done]|].
  left. apply Forall_cons in Hl as [Ha Hl]. pose proof (ao_amount _ _ Ha).
  rewrite total_cons in Hsum. pose proof (total_nonneg al_amount l).
  destruct l as [|a' l].
  - change (supply []) with 0%Z in *. split; [lia|]. exists a. split; [done|].
    apply (inj uval). change (uval one) with 1%Z. lia.
  - apply Forall_cons in Hl as [Ha' _]. pose proof (ao_amount _ _ Ha').
    rewrite total_cons in *. pose proof (total_nonneg al_amount l). lia.
Qed.

Lemma minted_state s i rm ts d l o b :
  validate_mint_issue s i = Ok rm → asset_lineage i ts d l o b →
  (lineage_inv i ts d l o b ∧ ((b = 0%Z ∧ single l) ∨ (b = 1%Z ∧ l = []))) ∨
  collision (history_messages i ts).
Proof.
  intros (_ & [Hh _] & _)%mint_iff Hl. apply lineage_invariant in Hl as [Hi|]; [left|by right].
  split; [done|]. destruct Hi as [_ Hsum Hb Hal _ _]. rewrite (th_supply _ _ _ _ _ _ _ _ Hh) in Hsum.
  by eapply unit_state.
Qed.

(** C13: A token is never split or duplicated: in every state reachable from a
    validated mint through validated transitions [ts], whoever builds them, there
    is exactly one allocation, of one unit, and nothing was burned, or the unit
    was burned and there is none; and once it is burned no transition out of that
    state validates.  (Otherwise two different ones of the messages hashed for
    the states of this very history, with that transition in the second part,
    have one digest.) *)
Theorem token_stays_single s i rm ts d l o b :
  validate_mint_issue s i = Ok rm → asset_lineage i ts d l o b →
  (((b = 0%Z ∧ single l) ∨ (b = 1%Z ∧ l = [])) ∨ collision (history_messages i ts)) ∧
  ∀ t, b = 1%Z → tr_previous_state_digest t = d →
    (∀ r, transition_validate t ≠ Ok r) ∨ collision (history_messages i (ts ++ [t])).
Proof.
  intros Hm Hl. pose proof (minted_state _ _ _ _ _ _ _ _ Hm Hl) as Hs.
  split; [destruct Hs as [[_ ?]|]; [by left|by right]|]. intros t Hb Hlink.
  destruct Hs as [[Hi Hst]|]; [|rewrite history_messages_snoc; by_messages].
  destruct (transition_validate t) as [r|e] eqn:Ht; [|by left].
  apply transition_validate_ok in Ht as [Ht _].
  destruct (lineage_spends _ _ _ _ _ _ _ Hi Hlink Ht) as [[(_ & _ & Hperm & _) _]|]; [|by right].
  destruct Hst as [[? _]|[_ ->]]; [lia|]. symmetry in Hperm. apply Permutation_nil in Hperm.
  by destruct (to_nonempty _ Ht).
Qed.

(** Fact: A sale moves the token from its owner to the buyer: when a sale is
    accepted for a transition out of a reachable state of a minted token, the
    owner that state records is the seller of the terms, the spent allocation
    is the state's only one, and the successor state has one allocation of one
    unit under the buyer's owner commitment, authorised by the authorisation of
    the terms.  (Otherwise two of the messages hashed for the states of the
    history and the sale collide.) *)
Theorem sale_transfers_token s i rm ts d l o b s' t m r :
  validate_mint_issue s i = Ok rm → asset_lineage i ts d l o b →
  validate_marketplace_sale_transition s' t m = Ok r →
  tr_previous_state_digest t = d →
  (o = ns_seller_owner_commitment m ∧ b = 0%Z ∧ tr_spent_allocations t ≡ₚ l ∧ single l ∧
   single (tr_new_allocations t) ∧
   tr_ownership_authorization_commitment t = ns_authorization_commitment m ∧
   ns_token_id m = is_asset_id i ∧
   asset_lineage i (ts ++ [t]) (trr_new_state_digest (nsr_transition_report r))
     (tr_new_allocations t) (ns_buyer_owner_commitment m) 0)
  ∨ collision (history_messages i (ts ++ [t])).
Proof.
  intros Hm Hl Hs Hlink. unfold validate_marketplace_sale_transition in Hs.
  rewrite with_token_id, !bind_unit_ok, sale_terms_ok, fail_if_neq_ok in Hs.
  destruct Hs as (_ & Hsm & Ha & (tr & Ht & (c & _ & E)%bind_ok)%bind_ok).
  apply transfer_iff in Ht as (_ & _ & (Hh & Ho & Hnb & Hsp & Hnew) & Hv & _ & _).
  apply (inj Ok) in E as <-. cbn [nsr_transition_report].
  destruct (minted_state _ _ _ _ _ _ _ _ Hm Hl) as [[Hi Hst]|];
    [|rewrite history_messages_snoc; by_messages].
  pose proof Hv as [Hok _]%transition_validate_ok.
  destruct (lineage_spends _ _ _ _ _ _ _ Hi Hlink Hok) as [[(Easset & _ & Hperm & _ & _ & _ & _ & Hown) _]|];
    [left|by right].
  assert (b = 0%Z ∧ single l) as [-> Hsingle].
  { destruct Hst as [|[_ ->]]; [done|]. symmetry in Hperm. apply Permutation_nil in Hperm.
    by destruct (to_nonempty _ Hok). }
  destruct Hh as [_ _ Eid _ _ Eo]. destruct Hsm as [_ _ _ Etok Esell _].
  split_and!; try done.
  - congruence.
  - congruence.
  - pose proof (lineage_step i ts d l o 0 t _ Hl Hlink Hv) as Hl'. by rewrite Hnb, Ho in Hl'.
Qed.

(** Fact: A burn that validates as a plan validates as a transition: finalising
    a plan accepted by [validate_token_burn_continuation] yields a transition
    that [validate_token_burn_transition] accepts with the same token id and
    burned commitment, and leaves no allocation. *)
Theorem burn_plan_realised s p rp w daa depth f :
  validate_token_burn_continuation s p = Ok rp →
  plan_finalize p w daa depth = Ok f →
  validate_token_burn_transition s (fc_transition f) =
    Ok {| nb_token_id := nbc_token_id rp;
          nb_burned_token_commitment := nbc_burned_token_commitment rp;
          nb_transition_report := fc_transition_report f |} ∧
  tr_new_allocations (fc_transition f) = [].
Proof.
  intros (Hs & (Hh & Ho & Hb & Hsp & Hn) & _ & Ei & Ec)%burn_continuation_iff.
  intros (_ & Ht & ->)%plan_finalize_ok. cbn [fc_transition fc_transition_report].
  assert (Hnew : tr_new_allocations (finalize_transition p w daa depth) = []).
  { cbn [tr_new_allocations finalize_transition]. by rewrite Hn. }
  split; [|done]. apply burn_transition_iff. cbn [nb_transition_report nb_token_id
    nb_burned_token_commitment]. split_and!; try done. by apply transition_validate_ok.
Qed.

(** * What the commitments identify *)

(** The messages hashed for the commitment of a token, its id's included, and for
    a sale commitment. *)
Definition token_messages (s : RgkNftTokenSpec) : list (list byte) :=
  [ltac:(message_of (token_commitment_of s (nt_owner_commitment s))); ltac:(message_of (token_id_of s))].
Definition sale_message (m : RgkNftMarketplaceSaleTerms) : list byte :=
  ltac:(message_of (sale_commitment_of m)).
Hint Unfold token_messages : messages.

(** Fact: A token commitment identifies the token and its owner: two tokens with
    one commitment agree in collection id, index, template, royalty policy,
    metadata and owner, or two of the messages hashed for them collide. *)
Theorem token_commitment_identifies s s' c :
  token_commitment s = Ok c → token_commitment s' = Ok c →
  (nc_collection_id (nt_collection s) = nc_collection_id (nt_collection s') ∧
   nt_token_index s = nt_token_index s' ∧
   nc_template_commitment (nt_collection s) = nc_template_commitment (nt_collection s') ∧
   nc_royalty_policy_commitment (nt_collection s) =
     nc_royalty_policy_commitment (nt_collection s') ∧
   nt_metadata_commitment s = nt_metadata_commitment s' ∧
   nt_owner_commitment s = nt_owner_commitment s') ∨ collision (token_messages s ++ token_messages s').
Proof.
  intros [_ ->]%token_commitment_ok [_ E]%token_commitment_ok.
  apply asset_hash_binds in E as [[_ E]|]; [|by_messages|done..].
  peel_bytes E. apply asset_hash_binds in Ef0 as [[_ E']|]; [|by_messages|done..]. left.
  peel_bytes E'. by split_and!.
Qed.

(** Fact: A sale commitment identifies its terms: two valid terms with one sale
    commitment are equal, field by field, or the messages hashed for them
    collide. *)
Theorem sale_commitment_identifies m m' c :
  sale_commitment m = Ok c → sale_commitment m' = Ok c →
  m = m' ∨ collision [sale_message m; sale_message m'].
Proof.
  intros [_ ->]%sale_commitment_ok [_ E]%sale_commitment_ok.
  apply asset_hash_binds in E as [[_ E]|]; [left|by right|done..].
  peel_bytes E. apply chain_as_u8_inj in Ef. destruct m, m'; cbn in *; congruence.
Qed.

Definition with_max_supply (s : RgkNftTokenSpec) (n : u64) : RgkNftTokenSpec := {|
  nt_collection := {|
    nc_chain := nc_chain (nt_collection s); nc_schema_id := nc_schema_id (nt_collection s);
    nc_collection_id := nc_collection_id (nt_collection s); nc_max_supply := n;
    nc_issuer_owner_commitment := nc_issuer_owner_commitment (nt_collection s);
    nc_template_commitment := nc_template_commitment (nt_collection s);
    nc_royalty_policy_commitment := nc_royalty_policy_commitment (nt_collection s) |};
  nt_token_index := nt_token_index s; nt_metadata_commitment := nt_metadata_commitment s;
  nt_owner_commitment := nt_owner_commitment s |}.

(** Fact: The maximum supply of a collection is not bound to its id: a valid token
    spec stays valid, with the same id and commitment, under any other maximum
    supply above its index, and mints the same issues; the collection id is
    never compared with the one [derive_collection_id] gives. *)
Theorem collection_supply_unbound s (n : u64) i :
  (nt_token_index s < n)%Z → token_validate s = Ok () →
  token_id (with_max_supply s n) = token_id s ∧
  token_commitment (with_max_supply s n) = token_commitment s ∧
  validate_mint_issue (with_max_supply s n) i = validate_mint_issue s i.
Proof.
  intros Hn Hs%token_validate_ok.
  assert (Hs' : token_ok (with_max_supply s n)).
  { destruct Hs as [[] ? ? ?]. pose proof (uint_range (nt_token_index s)).
    constructor; [constructor; try done; cbn; lia|done..]. }
  assert (Hid : token_id (with_max_supply s n) = token_id s).
  { rewrite (proj2 (token_id_ok s _)) by done. by apply token_id_ok. }
  assert (Hc : token_commitment (with_max_supply s n) = token_commitment s).
  { rewrite (proj2 (token_commitment_ok s _)) by done. by apply token_commitment_ok. }
  split; [done|]. split; [done|]. unfold validate_mint_issue. rewrite Hid, Hc.
  by rewrite !(proj2 (token_validate_ok _ ())).
Qed.
End correct.
