(* ===== verification/AssetSamples.v ===== *)
(** Concrete inputs of the native asset grammar, on which the witnesses of the
    theorems evaluate the model. *)

From stdpp Require Import base list strings gmap.
From Stdlib Require Import ZArith Lia Strings.Byte.
From S2P Require Import Prelude.
From S2P Require Import Bytes.
From S2P Require Import Encoding.
From S2P Require Import Types.
From S2P Require Import Commit.
From S2P Require Import AssetTypes.
From S2P Require Import AssetRules.
From S2P Require Import Asset.
From S2P Require Import AssetCorrect.
From S2P Require Import CoreSamples.


#[local] Instance sample_sha256 : Sha256 := toy_sha256.

Definition sample_chain : KaspaChainId := KaspaMainnet.

Definition sample_allocation (tx out amount : Z) : RgkAllocation := {|
  al_anchor := {|
    an_chain := sample_chain;
    an_covenant_outpoint := {| transaction_id := b32 tx; index := n32 out |};
    an_covenant_id := b32 77; an_witness_txid := b32 tx; an_daa_score := n64 1000;
    an_confirmation_depth := n64 12 |};
  al_amount := n64 amount;
  al_encrypted_note_commitment := b32 (500 + amount) |}.

Definition sample_policy : RgkProofPolicy := PP_VerifierReceipt (b32 31).

(** An issue of 100 units over two allocations. *)
Definition sample_issue : RgkAssetIssue := {|
  is_chain := sample_chain; is_schema_id := b32 1; is_asset_id := b32 2;
  is_total_supply := n64 100; is_metadata_commitment := b32 3; is_owner_commitment := b32 4;
  is_allocations := [sample_allocation 11 0 60; sample_allocation 11 1 40];
  is_lane_id := b32 5; is_privacy_policy := PrivateLane; is_proof_policy := sample_policy |}.

Definition sample_shape (out amount : Z) : RgkContinuationAllocationShape := {|
  sh_output_index := n32 out; sh_covenant_id := b32 77; sh_amount := n64 amount;
  sh_encrypted_note_commitment := b32 (900 + out) |}.

(** A transfer of everything that burns 10 of the 100 units. *)
Definition sample_plan : RgkContinuationPlan := {|
  cp_chain := sample_chain; cp_schema_id := b32 1; cp_asset_id := b32 2;
  cp_total_supply := n64 100; cp_metadata_commitment := b32 3;
  cp_previous_owner_commitment := b32 4; cp_new_owner_commitment := b32 6;
  cp_ownership_authorization_commitment := b32 8;
  cp_previous_state_digest := issue_digest sample_issue;
  cp_spent_allocations := is_allocations sample_issue;
  cp_new_allocation_shapes := [sample_shape 0 70; sample_shape 1 20];
  cp_burn := Some {| bp_amount := n64 10; bp_authorization_commitment := b32 9 |};
  cp_lane_id := b32 5; cp_privacy_policy := PrivateLane; cp_proof_policy := sample_policy |}.

Definition sample_transition : RgkTransition :=
  finalize_transition sample_plan (b32 12) (n64 1010) (n64 6).

(** The same plan with its shapes listed in the other order. *)
Definition sample_plan_reordered : RgkContinuationPlan :=
  plan_with sample_plan (is_allocations sample_issue) [sample_shape 1 20; sample_shape 0 70].

Lemma sample_lineage :
  asset_lineage sample_issue [] (issue_digest sample_issue) (is_allocations sample_issue) (b32 4) 0.
Proof.
  exact (lineage_issue sample_issue (issue_report_of sample_issue)
           ltac:(vm_compute; reflexivity)).
Defined.

(** * Witnesses *)

Lemma continuation_commitment_identifies_witness :
  plan_validate sample_plan = Ok (plan_report_of sample_plan) ∧
  cr_commitment (plan_report_of sample_plan) = cr_commitment (plan_report_of sample_plan_reordered).
Proof.
  split; [by vm_compute|].
  apply (continuation_commitment_identifies sample_plan sample_plan_reordered); [by vm_compute..|].
  split; [done|]. split; [apply perm_swap|done].
Defined.

Lemma transition_digest_identifies_witness :
  sample_transition = sample_transition ∨
  collision (transition_digest_messages sample_transition ++
             transition_digest_messages sample_transition).
Proof.
  apply (transition_digest_identifies sample_transition sample_transition
           (transition_report_of sample_transition) (transition_report_of sample_transition));
    by vm_compute.
Defined.

(** After the transfer 90 units are held and 10 burned: no two messages of the
    history collide under the sample hash. *)
Lemma asset_lineage_conserves_supply_witness :
  ∃ d l o, asset_lineage sample_issue [sample_transition] d l o 10 ∧ supply l = 90%Z ∧
    (supply l + 10 = is_total_supply sample_issue)%Z.
Proof.
  assert (V : transition_validate sample_transition = Ok (transition_report_of sample_transition))
    by by vm_compute.
  pose proof (lineage_step sample_issue _ _ _ _ _ sample_transition _ sample_lineage eq_refl V) as L.
  eexists _, _, _. split; [exact L|]. split; [by vm_compute|].
  destruct (asset_lineage_conserves_supply _ _ _ _ _ _ L) as [(E & _)|Hc]; [exact E|no_collision Hc].
Defined.

Lemma asset_lineage_step_authorised_witness :
  tr_spent_allocations sample_transition ≡ₚ is_allocations sample_issue.
Proof.
  destruct (asset_lineage_step_authorised _ _ _ _ _ _ sample_transition
    (transition_report_of sample_transition) sample_lineage) as [(?&_)|Hc];
    [by vm_compute|by vm_compute|done|no_collision Hc].
Defined.

Lemma finalize_realises_plan_witness :
  ∃ f, plan_finalize sample_plan (b32 12) (n64 1010) (n64 6) = Ok f ∧
    shape_of <$> tr_new_allocations (fc_transition f) = cp_new_allocation_shapes sample_plan.
Proof.
  eexists {| fc_commitment := cr_commitment (plan_report_of sample_plan);
             fc_transition := sample_transition;
             fc_transition_report := transition_report_of sample_transition |}.
  assert (F : plan_finalize sample_plan (b32 12) (n64 1010) (n64 6) = Ok
    {| fc_commitment := cr_commitment (plan_report_of sample_plan);
       fc_transition := sample_transition;
       fc_transition_report := transition_report_of sample_transition |}) by by vm_compute.
  split; [exact F|].
  destruct (finalize_realises_plan _ _ _ _ _ F) as (r & _ & _ & _ & _ & E & _). exact E.
Defined.

Lemma finalize_succeeds_witness :
  ∃ f, plan_finalize sample_plan (b32 12) (n64 1010) (n64 6) = Ok f.
Proof.
  destruct (finalize_succeeds sample_plan (plan_report_of sample_plan) (b32 12) (n64 1010) (n64 6))
    as [Hf|Hc]; [by vm_compute|by vm_compute|by vm_compute| |exact Hf|no_collision Hc].
  apply (bool_decide_unpack _). by vm_compute.
Defined.
