(* ===== verification/TokenSamples.v ===== *)
(** Concrete production strategies, and a concrete token with its history, on
    which the witnesses of the strategy and token theorems evaluate the model. *)

From stdpp Require Import base list strings gmap.
From Stdlib Require Import ZArith Lia Strings.Byte.
From S2P Require Import Prelude.
From S2P Require Import Bytes.
From S2P Require Import Encoding.
From S2P Require Import Types.
From S2P Require Import Commit.
From S2P Require Import CoreSamples.
From S2P Require Import AssetTypes.
From S2P Require Import AssetRules.
From S2P Require Import Asset.
From S2P Require Import AssetCorrect.
From S2P Require Import AssetStrategy.
From S2P Require Import AssetRecord.
From S2P Require Import Nft.
From S2P Require Import NftCorrect.
From S2P Require Import AssetSamples.

#[local] Instance sample_sha256 : Sha256 := toy_sha256.

(** A split into three outputs, which no fixed vector has. *)
Definition sample_split : RgkContinuationPlan := {|
  cp_chain := sample_chain; cp_schema_id := b32 1; cp_asset_id := b32 2;
  cp_total_supply := n64 100; cp_metadata_commitment := b32 3;
  cp_previous_owner_commitment := b32 4; cp_new_owner_commitment := b32 6;
  cp_ownership_authorization_commitment := b32 8;
  cp_previous_state_digest := issue_digest sample_issue;
  cp_spent_allocations := is_allocations sample_issue;
  cp_new_allocation_shapes := [sample_shape 0 70; sample_shape 1 20; sample_shape 2 10];
  cp_burn := None;
  cp_lane_id := b32 5; cp_privacy_policy := PrivateLane; cp_proof_policy := sample_policy |}.

(** One spent segment, two new ones: two pairs, nine proofs. *)
Example split_strategy :
  strategy_of 2 3 = SegmentedAllocationAudit (n64 2) (n64 1) (n64 2) (n64 2) (n64 9).
Proof. by vm_compute. Qed.

Example record_is_read_back :
  match canonical_bytes {| ar_plan := strategy_plan_of sample_split |} with
  | Ok bytes => strategy_record_decode bytes = Ok {| ar_plan := strategy_plan_of sample_split |}
  | Err _ => False
  end.
Proof. by vm_compute. Qed.

Example record_of_other_strategy_refused :
  strategy_record_decode (into_vec (strategy_record_writer {|
    sp_continuation_plan := sample_plan;
    sp_continuation_report := plan_report_of sample_plan;
    sp_strategy := FixedAllocationVector ThreeInTwoOut;
    sp_strategy_commitment := b32 1 |} writer_new)) =
  Err (AE_ProductionAllocationStrategyRecordMismatch "strategy").
Proof. by vm_compute. Qed.

Lemma segmented_audit_exact_witness :
  segmented_audit_for_report (plan_report_of sample_split) (n64 2) =
    Ok (SegmentedAllocationAudit (n64 2) (n64 1) (n64 2) (n64 2) (n64 9)).
Proof.
  apply (segmented_audit_exact (plan_report_of sample_split) (n64 2)); [done|done|].
  split_and!; by vm_compute.
Defined.

Lemma strategy_plan_total_witness : ∃ sp, strategy_plan_new sample_split = Ok sp.
Proof.
  apply (strategy_plan_total sample_split); [done|done|].
  split; [exists (plan_report_of sample_split); by vm_compute|by left].
Defined.

Lemma strategy_finalize_iff_witness :
  ∃ f, strategy_finalize (strategy_plan_of sample_split) (b32 12) (n64 1010) (n64 6) = Ok f.
Proof.
  set (t := finalize_transition sample_split (b32 12) (n64 1010) (n64 6)).
  exists {| sf_finalized_continuation :=
              {| fc_commitment := cr_commitment (plan_report_of sample_split);
                 fc_transition := t; fc_transition_report := transition_report_of t |};
            sf_strategy := sp_strategy (strategy_plan_of sample_split);
            sf_strategy_commitment := sp_strategy_commitment (strategy_plan_of sample_split) |}.
  apply (strategy_finalize_iff sample_split); [by vm_compute|]. split_and!; by vm_compute.
Defined.

Lemma zk_transfer_iff_witness :
  ∃ zp f, zk_transfer_plan_new sample_plan = Ok zp ∧
    zk_transfer_finalize zp (b32 12) (n64 1010) (n64 6) = Ok f ∧
    zf_allocation_shape f = TwoInTwoOut.
Proof.
  set (zp := {| zp_continuation_plan := sample_plan;
                zp_continuation_report := plan_report_of sample_plan;
                zp_allocation_shape := TwoInTwoOut |}).
  assert (Hz : zk_transfer_plan_new sample_plan = Ok zp).
  { apply (zk_transfer_iff sample_plan zp). split_and!; by vm_compute. }
  exists zp, {| zf_finalized_continuation :=
                  {| fc_commitment := cr_commitment (plan_report_of sample_plan);
                     fc_transition := sample_transition;
                     fc_transition_report := transition_report_of sample_transition |};
                zf_allocation_shape := TwoInTwoOut |}.
  split; [exact Hz|]. split; [|done].
  apply (proj2 (zk_transfer_iff sample_plan zp) Hz). split; by vm_compute.
Defined.

Lemma strategy_commitment_identifies_witness :
  same_plan sample_split sample_split.
Proof.
  destruct (strategy_commitment_identifies sample_split sample_split
    (strategy_plan_of sample_split) (strategy_plan_of sample_split)) as [[Hs _]|Hc];
    [by vm_compute|by vm_compute|done|exact Hs|no_collision Hc].
Defined.

Definition sample_collection : RgkNftCollectionPolicy := {|
  nc_chain := sample_chain; nc_schema_id := b32 1; nc_collection_id := b32 300;
  nc_max_supply := n64 10; nc_issuer_owner_commitment := b32 301;
  nc_template_commitment := b32 302; nc_royalty_policy_commitment := b32 303 |}.

Definition sample_token : RgkNftTokenSpec := {|
  nt_collection := sample_collection; nt_token_index := n64 7;
  nt_metadata_commitment := b32 3; nt_owner_commitment := b32 4 |}.

Definition sample_mint : RgkAssetIssue := {|
  is_chain := sample_chain; is_schema_id := b32 1; is_asset_id := token_id_of sample_token;
  is_total_supply := one; is_metadata_commitment := b32 3; is_owner_commitment := b32 4;
  is_allocations := [sample_allocation 11 0 1];
  is_lane_id := b32 5; is_privacy_policy := PrivateLane; is_proof_policy := sample_policy |}.

Definition mint_report : RgkNftMintReport := {|
  nm_token_id := token_id_of sample_token;
  nm_token_commitment := token_commitment_of sample_token (b32 4);
  nm_issue_report := issue_report_of sample_mint |}.

Definition sample_terms : RgkNftMarketplaceSaleTerms := {|
  ns_chain := sample_chain; ns_collection_id := b32 300; ns_token_id := token_id_of sample_token;
  ns_seller_owner_commitment := b32 4; ns_buyer_owner_commitment := b32 6;
  ns_payment_asset_id := b32 2; ns_price_amount := n64 50;
  ns_royalty_policy_commitment := b32 303; ns_royalty_amount := n64 5;
  ns_authorization_commitment := b32 8 |}.

Definition token_plan (new_owner : Z) (shapes : list RgkContinuationAllocationShape)
    (burn : option RgkBurnProof) : RgkContinuationPlan := {|
  cp_chain := sample_chain; cp_schema_id := b32 1; cp_asset_id := token_id_of sample_token;
  cp_total_supply := one; cp_metadata_commitment := b32 3;
  cp_previous_owner_commitment := b32 4; cp_new_owner_commitment := b32 new_owner;
  cp_ownership_authorization_commitment := b32 8;
  cp_previous_state_digest := issue_digest sample_mint;
  cp_spent_allocations := is_allocations sample_mint;
  cp_new_allocation_shapes := shapes; cp_burn := burn;
  cp_lane_id := b32 5; cp_privacy_policy := PrivateLane; cp_proof_policy := sample_policy |}.

Definition sale_transition : RgkTransition :=
  finalize_transition (token_plan 6 [sample_shape 0 1] None) (b32 12) (n64 1010) (n64 6).

Definition sale_report : RgkNftMarketplaceSaleReport := {|
  nsr_token_id := token_id_of sample_token; nsr_sale_commitment := sale_commitment_of sample_terms;
  nsr_token_commitment := token_commitment_of sample_token (b32 6);
  nsr_transition_report := transition_report_of sale_transition |}.

Definition burn_plan : RgkContinuationPlan :=
  token_plan 4 [] (Some {| bp_amount := one; bp_authorization_commitment := b32 9 |}).
Definition burn_transition : RgkTransition :=
  finalize_transition burn_plan (b32 12) (n64 1010) (n64 6).

Lemma sample_minted : validate_mint_issue sample_token sample_mint = Ok mint_report.
Proof. by vm_compute. Qed.

Lemma minted_lineage :
  asset_lineage sample_mint [] (issue_digest sample_mint) (is_allocations sample_mint) (b32 4) 0.
Proof.
  exact (lineage_issue sample_mint (issue_report_of sample_mint) ltac:(vm_compute; reflexivity)).
Qed.

Example sale_accepted :
  validate_marketplace_sale_transition sample_token sale_transition sample_terms = Ok sale_report.
Proof. by vm_compute. Qed.

Example sale_to_self_refused :
  validate_basic {|
    ns_chain := sample_chain; ns_collection_id := b32 300; ns_token_id := b32 1;
    ns_seller_owner_commitment := b32 4; ns_buyer_owner_commitment := b32 4;
    ns_payment_asset_id := b32 2; ns_price_amount := n64 50;
    ns_royalty_policy_commitment := b32 303; ns_royalty_amount := n64 5;
    ns_authorization_commitment := b32 8 |} = Err AE_NftMarketplaceSelfSale.
Proof. by vm_compute. Qed.

(** Minted, then sold: one allocation of one unit, under the buyer. *)
Lemma token_stays_single_witness :
  ∃ d, asset_lineage sample_mint [sale_transition] d (tr_new_allocations sale_transition)
         (tr_new_owner_commitment sale_transition) 0 ∧
    single (tr_new_allocations sale_transition).
Proof.
  assert (V : transition_validate sale_transition = Ok (transition_report_of sale_transition))
    by by vm_compute.
  pose proof (lineage_step sample_mint _ _ _ _ _ sale_transition _ minted_lineage eq_refl V) as L.
  eexists. split; [exact L|].
  destruct (token_stays_single sample_token sample_mint mint_report _ _ _ _ _
    sample_minted L) as [[[[_ Hs]|[Hb _]]|Hc] _]; [exact Hs|discriminate Hb|no_collision Hc].
Defined.

Lemma sale_transfers_token_witness : single (tr_new_allocations sale_transition).
Proof.
  destruct (sale_transfers_token sample_token sample_mint mint_report _ _ _ _ _ sample_token
    sale_transition sample_terms sale_report sample_minted minted_lineage) as [Hs|Hc];
    [by vm_compute|by vm_compute|apply Hs|no_collision Hc].
Defined.

Lemma burn_plan_realised_witness :
  ∃ r, validate_token_burn_transition sample_token burn_transition = Ok r ∧
       tr_new_allocations burn_transition = [].
Proof.
  destruct (burn_plan_realised sample_token burn_plan
    {| nbc_token_id := token_id_of sample_token;
       nbc_burned_token_commitment := token_commitment_of sample_token (b32 4);
       nbc_continuation_report := plan_report_of burn_plan |} (b32 12) (n64 1010) (n64 6)
    {| fc_commitment := cr_commitment (plan_report_of burn_plan);
       fc_transition := burn_transition;
       fc_transition_report := transition_report_of burn_transition |}) as [Hv Hn];
    [by vm_compute|by vm_compute|eexists; split; [exact Hv|exact Hn]].
Defined.

Lemma token_commitment_identifies_witness :
  nt_token_index sample_token = n64 7.
Proof.
  destruct (token_commitment_identifies sample_token sample_token
    (token_commitment_of sample_token (b32 4))) as [_|Hc];
    [by vm_compute|by vm_compute|done|no_collision Hc].
Defined.

Lemma sale_commitment_identifies_witness :
  sample_terms = sample_terms ∨ collision [sale_message sample_terms; sale_message sample_terms].
Proof.
  apply (sale_commitment_identifies sample_terms sample_terms (sale_commitment_of sample_terms));
    by vm_compute.
Defined.

Lemma collection_supply_unbound_witness :
  token_id (with_max_supply sample_token (n64 1000)) = token_id sample_token.
Proof.
  destruct (collection_supply_unbound sample_token (n64 1000) sample_mint) as [E _];
    [by vm_compute|by vm_compute|exact E].
Defined.
