(* ===== verification/Lane.v ===== *)
(** Private lanes and streamed transcripts of the native asset grammar
    (src/crates/rgk-asset/src/native.rs): blinded lane ids, scan tags,
    nullifiers, lane states, and the roots that are extended one segment at a
    time. *)

From stdpp Require Import base list strings.
From Stdlib Require Import ZArith Lia Strings.Byte.
From S2P Require Import Prelude.
From S2P Require Import Bytes.
From S2P Require Import Encoding.
From S2P Require Import Types.
From S2P Require Import Commit.
From S2P Require Import AssetTypes.
From S2P Require Import AssetRules.
From S2P Require Import CoreSamples.
From S2P Require Import AssetSamples.

Open Scope list_scope.

Inductive RgkAllocationTranscriptSide : Type := Spent | New.

Definition side_as_u8 (side : RgkAllocationTranscriptSide) : u8 :=
  match side with Spent => x00 | New => x01 end.

Record RgkLane := {
  la_lane_id : BlindedLaneId;
  la_privacy_policy : LanePrivacyPolicy
}.

Record RgkLaneState := {
  ls_lane_id : BlindedLaneId;
  ls_epoch : u64;
  ls_state_digest : RgkStateDigest;
  ls_receipt_commitment : RgkReceiptCommitment;
  ls_nullifier : RgkNullifier;
  ls_scan_tag : option RgkScanTag;
  ls_policy_commitment : RgkPolicyCommitment
}.

Record RgkLaneStateInput := {
  li_lane_id : BlindedLaneId;
  li_epoch : u64;
  li_state_digest : RgkStateDigest;
  li_receipt_commitment : RgkReceiptCommitment;
  li_spend_secret : Bytes32;
  li_anchor : RgkCovenantAnchor;
  li_view_key : option Bytes32;
  li_policy_commitment : RgkPolicyCommitment
}.

Record RgkLaneGraphNode := {
  gn_lane_id : BlindedLaneId;
  gn_scan_tag : RgkScanTag;
  gn_epoch : u64
}.

Section lanes.
Context `{Sha256}.

(** [RgkScanTag::derive] *)
Definition derive_scan_tag (view_key : Bytes32) (lane_id : BlindedLaneId) (epoch : u64)
  : RgkScanTag :=
  let payload := view_key ++ lane_id ++ u64_le epoch in
  asset_domain_hash "rgk:lane:scan-tag:v1" payload.

(** [RgkNullifier::derive] *)
Definition derive_nullifier (spend_secret : Bytes32) (anchor : RgkCovenantAnchor)
  : RgkNullifier :=
  let payload :=
    spend_secret ++ transaction_id (an_covenant_outpoint anchor) ++
    u32_le (index (an_covenant_outpoint anchor)) ++ an_covenant_id anchor in
  asset_domain_hash "rgk:lane:nullifier:v1" payload.

Definition derive_blinded_lane_id (view_key : Bytes32) (asset_id : RgkAssetId) (epoch : u64)
  : BlindedLaneId :=
  let payload := view_key ++ asset_id ++ u64_le epoch in
  asset_domain_hash "rgk:lane:blinded-id:v1" payload.

Definition discover_lane (view_key : Bytes32) (asset_id : RgkAssetId) (epoch : u64)
    (candidate : BlindedLaneId) : bool :=
  bool_decide (derive_blinded_lane_id view_key asset_id epoch = candidate).

(** [RgkLaneState::new] *)
Definition lane_state_new (input : RgkLaneStateInput) : RgkLaneState :=
  let nullifier := derive_nullifier (li_spend_secret input) (li_anchor input) in
  let scan_tag := (λ key, derive_scan_tag key (li_lane_id input) (li_epoch input))
                  <$> li_view_key input in
  {| ls_lane_id := li_lane_id input;
     ls_epoch := li_epoch input;
     ls_state_digest := li_state_digest input;
     ls_receipt_commitment := li_receipt_commitment input;
     ls_nullifier := nullifier;
     ls_scan_tag := scan_tag;
     ls_policy_commitment := li_policy_commitment input |}.

Definition public_observer_commitment (self : RgkLaneState) : Bytes32 :=
  let payload :=
    ls_lane_id self ++
    u64_le (ls_epoch self) ++
    ls_state_digest self ++
    ls_receipt_commitment self ++
    ls_nullifier self ++
    ls_policy_commitment self ++
    match ls_scan_tag self with Some tag => blist tag | None => [] end in
  asset_domain_hash "rgk:lane:observer-commitment:v1" payload.

(** [RgkLaneGraphNode::from_private] *)
Definition node_from_private (view_key : Bytes32) (asset_id : RgkAssetId) (epoch : u64)
  : RgkLaneGraphNode :=
  let lane_id := derive_blinded_lane_id view_key asset_id epoch in
  let scan_tag := derive_scan_tag view_key lane_id epoch in
  {| gn_lane_id := lane_id; gn_scan_tag := scan_tag; gn_epoch := epoch |}.

(** The loop body the two lane-graph roots share. *)
Definition encode_node (node : RgkLaneGraphNode) : list byte :=
  gn_lane_id node ++ gn_scan_tag node ++ u64_le (gn_epoch node).

Definition derive_private_lane_graph_root (nodes : list RgkLaneGraphNode) : Bytes32 :=
  let payload := u64_le (len_u64 nodes) ++ concat (encode_node <$> nodes) in
  asset_domain_hash "rgk:lane:graph-root:v1" payload.

Definition private_lane_graph_empty_root : Bytes32 :=
  asset_domain_hash "rgk:lane:graph-empty-root:v1" [].

Definition extend_private_lane_graph_root (previous_root : Bytes32) (segment_index : u64)
    (nodes : list RgkLaneGraphNode) : Bytes32 :=
  let payload :=
    previous_root ++ u64_le segment_index ++ u64_le (len_u64 nodes) ++
    concat (encode_node <$> nodes) in
  asset_domain_hash "rgk:lane:graph-segment-root:v1" payload.

Definition allocation_transcript_empty_root (side : RgkAllocationTranscriptSide) : Bytes32 :=
  asset_domain_hash "rgk:asset:allocation-transcript-empty-root:v1" [side_as_u8 side].

Definition extend_allocation_transcript_root (previous_root : Bytes32)
    (side : RgkAllocationTranscriptSide) (segment_index total_count : u64)
    (allocations : list RgkAllocation) : Bytes32 :=
  let ordered := sort_by_key allocation_key allocations in
  let payload :=
    previous_root ++ [side_as_u8 side] ++ u64_le segment_index ++ u64_le total_count ++
    u64_le (len_u64 ordered) ++ concat (encode_allocation <$> ordered) in
  asset_domain_hash "rgk:asset:allocation-transcript-segment-root:v1" payload.

Definition allocation_transcript_amount_commitment (side : RgkAllocationTranscriptSide)
    (segment_index total_count segment_amount : u64) (amount_blinding : Bytes32) : Bytes32 :=
  let payload :=
    [side_as_u8 side] ++ u64_le segment_index ++ u64_le total_count ++
    u64_le segment_amount ++ amount_blinding in
  asset_domain_hash "rgk:asset:allocation-transcript-amount:v1" payload.
End lanes.

(** * Streamed roots

    A root is built by extending the empty root with one segment after the
    other.  What a chained hash binds is the same argument for both uses, so it
    is made once, over the function that extends a root and the message it
    hashes. *)

(** The messages of the extensions of [r] by [l]. *)
Fixpoint chain_messages {X} (message : Bytes32 → X → list byte) (extend : Bytes32 → X → Bytes32)
    (r : Bytes32) (l : list X) : list (list byte) :=
  match l with
  | [] => []
  | x :: l' => message r x :: chain_messages message extend (extend r x) l'
  end.

Lemma chain_messages_snoc {X} message extend (r : Bytes32) (l : list X) x :
  chain_messages message extend r (l ++ [x])%list =
    (chain_messages message extend r l ++ [message (foldl extend r l) x])%list.
Proof. revert r. induction l as [|y l IH]; intros r; [done|]. cbn. by rewrite IH. Qed.

Section chained.
Context `{Sha256} {X : Type} (R : X → X → Prop) (extend extend' : Bytes32 → X → Bytes32)
  (message message' : Bytes32 → X → list byte) (m m' : list byte).

(** [m] and [m'] are the messages of the roots [e] and [e']. *)
Lemma foldl_binds (e e' : Bytes32) :
  (∀ r x r' x', extend r x = extend' r' x' →
     (r = r' ∧ R x x') ∨ collision [message r x; message' r' x']) →
  (∀ r x, e = extend' r x → collision [m; message' r x]) →
  (∀ r x, extend r x = e' → collision [message r x; m']) →
  ∀ l k, foldl extend e l = foldl extend' e' k →
    (e = e' ∧ Forall2 R l k) ∨
    collision ((m :: chain_messages message extend e l) ++ (m' :: chain_messages message' extend' e' k)).
Proof.
  intros Hext He He'. induction l as [|x l IH] using rev_ind; intros k.
  - destruct k as [|y k _] using rev_ind; [by left|].
    rewrite foldl_snoc, chain_messages_snoc. intros E. apply He in E. by_messages.
  - destruct k as [|y k _] using rev_ind; rewrite !foldl_snoc, !chain_messages_snoc.
    + intros E. apply He' in E. by_messages.
    + intros E. apply Hext in E as [[E Hxy]|]; [|by_messages].
      apply IH in E as [[-> Hl]|]; [left|by_messages].
      split; [done|]. apply Forall2_app; [done|by constructor].
Qed.
End chained.

(** Numbering the segments [0, 1, ..] as a prover that streams them does. *)
Definition numbered {X} (l : list X) : list (u64 * X) :=
  imap (λ i x, (wrap 64 (Z.of_nat i), x)) l.

Lemma numbered_snd {X} (l : list X) : snd <$> numbered l = l.
Proof.
  unfold numbered. rewrite fmap_imap.
  transitivity (id <$> l); [|apply list_fmap_id]. rewrite <-imap_const. by apply imap_ext.
Qed.

Lemma Forall2_numbered {X} (P : X → X → Prop) l k :
  Forall2 (λ s t, P s.2 t.2) (numbered l) (numbered k) → Forall2 P l k.
Proof.
  intros E. rewrite <-(numbered_snd l), <-(numbered_snd k). by apply Forall2_fmap_2.
Qed.

Lemma encode_node_inj a b : encode_node a = encode_node b → a = b.
Proof.
  unfold encode_node. intros E. peel_bytes E. apply u64_le_inj in E.
  destruct a, b. cbn in *. congruence.
Qed.

Lemma encode_node_length a : length (encode_node a) = 72%nat.
Proof. unfold encode_node. by rewrite !length_app, !bytes_length, u64_le_length. Qed.

Lemma side_as_u8_inj s s' : side_as_u8 s = side_as_u8 s' → s = s'.
Proof. by destruct s, s'. Qed.

Section binding.
Context `{Sha256}.

(** The root of a transcript streamed in segments, from the empty root. *)
Definition transcript_root (side : RgkAllocationTranscriptSide) (total_count : u64)
    (segments : list (list RgkAllocation)) : Bytes32 :=
  foldl (λ r s, extend_allocation_transcript_root r side s.1 total_count s.2)
    (allocation_transcript_empty_root side) (numbered segments).

Definition lane_graph_root (segments : list (list RgkLaneGraphNode)) : Bytes32 :=
  foldl (λ r s, extend_private_lane_graph_root r s.1 s.2)
    private_lane_graph_empty_root (numbered segments).

(** The messages behind these roots, that of the empty root first. *)
Definition transcript_message (r : Bytes32) side i t (l : list RgkAllocation) : list byte :=
  ltac:(message_of (extend_allocation_transcript_root r side i t l)).
Definition transcript_empty_message side : list byte :=
  ltac:(message_of (allocation_transcript_empty_root side)).
Definition transcript_messages side (total_count : u64) (segments : list (list RgkAllocation))
  : list (list byte) :=
  transcript_empty_message side ::
  chain_messages (λ r s, transcript_message r side s.1 total_count s.2)
    (λ r s, extend_allocation_transcript_root r side s.1 total_count s.2)
    (allocation_transcript_empty_root side) (numbered segments).

Definition graph_message (r : Bytes32) i (l : list RgkLaneGraphNode) : list byte :=
  ltac:(message_of (extend_private_lane_graph_root r i l)).
Definition graph_messages (segments : list (list RgkLaneGraphNode)) : list (list byte) :=
  ltac:(message_of private_lane_graph_empty_root) ::
  chain_messages (λ r s, graph_message r s.1 s.2) (λ r s, extend_private_lane_graph_root r s.1 s.2)
    private_lane_graph_empty_root (numbered segments).

Lemma extend_transcript_binds r side i t l r' side' i' t' l' :
  extend_allocation_transcript_root r side i t l =
    extend_allocation_transcript_root r' side' i' t' l' →
  (r = r' ∧ side = side' ∧ i = i' ∧ t = t' ∧ l ≡ₚ l') ∨
  collision [transcript_message r side i t l; transcript_message r' side' i' t' l'].
Proof.
  intros E. apply asset_hash_binds in E as [[_ E]|]; [left|by right|done..].
  peel_bytes E. apply side_as_u8_inj in Ef0.
  apply (concat_fixed_inj encode_allocation 156) in E;
    [|apply encode_allocation_length|apply encode_allocation_inj].
  split_and!; [done..|].
  by rewrite <-(sort_by_key_perm allocation_key l), E, sort_by_key_perm.
Qed.

Lemma extend_lane_graph_binds r i l r' i' l' :
  extend_private_lane_graph_root r i l = extend_private_lane_graph_root r' i' l' →
  (r = r' ∧ i = i' ∧ l = l') ∨ collision [graph_message r i l; graph_message r' i' l'].
Proof.
  intros E. apply asset_hash_binds in E as [[_ E]|]; [left|by right|done..].
  peel_bytes E. split_and!; [done..|].
  apply (concat_fixed_inj encode_node 71) in E; [done|..].
  - apply encode_node_length.
  - apply encode_node_inj.
Qed.

(** Roots of different domains never coincide. *)
Lemma domains_differ d1 p1 d2 p2 :
  (Z.of_nat (length (as_bytes d1)) < 2 ^ 32)%Z → (Z.of_nat (length (as_bytes d2)) < 2 ^ 32)%Z →
  d1 ≠ d2 → asset_domain_hash d1 p1 = asset_domain_hash d2 p2 →
  collision [domain_preimage d1 p1; domain_preimage d2 p2].
Proof. intros H1 H2 Hd E. by apply asset_hash_binds in E as [[? _]|]. Qed.

(** Fact: the root of a streamed allocation transcript commits to the side, the
    segments in order (each as a set of allocations) and the declared total:
    two different transcripts with one root have two messages, among those
    hashed on the way to it, that collide. *)
Theorem transcript_root_binds side side' t t' l l' :
  transcript_root side t l = transcript_root side' t' l' →
  (side = side' ∧ (l ≠ [] → t = t') ∧ Forall2 Permutation l l') ∨
  collision (transcript_messages side t l ++ transcript_messages side' t' l').
Proof.
  intros E. unfold transcript_messages.
  apply (foldl_binds (λ s s', t = t' ∧ s.2 ≡ₚ s'.2) _ _
    (λ r s, transcript_message r side s.1 t s.2) (λ r s, transcript_message r side' s.1 t' s.2)
    (transcript_empty_message side) (transcript_empty_message side')) in E as [[Ee E]|]; [|by right|..].
  - apply asset_hash_binds in Ee as [[_ Ee]|]; [|by_messages|done..].
    apply cons_byte_inj in Ee as [Ee _]. apply side_as_u8_inj in Ee. left.
    split_and!; [done| |].
    + intros Hl. destruct l, l'; cbn in E; [done|done|by inversion E|].
      inversion E as [|???? [] ]. done.
    + apply Forall2_numbered. eapply Forall2_impl; [done|]. by intros ?? [].
  - intros r [i x] r' [i' x'] Hx. apply extend_transcript_binds in Hx as [|]; [left|by right].
    naive_solver.
  - intros r x Hx. by eapply domains_differ, Hx.
  - intros r x Hx. by eapply domains_differ, Hx.
Qed.

(** Fact: the root of a streamed lane graph commits to its segments and their
    nodes, in order. *)
Theorem lane_graph_root_binds l l' :
  lane_graph_root l = lane_graph_root l' → l = l' ∨ collision (graph_messages l ++ graph_messages l').
Proof.
  intros E. unfold graph_messages.
  eapply (foldl_binds (λ s s', s.2 = s'.2) _ _ (λ r s, graph_message r s.1 s.2)
    (λ r s, graph_message r s.1 s.2)) in E as [[_ E]|]; [|by right; eassumption|..].
  - left. by apply Forall2_numbered, list_eq_Forall2 in E.
  - intros r [i x] r' [i' x'] Hx. apply extend_lane_graph_binds in Hx as [|]; [left|by right].
    naive_solver.
  - intros r x Hx. by eapply domains_differ, Hx.
  - intros r x Hx. by eapply domains_differ, Hx.
Qed.

Definition nullifier_message (i : RgkLaneStateInput) : list byte :=
  ltac:(message_of (ls_nullifier (lane_state_new i))).
Definition lane_id_message (vk asset : Bytes32) (epoch : u64) : list byte :=
  ltac:(message_of (derive_blinded_lane_id vk asset epoch)).

(** Fact: a nullifier identifies the spend secret and the covenant outpoint: two
    lane states with one nullifier spend the same outpoint with the same
    secret, wherever their epoch, lane or view key differ, so a set of seen
    nullifiers refuses a second spend and no first one (unless the messages
    hashed for the two collide). *)
Theorem nullifier_identifies_spend i j :
  ls_nullifier (lane_state_new i) = ls_nullifier (lane_state_new j) →
  (li_spend_secret i = li_spend_secret j ∧
   an_covenant_outpoint (li_anchor i) = an_covenant_outpoint (li_anchor j) ∧
   an_covenant_id (li_anchor i) = an_covenant_id (li_anchor j)) ∨
  collision [nullifier_message i; nullifier_message j].
Proof.
  intros E. apply asset_hash_binds in E as [[_ E]|]; [left|by right|done..].
  peel_bytes E. destruct (an_covenant_outpoint (li_anchor i)),
    (an_covenant_outpoint (li_anchor j)). cbn in *. split_and!; congruence.
Qed.

(** Fact: a holder of the view key finds the lane it opened, and what it finds
    is one of its own: another key, asset or epoch that discovers the same
    lane id has a message that collides with the holder's. *)
Theorem discovery_sound_complete vk asset epoch vk' asset' epoch' :
  discover_lane vk asset epoch (gn_lane_id (node_from_private vk' asset' epoch')) = true ↔
    (vk = vk' ∧ asset = asset' ∧ epoch = epoch') ∨
    collision [lane_id_message vk asset epoch; lane_id_message vk' asset' epoch'].
Proof.
  unfold discover_lane. rewrite bool_decide_eq_true. cbn. split.
  - intros E. pose proof E as E'.
    apply asset_hash_binds in E as [[_ E]|]; [left|by right|done..].
    peel_bytes E. apply u64_le_inj in E. done.
  - intros [(-> & -> & ->)|(x & y & Hx & Hy & Hne & E)]; [done|].
    rewrite !elem_of_cons, list.elem_of_nil in Hx, Hy.
    destruct Hx as [->|[->|[]]], Hy as [->|[->|[]]]; done.
Qed.
End binding.

(** * Concrete inputs *)

Definition sample_node (k : Z) : RgkLaneGraphNode :=
  @node_from_private toy_sha256 (b32 k) (b32 2) (n64 k).

Definition sample_lane_input (epoch : Z) : RgkLaneStateInput := {|
  li_lane_id := b32 5; li_epoch := n64 epoch; li_state_digest := b32 6;
  li_receipt_commitment := b32 7; li_spend_secret := b32 8;
  li_anchor := al_anchor (sample_allocation 11 0 60); li_view_key := Some (b32 9);
  li_policy_commitment := b32 10 |}.

(** Two orders of one segment have one root; the theorem then gives that they
    hold the same allocations. *)
Lemma transcript_root_binds_witness :
  let l := [[sample_allocation 11 0 60; sample_allocation 11 1 40]; [sample_allocation 12 0 5]] in
  let l' := [[sample_allocation 11 1 40; sample_allocation 11 0 60]; [sample_allocation 12 0 5]] in
  @transcript_root toy_sha256 New (n64 3) l = @transcript_root toy_sha256 New (n64 3) l' ∧
  Forall2 Permutation l l'.
Proof.
  intros l l'.
  assert (E : @transcript_root toy_sha256 New (n64 3) l = @transcript_root toy_sha256 New (n64 3) l')
    by (vm_compute; reflexivity).
  split; [exact E|].
  destruct (@transcript_root_binds toy_sha256 New New (n64 3) (n64 3) l l' E) as [(_ & _ & Hp)|Hc];
    [exact Hp|no_collision Hc].
Defined.

Lemma lane_graph_root_binds_witness :
  let l := [[sample_node 1; sample_node 2]; [sample_node 3]] in
  l = l ∨ @collision toy_sha256 (@graph_messages toy_sha256 l ++ @graph_messages toy_sha256 l).
Proof. intros l. exact (@lane_graph_root_binds toy_sha256 l l eq_refl). Defined.

(** One secret and outpoint at two epochs. *)
Lemma nullifier_identifies_spend_witness :
  let i := sample_lane_input 1 in let j := sample_lane_input 2 in
  (li_spend_secret i = li_spend_secret j ∧
   an_covenant_outpoint (li_anchor i) = an_covenant_outpoint (li_anchor j) ∧
   an_covenant_id (li_anchor i) = an_covenant_id (li_anchor j)).
Proof.
  intros i j. destruct (@nullifier_identifies_spend toy_sha256 i j) as [Hs|Hc];
    [by vm_compute|exact Hs|no_collision Hc].
Defined.

Example discover_own_lane :
  @discover_lane toy_sha256 (b32 1) (b32 2) (n64 1) (gn_lane_id (sample_node 1)) = true ∧
  @discover_lane toy_sha256 (b32 1) (b32 2) (n64 2) (gn_lane_id (sample_node 1)) = false.
Proof. split; vm_compute; reflexivity. Qed.
