(* ===== verification/IndexerTypes.v ===== *)
(** Data and errors of the covenant indexer (src/crates/rgk-indexer/src/lib.rs)
    and the [Indexer] trait its storage backends implement. *)

From stdpp Require Import base list strings pretty gmap.
From Stdlib Require Import ZArith Lia Strings.Byte.
From S2P Require Import Prelude.
From S2P Require Import Bytes.
From S2P Require Import Encoding.
From S2P Require Import Types.
From S2P Require Import Commit.
From S2P Require Import Hex.

Open Scope string_scope.

(** * Data *)

Record ContinuationProof := {
  co_commitment : Bytes32;
  co_shape_root : Bytes32;
  co_transition_digest : Bytes32
}.
#[export] Instance ContinuationProof_eq_dec : EqDecision ContinuationProof.
Proof. solve_decision. Defined.

Record AllocationAuditCertificateRecord := {
  aac_certificate_id : Bytes32;
  aac_canonical_bytes : list byte
}.
#[export] Instance AllocationAuditCertificateRecord_eq_dec :
  EqDecision AllocationAuditCertificateRecord.
Proof. solve_decision. Defined.

Definition canonical_len (self : AllocationAuditCertificateRecord) : nat :=
  length (aac_canonical_bytes self).

(** [new_state_digest] is the digest before the spend, [resulting_state_digest]
    the one after it. *)
Record SpendEntry := {
  se_daa_score : u64;
  se_spent : KaspaOutpoint;
  se_created : KaspaOutpoint;
  se_new_state_digest : Bytes32;
  se_resulting_state_digest : Bytes32;
  se_previous_receipt_policy : ReceiptPolicy;
  se_new_receipt_policy : ReceiptPolicy;
  se_receipt_id : ReceiptId;
  se_continuation : option ContinuationProof;
  se_policy_migration : option PolicyMigrationProof;
  se_allocation_audit_certificate : option AllocationAuditCertificateRecord
}.
#[export] Instance SpendEntry_eq_dec : EqDecision SpendEntry.
Proof. solve_decision. Defined.

Record IndexedCovenant := {
  ic_covenant_id : KaspaCovenantId;
  ic_lineage_id : Bytes32;
  ic_chain_id : KaspaChainId;
  ic_open_outpoint : option KaspaOutpoint;
  ic_latest_state : RgkStateCommitment;
  ic_accepted_receipts : list ReceiptId;
  ic_spend_history : list SpendEntry;
  ic_last_update_daa_score : u64
}.
#[export] Instance IndexedCovenant_eq_dec : EqDecision IndexedCovenant.
Proof. solve_decision. Defined.

Record IndexedLane := {
  il_chain_id : KaspaChainId;
  il_covenant_id : KaspaCovenantId;
  il_asset_id : Bytes32;
  il_lane_id : Bytes32;
  il_epoch : u64;
  il_scan_tag : option Bytes32;
  il_public_lineage : bool;
  il_state_digest : Bytes32;
  il_last_update_daa_score : u64
}.
#[export] Instance IndexedLane_eq_dec : EqDecision IndexedLane.
Proof. solve_decision. Defined.

Record ScanCursor := {
  cu_chain_id : KaspaChainId;
  cu_block_hash : Bytes32;
  cu_daa_score : u64
}.
#[export] Instance ScanCursor_eq_dec : EqDecision ScanCursor.
Proof. solve_decision. Defined.

Record ObservedSpendRecord := {
  os_spent : KaspaOutpoint;
  os_spending_txid : Bytes32;
  os_input_index : u32;
  os_block_daa_score : option u64
}.
#[export] Instance ObservedSpendRecord_eq_dec : EqDecision ObservedSpendRecord.
Proof. solve_decision. Defined.

Record RebuildCheckpoint := {
  ck_chain_id : KaspaChainId;
  ck_covenant_id : KaspaCovenantId;
  ck_lineage_id : Bytes32;
  ck_initial_state : RgkStateCommitment;
  ck_open_outpoint : KaspaOutpoint;
  ck_daa_score : u64
}.

Record RebuildSpend := {
  rs_receipt_id : ReceiptId;
  rs_spent_outpoint : KaspaOutpoint;
  rs_created_outpoint : KaspaOutpoint;
  rs_new_state : RgkStateCommitment;
  rs_expected_spending_txid : Bytes32;
  rs_min_confirmations : u64
}.

Record RebuildPlan := {
  rp_checkpoint : RebuildCheckpoint;
  rp_spends : list RebuildSpend
}.

Record RebuildSpendEvidence := {
  ev_spending_txid : Bytes32;
  ev_block_daa_score : option u64;
  ev_confirmation_depth : option u64
}.

Record RebuildSummary := {
  su_opened : bool;
  su_applied_spends : nat;
  su_skipped_replays : nat;
  su_final_open_outpoint : KaspaOutpoint;
  su_final_daa_score : u64
}.

(** * Errors *)

Inductive IndexerError : Type :=
| IE_NotIndexed (c : Bytes32)
| IE_AlreadyIndexed (c : Bytes32)
| IE_ChainMismatch (existing requested : KaspaChainId)
| IE_LineageMismatch (existing requested : Bytes32)
| IE_Replay (id : Bytes32)
| IE_NoHistory
| IE_RollbackTooDeep (requested : u64) (available : nat)
| IE_OpenOutpointSet
| IE_ContinuationProofIncomplete (msg : string)
| IE_PolicyMigrationProofInvalid (msg : string)
| IE_AllocationAuditCertificateInvalid (msg : string)
| IE_LaneInvariant (msg : string)
| IE_SpendReceiptNotIndexed (covenant receipt_id : Bytes32)
| IE_RebuildSource (msg : string)
| IE_RebuildSpendMissing (spent : KaspaOutpoint)
| IE_RebuildTxMismatch (spent : KaspaOutpoint) (expected actual : Bytes32)
| IE_RebuildMissingDaaScore (txid : Bytes32)
| IE_RebuildInsufficientConfirmations (txid : Bytes32) (required : u64) (actual : option u64)
| IE_Invariant (msg : string)
| IE_Storage (msg : string).

#[export] Instance IndexerError_eq_dec : EqDecision IndexerError.
Proof. solve_decision. Defined.

Abbreviation iresult := (result IndexerError).

(** * The traits *)

(** A [&mut self] operation returns the new store; when it returns an error the
    store is the one it was called on, as every early return of the source's
    handlers precedes their first assignment. *)
Class Indexer (S : Type) := {
  open : S → KaspaChainId → KaspaCovenantId → Bytes32 → RgkStateCommitment → KaspaOutpoint →
    u64 → iresult S;
  apply_spend : S → KaspaCovenantId → ReceiptId → KaspaOutpoint → KaspaOutpoint →
    RgkStateCommitment → u64 → iresult S;
  apply_spend_with_continuation : S → KaspaCovenantId → ReceiptId → KaspaOutpoint →
    KaspaOutpoint → RgkStateCommitment → u64 → ContinuationProof → iresult S;
  apply_spend_with_continuation_and_policy_migration : S → KaspaCovenantId → ReceiptId →
    KaspaOutpoint → KaspaOutpoint → RgkStateCommitment → u64 → ContinuationProof →
    PolicyMigrationProof → iresult S;
  rollback : S → KaspaCovenantId → u64 → iresult S;
  lookup_covenant : S → KaspaCovenantId → option IndexedCovenant;
  latest_state : S → KaspaCovenantId → option RgkStateCommitment;
  open_outpoint : S → KaspaCovenantId → option KaspaOutpoint;
  has_replay : S → KaspaCovenantId → ReceiptId → bool;
  list_covenants : S → list KaspaCovenantId;
  register_lane : S → IndexedLane → iresult S;
  lane_by_id : S → Bytes32 → option IndexedLane;
  lane_by_scan_tag : S → Bytes32 → option IndexedLane;
  public_lanes : S → Bytes32 → list IndexedLane
}.

Class ScanCursorStore (S : Type) := {
  load_scan_cursor : S → string → iresult (option ScanCursor);
  store_scan_cursor : S → string → ScanCursor → iresult S;
  clear_scan_cursor : S → string → iresult S
}.

Class ObservedSpendStore (S : Type) := {
  record_observed_spend : S → ObservedSpendRecord → iresult S;
  observed_spend : S → KaspaOutpoint → iresult (option ObservedSpendRecord);
  observed_spend_count : S → iresult nat
}.

Class AllocationAuditCertificateStore (S : Type) := {
  record_allocation_audit_certificate : S → KaspaCovenantId → ReceiptId →
    AllocationAuditCertificateRecord → iresult S;
  allocation_audit_certificate : S → KaspaCovenantId → ReceiptId →
    option AllocationAuditCertificateRecord
}.

(** [RebuildSource]: chain evidence, supplied by the caller. *)
Class RebuildSource (T : Type) := {
  source_chain_id : T → iresult KaspaChainId;
  spend_evidence : T → KaspaOutpoint → iresult (option RebuildSpendEvidence)
}.
