(* ===== verification/Indexer.v ===== *)
(** The covenant indexer (src/crates/rgk-indexer/src/lib.rs): the rules a spend,
    a certificate and a lane must satisfy, rollback, and the in-memory store. *)

From stdpp Require Import base list strings pretty gmap.
From Stdlib Require Import ZArith Lia Strings.Byte.
From S2P Require Import Prelude.
From S2P Require Import Bytes.
From S2P Require Import Encoding.
From S2P Require Import Types.
From S2P Require Import Commit.
From S2P Require Import Hex.
From S2P Require Import IndexerTypes.

Open Scope string_scope.

Definition MAX_ALLOCATION_AUDIT_CERTIFICATE_BYTES : Z := uval MAX_BLOB_BYTES.
(** [b"rgk:aac1"] *)
Definition ALLOCATION_AUDIT_CERTIFICATE_MAGIC : bytes 8 :=
  to_array 8 [x72; x67; x6b; x3a; x61; x61; x63; x31].
Definition DEFAULT_SCAN_CURSOR : string := "rgk.default".

(** * Validators *)

Definition validate_continuation_proof (proof : ContinuationProof) : iresult unit :=
  _ ← fail_if (co_commitment proof = zero32)
        (IE_ContinuationProofIncomplete "missing phase-1 commitment");
  _ ← fail_if (co_shape_root proof = zero32)
        (IE_ContinuationProofIncomplete "missing continuation shape root");
  fail_if (co_transition_digest proof = zero32)
    (IE_ContinuationProofIncomplete "missing phase-2 transition digest").

Definition validate_allocation_audit_certificate_record (record : AllocationAuditCertificateRecord)
  : iresult unit :=
  _ ← fail_if (aac_certificate_id record = zero32)
        (IE_AllocationAuditCertificateInvalid "missing certificate id");
  let len := Z.of_nat (length (aac_canonical_bytes record)) in
  _ ← fail_if (MAX_ALLOCATION_AUDIT_CERTIFICATE_BYTES < len)%Z
        (IE_AllocationAuditCertificateInvalid
           ("canonical bytes length " ++ usize_display len ++ " exceeds max "
            ++ usize_display MAX_ALLOCATION_AUDIT_CERTIFICATE_BYTES));
  let min_len := (8 + 32 + 1)%Z in
  _ ← fail_if (len < min_len)%Z
        (IE_AllocationAuditCertificateInvalid
           ("canonical bytes length " ++ usize_display len ++ " is too short"));
  _ ← fail_if (take 8 (aac_canonical_bytes record) ≠ blist ALLOCATION_AUDIT_CERTIFICATE_MAGIC)
        (IE_AllocationAuditCertificateInvalid
           "canonical bytes have bad allocation-audit certificate magic");
  fail_if (take 32 (drop 8 (aac_canonical_bytes record)) ≠ blist (aac_certificate_id record))
    (IE_AllocationAuditCertificateInvalid
       "canonical bytes certificate id does not match record id").

(** [AllocationAuditCertificateRecord::new] *)
Definition certificate_record_new (certificate_id : Bytes32) (canonical_bytes : list byte)
  : iresult AllocationAuditCertificateRecord :=
  let record := {| aac_certificate_id := certificate_id;
                   aac_canonical_bytes := canonical_bytes |} in
  _ ← validate_allocation_audit_certificate_record record;
  Ok record.

(** [IndexedCovenant::opened] *)
Definition opened (covenant_id : KaspaCovenantId) (chain_id : KaspaChainId)
    (lineage_id : Bytes32) (latest_state : RgkStateCommitment) (open_outpoint : KaspaOutpoint)
    (last_update_daa_score : u64) : IndexedCovenant :=
  {| ic_covenant_id := covenant_id;
     ic_lineage_id := lineage_id;
     ic_chain_id := chain_id;
     ic_open_outpoint := Some open_outpoint;
     ic_latest_state := latest_state;
     ic_accepted_receipts := [];
     ic_spend_history := [];
     ic_last_update_daa_score := last_update_daa_score |}.

(** [spend.allocation_audit_certificate = Some(certificate)] *)
Definition with_certificate (spend : SpendEntry) (certificate : AllocationAuditCertificateRecord)
  : SpendEntry :=
  {| se_daa_score := se_daa_score spend;
     se_spent := se_spent spend;
     se_created := se_created spend;
     se_new_state_digest := se_new_state_digest spend;
     se_resulting_state_digest := se_resulting_state_digest spend;
     se_previous_receipt_policy := se_previous_receipt_policy spend;
     se_new_receipt_policy := se_new_receipt_policy spend;
     se_receipt_id := se_receipt_id spend;
     se_continuation := se_continuation spend;
     se_policy_migration := se_policy_migration spend;
     se_allocation_audit_certificate := Some certificate |}.

Definition with_history (entry : IndexedCovenant) (history : list SpendEntry) : IndexedCovenant :=
  {| ic_covenant_id := ic_covenant_id entry;
     ic_lineage_id := ic_lineage_id entry;
     ic_chain_id := ic_chain_id entry;
     ic_open_outpoint := ic_open_outpoint entry;
     ic_latest_state := ic_latest_state entry;
     ic_accepted_receipts := ic_accepted_receipts entry;
     ic_spend_history := history;
     ic_last_update_daa_score := ic_last_update_daa_score entry |}.

Definition record_allocation_audit_certificate_on_entry (entry : IndexedCovenant)
    (receipt_id : ReceiptId) (certificate : AllocationAuditCertificateRecord)
  : iresult IndexedCovenant :=
  _ ← validate_allocation_audit_certificate_record certificate;
  '(i, spend) ← ok_or (list_find (λ spend, se_receipt_id spend = receipt_id)
                         (ic_spend_history entry))
                  (IE_SpendReceiptNotIndexed (ic_covenant_id entry) receipt_id);
  match se_allocation_audit_certificate spend with
  | Some existing =>
      _ ← fail_if (existing ≠ certificate)
            (IE_AllocationAuditCertificateInvalid
               "attempted to replace an existing allocation-audit certificate");
      Ok entry
  | None =>
      Ok (with_history entry (<[i := with_certificate spend certificate]> (ic_spend_history entry)))
  end.

Definition validate_indexed_lane (entry : IndexedCovenant) (lane : IndexedLane) : iresult unit :=
  _ ← fail_if (il_lane_id lane = zero32) (IE_LaneInvariant "lane id must not be zero");
  _ ← fail_if (il_state_digest lane = zero32)
        (IE_LaneInvariant "lane state digest must not be zero");
  _ ← when_some (il_scan_tag lane) (λ scan_tag,
        fail_if (scan_tag = zero32) (IE_LaneInvariant "scan tag must not be zero"));
  _ ← fail_if (il_chain_id lane ≠ ic_chain_id entry)
        (IE_ChainMismatch (ic_chain_id entry) (il_chain_id lane));
  _ ← fail_if (il_covenant_id lane ≠ ic_covenant_id entry)
        (IE_LaneInvariant "lane covenant id does not match indexed covenant");
  _ ← fail_if (il_asset_id lane ≠ sc_asset_id (ic_latest_state entry))
        (IE_LaneInvariant "lane asset id does not match indexed state");
  _ ← fail_if (il_state_digest lane ≠ sc_state_digest (ic_latest_state entry))
        (IE_LaneInvariant "lane state digest does not match indexed state");
  fail_if (il_last_update_daa_score lane ≠ ic_last_update_daa_score entry)
    (IE_LaneInvariant "lane DAA score does not match indexed state").

Definition validate_scan_cursor_name (name : string) : iresult (list byte) :=
  _ ← fail_if (name = "") (IE_Invariant "scan cursor name must not be empty");
  _ ← fail_if (128 < String.length name)%nat
        (IE_Invariant "scan cursor name must be at most 128 bytes");
  Ok (as_bytes name).

Section indexer.
Context `{Sha256}.

Definition validate_policy_migration_proof (proof : PolicyMigrationProof)
    (previous_policy new_policy : ReceiptPolicy)
    (previous_state_digest new_state_digest transition_digest : Bytes32) : iresult unit :=
  _ ← fail_if (previous_policy = new_policy)
        (IE_PolicyMigrationProofInvalid "policy migration proof supplied for unchanged policy");
  _ ← fail_if (pm_previous_policy proof ≠ previous_policy)
        (IE_PolicyMigrationProofInvalid "previous policy does not match indexed state");
  _ ← fail_if (pm_new_policy proof ≠ new_policy)
        (IE_PolicyMigrationProofInvalid "new policy does not match indexed state");
  _ ← fail_if (pm_previous_state_digest proof ≠ previous_state_digest)
        (IE_PolicyMigrationProofInvalid "previous state digest does not match indexed state");
  _ ← fail_if (pm_new_state_digest proof ≠ new_state_digest)
        (IE_PolicyMigrationProofInvalid "new state digest does not match indexed state");
  _ ← fail_if (pm_transition_digest proof ≠ transition_digest)
        (IE_PolicyMigrationProofInvalid "transition digest does not match continuation proof");
  _ ← fail_if (pm_authorization_commitment proof = zero32)
        (IE_PolicyMigrationProofInvalid "missing migration authorisation commitment");
  let expected := policy_migration_commitment (pm_previous_policy proof) (pm_new_policy proof)
    (pm_previous_state_digest proof) (pm_new_state_digest proof) (pm_transition_digest proof)
    (pm_authorization_commitment proof) in
  fail_if (pm_migration_commitment proof ≠ expected)
    (IE_PolicyMigrationProofInvalid "migration commitment does not match proof fields").

(** [apply_spend_to_entry]: all checks come before the first assignment. *)
Definition apply_spend_to_entry (entry : IndexedCovenant) (receipt_id : ReceiptId)
    (spent new_outpoint : KaspaOutpoint) (new_state : RgkStateCommitment) (daa_score : u64)
    (continuation : option ContinuationProof) (policy_migration : option PolicyMigrationProof)
  : iresult IndexedCovenant :=
  _ ← when_some continuation validate_continuation_proof;
  _ ← fail_if (receipt_id ∈ ic_accepted_receipts entry) (IE_Replay receipt_id);
  _ ← fail_if (ic_chain_id entry ≠ sc_chain_id new_state)
        (IE_ChainMismatch (ic_chain_id entry) (sc_chain_id new_state));
  _ ← fail_if (ic_covenant_id entry ≠ sc_covenant_id new_state)
        (IE_Invariant "new state covenant id does not match indexed covenant");
  _ ← fail_if (sc_asset_id (ic_latest_state entry) ≠ sc_asset_id new_state)
        (IE_Invariant "new state asset id does not match indexed asset");
  _ ← fail_if (ic_open_outpoint entry ≠ Some spent)
        (IE_Invariant ("expected open outpoint " ++ debug_outpoint_opt (ic_open_outpoint entry)
                       ++ ", got " ++ debug_outpoint spent));
  let prev_digest := sc_state_digest (ic_latest_state entry) in
  let previous_receipt_policy := sc_receipt_policy (ic_latest_state entry) in
  let new_receipt_policy := sc_receipt_policy new_state in
  let resulting_state_digest := sc_state_digest new_state in
  _ ← fail_if (prev_digest = sc_state_digest new_state) (IE_Invariant "state did not advance");
  _ ← when_some policy_migration (λ proof,
        continuation ← ok_or continuation
          (IE_PolicyMigrationProofInvalid
             "policy migration proof requires continuation proof");
        validate_policy_migration_proof proof previous_receipt_policy new_receipt_policy
          prev_digest resulting_state_digest (co_transition_digest continuation));
  Ok {|
    ic_covenant_id := ic_covenant_id entry;
    ic_lineage_id := ic_lineage_id entry;
    ic_chain_id := ic_chain_id entry;
    ic_open_outpoint := Some new_outpoint;
    ic_latest_state := new_state;
    ic_accepted_receipts := (ic_accepted_receipts entry ++ [receipt_id])%list;
    ic_spend_history := (ic_spend_history entry ++ [{|
      se_daa_score := daa_score;
      se_spent := spent;
      se_created := new_outpoint;
      se_new_state_digest := prev_digest;
      se_resulting_state_digest := resulting_state_digest;
      se_previous_receipt_policy := previous_receipt_policy;
      se_new_receipt_policy := new_receipt_policy;
      se_receipt_id := receipt_id;
      se_continuation := continuation;
      se_policy_migration := policy_migration;
      se_allocation_audit_certificate := None |}])%list;
    ic_last_update_daa_score := daa_score
  |}.
End indexer.

Arguments apply_spend_to_entry {_} entry : simpl never.
Arguments validate_policy_migration_proof {_} proof : simpl never.
Arguments validate_continuation_proof proof : simpl never.
Arguments validate_allocation_audit_certificate_record record : simpl never.
Arguments record_allocation_audit_certificate_on_entry entry : simpl never.
Arguments validate_indexed_lane entry : simpl never.

(** * Rollback *)

(** [Vec::pop] *)
Definition pop {A} (l : list A) : option (list A * A) :=
  match last l with Some x => Some (removelast l, x) | None => None end.

(** One turn of the rollback loop. *)
Definition rollback_one (entry : IndexedCovenant) : iresult IndexedCovenant :=
  '(history, last) ← ok_or (pop (ic_spend_history entry))
    (IE_Invariant "rollback spend history shorter than checked depth");
  Ok {|
    ic_covenant_id := ic_covenant_id entry;
    ic_lineage_id := ic_lineage_id entry;
    ic_chain_id := ic_chain_id entry;
    ic_open_outpoint := Some (se_spent last);
    ic_latest_state := {|
      sc_version := sc_version (ic_latest_state entry);
      sc_chain_id := sc_chain_id (ic_latest_state entry);
      sc_covenant_id := sc_covenant_id (ic_latest_state entry);
      sc_asset_id := sc_asset_id (ic_latest_state entry);
      sc_state_digest := se_new_state_digest last;
      sc_receipt_policy := se_previous_receipt_policy last |};
    ic_accepted_receipts := removelast (ic_accepted_receipts entry);
    ic_spend_history := history;
    ic_last_update_daa_score := saturating_sub (se_daa_score last) (wrap 64 1)
  |}.

(** [for _ in 0..n] *)
Fixpoint rollback_loop (n : nat) (entry : IndexedCovenant) : iresult IndexedCovenant :=
  match n with
  | O => Ok entry
  | S n' => entry' ← rollback_one entry; rollback_loop n' entry'
  end.

Definition rollback_entry (entry : IndexedCovenant) (depth : u64) : iresult IndexedCovenant :=
  _ ← fail_if (Z.of_nat (length (ic_spend_history entry)) < depth)%Z
        (IE_RollbackTooDeep depth (length (ic_spend_history entry)));
  rollback_loop (Z.to_nat depth) entry.

Arguments rollback_entry entry : simpl never.

(** * The in-memory store *)

Record InMemoryIndexer := {
  im_map : gmap KaspaCovenantId IndexedCovenant;
  im_lanes : gmap Bytes32 IndexedLane;
  im_lane_scan_tags : gmap Bytes32 Bytes32;
  im_scan_cursors : gmap string ScanCursor;
  im_observed_spends : gmap KaspaOutpoint ObservedSpendRecord
}.

Definition in_memory_new : InMemoryIndexer :=
  {| im_map := ∅; im_lanes := ∅; im_lane_scan_tags := ∅; im_scan_cursors := ∅;
     im_observed_spends := ∅ |}.

Definition im_set_map (s : InMemoryIndexer) (m : gmap KaspaCovenantId IndexedCovenant)
  : InMemoryIndexer :=
  {| im_map := m; im_lanes := im_lanes s; im_lane_scan_tags := im_lane_scan_tags s;
     im_scan_cursors := im_scan_cursors s; im_observed_spends := im_observed_spends s |}.

(** [self.map.get_mut(&covenant)] followed by an update of the entry in place. *)
Definition im_update (s : InMemoryIndexer) (covenant : KaspaCovenantId)
    (f : IndexedCovenant → iresult IndexedCovenant) : iresult InMemoryIndexer :=
  entry ← ok_or (im_map s !! covenant) (IE_NotIndexed covenant);
  entry' ← f entry;
  Ok (im_set_map s (<[covenant := entry']> (im_map s))).

Definition im_open (s : InMemoryIndexer) (chain : KaspaChainId) (covenant : KaspaCovenantId)
    (lineage : Bytes32) (initial : RgkStateCommitment) (open_outpoint : KaspaOutpoint)
    (daa_score : u64) : iresult InMemoryIndexer :=
  _ ← fail_if (is_Some (im_map s !! covenant)) (IE_AlreadyIndexed covenant);
  _ ← fail_if (sc_chain_id initial ≠ chain) (IE_ChainMismatch (sc_chain_id initial) chain);
  _ ← fail_if (sc_covenant_id initial ≠ covenant)
        (IE_LineageMismatch (sc_covenant_id initial) covenant);
  let entry := opened covenant chain lineage initial open_outpoint daa_score in
  Ok (im_set_map s (<[covenant := entry]> (im_map s))).

Definition im_register_lane (s : InMemoryIndexer) (lane : IndexedLane) : iresult InMemoryIndexer :=
  entry ← ok_or (im_map s !! il_covenant_id lane) (IE_NotIndexed (il_covenant_id lane));
  _ ← validate_indexed_lane entry lane;
  let previous := im_lanes s !! il_lane_id lane in
  let lanes := <[il_lane_id lane := lane]> (im_lanes s) in
  let tags :=
    match previous with
    | Some previous =>
        match il_scan_tag previous with
        | Some tag => delete tag (im_lane_scan_tags s)
        | None => im_lane_scan_tags s
        end
    | None => im_lane_scan_tags s
    end in
  let tags :=
    match il_scan_tag lane with
    | Some scan_tag => <[scan_tag := il_lane_id lane]> tags
    | None => tags
    end in
  Ok {| im_map := im_map s; im_lanes := lanes; im_lane_scan_tags := tags;
        im_scan_cursors := im_scan_cursors s; im_observed_spends := im_observed_spends s |}.

Definition im_has_replay (s : InMemoryIndexer) (covenant : KaspaCovenantId)
    (receipt_id : ReceiptId) : bool :=
  match im_map s !! covenant with
  | Some e => bool_decide (receipt_id ∈ ic_accepted_receipts e)
  | None => false
  end.

Definition im_public_lanes (s : InMemoryIndexer) (asset_id : Bytes32) : list IndexedLane :=
  filter (λ lane, il_public_lineage lane = true ∧ il_asset_id lane = asset_id)
    (snd <$> ordered (im_lanes s)).

#[export] Instance in_memory_indexer `{Sha256} : Indexer InMemoryIndexer := {
  open := im_open;
  apply_spend s covenant receipt_id spent new_outpoint new_state daa_score :=
    im_update s covenant (λ entry,
      apply_spend_to_entry entry receipt_id spent new_outpoint new_state daa_score None None);
  apply_spend_with_continuation s covenant receipt_id spent new_outpoint new_state daa_score
      continuation :=
    im_update s covenant (λ entry,
      apply_spend_to_entry entry receipt_id spent new_outpoint new_state daa_score
        (Some continuation) None);
  apply_spend_with_continuation_and_policy_migration s covenant receipt_id spent new_outpoint
      new_state daa_score continuation policy_migration :=
    im_update s covenant (λ entry,
      apply_spend_to_entry entry receipt_id spent new_outpoint new_state daa_score
        (Some continuation) (Some policy_migration));
  rollback s covenant depth := im_update s covenant (λ entry, rollback_entry entry depth);
  lookup_covenant s covenant := im_map s !! covenant;
  latest_state s covenant := ic_latest_state <$> im_map s !! covenant;
  open_outpoint s covenant := im_map s !! covenant ≫= ic_open_outpoint;
  has_replay := im_has_replay;
  list_covenants s := fst <$> ordered (im_map s);
  register_lane := im_register_lane;
  lane_by_id s lane_id := im_lanes s !! lane_id;
  lane_by_scan_tag s scan_tag :=
    im_lane_scan_tags s !! scan_tag ≫= λ lane_id, im_lanes s !! lane_id;
  public_lanes := im_public_lanes
}.

Definition im_set_cursors (s : InMemoryIndexer) (m : gmap string ScanCursor) : InMemoryIndexer :=
  {| im_map := im_map s; im_lanes := im_lanes s; im_lane_scan_tags := im_lane_scan_tags s;
     im_scan_cursors := m; im_observed_spends := im_observed_spends s |}.

#[export] Instance in_memory_cursors : ScanCursorStore InMemoryIndexer := {
  load_scan_cursor s name :=
    _ ← validate_scan_cursor_name name;
    Ok (im_scan_cursors s !! name);
  store_scan_cursor s name cursor :=
    _ ← validate_scan_cursor_name name;
    Ok (im_set_cursors s (<[name := cursor]> (im_scan_cursors s)));
  clear_scan_cursor s name :=
    _ ← validate_scan_cursor_name name;
    Ok (im_set_cursors s (delete name (im_scan_cursors s)))
}.

#[export] Instance in_memory_observed : ObservedSpendStore InMemoryIndexer := {
  record_observed_spend s record :=
    Ok {| im_map := im_map s; im_lanes := im_lanes s; im_lane_scan_tags := im_lane_scan_tags s;
          im_scan_cursors := im_scan_cursors s;
          im_observed_spends := <[os_spent record := record]> (im_observed_spends s) |};
  observed_spend s spent := Ok (im_observed_spends s !! spent);
  observed_spend_count s := Ok (size (im_observed_spends s))
}.

#[export] Instance in_memory_certificates : AllocationAuditCertificateStore InMemoryIndexer := {
  record_allocation_audit_certificate s covenant receipt_id certificate :=
    im_update s covenant (λ entry,
      record_allocation_audit_certificate_on_entry entry receipt_id certificate);
  allocation_audit_certificate s covenant receipt_id :=
    entry ← im_map s !! covenant;
    found ← list_find (λ spend, se_receipt_id spend = receipt_id) (ic_spend_history entry);
    se_allocation_audit_certificate found.2
}.
