(* ===== verification/IndexerCorrect.v ===== *)
(** Correctness of the indexer: what an accepted spend is, the lineage
    invariant of every indexed covenant under any sequence of calls, rollback as
    the inverse of spending, and the lane index. *)

From stdpp Require Import base list strings gmap sets.
From Stdlib Require Import ZArith Lia Strings.Byte.
From S2P Require Import Prelude.
From S2P Require Import Bytes.
From S2P Require Import Encoding.
From S2P Require Import Types.
From S2P Require Import Commit.
From S2P Require Import Hex.
From S2P Require Import IndexerTypes.
From S2P Require Import Indexer.

Open Scope list_scope.

(** * Accepted spends *)

Section spends.
Context `{Sha256}.

Lemma continuation_proof_ok p :
  validate_continuation_proof p = Ok () ↔
    co_commitment p ≠ zero32 ∧ co_shape_root p ≠ zero32 ∧ co_transition_digest p ≠ zero32.
Proof.
  unfold validate_continuation_proof. split; [intros E; by inv_ok|].
  intros (?&?&?). by by_guards.
Qed.

(** A migration proof is exactly what [build_policy_migration_proof] makes of
    the two policies, digests and the transition, with an authorisation. *)
Lemma policy_migration_ok proof p p' d d' t :
  validate_policy_migration_proof proof p p' d d' t = Ok () ↔
    p ≠ p' ∧ pm_authorization_commitment proof ≠ zero32 ∧
    proof = build_policy_migration_proof {|
      pmi_previous_policy := p; pmi_new_policy := p'; pmi_previous_state_digest := d;
      pmi_new_state_digest := d'; pmi_transition_digest := t;
      pmi_authorization_commitment := pm_authorization_commitment proof |}.
Proof.
  unfold validate_policy_migration_proof. split.
  - intros E. inv_ok. destruct proof. cbn in *. by subst.
  - intros (Hp & Ha & Hb). rewrite Hb in Ha |- *. cbn in *. by by_guards.
Qed.

(** The facts recorded with an accepted spend. *)
Record spend_ok (s : SpendEntry) : Prop := {
  so_advances : se_new_state_digest s ≠ se_resulting_state_digest s;
  so_continuation : ∀ c, se_continuation s = Some c → validate_continuation_proof c = Ok ();
  so_migration : ∀ m, se_policy_migration s = Some m → ∃ c, se_continuation s = Some c ∧
    validate_policy_migration_proof m (se_previous_receipt_policy s) (se_new_receipt_policy s)
      (se_new_state_digest s) (se_resulting_state_digest s) (co_transition_digest c) = Ok ();
  so_certificate : ∀ a, se_allocation_audit_certificate s = Some a →
    validate_allocation_audit_certificate_record a = Ok ()
}.

(** The history entry a spend leaves. *)
Definition spend_entry_of (e : IndexedCovenant) rid spent created st daa c m : SpendEntry := {|
  se_daa_score := daa; se_spent := spent; se_created := created;
  se_new_state_digest := sc_state_digest (ic_latest_state e);
  se_resulting_state_digest := sc_state_digest st;
  se_previous_receipt_policy := sc_receipt_policy (ic_latest_state e);
  se_new_receipt_policy := sc_receipt_policy st; se_receipt_id := rid;
  se_continuation := c; se_policy_migration := m; se_allocation_audit_certificate := None |}.

Definition spend_result (e : IndexedCovenant) (st : RgkStateCommitment) (s : SpendEntry)
  : IndexedCovenant := {|
  ic_covenant_id := ic_covenant_id e; ic_lineage_id := ic_lineage_id e;
  ic_chain_id := ic_chain_id e; ic_open_outpoint := Some (se_created s);
  ic_latest_state := st;
  ic_accepted_receipts := ic_accepted_receipts e ++ [se_receipt_id s];
  ic_spend_history := ic_spend_history e ++ [s];
  ic_last_update_daa_score := se_daa_score s |}.

Lemma apply_spend_ok e rid spent created st daa c m e' :
  apply_spend_to_entry e rid spent created st daa c m = Ok e' ↔
    let s := spend_entry_of e rid spent created st daa c m in
    (rid ∉ ic_accepted_receipts e) ∧ sc_chain_id st = ic_chain_id e ∧
    sc_covenant_id st = ic_covenant_id e ∧
    sc_asset_id st = sc_asset_id (ic_latest_state e) ∧
    ic_open_outpoint e = Some spent ∧ spend_ok s ∧ e' = spend_result e st s.
Proof.
  unfold apply_spend_to_entry. cbn zeta. split.
  - intros E. inv_ok.
    repeat match goal with Hw : when_some _ _ = _ |- _ => rewrite when_some_ok in Hw end.
    split_and!; try done. constructor; cbn; try done.
    intros p Hp. specialize (H7 p Hp). inv_ok. eauto.
  - intros (Hr & Hc & Hv & Ha & Ho & [Hd Hcont Hm _] & ->). cbn in *.
    rewrite (proj2 (when_some_ok _ _ ()) Hcont). cbn [mbind result_bind]. by_guards.
    rewrite (proj2 (when_some_ok _ _ ())); [done|].
    intros p Hp. destruct (Hm p Hp) as (c' & -> & ?). done.
Qed.

(** * The lineage of a covenant *)

(** [linked o d p h o' d' p']: the history [h] leads from the outpoint [o],
    digest [d] and policy [p] to [o'], [d'], [p']. *)
Inductive linked (o : KaspaOutpoint) (d : Bytes32) (p : ReceiptPolicy)
  : list SpendEntry → KaspaOutpoint → Bytes32 → ReceiptPolicy → Prop :=
| linked_nil : linked o d p [] o d p
| linked_snoc h s :
    linked o d p h (se_spent s) (se_new_state_digest s) (se_previous_receipt_policy s) →
    spend_ok s →
    linked o d p (h ++ [s]) (se_created s) (se_resulting_state_digest s)
      (se_new_receipt_policy s).

Record entry_inv (covenant : KaspaCovenantId) (o : KaspaOutpoint) (d : Bytes32)
    (p : ReceiptPolicy) (e : IndexedCovenant) : Prop := {
  ei_covenant : ic_covenant_id e = covenant;
  ei_state_covenant : sc_covenant_id (ic_latest_state e) = covenant;
  ei_state_chain : sc_chain_id (ic_latest_state e) = ic_chain_id e;
  ei_linked : ∃ oc, ic_open_outpoint e = Some oc ∧
    linked o d p (ic_spend_history e) oc (sc_state_digest (ic_latest_state e))
      (sc_receipt_policy (ic_latest_state e));
  ei_receipts : ic_accepted_receipts e = se_receipt_id <$> ic_spend_history e;
  ei_distinct : NoDup (ic_accepted_receipts e)
}.

Lemma opened_inv covenant chain lineage st o daa :
  sc_chain_id st = chain → sc_covenant_id st = covenant →
  entry_inv covenant o (sc_state_digest st) (sc_receipt_policy st)
    (opened covenant chain lineage st o daa).
Proof. intros <- <-. constructor; cbn; try done; [|constructor]. exists o. repeat constructor. Qed.

Lemma apply_spend_inv cov o d p e rid spent created st daa c m e' :
  entry_inv cov o d p e →
  apply_spend_to_entry e rid spent created st daa c m = Ok e' → entry_inv cov o d p e'.
Proof.
  intros [? ? ? (oc & Hoc & Hl) Hr Hn] (Hrid & Hch & Hcv & Has & Ho & Hs & ->)%apply_spend_ok.
  constructor; cbn; try congruence.
  - exists created. split; [done|]. rewrite Ho in Hoc. injection Hoc as <-.
    by apply (linked_snoc _ _ _ _ (spend_entry_of e rid spent created st daa c m)).
  - by rewrite Hr, fmap_app.
  - apply NoDup_app. split; [done|]. split; [set_solver|]. apply NoDup_singleton.
Qed.

(** * Rollback *)

Lemma pop_snoc {A} (l : list A) x : pop (l ++ [x]) = Some (l, x).
Proof. unfold pop. by rewrite last_snoc, removelast_last. Qed.

Lemma linked_snoc_inv o d p h s o' d' p' :
  linked o d p (h ++ [s]) o' d' p' →
  linked o d p h (se_spent s) (se_new_state_digest s) (se_previous_receipt_policy s) ∧
  spend_ok s ∧ o' = se_created s ∧ d' = se_resulting_state_digest s ∧
  p' = se_new_receipt_policy s.
Proof.
  intros Hl. remember (h ++ [s]) as k eqn:Ek. destruct Hl as [|h' s' Hl Hs].
  - by destruct h.
  - apply app_inj_tail in Ek as [-> ->]. done.
Qed.

Lemma rollback_one_inv cov o d p e h s :
  entry_inv cov o d p e → ic_spend_history e = h ++ [s] →
  ∃ e', rollback_one e = Ok e' ∧ ic_spend_history e' = h ∧ entry_inv cov o d p e' ∧
    ic_last_update_daa_score e' = saturating_sub (se_daa_score s) (wrap 64 1).
Proof.
  intros [? ? ? (oc & Hoc & Hl) Hr Hn] Hh. unfold rollback_one. rewrite Hh, pop_snoc.
  rewrite Hh in Hl, Hr. apply linked_snoc_inv in Hl as (Hl & _).
  rewrite fmap_app in Hr. change (se_receipt_id <$> [s]) with [se_receipt_id s] in Hr.
  cbn. eexists. split; [done|]. cbn. split; [done|]. split; [|done].
  constructor; cbn; try done.
  - by eexists.
  - by rewrite Hr, removelast_last.
  - rewrite Hr in Hn |- *. rewrite removelast_last. by apply NoDup_app in Hn as [? _].
Qed.

Lemma rollback_loop_inv cov o d p n e :
  entry_inv cov o d p e → (n <= length (ic_spend_history e))%nat →
  ∃ e', rollback_loop n e = Ok e' ∧
    ic_spend_history e' = take (length (ic_spend_history e) - n) (ic_spend_history e) ∧
    entry_inv cov o d p e'.
Proof.
  revert e. induction n as [|n IH]; intros e He Hn.
  - exists e. split; [done|]. split; [|done]. rewrite Nat.sub_0_r. symmetry. by apply take_ge.
  - destruct (ic_spend_history e) as [|h s _] eqn:Eh using rev_ind; [cbn in Hn; lia|].
    destruct (rollback_one_inv _ _ _ _ _ _ _ He Eh) as (e1 & E1 & Hh1 & He1 & _).
    cbn [rollback_loop]. rewrite E1. cbn [mbind result_bind].
    rewrite length_app in Hn |- *. cbn [length] in Hn |- *.
    destruct (IH e1 He1) as (e2 & E2 & Hh2 & He2); [rewrite Hh1; lia|].
    exists e2. split; [done|]. split; [|done]. rewrite Hh2, Hh1.
    rewrite take_app_le by lia. f_equal. lia.
Qed.
End spends.

(** * Sequences of calls *)

Inductive call : Type :=
| CallOpen (chain : KaspaChainId) (covenant : KaspaCovenantId) (lineage : Bytes32)
    (initial : RgkStateCommitment) (outpoint : KaspaOutpoint) (daa_score : u64)
| CallSpend (covenant : KaspaCovenantId) (receipt_id : ReceiptId) (spent created : KaspaOutpoint)
    (state : RgkStateCommitment) (daa_score : u64)
| CallSpendCont (covenant : KaspaCovenantId) (receipt_id : ReceiptId)
    (spent created : KaspaOutpoint) (state : RgkStateCommitment) (daa_score : u64)
    (continuation : ContinuationProof)
| CallSpendMigrate (covenant : KaspaCovenantId) (receipt_id : ReceiptId)
    (spent created : KaspaOutpoint) (state : RgkStateCommitment) (daa_score : u64)
    (continuation : ContinuationProof) (migration : PolicyMigrationProof)
| CallRollback (covenant : KaspaCovenantId) (depth : u64)
| CallCertificate (covenant : KaspaCovenantId) (receipt_id : ReceiptId)
    (certificate : AllocationAuditCertificateRecord)
| CallLane (lane : IndexedLane).

Definition exec {S} `{Indexer S, AllocationAuditCertificateStore S} (s : S) (c : call)
  : iresult S :=
  match c with
  | CallOpen chain cov lin st o daa => open s chain cov lin st o daa
  | CallSpend cov rid o o' st daa => apply_spend s cov rid o o' st daa
  | CallSpendCont cov rid o o' st daa cp =>
      apply_spend_with_continuation s cov rid o o' st daa cp
  | CallSpendMigrate cov rid o o' st daa cp m =>
      apply_spend_with_continuation_and_policy_migration s cov rid o o' st daa cp m
  | CallRollback cov depth => rollback s cov depth
  | CallCertificate cov rid a => record_allocation_audit_certificate s cov rid a
  | CallLane lane => register_lane s lane
  end.

(** A call that returns an error leaves the store as it was. *)
Definition exec_all {S} `{Indexer S, AllocationAuditCertificateStore S} (s : S) (cs : list call) : S :=
  foldl (λ s c, match exec s c with Ok s' => s' | Err _ => s end) s cs.

Section store.
Context `{Sha256}.

Lemma linked_insert_certificate o d p h o' d' p' i s a :
  linked o d p h o' d' p' → h !! i = Some s →
  validate_allocation_audit_certificate_record a = Ok () →
  linked o d p (<[i := with_certificate s a]> h) o' d' p'.
Proof.
  intros Hl Hi Ha. revert i s Hi. induction Hl as [|h t Hl IH Ht]; intros i s Hi; [done|].
  apply lookup_app_Some in Hi as [Hi|[Hge Hi]].
  - rewrite insert_app_l by (by eapply lookup_lt_Some). constructor; [by apply IH|done].
  - rewrite insert_app_r_alt by done. destruct (i - length h)%nat as [|[]]; [|done..].
    injection Hi as <-. cbn [insert list_insert].
    apply (linked_snoc _ _ _ h (with_certificate t a)); [done|].
    destruct Ht. constructor; cbn; try done. by intros ? [= <-].
Qed.

Lemma receipt_ids_insert_certificate (h : list SpendEntry) i s a :
  h !! i = Some s → se_receipt_id <$> <[i := with_certificate s a]> h = se_receipt_id <$> h.
Proof.
  intros Hi. rewrite list_fmap_insert. apply list_insert_id. by rewrite list_lookup_fmap, Hi.
Qed.

Lemma certificate_ok e rid a e' :
  record_allocation_audit_certificate_on_entry e rid a = Ok e' ↔
    validate_allocation_audit_certificate_record a = Ok () ∧
    ∃ i s, list_find (λ s, se_receipt_id s = rid) (ic_spend_history e) = Some (i, s) ∧
      ((se_allocation_audit_certificate s = Some a ∧ e' = e) ∨
       (se_allocation_audit_certificate s = None ∧
        e' = with_history e (<[i := with_certificate s a]> (ic_spend_history e)))).
Proof.
  unfold record_allocation_audit_certificate_on_entry. split.
  - intros E. inv_ok. split; [done|]. 
    match goal with Hf : list_find _ _ = Some ?y |- _ => destruct y as [i s] end. exists i, s. split; [done|].
    destruct (se_allocation_audit_certificate s) eqn:Es; inv_ok; [left|right]; split; congruence.
  - intros (Ha & i & s & -> & Hs). rewrite Ha. cbn [mbind result_bind ok_or].
    destruct Hs as [[-> ->]|[-> ->]]; [|done]. by by_guards.
Qed.

Lemma certificate_inv cov o d p e rid a e' :
  entry_inv cov o d p e → record_allocation_audit_certificate_on_entry e rid a = Ok e' →
  entry_inv cov o d p e'.
Proof.
  intros He (Ha & i & s & Hf & Hs)%certificate_ok. destruct Hs as [[_ ->]|[_ ->]]; [done|].
  apply list_find_Some in Hf as (Hi & _). destruct He as [? ? ? (oc & Hoc & Hl) Hr Hn].
  constructor; cbn; try done.
  - exists oc. split; [done|]. by apply linked_insert_certificate.
  - by rewrite receipt_ids_insert_certificate.
Qed.

Lemma rollback_entry_ok cov o d p e depth e' :
  entry_inv cov o d p e → rollback_entry e depth = Ok e' →
  entry_inv cov o d p e' ∧ (depth <= Z.of_nat (length (ic_spend_history e)))%Z ∧
  ic_spend_history e' =
    take (length (ic_spend_history e) - Z.to_nat depth) (ic_spend_history e).
Proof.
  intros He E. unfold rollback_entry in E. inv_ok. pose proof (uint_range depth).
  destruct (rollback_loop_inv cov o d p (Z.to_nat depth) e) as (e2 & E2 & Hh & He2);
    [done|lia|]. rewrite E2 in E. injection E as <-. split; [done|]. split; [lia|done].
Qed.

(** The invariant of the store: every entry is a linked history, and the two
    lane maps agree. *)
Record store_inv (s : InMemoryIndexer) : Prop := {
  st_entries : ∀ c e, im_map s !! c = Some e → ∃ o d p, entry_inv c o d p e;
  st_lanes : ∀ l lane, im_lanes s !! l = Some lane →
    il_lane_id lane = l ∧ l ≠ zero32 ∧ il_state_digest lane ≠ zero32 ∧
    il_scan_tag lane ≠ Some zero32;
  st_tags : ∀ t l, im_lane_scan_tags s !! t = Some l →
    ∃ lane, im_lanes s !! l = Some lane ∧ il_scan_tag lane = Some t
}.

Lemma in_memory_new_inv : store_inv in_memory_new.
Proof. constructor; intros ? ? E; cbn in E; by rewrite lookup_empty in E. Qed.

Lemma im_update_inv s c f s' :
  store_inv s →
  (∀ o d p e e', entry_inv c o d p e → f e = Ok e' → ∃ o' d' p', entry_inv c o' d' p' e') →
  im_update s c f = Ok s' → store_inv s'.
Proof.
  intros [He Hl Ht] Hf E. unfold im_update in E. inv_ok.
  constructor; cbn; [|done..]. intros c' e' Hc'.
  apply lookup_insert_Some in Hc' as [[<- <-]|[? Hc']]; [|by apply He].
  destruct (He _ _ H0) as (o & d & p & Hinv). by eapply Hf.
Qed.

Lemma validate_lane_ok e lane :
  validate_indexed_lane e lane = Ok () ↔
    il_lane_id lane ≠ zero32 ∧ il_state_digest lane ≠ zero32 ∧
    il_scan_tag lane ≠ Some zero32 ∧ il_chain_id lane = ic_chain_id e ∧
    il_covenant_id lane = ic_covenant_id e ∧
    il_asset_id lane = sc_asset_id (ic_latest_state e) ∧
    il_state_digest lane = sc_state_digest (ic_latest_state e) ∧
    il_last_update_daa_score lane = ic_last_update_daa_score e.
Proof.
  unfold validate_indexed_lane. split.
  - intros E. inv_ok. rewrite when_some_ok in *. split_and!; try done.
    intros Ht. specialize (H2 _ Ht). by inv_ok.
  - intros (?&?&Ht&?&?&?&?&?). by_guards.
    rewrite (proj2 (when_some_ok _ _ ())); [cbn [mbind result_bind]; by by_guards|].
    intros t Et. apply fail_if_ok. congruence.
Qed.

Lemma register_lane_inv s lane s' :
  store_inv s → im_register_lane s lane = Ok s' → store_inv s'.
Proof.
  intros [He Hl Ht] E. unfold im_register_lane in E. inv_ok.
  apply validate_lane_ok in H1 as (Hz & Hd & Htag & _).
  constructor; cbn; [done|..].
  - intros l lane'. rewrite lookup_insert_Some. intros [[<- <-]|[? ?]]; [done|by apply Hl].
  - assert (Hold : ∀ t l,
      (match im_lanes s !! il_lane_id lane with
       | Some previous => match il_scan_tag previous with
                          | Some tag => delete tag (im_lane_scan_tags s)
                          | None => im_lane_scan_tags s end
       | None => im_lane_scan_tags s end) !! t = Some l →
      ∃ lane', <[il_lane_id lane:=lane]> (im_lanes s) !! l = Some lane' ∧ il_scan_tag lane' = Some t).
    { intros t l Htl. assert (Htl' : im_lane_scan_tags s !! t = Some l).
      { destruct (im_lanes s !! il_lane_id lane) as [prev|]; [|done].
        destruct (il_scan_tag prev); [|done]. by apply lookup_delete_Some in Htl as [_ ?]. }
      destruct (Ht t l Htl') as (lane' & Hlane' & Etag). exists lane'. split; [|done].
      rewrite lookup_insert_ne; [done|]. intros <-. rewrite Hlane', Etag in Htl.
      by rewrite lookup_delete_eq in Htl. }
    intros t l. destruct (il_scan_tag lane) as [tag|] eqn:Etag; [|apply Hold].
    rewrite lookup_insert_Some. intros [[<- <-]|[_ ?]]; [|by apply Hold].
    exists lane. by rewrite lookup_insert_eq.
Qed.

Lemma exec_inv s c s' : store_inv s → exec s c = Ok s' → store_inv s'.
Proof.
  intros Hs. destruct c; cbn [exec open apply_spend apply_spend_with_continuation
    apply_spend_with_continuation_and_policy_migration rollback register_lane
    record_allocation_audit_certificate in_memory_indexer in_memory_certificates].
  2,3,4: apply im_update_inv; [done|]; intros o d p e e' He Ha;
    exists o, d, p; by eapply apply_spend_inv.
  - unfold im_open. intros E. inv_ok. destruct Hs as [He ? ?]. constructor; cbn; [|done..].
    intros c e. rewrite lookup_insert_Some. intros [[<- <-]|[_ ?]]; [|by apply He].
    do 3 eexists. by apply opened_inv.
  - apply im_update_inv; [done|]. intros o d p e e' He E. exists o, d, p.
    by eapply rollback_entry_ok.
  - apply im_update_inv; [done|]. intros o d p e e' He E. exists o, d, p.
    by eapply certificate_inv.
  - by apply register_lane_inv.
Qed.

Lemma exec_all_inv s cs : store_inv s → store_inv (exec_all s cs).
Proof.
  unfold exec_all. revert s. induction cs as [|c cs IH]; intros s Hs; [done|]. cbn [foldl].
  apply IH. destruct (exec s c) eqn:E; [by eapply exec_inv|done].
Qed.
End store.

(** * The indexer's properties *)

Section claims.
Context `{Sha256}.

(** C2: The lineage invariant, under any sequence of calls (opens, spends with
    and without continuation and migration proofs, rollbacks, certificates,
    lanes, failed calls included): every covenant the in-memory indexer holds
    is filed under its own id, its open outpoint, digest and policy are the end
    of its spend history, consecutive entries of which are linked (each spends
    the outpoint the previous one created and starts from the digest and policy
    it left), every entry advances the digest and carries only valid
    continuation, migration and certificate records, and the accepted receipt
    ids are those of the history, without repetition. *)
Theorem indexer_lineage_invariant (cs : list call) covenant e :
  lookup_covenant (exec_all in_memory_new cs) covenant = Some e →
  ∃ o d p, entry_inv covenant o d p e.
Proof.
  intros E. eapply st_entries; [|exact E]. apply exec_all_inv, in_memory_new_inv.
Qed.

(** C36: What a spend with a continuation and a migration proof needs: on an
    indexed covenant it is applied iff the receipt is new, the new state stays on
    the covenant's chain, covenant and asset, the spent outpoint is the open one,
    the digest advances and the proofs supplied are valid for this very step; the
    store is then updated at that covenant only, with the created outpoint open,
    the new state current, the receipt accepted and the spend appended to the
    history. *)
Theorem apply_spend_iff (s s' : InMemoryIndexer) covenant rid spent created st daa c m :
  apply_spend_with_continuation_and_policy_migration s covenant rid spent created st daa c m
    = Ok s' ↔
  ∃ e, lookup_covenant s covenant = Some e ∧
    let h := spend_entry_of e rid spent created st daa (Some c) (Some m) in
    has_replay s covenant rid = false ∧ sc_chain_id st = ic_chain_id e ∧
    sc_covenant_id st = ic_covenant_id e ∧
    sc_asset_id st = sc_asset_id (ic_latest_state e) ∧
    open_outpoint s covenant = Some spent ∧ spend_ok h ∧
    s' = im_set_map s (<[covenant := spend_result e st h]> (im_map s)).
Proof.
  cbn. unfold im_update, im_has_replay. split.
  - destruct (im_map s !! covenant) as [e|]; [|done]. cbn [mbind result_bind ok_or]. intros E.
    apply bind_ok in E as (e' & E & E'). apply apply_spend_ok in E as (Hr&?&?&?&Ho&?&->).
    apply (inj Ok) in E' as <-. exists e.
    rewrite (bool_decide_eq_false_2 (rid ∈ ic_accepted_receipts e)) by exact Hr.
    split_and!; assumption || reflexivity.
  - intros (e & He & Hr & ? & ? & ? & Ho & ? & ->). rewrite He in Hr, Ho |- *.
    apply bool_decide_eq_false in Hr. cbn in *.
    rewrite (proj2 (apply_spend_ok e rid spent created st daa (Some c) (Some m)
      (spend_result e st (spend_entry_of e rid spent created st daa (Some c) (Some m)))));
      [done|]. cbn zeta. by split_and!.
Qed.

(** Fact: Replay protection: once a receipt has been accepted for a covenant (and
    not rolled back), every further spend under that receipt id is refused with
    [Replay], whatever else it contains, and the store keeps its state. *)
Theorem apply_spend_rejects_replay (s : InMemoryIndexer) covenant rid spent created st daa :
  has_replay s covenant rid = true →
  apply_spend s covenant rid spent created st daa = Err (IE_Replay rid) ∧
  exec_all s [CallSpend covenant rid spent created st daa] = s.
Proof.
  cbn. unfold im_has_replay, im_update. intros Hr.
  destruct (im_map s !! covenant) as [e|]; [|done]. apply bool_decide_eq_true in Hr.
  cbn. unfold apply_spend_to_entry. cbn.
  by rewrite (fail_if_true (rid ∈ ic_accepted_receipts e)).
Qed.

(** [latest_state] and the receipts of an entry after undoing: the entry with
    another DAA score. *)
Definition with_daa (e : IndexedCovenant) (daa : u64) : IndexedCovenant := {|
  ic_covenant_id := ic_covenant_id e; ic_lineage_id := ic_lineage_id e;
  ic_chain_id := ic_chain_id e; ic_open_outpoint := ic_open_outpoint e;
  ic_latest_state := ic_latest_state e; ic_accepted_receipts := ic_accepted_receipts e;
  ic_spend_history := ic_spend_history e; ic_last_update_daa_score := daa |}.

(** A spend, as the arguments of [apply_spend_to_entry]. *)
Record spend_args := {
  sa_receipt : ReceiptId; sa_spent : KaspaOutpoint; sa_created : KaspaOutpoint;
  sa_state : RgkStateCommitment; sa_daa : u64; sa_continuation : option ContinuationProof;
  sa_migration : option PolicyMigrationProof
}.

Definition apply_args (e : IndexedCovenant) (a : spend_args) : iresult IndexedCovenant :=
  apply_spend_to_entry e (sa_receipt a) (sa_spent a) (sa_created a) (sa_state a) (sa_daa a)
    (sa_continuation a) (sa_migration a).

Lemma rollback_one_undoes cov o d p e a e' x :
  entry_inv cov o d p e → apply_args e a = Ok e' →
  sc_version (sa_state a) = sc_version (ic_latest_state e) →
  rollback_one (with_daa e' x) = Ok (with_daa e (saturating_sub (sa_daa a) (wrap 64 1))).
Proof.
  intros [Hic Hcov Hch _ _ _] (_ & Hc & Hv & Has & Ho & _ & ->)%apply_spend_ok Hver.
  unfold rollback_one. cbn [spend_result with_daa ic_spend_history].
  rewrite pop_snoc. cbn. rewrite removelast_last. unfold with_daa. rewrite Ho. do 2 f_equal.
  destruct e as [? ? ? ? []]; cbn in *. congruence.
Qed.

Lemma rollback_loop_undoes cov o d p e l e' x :
  entry_inv cov o d p e → try_fold apply_args e l = Ok e' →
  Forall (λ a, sc_version (sa_state a) = sc_version (ic_latest_state e)) l →
  rollback_loop (length l) (with_daa e' x) =
    Ok (with_daa e (match l with [] => x | a :: _ => saturating_sub (sa_daa a) (wrap 64 1) end)).
Proof.
  intros He. revert e' x. induction l as [|a l IH] using rev_ind; intros e' x E Hver.
  - by injection E as <-.
  - rewrite try_fold_app in E. inv_ok. cbn [try_fold] in E. inv_ok.
    apply Forall_app in Hver as [Hver [Ha _]%Forall_cons].
    assert (entry_inv cov o d p x0 ∧ sc_version (ic_latest_state x0) = sc_version (ic_latest_state e))
      as [Hx Hvx].
    { clear -He H0 Hver. revert e He H0 Hver. induction l as [|b l IH]; intros e He E Hver.
      - injection E as <-. done.
      - cbn in E. inv_ok. apply Forall_cons in Hver as [Hb Hver].
        assert (sc_version (ic_latest_state x) = sc_version (ic_latest_state e)) as Hx.
        { by apply apply_spend_ok in H0 as (_&_&_&_&_&_&->). }
        destruct (IH x) as [? ->]; [by eapply apply_spend_inv|done| |done].
        eapply Forall_impl; [done|]. cbn. congruence. }
    rewrite length_app, Nat.add_comm. cbn [length Nat.add rollback_loop].
    rewrite (rollback_one_undoes cov o d p x0 a) by (done || congruence).
    cbn [mbind result_bind]. rewrite IH by done. by destruct l.
Qed.

(** Fact: Rollback undoes spending: after any non-empty run of accepted spends on
    an entry (whose states keep the encoding version), rolling back that many
    gives the original entry back, open outpoint, state, receipts and history
    alike; only the DAA score differs, being one less than the first undone
    spend's, not the score the entry had. *)
Theorem rollback_undoes_spends covenant o d p e e' a l (depth : u64) :
  entry_inv covenant o d p e →
  try_fold apply_args e (a :: l) = Ok e' →
  Forall (λ a, sc_version (sa_state a) = sc_version (ic_latest_state e)) (a :: l) →
  uval depth = Z.of_nat (length (a :: l)) →
  rollback_entry e' depth = Ok (with_daa e (saturating_sub (sa_daa a) (wrap 64 1))).
Proof.
  intros He E Hver Hd.
  assert (Hlen : ∀ k e e', try_fold apply_args e k = Ok e' →
    length (ic_spend_history e') = (length (ic_spend_history e) + length k)%nat).
  { clear. induction k as [|b k IH]; intros e e' E; cbn in E; inv_ok; cbn [length]; [lia|].
    rewrite (IH _ _ E). apply apply_spend_ok in H0 as (_&_&_&_&_&_&->). cbn.
    rewrite length_app. cbn. lia. }
  pose proof (Hlen _ _ _ E). unfold rollback_entry. pass_guard. cbn [mbind result_bind].
  rewrite Hd, Nat2Z.id.
  pose proof (rollback_loop_undoes _ _ _ _ _ _ _ (ic_last_update_daa_score e') He E Hver) as R.
  replace (with_daa e' (ic_last_update_daa_score e')) with e' in R by by destruct e'. done.
Qed.

(** Fact: Rollback cuts the history, and only that: on a covenant with the lineage
    invariant, rolling back [depth] spends succeeds iff the history holds that
    many (and fails with [RollbackTooDeep] otherwise); the history and the
    accepted receipts lose exactly their last [depth] elements, the open
    outpoint, digest and policy become those of the cut point, and the
    invariant still holds from the same origin. *)
Theorem rollback_cuts covenant o d p e (depth : u64) :
  entry_inv covenant o d p e →
  ((Z.of_nat (length (ic_spend_history e)) < depth)%Z →
     rollback_entry e depth =
       Err (IE_RollbackTooDeep depth (length (ic_spend_history e)))) ∧
  ((depth <= Z.of_nat (length (ic_spend_history e)))%Z →
     ∃ e', rollback_entry e depth = Ok e' ∧ entry_inv covenant o d p e' ∧
       let keep := (length (ic_spend_history e) - Z.to_nat depth)%nat in
       ic_spend_history e' = take keep (ic_spend_history e) ∧
       ic_accepted_receipts e' = take keep (ic_accepted_receipts e)).
Proof.
  intros He. pose proof (uint_range depth). unfold rollback_entry. split; intros Hd.
  - by rewrite fail_if_true.
  - pass_guard. cbn [mbind result_bind].
    destruct (rollback_loop_inv covenant o d p (Z.to_nat depth) e) as (e' & -> & Hh & He');
      [done|lia|]. exists e'. split_and!; [done|done|done|].
    by rewrite (ei_receipts _ _ _ _ _ He'), (ei_receipts _ _ _ _ _ He), Hh, fmap_take.
Qed.

(** Fact: The lane index: after any sequence of calls, a lane found by scan tag
    carries that tag and is the lane registered under its id; and a successful
    [register_lane] makes the lane retrievable by its id and by its tag, for a
    lane that agrees with the current chain, asset, digest and DAA score of its
    covenant. *)
Theorem lane_index_sound (cs : list call) (lane : IndexedLane) :
  let s := exec_all in_memory_new cs in
  (∀ tag, lane_by_scan_tag s tag = Some lane →
     il_scan_tag lane = Some tag ∧ lane_by_id s (il_lane_id lane) = Some lane) ∧
  (∀ s', register_lane s lane = Ok s' →
     lane_by_id s' (il_lane_id lane) = Some lane ∧
     (∀ tag, il_scan_tag lane = Some tag → lane_by_scan_tag s' tag = Some lane) ∧
     ∃ e, lookup_covenant s (il_covenant_id lane) = Some e ∧
       il_chain_id lane = ic_chain_id e ∧
       il_asset_id lane = sc_asset_id (ic_latest_state e) ∧
       il_state_digest lane = sc_state_digest (ic_latest_state e) ∧
       il_last_update_daa_score lane = ic_last_update_daa_score e).
Proof.
  intros s. pose proof (exec_all_inv _ cs in_memory_new_inv) as Hs. fold s in Hs. split.
  - cbn. intros tag (l & Hl & Hlane)%bind_Some.
    destruct (st_tags _ Hs _ _ Hl) as (lane' & Hlane' & Htag).
    assert (lane' = lane) as -> by congruence. split; [done|].
    by destruct (st_lanes _ Hs _ _ Hlane) as (-> & _).
  - cbn. unfold im_register_lane. intros s' E. inv_ok. cbn.
    apply validate_lane_ok in H1 as (_&_&_&?&_&?&?&?). split_and!.
    + apply lookup_insert_eq.
    + intros tag ->. rewrite lookup_insert_eq. cbn. apply lookup_insert_eq.
    + exists x. by split_and!.
Qed.
End claims.

(** * Concrete stores *)

From S2P Require Import CoreSamples.

Definition sample_outpoint (z : Z) : KaspaOutpoint := {| transaction_id := b32 z; index := n32 0 |}.

Definition sample_open : call :=
  CallOpen KaspaLocalToccata (b32 21) (b32 70) (sample_state 100) (sample_outpoint 1) (n64 1000).

Definition sample_spend (k : Z) : call :=
  CallSpend (b32 21) (b32 (200 + k)) (sample_outpoint k) (sample_outpoint (k + 1))
    (sample_state (100 + k)) (n64 (1000 + k)).

Definition sample_lane (id : Z) (tag : option Bytes32) : IndexedLane := {|
  il_chain_id := KaspaLocalToccata; il_covenant_id := b32 21; il_asset_id := b32 22;
  il_lane_id := b32 id; il_epoch := n64 1; il_scan_tag := tag; il_public_lineage := false;
  il_state_digest := b32 100; il_last_update_daa_score := n64 1000 |}.

Section sample_store.
#[local] Instance store_sha256 : Sha256 := toy_sha256.

(** Fact: The scan-tag index is not complete: when two lanes share a tag and the
    first is registered again without it, the entry of the second is removed
    with it, so a registered lane with that tag is no longer found by it. *)
Theorem scan_tag_index_loses_lane :
  let s := exec_all in_memory_new
    [sample_open; CallLane (sample_lane 1 (Some (b32 50)));
     CallLane (sample_lane 2 (Some (b32 50))); CallLane (sample_lane 1 None)] in
  lane_by_id s (b32 2) = Some (sample_lane 2 (Some (b32 50))) ∧
  lane_by_scan_tag s (b32 50) = None.
Proof. by vm_compute. Qed.

Lemma indexer_lineage_invariant_witness :
  ∃ e o d p, lookup_covenant (exec_all in_memory_new [sample_open; sample_spend 1; sample_spend 2])
    (b32 21) = Some e ∧ length (ic_spend_history e) = 2%nat ∧ entry_inv (b32 21) o d p e.
Proof.
  set (cs := [sample_open; sample_spend 1; sample_spend 2]).
  destruct (lookup_covenant (exec_all in_memory_new cs) (b32 21)) as [e|] eqn:E;
    [|by vm_compute in E].
  destruct (indexer_lineage_invariant cs (b32 21) e E) as (o & d & p & He).
  exists e, o, d, p. split; [done|]. split; [|exact He].
  vm_compute in E. by injection E as <-.
Defined.

Lemma apply_spend_rejects_replay_witness :
  apply_spend (exec_all in_memory_new [sample_open; sample_spend 1]) (b32 21) (b32 201)
    (sample_outpoint 2) (sample_outpoint 3) (sample_state 102) (n64 1002) =
    Err (IE_Replay (b32 201)).
Proof. apply apply_spend_rejects_replay. by vm_compute. Defined.

Definition sample_entry : IndexedCovenant :=
  opened (b32 21) KaspaLocalToccata (b32 70) (sample_state 100) (sample_outpoint 1) (n64 1000).

Definition sample_args (k : Z) : spend_args := {|
  sa_receipt := b32 (200 + k); sa_spent := sample_outpoint k;
  sa_created := sample_outpoint (k + 1); sa_state := sample_state (100 + k);
  sa_daa := n64 (1000 + k); sa_continuation := None; sa_migration := None |}.

Lemma sample_entry_inv :
  entry_inv (b32 21) (sample_outpoint 1) (b32 100) Any sample_entry.
Proof. by apply (opened_inv (b32 21) KaspaLocalToccata (b32 70) (sample_state 100)). Defined.

Definition sample_spent_entry : IndexedCovenant :=
  default sample_entry (to_option (try_fold apply_args sample_entry [sample_args 1; sample_args 2])).

Lemma rollback_undoes_spends_witness :
  rollback_entry sample_spent_entry (n64 2) = Ok (with_daa sample_entry (n64 1000)).
Proof.
  rewrite (rollback_undoes_spends (b32 21) (sample_outpoint 1) (b32 100) Any sample_entry
    sample_spent_entry (sample_args 1) [sample_args 2] (n64 2) sample_entry_inv);
    [by vm_compute|by vm_compute|by repeat constructor|by vm_compute].
Defined.

Lemma rollback_cuts_witness :
  ∃ e, rollback_entry sample_entry (n64 0) = Ok e ∧
    entry_inv (b32 21) (sample_outpoint 1) (b32 100) Any e.
Proof.
  destruct (rollback_cuts _ _ _ _ sample_entry (n64 0) sample_entry_inv) as [_ R].
  destruct R as (e & E & He & _); [by vm_compute|]. by exists e.
Defined.
End sample_store.
