(* ===== verification/IndexerCodec.v ===== *)
(** The persistent records of the sled-backed indexer
    (src/crates/rgk-indexer/src/lib.rs): covenants, lanes, observed spends and
    scan cursors, with their encoders, decoders and round trips. *)

From stdpp Require Import base list strings gmap.
From Stdlib Require Import ZArith Lia Strings.Byte.
From S2P Require Import Prelude.
From S2P Require Import Bytes.
From S2P Require Import Encoding.
From S2P Require Import Types.
From S2P Require Import Records.
From S2P Require Import Commit.
From S2P Require Import Hex.
From S2P Require Import IndexerTypes.
From S2P Require Import Indexer.
From S2P Require Import IndexerCorrect.

Open Scope list_scope.

(** [b"rgkidx3\0"], [b"rgkidx2\0"], [b"rgkscan\0"], [b"rgklane\0"], [b"rgkspnd\0"] *)
Definition INDEXED_COVENANT_MAGIC : bytes 8 :=
  to_array 8 [x72; x67; x6b; x69; x64; x78; x33; x00].
Definition INDEXED_COVENANT_MAGIC_V2 : bytes 8 :=
  to_array 8 [x72; x67; x6b; x69; x64; x78; x32; x00].
Definition SCAN_CURSOR_MAGIC : bytes 8 := to_array 8 [x72; x67; x6b; x73; x63; x61; x6e; x00].
Definition INDEXED_LANE_MAGIC : bytes 8 := to_array 8 [x72; x67; x6b; x6c; x61; x6e; x65; x00].
Definition OBSERVED_SPEND_MAGIC : bytes 8 := to_array 8 [x72; x67; x6b; x73; x70; x6e; x64; x00].

Definition decode_err (e : DecodeError) : IndexerError :=
  IE_Storage ("corrupt indexer record: " ++ decode_error_display e)%string.

(** [r.read_x().map_err(decode_err)?] *)
Definition rd {A} (p : parser DecodeError A) : parser IndexerError A := pmap_err decode_err p.

(** * Covenants *)

Definition write_continuation (proof : ContinuationProof) : Writer → Writer :=
  write_bytes32 (co_commitment proof) ▷
  write_bytes32 (co_shape_root proof) ▷
  write_bytes32 (co_transition_digest proof).

Definition write_migration (proof : PolicyMigrationProof) : Writer → Writer :=
  encode (pm_previous_policy proof) ▷
  encode (pm_new_policy proof) ▷
  write_bytes32 (pm_previous_state_digest proof) ▷
  write_bytes32 (pm_new_state_digest proof) ▷
  write_bytes32 (pm_transition_digest proof) ▷
  write_bytes32 (pm_authorization_commitment proof) ▷
  write_bytes32 (pm_migration_commitment proof).

Definition write_certificate (certificate : AllocationAuditCertificateRecord) : Writer → Writer :=
  write_bytes32 (aac_certificate_id certificate) ▷
  write_blob (aac_canonical_bytes certificate).

Definition write_spend (spend : SpendEntry) : Writer → Writer :=
  write_u64 (se_daa_score spend) ▷
  encode (se_spent spend) ▷
  encode (se_created spend) ▷
  write_bytes32 (se_new_state_digest spend) ▷
  write_bytes32 (se_resulting_state_digest spend) ▷
  encode (se_previous_receipt_policy spend) ▷
  encode (se_new_receipt_policy spend) ▷
  write_bytes32 (se_receipt_id spend) ▷
  write_option write_continuation (se_continuation spend) ▷
  write_option write_migration (se_policy_migration spend) ▷
  write_option write_certificate (se_allocation_audit_certificate spend).

(** The certificates are validated while the history is written; writing has no
    other way to fail. *)
Definition encode_indexed_covenant (entry : IndexedCovenant) : iresult (list byte) :=
  _ ← try_fold (λ _ spend,
        when_some (se_allocation_audit_certificate spend)
          validate_allocation_audit_certificate_record) () (ic_spend_history entry);
  Ok (into_vec ((
    write_bytes INDEXED_COVENANT_MAGIC ▷
    write_bytes32 (ic_covenant_id entry) ▷
    write_bytes32 (ic_lineage_id entry) ▷
    encode (ic_chain_id entry) ▷
    write_option encode (ic_open_outpoint entry) ▷
    encode (ic_latest_state entry) ▷
    write_u32 (wrap 32 (Z.of_nat (length (ic_accepted_receipts entry)))) ▷
    write_all write_bytes32 (ic_accepted_receipts entry) ▷
    write_u32 (wrap 32 (Z.of_nat (length (ic_spend_history entry)))) ▷
    write_all write_spend (ic_spend_history entry) ▷
    write_u64 (ic_last_update_daa_score entry)) writer_new)).

Definition decode_continuation : parser IndexerError ContinuationProof :=
  commitment ← rd read_bytes32;
  shape_root ← rd read_bytes32;
  transition_digest ← rd read_bytes32;
  let proof := {| co_commitment := commitment; co_shape_root := shape_root;
                  co_transition_digest := transition_digest |} in
  _ ← plift (validate_continuation_proof proof);
  mret proof.

Definition decode_migration : parser IndexerError PolicyMigrationProof :=
  previous_policy ← rd decode;
  new_policy ← rd decode;
  previous_state_digest ← rd read_bytes32;
  new_state_digest ← rd read_bytes32;
  transition_digest ← rd read_bytes32;
  authorization_commitment ← rd read_bytes32;
  migration_commitment ← rd read_bytes32;
  mret {| pm_previous_policy := previous_policy; pm_new_policy := new_policy;
          pm_previous_state_digest := previous_state_digest;
          pm_new_state_digest := new_state_digest; pm_transition_digest := transition_digest;
          pm_authorization_commitment := authorization_commitment;
          pm_migration_commitment := migration_commitment |}.

Definition decode_allocation_audit_certificate_record
  : parser IndexerError AllocationAuditCertificateRecord :=
  certificate_id ← rd read_bytes32;
  canonical_bytes ← rd read_blob;
  plift (certificate_record_new certificate_id canonical_bytes).

Section codec.
Context `{Sha256}.

Definition decode_spend (has_allocation_audit_certificate_field : bool)
  : parser IndexerError SpendEntry :=
  daa_score ← rd read_u64;
  spent ← rd decode;
  created ← rd decode;
  new_state_digest ← rd read_bytes32;
  resulting_state_digest ← rd read_bytes32;
  previous_receipt_policy ← rd decode;
  new_receipt_policy ← rd decode;
  receipt_id ← rd read_bytes32;
  continuation ← read_option (rd read_bool) decode_continuation;
  policy_migration ← read_option (rd read_bool) decode_migration;
  _ ← plift (when_some policy_migration (λ proof,
        continuation ← ok_or continuation
          (IE_Storage "corrupt indexer record: policy migration without continuation proof");
        validate_policy_migration_proof proof previous_receipt_policy new_receipt_policy
          new_state_digest resulting_state_digest (co_transition_digest continuation)));
  allocation_audit_certificate ←
    (if has_allocation_audit_certificate_field
     then read_option (rd read_bool) decode_allocation_audit_certificate_record
     else mret None);
  mret {| se_daa_score := daa_score; se_spent := spent; se_created := created;
          se_new_state_digest := new_state_digest;
          se_resulting_state_digest := resulting_state_digest;
          se_previous_receipt_policy := previous_receipt_policy;
          se_new_receipt_policy := new_receipt_policy; se_receipt_id := receipt_id;
          se_continuation := continuation; se_policy_migration := policy_migration;
          se_allocation_audit_certificate := allocation_audit_certificate |}.

Definition decode_indexed_covenant (buf : list byte) : iresult IndexedCovenant :=
  run_record (
    magic ← rd (read_array 8);
    has_allocation_audit_certificate_field ← plift (
      if decide (magic = INDEXED_COVENANT_MAGIC) then Ok true
      else if decide (magic = INDEXED_COVENANT_MAGIC_V2) then Ok false
      else Err (IE_Storage "bad indexer record magic"));
    covenant_id ← rd read_bytes32;
    lineage_id ← rd read_bytes32;
    chain_id ← rd decode;
    open_outpoint ← read_option (rd read_bool) (rd decode);
    latest_state ← rd decode;
    receipt_len ← rd read_u32;
    accepted_receipts ← read_n (Z.to_nat (uval receipt_len)) (rd read_bytes32);
    spend_len ← rd read_u32;
    spend_history ← read_n (Z.to_nat (uval spend_len))
                      (decode_spend has_allocation_audit_certificate_field);
    last_update_daa_score ← rd read_u64;
    _ ← rd ensure_consumed;
    _ ← plift (fail_if (sc_covenant_id latest_state ≠ covenant_id
                        ∨ sc_chain_id latest_state ≠ chain_id)
                 (IE_Storage "indexer record state key mismatch"));
    mret {| ic_covenant_id := covenant_id; ic_lineage_id := lineage_id;
            ic_chain_id := chain_id; ic_open_outpoint := open_outpoint;
            ic_latest_state := latest_state; ic_accepted_receipts := accepted_receipts;
            ic_spend_history := spend_history;
            ic_last_update_daa_score := last_update_daa_score |}) buf.
End codec.

(** * Lanes *)

Definition encode_indexed_lane (lane : IndexedLane) : list byte :=
  into_vec ((
    write_bytes INDEXED_LANE_MAGIC ▷
    encode (il_chain_id lane) ▷
    write_bytes32 (il_covenant_id lane) ▷
    write_bytes32 (il_asset_id lane) ▷
    write_bytes32 (il_lane_id lane) ▷
    write_u64 (il_epoch lane) ▷
    write_option write_bytes32 (il_scan_tag lane) ▷
    write_bool (il_public_lineage lane) ▷
    write_bytes32 (il_state_digest lane) ▷
    write_u64 (il_last_update_daa_score lane)) writer_new).

Definition decode_indexed_lane (buf : list byte) : iresult IndexedLane :=
  run_record (
    magic ← rd (read_array 8);
    _ ← plift (fail_if (magic ≠ INDEXED_LANE_MAGIC) (IE_Storage "bad lane record magic"));
    chain_id ← rd decode;
    covenant_id ← rd read_bytes32;
    asset_id ← rd read_bytes32;
    lane_id ← rd read_bytes32;
    epoch ← rd read_u64;
    scan_tag ← read_option (rd read_bool) (rd read_bytes32);
    public_lineage ← rd read_bool;
    state_digest ← rd read_bytes32;
    last_update_daa_score ← rd read_u64;
    _ ← rd ensure_consumed;
    let lane := {|
      il_chain_id := chain_id; il_covenant_id := covenant_id; il_asset_id := asset_id;
      il_lane_id := lane_id; il_epoch := epoch; il_scan_tag := scan_tag;
      il_public_lineage := public_lineage; il_state_digest := state_digest;
      il_last_update_daa_score := last_update_daa_score |} in
    _ ← plift (fail_if (il_lane_id lane = zero32) (IE_Storage "bad lane id"));
    _ ← plift (fail_if (il_state_digest lane = zero32) (IE_Storage "bad lane state digest"));
    _ ← plift (fail_if (il_scan_tag lane = Some zero32) (IE_Storage "bad lane scan tag"));
    mret lane) buf.

(** * Observed spends *)

Definition encode_observed_spend_key (spent : KaspaOutpoint) : list byte :=
  into_vec (encode spent writer_new).

Definition encode_observed_spend_record (record : ObservedSpendRecord) : list byte :=
  into_vec ((
    write_bytes OBSERVED_SPEND_MAGIC ▷
    encode (os_spent record) ▷
    write_bytes32 (os_spending_txid record) ▷
    write_u32 (os_input_index record) ▷
    write_option write_u64 (os_block_daa_score record)) writer_new).

Definition decode_observed_spend_record (buf : list byte) : iresult ObservedSpendRecord :=
  run_record (
    magic ← rd (read_array 8);
    _ ← plift (fail_if (magic ≠ OBSERVED_SPEND_MAGIC)
                 (IE_Storage "bad observed spend record magic"));
    spent ← rd decode;
    spending_txid ← rd read_bytes32;
    input_index ← rd read_u32;
    block_daa_score ← read_option (rd read_bool) (rd read_u64);
    _ ← rd ensure_consumed;
    mret {| os_spent := spent; os_spending_txid := spending_txid;
            os_input_index := input_index; os_block_daa_score := block_daa_score |}) buf.

(** * Scan cursors *)

Definition encode_scan_cursor (cursor : ScanCursor) : list byte :=
  into_vec ((
    write_bytes SCAN_CURSOR_MAGIC ▷
    encode (cu_chain_id cursor) ▷
    write_bytes32 (cu_block_hash cursor) ▷
    write_u64 (cu_daa_score cursor)) writer_new).

Definition decode_scan_cursor (buf : list byte) : iresult ScanCursor :=
  run_record (
    magic ← rd (read_array 8);
    _ ← plift (fail_if (magic ≠ SCAN_CURSOR_MAGIC) (IE_Storage "bad scan cursor magic"));
    chain_id ← rd decode;
    block_hash ← rd read_bytes32;
    daa_score ← rd read_u64;
    _ ← rd ensure_consumed;
    mret {| cu_chain_id := chain_id; cu_block_hash := block_hash; cu_daa_score := daa_score |}) buf.

(** * Round trips *)

Lemma rd_consumed {B} r (k : unit → parser IndexerError B) :
  r_pos r = length (r_buf r) → (rd ensure_consumed ≫= k) r = k () r.
Proof. apply consumed_intro. Qed.

#[export] Instance rd_reads {A} (p : parser DecodeError A) P f : Reads p P f → Reads (rd p) P f | 5.
Proof. apply pmap_err_reads. Qed.

(** The lane records the indexer stores. *)
Lemma lane_roundtrip lane :
  il_lane_id lane ≠ zero32 → il_state_digest lane ≠ zero32 → il_scan_tag lane ≠ Some zero32 →
  decode_indexed_lane (encode_indexed_lane lane) = Ok lane.
Proof.
  intros Hl Hd Ht. apply run_record_complete.
  - pose proof (length_option write_bytes32 32 (il_scan_tag lane) _ length_bytes32).
    record_length. lia.
  - intros r r' Hr H Hend. split_steps. read_steps. rewrite rd_consumed by done. read_steps.
    by destruct lane.
Qed.

Lemma scan_cursor_roundtrip c : decode_scan_cursor (encode_scan_cursor c) = Ok c.
Proof.
  apply run_record_complete.
  - record_length. lia.
  - intros r r' Hr H Hend. split_steps. read_steps. rewrite rd_consumed by done. by destruct c.
Qed.

Lemma observed_spend_roundtrip o :
  decode_observed_spend_record (encode_observed_spend_record o) = Ok o.
Proof.
  apply run_record_complete.
  - pose proof (length_option write_u64 8 (os_block_daa_score o) _ length_u64).
    record_length. lia.
  - intros r r' Hr H Hend. split_steps. read_steps. rewrite rd_consumed by done. by destruct o.
Qed.

Lemma observed_spend_key_inj o o' :
  encode_observed_spend_key o = encode_observed_spend_key o' → o = o'.
Proof.
  unfold encode_observed_spend_key, into_vec, writer_new. cbn [encode KaspaOutpoint_canonical].
  rewrite !write_seq_nil by apply _. unfold write_bytes32, write_u32. cbn [app]. intros E.
  apply bytes_app_inj in E as [Et E]. rewrite <-(app_nil_r (u32_le (index o))) in E.
  rewrite <-(app_nil_r (u32_le (index o'))) in E. apply u32_le_app_inj in E as [Ei _].
  destruct o, o'; cbn in *; congruence.
Qed.

(** Covenant records. *)
#[export] Instance write_continuation_appending p : Appending (write_continuation p).
Proof. unfold write_continuation. apply _. Qed.
#[export] Instance write_migration_appending p : Appending (write_migration p).
Proof. unfold write_migration. apply _. Qed.
#[export] Instance write_certificate_appending p : Appending (write_certificate p).
Proof. unfold write_certificate. apply _. Qed.
#[export] Instance write_spend_appending s : Appending (write_spend s).
Proof. unfold write_spend. apply _. Qed.

#[export] Instance continuation_reads :
  Reads decode_continuation (λ p, validate_continuation_proof p = Ok ()) write_continuation.
Proof.
  intros r p r' Hr Hp H. unfold decode_continuation, write_continuation in *. destruct p.
  split_steps. by read_steps.
Qed.

#[export] Instance migration_reads : Reads decode_migration always write_migration.
Proof.
  intros r p r' Hr Hp H. unfold decode_migration, write_migration in *.
  split_steps. read_steps. by destruct p.
Qed.

Lemma certificate_valid_length a :
  validate_allocation_audit_certificate_record a = Ok () →
  (Z.of_nat (length (aac_canonical_bytes a)) <= MAX_BLOB_BYTES)%Z.
Proof.
  unfold validate_allocation_audit_certificate_record. intros E. inv_ok.
  unfold MAX_ALLOCATION_AUDIT_CERTIFICATE_BYTES in *. lia.
Qed.

#[export] Instance certificate_reads :
  Reads decode_allocation_audit_certificate_record
    (λ a, validate_allocation_audit_certificate_record a = Ok ()) write_certificate.
Proof.
  intros r a r' Hr Ha H. unfold decode_allocation_audit_certificate_record, write_certificate in *.
  pose proof (certificate_valid_length _ Ha).
  split_steps. read_steps. apply plift_ok. split; [|done].
  destruct a; cbn. unfold certificate_record_new. by rewrite Ha.
Qed.

Section covenant_roundtrip.
Context `{Sha256}.

#[export] Instance spend_reads : Reads (decode_spend true) spend_ok write_spend.
Proof.
  intros r s r' Hr [_ Hc Hm Ha] H0. unfold decode_spend, write_spend in *.
  split_steps. read_steps.
  rewrite (plift_intro _ _ _ ()); cycle 1.
  { apply when_some_ok. intros p Hp. destruct (Hm p Hp) as (c & -> & Hv). exact Hv. }
  cbn beta. read_steps. by destruct s.
Qed.

Lemma spend_length s : spend_ok s → (Z.of_nat (length (write_spend s [])) <= 2 ^ 21)%Z.
Proof.
  intros [_ _ _ Ha]. unfold write_spend. record_length.
  assert (Hc : (length (write_option write_continuation (se_continuation s) []) <= 97)%nat).
  { apply length_option; [apply _|]. intros. unfold write_continuation. by record_length. }
  assert (Hm : (length (write_option write_migration (se_policy_migration s) []) <= 165)%nat).
  { apply length_option; [apply _|]. intros. unfold write_migration. record_length.
    done. }
  assert (Hcert : (Z.of_nat (length (write_option write_certificate
    (se_allocation_audit_certificate s) [])) <= 37 + MAX_BLOB_BYTES)%Z).
  { unfold write_option. destruct (se_allocation_audit_certificate s) as [a|];
      rewrite write_seq_nil by apply _; rewrite length_app, length_bool; [|by vm_compute].
    unfold write_certificate. record_length. rewrite length_blob. pose proof (certificate_valid_length a (Ha a eq_refl)). lia. }
  assert (uval MAX_BLOB_BYTES = 1048576%Z) by done.
  lia.
Qed.

Lemma spends_length l :
  Forall spend_ok l → (Z.of_nat (length (write_all write_spend l [])) <= 2 ^ 21 * Z.of_nat (length l))%Z.
Proof.
  induction 1 as [|s l Hs _ IH]; [done|]. rewrite write_all_cons, write_seq_nil by apply _.
  rewrite length_app. cbn [length]. pose proof (spend_length s Hs). lia.
Qed.

Lemma receipts_length l : length (write_all write_bytes32 l []) = (32 * length l)%nat.
Proof.
  induction l as [|x l IH]; [done|]. rewrite write_all_cons, write_seq_nil by apply _.
  rewrite length_app, length_bytes32, IH. cbn [length]. lia.
Qed.

(** What an entry needs for its record to be read back: a structurally valid
    state, filed under its own covenant and chain, valid spends, and lists
    whose lengths fit the 32-bit counters. *)
Record storable (e : IndexedCovenant) : Prop := {
  sb_state : state_valid (ic_latest_state e);
  sb_covenant : sc_covenant_id (ic_latest_state e) = ic_covenant_id e;
  sb_chain : sc_chain_id (ic_latest_state e) = ic_chain_id e;
  sb_spends : Forall spend_ok (ic_spend_history e);
  sb_receipts_len : (Z.of_nat (length (ic_accepted_receipts e)) < 2 ^ 32)%Z;
  sb_history_len : (Z.of_nat (length (ic_spend_history e)) < 2 ^ 32)%Z
}.

Lemma covenant_encodes e :
  Forall spend_ok (ic_spend_history e) → ∃ bs, encode_indexed_covenant e = Ok bs.
Proof.
  intros Hs. unfold encode_indexed_covenant.
  assert (∀ l, Forall spend_ok l → try_fold (λ _ spend,
      when_some (se_allocation_audit_certificate spend)
        validate_allocation_audit_certificate_record) () l = Ok ()) as Hv.
  { induction 1 as [|s l [_ _ _ Ha] _ IH]; [done|]. cbn [try_fold].
    by rewrite (proj2 (when_some_ok _ _ ()) Ha). }
  rewrite Hv by done. by eexists.
Qed.

Lemma covenant_roundtrip e :
  storable e → ∃ bs, encode_indexed_covenant e = Ok bs ∧ decode_indexed_covenant bs = Ok e.
Proof.
  intros [Hst Hcov Hch Hsp Hrl Hhl]. destruct (covenant_encodes e Hsp) as [bs Ebs].
  exists bs. split; [done|]. unfold encode_indexed_covenant in Ebs.
  apply bind_ok in Ebs as (_ & _ & Ebs). apply (inj Ok) in Ebs as <-.
  apply run_record_complete.
  { pose proof (length_option encode 36 (ic_open_outpoint e) _ length_outpoint).
    pose proof (spends_length _ Hsp). record_length. rewrite receipts_length.
    assert (length (encode (ic_latest_state e) []) = 102%nat).
    { cbn [encode RgkStateCommitment_canonical]. by record_length. }
    lia. }
  intros r r' Hr H0 Hend. split_steps.
  do 1 read_step. rewrite (plift_intro _ _ _ true) by (by rewrite decide_True by done). cbn beta.
  read_steps.
  - rewrite rd_consumed by done. rewrite (plift_intro _ _ _ ()); [by destruct e|].
    apply fail_if_false. by intros [].
  - rewrite uval_wrap_small by lia. split; [lia|done].
  - rewrite uval_wrap_small by lia. split; [lia|by apply Forall_true].
Qed.

Lemma linked_spends_ok o d p h o' d' p' : linked o d p h o' d' p' → Forall spend_ok h.
Proof. induction 1; [constructor|]. apply Forall_app. split; [done|by constructor]. Qed.

Lemma entry_inv_storable covenant o d p e :
  entry_inv covenant o d p e → state_valid (ic_latest_state e) →
  (Z.of_nat (length (ic_spend_history e)) < 2 ^ 32)%Z → storable e.
Proof.
  intros [Hc Hsc Hch (oc & _ & Hl) Hr _] Hst Hlen. constructor; try done; [congruence| |].
  - by eapply linked_spends_ok.
  - by rewrite Hr, length_fmap.
Qed.

(** Fact: Indexer records survive a restart: the persistent record of a covenant
    entry that has the lineage invariant and a structurally valid state decodes
    to that very entry, provided the lists fit their 32-bit counters. *)
Theorem covenant_record_roundtrip covenant o d p (e : IndexedCovenant) bs :
  entry_inv covenant o d p e → state_valid (ic_latest_state e) →
  (Z.of_nat (length (ic_spend_history e)) < 2 ^ 32)%Z →
  encode_indexed_covenant e = Ok bs → decode_indexed_covenant bs = Ok e.
Proof.
  intros He Hst Hlen Hbs. destruct (covenant_roundtrip e) as (bs' & E & D); [|congruence].
  by eapply entry_inv_storable.
Qed.
End covenant_roundtrip.
