(* ===== verification/Sled.v ===== *)
(** The persistent indexer (src/crates/rgk-indexer/src/lib.rs, [SledIndexer])
    and its refinement of the in-memory one.

    sled is a third-party key-value store: the class [Tree] holds the operations
    the source calls and [TreeLaws] their documented behaviour on a store whose
    I/O does not fail; [map_tree] is a store that satisfies it. *)

From stdpp Require Import base list strings gmap sets.
From Stdlib Require Import ZArith Lia Strings.Byte.
From S2P Require Import Prelude.
From S2P Require Import Bytes.
From S2P Require Import Encoding.
From S2P Require Import Types.
From S2P Require Import Commit.
From S2P Require Import Hex.
From S2P Require Import IndexerTypes.
From S2P Require Import Indexer.
From S2P Require Import IndexerCorrect.
From S2P Require Import IndexerCodec.
From S2P Require Import CoreSamples.

Open Scope list_scope.

(** * The key-value store *)

(** A tree, with the text of the [sled::Error] a call may return. *)
Class Tree (T : Type) := {
  tree_get : T → list byte → result string (option (list byte));
  tree_insert : T → list byte → list byte → result string T;
  tree_remove : T → list byte → result string T;
  tree_flush : T → result string T;
  tree_iter : T → list (result string (list byte * list byte));
  tree_len : T → nat
}.

Class TreeLaws (T : Type) `{Tree T} := {
  view : T → gmap (list byte) (list byte);
  get_law t k : tree_get t k = Ok (view t !! k);
  insert_law t k v : ∃ t', tree_insert t k v = Ok t' ∧ view t' = <[k := v]> (view t);
  remove_law t k : ∃ t', tree_remove t k = Ok t' ∧ view t' = delete k (view t);
  flush_law t : ∃ t', tree_flush t = Ok t' ∧ view t' = view t;
  iter_law t : tree_iter t = Ok <$> ordered (view t);
  len_law t : tree_len t = size (view t)
}.

#[export] Instance map_tree : Tree (gmap (list byte) (list byte)) := {
  tree_get t k := Ok (t !! k);
  tree_insert t k v := Ok (<[k := v]> t);
  tree_remove t k := Ok (delete k t);
  tree_flush t := Ok t;
  tree_iter t := Ok <$> ordered t;
  tree_len t := size t
}.

#[export] Instance map_tree_laws : TreeLaws (gmap (list byte) (list byte)).
Proof. refine {| view := id |}; intros; try done; by eexists. Defined.

(** * [SledIndexer] *)

Record SledIndexer (T : Type) := {
  sl_covenants : T;
  sl_lanes : T;
  sl_scan_cursors : T;
  sl_observed_spends : T
}.
Arguments sl_covenants {T}.
Arguments sl_lanes {T}.
Arguments sl_scan_cursors {T}.
Arguments sl_observed_spends {T}.

Definition storage_err (e : string) : IndexerError := IE_Storage e.

(** [tree.get(k).map_err(storage_err)?.map(decode).transpose()] *)
Definition tree_load {T A} `{Tree T} (t : T) (k : list byte) (decode : list byte → iresult A)
  : iresult (option A) :=
  bytes ← map_err storage_err (tree_get t k);
  match bytes with
  | Some bytes => a ← decode bytes; Ok (Some a)
  | None => Ok None
  end.

(** [tree.insert(k, v).map_err(storage_err)?; tree.flush().map_err(storage_err)?] *)
Definition tree_store {T} `{Tree T} (t : T) (k v : list byte) : iresult T :=
  t ← map_err storage_err (tree_insert t k v);
  map_err storage_err (tree_flush t).

Section sled.
Context {T : Type} `{Tree T} `{Sha256}.
Abbreviation Sled := (SledIndexer T).

Definition set_covenants (s : Sled) (t : T) : Sled :=
  {| sl_covenants := t; sl_lanes := sl_lanes s; sl_scan_cursors := sl_scan_cursors s;
     sl_observed_spends := sl_observed_spends s |}.

Definition load_entry (s : Sled) (covenant : KaspaCovenantId) : iresult (option IndexedCovenant) :=
  tree_load (sl_covenants s) covenant decode_indexed_covenant.

Definition store_entry (s : Sled) (entry : IndexedCovenant) : iresult Sled :=
  bytes ← encode_indexed_covenant entry;
  t ← tree_store (sl_covenants s) (ic_covenant_id entry) bytes;
  Ok (set_covenants s t).

Definition load_lane (s : Sled) (lane_id : Bytes32) : iresult (option IndexedLane) :=
  tree_load (sl_lanes s) lane_id decode_indexed_lane.

Definition store_lane (s : Sled) (lane : IndexedLane) : iresult Sled :=
  t ← tree_store (sl_lanes s) (il_lane_id lane) (encode_indexed_lane lane);
  Ok {| sl_covenants := sl_covenants s; sl_lanes := t; sl_scan_cursors := sl_scan_cursors s;
        sl_observed_spends := sl_observed_spends s |}.

(** [let mut entry = self.load_entry(covenant)?.ok_or(NotIndexed)?; ..;
    self.store_entry(&entry)] *)
Definition sled_update (s : Sled) (covenant : KaspaCovenantId)
    (f : IndexedCovenant → iresult IndexedCovenant) : iresult Sled :=
  found ← load_entry s covenant;
  entry ← ok_or found (IE_NotIndexed covenant);
  entry' ← f entry;
  store_entry s entry'.

Definition sled_open (s : Sled) (chain : KaspaChainId) (covenant : KaspaCovenantId)
    (lineage : Bytes32) (initial : RgkStateCommitment) (open_outpoint : KaspaOutpoint)
    (daa_score : u64) : iresult Sled :=
  found ← load_entry s covenant;
  _ ← fail_if (is_Some found) (IE_AlreadyIndexed covenant);
  _ ← fail_if (sc_chain_id initial ≠ chain) (IE_ChainMismatch (sc_chain_id initial) chain);
  _ ← fail_if (sc_covenant_id initial ≠ covenant)
        (IE_LineageMismatch (sc_covenant_id initial) covenant);
  let entry := opened covenant chain lineage initial open_outpoint daa_score in
  store_entry s entry.

(** [self.load_entry(covenant).ok().flatten()] *)
Definition sled_lookup (s : Sled) (covenant : KaspaCovenantId) : option IndexedCovenant :=
  mjoin (to_option (load_entry s covenant)).

Definition sled_register_lane (s : Sled) (lane : IndexedLane) : iresult Sled :=
  found ← load_entry s (il_covenant_id lane);
  entry ← ok_or found (IE_NotIndexed (il_covenant_id lane));
  _ ← validate_indexed_lane entry lane;
  store_lane s lane.

Definition sled_list (s : Sled) : list KaspaCovenantId :=
  omap (λ item, '(key, _) ← to_option item;
                if decide (length key = 32%nat) then Some (to_array 32 key) else None)
    (tree_iter (sl_covenants s)).

(** The lanes that decode, in key order. *)
Definition sled_lanes (s : Sled) : list IndexedLane :=
  omap (λ item, '(_, bytes) ← to_option item; to_option (decode_indexed_lane bytes))
    (tree_iter (sl_lanes s)).

#[export] Instance sled_indexer : Indexer Sled := {
  open := sled_open;
  apply_spend s covenant receipt_id spent new_outpoint new_state daa_score :=
    sled_update s covenant (λ entry,
      apply_spend_to_entry entry receipt_id spent new_outpoint new_state daa_score None None);
  apply_spend_with_continuation s covenant receipt_id spent new_outpoint new_state daa_score
      continuation :=
    sled_update s covenant (λ entry,
      apply_spend_to_entry entry receipt_id spent new_outpoint new_state daa_score
        (Some continuation) None);
  apply_spend_with_continuation_and_policy_migration s covenant receipt_id spent new_outpoint
      new_state daa_score continuation policy_migration :=
    sled_update s covenant (λ entry,
      apply_spend_to_entry entry receipt_id spent new_outpoint new_state daa_score
        (Some continuation) (Some policy_migration));
  rollback s covenant depth := sled_update s covenant (λ entry, rollback_entry entry depth);
  lookup_covenant := sled_lookup;
  latest_state s covenant := ic_latest_state <$> sled_lookup s covenant;
  open_outpoint s covenant := sled_lookup s covenant ≫= ic_open_outpoint;
  has_replay s covenant receipt_id :=
    match sled_lookup s covenant with
    | Some e => bool_decide (receipt_id ∈ ic_accepted_receipts e)
    | None => false
    end;
  list_covenants := sled_list;
  register_lane := sled_register_lane;
  lane_by_id s lane_id := mjoin (to_option (load_lane s lane_id));
  lane_by_scan_tag s scan_tag := head (filter (λ lane, il_scan_tag lane = Some scan_tag) (sled_lanes s));
  public_lanes s asset_id :=
    filter (λ lane, il_public_lineage lane = true ∧ il_asset_id lane = asset_id) (sled_lanes s)
}.

#[export] Instance sled_certificates : AllocationAuditCertificateStore Sled := {
  record_allocation_audit_certificate s covenant receipt_id certificate :=
    sled_update s covenant (λ entry,
      record_allocation_audit_certificate_on_entry entry receipt_id certificate);
  allocation_audit_certificate s covenant receipt_id :=
    entry ← sled_lookup s covenant;
    found ← list_find (λ spend, se_receipt_id spend = receipt_id) (ic_spend_history entry);
    se_allocation_audit_certificate found.2
}.

#[export] Instance sled_cursors : ScanCursorStore Sled := {
  load_scan_cursor s name :=
    key ← validate_scan_cursor_name name;
    tree_load (sl_scan_cursors s) key decode_scan_cursor;
  store_scan_cursor s name cursor :=
    key ← validate_scan_cursor_name name;
    t ← tree_store (sl_scan_cursors s) key (encode_scan_cursor cursor);
    Ok {| sl_covenants := sl_covenants s; sl_lanes := sl_lanes s; sl_scan_cursors := t;
          sl_observed_spends := sl_observed_spends s |};
  clear_scan_cursor s name :=
    key ← validate_scan_cursor_name name;
    t ← map_err storage_err (tree_remove (sl_scan_cursors s) key);
    t ← map_err storage_err (tree_flush t);
    Ok {| sl_covenants := sl_covenants s; sl_lanes := sl_lanes s; sl_scan_cursors := t;
          sl_observed_spends := sl_observed_spends s |}
}.

#[export] Instance sled_observed : ObservedSpendStore Sled := {
  record_observed_spend s record :=
    t ← tree_store (sl_observed_spends s) (encode_observed_spend_key (os_spent record))
          (encode_observed_spend_record record);
    Ok {| sl_covenants := sl_covenants s; sl_lanes := sl_lanes s;
          sl_scan_cursors := sl_scan_cursors s; sl_observed_spends := t |};
  observed_spend s spent :=
    tree_load (sl_observed_spends s) (encode_observed_spend_key spent)
      decode_observed_spend_record;
  observed_spend_count s := Ok (tree_len (sl_observed_spends s))
}.
End sled.

(** * Refinement of the in-memory store *)

(** A call whose states pass the structural check their constructor makes. *)
Definition call_valid (c : call) : Prop :=
  match c with
  | CallOpen _ _ _ st _ _ | CallSpend _ _ _ _ st _ | CallSpendCont _ _ _ _ st _ _
  | CallSpendMigrate _ _ _ _ st _ _ _ => state_valid st
  | _ => True
  end.

Section valid_stores.
Context `{Sha256}.

(** Entries whose current and earlier states are structurally valid, with at
    most [n] spends. *)
Record entry_valid (n : nat) (e : IndexedCovenant) : Prop := {
  ev_state : state_valid (ic_latest_state e);
  ev_history : Forall (λ s, se_new_state_digest s ≠ zero32) (ic_spend_history e);
  ev_length : (length (ic_spend_history e) <= n)%nat
}.

Definition entries_valid (n : nat) (m : InMemoryIndexer) : Prop :=
  store_inv m ∧ ∀ c e, im_map m !! c = Some e → entry_valid n e.

Lemma entry_valid_mono n e : entry_valid n e → entry_valid (S n) e.
Proof. intros []. constructor; auto with lia. Qed.

Lemma apply_spend_valid n e rid o o' st daa c m e' :
  entry_valid n e → state_valid st →
  apply_spend_to_entry e rid o o' st daa c m = Ok e' → entry_valid (S n) e'.
Proof.
  intros [Hst Hh Hn] Hv (_&_&_&_&_&_&->)%apply_spend_ok. constructor; cbn; [done|..].
  - apply Forall_app. split; [done|]. apply state_valid_spec in Hst as (?&?&?&?).
    by repeat constructor.
  - rewrite length_app. cbn. lia.
Qed.

Lemma rollback_one_valid n e e' : entry_valid n e → rollback_one e = Ok e' → entry_valid n e'.
Proof.
  intros [Hst Hh Hn] E. unfold rollback_one in E.
  destruct (ic_spend_history e) as [|h s _] eqn:Eh using rev_ind; [by inv_ok|].
  rewrite pop_snoc in E. cbn in E. injection E as <-. rewrite length_app in Hn. cbn in Hn.
  apply Forall_app in Hh as [Hh [Hs _]%Forall_cons]. constructor; cbn; [|done|lia].
  apply state_valid_spec in Hst. apply state_valid_spec. cbn. naive_solver.
Qed.

Lemma rollback_loop_valid n k e e' :
  entry_valid n e → rollback_loop k e = Ok e' → entry_valid n e'.
Proof.
  revert e. induction k as [|k IH]; intros e He E; cbn in E; inv_ok; [done|].
  eapply IH; [|done]. by eapply rollback_one_valid.
Qed.

Lemma certificate_valid n e rid a e' :
  entry_valid n e → record_allocation_audit_certificate_on_entry e rid a = Ok e' →
  entry_valid n e'.
Proof.
  intros [Hst Hh Hn] (_ & i & s & Hf & [[_ ->]|[_ ->]])%certificate_ok; [done|].
  apply list_find_Some in Hf as (Hi & _). constructor; cbn; [done| |by rewrite length_insert].
  apply Forall_insert; [done|]. rewrite Forall_forall in Hh. cbn. apply Hh.
  by eapply list_elem_of_lookup_2.
Qed.

Lemma im_update_valid n m c f m' :
  (∀ e, im_map m !! c = Some e → entry_valid n e) →
  (∀ c' e, im_map m !! c' = Some e → entry_valid n e) →
  (∀ e e', entry_valid n e → f e = Ok e' → entry_valid (S n) e') →
  im_update m c f = Ok m' → ∀ c' e, im_map m' !! c' = Some e → entry_valid (S n) e.
Proof.
  intros Hc Hall Hf E c' e. unfold im_update in E. inv_ok. cbn.
  rewrite lookup_insert_Some. intros [[<- <-]|[_ ?]]; [eauto|eauto using entry_valid_mono].
Qed.

Lemma exec_entries_valid n m c m' :
  entries_valid n m → call_valid c → exec m c = Ok m' → entries_valid (S n) m'.
Proof.
  intros [Hinv Hm] Hc E. split; [by eapply exec_inv|]. revert E.
  destruct c; cbn [exec open apply_spend apply_spend_with_continuation call_valid
    apply_spend_with_continuation_and_policy_migration rollback register_lane
    record_allocation_audit_certificate in_memory_indexer in_memory_certificates] in *.
  2,3,4: apply im_update_valid; [by apply Hm..|]; intros; by eapply apply_spend_valid.
  - unfold im_open. intros E. inv_ok. cbn. intros c e.
    rewrite lookup_insert_Some. intros [[<- <-]|[_ ?]]; [|eauto using entry_valid_mono].
    constructor; cbn; [done|constructor|lia].
  - apply im_update_valid; [by apply Hm..|]. intros e e' He E. unfold rollback_entry in E. inv_ok.
    by eapply entry_valid_mono, rollback_loop_valid.
  - apply im_update_valid; [by apply Hm..|]. intros e e' He E.
    by eapply entry_valid_mono, certificate_valid.
  - unfold im_register_lane. intros E. inv_ok. cbn. eauto using entry_valid_mono.
Qed.

Lemma entries_valid_storable n m c e :
  entries_valid n m → (Z.of_nat n < 2 ^ 32)%Z → im_map m !! c = Some e → storable e.
Proof.
  intros [Hinv Hm] Hn He. destruct (st_entries _ Hinv _ _ He) as (o & d & p & Hi).
  destruct (Hm _ _ He). eapply entry_inv_storable; [done..|lia].
Qed.
End valid_stores.

Section refinement.
Context {T : Type} `{TreeLaws T} `{Sha256}.

Lemma tree_load_view {A} (t : T) k (d : list byte → iresult A) :
  tree_load t k d =
    match view t !! k with Some bs => a ← d bs; Ok (Some a) | None => Ok None end.
Proof. unfold tree_load. by rewrite get_law. Qed.

Lemma tree_store_view (t : T) k v :
  ∃ t', tree_store t k v = Ok t' ∧ view t' = <[k := v]> (view t).
Proof.
  unfold tree_store. destruct (insert_law t k v) as (t1 & -> & E1).
  destruct (flush_law t1) as (t2 & E & E2). cbn. rewrite E. exists t2. split; [done|congruence].
Qed.

(** The persistent store holds, record by record, what the in-memory one
    does. *)
Record sled_rel (m : InMemoryIndexer) (s : SledIndexer T) : Prop := {
  sr_entries : ∀ c, load_entry s c = Ok (im_map m !! c);
  sr_lanes : ∀ l, load_lane s l = Ok (im_lanes m !! l)
}.

Lemma store_entry_rel m s e :
  sled_rel m s → storable e →
  ∃ s', store_entry s e = Ok s' ∧
    sled_rel (im_set_map m (<[ic_covenant_id e := e]> (im_map m))) s'.
Proof.
  intros [He Hl] Hs. destruct (covenant_roundtrip e Hs) as (bs & Eb & Db).
  unfold store_entry. rewrite Eb. cbn [mbind result_bind].
  destruct (tree_store_view (sl_covenants s) (ic_covenant_id e) bs) as (t' & -> & Ht).
  cbn. eexists. split; [done|]. split; [|done]. intros c. cbn.
  unfold load_entry. cbn. rewrite tree_load_view, Ht.
  destruct (decide (c = ic_covenant_id e)) as [->|Hne].
  - rewrite !lookup_insert_eq, Db. done.
  - rewrite (lookup_insert_ne _ (blist (ic_covenant_id e))) by (intros ?%(inj blist); congruence).
    rewrite lookup_insert_ne by congruence. rewrite <-He. unfold load_entry.
    by rewrite tree_load_view.
Qed.

Lemma store_lane_rel m s lane tags :
  sled_rel m s → il_lane_id lane ≠ zero32 → il_state_digest lane ≠ zero32 →
  il_scan_tag lane ≠ Some zero32 →
  ∃ s', store_lane s lane = Ok s' ∧
    sled_rel {| im_map := im_map m; im_lanes := <[il_lane_id lane := lane]> (im_lanes m);
      im_lane_scan_tags := tags; im_scan_cursors := im_scan_cursors m;
      im_observed_spends := im_observed_spends m |} s'.
Proof.
  intros [He Hl] ???. unfold store_lane.
  destruct (tree_store_view (sl_lanes s) (il_lane_id lane) (encode_indexed_lane lane))
    as (t' & -> & Ht). cbn. eexists. split; [done|]. split; [done|]. intros l. cbn.
  unfold load_lane. cbn. rewrite tree_load_view, Ht.
  destruct (decide (l = il_lane_id lane)) as [->|Hne].
  - by rewrite !lookup_insert_eq, lane_roundtrip.
  - rewrite (lookup_insert_ne _ (blist (il_lane_id lane))) by (intros ?%(inj blist); congruence).
    rewrite lookup_insert_ne by congruence. rewrite <-Hl. unfold load_lane.
    by rewrite tree_load_view.
Qed.

(** The outcome of a call on the two stores: related stores, or one error. *)
Definition same_outcome (rm : iresult InMemoryIndexer) (rs : iresult (SledIndexer T)) : Prop :=
  match rm with
  | Ok m' => ∃ s', rs = Ok s' ∧ sled_rel m' s'
  | Err e => rs = Err e
  end.

Lemma sled_update_refines m s c f :
  sled_rel m s →
  (∀ e e', im_map m !! c = Some e → f e = Ok e' → storable e' ∧ ic_covenant_id e' = c) →
  same_outcome (im_update m c f) (sled_update s c f).
Proof.
  intros Hrel Hf. unfold im_update, sled_update. rewrite (sr_entries _ _ Hrel). cbn.
  destruct (im_map m !! c) as [e|]; cbn; [|done]. destruct (f e) as [e'|] eqn:E; cbn; [|done].
  destruct (Hf e e' eq_refl E) as [Hs <-]. by apply store_entry_rel.
Qed.

Lemma exec_refines n m s c :
  sled_rel m s → entries_valid n m → call_valid c → (Z.of_nat (S n) < 2 ^ 32)%Z →
  same_outcome (exec m c) (exec s c).
Proof.
  intros Hrel Hm Hc Hn.
  assert (Hupd : ∀ c' f, (exec m c = im_update m c' f) → 
    same_outcome (im_update m c' f) (sled_update s c' f)).
  { intros c' f Ex. apply sled_update_refines; [done|]. intros e e' He Hf.
    assert (E : exec m c = Ok (im_set_map m (<[c' := e']> (im_map m)))).
    { rewrite Ex. unfold im_update. rewrite He. cbn. by rewrite Hf. }
    apply (exec_entries_valid n) in E; [|done..].
    assert (He' : im_map (im_set_map m (<[c' := e']> (im_map m))) !! c' = Some e')
      by apply lookup_insert_eq.
    split; [by eapply (entries_valid_storable (S n))|].
    destruct (st_entries _ (proj1 E) _ _ He') as (o & d & p & Hi).
    exact (ei_covenant _ _ _ _ _ Hi). }
  destruct c; cbn [exec open apply_spend apply_spend_with_continuation
    apply_spend_with_continuation_and_policy_migration rollback register_lane
    record_allocation_audit_certificate in_memory_indexer in_memory_certificates
    sled_indexer sled_certificates call_valid] in *.
  2,3,4,5,6: by apply Hupd.
  - unfold im_open, sled_open. rewrite (sr_entries _ _ Hrel). cbn [mbind result_bind].
    destruct (im_map m !! covenant) as [e|].
    { by rewrite !(fail_if_true (is_Some (Some e))) by by eexists. }
    rewrite !(fail_if_false (is_Some (@None IndexedCovenant))) by by intros [].
    cbn [mbind result_bind].
    destruct (decide (sc_chain_id initial = chain)) as [Ech|Hch];
      [|by rewrite !(fail_if_true (sc_chain_id initial ≠ chain))].
    rewrite !(fail_if_false (sc_chain_id initial ≠ chain)) by auto. cbn [mbind result_bind].
    destruct (decide (sc_covenant_id initial = covenant)) as [Ecov|Hcov];
      [|by rewrite !(fail_if_true (sc_covenant_id initial ≠ covenant))].
    rewrite !(fail_if_false (sc_covenant_id initial ≠ covenant)) by auto. cbn.
    apply (store_entry_rel m s (opened _ _ _ _ _ _)); [done|].
    constructor; cbn; done || (by constructor) || lia.
  - unfold im_register_lane, sled_register_lane. rewrite (sr_entries _ _ Hrel).
    cbn [mbind result_bind]. destruct (im_map m !! _) as [e|]; cbn [mbind result_bind ok_or]; [|exact eq_refl].
    destruct (validate_indexed_lane e lane) as [[]|] eqn:Hv; cbn [mbind result_bind]; [|exact eq_refl].
    apply validate_lane_ok in Hv as (?&?&?&_). cbn. by apply store_lane_rel.
Qed.

Lemma exec_all_refines cs : ∀ n m s,
  sled_rel m s → entries_valid n m → Forall call_valid cs →
  (Z.of_nat (n + length cs) < 2 ^ 32)%Z →
  sled_rel (exec_all m cs) (exec_all s cs) ∧ entries_valid (n + length cs) (exec_all m cs).
Proof.
  unfold exec_all. induction cs as [|c cs IH]; intros n m s Hrel Hm Hcs Hn; cbn [foldl length].
  - by rewrite Nat.add_0_r.
  - apply Forall_cons in Hcs as [Hc Hcs]. cbn [length] in Hn. rewrite <-Nat.add_succ_comm.
    pose proof (exec_refines n m s c Hrel Hm Hc ltac:(lia)) as Hout. unfold same_outcome in Hout.
    destruct (exec m c) as [m'|e] eqn:E.
    + destruct Hout as (s' & -> & Hrel'). apply IH; [done| |done|lia].
      by eapply exec_entries_valid.
    + rewrite Hout. apply IH; [done| |done|lia]. destruct Hm as [Hi Hv].
      split; [done|]. eauto using entry_valid_mono.
Qed.

(** C10: The persistent indexer implements the in-memory one: after any sequence
    of fewer than 2^32 calls with structurally valid states, failed calls
    included, starting from an empty store over a reliable key-value tree, it
    holds the same entry for every covenant and the same lane for every lane
    id, and the next such call has the same outcome on both (success, or the
    same error). *)
Theorem sled_refines_in_memory (s0 : SledIndexer T) (cs : list call) :
  view (sl_covenants s0) = ∅ → view (sl_lanes s0) = ∅ →
  Forall call_valid cs → (Z.of_nat (length cs) < 2 ^ 32 - 1)%Z →
  let m := exec_all in_memory_new cs in
  let s := exec_all s0 cs in
  (∀ covenant, lookup_covenant s covenant = lookup_covenant m covenant) ∧
  (∀ covenant rid, has_replay s covenant rid = has_replay m covenant rid) ∧
  (∀ lane_id, lane_by_id s lane_id = lane_by_id m lane_id) ∧
  (∀ c, call_valid c → same_outcome (exec m c) (exec s c)).
Proof.
  intros Hc Hl Hcs Hn m s.
  assert (Hrel0 : sled_rel in_memory_new s0).
  { split; intros k; [unfold load_entry|unfold load_lane];
      rewrite tree_load_view, ?Hc, ?Hl, lookup_empty; cbn; by rewrite lookup_empty. }
  assert (Hv0 : entries_valid 0 in_memory_new).
  { split; [apply in_memory_new_inv|]. intros c e E. cbn in E. by rewrite lookup_empty in E. }
  destruct (exec_all_refines cs 0 in_memory_new s0 Hrel0 Hv0 Hcs ltac:(lia)) as [Hrel Hv].
  fold m s in Hrel, Hv. split_and!.
  - intros c. cbn. unfold sled_lookup. rewrite (sr_entries _ _ Hrel). cbn. by destruct (_ !! _).
  - intros c rid. cbn. unfold sled_lookup, im_has_replay. rewrite (sr_entries _ _ Hrel). cbn.
    by destruct (_ !! _).
  - intros l. cbn. rewrite (sr_lanes _ _ Hrel). cbn. by destruct (_ !! _).
  - intros c Hcv. eapply exec_refines; [done..|lia].
Qed.
End refinement.

(** * A concrete run *)

Section sample_run.
#[local] Instance run_sha256 : Sha256 := toy_sha256.

Lemma sled_refines_in_memory_witness :
  lookup_covenant (exec_all (Build_SledIndexer (gmap (list byte) (list byte)) ∅ ∅ ∅ ∅)
    [sample_open; sample_spend 1]) (b32 21) =
  lookup_covenant (exec_all in_memory_new [sample_open; sample_spend 1]) (b32 21).
Proof.
  apply (sled_refines_in_memory (Build_SledIndexer (gmap (list byte) (list byte)) ∅ ∅ ∅ ∅)
    [sample_open; sample_spend 1]); [done|done| |by vm_compute].
  repeat constructor; by vm_compute.
Defined.

Lemma covenant_record_roundtrip_witness :
  ∃ bs, encode_indexed_covenant sample_entry = Ok bs ∧
    decode_indexed_covenant bs = Ok sample_entry.
Proof.
  destruct (encode_indexed_covenant sample_entry) as [bs|] eqn:E; [|by vm_compute in E].
  exists bs. split; [done|].
  by apply (covenant_record_roundtrip (b32 21) (sample_outpoint 1) (b32 100) Any sample_entry);
    [apply sample_entry_inv|vm_compute|vm_compute|].
Defined.
End sample_run.
