(* ===== verification/Rebuild.v ===== *)
(** Rebuilding a covenant lineage from a checkpoint and a spend plan
    ([RebuildIndexer::rebuild_from], src/crates/rgk-indexer/src/lib.rs), as the
    source writes it: once, over the [Indexer] and [RebuildSource] traits.

    A rebuild that fails part-way keeps the spends applied so far, so it is a
    computation with a store and a result. *)

From stdpp Require Import base list strings gmap.
From Stdlib Require Import ZArith Lia Strings.Byte.
From S2P Require Import Prelude.
From S2P Require Import Bytes.
From S2P Require Import Encoding.
From S2P Require Import Types.
From S2P Require Import Commit.
From S2P Require Import IndexerTypes.
From S2P Require Import Indexer.
From S2P Require Import IndexerCorrect.
From S2P Require Import CoreSamples.

Open Scope string_scope.

Definition validate_rebuild_checkpoint_shape (checkpoint : RebuildCheckpoint) : iresult unit :=
  _ ← fail_if (sc_chain_id (ck_initial_state checkpoint) ≠ ck_chain_id checkpoint)
        (IE_ChainMismatch (sc_chain_id (ck_initial_state checkpoint)) (ck_chain_id checkpoint));
  fail_if (sc_covenant_id (ck_initial_state checkpoint) ≠ ck_covenant_id checkpoint)
    (IE_Invariant "rebuild checkpoint state covenant id does not match checkpoint covenant id").

Definition validate_existing_checkpoint (entry : IndexedCovenant) (checkpoint : RebuildCheckpoint)
  : iresult unit :=
  _ ← fail_if (ic_chain_id entry ≠ ck_chain_id checkpoint)
        (IE_ChainMismatch (ic_chain_id entry) (ck_chain_id checkpoint));
  _ ← fail_if (ic_lineage_id entry ≠ ck_lineage_id checkpoint)
        (IE_LineageMismatch (ic_lineage_id entry) (ck_lineage_id checkpoint));
  _ ← fail_if (sc_asset_id (ic_latest_state entry) ≠ sc_asset_id (ck_initial_state checkpoint))
        (IE_Invariant "existing covenant belongs to a different RGK asset");
  _ ← fail_if (sc_receipt_policy (ic_latest_state entry)
               ≠ sc_receipt_policy (ck_initial_state checkpoint))
        (IE_Invariant "existing covenant uses a different receipt policy");
  match ic_accepted_receipts entry with
  | [] =>
      _ ← fail_if (ic_open_outpoint entry ≠ Some (ck_open_outpoint checkpoint))
            (IE_Invariant "existing covenant open outpoint does not match rebuild checkpoint");
      _ ← fail_if (ic_latest_state entry ≠ ck_initial_state checkpoint)
            (IE_Invariant "existing covenant state does not match rebuild checkpoint");
      fail_if (ic_last_update_daa_score entry ≠ ck_daa_score checkpoint)
        (IE_Invariant "existing covenant DAA score does not match rebuild checkpoint")
  | _ =>
      first_spend ← ok_or (head (ic_spend_history entry))
        (IE_Invariant "existing covenant has accepted receipts but no spend history");
      _ ← fail_if (se_spent first_spend ≠ ck_open_outpoint checkpoint)
            (IE_Invariant "existing covenant history does not descend from rebuild checkpoint");
      fail_if (se_new_state_digest first_spend ≠ sc_state_digest (ck_initial_state checkpoint))
        (IE_Invariant "existing covenant history has a different checkpoint state digest")
  end.

Definition validate_rebuild_spend_shape (checkpoint : RebuildCheckpoint) (spend : RebuildSpend)
  : iresult unit :=
  _ ← fail_if (sc_chain_id (rs_new_state spend) ≠ ck_chain_id checkpoint)
        (IE_ChainMismatch (sc_chain_id (rs_new_state spend)) (ck_chain_id checkpoint));
  _ ← fail_if (sc_covenant_id (rs_new_state spend) ≠ ck_covenant_id checkpoint)
        (IE_Invariant "rebuild spend state covenant id does not match checkpoint covenant id");
  _ ← fail_if (sc_asset_id (rs_new_state spend) ≠ sc_asset_id (ck_initial_state checkpoint))
        (IE_Invariant "rebuild spend changes RGK asset id");
  fail_if (sc_receipt_policy (rs_new_state spend)
           ≠ sc_receipt_policy (ck_initial_state checkpoint))
    (IE_Invariant "rebuild spend changes receipt policy").

Section rebuild.
Context {S T : Type} `{Indexer S} `{RebuildSource T}.

(** The evidence a planned spend needs, as its DAA score. *)
Definition check_evidence (source : T) (checkpoint : RebuildCheckpoint) (spend : RebuildSpend)
  : iresult u64 :=
  _ ← validate_rebuild_spend_shape checkpoint spend;
  found ← spend_evidence source (rs_spent_outpoint spend);
  evidence ← ok_or found (IE_RebuildSpendMissing (rs_spent_outpoint spend));
  _ ← fail_if (ev_spending_txid evidence ≠ rs_expected_spending_txid spend)
        (IE_RebuildTxMismatch (rs_spent_outpoint spend) (rs_expected_spending_txid spend)
           (ev_spending_txid evidence));
  _ ← fail_if (default 0 (uval <$> ev_confirmation_depth evidence)
               < rs_min_confirmations spend)%Z
        (IE_RebuildInsufficientConfirmations (ev_spending_txid evidence)
           (rs_min_confirmations spend) (ev_confirmation_depth evidence));
  ok_or (ev_block_daa_score evidence) (IE_RebuildMissingDaaScore (ev_spending_txid evidence)).

(** One turn of the loop, on the counts of applied and skipped spends. *)
Definition rebuild_step (source : T) (checkpoint : RebuildCheckpoint)
    (counts : nat * nat) (spend : RebuildSpend) : stateful S IndexerError (nat * nat) :=
  let '(applied, skipped) := counts in
  let covenant := ck_covenant_id checkpoint in
  daa_score ← reading (λ _, check_evidence source checkpoint spend);
  replayed ← reading (λ s, Ok (has_replay s covenant (rs_receipt_id spend)));
  if replayed : bool then mret (applied, (1 + skipped)%nat)
  else
    _ ← updating (λ s, apply_spend s covenant (rs_receipt_id spend) (rs_spent_outpoint spend)
                        (rs_created_outpoint spend) (rs_new_state spend) daa_score);
    mret ((1 + applied)%nat, skipped).

Fixpoint rebuild_loop (source : T) (checkpoint : RebuildCheckpoint) (counts : nat * nat)
    (spends : list RebuildSpend) : stateful S IndexerError (nat * nat) :=
  match spends with
  | [] => mret counts
  | spend :: spends' =>
      counts' ← rebuild_step source checkpoint counts spend;
      rebuild_loop source checkpoint counts' spends'
  end.

(** [match self.lookup(covenant)]: validate the entry or open it. *)
Definition rebuild_open (checkpoint : RebuildCheckpoint) : stateful S IndexerError bool :=
  let covenant := ck_covenant_id checkpoint in
  found ← reading (λ s, Ok (lookup_covenant s covenant));
  match found with
  | Some entry =>
      _ ← reading (λ _, validate_existing_checkpoint entry checkpoint);
      mret false
  | None =>
      _ ← updating (λ s, open s (ck_chain_id checkpoint) covenant (ck_lineage_id checkpoint)
                          (ck_initial_state checkpoint) (ck_open_outpoint checkpoint)
                          (ck_daa_score checkpoint));
      mret true
  end.

Definition rebuild_from (source : T) (plan : RebuildPlan)
  : stateful S IndexerError RebuildSummary :=
  let checkpoint := rp_checkpoint plan in
  source_chain ← reading (λ _, source_chain_id source);
  _ ← reading (λ _, fail_if (source_chain ≠ ck_chain_id checkpoint)
                      (IE_ChainMismatch source_chain (ck_chain_id checkpoint)));
  _ ← reading (λ _, validate_rebuild_checkpoint_shape checkpoint);
  let covenant := ck_covenant_id checkpoint in
  opened ← rebuild_open checkpoint;
  counts ← rebuild_loop source checkpoint (0%nat, 0%nat) (rp_spends plan);
  final_entry ← reading (λ s, ok_or (lookup_covenant s covenant) (IE_NotIndexed covenant));
  final_open_outpoint ← reading (λ _, ok_or (ic_open_outpoint final_entry)
                                       (IE_Invariant "rebuilt covenant has no open outpoint"));
  mret {| su_opened := opened; su_applied_spends := counts.1; su_skipped_replays := counts.2;
          su_final_open_outpoint := final_open_outpoint;
          su_final_daa_score := ic_last_update_daa_score final_entry |}.
End rebuild.

(** * What a rebuild needs of a store *)

(** The part of the [Indexer] contract [rebuild_from] relies on. *)
Class IndexerLaws (S : Type) `{Indexer S, Sha256} := {
  law_open (s s' : S) chain cov lin st o daa :
    open s chain cov lin st o daa = Ok s' →
    lookup_covenant s cov = None ∧ sc_chain_id st = chain ∧ sc_covenant_id st = cov ∧
    lookup_covenant s' cov = Some (opened cov chain lin st o daa) ∧
    ∀ c, c ≠ cov → lookup_covenant s' c = lookup_covenant s c;
  law_apply (s s' : S) cov rid o o' st daa :
    apply_spend s cov rid o o' st daa = Ok s' →
    ∃ e e', lookup_covenant s cov = Some e ∧
      apply_spend_to_entry e rid o o' st daa None None = Ok e' ∧
      lookup_covenant s' cov = Some e' ∧
      ∀ c, c ≠ cov → lookup_covenant s' c = lookup_covenant s c;
  law_replay (s : S) cov rid :
    has_replay s cov rid = true ↔
      ∃ e, lookup_covenant s cov = Some e ∧ rid ∈ ic_accepted_receipts e
}.

#[export] Instance in_memory_laws `{Sha256} : IndexerLaws InMemoryIndexer.
Proof.
  split.
  - cbn. unfold im_open. intros s s' chain cov lin st o daa E. inv_ok. cbn.
    split_and!; try done; [by apply eq_None_not_Some|apply lookup_insert_eq|].
    intros c Hc. by apply lookup_insert_ne.
  - cbn. unfold im_update. intros s s' cov rid o o' st daa E. inv_ok. cbn.
    exists x, x0. split_and!; [done..|apply lookup_insert_eq|]. intros c Hc. by apply lookup_insert_ne.
  - cbn. unfold im_has_replay. intros s cov rid. destruct (im_map s !! cov) as [e|].
    + rewrite bool_decide_eq_true. naive_solver.
    + naive_solver.
Qed.

(** * Correctness *)

Section correct.
Context {S T : Type} `{IndexerLaws S} `{RebuildSource T}.

Lemma sbind_ok {E A B} (m : stateful S E A) (k : A → stateful S E B) s b s' :
  (m ≫= k) s = (Ok b, s') ↔ ∃ a s1, m s = (Ok a, s1) ∧ k a s1 = (Ok b, s').
Proof.
  unfold mbind, stateful_bind. destruct (m s) as [[a|e] s1]; split.
  - intros E'. by exists a, s1.
  - by intros (? & ? & [= <- <-] & E').
  - done.
  - by intros (? & ? & ? & E').
Qed.

Lemma reading_ok {E A} (f : S → result E A) s a s' :
  reading f s = (Ok a, s') ↔ f s = Ok a ∧ s' = s.
Proof. unfold reading. split; [by intros [= -> ->]|by intros [-> ->]]. Qed.

Lemma updating_ok {E} (f : S → result E S) s u s' :
  updating f s = (Ok u, s') ↔ f s = Ok s'.
Proof. unfold updating. destruct u, (f s); split; congruence. Qed.

(** A computation whose store always moves along a relation, errors
    included. *)
Definition moves (R : S → S → Prop) {E A} (m : stateful S E A) : Prop := ∀ s, R s (m s).2.

Section moves.
Context (R : S → S → Prop) (Rrefl : ∀ s, R s s) (Rtrans : ∀ s1 s2 s3, R s1 s2 → R s2 s3 → R s1 s3).

Lemma moves_bind {E A B} (m : stateful S E A) (k : A → stateful S E B) :
  moves R m → (∀ a, moves R (k a)) → moves R (m ≫= k).
Proof.
  intros Hm Hk s. unfold mbind, stateful_bind. specialize (Hm s).
  destruct (m s) as [[a|e] s1]; cbn in *; [|done]. exact (Rtrans _ _ _ Hm (Hk a s1)).
Qed.
Lemma moves_reading {E A} (f : S → result E A) : moves R (reading f).
Proof. by intros s. Qed.
Lemma moves_ret {E A} (a : A) : moves R (mret a : stateful S E A).
Proof. by intros s. Qed.
Lemma moves_updating {E} (f : S → result E S) :
  (∀ s s', f s = Ok s' → R s s') → moves R (updating f).
Proof. intros Hf s. unfold updating. destruct (f s) eqn:E'; cbn; auto. Qed.
End moves.

Context (source : T) (ck : RebuildCheckpoint).
Abbreviation cov := (ck_covenant_id ck).

Definition history (s : S) : list SpendEntry :=
  match lookup_covenant s cov with Some e => ic_spend_history e | None => [] end.

(** A history entry backed by a planned spend and the chain's evidence. *)
Definition evidenced (spends : list RebuildSpend) (h : SpendEntry) : Prop :=
  ∃ sp ev depth, sp ∈ spends ∧
    spend_evidence source (rs_spent_outpoint sp) = Ok (Some ev) ∧
    ev_spending_txid ev = rs_expected_spending_txid sp ∧
    default 0%Z (uval <$> ev_confirmation_depth ev) = depth ∧
    (rs_min_confirmations sp <= depth)%Z ∧
    ev_block_daa_score ev = Some (se_daa_score h) ∧
    se_receipt_id h = rs_receipt_id sp ∧ se_spent h = rs_spent_outpoint sp ∧
    se_created h = rs_created_outpoint sp ∧
    se_resulting_state_digest h = sc_state_digest (rs_new_state sp).

Definition extends (spends : list RebuildSpend) (s s' : S) : Prop :=
  (∀ c, c ≠ cov → lookup_covenant s' c = lookup_covenant s c) ∧
  ∃ added, history s' = (history s ++ added)%list ∧ Forall (evidenced spends) added.

Lemma extends_refl spends s : extends spends s s.
Proof. split; [done|]. exists []. by rewrite app_nil_r. Qed.

Lemma extends_trans spends s1 s2 s3 :
  extends spends s1 s2 → extends spends s2 s3 → extends spends s1 s3.
Proof.
  intros [F1 (a1 & E1 & H1')] [F2 (a2 & E2 & H2')]. split.
  - intros c Hc. by rewrite F2, F1.
  - exists (a1 ++ a2)%list. rewrite E2, E1, app_assoc. split; [done|by apply Forall_app].
Qed.

Lemma check_evidence_ok sp daa :
  check_evidence source ck sp = Ok daa →
  validate_rebuild_spend_shape ck sp = Ok () ∧ ∃ ev,
    spend_evidence source (rs_spent_outpoint sp) = Ok (Some ev) ∧
    ev_spending_txid ev = rs_expected_spending_txid sp ∧
    (rs_min_confirmations sp <= default 0 (uval <$> ev_confirmation_depth ev))%Z ∧
    ev_block_daa_score ev = Some daa.
Proof.
  unfold check_evidence. intros E. inv_ok. subst. split; [done|]. eexists.
  split_and!; [done|done|lia|done].
Qed.

Lemma apply_extends spends sp daa s s' :
  sp ∈ spends → check_evidence source ck sp = Ok daa →
  apply_spend s cov (rs_receipt_id sp) (rs_spent_outpoint sp) (rs_created_outpoint sp)
    (rs_new_state sp) daa = Ok s' → extends spends s s'.
Proof.
  intros Hsp Hev (e & e' & He & Ha & He' & Hframe)%law_apply. split; [done|].
  apply apply_spend_ok in Ha as (_&_&_&_&_&_&->).
  eexists [_]. unfold history. rewrite He, He'. split; [done|]. apply Forall_singleton.
  apply check_evidence_ok in Hev as (_ & ev & ? & ? & ? & ?).
  exists sp, ev, (default 0%Z (uval <$> ev_confirmation_depth ev)). by split_and!.
Qed.

Lemma rebuild_step_moves spends counts sp :
  sp ∈ spends → moves (extends spends) (rebuild_step source ck counts sp).
Proof.
  intros Hsp. destruct counts as [a k]. unfold rebuild_step.
  intros s. unfold mbind, stateful_bind, reading at 1.
  destruct (check_evidence source ck sp) as [daa|] eqn:Hev; [|apply extends_refl]. cbn.
  destruct (has_replay s cov (rs_receipt_id sp)); [apply extends_refl|].
  unfold updating. destruct (apply_spend _ _ _ _ _ _ _) eqn:E; cbn; [|apply extends_refl].
  by eapply apply_extends.
Qed.

Lemma rebuild_loop_moves all spends counts :
  spends ⊆ all → moves (extends all) (rebuild_loop source ck counts spends).
Proof.
  revert counts. induction spends as [|sp spends IH]; intros counts Hall; cbn [rebuild_loop].
  - apply moves_ret, extends_refl.
  - apply moves_bind; [apply extends_trans|apply rebuild_step_moves; set_solver|].
    intros a. apply IH. set_solver.
Qed.

Lemma rebuild_open_moves spends : moves (extends spends) (rebuild_open ck).
Proof.
  intros s. unfold rebuild_open, mbind, stateful_bind, reading. cbn.
  destruct (lookup_covenant s cov) eqn:El.
  - destruct (validate_existing_checkpoint _ _); apply extends_refl.
  - unfold updating. destruct (open _ _ _ _ _ _ _) eqn:E; cbn; [|apply extends_refl].
    apply law_open in E as (_ & _ & _ & E & Hf). split; [done|]. exists [].
    unfold history. by rewrite El, E.
Qed.

(** The loop, when it succeeds: every planned spend was checked, and its
    receipt is accepted at the end. *)
Lemma rebuild_loop_accepts spends : ∀ counts s counts' s',
  rebuild_loop source ck counts spends s = (Ok counts', s') →
  (counts'.1 + counts'.2 = counts.1 + counts.2 + length spends)%nat ∧
  Forall (λ sp, (∃ daa, check_evidence source ck sp = Ok daa) ∧
                has_replay s' cov (rs_receipt_id sp) = true) spends ∧
  (∀ rid, has_replay s cov rid = true → has_replay s' cov rid = true).
Proof.
  induction spends as [|sp spends IH]; intros [a k] s counts' s' E; cbn [rebuild_loop] in E.
  - injection E as <- <-. cbn. split; [lia|]. split; [constructor|done].
  - apply sbind_ok in E as ([a1 k1] & s1 & E1 & E).
    apply IH in E as (Hn & HF & Hmono).
    assert ((a1 + k1 = a + k + 1)%nat ∧ (∃ daa, check_evidence source ck sp = Ok daa) ∧
            has_replay s1 cov (rs_receipt_id sp) = true ∧
            ∀ rid, has_replay s cov rid = true → has_replay s1 cov rid = true) as (?&?&?&?).
    { unfold rebuild_step in E1. apply sbind_ok in E1 as (daa & s2 & Ed & E1).
      apply reading_ok in Ed as [Ed ->]. apply sbind_ok in E1 as (b & s2 & Eb & E1).
      apply reading_ok in Eb as [Eb ->]. injection Eb as Eb. destruct b.
      - injection E1 as <- <- <-. split; [lia|]. split; [by exists daa|done].
      - apply sbind_ok in E1 as ([] & s2 & Eu & E1). injection E1 as <- <- <-.
        apply updating_ok, law_apply in Eu as (e & e' & He & Ha & He' & _).
        apply apply_spend_ok in Ha as (_&_&_&_&_&_&->).
        split; [lia|]. split; [by exists daa|]. split.
        + apply law_replay. eexists. split; [done|]. cbn. set_solver.
        + intros rid (e1 & He1 & Hr)%law_replay. apply law_replay. eexists. split; [done|].
          rewrite He in He1. injection He1 as <-. cbn. set_solver. }
    cbn [length fst snd] in *. split; [lia|]. split; [|naive_solver].
    constructor; [naive_solver|done].
Qed.

(** An entry that would pass the checkpoint check again. *)
Definition at_checkpoint (e : IndexedCovenant) : Prop :=
  validate_existing_checkpoint e ck = Ok () ∧
  (ic_accepted_receipts e = [] ↔ ic_spend_history e = []).

Lemma opened_at_checkpoint :
  sc_chain_id (ck_initial_state ck) = ck_chain_id ck →
  at_checkpoint (opened cov (ck_chain_id ck) (ck_lineage_id ck) (ck_initial_state ck)
    (ck_open_outpoint ck) (ck_daa_score ck)).
Proof.
  intros Hc. split; [|done]. unfold validate_existing_checkpoint. cbn.
  by rewrite !fail_if_false by auto.
Qed.

Lemma apply_at_checkpoint e sp daa e' :
  at_checkpoint e → validate_rebuild_spend_shape ck sp = Ok () →
  apply_spend_to_entry e (rs_receipt_id sp) (rs_spent_outpoint sp) (rs_created_outpoint sp)
    (rs_new_state sp) daa None None = Ok e' →
  at_checkpoint e'.
Proof.
  intros [Hv Hiff] Hshape (Hr & Hch & Hcv & Has & Ho & Hs & ->)%apply_spend_ok.
  unfold validate_rebuild_spend_shape in Hshape. inv_ok.
  unfold validate_existing_checkpoint in Hv.
  apply bind_ok in Hv as (u1 & C1 & Hv). apply bind_ok in Hv as (u2 & C2 & Hv).
  apply bind_ok in Hv as (u3 & C3 & Hv). apply bind_ok in Hv as (u4 & C4 & Hv).
  apply fail_if_ok, dec_stable in C1, C2, C3, C4.
  assert (Hnil : ∀ (l : list ReceiptId) x, (l ++ [x])%list ≠ []) by by intros [].
  split; [|cbn; split; intros E; by apply app_nil in E as [? ?]].
  unfold validate_existing_checkpoint. cbn.
  rewrite (fail_if_false (ic_chain_id e ≠ ck_chain_id ck)) by auto.
  rewrite (fail_if_false (ic_lineage_id e ≠ ck_lineage_id ck)) by auto.
  rewrite (fail_if_false (sc_asset_id (rs_new_state sp) ≠ _)) by auto.
  rewrite (fail_if_false (sc_receipt_policy (rs_new_state sp) ≠ _)) by auto. cbn.
  destruct (ic_accepted_receipts e) as [|r0 rs] eqn:Er.
  - rewrite (proj1 Hiff eq_refl). cbn. inv_ok. rewrite !fail_if_false; [done|..]; congruence.
  - destruct (ic_spend_history e) as [|h0 hs] eqn:Eh; [by rewrite (proj2 Hiff eq_refl) in Er|].
    exact Hv.
Qed.

Lemma rebuild_loop_at_checkpoint spends : ∀ counts s counts' s' e,
  lookup_covenant s cov = Some e → at_checkpoint e →
  rebuild_loop source ck counts spends s = (Ok counts', s') →
  ∃ e', lookup_covenant s' cov = Some e' ∧ at_checkpoint e'.
Proof.
  induction spends as [|sp spends IH]; intros [a k] s counts' s' e He Hck E;
    cbn [rebuild_loop] in E.
  - injection E as <- <-. by exists e.
  - apply sbind_ok in E as ([a1 k1] & s1 & E1 & E).
    unfold rebuild_step in E1. apply sbind_ok in E1 as (daa & s2 & Ed & E1).
    apply reading_ok in Ed as [Ed ->]. apply sbind_ok in E1 as (b & s2 & Eb & E1).
    apply reading_ok in Eb as [Eb ->]. destruct b.
    + injection E1 as <- <- <-. by eapply IH.
    + apply sbind_ok in E1 as ([] & s2 & Eu & E1). injection E1 as <- <- <-.
      apply updating_ok, law_apply in Eu as (e1 & e' & He1 & Ha & He' & _).
      rewrite He in He1. injection He1 as <-. apply check_evidence_ok in Ed as [Hshape _].
      eapply IH; [exact He'|by eapply apply_at_checkpoint|exact E].
Qed.

Lemma rebuild_loop_skips spends : ∀ counts s,
  Forall (λ sp, (∃ daa, check_evidence source ck sp = Ok daa) ∧
                has_replay s cov (rs_receipt_id sp) = true) spends →
  rebuild_loop source ck counts spends s =
    (Ok (counts.1, (counts.2 + length spends)%nat), s).
Proof.
  induction spends as [|sp spends IH]; intros [a k] s HF; cbn [rebuild_loop length fst snd].
  - by rewrite Nat.add_0_r.
  - apply Forall_cons in HF as [[[daa Hd] Hr] HF]. unfold rebuild_step, reading.
    unfold mbind, stateful_bind at 1. cbn. rewrite Hd. cbn. rewrite Hr. cbn.
    rewrite IH by done. cbn. do 3 f_equal. lia.
Qed.
End correct.

Section claims.
Context {S T : Type} `{IndexerLaws S} `{RebuildSource T}.

(** C39: A rebuild only records what the chain supports, whether it succeeds or
    fails half-way: it touches no other covenant, and what it adds to the
    history of the checkpoint's covenant is a list of spends each of which is in
    the plan and is backed by chain evidence for its outpoint, with the expected
    spending transaction, at least the required confirmations, and the DAA score
    the chain reports. *)
Theorem rebuild_records_only_evidence (source : T) (plan : RebuildPlan) (s : S) :
  let ck := rp_checkpoint plan in
  let s' := (rebuild_from source plan s).2 in
  (∀ c, c ≠ ck_covenant_id ck → lookup_covenant s' c = lookup_covenant s c) ∧
  ∃ added, history ck s' = (history ck s ++ added)%list ∧
    Forall (evidenced source (rp_spends plan)) added.
Proof.
  intros ck. enough (moves (extends source ck (rp_spends plan)) (rebuild_from source plan))
    as Hm by exact (Hm s).
  unfold rebuild_from. fold ck.
  repeat (apply moves_bind; [apply extends_trans|..|intros ?];
          [first [apply moves_reading, extends_refl|apply rebuild_open_moves
                 |by apply rebuild_loop_moves]|]).
  apply moves_ret, extends_refl.
Qed.

(** Fact: Rebuilding is idempotent: after a successful rebuild, running the same
    plan against the same source again succeeds without opening or applying
    anything, skips every planned spend as a replay, leaves the store as it is
    and reports the same final outpoint and DAA score; and in the first run
    every planned spend was either applied or skipped. *)
Theorem rebuild_idempotent (source : T) (plan : RebuildPlan) (s s' : S) summary :
  (∀ e, lookup_covenant s (ck_covenant_id (rp_checkpoint plan)) = Some e →
     (ic_accepted_receipts e = [] ↔ ic_spend_history e = [])) →
  rebuild_from source plan s = (Ok summary, s') →
  (su_applied_spends summary + su_skipped_replays summary = length (rp_spends plan))%nat ∧
  rebuild_from source plan s' = (Ok {|
    su_opened := false; su_applied_spends := 0;
    su_skipped_replays := length (rp_spends plan);
    su_final_open_outpoint := su_final_open_outpoint summary;
    su_final_daa_score := su_final_daa_score summary |}, s').
Proof.
  intros Hcons. unfold rebuild_from. set (ck := rp_checkpoint plan) in *. cbv zeta. intros E.
  apply sbind_ok in E as (chain & s1 & [Hchain ->]%reading_ok & E).
  apply sbind_ok in E as (u1 & s1 & [Hg ->]%reading_ok & E).
  apply sbind_ok in E as (u2 & s1 & [Hshape ->]%reading_ok & E).
  apply sbind_ok in E as (op & s1 & Hopen & E).
  apply sbind_ok in E as ([a k] & s2 & Hloop & E).
  apply sbind_ok in E as (e & s3 & [He ->]%reading_ok & E).
  apply sbind_ok in E as (o & s3 & [Ho ->]%reading_ok & E). injection E as <- <-.
  assert (∃ e1, lookup_covenant s1 (ck_covenant_id ck) = Some e1 ∧ at_checkpoint ck e1)
    as (e1 & He1 & Hck1).
  { clear Hloop He. unfold rebuild_open in Hopen.
    apply sbind_ok in Hopen as (found & s3 & Hf & Hopen). apply reading_ok in Hf as [Hf ->].
    injection Hf as Hf. destruct found as [e0|].
    - apply sbind_ok in Hopen as (u & s3 & Hv & Hopen). apply reading_ok in Hv as [Hv ->].
      injection Hopen as <- <-. exists e0. split; [done|]. split; [by destruct u|auto].
    - apply sbind_ok in Hopen as (u & s3 & Hu & Hopen). injection Hopen as <- <-.
      apply updating_ok, law_open in Hu as (_ & Hc & _ & Hu & _). eexists. split; [exact Hu|].
      by apply opened_at_checkpoint. }
  destruct (rebuild_loop_at_checkpoint _ _ _ _ _ _ _ _ He1 Hck1 Hloop) as (e2 & He2 & [Hv2 _]).
  rewrite He2 in He. cbn in He. injection He as <-.
  apply rebuild_loop_accepts in Hloop as (Hn & HF & _). cbn in Hn |- *. split; [lia|].
  unfold mbind, stateful_bind, reading. rewrite Hchain, Hg, Hshape.
  unfold rebuild_open, mbind, stateful_bind, reading. rewrite He2, Hv2. cbn -[rebuild_loop].
  rewrite rebuild_loop_skips by done. rewrite He2. cbn. rewrite Ho. done.
Qed.
End claims.

(** * Concrete rebuilds *)

(** Evidence held in a list. *)
Record ListSource := { ls_chain : KaspaChainId; ls_spends : list (KaspaOutpoint * RebuildSpendEvidence) }.
#[export] Instance list_source : RebuildSource ListSource := {
  source_chain_id s := Ok (ls_chain s);
  spend_evidence s o := Ok (snd <$> (snd <$> list_find (λ x, x.1 = o) (ls_spends s)))
}.

Definition sample_checkpoint : RebuildCheckpoint := {|
  ck_chain_id := KaspaLocalToccata; ck_covenant_id := b32 21; ck_lineage_id := b32 70;
  ck_initial_state := sample_state 100; ck_open_outpoint := sample_outpoint 1;
  ck_daa_score := n64 1000 |}.

Definition sample_planned (k : Z) : RebuildSpend := {|
  rs_receipt_id := b32 (200 + k); rs_spent_outpoint := sample_outpoint k;
  rs_created_outpoint := sample_outpoint (k + 1); rs_new_state := sample_state (100 + k);
  rs_expected_spending_txid := b32 (k + 1); rs_min_confirmations := n64 3 |}.

Definition sample_evidence (k : Z) : KaspaOutpoint * RebuildSpendEvidence :=
  (sample_outpoint k, {| ev_spending_txid := b32 (k + 1); ev_block_daa_score := Some (n64 (1050 + k));
                         ev_confirmation_depth := Some (n64 10) |}).

Definition sample_rebuild_plan : RebuildPlan :=
  {| rp_checkpoint := sample_checkpoint; rp_spends := [sample_planned 1; sample_planned 2] |}.
Definition sample_source : ListSource :=
  {| ls_chain := KaspaLocalToccata; ls_spends := [sample_evidence 1; sample_evidence 2] |}.

Section sample_rebuild.
#[local] Instance rebuild_sha256 : Sha256 := toy_sha256.

Lemma rebuild_idempotent_witness :
  (rebuild_from sample_source sample_rebuild_plan
     (rebuild_from sample_source sample_rebuild_plan in_memory_new).2).1 =
  Ok {| su_opened := false; su_applied_spends := 0; su_skipped_replays := 2;
        su_final_open_outpoint := sample_outpoint 3; su_final_daa_score := n64 1052 |}.
Proof.
  assert (R : rebuild_from sample_source sample_rebuild_plan in_memory_new =
    (Ok {| su_opened := true; su_applied_spends := 2; su_skipped_replays := 0;
           su_final_open_outpoint := sample_outpoint 3; su_final_daa_score := n64 1052 |},
     (rebuild_from sample_source sample_rebuild_plan in_memory_new).2)).
  { rewrite (surjective_pairing (rebuild_from _ _ _)) at 1. f_equal; vm_compute; reflexivity. }
  destruct (rebuild_idempotent sample_source sample_rebuild_plan in_memory_new _ _
    ltac:(by intros e E; vm_compute in E) R) as [_ R2].
  by rewrite R2.
Defined.

Lemma rebuild_records_only_evidence_witness :
  ∃ added, history sample_checkpoint
      (rebuild_from sample_source sample_rebuild_plan in_memory_new).2 = added ∧
    Forall (evidenced sample_source [sample_planned 1; sample_planned 2]) added.
Proof.
  destruct (rebuild_records_only_evidence (S := InMemoryIndexer) sample_source
    sample_rebuild_plan in_memory_new) as (_ & added & E & HF).
  exists added. split; [exact E|exact HF].
Defined.

(** Fact: Rolling back everything makes the checkpoint unusable: after a rebuild
    of one spend and a rollback of that spend, the entry has the checkpoint's
    outpoint, state and (empty) history again, but its DAA score is the undone
    spend's minus one instead of the checkpoint's, and rebuilding from the same
    checkpoint and plan is refused. *)
Theorem rebuild_after_rollback_refused :
  let plan := {| rp_checkpoint := sample_checkpoint; rp_spends := [sample_planned 1] |} in
  let rebuilt := (rebuild_from sample_source plan in_memory_new).2 in
  let rolled_back := exec_all rebuilt [CallRollback (b32 21) (n64 1)] in
  open_outpoint rolled_back (b32 21) = Some (ck_open_outpoint sample_checkpoint) ∧
  latest_state rolled_back (b32 21) = Some (ck_initial_state sample_checkpoint) ∧
  (rebuild_from sample_source plan rolled_back).1 =
    Err (IE_Invariant "existing covenant DAA score does not match rebuild checkpoint").
Proof. by vm_compute. Qed.
End sample_rebuild.
