(* ===== verification/Kaspa.v ===== *)
(** The Kaspa chain backend (src/crates/rgk-kaspa/src/lib.rs): its data, its
    typed errors with their classification, the [KaspaChainBackend] trait and
    the in-memory [FixtureBackend]. *)

From stdpp Require Import base list strings pretty gmap.
From Stdlib Require Import ZArith Lia Strings.Byte.
From S2P Require Import Prelude.
From S2P Require Import Bytes.
From S2P Require Import Encoding.
From S2P Require Import Types.
From S2P Require Import Hex.
From S2P Require Import IndexerTypes.
From S2P Require Import CoreSamples.

Open Scope string_scope.

Abbreviation KaspaTxId := Bytes32.
Abbreviation KaspaBlockHash := Bytes32.

(** [2 + u16::MAX as usize] *)
Definition MAX_SCRIPT_PUBLIC_KEY_BYTES : Z := 2 + 65535.

(** * Errors *)

(** [code] is an [i64]. *)
Inductive KaspaNetworkError : Type :=
| NodeUnavailable (msg : string)
| KE_WrongNetwork (node configured : KaspaChainId)
| UnsupportedToccataFeature (msg : string)
| BadRpc (msg : string)
| ScriptPublicKeyTooLong (len max : Z)
| RpcError (code : Z) (message : string)
| KE_Timeout (ms : u64)
| KE_NotFound
| KE_Unconfirmed
| KE_Confirmed (depth : u64)
| KE_Pruned
| KE_ReorgRisk (depth : u64)
| KE_BudgetExceeded (msg : string)
| KE_Invariant (msg : string).

#[export] Instance KaspaNetworkError_eq_dec : EqDecision KaspaNetworkError.
Proof. solve_decision. Defined.

Abbreviation kresult := (result KaspaNetworkError).

(** [{:?}] of a chain id *)
Definition debug_chain (c : KaspaChainId) : string :=
  match c with
  | KaspaMainnet => "KaspaMainnet" | KaspaTestnet => "KaspaTestnet"
  | KaspaSimnet => "KaspaSimnet" | KaspaDevnet => "KaspaDevnet"
  | KaspaLocalToccata => "KaspaLocalToccata"
  end.

(** [to_string] *)
Definition network_error_display (e : KaspaNetworkError) : string :=
  match e with
  | NodeUnavailable msg => "kaspa node unreachable: " ++ msg
  | KE_WrongNetwork node configured =>
      "node is on chain " ++ debug_chain node ++ " but the resolver is configured for "
      ++ debug_chain configured
  | UnsupportedToccataFeature msg => "feature not supported by this node build: " ++ msg
  | BadRpc msg => "malformed JSON-RPC response: " ++ msg
  | ScriptPublicKeyTooLong len max =>
      "script public key too long: len=" ++ usize_display len ++ ", max=" ++ usize_display max
  | RpcError code message =>
      "RPC method returned an error: code=" ++ pretty code ++ " " ++ message
  | KE_Timeout ms => "RPC timeout after " ++ usize_display ms ++ " ms"
  | KE_NotFound => "utxo/outpoint not found"
  | KE_Unconfirmed => "transaction is unconfirmed (mempool only)"
  | KE_Confirmed depth => "transaction is confirmed at depth " ++ usize_display depth
  | KE_Pruned => "transaction has been pruned (reorg or archival boundary)"
  | KE_ReorgRisk depth =>
      "reorg detected at depth " ++ usize_display depth ++ ": tip moved under the spend"
  | KE_BudgetExceeded msg => "resolver budget exceeded: " ++ msg
  | KE_Invariant msg => "internal invariant violated: " ++ msg
  end.

Inductive ResolverClassify : Type :=
| RC_NotFound | RC_Unconfirmed | RC_Confirmed | RC_Pruned | RC_ReorgRisk | RC_NodeDown
| RC_WrongNetwork | RC_UnsupportedFeature | RC_RpcFailure | RC_BudgetExceeded | RC_Invariant.

#[export] Instance ResolverClassify_eq_dec : EqDecision ResolverClassify.
Proof. solve_decision. Defined.

Definition classify (e : KaspaNetworkError) : ResolverClassify :=
  match e with
  | NodeUnavailable _ => RC_NodeDown
  | KE_WrongNetwork _ _ => RC_WrongNetwork
  | UnsupportedToccataFeature _ => RC_UnsupportedFeature
  | BadRpc _ | RpcError _ _ | KE_Timeout _ => RC_RpcFailure
  | KE_NotFound => RC_NotFound
  | KE_Unconfirmed => RC_Unconfirmed
  | KE_Confirmed _ => RC_Confirmed
  | KE_Pruned => RC_Pruned
  | KE_ReorgRisk _ => RC_ReorgRisk
  | KE_BudgetExceeded _ => RC_BudgetExceeded
  | KE_Invariant _ | ScriptPublicKeyTooLong _ _ => RC_Invariant
  end.

(** * Data *)

Record KaspaScriptPublicKey := { spk_bytes : list byte }.

Definition script_public_key_new (b : list byte) : kresult KaspaScriptPublicKey :=
  let len := Z.of_nat (length b) in
  _ ← fail_if (MAX_SCRIPT_PUBLIC_KEY_BYTES < len)%Z
        (ScriptPublicKeyTooLong len MAX_SCRIPT_PUBLIC_KEY_BYTES);
  Ok {| spk_bytes := b |}.

Record KaspaTip := {
  tip_hash : KaspaBlockHash;
  tip_blue_score : u64;
  tip_daa_score : u64
}.

Record KaspaTxSummary := {
  tx_txid : KaspaTxId;
  tx_mass : u64;
  tx_payload : list byte
}.

Record SpendingInfo := {
  sp_txid : KaspaTxId;
  sp_input_index : u32;
  sp_block_daa_score : option u64
}.

Record KaspaUtxo := {
  ut_outpoint : KaspaOutpoint;
  ut_value : u64;
  ut_script_public_key : KaspaScriptPublicKey;
  ut_block_daa_score : option u64;
  ut_spending : option SpendingInfo
}.

(** [KaspaUtxo::new] *)
Definition utxo_new (outpoint : KaspaOutpoint) (value : u64) (script_public_key : list byte)
    (block_daa_score : option u64) (spending : option SpendingInfo) : kresult KaspaUtxo :=
  spk ← script_public_key_new script_public_key;
  Ok {| ut_outpoint := outpoint; ut_value := value; ut_script_public_key := spk;
        ut_block_daa_score := block_daa_score; ut_spending := spending |}.

Definition validate_script_public_key (self : KaspaUtxo) : kresult unit :=
  _ ← script_public_key_new (spk_bytes (ut_script_public_key self));
  Ok ().

(** * The trait *)

Class KaspaChainBackend (B : Type) := {
  network_id : B → kresult KaspaChainId;
  current_tip : B → kresult KaspaTip;
  get_transaction : B → KaspaTxId → kresult (option KaspaTxSummary);
  get_utxo : B → KaspaOutpoint → kresult (option KaspaUtxo);
  get_spending_transaction : B → KaspaOutpoint → kresult (option KaspaTxSummary);
  submit_transaction : B → list byte → kresult KaspaTxId;
  confirmation_depth : B → KaspaTxId → kresult (option u64)
}.

Class KaspaWalletBackend (B : Type) := {
  balance_by_address : B → string → kresult u64
}.

(** * The fixture backend *)

Record FixtureBackend := {
  fx_chain : KaspaChainId;
  fx_tip : KaspaTip;
  fx_blocks : gmap u64 (gmap KaspaOutpoint KaspaUtxo);
  fx_spends : gmap KaspaOutpoint (u64 * KaspaTxId * u32);
  fx_txs : gmap KaspaTxId KaspaTxSummary;
  fx_balances : gmap string u64;
  fx_failure : option KaspaNetworkError
}.

Definition fixture_new (chain : KaspaChainId) : FixtureBackend :=
  {| fx_chain := chain;
     fx_tip := {| tip_hash := zero32; tip_blue_score := wrap 64 0; tip_daa_score := wrap 64 0 |};
     fx_blocks := ∅; fx_spends := ∅; fx_txs := ∅; fx_balances := ∅; fx_failure := None |}.

Definition with_failure (self : FixtureBackend) (e : KaspaNetworkError) : FixtureBackend :=
  {| fx_chain := fx_chain self; fx_tip := fx_tip self; fx_blocks := fx_blocks self;
     fx_spends := fx_spends self; fx_txs := fx_txs self; fx_balances := fx_balances self;
     fx_failure := Some e |}.

Definition with_blocks (self : FixtureBackend) (blocks : gmap u64 (gmap KaspaOutpoint KaspaUtxo))
    (spends : gmap KaspaOutpoint (u64 * KaspaTxId * u32)) : FixtureBackend :=
  {| fx_chain := fx_chain self; fx_tip := fx_tip self; fx_blocks := blocks;
     fx_spends := spends; fx_txs := fx_txs self; fx_balances := fx_balances self;
     fx_failure := fx_failure self |}.

Definition add_utxo_at (self : FixtureBackend) (height : u64) (utxo : KaspaUtxo)
  : FixtureBackend :=
  let block := default ∅ (fx_blocks self !! height) in
  with_blocks self (<[height := <[ut_outpoint utxo := utxo]> block]> (fx_blocks self))
    (fx_spends self).

(** [u.spending = Some(..)] *)
Definition mark_spent (info : SpendingInfo) (u : KaspaUtxo) : KaspaUtxo :=
  {| ut_outpoint := ut_outpoint u; ut_value := ut_value u;
     ut_script_public_key := ut_script_public_key u;
     ut_block_daa_score := ut_block_daa_score u; ut_spending := Some info |}.

Definition spend_at (self : FixtureBackend) (outpoint : KaspaOutpoint) (height : u64)
    (txid : KaspaTxId) (input_index : u32) : FixtureBackend :=
  let info := {| sp_txid := txid; sp_input_index := input_index;
                 sp_block_daa_score := Some height |} in
  with_blocks self (alter (mark_spent info) outpoint <$> fx_blocks self)
    (<[outpoint := (height, txid, input_index)]> (fx_spends self)).

Definition submit (self : FixtureBackend) (summary : KaspaTxSummary)
  : FixtureBackend * KaspaTxId :=
  let id := tx_txid summary in
  ({| fx_chain := fx_chain self; fx_tip := fx_tip self; fx_blocks := fx_blocks self;
      fx_spends := fx_spends self; fx_txs := <[id := summary]> (fx_txs self);
      fx_balances := fx_balances self; fx_failure := fx_failure self |}, id).

Definition set_tip (self : FixtureBackend) (tip : KaspaTip) : FixtureBackend :=
  {| fx_chain := fx_chain self; fx_tip := tip; fx_blocks := fx_blocks self;
     fx_spends := fx_spends self; fx_txs := fx_txs self; fx_balances := fx_balances self;
     fx_failure := fx_failure self |}.

Definition set_balance_by_address (self : FixtureBackend) (address : string) (balance : u64)
  : FixtureBackend :=
  {| fx_chain := fx_chain self; fx_tip := fx_tip self; fx_blocks := fx_blocks self;
     fx_spends := fx_spends self; fx_txs := fx_txs self;
     fx_balances := <[address := balance]> (fx_balances self);
     fx_failure := fx_failure self |}.

Definition check_failure (self : FixtureBackend) : kresult unit :=
  match fx_failure self with Some e => Err e | None => Ok () end.

(** The entry of the latest block that holds the outpoint. *)
Definition locate_utxo (self : FixtureBackend) (outpoint : KaspaOutpoint) : option KaspaUtxo :=
  head (omap (λ '(_, block), block !! outpoint) (reverse (ordered (fx_blocks self)))).

#[export] Instance fixture_backend : KaspaChainBackend FixtureBackend := {
  network_id self := _ ← check_failure self; Ok (fx_chain self);
  current_tip self := _ ← check_failure self; Ok (fx_tip self);
  get_transaction self txid := _ ← check_failure self; Ok (fx_txs self !! txid);
  get_utxo self outpoint :=
    _ ← check_failure self;
    let utxo := locate_utxo self outpoint in
    _ ← when_some utxo validate_script_public_key;
    Ok utxo;
  get_spending_transaction self outpoint :=
    _ ← check_failure self;
    match fx_spends self !! outpoint with
    | Some (_, txid, _) => Ok (fx_txs self !! txid)
    | None => Ok None
    end;
  submit_transaction self _ :=
    Err (KE_Invariant
      "FixtureBackend::submit_transaction is read-only by default; use FixtureBackend::submit");
  confirmation_depth self txid :=
    _ ← check_failure self;
    Ok (t ← fx_txs self !! txid;
        if decide (0 < tx_mass t)%Z then Some (wrap 64 1) else None)
}.

#[export] Instance fixture_wallet : KaspaWalletBackend FixtureBackend := {
  balance_by_address self address :=
    _ ← check_failure self;
    Ok (default (wrap 64 0) (fx_balances self !! address))
}.

(** * What the fixture reports *)

Lemma insert_by_key_fmap {A B K} `{Ord K} (key : B → K) (f : A → B) x l :
  insert_by_key key (f x) (f <$> l) = f <$> insert_by_key (key ∘ f) x l.
Proof.
  induction l as [|y l IH]; [done|]. cbn. destruct (cmp _ _); [done..|]. cbn. by rewrite <-IH.
Qed.

Lemma sort_by_key_fmap {A B K} `{Ord K} (key : B → K) (f : A → B) l :
  sort_by_key key (f <$> l) = f <$> sort_by_key (key ∘ f) l.
Proof.
  unfold sort_by_key. induction l as [|x l IH]; [done|].
  rewrite fmap_cons. cbn [foldr]. by rewrite IH, insert_by_key_fmap.
Qed.

Lemma ordered_fmap {K A B} `{Countable K, Ord K} (f : A → B) (m : gmap K A) :
  ordered (f <$> m) = prod_map id f <$> ordered m.
Proof. unfold ordered. by rewrite map_to_list_fmap, sort_by_key_fmap. Qed.

Definition observe_spend (o o' : KaspaOutpoint) (info : SpendingInfo) (u : option KaspaUtxo)
  : option KaspaUtxo :=
  if decide (o' = o) then mark_spent info <$> u else u.

Lemma locate_spend_at s o h txid i o' :
  locate_utxo (spend_at s o h txid i) o' =
    observe_spend o o' {| sp_txid := txid; sp_input_index := i; sp_block_daa_score := Some h |}
      (locate_utxo s o').
Proof.
  unfold locate_utxo, observe_spend. cbn. rewrite ordered_fmap, <-fmap_reverse.
  generalize (reverse (ordered (fx_blocks s))). intros l.
  induction l as [|[k b] l IH]; cbn; [by case_decide|].
  destruct (decide (o' = o)) as [->|Ho]; cbn in *.
  - rewrite lookup_alter_eq. by destruct (b !! o).
  - rewrite lookup_alter_ne by congruence. destruct (b !! o'); [done|]. apply IH.
Qed.

(** Fact: marking an outpoint spent shows in the next [get_utxo] of it, with the
    spending transaction and height, and changes what no other outpoint
    returns, failures included. *)
Theorem fixture_spend_observed s o h txid i o' :
  get_utxo (spend_at s o h txid i) o' =
    (u ← get_utxo s o';
     Ok (observe_spend o o' {| sp_txid := txid; sp_input_index := i;
                               sp_block_daa_score := Some h |} u)).
Proof.
  cbn. rewrite locate_spend_at. unfold observe_spend.
  change (check_failure (spend_at s o h txid i)) with (check_failure s).
  destruct (check_failure s); [|done]. cbn [mbind result_bind].
  destruct (locate_utxo s o') as [u|]; case_decide; cbn; [|by destruct (validate_script_public_key u)|done..].
  change (validate_script_public_key (mark_spent _ u)) with (validate_script_public_key u).
  by destruct (validate_script_public_key u).
Qed.

(** [add_utxo_at] writes its own block only: an entry of a later block still
    answers. *)
Example earlier_utxo_does_not_overwrite :
  let o := {| transaction_id := b32 1; index := n32 0 |} in
  let utxo v := {| ut_outpoint := o; ut_value := n64 v; ut_script_public_key := {| spk_bytes := [] |};
                   ut_block_daa_score := None; ut_spending := None |} in
  let s := add_utxo_at (add_utxo_at (fixture_new KaspaSimnet) (n64 7) (utxo 100%Z)) (n64 3) (utxo 5%Z) in
  get_utxo s o = Ok (Some (utxo 100%Z)).
Proof. vm_compute. reflexivity. Qed.
