(* ===== verification/Sync.v ===== *)
(** The synchroniser (src/crates/rgk-sync/src/lib.rs): the restart-safe scanner
    driver over the traits [ScanBackend], [ScanCursorStore] and
    [ObservedSpendStore], and the rebuild source over a chain backend.

    A tick that fails part-way keeps the spends recorded so far, and a backend
    answers from a chain that moves between calls; so a call is a computation
    on the backend and the store together. *)

From stdpp Require Import base list strings gmap.
From Stdlib Require Import ZArith Lia Strings.Byte.
From S2P Require Import Prelude.
From S2P Require Import Bytes.
From S2P Require Import Encoding.
From S2P Require Import Types.
From S2P Require Import IndexerTypes.
From S2P Require Import Indexer.
From S2P Require Import Kaspa.

Open Scope string_scope.

(** * Data *)

Record ScanBatch := {
  sb_removed_chain_block_hashes : list Bytes32;
  sb_added_chain_block_hashes : list Bytes32;
  sb_last_added_daa_score : option u64;
  sb_observed_spends : usize;
  sb_observed_spend_records : list ObservedSpendRecord
}.

Definition batch_empty : ScanBatch :=
  {| sb_removed_chain_block_hashes := []; sb_added_chain_block_hashes := [];
     sb_last_added_daa_score := None; sb_observed_spends := wrap 64 0;
     sb_observed_spend_records := [] |}.

Inductive SyncError : Type :=
| SE_CursorChainMismatch (expected actual : KaspaChainId)
| SE_Reorg (removed_chain_block_hashes : list Bytes32)
| SE_MissingAddedDaaScore
| SE_ObservedSpendRecordMismatch (observed_spends : usize) (records : nat)
| SE_Indexer (e : IndexerError)
| SE_Chain (msg : string).

#[export] Instance SyncError_eq_dec : EqDecision SyncError.
Proof. solve_decision. Defined.

Record ScanServiceConfig := {
  cf_cursor_name : string;
  cf_chain_id : KaspaChainId;
  cf_min_confirmation_count : option u64
}.

Definition config_new (chain_id : KaspaChainId) : ScanServiceConfig :=
  {| cf_cursor_name := DEFAULT_SCAN_CURSOR; cf_chain_id := chain_id;
     cf_min_confirmation_count := None |}.

Record ScanTick := {
  tk_initialised_cursor : bool;
  tk_start_cursor : ScanCursor;
  tk_end_cursor : ScanCursor;
  tk_added_chain_blocks : usize;
  tk_observed_spends : usize
}.

Record ScanRunSummary := {
  sm_ticks : u64;
  sm_initialised_cursor : bool;
  sm_added_chain_blocks : usize;
  sm_observed_spends : usize;
  sm_end_cursor : option ScanCursor
}.

(** The trait; a call may move the state of the backend. *)
Class ScanBackend (B : Type) := {
  current_scan_cursor : KaspaChainId → stateful B SyncError ScanCursor;
  scan_from_cursor : ScanCursor → option u64 → stateful B SyncError ScanBatch
}.

(** * The service *)

(** Calls of the backend and of the store; [IndexerError]s are converted by
    [?]. *)
Definition backend {B C E A} (m : stateful B E A) : stateful (B * C) E A := λ '(b, c),
  let '(r, b') := m b in (r, (b', c)).
Definition store_read {B C A} (f : C → iresult A) : stateful (B * C) SyncError A := λ '(b, c),
  (map_err SE_Indexer (f c), (b, c)).
Definition store_write {B C} (f : C → iresult C) : stateful (B * C) SyncError unit := λ '(b, c),
  match f c with Ok c' => (Ok (), (b, c')) | Err e => (Err (SE_Indexer e), (b, c)) end.
Definition check {S A} (r : result SyncError A) : stateful S SyncError A := λ s, (r, s).

(** [for record in records { self.cursor_store.record_observed_spend(record)? }] *)
Fixpoint record_all {B C} `{ObservedSpendStore C} (records : list ObservedSpendRecord)
  : stateful (B * C) SyncError unit :=
  match records with
  | [] => mret ()
  | record :: records' =>
      _ ← store_write (λ c, record_observed_spend c record);
      record_all records'
  end.

Section service.
Context {B C : Type} `{ScanBackend B} `{ScanCursorStore C} `{ObservedSpendStore C}.
Context (config : ScanServiceConfig).

(** The branch of a missing cursor. *)
Definition initialise_cursor : stateful (B * C) SyncError ScanTick :=
  cursor ← backend (current_scan_cursor (cf_chain_id config));
  _ ← store_write (λ c, store_scan_cursor c (cf_cursor_name config) cursor);
  mret {| tk_initialised_cursor := true; tk_start_cursor := cursor; tk_end_cursor := cursor;
          tk_added_chain_blocks := wrap 64 0; tk_observed_spends := wrap 64 0 |}.

Definition check_batch (batch : ScanBatch) : result SyncError unit :=
  _ ← fail_if (sb_removed_chain_block_hashes batch ≠ [])
        (SE_Reorg (sb_removed_chain_block_hashes batch));
  fail_if (uval (sb_observed_spends batch)
           ≠ Z.of_nat (length (sb_observed_spend_records batch)))
    (SE_ObservedSpendRecordMismatch (sb_observed_spends batch)
       (length (sb_observed_spend_records batch))).

Definition batch_end_cursor (start_cursor : ScanCursor) (batch : ScanBatch)
  : result SyncError ScanCursor :=
  match last (sb_added_chain_block_hashes batch) with
  | Some last_hash =>
      daa_score ← ok_or (sb_last_added_daa_score batch) SE_MissingAddedDaaScore;
      Ok {| cu_chain_id := cu_chain_id start_cursor; cu_block_hash := last_hash;
            cu_daa_score := daa_score |}
  | None => Ok start_cursor
  end.

Definition tick : stateful (B * C) SyncError ScanTick :=
  found ← store_read (λ c, load_scan_cursor c (cf_cursor_name config));
  match found with
  | None => initialise_cursor
  | Some start_cursor =>
      _ ← check (fail_if (cu_chain_id start_cursor ≠ cf_chain_id config)
            (SE_CursorChainMismatch (cf_chain_id config) (cu_chain_id start_cursor)));
      batch ← backend (scan_from_cursor start_cursor (cf_min_confirmation_count config));
      _ ← check (check_batch batch);
      end_cursor ← check (batch_end_cursor start_cursor batch);
      _ ← record_all (sb_observed_spend_records batch);
      _ ← (if decide (end_cursor ≠ start_cursor)
           then store_write (λ c, store_scan_cursor c (cf_cursor_name config) end_cursor)
           else mret ());
      mret {| tk_initialised_cursor := false; tk_start_cursor := start_cursor;
              tk_end_cursor := end_cursor;
              tk_added_chain_blocks := usize_of (length (sb_added_chain_block_hashes batch));
              tk_observed_spends := sb_observed_spends batch |}
  end.

Definition summary_new : ScanRunSummary :=
  {| sm_ticks := wrap 64 0; sm_initialised_cursor := false; sm_added_chain_blocks := wrap 64 0;
     sm_observed_spends := wrap 64 0; sm_end_cursor := None |}.

Definition summary_add (summary : ScanRunSummary) (tick : ScanTick) : ScanRunSummary :=
  {| sm_ticks := wrapping_add (sm_ticks summary) (wrap 64 1);
     sm_initialised_cursor := sm_initialised_cursor summary || tk_initialised_cursor tick;
     sm_added_chain_blocks :=
       wrapping_add (sm_added_chain_blocks summary) (tk_added_chain_blocks tick);
     sm_observed_spends := wrapping_add (sm_observed_spends summary) (tk_observed_spends tick);
     sm_end_cursor := Some (tk_end_cursor tick) |}.

Definition is_idle (tick : ScanTick) : bool :=
  bool_decide (uval (tk_added_chain_blocks tick) = 0%Z) && negb (tk_initialised_cursor tick).

(** The loop of [run_until_idle]; [None] when [fuel] ticks were not enough. *)
Fixpoint run_loop (fuel : nat) (max_idle_ticks : u32) (summary : ScanRunSummary) (idle_ticks : u32)
    (w : B * C) : option (result SyncError ScanRunSummary * (B * C)) :=
  match fuel with
  | O => None
  | S fuel =>
      match tick w with
      | (Err e, w') => Some (Err e, w')
      | (Ok t, w') =>
          let summary' := summary_add summary t in
          let idle_ticks' := if is_idle t then saturating_add idle_ticks (wrap 32 1)
                             else wrap 32 0 in
          if decide (max_idle_ticks <= idle_ticks')%Z then Some (Ok summary', w')
          else run_loop fuel max_idle_ticks summary' idle_ticks' w'
      end
  end.

Definition run_until_idle (fuel : nat) (max_idle_ticks : u32) (w : B * C)
  : option (result SyncError ScanRunSummary * (B * C)) :=
  run_loop fuel max_idle_ticks summary_new (wrap 32 0) w.
End service.

(** * [KaspaRebuildSource] *)

Record KaspaRebuildSource (B : Type) := { ks_backend : B }.
Arguments ks_backend {B}.

(** [map_err(|e| IndexerError::RebuildSource(e.to_string()))] *)
Definition source_err (e : KaspaNetworkError) : IndexerError :=
  IE_RebuildSource (network_error_display e).

#[export] Instance kaspa_rebuild_source {B} `{KaspaChainBackend B} :
  RebuildSource (KaspaRebuildSource B) := {
  source_chain_id self := map_err source_err (network_id (ks_backend self));
  spend_evidence self spent :=
    utxo ← map_err source_err (get_utxo (ks_backend self) spent);
    match utxo ≫= ut_spending with
    | Some spending =>
        confirmation_depth ← map_err source_err
          (confirmation_depth (ks_backend self) (sp_txid spending));
        Ok (Some {| ev_spending_txid := sp_txid spending;
                    ev_block_daa_score := sp_block_daa_score spending;
                    ev_confirmation_depth := confirmation_depth |})
    | None =>
        found ← map_err source_err (get_spending_transaction (ks_backend self) spent);
        match found with
        | None => Ok None
        | Some tx =>
            confirmation_depth ← map_err source_err
              (confirmation_depth (ks_backend self) (tx_txid tx));
            Ok (Some {| ev_spending_txid := tx_txid tx; ev_block_daa_score := None;
                        ev_confirmation_depth := confirmation_depth |})
        end
    end
}.
