(* ===== verification/SyncCorrect.v ===== *)
(** What the synchroniser guarantees: the cursor never passes a spend that is
    not recorded, whatever fails and whenever the service restarts; a run ends;
    and what rebuild evidence a chain backend can give. *)

From stdpp Require Import base list strings gmap.
From Stdlib Require Import ZArith Lia Strings.Byte.
From S2P Require Import Prelude.
From S2P Require Import Bytes.
From S2P Require Import Encoding.
From S2P Require Import Types.
From S2P Require Import Records.
From S2P Require Import Commit.
From S2P Require Import IndexerTypes.
From S2P Require Import Indexer.
From S2P Require Import IndexerCodec.
From S2P Require Import Sled.
From S2P Require Import Rebuild.
From S2P Require Import Kaspa.
From S2P Require Import Sync.

Open Scope list_scope.

(** * What the stores promise to the scanner *)

(** A write that succeeds is read back, and touches nothing else. *)
Class ScanStoreLaws (C : Type) `{ScanCursorStore C, ObservedSpendStore C} := {
  store_cursor_law (s : C) n c s' :
    store_scan_cursor s n c = Ok s' →
    load_scan_cursor s' n = Ok (Some c) ∧
    (∀ n', n' ≠ n → load_scan_cursor s' n' = load_scan_cursor s n') ∧
    (∀ o, observed_spend s' o = observed_spend s o);
  record_spend_law (s : C) r s' :
    record_observed_spend s r = Ok s' →
    observed_spend s' (os_spent r) = Ok (Some r) ∧
    (∀ o, o ≠ os_spent r → observed_spend s' o = observed_spend s o) ∧
    (∀ n, load_scan_cursor s' n = load_scan_cursor s n)
}.

#[export] Instance in_memory_scan_laws : ScanStoreLaws InMemoryIndexer.
Proof.
  split.
  - intros s n c s'. cbn. rewrite bind_ok. intros (key & Hn & E). apply (inj Ok) in E as <-.
    cbn. rewrite Hn. cbn. rewrite lookup_insert_eq. split_and!; [done| |done].
    intros n' Hne. destruct (validate_scan_cursor_name n'); [cbn|done].
    by rewrite lookup_insert_ne.
  - intros s r s'. cbn. intros E. apply (inj Ok) in E as <-. cbn. rewrite lookup_insert_eq.
    split_and!; [done| |done]. intros o Hne. by rewrite lookup_insert_ne.
Qed.

Lemma cursor_name_key n k : validate_scan_cursor_name n = Ok k → k = as_bytes n.
Proof. unfold validate_scan_cursor_name. intros E. by inv_ok. Qed.

#[export] Instance sled_scan_laws {T} `{TreeLaws T} : ScanStoreLaws (SledIndexer T).
Proof.
  split.
  - intros s n c s'. cbn. rewrite bind_ok. intros (key & Hn & E).
    pose proof (cursor_name_key _ _ Hn) as ->.
    destruct (tree_store_view (sl_scan_cursors s) (as_bytes n) (encode_scan_cursor c))
      as (t & Et & Hv). rewrite Et in E. cbn in E. apply (inj Ok) in E as <-. cbn. rewrite Hn. cbn.
    rewrite tree_load_view, Hv, lookup_insert_eq, scan_cursor_roundtrip. split_and!; [done| |done].
    intros n' Hne. destruct (validate_scan_cursor_name n') as [k|] eqn:Hn'; [cbn|done].
    apply cursor_name_key in Hn' as ->. rewrite !tree_load_view, Hv.
    rewrite lookup_insert_ne; [done|]. intros ?%as_bytes_inj. congruence.
  - intros s r s'.
    destruct (tree_store_view (sl_observed_spends s) (encode_observed_spend_key (os_spent r))
      (encode_observed_spend_record r)) as (t & Et & Hv).
    intros (t' & E' & E)%bind_ok. pose proof (eq_trans (eq_sym Et) E') as Ett.
    apply (inj Ok) in Ett as <-. apply (inj Ok) in E as <-. cbn.
    rewrite tree_load_view, Hv, lookup_insert_eq, observed_spend_roundtrip.
    split_and!; [done| |done]. intros o Hne. rewrite !tree_load_view, Hv.
    rewrite lookup_insert_ne; [done|]. intros ?%observed_spend_key_inj. congruence.
Qed.

(** * One tick *)

Section tick.
Context {B C : Type} `{ScanBackend B} `{ScanStoreLaws C}.
Context (config : ScanServiceConfig).
Abbreviation name := (cf_cursor_name config).

(** The store holds a prefix of the records on top of [c], and its cursors. *)
Inductive records_on (c : C) : list ObservedSpendRecord → C → Prop :=
| records_nil : records_on c [] c
| records_snoc l r c1 c2 :
    records_on c l c1 → record_observed_spend c1 r = Ok c2 → records_on c (l ++ [r]) c2.

Lemma records_on_cursors c l c' n : records_on c l c' → load_scan_cursor c' n = load_scan_cursor c n.
Proof. induction 1 as [|l r c1 c2 _ IH E]; [done|]. apply record_spend_law in E as (_ & _ & E). congruence. Qed.

Lemma records_on_other c l c' o :
  records_on c l c' → o ∉ os_spent <$> l → observed_spend c' o = observed_spend c o.
Proof.
  induction 1 as [|l r c1 c2 _ IH E]; [done|]. rewrite fmap_app. intros Ho.
  apply record_spend_law in E as (_ & E & _). rewrite E by set_solver. apply IH. set_solver.
Qed.

Lemma records_on_in c l c' r :
  records_on c l c' → NoDup (os_spent <$> l) → r ∈ l → observed_spend c' (os_spent r) = Ok (Some r).
Proof.
  induction 1 as [|l r' c1 c2 _ IH E]; [by intros _ ?%elem_of_nil|].
  rewrite fmap_app. intros (Hl & Hd & _)%list.NoDup_app Hr.
  apply record_spend_law in E as (E1 & E2 & _).
  apply elem_of_app in Hr as [Hr|Hr]; [|apply list_elem_of_singleton in Hr as ->; done].
  rewrite E2; [by apply IH|]. intros Heq. apply (Hd (os_spent r)); [by apply list_elem_of_fmap_2|].
  rewrite Heq. set_solver.
Qed.

Lemma records_on_trans c l c1 k c2 : records_on c l c1 → records_on c1 k c2 → records_on c (l ++ k) c2.
Proof.
  intros Hl. induction 1 as [|k r c2 c3 _ IH E]; [by rewrite app_nil_r|].
  rewrite (assoc (++)). by econstructor.
Qed.

(** [record_all] records a prefix; all of it when it succeeds. *)
Lemma record_all_run rs (b : B) c res b' c' :
  record_all rs (b, c) = (res, (b', c')) →
  b' = b ∧ ∃ l k, rs = l ++ k ∧ records_on c l c' ∧ (res = Ok () → k = []).
Proof.
  revert c. induction rs as [|r rs IH]; intros c; cbn [record_all].
  - intros [= <- <- <-]. split; [done|]. exists [], []. split_and!; [done|constructor|done].
  - unfold mbind, stateful_bind, store_write.
    destruct (record_observed_spend c r) as [c1|e] eqn:E.
    + intros (-> & l & k & -> & Hl & Hk)%IH. split; [done|]. exists (r :: l), k.
      split_and!; [done| |done]. apply (records_on_trans c [r] c1); [|done].
      apply (records_snoc c [] r c c1); [constructor|done].
    + intros [= <- <- <-]. split; [done|]. exists [], (r :: rs). split_and!; [done|constructor|done].
Qed.

(** What a tick can do to the store: the cursor stays and a prefix of a
    checked batch may be recorded; or all of the batch is recorded and the
    cursor moves behind it; or there was no cursor and one is set. *)
Inductive tick_effect (b : B) (c : C) : result SyncError ScanTick → B → C → Prop :=
| effect_none e b' : tick_effect b c (Err e) b' c
| effect_initialised cursor b' c' t :
    load_scan_cursor c name = Ok None →
    current_scan_cursor (cf_chain_id config) b = (Ok cursor, b') →
    store_scan_cursor c name cursor = Ok c' →
    tk_end_cursor t = cursor → tk_initialised_cursor t = true →
    tick_effect b c (Ok t) b' c'
| effect_interrupted start batch b' l k c' e :
    load_scan_cursor c name = Ok (Some start) →
    scan_from_cursor start (cf_min_confirmation_count config) b = (Ok batch, b') →
    check_batch batch = Ok () →
    sb_observed_spend_records batch = l ++ k → records_on c l c' →
    tick_effect b c (Err e) b' c'
| effect_scanned start batch b' c1 c' t :
    load_scan_cursor c name = Ok (Some start) →
    scan_from_cursor start (cf_min_confirmation_count config) b = (Ok batch, b') →
    check_batch batch = Ok () →
    batch_end_cursor start batch = Ok (tk_end_cursor t) →
    records_on c (sb_observed_spend_records batch) c1 →
    (tk_end_cursor t = start ∧ c' = c1 ∨ store_scan_cursor c1 name (tk_end_cursor t) = Ok c') →
    tk_initialised_cursor t = false →
    tk_added_chain_blocks t = usize_of (length (sb_added_chain_block_hashes batch)) →
    tk_observed_spends t = sb_observed_spends batch →
    tick_effect b c (Ok t) b' c'.

Lemma tick_has_effect b c res b' c' :
  tick config (b, c) = (res, (b', c')) → tick_effect b c res b' c'.
Proof.
  unfold tick, mbind at 1, stateful_bind at 1, store_read.
  destruct (load_scan_cursor c name) as [[start|]|e] eqn:Hload; cbn [map_err];
    [| |by intros [= <- <- <-]; constructor].
  - unfold mbind at 1, stateful_bind at 1, check at 1.
    destruct (fail_if _ _) as [u|e]; [|by intros [= <- <- <-]; constructor].
    unfold mbind at 1, stateful_bind at 1, backend.
    destruct (scan_from_cursor start _ b) as [[batch|e] b1] eqn:Hscan;
      [|by intros [= <- <- <-]; constructor].
    unfold mbind at 1, stateful_bind at 1, check at 1.
    destruct (check_batch batch) as [[]|e] eqn:Hcheck; [|by intros [= <- <- <-]; constructor].
    unfold mbind at 1, stateful_bind at 1, check at 1.
    destruct (batch_end_cursor start batch) as [end_|e] eqn:Hend;
      [|by intros [= <- <- <-]; constructor].
    unfold mbind at 1, stateful_bind at 1.
    destruct (record_all _ (b1, c)) as [[[]|e] [b2 c1]] eqn:Hrec;
      apply record_all_run in Hrec as (-> & l & k & El & Hl & Hk);
      [|by intros [= <- <- <-]; eapply effect_interrupted].
    rewrite (Hk eq_refl), app_nil_r in El. subst l.
    unfold mbind, stateful_bind. case_decide as Hmove; [unfold store_write|].
    + destruct (store_scan_cursor c1 name end_) as [c2|e] eqn:Hst; intros [= <- <- <-].
      * eapply effect_scanned; eauto.
      * eapply effect_interrupted with (k := []); eauto. by rewrite app_nil_r.
    + subst end_. intros [= <- <- <-]. eapply effect_scanned; eauto.
  - unfold initialise_cursor, mbind, stateful_bind, backend, store_write.
    destruct (current_scan_cursor _ b) as [[cursor|e] b1] eqn:Hcur;
      [|by intros [= <- <- <-]; constructor].
    destruct (store_scan_cursor c name cursor) as [c1|e] eqn:Hst;
      intros [= <- <- <-]; [|constructor]. by eapply effect_initialised.
Qed.
End tick.

(** * Scanning a chain *)

Record ChainBlock := {
  cb_hash : Bytes32;
  cb_daa_score : u64;
  cb_spends : list ObservedSpendRecord
}.

Definition spends (l : list ChainBlock) : list ObservedSpendRecord := l ≫= cb_spends.

(** What the scanner documents: a scan that removes nothing adds the blocks that
    follow the cursor's block, in order, with their spends; a fresh cursor
    names a block. *)
Class ChainFeed (B : Type) `{ScanBackend B} (chain : list ChainBlock) := {
  scan_law (b : B) cursor m batch b' :
    scan_from_cursor cursor m b = (Ok batch, b') →
    sb_removed_chain_block_hashes batch = [] →
    ∃ pre mid post, chain = pre ++ mid ++ post ∧
      cb_hash <$> last pre = Some (cu_block_hash cursor) ∧
      sb_added_chain_block_hashes batch = cb_hash <$> mid ∧
      sb_observed_spend_records batch = spends mid;
  current_law (b : B) id cursor b' :
    current_scan_cursor id b = (Ok cursor, b') →
    ∃ pre post, chain = pre ++ post ∧ cb_hash <$> last pre = Some (cu_block_hash cursor)
}.

Section scanning.
Context {B C : Type} `{ScanBackend B} `{ScanStoreLaws C}.
Context (config : ScanServiceConfig).
Abbreviation name := (cf_cursor_name config).

(** A history of the service: ticks with any outcome, and restarts, which keep
    the store and may bring another backend state. *)
Inductive service_run : B * C → B * C → Prop :=
| run_start w : service_run w w
| run_tick w w1 res w2 : service_run w w1 → tick config w1 = (res, w2) → service_run w w2
| run_restart w b1 c1 b2 : service_run w (b1, c1) → service_run w (b2, c1).

Lemma service_run_trans w1 w2 w3 : service_run w1 w2 → service_run w2 w3 → service_run w1 w3.
Proof. intros H12 H23. revert H12. induction H23; eauto using run_tick, run_restart. Qed.

(** One tick, whatever it answers. *)
Definition ticked (w w' : B * C) : Prop := (tick config w).2 = w'.

Lemma ticks_service w w' : rtc ticked w w' → service_run w w'.
Proof.
  revert w'. apply (rtc_ind_r _ w); [constructor|]. intros w1 w2 _ Ht IH.
  eapply run_tick; [exact IH|]. rewrite <-Ht. apply surjective_pairing.
Qed.

Section chain.
Context (chain : list ChainBlock) `{!ChainFeed B chain}.
Context (distinct_blocks : NoDup (cb_hash <$> chain)).
Context (distinct_spends : NoDup (os_spent <$> spends chain)).

(** The stored cursor is behind the blocks [pre], a prefix of the chain. *)
Definition cursor_at (c : C) (pre : list ChainBlock) : Prop :=
  (∃ post, chain = pre ++ post) ∧
  ∃ cursor, load_scan_cursor c name = Ok (Some cursor) ∧
            cb_hash <$> last pre = Some (cu_block_hash cursor).

Definition all_recorded (c : C) (l : list ChainBlock) : Prop :=
  Forall (λ r, observed_spend c (os_spent r) = Ok (Some r)) (spends l).

(** A prefix is determined by its last block. *)
Lemma prefix_by_hash pre post pre' post' h :
  chain = pre ++ post → chain = pre' ++ post' →
  cb_hash <$> last pre = Some h → cb_hash <$> last pre' = Some h → pre = pre'.
Proof.
  intros E E' Hl Hl'. rewrite E in E'. pose proof distinct_blocks as Hd. rewrite E in Hd.
  assert (Hlen : length pre = length pre').
  { rewrite last_lookup in Hl, Hl'.
    assert (Hi : (cb_hash <$> (pre ++ post)) !! pred (length pre) = Some h).
    { rewrite list_lookup_fmap, lookup_app_l; [done|]. destruct pre; [done|cbn; lia]. }
    assert (Hi' : (cb_hash <$> (pre ++ post)) !! pred (length pre') = Some h).
    { rewrite E', list_lookup_fmap, lookup_app_l; [done|]. destruct pre'; [done|cbn; lia]. }
    pose proof (NoDup_lookup _ _ _ _ Hd Hi Hi'). destruct pre, pre'; cbn in *; try done; lia. }
  by apply (app_inj_1 _ _ post post').
Qed.

Lemma spends_app l k : spends (l ++ k) = spends l ++ spends k.
Proof. apply bind_app. Qed.

Lemma all_recorded_app c l k : all_recorded c (l ++ k) ↔ all_recorded c l ∧ all_recorded c k.
Proof. unfold all_recorded. by rewrite spends_app, list.Forall_app. Qed.

(** Recording spends of later blocks leaves those of earlier ones. *)
Lemma recorded_stays pre seg mid post c l k c' :
  chain = pre ++ seg ++ mid ++ post → spends mid = l ++ k →
  records_on c l c' → all_recorded c seg → all_recorded c' seg.
Proof.
  intros E El Hl Hs. unfold all_recorded in *. rewrite list.Forall_forall in *.
  intros r Hr. rewrite (records_on_other _ _ _ _ Hl); [by apply Hs|]. intros Hin.
  pose proof distinct_spends as Hd. rewrite E, !spends_app, El, !fmap_app in Hd.
  apply list.NoDup_app in Hd as (_ & _ & Hd). apply list.NoDup_app in Hd as (_ & Hd & _).
  apply (Hd (os_spent r)); [by apply list_elem_of_fmap_2|]. set_solver.
Qed.

Lemma recorded_new pre mid post c c' :
  chain = pre ++ mid ++ post → records_on c (spends mid) c' → all_recorded c' mid.
Proof.
  intros E Hm. unfold all_recorded. rewrite list.Forall_forall. intros r Hr.
  apply (records_on_in _ _ _ _ Hm); [|done]. pose proof distinct_spends as Hd.
  rewrite E, !spends_app, !fmap_app in Hd. apply list.NoDup_app in Hd as (_ & _ & Hd).
  by apply list.NoDup_app in Hd as (Hd & _).
Qed.

Lemma observed_same c c' l :
  (∀ o, observed_spend c' o = observed_spend c o) → all_recorded c l → all_recorded c' l.
Proof. intros E. unfold all_recorded. intros Hl. eapply list.Forall_impl; [exact Hl|]. intros r. by rewrite E. Qed.

Lemma batch_removed batch : check_batch batch = Ok () → sb_removed_chain_block_hashes batch = [].
Proof. unfold check_batch. by intros [E%fail_if_ok _]%bind_unit_ok; apply dec_stable. Qed.

Lemma end_cursor_hash start batch end_ pre mid :
  batch_end_cursor start batch = Ok end_ →
  sb_added_chain_block_hashes batch = cb_hash <$> mid →
  cb_hash <$> last pre = Some (cu_block_hash start) →
  cb_hash <$> last (pre ++ mid) = Some (cu_block_hash end_).
Proof.
  unfold batch_end_cursor. intros E Ea Hl. rewrite Ea, fmap_last in E. rewrite last_app.
  destruct (last mid) as [x|] eqn:Hm; cbn in E.
  - apply bind_ok in E as (d & _ & E). by apply (inj Ok) in E as <-.
  - by apply (inj Ok) in E as <-.
Qed.

(** One tick: the cursor moves by the blocks whose spends were recorded. *)
Lemma tick_advances b c res b' c' start seg :
  tick_effect config b c res b' c' → cursor_at c (start ++ seg) → all_recorded c seg →
  ∃ mid, cursor_at c' (start ++ seg ++ mid) ∧ all_recorded c' (seg ++ mid).
Proof.
  intros Ht ((post & E) & cur & Hcur & Hhash) Hseg.
  destruct Ht as [e b'|cursor b' c' t Hn|s batch b' l k c' e Hs Hscan Hc El Hl
                 |s batch b' c1 c' t Hs Hscan Hc He Hl Hst _ _].
  - exists []. rewrite !app_nil_r. split; [|done]. split; [by exists post|]. by exists cur.
  - congruence.
  - rewrite Hcur in Hs. apply (inj Ok), (inj Some) in Hs as <-.
    destruct (scan_law _ _ _ _ _ Hscan (batch_removed _ Hc)) as (pre & mid & post' & E' & Hh & _ & Er).
    pose proof (prefix_by_hash _ _ _ _ _ E E' Hhash Hh) as <-.
    exists []. rewrite !app_nil_r. split.
    + split; [by exists post|]. exists cur. by rewrite (records_on_cursors _ _ _ _ Hl).
    + rewrite <-(assoc (++)) in E'. eapply (recorded_stays start seg mid post'); [exact E'|by rewrite <-Er, El|done..].
  - rewrite Hcur in Hs. apply (inj Ok), (inj Some) in Hs as <-.
    destruct (scan_law _ _ _ _ _ Hscan (batch_removed _ Hc)) as (pre & mid & post' & E' & Hh & Ea & Er).
    pose proof (prefix_by_hash _ _ _ _ _ E E' Hhash Hh) as <-.
    pose proof (end_cursor_hash _ _ _ _ _ He Ea Hh) as Hlast.
    pose proof (records_on_cursors _ _ _ name Hl) as Hc1. rewrite Er in Hl.
    assert (Hrec : all_recorded c1 (seg ++ mid)).
    { rewrite <-(assoc (++)) in E'. apply all_recorded_app. split.
      - apply (recorded_stays start seg mid post' c (spends mid) []); [exact E'|by rewrite app_nil_r|done..].
      - rewrite (assoc (++)) in E'. by eapply recorded_new. }
    exists mid. rewrite (assoc (++)). split.
    + split; [exists post'; by rewrite E', (assoc (++))|]. exists (tk_end_cursor t).
      split; [|done]. destruct Hst as [[-> ->]|Hst]; [by rewrite Hc1|].
      by apply store_cursor_law in Hst as [? _].
    + destruct Hst as [[_ ->]|Hst]; [done|]. apply store_cursor_law in Hst as (_ & _ & Ho).
      by eapply observed_same.
Qed.

(** Fact: The synchroniser never skips a spend: over a chain of distinct blocks and
    spends, whatever ticks succeed or fail at any point and however often the
    service restarts on its store, the stored cursor only moves forward, and
    every spend of every block between the first cursor and the current one is
    recorded, as the chain reported it. *)
Theorem scan_never_skips_a_spend b c b' c' start :
  cursor_at c start → service_run (b, c) (b', c') →
  ∃ seg, cursor_at c' (start ++ seg) ∧ all_recorded c' seg.
Proof.
  intros Hc Hrun. remember (b, c) as w eqn:Ew. remember (b', c') as w' eqn:Ew'.
  revert b' c' Ew'. induction Hrun as [w|w w1 res w2 Hrun IH Ht|w b1 c1 b2 Hrun IH]; intros b' c' E'.
  - subst. apply (inj2 pair) in E' as [_ <-]. exists []. rewrite app_nil_r. split; [done|]. constructor.
  - subst. destruct w1 as [b1 c1]. destruct (IH eq_refl b1 c1 eq_refl) as (seg & Hs & Ha).
    apply tick_has_effect in Ht. destruct (tick_advances _ _ _ _ _ _ _ Ht Hs Ha) as (mid & ? & ?).
    by exists (seg ++ mid).
  - apply (inj2 pair) in E' as [_ <-]. by apply (IH Ew b1).
Qed.

(** Ticks on a store without a cursor change nothing until one of them starts the
    cursor, at a block of the chain. *)
Lemma first_tick w w' :
  load_scan_cursor w.2 name = Ok None → rtc ticked w w' →
  w'.2 = w.2 ∨
  ∃ w0 t w1 pre, rtc ticked w w0 ∧ w0.2 = w.2 ∧ tick config w0 = (Ok t, w1) ∧
    tk_initialised_cursor t = true ∧ cursor_at w1.2 pre ∧ rtc ticked w1 w'.
Proof.
  intros Hnone. revert w'. apply (rtc_ind_r _ w); [by left|].
  intros w1 w2 Hw1 Ht [E|(w0 & t & w3 & pre & Hw0 & E0 & Et & Hi & Hc & Hw3)]; cycle 1.
  { right. exists w0, t, w3, pre. split_and!; [done..|]. by eapply rtc_r. }
  unfold ticked in Ht. destruct (tick config w1) as [res w2'] eqn:Et. cbn in Ht. subst w2'.
  destruct w1 as [b1 c1], w2 as [b2 c2]. cbn in E. subst c1.
  pose proof (tick_has_effect config _ _ _ _ _ Et) as He.
  inversion He as [|cursor b' c' t _ Hcur Hst _ Hi| |]; subst; [by left| |congruence|congruence].
  right. destruct (current_law _ _ _ _ Hcur) as (pre & post & Ec & Hh).
  exists (b1, w.2), t, (b2, c2), pre. split_and!; [done..| |constructor].
  split; [by exists post|]. exists cursor. split; [|done].
  by apply store_cursor_law in Hst as [? _].
Qed.
End chain.
End scanning.

(** * Running until idle *)

(** A backend with finitely many blocks left to report behind a cursor. *)
Class Progress (B : Type) `{ScanBackend B} := {
  remaining : B → option ScanCursor → nat;
  scan_progress (b : B) cursor m batch b' end_ :
    scan_from_cursor cursor m b = (Ok batch, b') → batch_end_cursor cursor batch = Ok end_ →
    (sb_added_chain_block_hashes batch = [] ∧
     (remaining b' (Some end_) <= remaining b (Some cursor))%nat) ∨
    (remaining b' (Some end_) < remaining b (Some cursor))%nat;
  current_progress (b : B) id cursor b' :
    current_scan_cursor id b = (Ok cursor, b') →
    (remaining b' (Some cursor) <= remaining b None)%nat
}.

Section running.
Context {B C : Type} `{ScanBackend B} `{ScanStoreLaws C} `{!Progress B}.
Context (config : ScanServiceConfig).
Abbreviation name := (cf_cursor_name config).

Definition stored_cursor (c : C) : option ScanCursor :=
  match load_scan_cursor c name with Ok found => found | Err _ => None end.

(** The blocks left to report, and one for the missing cursor. *)
Definition work (b : B) (c : C) : nat :=
  remaining b (stored_cursor c) + if decide (stored_cursor c = None) then 1 else 0.

(** A successful tick leaves its end cursor in the store, and was idle or used
    up a block or the missing cursor. *)
Lemma tick_cost b c t b' c' :
  tick config (b, c) = (Ok t, (b', c')) →
  load_scan_cursor c' name = Ok (Some (tk_end_cursor t)) ∧
  (is_idle t = true ∧ (work b' c' <= work b c)%nat ∨ (work b' c' < work b c)%nat).
Proof.
  intros Ht%tick_has_effect. unfold work, stored_cursor.
  remember (Ok t) as res eqn:Er. destruct Ht as [|cursor b' c' t' Hn Hcur Hst He Hi| 
    |s batch b' c1 c' t' Hs Hscan Hc He Hl Hst Hi Ha]; try done; apply (inj Ok) in Er as ->.
  - apply store_cursor_law in Hst as [Hst _]. rewrite Hst, He, Hn. split; [done|right].
    apply current_progress in Hcur. rewrite decide_False, decide_True by done. lia.
  - assert (Hend : load_scan_cursor c' name = Ok (Some (tk_end_cursor t))).
    { destruct Hst as [[-> ->]|Hst]; [by rewrite (records_on_cursors _ _ _ name Hl)|].
      by apply store_cursor_law in Hst as [? _]. }
    split; [done|]. rewrite Hs, Hend, !decide_False by done.
    destruct (scan_progress _ _ _ _ _ _ Hscan He) as [[E ?]|?]; [left|right; lia].
    split; [unfold is_idle; by rewrite Ha, E, Hi|lia].
Qed.

(** Enough ticks for a run that has seen [idle] idle ticks in a row. *)
Definition ticks_left (max_idle : u32) (b : B) (c : C) (idle : u32) : nat :=
  work b c * (Z.to_nat max_idle + 1) +
  (Z.to_nat max_idle - Z.to_nat idle) + 1.

Lemma run_loop_ends max_idle fuel summary idle b c :
  (ticks_left max_idle b c idle <= fuel)%nat →
  ∃ r b' c', run_loop config fuel max_idle summary idle (b, c) = Some (r, (b', c')) ∧
    service_run config (b, c) (b', c') ∧
    (∀ s, r = Ok s → load_scan_cursor c' name = Ok (sm_end_cursor s)).
Proof.
  revert summary idle b c. induction fuel as [|fuel IH]; intros summary idle b c Hfuel.
  { unfold ticks_left in Hfuel. lia. }
  cbn [run_loop]. destruct (tick config (b, c)) as [[t|e] [b1 c1]] eqn:Ht.
  2:{ exists (Err e), b1, c1. split_and!; [done| |done]. eapply run_tick; [constructor|done]. }
  pose proof (run_tick config (b, c) (b, c) _ _ (run_start _ _) Ht) as Hrun.
  apply tick_cost in Ht as [Hend Hcost].
  pose proof (uint_range max_idle). pose proof (uint_range idle).
  set (idle' := if is_idle t then _ else _).
  case_decide as Hdone.
  { eexists _, b1, c1. split_and!; [done|done|]. intros s Es. by apply (inj Ok) in Es as <-. }
  destruct (IH (summary_add summary t) idle' b1 c1) as (r & b' & c' & -> & Hr & He).
  - unfold ticks_left in *. unfold idle' in *. destruct (is_idle t).
    + rewrite uval_saturating_add in *. change (uval (wrap 32 1)) with 1%Z in *.
      assert (Hle : (work b1 c1 <= work b c)%nat) by (destruct Hcost as [[_ ?]|?]; lia).
      pose proof (Nat.mul_le_mono_r _ _ (Z.to_nat max_idle + 1) Hle). lia.
    + destruct Hcost as [[? _]|Hlt]; [done|]. change (uval (wrap 32 0)) with 0%Z.
      pose proof (Nat.mul_le_mono_r _ _ (Z.to_nat max_idle + 1) Hlt) as Hm. cbn in Hm. lia.
  - eexists _, b', c'. split_and!; [done| |done]. by eapply service_run_trans.
Qed.

(** C40: [run_until_idle] ends: over a backend with finitely many blocks left to
    report, it returns within [(n + 1) (k + 1) + k + 1] ticks, for [n] blocks
    and [k] idle ticks, with a summary or an error; what it leaves is a history
    of ticks, and the end cursor of its summary is the stored one. *)
Theorem run_until_idle_terminates (max_idle : u32) fuel b c :
  ((remaining b (stored_cursor c) + 1) * (Z.to_nat max_idle + 1) + Z.to_nat max_idle + 1
   <= fuel)%nat →
  ∃ r b' c', run_until_idle config fuel max_idle (b, c) = Some (r, (b', c')) ∧
    service_run config (b, c) (b', c') ∧
    (∀ s, r = Ok s → load_scan_cursor c' name = Ok (sm_end_cursor s)).
Proof.
  intros Hfuel. apply run_loop_ends. unfold ticks_left. change (uval (wrap 32 0)) with 0%Z.
  unfold work. case_decide; lia.
Qed.
End running.
