(* ===== verification/SyncLive.v ===== *)
(** The synchroniser reaches the tip of a chain whose scanner answers, and the
    evidence a chain backend gives to a rebuild. *)

From stdpp Require Import base list strings gmap.
From Stdlib Require Import ZArith Lia Strings.Byte.
From S2P Require Import Prelude.
From S2P Require Import Bytes.
From S2P Require Import Encoding.
From S2P Require Import Types.
From S2P Require Import IndexerTypes.
From S2P Require Import Indexer.
From S2P Require Import IndexerCodec.
From S2P Require Import Sled.
From S2P Require Import Rebuild.
From S2P Require Import Kaspa.
From S2P Require Import Sync.
From S2P Require Import SyncCorrect.

Open Scope list_scope.

(** * Reaching the tip *)

(** A store whose writes succeed. *)
Class ScanStoreTotal (C : Type) `{ScanCursorStore C, ObservedSpendStore C} := {
  store_cursor_total (s : C) n c k :
    validate_scan_cursor_name n = Ok k → ∃ s', store_scan_cursor s n c = Ok s';
  record_spend_total (s : C) r : ∃ s', record_observed_spend s r = Ok s'
}.

#[export] Instance in_memory_scan_total : ScanStoreTotal InMemoryIndexer.
Proof.
  split; [|by intros; eexists]. intros s n c k Hn. cbn. rewrite Hn. by eexists.
Qed.

#[export] Instance sled_scan_total {T} `{TreeLaws T} : ScanStoreTotal (SledIndexer T).
Proof.
  split.
  - intros s n c k Hn. cbn. rewrite Hn. cbn.
    destruct (tree_store_view (sl_scan_cursors s) k (encode_scan_cursor c)) as (t & -> & _).
    by eexists.
  - intros s r.
    destruct (tree_store_view (sl_observed_spends s) (encode_observed_spend_key (os_spent r))
      (encode_observed_spend_record r)) as (t & E & _).
    eexists. apply bind_ok. exists t. by split.
Qed.

(** The batch that reports blocks in full. *)
Definition full_batch (l : list ChainBlock) : ScanBatch := {|
  sb_removed_chain_block_hashes := [];
  sb_added_chain_block_hashes := cb_hash <$> l;
  sb_last_added_daa_score := cb_daa_score <$> last l;
  sb_observed_spends := usize_of (length (spends l));
  sb_observed_spend_records := spends l |}.

(** A scanner that answers every cursor on the chain with all blocks behind it. *)
Class CompleteFeed (B : Type) `{ScanBackend B} (chain : list ChainBlock) :=
  complete_law (b : B) pre post cursor m :
    chain = pre ++ post → cb_hash <$> last pre = Some (cu_block_hash cursor) →
    ∃ b', scan_from_cursor cursor m b = (Ok (full_batch post), b').

Section live.
Context {B C : Type} `{ScanBackend B} `{ScanStoreLaws C} `{!ScanStoreTotal C}.
Context (config : ScanServiceConfig) (chain : list ChainBlock) `{!CompleteFeed B chain}.
Abbreviation name := (cf_cursor_name config).
Context (key : list byte) (valid_name : validate_scan_cursor_name name = Ok key).
Context (blocks_fit : (Z.of_nat (length chain) < 2 ^ 64)%Z).
Context (spends_fit : (Z.of_nat (length (spends chain)) < 2 ^ 64)%Z).
Context (distinct_spends : NoDup (os_spent <$> spends chain)).

(** The store has a cursor of the service's chain behind [pre]. *)
Definition ready (c : C) (pre : list ChainBlock) : Prop :=
  ∃ cursor, load_scan_cursor c name = Ok (Some cursor) ∧
    cu_chain_id cursor = cf_chain_id config ∧ cb_hash <$> last pre = Some (cu_block_hash cursor).

Lemma record_all_total rs (b : B) c :
  ∃ c', record_all rs (b, c) = (Ok (), (b, c')) ∧ records_on c rs c'.
Proof.
  revert c. induction rs as [|r rs IH]; intros c; cbn [record_all].
  - exists c. split; [done|constructor].
  - destruct (record_spend_total c r) as [c1 E]. destruct (IH c1) as (c' & E' & Hr).
    exists c'. unfold mbind, stateful_bind, store_write. rewrite E. split; [done|].
    apply (records_on_trans c [r] c1); [|done]. apply (records_snoc c [] r c c1); [constructor|done].
Qed.

Lemma full_batch_checked pre post :
  chain = pre ++ post → check_batch (full_batch post) = Ok ().
Proof.
  intros E. unfold check_batch, full_batch.
  cbn [sb_removed_chain_block_hashes sb_observed_spends sb_observed_spend_records].
  rewrite uval_usize_of.
  - by rewrite !fail_if_false by (by intros []).
  - rewrite E, spends_app, length_app in spends_fit. lia.
Qed.

Lemma full_batch_end cursor pre post :
  cb_hash <$> last pre = Some (cu_block_hash cursor) →
  ∃ end_, batch_end_cursor cursor (full_batch post) = Ok end_ ∧
    cu_chain_id end_ = cu_chain_id cursor ∧
    cb_hash <$> last (pre ++ post) = Some (cu_block_hash end_).
Proof.
  intros Hh. unfold batch_end_cursor, full_batch. cbn. rewrite fmap_last, last_app.
  destruct (last post) as [x|]; cbn; [|by exists cursor]. by eexists.
Qed.

(** A tick from [pre] reports exactly the blocks behind it. *)
Lemma tick_to_tip b c pre post :
  chain = pre ++ post → ready c pre →
  ∃ t b' c' c1, tick config (b, c) = (Ok t, (b', c')) ∧ ready c' chain ∧
    records_on c (spends post) c1 ∧ (∀ o, observed_spend c' o = observed_spend c1 o) ∧
    tk_added_chain_blocks t = usize_of (length post) ∧
    tk_observed_spends t = usize_of (length (spends post)) ∧ tk_initialised_cursor t = false.
Proof.
  intros E (cur & Hl & Hid & Hh).
  destruct (complete_law b pre post cur (cf_min_confirmation_count config) E Hh) as (b1 & Hscan).
  destruct (full_batch_end cur pre post Hh) as (end_ & Hend & Hid' & Hh').
  destruct (record_all_total (spends post) b1 c) as (c1 & Hrec & Hon).
  pose proof (full_batch_checked pre post E) as Hcheck.
  unfold tick, mbind, stateful_bind, store_read, check, backend. rewrite Hl. cbn [map_err].
  rewrite fail_if_false by (by intros []). rewrite Hscan, Hcheck, Hend.
  cbn [sb_observed_spend_records full_batch]. rewrite Hrec, <-E in *. case_decide as Hmove.
  - unfold store_write. destruct (store_cursor_total c1 name end_ key valid_name) as (c2 & Hst).
    rewrite Hst. pose proof (store_cursor_law _ _ _ _ Hst) as (Hl2 & _ & Ho2).
    eexists _, b1, c2, c1. split; [done|]. split; [exists end_; by split_and!; [|congruence|]|].
    split_and!; try done. cbn. by rewrite length_fmap.
  - eexists _, b1, c1, c1. split; [done|]. split.
    + exists end_. rewrite (records_on_cursors _ _ _ name Hon). split_and!; [|congruence|done].
      destruct (decide (end_ = cur)) as [->|]; [done|by destruct Hmove].
    + split_and!; try done. cbn. by rewrite length_fmap.
Qed.

(** At the tip every tick is idle and changes no spend. *)
Lemma run_at_tip fuel (max_idle : u32) summary (idle : u32) b c :
  ready c chain → (idle < max_idle)%Z → (Z.to_nat max_idle - Z.to_nat idle <= fuel)%nat →
  ∃ s b' c', run_loop config fuel max_idle summary idle (b, c) = Some (Ok s, (b', c')) ∧
    ready c' chain ∧ (∀ o, observed_spend c' o = observed_spend c o) ∧
    sm_added_chain_blocks s = sm_added_chain_blocks summary ∧
    sm_observed_spends s = sm_observed_spends summary.
Proof.
  revert summary idle b c. induction fuel as [|fuel IH]; intros summary idle b c Hc Hlt Hfuel;
    pose proof (uint_range idle); [lia|].
  cbn [run_loop].
  destruct (tick_to_tip b c chain []) as (t & b1 & c1 & c2 & -> & Hc1 & Hon & Ho & Ha & Hs & Hi);
    [by rewrite app_nil_r|done|].
  assert (Hidle : is_idle t = true) by (unfold is_idle; by rewrite Ha, Hi).
  rewrite Hidle. pose proof (uint_range max_idle).
  assert (Hsame : ∀ o, observed_spend c1 o = observed_spend c o).
  { intros o. rewrite Ho. inversion Hon as [|l ? ? ? ? ? El]; [done|]. by destruct l. }
  assert (Hsum : sm_added_chain_blocks (summary_add summary t) = sm_added_chain_blocks summary ∧
                 sm_observed_spends (summary_add summary t) = sm_observed_spends summary).
  { cbn. rewrite Ha, Hs. unfold wrapping_add. change (uval (usize_of _)) with 0%Z.
    by rewrite !Z.add_0_r, !wrap_uval. }
  case_decide as Hdone; [by eexists _, b1, c1|].
  rewrite uval_saturating_add in Hdone. change (uval (wrap 32 1)) with 1%Z in Hdone.
  destruct (IH (summary_add summary t) (saturating_add idle (wrap 32 1)) b1 c1)
    as (s & b' & c' & -> & Hr & Ho' & Hs'); [done|rewrite uval_saturating_add;
    change (uval (wrap 32 1)) with 1%Z; lia..|].
  eexists s, b', c'. split; [done|]. split; [done|]. split; [intros o; by rewrite Ho'|].
  destruct Hs' as [-> ->]. done.
Qed.

(** C23: The synchroniser catches up: with a stored cursor behind some block of
    the service's chain, a scanner that reports all blocks behind the cursor
    and a store that does not fail, [run_until_idle] returns a summary within
    [k + 1] ticks; the cursor is then at the tip, every spend behind the start
    is recorded as the chain reported it, and the summary counts exactly those
    blocks and spends. *)
Theorem sync_catches_up (max_idle : u32) fuel b c pre post :
  chain = pre ++ post → ready c pre → (Z.to_nat max_idle + 1 <= fuel)%nat →
  ∃ s b' c', run_until_idle config fuel max_idle (b, c) = Some (Ok s, (b', c')) ∧
    ready c' chain ∧ all_recorded c' post ∧
    sm_added_chain_blocks s = usize_of (length post) ∧
    sm_observed_spends s = usize_of (length (spends post)).
Proof.
  intros E Hc Hfuel. unfold run_until_idle. destruct fuel as [|fuel]; [lia|]. cbn [run_loop].
  destruct (tick_to_tip b c pre post E Hc) as (t & b1 & c1 & c2 & -> & Hc1 & Hon & Ho & Ha & Hs & Hi).
  assert (Hrec : all_recorded c1 post).
  { eapply observed_same; [exact Ho|]. eapply (recorded_new chain distinct_spends pre post []);
      [by rewrite app_nil_r|done]. }
  assert (Hsum : sm_added_chain_blocks (summary_add summary_new t) = usize_of (length post) ∧
                 sm_observed_spends (summary_add summary_new t) = usize_of (length (spends post))).
  { cbn. rewrite Ha, Hs. unfold wrapping_add. change (uval (wrap 64 0)) with 0%Z.
    by rewrite !Z.add_0_l, !wrap_uval. }
  set (idle' := if is_idle t then _ else _). pose proof (uint_range max_idle).
  case_decide as Hdone; [by eexists _, b1, c1|].
  destruct (run_at_tip fuel max_idle (summary_add summary_new t) idle' b1 c1)
    as (s & b' & c' & -> & Hr & Ho' & Hs1 & Hs2); [done|lia|lia|].
  eexists s, b', c'. split; [done|]. split; [done|].
  split; [by eapply observed_same|]. destruct Hsum. by split; congruence.
Qed.
End live.

(** * Rebuild evidence *)

Section evidence.
Context {B : Type} `{KaspaChainBackend B}.

(** Fact: What a chain backend proves to a rebuild: over [KaspaRebuildSource], a
    planned spend has its evidence, with DAA score [daa], exactly when its
    shape fits the checkpoint and the backend's UTXO view records the spend by
    the expected transaction at that DAA score, confirmed deeply enough; a
    spend known only through [get_spending_transaction] carries no DAA score
    and is always refused. *)
Theorem rebuild_evidence_iff (backend : B) checkpoint spend daa :
  check_evidence {| ks_backend := backend |} checkpoint spend = Ok daa ↔
    validate_rebuild_spend_shape checkpoint spend = Ok () ∧
    ∃ utxo info depth,
      get_utxo backend (rs_spent_outpoint spend) = Ok (Some utxo) ∧
      ut_spending utxo = Some info ∧ sp_txid info = rs_expected_spending_txid spend ∧
      confirmation_depth backend (sp_txid info) = Ok depth ∧
      (rs_min_confirmations spend <= default 0 (uval <$> depth))%Z ∧
      sp_block_daa_score info = Some daa.
Proof.
  unfold check_evidence. rewrite bind_unit_ok. split.
  - intros [Hshape (found & He & E)%bind_ok]. split; [done|]. cbn in He.
    apply bind_ok in He as (utxo & Hu%map_err_ok & He).
    apply bind_ok in E as (ev & ->%ok_or_ok & E).
    apply bind_ok in E as (? & Htx%fail_if_neq_ok & E).
    apply bind_ok in E as (? & Hdepth%fail_if_ok & Hdaa%ok_or_ok).
    destruct (utxo ≫= ut_spending) as [info|] eqn:Hinfo.
    + apply bind_ok in He as (depth & Hd%map_err_ok & E). apply (inj Ok), (inj Some) in E as <-.
      destruct utxo as [utxo|]; [|done]. cbn in *. exists utxo, info, depth. split_and!; try done. lia.
    + apply bind_ok in He as ([tx|] & _ & He); [|done].
      apply bind_ok in He as (depth & _ & E). by apply (inj Ok), (inj Some) in E as <-.
  - intros (Hshape & utxo & info & depth & Hu & Hinfo & Htx & Hd & Hconf & Hdaa).
    split; [done|]. apply bind_ok.
    exists (Some {| ev_spending_txid := sp_txid info; ev_block_daa_score := sp_block_daa_score info;
                    ev_confirmation_depth := depth |}). split.
    + cbn. rewrite Hu. cbn. by rewrite Hinfo, Hd.
    + cbn. rewrite (fail_if_false (_ ≠ _)) by (intros Hn; by apply Hn). cbn.
      rewrite fail_if_false by lia.
      cbn. by rewrite Hdaa.
Qed.
End evidence.
