(* ===== verification/SyncSamples.v ===== *)
(** A scanner over a fixed list of blocks, which meets the promises of the
    synchroniser's theorems, and their witnesses. *)

From stdpp Require Import base list strings gmap.
From Stdlib Require Import ZArith Lia Strings.Byte.
From S2P Require Import Prelude.
From S2P Require Import Bytes.
From S2P Require Import Encoding.
From S2P Require Import Types.
From S2P Require Import IndexerTypes.
From S2P Require Import Indexer.
From S2P Require Import Sync.
From S2P Require Import SyncCorrect.
From S2P Require Import SyncLive.
From S2P Require Import Commit.
From S2P Require Import CoreSamples.

Open Scope list_scope.

(** * A scanner over a list of blocks *)

Section list_feed.
Context (chain : list ChainBlock).

Definition tip_cursor (id : KaspaChainId) : result SyncError ScanCursor :=
  match last chain with
  | Some x => Ok {| cu_chain_id := id; cu_block_hash := cb_hash x; cu_daa_score := cb_daa_score x |}
  | None => Err (SE_Chain "empty chain"%string)
  end.

(** The blocks behind the cursor's block. *)
Definition behind (cursor : ScanCursor) : option (list ChainBlock) :=
  (λ found, drop (S found.1) chain) <$> list_find (λ x, cb_hash x = cu_block_hash cursor) chain.

Definition list_feed : ScanBackend unit := {|
  current_scan_cursor id := λ b, (tip_cursor id, b);
  scan_from_cursor cursor _ := λ b,
    (match behind cursor with
     | Some l => Ok (full_batch l)
     | None => Err (SE_Chain "unknown block"%string)
     end, b)
|}.

Lemma behind_split cursor l :
  behind cursor = Some l →
  ∃ pre, chain = pre ++ l ∧ cb_hash <$> last pre = Some (cu_block_hash cursor).
Proof.
  unfold behind. intros ([i x] & Hf & ->)%fmap_Some. apply list_find_Some in Hf as (Hi & Hx & _).
  exists (take (S i) chain). split; [by rewrite take_drop|].
  cbn [fst]. rewrite (take_S_r _ _ x) by done. by rewrite last_snoc, <-Hx.
Qed.

Lemma list_feed_complete :
  NoDup (cb_hash <$> chain) → @CompleteFeed unit list_feed chain.
Proof.
  intros Hd b pre post cursor m E Hh. exists b. cbn.
  destruct (behind cursor) as [l|] eqn:Hb.
  - do 3 f_equal. apply behind_split in Hb as (pre' & E' & Hh').
    pose proof (prefix_by_hash chain Hd _ _ _ _ _ E E' Hh Hh') as <-.
    rewrite E in E'. by apply app_inv_head in E'.
  - exfalso. unfold behind in Hb. apply fmap_None, list_find_None in Hb.
    destruct (last pre) as [x|] eqn:Hl; [|done]. cbn in Hh. apply (inj Some) in Hh.
    rewrite list.Forall_forall in Hb. apply (Hb x); [|done]. rewrite E.
    apply elem_of_app. left. by apply last_Some_elem_of.
Qed.

Lemma list_feed_chain : @ChainFeed unit list_feed chain.
Proof.
  split.
  - cbn. intros b cursor m batch b' E _. destruct (behind cursor) as [l|] eqn:Hb; [|done].
    apply (inj2 pair) in E as [E <-]. apply (inj Ok) in E as <-.
    apply behind_split in Hb as (pre & E & Hh). exists pre, l, []. by rewrite app_nil_r.
  - cbn. intros b id cursor b' E. apply (inj2 pair) in E as [E <-]. unfold tip_cursor in E.
    destruct (last chain) as [x|] eqn:Hl; [|done]. apply (inj Ok) in E as <-.
    exists chain, []. by rewrite app_nil_r, Hl.
Qed.

Definition blocks_behind (found : option ScanCursor) : nat :=
  match found with
  | Some cursor => match behind cursor with Some l => length l | None => 0 end
  | None => length chain
  end.

(** Nothing is left behind the last block. *)
Lemma behind_tip cursor :
  NoDup (cb_hash <$> chain) → cb_hash <$> last chain = Some (cu_block_hash cursor) →
  blocks_behind (Some cursor) = 0%nat.
Proof.
  intros Hd Hh. cbn. destruct (behind cursor) as [l|] eqn:Hb; [|done].
  apply behind_split in Hb as (pre & E & Hh').
  assert (chain = pre) as Ep
    by (eapply (prefix_by_hash chain Hd chain [] pre l); [by rewrite app_nil_r|done..]).
  rewrite <-Ep in E. apply (f_equal length) in E. rewrite length_app in E. lia.
Qed.

Lemma list_feed_progress : NoDup (cb_hash <$> chain) → @Progress unit list_feed.
Proof.
  intros Hd. refine {| remaining := λ _, blocks_behind |}.
  - cbn [scan_from_cursor list_feed]. intros b cursor m batch b' end_ E He.
    destruct (behind cursor) as [l|] eqn:Hb; [|done].
    apply (inj2 pair) in E as [E <-]. apply (inj Ok) in E as <-.
    pose proof (behind_split _ _ Hb) as (pre & E & Hh).
    destruct (full_batch_end cursor pre l Hh) as (e & He' & _ & Hh').
    rewrite He in He'. apply (inj Ok) in He' as <-. rewrite <-E in Hh'.
    rewrite (behind_tip end_ Hd Hh'). destruct l; [left; cbn; split; [done|lia]|right].
    cbn. rewrite Hb. cbn. lia.
  - cbn. intros b id cursor b' E. apply (inj2 pair) in E as [E <-]. unfold tip_cursor in E.
    destruct (last chain) as [x|] eqn:Hl; [|done]. apply (inj Ok) in E as <-.
    change (match behind ?c with Some l => length l | None => 0%nat end) with (blocks_behind (Some c)).
    rewrite behind_tip; [lia|done|by rewrite Hl].
Defined.
End list_feed.

(** * Witnesses *)

Definition sample_spend (k : Z) : ObservedSpendRecord := {|
  os_spent := {| transaction_id := b32 k; index := n32 0 |}; os_spending_txid := b32 (k + 1);
  os_input_index := n32 0; os_block_daa_score := Some (n64 k) |}.

Definition sample_block (k : Z) : ChainBlock := {|
  cb_hash := b32 k; cb_daa_score := n64 k; cb_spends := [sample_spend k] |}.

Definition sample_blocks : list ChainBlock := [sample_block 1; sample_block 2; sample_block 3].

#[local] Instance sample_feed : ScanBackend unit := list_feed sample_blocks.
#[local] Instance sample_chain_feed : ChainFeed unit sample_blocks := list_feed_chain sample_blocks.

Definition sample_config : ScanServiceConfig := config_new KaspaLocalToccata.

Definition sample_cursor (k : Z) : ScanCursor := {|
  cu_chain_id := KaspaLocalToccata; cu_block_hash := b32 k; cu_daa_score := n64 k |}.

Definition sample_store : InMemoryIndexer :=
  im_set_cursors in_memory_new {[ DEFAULT_SCAN_CURSOR := sample_cursor 1 ]}.

Lemma sample_blocks_distinct : NoDup (cb_hash <$> sample_blocks).
Proof. apply (bool_decide_unpack _). by vm_compute. Qed.
Lemma sample_spends_distinct : NoDup (os_spent <$> spends sample_blocks).
Proof. apply (bool_decide_unpack _). by vm_compute. Qed.

#[local] Instance sample_complete : CompleteFeed unit sample_blocks :=
  list_feed_complete sample_blocks sample_blocks_distinct.
#[local] Instance sample_progress : Progress unit :=
  list_feed_progress sample_blocks sample_blocks_distinct.

(** The service over an in-memory store: two blocks in the first tick, then an
    idle one. *)
Example run_counts :
  (λ r, (λ s, (sm_ticks s, sm_added_chain_blocks s, sm_end_cursor s)) <$> to_option r.1)
    <$> run_until_idle sample_config 5 (n32 1) (tt, sample_store) =
  Some (Some (n64 2, n64 2, Some (sample_cursor 3))).
Proof. by vm_compute. Qed.

Lemma sample_ready : ready sample_config sample_store [sample_block 1].
Proof. exists (sample_cursor 1). split_and!; by vm_compute. Qed.

Lemma sample_at : cursor_at sample_config sample_blocks sample_store [sample_block 1].
Proof.
  split; [by exists [sample_block 2; sample_block 3]|].
  exists (sample_cursor 1). split; by vm_compute.
Qed.

Lemma scan_never_skips_a_spend_witness :
  ∃ seg, all_recorded (tick sample_config (tt, sample_store)).2.2 seg.
Proof.
  destruct (tick sample_config (tt, sample_store)) as [res [b c]] eqn:E.
  destruct (scan_never_skips_a_spend sample_config sample_blocks sample_blocks_distinct
    sample_spends_distinct tt sample_store b c [sample_block 1] sample_at) as (seg & _ & Hs).
  - eapply run_tick; [apply run_start|exact E].
  - exists seg. exact Hs.
Defined.

Lemma run_until_idle_terminates_witness :
  ∃ r w, run_until_idle sample_config 20 (n32 2) (tt, sample_store) = Some (r, w).
Proof.
  destruct (run_until_idle_terminates sample_config (n32 2) 20 tt sample_store) as (r & b & c & E & _).
  - apply Nat.leb_le. by vm_compute.
  - exists r, (b, c). exact E.
Defined.

Lemma sync_catches_up_witness :
  ∃ s b c, run_until_idle sample_config 5 (n32 1) (tt, sample_store) = Some (Ok s, (b, c)) ∧
    all_recorded c [sample_block 2; sample_block 3].
Proof.
  destruct (sync_catches_up sample_config sample_blocks (as_bytes DEFAULT_SCAN_CURSOR)
    ltac:(by vm_compute) ltac:(by vm_compute) sample_spends_distinct (n32 1) 5 tt sample_store
    [sample_block 1] [sample_block 2; sample_block 3]) as (s & b & c & E & _ & Hs & _);
    [done|exact sample_ready|apply Nat.leb_le; by vm_compute|].
  exists s, b, c. split; [exact E|exact Hs].
Defined.
