(* ===== verification/Resolver.v ===== *)
(** The resolver (src/crates/rgk-resolver/src/lib.rs): the typed state of a
    covenant, lane or transition, from the indexer's record and the chain's
    evidence, written over the [Indexer] and [KaspaChainBackend] traits. *)

From stdpp Require Import base list strings pretty gmap.
From Stdlib Require Import ZArith Lia Strings.Byte.
From S2P Require Import Prelude.
From S2P Require Import Bytes.
From S2P Require Import Encoding.
From S2P Require Import Types.
From S2P Require Import Commit.
From S2P Require Import Hex.
From S2P Require Import Receipt.
From S2P Require Import AssetTypes.
From S2P Require Import Lane.
From S2P Require Import IndexerTypes.
From S2P Require Import Indexer.
From S2P Require Import Kaspa.

Open Scope string_scope.

Inductive ResolverState : Type :=
| RS_Open (covenant : KaspaCovenantId) (outpoint : KaspaOutpoint) (state : RgkStateCommitment)
| RS_NativeTransitionedValid (covenant : KaspaCovenantId) (spent_outpoint new_outpoint : KaspaOutpoint)
    (receipt_id : Bytes32) (new_state : RgkStateCommitment)
    (allocation_audit_certificate : option AllocationAuditCertificateRecord)
    (confirmation_depth : u64)
| RS_NativeTransitionedInvalid (covenant : KaspaCovenantId) (reason : ReceiptError)
| RS_Unconfirmed (covenant : KaspaCovenantId) (spending_txid : Bytes32)
| RS_ReorgRisk (covenant : KaspaCovenantId) (daa_score : u64)
| RS_CompetingBranch (covenant : KaspaCovenantId) (spent_outpoint : KaspaOutpoint)
    (indexed_spending_txid observed_spending_txid : Bytes32) (observed_daa_score : option u64)
| RS_PolicyMigrationRequired (covenant : KaspaCovenantId)
    (current_policy requested_policy : ReceiptPolicy)
| RS_ReplayRejected (covenant : KaspaCovenantId) (receipt_id : Bytes32)
| RS_Unknown (covenant : KaspaCovenantId)
| RS_NodeDown (covenant : KaspaCovenantId) (reason : string).

Definition state_covenant (s : ResolverState) : KaspaCovenantId :=
  match s with
  | RS_Open covenant _ _ | RS_NativeTransitionedValid covenant _ _ _ _ _ _
  | RS_NativeTransitionedInvalid covenant _ | RS_Unconfirmed covenant _
  | RS_ReorgRisk covenant _ | RS_CompetingBranch covenant _ _ _ _
  | RS_PolicyMigrationRequired covenant _ _ | RS_ReplayRejected covenant _
  | RS_Unknown covenant | RS_NodeDown covenant _ => covenant
  end.

Inductive LaneResolverState : Type :=
| LR_Resolved (lane : IndexedLane) (state : ResolverState)
| LR_UnknownLane (lane_id : Bytes32)
| LR_UnknownScanTag (scan_tag : Bytes32).

Inductive TransitionResolverState : Type :=
| TR_Resolved (transition_digest : Bytes32) (covenant : KaspaCovenantId) (receipt_id : Bytes32)
    (state : ResolverState)
| TR_UnknownTransition (transition_digest : Bytes32).

Record RgkResolver (B I : Type) := {
  rv_backend : B;
  rv_indexer : I;
  rv_verifier_chain : KaspaChainId;
  rv_reorg_safety_depth : u64
}.
Arguments rv_backend {B I} r.
Arguments rv_indexer {B I} r.
Arguments rv_verifier_chain {B I} r.
Arguments rv_reorg_safety_depth {B I} r.

Definition resolver_new {B I} (backend : B) (indexer : I) (verifier_chain : KaspaChainId)
  : RgkResolver B I :=
  {| rv_backend := backend; rv_indexer := indexer; rv_verifier_chain := verifier_chain;
     rv_reorg_safety_depth := wrap 64 10 |}.

(** [return s] inside a block of [resolve_by_covenant]: an [Err] carries the
    state the whole function returns. *)
Abbreviation early := (result ResolverState).

Definition returned (m : early ResolverState) : ResolverState :=
  match m with Ok s | Err s => s end.

(** * The checks of an indexed transition *)

Definition validate_indexed_continuation (spend : SpendEntry) (observed_spending_txid : Bytes32)
  : result ReceiptError unit :=
  proof ← ok_or (se_continuation spend)
            (RE_Structural "missing continuation proof in spend history");
  _ ← fail_if (co_commitment proof = zero32)
        (RE_Structural "missing phase-1 continuation commitment");
  _ ← fail_if (co_shape_root proof = zero32) (RE_Structural "missing continuation shape root");
  _ ← fail_if (co_transition_digest proof = zero32)
        (RE_Structural "missing phase-2 transition digest");
  fail_if (transaction_id (se_created spend) ≠ observed_spending_txid)
    (RE_Structural
       ("continuation outpoint txid does not match observed spend txid: created 0x"
        ++ to_hex (transaction_id (se_created spend)) ++ ", observed 0x"
        ++ to_hex observed_spending_txid)).

Section checks.
Context `{Sha256}.

Definition validate_indexed_policy_migration (spend : SpendEntry)
    (latest_state : RgkStateCommitment) : result ReceiptError unit :=
  proof ← ok_or (se_policy_migration spend)
            (RE_Structural "missing policy migration proof in spend history");
  continuation ← ok_or (se_continuation spend)
                   (RE_Structural "policy migration proof requires continuation proof");
  _ ← fail_if (pm_previous_policy proof ≠ se_previous_receipt_policy spend)
        (RE_Structural "policy migration previous policy does not match spend history");
  _ ← fail_if (pm_new_policy proof ≠ se_new_receipt_policy spend)
        (RE_Structural "policy migration new policy does not match spend history");
  _ ← fail_if (pm_new_policy proof ≠ sc_receipt_policy latest_state)
        (RE_Structural "policy migration new policy does not match latest state");
  _ ← fail_if (pm_previous_state_digest proof ≠ se_new_state_digest spend)
        (RE_Structural "policy migration previous state digest does not match spend history");
  _ ← fail_if (pm_new_state_digest proof ≠ se_resulting_state_digest spend
               ∨ pm_new_state_digest proof ≠ sc_state_digest latest_state)
        (RE_Structural "policy migration new state digest does not match latest state");
  _ ← fail_if (pm_transition_digest proof ≠ co_transition_digest continuation)
        (RE_Structural "policy migration transition digest does not match continuation proof");
  _ ← fail_if (pm_authorization_commitment proof = zero32)
        (RE_Structural "policy migration authorisation commitment missing");
  let expected := policy_migration_commitment (pm_previous_policy proof) (pm_new_policy proof)
    (pm_previous_state_digest proof) (pm_new_state_digest proof) (pm_transition_digest proof)
    (pm_authorization_commitment proof) in
  fail_if (pm_migration_commitment proof ≠ expected)
    (RE_Structural "policy migration commitment does not match proof fields").
End checks.

Arguments validate_indexed_continuation spend : simpl never.
Arguments validate_indexed_policy_migration {_} spend : simpl never.

Section resolver.
Context {B I : Type} `{KaspaChainBackend B, Indexer I, Sha256} (self : RgkResolver B I).

(** "Backend sanity: must be the configured chain." *)
Definition check_network (covenant : KaspaCovenantId) : early unit :=
  match network_id (rv_backend self) with
  | Ok net =>
      fail_if (net ≠ rv_verifier_chain self)
        (RS_NodeDown covenant
           ("backend on " ++ debug_chain net ++ ", resolver expects "
            ++ debug_chain (rv_verifier_chain self)))
  | Err e => Err (RS_NodeDown covenant (network_error_display e))
  end.

(** [confirmation_depth(txid).ok().flatten().unwrap_or(0)] *)
Definition observed_depth (txid : KaspaTxId) : u64 :=
  default (wrap 64 0) (to_option (confirmation_depth (rv_backend self) txid) ≫= id).

(** The depth of a spend, when it is past the safety threshold. *)
Definition settled_depth (covenant : KaspaCovenantId) (sp : SpendingInfo) : early u64 :=
  let depth := observed_depth (sp_txid sp) in
  _ ← fail_if (uval depth = 0%Z) (RS_Unconfirmed covenant (sp_txid sp));
  _ ← fail_if (depth < rv_reorg_safety_depth self)%Z
        (RS_ReorgRisk covenant (default (wrap 64 0) (sp_block_daa_score sp)));
  Ok depth.

(** The outpoint the latest indexed transition consumed, as the chain shows it. *)
Definition spent_utxo (covenant : KaspaCovenantId) (last_spend : SpendEntry)
  : early (option KaspaUtxo) :=
  match get_utxo (rv_backend self) (se_spent last_spend) with
  | Ok u => Ok u
  | Err e =>
      match classify e with
      | RC_NodeDown | RC_RpcFailure => Err (RS_NodeDown covenant (network_error_display e))
      | RC_Pruned => Err (RS_Unknown covenant)
      | _ => Ok None
      end
  end.

(** The receipt-policy rules of an indexed transition. *)
Definition check_policy (covenant : KaspaCovenantId) (last_spend : SpendEntry)
    (latest : RgkStateCommitment) : early unit :=
  let previous := se_previous_receipt_policy last_spend in
  let requested := sc_receipt_policy latest in
  _ ← (if decide (previous ≠ requested) then
         _ ← fail_if (se_policy_migration last_spend = None)
               (RS_PolicyMigrationRequired covenant previous requested);
         map_err (RS_NativeTransitionedInvalid covenant)
           (validate_indexed_policy_migration last_spend latest)
       else Ok ());
  fail_if (previous = requested ∧ se_policy_migration last_spend ≠ None)
    (RS_NativeTransitionedInvalid covenant
       (RE_Structural "policy migration proof supplied for unchanged policy")).

(** Step 2: an indexed transition whose consumed outpoint the chain shows
    spent. [Ok ()] falls through to step 3. *)
Definition resolve_indexed_spend (covenant : KaspaCovenantId) (indexed : IndexedCovenant)
  : early unit :=
  match last (ic_spend_history indexed) with
  | None => Ok ()
  | Some last_spend =>
      u ← spent_utxo covenant last_spend;
      match u ≫= ut_spending with
      | None => Ok ()
      | Some sp =>
          depth ← settled_depth covenant sp;
          _ ← fail_if (transaction_id (se_created last_spend) ≠ sp_txid sp)
                (RS_CompetingBranch covenant (se_spent last_spend)
                   (transaction_id (se_created last_spend)) (sp_txid sp)
                   (sp_block_daa_score sp));
          _ ← map_err (RS_NativeTransitionedInvalid covenant)
                (validate_indexed_continuation last_spend (sp_txid sp));
          _ ← check_policy covenant last_spend (ic_latest_state indexed);
          Err (RS_NativeTransitionedValid covenant (se_spent last_spend)
                 (se_created last_spend) (se_receipt_id last_spend) (ic_latest_state indexed)
                 (se_allocation_audit_certificate last_spend) depth)
      end
  end.

(** Step 3: the currently-open outpoint. *)
Definition open_utxo (covenant : KaspaCovenantId) (outpoint : KaspaOutpoint)
  : early KaspaUtxo :=
  match get_utxo (rv_backend self) outpoint with
  | Ok (Some u) => Ok u
  | Ok None => Err (RS_Unknown covenant)
  | Err e =>
      match classify e with
      | RC_NodeDown | RC_RpcFailure => Err (RS_NodeDown covenant (network_error_display e))
      | _ => Err (RS_Unknown covenant)
      end
  end.

(** Step 4: the open outpoint is spent. The indexer is read again. *)
Definition resolve_open_spent (covenant : KaspaCovenantId) (outpoint : KaspaOutpoint)
    (sp : SpendingInfo) : early ResolverState :=
  depth ← settled_depth covenant sp;
  latest ← ok_or (latest_state (rv_indexer self) covenant) (RS_Unknown covenant);
  let last_spend :=
    lookup_covenant (rv_indexer self) covenant ≫= λ e, last (ic_spend_history e) in
  receipt_id ← ok_or (se_receipt_id <$> last_spend)
    (RS_NativeTransitionedInvalid covenant (RE_Structural "no receipt in spend history"));
  new_out ← ok_or (open_outpoint (rv_indexer self) covenant)
    (RS_NativeTransitionedInvalid covenant (RE_Structural "no new outpoint after spend"));
  Ok (RS_NativeTransitionedValid covenant outpoint new_out receipt_id latest
        (last_spend ≫= se_allocation_audit_certificate) depth).

Definition resolve_by_covenant (covenant : KaspaCovenantId) : ResolverState :=
  returned (
    _ ← check_network covenant;
    indexed ← ok_or (lookup_covenant (rv_indexer self) covenant) (RS_Unknown covenant);
    open_out ← ok_or (ic_open_outpoint indexed) (RS_Unknown covenant);
    _ ← resolve_indexed_spend covenant indexed;
    utxo ← open_utxo covenant open_out;
    match ut_spending utxo with
    | Some sp => resolve_open_spent covenant open_out sp
    | None => Ok (RS_Open covenant open_out (ic_latest_state indexed))
    end).

(** [for x in l { if p(x) { return f(x) } }] *)
Definition resolve_by_asset (asset_id : RgkAssetId) : ResolverState :=
  match list_find (λ covenant, sc_asset_id <$> latest_state (rv_indexer self) covenant
                               = Some asset_id)
          (list_covenants (rv_indexer self)) with
  | Some (_, covenant) => resolve_by_covenant covenant
  | None => RS_Unknown zero32
  end.

Definition resolve_indexed_lane (lane : IndexedLane) : LaneResolverState :=
  LR_Resolved lane (resolve_by_covenant (il_covenant_id lane)).

Definition resolve_lane (lane_id : Bytes32) : LaneResolverState :=
  match lane_by_id (rv_indexer self) lane_id with
  | Some lane => resolve_indexed_lane lane
  | None => LR_UnknownLane lane_id
  end.

Definition resolve_by_view_key (view_key : Bytes32) (asset_id : RgkAssetId) (epoch : u64)
  : LaneResolverState :=
  let lane_id := derive_blinded_lane_id view_key asset_id epoch in
  match lane_by_id (rv_indexer self) lane_id with
  | None => LR_UnknownLane lane_id
  | Some lane =>
      if decide (il_asset_id lane ≠ asset_id ∨ il_epoch lane ≠ epoch) then LR_UnknownLane lane_id
      else
        let expected_scan_tag := derive_scan_tag view_key lane_id epoch in
        match il_scan_tag lane with
        | Some tag =>
            if decide (tag ≠ expected_scan_tag) then LR_UnknownLane lane_id
            else resolve_indexed_lane lane
        | None => resolve_indexed_lane lane
        end
  end.

Definition resolve_by_scan_tag (scan_tag : RgkScanTag) : LaneResolverState :=
  match lane_by_scan_tag (rv_indexer self) scan_tag with
  | Some lane => resolve_indexed_lane lane
  | None => LR_UnknownScanTag scan_tag
  end.

Definition resolve_public_lineage (asset_id : RgkAssetId) : list LaneResolverState :=
  resolve_indexed_lane <$> public_lanes (rv_indexer self) asset_id.

(** The first spend of a history whose continuation proves the transition. *)
Definition find_transition (transition_digest : Bytes32) (entry : IndexedCovenant)
  : option SpendEntry :=
  snd <$> list_find (λ spend, co_transition_digest <$> se_continuation spend
                              = Some transition_digest) (ic_spend_history entry).

Fixpoint resolve_transition_in (transition_digest : Bytes32) (covenants : list KaspaCovenantId)
  : TransitionResolverState :=
  match covenants with
  | [] => TR_UnknownTransition transition_digest
  | covenant :: covenants' =>
      match lookup_covenant (rv_indexer self) covenant ≫= find_transition transition_digest with
      | Some spend =>
          TR_Resolved transition_digest covenant (se_receipt_id spend)
            (resolve_by_covenant covenant)
      | None => resolve_transition_in transition_digest covenants'
      end
  end.

Definition resolve_transition (transition_digest : Bytes32) : TransitionResolverState :=
  resolve_transition_in transition_digest (list_covenants (rv_indexer self)).

Definition verify_receipt_against_indexer (covenant : KaspaCovenantId)
    (receipt_bytes : list byte) : result ReceiptError RgkStateCommitment :=
  expected_old ← ok_or (latest_state (rv_indexer self) covenant)
                   (RE_Structural "covenant not indexed");
  receipt ← map_err RE_DecodeFailure (decode_canonical receipt_bytes);
  let receipt_id := receipt_commitment receipt in
  _ ← fail_if (has_replay (rv_indexer self) covenant receipt_id = true) (RE_Replay receipt_id);
  _ ← verify_local receipt_bytes covenant expected_old (rv_verifier_chain self);
  Ok (rc_new_state receipt).
End resolver.
