(* ===== verification/ResolverCorrect.v ===== *)
(** Correctness of the resolver: what the state it calls a valid transition
    asserts, what it answers after a spend was indexed, and what its receipt
    check, transition and lane queries promise. *)

From stdpp Require Import base list strings gmap.
From Stdlib Require Import ZArith Lia Strings.Byte.
From S2P Require Import Prelude.
From S2P Require Import Bytes.
From S2P Require Import Encoding.
From S2P Require Import Types.
From S2P Require Import Commit.
From S2P Require Import Hex.
From S2P Require Import Receipt.
From S2P Require Import AssetTypes.
From S2P Require Import Lane.
From S2P Require Import CoreSamples.
From S2P Require Import IndexerTypes.
From S2P Require Import Indexer.
From S2P Require Import IndexerCorrect.
From S2P Require Import Kaspa.
From S2P Require Import Resolver.

Open Scope list_scope.

Definition is_valid (s : ResolverState) : bool :=
  match s with RS_NativeTransitionedValid _ _ _ _ _ _ _ => true | _ => false end.

Lemma ok_or_err {E A} (o : option A) (e e' : E) : ok_or o e = Err e' → e' = e.
Proof. destruct o; [done|]. by intros [= ->]. Qed.

(** [early_exit E]: the state an early return of a block gives is not a valid
    transition. *)
Ltac early_exit :=
  repeat match goal with
  | Hx : (_ ≫= _) = Err _ |- _ => apply bind_err in Hx as [Hx|(?&?&Hx)]
  | Hx : fail_if _ _ = Err _ |- _ => apply fail_if_err in Hx as [_ ->]
  | Hx : ok_or _ _ = Err _ |- _ => apply ok_or_err in Hx as ->
  end; try done.

Section facts.
Context {B I : Type} `{KaspaChainBackend B, Indexer I, Sha256} (self : RgkResolver B I).

(** The chain shows the outpoint spent. *)
Definition spent_on_chain (o : KaspaOutpoint) (sp : SpendingInfo) : Prop :=
  ∃ u, get_utxo (rv_backend self) o = Ok (Some u) ∧ ut_spending u = Some sp.

(** A spend is confirmed past the safety threshold. *)
Definition settled (sp : SpendingInfo) (d : u64) : Prop :=
  confirmation_depth (rv_backend self) (sp_txid sp) = Ok (Some d) ∧
  uval d ≠ 0%Z ∧ (rv_reorg_safety_depth self <= d)%Z.

Lemma observed_depth_nonzero txid :
  uval (observed_depth self txid) ≠ 0%Z →
  confirmation_depth (rv_backend self) txid = Ok (Some (observed_depth self txid)).
Proof.
  unfold observed_depth. by destruct (confirmation_depth _ _) as [[d|]|e].
Qed.

Lemma settled_depth_ok c sp d : settled_depth self c sp = Ok d ↔ settled sp d.
Proof.
  unfold settled_depth, settled. split.
  - intros E. inv_ok. split; [by apply observed_depth_nonzero|]. split; [done|lia].
  - intros (Hc & Hd & Hs). unfold observed_depth. rewrite Hc. cbn [to_option mbind option_bind id default].
    by by_guards.
Qed.

(** The receipt policy is unchanged, or its change is proven. *)
Definition policy_settled (s : SpendEntry) (st : RgkStateCommitment) : Prop :=
  (se_previous_receipt_policy s = sc_receipt_policy st ∧ se_policy_migration s = None) ∨
  (se_previous_receipt_policy s ≠ sc_receipt_policy st ∧
   ∃ m p, se_policy_migration s = Some m ∧ se_continuation s = Some p ∧
     sc_receipt_policy st = se_new_receipt_policy s ∧
     sc_state_digest st = se_resulting_state_digest s ∧
     pm_authorization_commitment m ≠ zero32 ∧
     m = build_policy_migration_proof {|
       pmi_previous_policy := se_previous_receipt_policy s;
       pmi_new_policy := se_new_receipt_policy s;
       pmi_previous_state_digest := se_new_state_digest s;
       pmi_new_state_digest := se_resulting_state_digest s;
       pmi_transition_digest := co_transition_digest p;
       pmi_authorization_commitment := pm_authorization_commitment m |}).

Lemma indexed_migration_ok s st :
  validate_indexed_policy_migration s st = Ok () ↔
   ∃ m p, se_policy_migration s = Some m ∧ se_continuation s = Some p ∧
     sc_receipt_policy st = se_new_receipt_policy s ∧
     sc_state_digest st = se_resulting_state_digest s ∧
     pm_authorization_commitment m ≠ zero32 ∧
     m = build_policy_migration_proof {|
       pmi_previous_policy := se_previous_receipt_policy s;
       pmi_new_policy := se_new_receipt_policy s;
       pmi_previous_state_digest := se_new_state_digest s;
       pmi_new_state_digest := se_resulting_state_digest s;
       pmi_transition_digest := co_transition_digest p;
       pmi_authorization_commitment := pm_authorization_commitment m |}.
Proof.
  unfold validate_indexed_policy_migration. split.
  - intros E. inv_ok. exists x, x0. destruct x. cbn in *. destruct_and?. subst. naive_solver.
  - intros (m & p & -> & -> & Hp & Hd & Ha & Hm). rewrite Hm in Ha |- *. cbn in *.
    rewrite Hp, Hd. by by_guards.
Qed.

Lemma check_policy_ok c s st : check_policy c s st = Ok () ↔ policy_settled s st.
Proof.
  unfold check_policy, policy_settled. rewrite <-indexed_migration_ok.
  destruct (decide (se_previous_receipt_policy s = sc_receipt_policy st)) as [Hp|Hp].
  - rewrite decide_False by naive_solver. cbn [mbind result_bind].
    unfold fail_if. case_decide as Hc; split; [done| |intros _; left|done].
    + intros [[]|[]]; naive_solver.
    + split; [done|]. destruct (se_policy_migration s); [|done]. by destruct Hc.
  - rewrite decide_True by done. split.
    + intros E. right. split; [done|]. inv_ok.
      destruct (validate_indexed_policy_migration s st) as [[]|] eqn:E'; done.
    + intros [[]|[_ Hx]]; [done|]. rewrite Hx. cbn [map_err mbind result_bind].
      apply indexed_migration_ok in Hx as (m & ? & Hm & _). rewrite Hm. by by_guards.
Qed.

Lemma indexed_continuation_ok s txid :
  validate_indexed_continuation s txid = Ok () ↔
    transaction_id (se_created s) = txid ∧
    ∃ p, se_continuation s = Some p ∧ validate_continuation_proof p = Ok ().
Proof.
  unfold validate_indexed_continuation. split.
  - intros E. inv_ok. split; [done|]. exists x. by rewrite continuation_proof_ok.
  - intros (<- & p & -> & (?&?&?)%continuation_proof_ok). cbn [ok_or mbind result_bind].
    by by_guards.
Qed.

(** The latest indexed spend [s] is on the chain: its consumed outpoint is
    spent by the transaction that created the open one, settled, with a complete
    continuation proof and its policy in order. *)
Definition confirmed_transition (e : IndexedCovenant) (s : SpendEntry) (d : u64) : Prop :=
  last (ic_spend_history e) = Some s ∧
  (∃ sp, spent_on_chain (se_spent s) sp ∧ settled sp d ∧
         sp_txid sp = transaction_id (se_created s)) ∧
  (∃ p, se_continuation s = Some p ∧ validate_continuation_proof p = Ok ()) ∧
  policy_settled s (ic_latest_state e).

(** The chain does not show the latest indexed spend's consumed outpoint
    spent (there may be no indexed spend). *)
Definition transition_not_seen (c : KaspaCovenantId) (e : IndexedCovenant) : Prop :=
  ∀ s, last (ic_spend_history e) = Some s →
    ∃ u, spent_utxo self c s = Ok u ∧ u ≫= ut_spending = None.

Lemma indexed_spend_falls_through c e :
  resolve_indexed_spend self c e = Ok () ↔ transition_not_seen c e.
Proof.
  unfold resolve_indexed_spend, transition_not_seen.
  destruct (last (ic_spend_history e)) as [s|]; [|naive_solver]. split.
  - intros E s' [= <-]. apply bind_ok in E as (u & Hu & E). exists u. split; [done|].
    destruct (u ≫= ut_spending); [|done]. inv_ok.
  - intros Hs. destruct (Hs s eq_refl) as (u & -> & Hu). cbn [mbind result_bind].
    by rewrite Hu.
Qed.

Lemma settled_depth_err c sp s : settled_depth self c sp = Err s → is_valid s = false.
Proof. unfold settled_depth. intros E. early_exit. Qed.

Lemma check_policy_err c sp st s : check_policy c sp st = Err s → is_valid s = false.
Proof.
  unfold check_policy. intros E. early_exit. case_decide; [|done]. early_exit.
  destruct (validate_indexed_policy_migration sp st); [done|]. by injection E as <-.
Qed.

Lemma spent_utxo_err c sp s : spent_utxo self c sp = Err s → is_valid s = false.
Proof.
  unfold spent_utxo. destruct (get_utxo _ _) as [|e]; [done|].
  destruct (classify e); by intros [= <-].
Qed.

Lemma open_utxo_err c o s : open_utxo self c o = Err s → is_valid s = false.
Proof.
  unfold open_utxo. destruct (get_utxo _ _) as [[|]|e]; [done|by intros [= <-]|].
  destruct (classify e); by intros [= <-].
Qed.

Lemma open_utxo_ok c o u :
  open_utxo self c o = Ok u ↔ get_utxo (rv_backend self) o = Ok (Some u).
Proof.
  unfold open_utxo. destruct (get_utxo _ _) as [[|]|e]; [naive_solver..|].
  destruct (classify e); naive_solver.
Qed.

Lemma check_network_ok c : check_network self c = Ok () ↔
  network_id (rv_backend self) = Ok (rv_verifier_chain self).
Proof.
  unfold check_network. destruct (network_id _) as [net|e]; [|done]. split.
  - intros E. inv_ok. congruence.
  - intros [= ->]. by by_guards.
Qed.

Lemma check_network_err c s : check_network self c = Err s → is_valid s = false.
Proof.
  unfold check_network. destruct (network_id _); [intros E; early_exit|by intros [= <-]].
Qed.

Lemma indexed_spend_valid c e v :
  is_valid v = true →
  resolve_indexed_spend self c e = Err v ↔
    ∃ s d, confirmed_transition e s d ∧
      v = RS_NativeTransitionedValid c (se_spent s) (se_created s) (se_receipt_id s)
            (ic_latest_state e) (se_allocation_audit_certificate s) d.
Proof.
  intros Hv. unfold resolve_indexed_spend, confirmed_transition. split.
  - destruct (last (ic_spend_history e)) as [s|]; [|done]. intros E.
    apply bind_err in E as [E|(u & Hu & E)]; [by apply spent_utxo_err in E; congruence|].
    destruct (u ≫= ut_spending) as [sp|] eqn:Hsp; [|done].
    apply bind_err in E as [E|(d & Hd & E)]; [by apply settled_depth_err in E; congruence|].
    apply bind_err in E as [E|([] & Ht & E)]; [by apply fail_if_err in E as [_ ->]|].
    apply bind_err in E as [E|([] & Hc & E)].
    { destruct (validate_indexed_continuation s (sp_txid sp)); [done|]. by injection E as <-. }
    apply bind_err in E as [E|([] & Hp & E)]; [by apply check_policy_err in E; congruence|].
    injection E as <-. exists s, d. split; [|done].
    apply check_policy_ok in Hp. apply settled_depth_ok in Hd. split_and!; try done.
    + exists sp. split_and!; [|done|].
      * unfold spent_on_chain. unfold spent_utxo in Hu.
        destruct (get_utxo _ _) as [[u'|]|er]; cbn in *.
        -- injection Hu as <-. by exists u'.
        -- by injection Hu as <-.
        -- destruct (classify er); try done; by injection Hu as <-.
      * inv_ok. congruence.
    + destruct (validate_indexed_continuation s (sp_txid sp)) as [[]|] eqn:Hvc; [|done].
      by apply indexed_continuation_ok in Hvc as [_ ?].
  - intros (s & d & (-> & (sp & (u & Hg & Hsp) & Hd & Ht) & Hc & Hp) & ->).
    unfold spent_utxo. rewrite Hg. cbn [mbind result_bind option_bind]. rewrite Hsp.
    rewrite (proj2 (settled_depth_ok c sp d) Hd). cbn [mbind result_bind].
    pass_guard. cbn [mbind result_bind].
    rewrite (proj2 (indexed_continuation_ok s (sp_txid sp))) by done.
    cbn [map_err mbind result_bind]. by rewrite (proj2 (check_policy_ok c s _) Hp).
Qed.

(** What the fallback of step 4 answers from: the indexer read a second time. *)
Definition fallback_valid (c : KaspaCovenantId) (o : KaspaOutpoint) (v : ResolverState) : Prop :=
  ∃ sp d st s e o',
    spent_on_chain o sp ∧ settled sp d ∧
    latest_state (rv_indexer self) c = Some st ∧
    lookup_covenant (rv_indexer self) c = Some e ∧ last (ic_spend_history e) = Some s ∧
    open_outpoint (rv_indexer self) c = Some o' ∧
    v = RS_NativeTransitionedValid c o o' (se_receipt_id s) st
          (se_allocation_audit_certificate s) d.

Lemma open_spent_valid c o sp v :
  is_valid v = true → returned (resolve_open_spent self c o sp) = v ↔
  ∃ d st s e o', settled sp d ∧
    latest_state (rv_indexer self) c = Some st ∧
    lookup_covenant (rv_indexer self) c = Some e ∧ last (ic_spend_history e) = Some s ∧
    open_outpoint (rv_indexer self) c = Some o' ∧
    v = RS_NativeTransitionedValid c o o' (se_receipt_id s) st
          (se_allocation_audit_certificate s) d.
Proof.
  intros Hv. unfold resolve_open_spent. split.
  - destruct (settled_depth self c sp) as [d|x] eqn:Hd; cbn [mbind result_bind returned].
    2: { apply settled_depth_err in Hd. congruence. }
    apply settled_depth_ok in Hd.
    destruct (latest_state (rv_indexer self) c) as [st|]; [|by intros <-].
    destruct (lookup_covenant (rv_indexer self) c) as [e|]; [|by intros <-].
    cbn [mbind option_bind ok_or result_bind].
    destruct (last (ic_spend_history e)) as [s|] eqn:El; [|by intros <-].
    destruct (open_outpoint (rv_indexer self) c) as [o'|]; [|by intros <-].
    cbn. intros <-. by exists d, st, s, e, o'.
  - intros (d & st & s & e & o' & Hd & -> & -> & Hl & -> & ->).
    rewrite (proj2 (settled_depth_ok c sp d) Hd). cbn [mbind result_bind ok_or option_bind].
    by rewrite Hl.
Qed.

Lemma resolve_valid c v :
  is_valid v = true →
  resolve_by_covenant self c = v ↔
    network_id (rv_backend self) = Ok (rv_verifier_chain self) ∧
    ∃ e o, lookup_covenant (rv_indexer self) c = Some e ∧ ic_open_outpoint e = Some o ∧
      ((∃ s d, confirmed_transition e s d ∧
          v = RS_NativeTransitionedValid c (se_spent s) (se_created s) (se_receipt_id s)
                (ic_latest_state e) (se_allocation_audit_certificate s) d) ∨
       (transition_not_seen c e ∧ fallback_valid c o v)).
Proof.
  intros Hv. unfold resolve_by_covenant, fallback_valid. split.
  - destruct (check_network self c) as [[]|x] eqn:Hn; cbn [mbind result_bind returned].
    2: { intros <-. apply check_network_err in Hn. congruence. }
    apply check_network_ok in Hn.
    destruct (lookup_covenant (rv_indexer self) c) as [e|] eqn:He; [|by intros <-].
    cbn [ok_or mbind result_bind].
    destruct (ic_open_outpoint e) as [o|] eqn:Ho; [|by intros <-]. cbn [ok_or mbind result_bind].
    destruct (resolve_indexed_spend self c e) as [[]|x] eqn:Hi; cbn [mbind result_bind returned].
    2: { intros ->. split; [done|]. exists e, o. split_and!; [done..|]. left.
         by apply indexed_spend_valid. }
    apply indexed_spend_falls_through in Hi.
    destruct (open_utxo self c o) as [u|x] eqn:Hu; cbn [mbind result_bind returned].
    2: { intros <-. apply open_utxo_err in Hu. congruence. }
    apply open_utxo_ok in Hu.
    destruct (ut_spending u) as [sp|] eqn:Hsp; [|by intros <-]. intros E.
    apply open_spent_valid in E as (d & st & s & e' & o' & E); [|done].
    split; [done|]. exists e, o. split_and!; [done..|]. right. split; [done|].
    exists sp, d, st, s, e', o'. split; [by exists u|]. rewrite He in E. exact E.
  - intros (Hn & e & o & He & Ho & Hc).
    rewrite (proj2 (check_network_ok c) Hn). rewrite He. cbn [ok_or mbind result_bind].
    rewrite Ho. cbn [ok_or mbind result_bind].
    destruct Hc as [Hc|[Hns (sp & d & st & s & e' & o' & (u & Hu & Hsp) & Hrest)]].
    + apply indexed_spend_valid in Hc; [|done]. by rewrite Hc.
    + rewrite (proj2 (indexed_spend_falls_through c e) Hns). cbn [mbind result_bind].
      rewrite (proj2 (open_utxo_ok c o u) Hu). cbn [mbind result_bind]. rewrite Hsp.
      apply open_spent_valid; [done|]. by exists d, st, s, e', o'.
Qed.

(** C4: What the resolver asserts when it calls a transition valid: the backend
    is on the configured chain, the covenant is indexed with an open outpoint,
    and either the latest indexed spend is confirmed past the safety depth by
    the very transaction that created the open outpoint, with a complete
    continuation proof and an unchanged or provably migrated policy, and the
    reported fields are that spend's; or the chain does not show that spend and
    the answer comes from the open outpoint being spent (the fallback).  These
    are the only two ways, and each is sufficient. *)
Theorem resolve_valid_iff c so no rid st cert d :
  resolve_by_covenant self c = RS_NativeTransitionedValid c so no rid st cert d ↔
    network_id (rv_backend self) = Ok (rv_verifier_chain self) ∧
    ∃ e o, lookup_covenant (rv_indexer self) c = Some e ∧ ic_open_outpoint e = Some o ∧
      ((∃ s, confirmed_transition e s d ∧ so = se_spent s ∧ no = se_created s ∧
          rid = se_receipt_id s ∧ st = ic_latest_state e ∧
          cert = se_allocation_audit_certificate s) ∨
       (transition_not_seen c e ∧
        fallback_valid c o (RS_NativeTransitionedValid c so no rid st cert d))).
Proof.
  rewrite resolve_valid by done. split.
  - intros (Hn & e & o & He & Ho & Hc). split; [done|]. exists e, o. split_and!; [done..|].
    destruct Hc as [(s & d' & Hc & [= -> -> -> -> -> ->])|?]; [left; by exists s|by right].
  - intros (Hn & e & o & He & Ho & Hc). split; [done|]. exists e, o. split_and!; [done..|].
    destruct Hc as [(s & Hc & -> & -> & -> & -> & ->)|?]; [left; by exists s, d|by right].
Qed.
End facts.

(** * Over the in-memory indexer *)

Section in_memory.
Context {B : Type} `{KaspaChainBackend B, Sha256}.

Implicit Types self : RgkResolver B InMemoryIndexer.

Lemma migration_agrees m p p' d d' t :
  validate_policy_migration_proof m p p' d d' t = Ok () →
  pm_authorization_commitment m ≠ zero32 ∧
  m = build_policy_migration_proof {|
    pmi_previous_policy := p; pmi_new_policy := p'; pmi_previous_state_digest := d;
    pmi_new_state_digest := d'; pmi_transition_digest := t;
    pmi_authorization_commitment := pm_authorization_commitment m |}.
Proof. by intros (_ & ? & ?)%policy_migration_ok. Qed.

(** An accepted spend passes the resolver's policy check, except that a policy
    change may be unproven. *)
Lemma accepted_policy_settled s st :
  spend_ok s → sc_receipt_policy st = se_new_receipt_policy s →
  sc_state_digest st = se_resulting_state_digest s →
  policy_settled s st ↔
    (se_policy_migration s = None → se_previous_receipt_policy s = sc_receipt_policy st).
Proof.
  intros [_ _ Hm _] Hp Hd. unfold policy_settled.
  destruct (se_policy_migration s) as [m|]; [|naive_solver].
  split; [done|]. intros _. destruct (Hm m eq_refl) as (p & Hc & Hv). right.
  pose proof Hv as (? & ? & ?)%policy_migration_ok. split; [congruence|]. by exists m, p.
Qed.

(** Fact: What the resolver answers right after the indexer accepted a spend, when
    the chain shows the consumed outpoint spent: unconfirmed, at reorg risk or a
    competing branch by what the chain says; and, once the spend is settled by
    the indexed transaction, invalid without a continuation proof, a required
    migration when the policy changed without a proof, and otherwise exactly
    the transition that was applied. *)
Theorem resolve_after_apply self s c rid spent created st daa cont mig sp :
  im_update s c (λ e, apply_spend_to_entry e rid spent created st daa cont mig)
    = Ok (rv_indexer self) →
  network_id (rv_backend self) = Ok (rv_verifier_chain self) →
  spent_on_chain self spent sp →
  ∃ old, latest_state s c = Some old ∧
  let d := observed_depth self (sp_txid sp) in
  resolve_by_covenant self c =
    if decide (uval d = 0%Z) then RS_Unconfirmed c (sp_txid sp)
    else if decide (d < rv_reorg_safety_depth self)%Z
    then RS_ReorgRisk c (default (wrap 64 0) (sp_block_daa_score sp))
    else if decide (transaction_id created ≠ sp_txid sp)
    then RS_CompetingBranch c spent (transaction_id created) (sp_txid sp) (sp_block_daa_score sp)
    else match cont, mig with
    | None, _ => RS_NativeTransitionedInvalid c
                   (RE_Structural "missing continuation proof in spend history"%string)
    | Some _, None =>
        if decide (sc_receipt_policy old ≠ sc_receipt_policy st)
        then RS_PolicyMigrationRequired c (sc_receipt_policy old) (sc_receipt_policy st)
        else RS_NativeTransitionedValid c spent created rid st None d
    | Some _, Some _ => RS_NativeTransitionedValid c spent created rid st None d
    end.
Proof.
  intros E Hn (u & Hu & Hsp). unfold im_update in E. inv_ok.
  apply apply_spend_ok in H2 as (_ & _ & _ & _ & Ho & Hs & ->).
  exists (ic_latest_state x). split; [cbn; by rewrite H1|]. intros d.
  unfold resolve_by_covenant. rewrite (proj2 (check_network_ok self c) Hn).
  rewrite <-E. cbn [lookup_covenant in_memory_indexer im_map im_set_map].
  rewrite lookup_insert_eq. cbn [ok_or mbind result_bind ic_open_outpoint spend_result].
  unfold resolve_indexed_spend. cbn [ic_spend_history spend_result]. rewrite last_snoc.
  unfold spent_utxo. cbn [se_spent spend_entry_of]. rewrite Hu.
  cbn [mbind result_bind option_bind]. rewrite Hsp. unfold settled_depth. fold d.
  clearbody d. destruct (decide (uval d = 0%Z)).
  { rewrite (fail_if_true (uval d = 0%Z)) by assumption. reflexivity. }
  rewrite (fail_if_false (uval d = 0%Z)) by done. cbn [mbind result_bind].
  destruct (decide (d < rv_reorg_safety_depth self)%Z).
  { rewrite (fail_if_true (d < _)%Z) by assumption. reflexivity. }
  rewrite (fail_if_false (d < _)%Z) by done. cbn [mbind result_bind se_created spend_entry_of].
  destruct (decide (transaction_id created ≠ sp_txid sp)) as [|Ht].
  { rewrite fail_if_true by assumption. reflexivity. }
  apply dec_stable in Ht. rewrite fail_if_false by naive_solver. cbn [mbind result_bind].
  destruct cont as [p|]; [|by unfold validate_indexed_continuation].
  rewrite (proj2 (indexed_continuation_ok _ (sp_txid sp))).
  2: { split; [done|]. exists p. split; [done|]. by apply (so_continuation _ Hs). }
  cbn [map_err mbind result_bind].
  cbn [ic_latest_state spend_result se_receipt_id se_allocation_audit_certificate spend_entry_of].
  pose proof (accepted_policy_settled _ st Hs eq_refl eq_refl) as Hset. cbn in Hset.
  destruct mig as [m|].
  { rewrite (proj2 (check_policy_ok c _ st)) by by apply Hset. done. }
  case_decide as Hpol.
  - unfold check_policy. cbn [se_previous_receipt_policy spend_entry_of se_policy_migration].
    rewrite decide_True by done. by rewrite (fail_if_true (None = None)).
  - rewrite (proj2 (check_policy_ok c _ st)); [done|]. apply Hset. intros _.
    destruct (decide (sc_receipt_policy (ic_latest_state x) = sc_receipt_policy st)); [done|].
    by destruct Hpol.
Qed.

(** A resolver over another store. *)
Definition with_indexer self (s : InMemoryIndexer) : RgkResolver B InMemoryIndexer :=
  {| rv_backend := rv_backend self; rv_indexer := s;
     rv_verifier_chain := rv_verifier_chain self;
     rv_reorg_safety_depth := rv_reorg_safety_depth self |}.

Lemma verify_receipt_ok self c bs ns :
  verify_receipt_against_indexer self c bs = Ok ns ↔
    ∃ old r, latest_state (rv_indexer self) c = Some old ∧ decode_canonical bs = Ok r ∧
      has_replay (rv_indexer self) c (receipt_commitment r) = false ∧
      verify_local bs c old (rv_verifier_chain self) = Ok (receipt_commitment r) ∧
      ns = rc_new_state r.
Proof.
  unfold verify_receipt_against_indexer. split.
  - intros E. apply bind_ok in E as (old & Ho & E). apply bind_ok in E as (r & Hr & E).
    apply bind_ok in E as ([] & Hp & E). apply bind_ok in E as (id & Hv & E).
    apply ok_or_ok in Ho. apply map_err_ok in Hr. exists old, r.
    apply fail_if_ok, not_true_is_false in Hp. injection E as <-. split_and!; try done.
    rewrite Hv. f_equal. unfold verify_local in Hv. rewrite Hr in Hv. cbn [map_err mbind result_bind] in Hv.
    by apply verify_local_structured_ok in Hv as (_&_&_&_&_&_&->).
  - intros (old & r & -> & -> & Hp & Hv & ->). cbn [ok_or map_err mbind result_bind].
    rewrite Hp, fail_if_false by done. cbn [mbind result_bind]. by rewrite Hv.
Qed.

(** Fact: A receipt the resolver verifies is one the indexer applies, once: over a
    store reached by any calls and a verifier on the covenant's chain, the spend
    of the open outpoint under the receipt's id and new state succeeds whatever
    outpoint it creates, and the resolver then refuses the receipt as a replay. *)
Theorem verified_receipt_applies_once self cs c bs ns old :
  rv_indexer self = exec_all in_memory_new cs →
  latest_state (rv_indexer self) c = Some old → sc_chain_id old = rv_verifier_chain self →
  verify_receipt_against_indexer self c bs = Ok ns →
  ∃ r o, bs = encode_canonical r ∧ ns = rc_new_state r ∧
    open_outpoint (rv_indexer self) c = Some o ∧
    ∀ created daa, ∃ s',
      apply_spend (rv_indexer self) c (receipt_commitment r) o created ns daa = Ok s' ∧
      latest_state s' c = Some ns ∧ open_outpoint s' c = Some created ∧
      verify_receipt_against_indexer (with_indexer self s') c bs
        = Err (RE_Replay (receipt_commitment r)).
Proof.
  intros Hi Hold Hch (old' & r & Hold' & Hr & Hp & Hv & ->)%verify_receipt_ok.
  assert (old' = old) as -> by congruence. clear Hold'.
  pose proof (exec_all_inv _ cs in_memory_new_inv) as Hs. rewrite <-Hi in Hs.
  cbn in Hold, Hp. unfold im_has_replay in Hp.
  destruct (im_map (rv_indexer self) !! c) as [e|] eqn:He; [|done]. injection Hold as <-.
  destruct (st_entries _ Hs _ _ He) as (o0 & d0 & p0 & [Hc1 Hc2 Hc3 (o & Ho & _) _ _]).
  pose proof Hr as (Hval & ->)%receipt_decode_iff.
  pose proof Hv as Hst. unfold verify_local in Hst. rewrite Hr in Hst.
  cbn [map_err mbind result_bind] in Hst.
  apply verify_local_structured_ok in Hst as (Hc & Hcv & _ & Ha & Hd & _).
  pose proof Hval as Hs'. apply receipt_valid_spec in Hs'.
  exists r, o. split; [done|]. split; [done|]. split; [by cbn; rewrite He|].
  intros created daa.
  set (s := spend_entry_of e (receipt_commitment r) o created (rc_new_state r) daa None None).
  exists (im_set_map (rv_indexer self)
            (<[c := spend_result e (rc_new_state r) s]> (im_map (rv_indexer self)))).
  apply bool_decide_eq_false in Hp. split_and!.
  - cbn. unfold im_update. rewrite He. cbn [ok_or mbind result_bind].
    rewrite (proj2 (apply_spend_ok e (receipt_commitment r) o created (rc_new_state r) daa
                      None None (spend_result e (rc_new_state r) s))); [done|].
    cbn zeta. destruct Hs' as (_&_&_&[_ ?]&[_ ?]&?&?&?&_). split_and!; try done; try congruence.
    constructor; cbn; try done. congruence.
  - cbn. by rewrite lookup_insert_eq.
  - cbn. by rewrite lookup_insert_eq.
  - unfold verify_receipt_against_indexer. cbn [latest_state in_memory_indexer with_indexer
      rv_indexer im_set_map im_map has_replay]. rewrite lookup_insert_eq.
    cbn [fmap option_fmap option_map ok_or mbind result_bind]. rewrite Hr.
    cbn [map_err mbind result_bind]. rewrite fail_if_true; [done|].
    unfold im_has_replay. cbn. rewrite lookup_insert_eq. apply bool_decide_eq_true.
    cbn. set_solver.
Qed.

Lemma find_transition_some t e s :
  find_transition t e = Some s →
  s ∈ ic_spend_history e ∧ ∃ p, se_continuation s = Some p ∧ co_transition_digest p = t.
Proof.
  unfold find_transition. intros ((i & s') & Hf & ->)%fmap_Some.
  apply list_find_Some in Hf as (Hl & Ht & _).
  split; [by eapply list_elem_of_lookup_2|].
  apply fmap_Some in Ht as (p & Hp & ->). by exists p.
Qed.

Lemma find_transition_none t e s p :
  find_transition t e = None → s ∈ ic_spend_history e → se_continuation s = Some p →
  co_transition_digest p ≠ t.
Proof.
  unfold find_transition. intros Hn%fmap_None Hs Hp Ht. apply list_find_None in Hn.
  rewrite Forall_forall in Hn. apply (Hn s Hs). by rewrite Hp, <-Ht.
Qed.

Lemma elem_of_ordered {K A} `{Countable K, OrdLaws K} (m : gmap K A) k :
  k ∈ fst <$> ordered m ↔ is_Some (m !! k).
Proof.
  unfold ordered. rewrite sort_by_key_perm. split.
  - intros ((k' & a) & -> & Ha)%list_elem_of_fmap. apply elem_of_map_to_list in Ha. by exists a.
  - intros [a Ha]. apply (list_elem_of_fmap_2' fst _ (k, a)); [|done].
    by apply elem_of_map_to_list.
Qed.

(** What a query over a list of covenants answers. *)
Lemma resolve_transition_in_spec self t l :
  match resolve_transition_in self t l with
  | TR_Resolved t' c rid st =>
      t' = t ∧ st = resolve_by_covenant self c ∧ c ∈ l ∧
      ∃ e s p, lookup_covenant (rv_indexer self) c = Some e ∧ s ∈ ic_spend_history e ∧
        se_continuation s = Some p ∧ co_transition_digest p = t ∧ rid = se_receipt_id s
  | TR_UnknownTransition t' =>
      t' = t ∧ ∀ c e s p, c ∈ l → lookup_covenant (rv_indexer self) c = Some e →
        s ∈ ic_spend_history e → se_continuation s = Some p → co_transition_digest p ≠ t
  end.
Proof.
  induction l as [|c l IH]; cbn [resolve_transition_in].
  - split; [done|]. intros ???? []%not_elem_of_nil.
  - destruct (lookup_covenant (rv_indexer self) c ≫= find_transition t) as [s|] eqn:E.
    + apply bind_Some in E as (e & He & (Hs & p & Hp & Ht)%find_transition_some).
      split_and!; [done..|by left|]. by exists e, s, p.
    + destruct (resolve_transition_in self t l).
      * destruct IH as (? & ? & ? & ?). split_and!; try done. by right.
      * destruct IH as (-> & IH). split; [done|]. intros c' e s p Hc He Hs Hp.
        apply elem_of_cons in Hc as [->|Hc]; [|by eapply IH].
        rewrite He in E. by eapply find_transition_none.
Qed.

(** Fact: The transition query is sound and complete over the indexer: a resolved
    transition is a spend of the returned covenant's history whose continuation
    proves that digest, with that spend's receipt and the covenant's resolved
    state; and an unknown one is proven by no spend of any indexed covenant. *)
Theorem resolve_transition_sound_complete self t :
  match resolve_transition self t with
  | TR_Resolved t' c rid st =>
      t' = t ∧ st = resolve_by_covenant self c ∧
      ∃ e s p, lookup_covenant (rv_indexer self) c = Some e ∧ s ∈ ic_spend_history e ∧
        se_continuation s = Some p ∧ co_transition_digest p = t ∧ rid = se_receipt_id s
  | TR_UnknownTransition t' =>
      t' = t ∧ ∀ c e s p, lookup_covenant (rv_indexer self) c = Some e →
        s ∈ ic_spend_history e → se_continuation s = Some p → co_transition_digest p ≠ t
  end.
Proof.
  unfold resolve_transition.
  pose proof (resolve_transition_in_spec self t (list_covenants (rv_indexer self))) as Hs.
  destruct (resolve_transition_in _ _ _); [naive_solver|].
  destruct Hs as [-> Hs]. split; [done|]. intros c e s p He. apply (Hs c); [|done].
  apply elem_of_ordered. by exists e.
Qed.

(** Fact: A lane opened by a view key and registered with the indexer is found by
    that view key, by its id and by its scan tag, and all three queries answer
    with this lane and the resolved state of its covenant. *)
Theorem registered_lane_found self s lane vk asset epoch :
  register_lane s lane = Ok (rv_indexer self) →
  let node := node_from_private vk asset epoch in
  il_lane_id lane = gn_lane_id node → il_scan_tag lane = Some (gn_scan_tag node) →
  il_asset_id lane = asset → il_epoch lane = epoch →
  let found := LR_Resolved lane (resolve_by_covenant self (il_covenant_id lane)) in
  resolve_by_view_key self vk asset epoch = found ∧
  resolve_lane self (gn_lane_id node) = found ∧
  resolve_by_scan_tag self (gn_scan_tag node) = found.
Proof.
  cbn [register_lane in_memory_indexer node_from_private gn_lane_id gn_scan_tag].
  unfold im_register_lane. intros E Hid Htag <- <-. inv_ok. cbn zeta.
  assert (Hl : lane_by_id (rv_indexer self)
                 (derive_blinded_lane_id vk (il_asset_id lane) (il_epoch lane)) = Some lane).
  { rewrite <-E, <-Hid. cbn. apply lookup_insert_eq. }
  unfold resolve_by_view_key, resolve_lane, resolve_by_scan_tag, resolve_indexed_lane.
  rewrite Hl. split_and!; [|done|].
  - rewrite decide_False by naive_solver. rewrite Htag, decide_False; [done|].
    intros Hd. by destruct Hd.
  - rewrite <-Hid in Htag |- *.
    replace (lane_by_scan_tag (rv_indexer self) _) with (Some lane); [done|].
    rewrite <-E. cbn. rewrite Htag. rewrite lookup_insert_eq. cbn.
    by rewrite lookup_insert_eq.
Qed.
End in_memory.
