(* ===== verification/ResolverSamples.v ===== *)
(** The resolver on concrete stores and chains: the witnesses of its theorems,
    and the answer of its fallback path to a spend the indexer has not seen. *)

From stdpp Require Import base list strings gmap.
From Stdlib Require Import ZArith Lia Strings.Byte.
From S2P Require Import Prelude.
From S2P Require Import Bytes.
From S2P Require Import Encoding.
From S2P Require Import Types.
From S2P Require Import Commit.
From S2P Require Import Hex.
From S2P Require Import Receipt.
From S2P Require Import AssetTypes.
From S2P Require Import Lane.
From S2P Require Import CoreSamples.
From S2P Require Import IndexerTypes.
From S2P Require Import Indexer.
From S2P Require Import IndexerCorrect.
From S2P Require Import Kaspa.
From S2P Require Import Resolver.
From S2P Require Import ResolverCorrect.

Open Scope list_scope.

#[local] Instance sample_sha256 : Sha256 := toy_sha256.

Definition sample_utxo (k : Z) : KaspaUtxo := {|
  ut_outpoint := sample_outpoint k; ut_value := n64 1; ut_script_public_key := {| spk_bytes := [] |};
  ut_block_daa_score := None; ut_spending := None |}.

Definition sample_tx (k : Z) : KaspaTxSummary :=
  {| tx_txid := b32 k; tx_mass := n64 1; tx_payload := [] |}.

(** A chain holding the outpoint [k], spent by the transaction [t]. *)
Definition sample_chain (k t : Z) : FixtureBackend :=
  (submit (spend_at (add_utxo_at (fixture_new KaspaLocalToccata) (n64 5) (sample_utxo k))
             (sample_outpoint k) (n64 7) (b32 t) (n32 0)) (sample_tx t)).1.

Definition sample_resolver (b : FixtureBackend) (s : InMemoryIndexer)
  : RgkResolver FixtureBackend InMemoryIndexer :=
  {| rv_backend := b; rv_indexer := s; rv_verifier_chain := KaspaLocalToccata;
     rv_reorg_safety_depth := n64 1 |}.

Definition sample_proof : ContinuationProof :=
  {| co_commitment := b32 42; co_shape_root := b32 44; co_transition_digest := b32 41 |}.

Definition sample_spend_proven : call :=
  CallSpendCont (b32 21) (b32 201) (sample_outpoint 1) (sample_outpoint 2) (sample_state 101)
    (n64 1001) sample_proof.

Lemma exec_ok_all (s : InMemoryIndexer) c :
  is_ok (exec s c) = true → exec s c = Ok (exec_all s [c]).
Proof. unfold exec_all. cbn [foldl]. by destruct (exec s c). Qed.

(** Fact: The fallback of the resolver reports an unverified spend as a valid
    transition: the indexer holds one spend from outpoint 1 to outpoint 2, the
    chain no longer shows outpoint 1, and outpoint 2 is spent on chain by a
    transaction the indexer has not seen; the resolver answers with a valid
    transition that spends and creates the same outpoint, under the receipt and
    the state of the earlier spend. *)
Theorem unindexed_spend_reported_valid :
  let s := exec_all in_memory_new [sample_open; sample_spend_proven] in
  let self := sample_resolver (sample_chain 2 99) s in
  (∀ e, lookup_covenant s (b32 21) = Some e → ¬ ∃ h d, confirmed_transition self e h d) ∧
  resolve_by_covenant self (b32 21) =
    RS_NativeTransitionedValid (b32 21) (sample_outpoint 2) (sample_outpoint 2) (b32 201)
      (sample_state 101) None (n64 1).
Proof.
  intros s self. split; [|by vm_compute].
  intros e He (h & d & Hl & (sp & (u & Hu & _) & _) & _).
  assert (Hh : se_spent h = sample_outpoint 1).
  { assert (Hs : (se_spent <$> (e ← lookup_covenant s (b32 21); last (ic_spend_history e)))
                 = Some (sample_outpoint 1)) by (vm_compute; reflexivity).
    rewrite He in Hs. cbn [mbind option_bind] in Hs. rewrite Hl in Hs. by injection Hs. }
  rewrite Hh in Hu. assert (Hn : get_utxo (rv_backend self) (sample_outpoint 1) = Ok None)
    by (vm_compute; reflexivity).
  congruence.
Qed.

Lemma resolve_after_apply_witness :
  let s := exec_all in_memory_new [sample_open] in
  let self := sample_resolver (sample_chain 1 2) (exec_all s [sample_spend_proven]) in
  resolve_by_covenant self (b32 21) =
    RS_NativeTransitionedValid (b32 21) (sample_outpoint 1) (sample_outpoint 2) (b32 201)
      (sample_state 101) None (n64 1).
Proof.
  intros s self.
  destruct (resolve_after_apply self s (b32 21) (b32 201) (sample_outpoint 1) (sample_outpoint 2)
    (sample_state 101) (n64 1001) (Some sample_proof) None
    {| sp_txid := b32 2; sp_input_index := n32 0; sp_block_daa_score := Some (n64 7) |})
    as (old & Ho & E).
  - apply (exec_ok_all s sample_spend_proven). vm_compute. reflexivity.
  - vm_compute. reflexivity.
  - exists (mark_spent {| sp_txid := b32 2; sp_input_index := n32 0;
                         sp_block_daa_score := Some (n64 7) |} (sample_utxo 1)).
    split; [vm_compute; reflexivity|reflexivity].
  - rewrite E.
    assert (Hp : sc_receipt_policy old = Any) by (vm_compute in Ho; by injection Ho as <-).
    rewrite Hp. vm_compute. reflexivity.
Defined.

Lemma verified_receipt_applies_once_witness :
  let s := exec_all in_memory_new [sample_open] in
  let self := sample_resolver (sample_chain 1 2) s in
  ∃ r o, encode_canonical sample_receipt = encode_canonical r ∧
    open_outpoint s (b32 21) = Some o ∧
    ∃ s', apply_spend s (b32 21) (receipt_commitment r) o (sample_outpoint 2) (sample_state 101)
            (n64 1001) = Ok s' ∧
      verify_receipt_against_indexer (with_indexer self s') (b32 21)
        (encode_canonical sample_receipt) = Err (RE_Replay (receipt_commitment r)).
Proof.
  intros s self.
  destruct (verified_receipt_applies_once self [sample_open] (b32 21)
    (encode_canonical sample_receipt) (sample_state 101) (sample_state 100))
    as (r & o & Hr & _ & Ho & Hs).
  - reflexivity.
  - vm_compute. reflexivity.
  - reflexivity.
  - vm_compute. reflexivity.
  - exists r, o. destruct (Hs (sample_outpoint 2) (n64 1001)) as (s' & ? & _ & _ & ?).
    split; [exact Hr|]. split; [exact Ho|]. by exists s'.
Defined.

Definition sample_private_lane : IndexedLane :=
  let node := node_from_private (b32 9) (b32 22) (n64 3) in
  {| il_chain_id := KaspaLocalToccata; il_covenant_id := b32 21; il_asset_id := b32 22;
     il_lane_id := gn_lane_id node; il_epoch := n64 3; il_scan_tag := Some (gn_scan_tag node);
     il_public_lineage := false; il_state_digest := b32 100;
     il_last_update_daa_score := n64 1000 |}.

Lemma registered_lane_found_witness :
  let s := exec_all in_memory_new [sample_open] in
  let self := sample_resolver (sample_chain 1 2) (exec_all s [CallLane sample_private_lane]) in
  resolve_by_view_key self (b32 9) (b32 22) (n64 3) =
    LR_Resolved sample_private_lane (resolve_by_covenant self (b32 21)).
Proof.
  intros s self.
  assert (R : register_lane s sample_private_lane = Ok (rv_indexer self)).
  { apply (exec_ok_all s (CallLane sample_private_lane)). vm_compute. reflexivity. }
  destruct (registered_lane_found self s sample_private_lane (b32 9) (b32 22) (n64 3) R
    eq_refl eq_refl eq_refl eq_refl) as (E & _ & _).
  exact E.
Defined.
