(* ===== verification/Wrpc.v ===== *)
(** The backend over a live node (src/crates/rgk-kaspa/src/wrpc.rs): a cache of
    observed spends in front of the node's RPC client, its traits, its scanner
    trait (src/crates/rgk-sync/src/lib.rs), and the program that drives it
    (src/crates/rgk-sync/src/bin/rgk-sync.rs).

    The node is the class [RpcApi]; a call may move it.  Clones of a backend share
    its client and its cache, so a backend is one state. *)

From stdpp Require Import base list strings gmap.
From Stdlib Require Import ZArith Lia Strings.Byte.
From S2P Require Import Prelude.
From S2P Require Import Bytes.
From S2P Require Import Encoding.
From S2P Require Import Types.
From S2P Require Import Hex.
From S2P Require Import IndexerTypes.
From S2P Require Import Indexer.
From S2P Require Import Kaspa.
From S2P Require Import Sync.

Open Scope string_scope.
Open Scope list_scope.

(** * Networks *)

Inductive WrpcNetwork : Type := WN_Mainnet | WN_Testnet | WN_Devnet | WN_Simnet | WN_LocalToccata.

Definition wrpc_chain_id (self : WrpcNetwork) : KaspaChainId :=
  match self with
  | WN_Mainnet => KaspaMainnet
  | WN_Testnet => KaspaTestnet
  | WN_Devnet => KaspaDevnet
  | WN_Simnet => KaspaSimnet
  | WN_LocalToccata => KaspaLocalToccata
  end.

(** [kaspa_wrpc_client::prelude::NetworkType] *)
Inductive NetworkType : Type := NT_Mainnet | NT_Testnet | NT_Devnet | NT_Simnet.

Definition network_type (self : WrpcNetwork) : NetworkType :=
  match self with
  | WN_Mainnet => NT_Mainnet
  | WN_Testnet => NT_Testnet
  | WN_Devnet => NT_Devnet
  | WN_Simnet | WN_LocalToccata => NT_Simnet
  end.

(** * The client *)

(** Of the client's data, the fields the backend reads. *)
Record RpcTransaction := {
  rx_inputs : list KaspaOutpoint;
  rx_verbose_transaction_id : option Bytes32
}.

Record RpcBlock := {
  rb_daa_score : u64;
  rb_transactions : list RpcTransaction;
  rb_verbose_transaction_ids : option (list Bytes32)
}.

Record RpcVirtualChain := {
  vc_removed_chain_block_hashes : list Bytes32;
  vc_added_chain_block_hashes : list Bytes32
}.

Record RpcBlockDagInfo := {
  dag_sink : Bytes32;
  dag_block_count : u64;
  dag_virtual_daa_score : u64
}.

(** [ConnectOptions] with the strategy [Fallback]. *)
Record ConnectOptions := {
  co_block_async_connect : bool;
  co_connect_timeout_secs : option Z
}.

(** Why a call has no answer: there is no runtime to block on, or the call
    itself failed. *)
Inductive rpc_failure : Type :=
| NoRuntime (error : string)
| CallFailed (error : string).

Class RpcApi (C : Type) := {
  Address : Type;
  address_try_from : string → result string Address;
  client_new : string → NetworkType → result string C;
  client_connect : ConnectOptions → C → result string C;
  get_server_info : stateful C rpc_failure unit;
  get_block_dag_info : stateful C rpc_failure RpcBlockDagInfo;
  get_virtual_chain_from_block :
    Bytes32 → bool → option u64 → stateful C rpc_failure RpcVirtualChain;
  get_block : Bytes32 → bool → stateful C rpc_failure RpcBlock;
  get_balance_by_address : Address → stateful C rpc_failure u64;
  client_submit_transaction : RpcTransaction → bool → stateful C rpc_failure Bytes32
}.

(** * The backend *)

(** Of src/crates/rgk-kaspa/src/lib.rs. *)
Record ObservedSpend := {
  ob_spent : KaspaOutpoint;
  ob_info : SpendingInfo
}.

Record WrpcBackend (C : Type) := {
  wb_client : C;
  wb_network : KaspaChainId;
  wb_observed_spends : gmap KaspaOutpoint SpendingInfo;
  wb_poisoned : bool
}.
Arguments wb_client {C}. Arguments wb_network {C}. Arguments wb_observed_spends {C}.
Arguments wb_poisoned {C}.

Record WrpcVirtualChainScan := {
  ws_removed_chain_block_hashes : list KaspaBlockHash;
  ws_added_chain_block_hashes : list KaspaBlockHash;
  ws_last_added_daa_score : option u64;
  ws_observed_spends : usize;
  ws_observed_spend_records : list ObservedSpend
}.

Definition wrpc_new {C} (client : C) (network : KaspaChainId) : WrpcBackend C :=
  {| wb_client := client; wb_network := network; wb_observed_spends := ∅; wb_poisoned := false |}.

Definition set_client {C} (client : C) (self : WrpcBackend C) : WrpcBackend C :=
  {| wb_client := client; wb_network := wb_network self;
     wb_observed_spends := wb_observed_spends self; wb_poisoned := wb_poisoned self |}.

Definition set_cache {C} (cache : gmap KaspaOutpoint SpendingInfo) (self : WrpcBackend C)
  : WrpcBackend C :=
  {| wb_client := wb_client self; wb_network := wb_network self;
     wb_observed_spends := cache; wb_poisoned := wb_poisoned self |}.

Definition rpc_error (e : string) : KaspaNetworkError := NodeUnavailable e.

Definition rpc_failed (e : rpc_failure) : KaspaNetworkError :=
  match e with
  | NoRuntime error => KE_Invariant ("tokio runtime: " ++ error)
  | CallFailed error => rpc_error error
  end.

(** * Reading blocks *)

(** [u32::try_from(input_index)] *)
Definition input_index_of (i : nat) : kresult u32 :=
  if decide (Z.of_nat i < 2 ^ 32)%Z then Ok (wrap 32 (Z.of_nat i))
  else Err (KE_Invariant "rpc transaction has more than u32::MAX inputs").

Definition observed_spends_from_rpc_transaction (txid : KaspaTxId) (transaction : RpcTransaction)
    (block_daa_score : option u64) : kresult (list ObservedSpend) :=
  try_foldi (λ i spends spent,
    input_index ← input_index_of i;
    Ok (if decide (spent = outpoint_NULL) then spends
        else spends ++ [{| ob_spent := spent;
                           ob_info := {| sp_txid := txid; sp_input_index := input_index;
                                         sp_block_daa_score := block_daa_score |} |}]))
    0 [] (rx_inputs transaction).

Definition rpc_transaction_id_from_block (block : RpcBlock) (transaction : RpcTransaction)
    (transaction_index : nat) : kresult KaspaTxId :=
  match rx_verbose_transaction_id transaction with
  | Some txid => Ok txid
  | None =>
      ok_or (ids ← rb_verbose_transaction_ids block; ids !! transaction_index)
        (KE_Invariant "rpc block transaction is missing transaction id data")
  end.

Definition rpc_block_accepting_daa_score (block : RpcBlock) : kresult u64 :=
  ok_or (checked_add (rb_daa_score block) (wrap 64 1))
    (KE_Invariant "rpc block DAA score overflowed accepting DAA score").

(** [for spend in spends { cache.insert(spend.spent, spend.info); }] *)
Definition insert_spends (spends : list ObservedSpend) (cache : gmap KaspaOutpoint SpendingInfo)
  : gmap KaspaOutpoint SpendingInfo :=
  foldl (λ cache spend, <[ob_spent spend := ob_info spend]> cache) cache spends.

(** * The operations *)

Section wrpc.
Context {C : Type} `{RpcApi C}.
Abbreviation live := (stateful (WrpcBackend C) KaspaNetworkError).

Definition connect_borsh_with_chain_id (url : string) (network : WrpcNetwork)
    (chain_id : KaspaChainId) : kresult (WrpcBackend C) :=
  client ← map_err rpc_error (client_new url (network_type network));
  client ← map_err rpc_error
    (client_connect {| co_block_async_connect := true; co_connect_timeout_secs := Some 5%Z |} client);
  Ok (wrpc_new client chain_id).

Definition connect_borsh (url : string) (network : WrpcNetwork) : kresult (WrpcBackend C) :=
  connect_borsh_with_chain_id url network (wrpc_chain_id network).

Definition connect_simnet_borsh (url : string) (network : KaspaChainId)
  : kresult (WrpcBackend C) :=
  connect_borsh_with_chain_id url WN_Simnet network.

(** [block_on] and the conversion of the errors. *)
Definition run_rpc {A} (call : stateful C rpc_failure A) : live A := λ self,
  let '(r, client) := call (wb_client self) in (map_err rpc_failed r, set_client client self).

Definition observed_spends_lock : live (gmap KaspaOutpoint SpendingInfo) :=
  reading (λ self, _ ← fail_if (wb_poisoned self = true)
                         (KE_Invariant "observed spend cache poisoned");
                   Ok (wb_observed_spends self)).

Definition update_cache (f : gmap KaspaOutpoint SpendingInfo → gmap KaspaOutpoint SpendingInfo)
  : live unit := λ self, (Ok (), set_cache (f (wb_observed_spends self)) self).

Definition record_spend (spent : KaspaOutpoint) (info : SpendingInfo) : live unit :=
  _ ← observed_spends_lock;
  update_cache (insert spent info).

Definition wrpc_observed_spend (spent : KaspaOutpoint) : live (option SpendingInfo) :=
  cache ← observed_spends_lock;
  mret (cache !! spent).

Definition wrpc_observed_spend_count : live nat :=
  cache ← observed_spends_lock;
  mret (size cache).

Definition submit_rpc_transaction (transaction : RpcTransaction) (allow_orphan : bool)
  : live KaspaTxId := run_rpc (client_submit_transaction transaction allow_orphan).

Definition observe_rpc_transaction_spends (txid : KaspaTxId) (transaction : RpcTransaction)
    (block_daa_score : option u64) : live usize :=
  spends ← reading (λ _, observed_spends_from_rpc_transaction txid transaction block_daa_score);
  _ ← observed_spends_lock;
  _ ← update_cache (insert_spends spends);
  mret (usize_of (length spends)).

(** The loop of [observe_rpc_block_spend_records], at transaction [i]. *)
Fixpoint observe_transactions (block : RpcBlock) (accepting_daa_score : u64) (i : nat)
    (transactions : list RpcTransaction) (observed : list ObservedSpend)
  : live (list ObservedSpend) :=
  match transactions with
  | [] => mret observed
  | transaction :: transactions' =>
      txid ← reading (λ _, rpc_transaction_id_from_block block transaction i);
      spends ← reading (λ _, observed_spends_from_rpc_transaction txid transaction
                               (Some accepting_daa_score));
      _ ← update_cache (insert_spends spends);
      observe_transactions block accepting_daa_score (S i) transactions' (observed ++ spends)
  end.

Definition observe_rpc_block_spend_records (block : RpcBlock) : live (list ObservedSpend) :=
  accepting_daa_score ← reading (λ _, rpc_block_accepting_daa_score block);
  _ ← observed_spends_lock;
  observe_transactions block accepting_daa_score 0 (rb_transactions block) [].

Definition observe_rpc_block_spends (block : RpcBlock) : live usize :=
  observed ← observe_rpc_block_spend_records block;
  mret (usize_of (length observed)).

(** The loop of [scan_virtual_chain_from_block]. *)
Fixpoint scan_added_blocks (hashes : list Bytes32) (last_added_daa_score : option u64)
    (records : list ObservedSpend) : live (option u64 * list ObservedSpend) :=
  match hashes with
  | [] => mret (last_added_daa_score, records)
  | block_hash :: hashes' =>
      block ← run_rpc (get_block block_hash true);
      daa_score ← reading (λ _, rpc_block_accepting_daa_score block);
      observed ← observe_rpc_block_spend_records block;
      scan_added_blocks hashes' (Some daa_score) (records ++ observed)
  end.

Definition scan_virtual_chain_from_block (start_hash : KaspaBlockHash)
    (min_confirmation_count : option u64) : live WrpcVirtualChainScan :=
  response ← run_rpc (get_virtual_chain_from_block start_hash false min_confirmation_count);
  '(last_added_daa_score, observed_spend_records) ←
    scan_added_blocks (vc_added_chain_block_hashes response) None [];
  mret {|
    ws_removed_chain_block_hashes := vc_removed_chain_block_hashes response;
    ws_added_chain_block_hashes := vc_added_chain_block_hashes response;
    ws_last_added_daa_score := last_added_daa_score;
    ws_observed_spends := usize_of (length observed_spend_records);
    ws_observed_spend_records := observed_spend_records |}.

(** The first entry of the cache, in the order of its keys, spent by [txid]. *)
Definition observed_by_txid (txid : KaspaTxId) : live (option (KaspaOutpoint * SpendingInfo)) :=
  cache ← observed_spends_lock;
  mret (snd <$> list_find (λ entry, sp_txid entry.2 = txid) (ordered cache)).

(** * [KaspaChainBackend] *)

Definition wrpc_current_tip : live KaspaTip :=
  dag ← run_rpc get_block_dag_info;
  mret {| tip_hash := dag_sink dag; tip_blue_score := dag_block_count dag;
          tip_daa_score := dag_virtual_daa_score dag |}.

Definition observed_summary (txid : KaspaTxId) : KaspaTxSummary :=
  {| tx_txid := txid; tx_mass := wrap 64 0; tx_payload := [] |}.

Definition wrpc_get_utxo (outpoint : KaspaOutpoint) : live (option KaspaUtxo) :=
  found ← wrpc_observed_spend outpoint;
  match found with
  | Some spending =>
      utxo ← reading (λ _, utxo_new outpoint (wrap 64 0) [] None (Some spending));
      mret (Some utxo)
  | None => mret None
  end.

Definition wrpc_confirmation_depth (txid : KaspaTxId) : live (option u64) :=
  found ← observed_by_txid txid;
  match found with
  | None => mret None
  | Some (_, spending) =>
      match sp_block_daa_score spending with
      | None => mret None
      | Some accepted_daa =>
          tip ← wrpc_current_tip;
          mret (if decide (tip_daa_score tip < accepted_daa)%Z then None
                else Some (wrapping_add (usub (tip_daa_score tip) accepted_daa) (wrap 64 1)))
      end
  end.

Definition wrpc_network_id : live KaspaChainId :=
  _ ← run_rpc get_server_info;
  reading (λ self, Ok (wb_network self)).

Definition wrpc_get_transaction (txid : KaspaTxId) : live (option KaspaTxSummary) :=
  found ← observed_by_txid txid;
  mret ((λ _, observed_summary txid) <$> found).

Definition wrpc_get_spending_transaction (outpoint : KaspaOutpoint)
  : live (option KaspaTxSummary) :=
  found ← wrpc_observed_spend outpoint;
  mret ((λ spending, observed_summary (sp_txid spending)) <$> found).

(** The trait reads a backend as it stands. *)
#[export] Instance wrpc_backend : KaspaChainBackend (WrpcBackend C) := {
  network_id self := (wrpc_network_id self).1;
  current_tip self := (wrpc_current_tip self).1;
  get_transaction self txid := (wrpc_get_transaction txid self).1;
  get_utxo self outpoint := (wrpc_get_utxo outpoint self).1;
  get_spending_transaction self outpoint := (wrpc_get_spending_transaction outpoint self).1;
  submit_transaction self _ := Err (UnsupportedToccataFeature
    "WrpcBackend::submit_transaction requires a typed RpcTransaction; use submit_rpc_transaction");
  confirmation_depth self txid := (wrpc_confirmation_depth txid self).1
}.

#[export] Instance wrpc_wallet : KaspaWalletBackend (WrpcBackend C) := {
  balance_by_address self address :=
    address ← map_err (λ error, KE_Invariant ("invalid Kaspa wallet address: " ++ error)%string)
                (address_try_from address);
    (run_rpc (get_balance_by_address address) self).1
}.

(** * [ScanBackend] *)

(** [.map_err(|e| SyncError::Chain(e.to_string()))] *)
Definition chain_err {A} (m : live A) : stateful (WrpcBackend C) SyncError A := λ self,
  let '(r, self') := m self in (map_err (λ e, SE_Chain (network_error_display e)) r, self').

Definition spend_record (spend : ObservedSpend) : ObservedSpendRecord :=
  {| os_spent := ob_spent spend; os_spending_txid := sp_txid (ob_info spend);
     os_input_index := sp_input_index (ob_info spend);
     os_block_daa_score := sp_block_daa_score (ob_info spend) |}.

#[export] Instance wrpc_scan_backend : ScanBackend (WrpcBackend C) := {
  current_scan_cursor chain_id :=
    tip ← chain_err wrpc_current_tip;
    mret {| cu_chain_id := chain_id; cu_block_hash := tip_hash tip;
            cu_daa_score := tip_daa_score tip |};
  scan_from_cursor cursor min_confirmation_count :=
    scan ← chain_err (scan_virtual_chain_from_block (cu_block_hash cursor) min_confirmation_count);
    mret {|
      sb_removed_chain_block_hashes := ws_removed_chain_block_hashes scan;
      sb_added_chain_block_hashes := ws_added_chain_block_hashes scan;
      sb_last_added_daa_score := ws_last_added_daa_score scan;
      sb_observed_spends := ws_observed_spends scan;
      sb_observed_spend_records := spend_record <$> ws_observed_spend_records scan |}
}.
End wrpc.

(** * The scanner program *)

Inductive SyncNetwork : Type := SY_Mainnet | SY_Testnet | SY_Devnet | SY_Simnet | SY_LocalToccata.

Definition to_wrpc_network (self : SyncNetwork) : WrpcNetwork :=
  match self with
  | SY_Mainnet => WN_Mainnet
  | SY_Testnet => WN_Testnet
  | SY_Devnet => WN_Devnet
  | SY_Simnet => WN_Simnet
  | SY_LocalToccata => WN_LocalToccata
  end.

(** The command line; [once] and [forever] exclude each other. *)
Inductive SyncMode : Type := ModeOnce | ModeForever | ModeUntilIdle.

Record Cli := {
  cli_url : string;
  cli_network : SyncNetwork;
  cli_db : string;
  cli_cursor_name : option string;
  cli_min_confirmations : option u64;
  cli_mode : SyncMode;
  cli_max_idle_ticks : u32;
  cli_poll_ms : u64
}.

Inductive CliError : Type :=
| CE_Connect (error : KaspaNetworkError)
| CE_OpenIndexer (path : string) (source : IndexerError)
| CE_Sync (error : SyncError)
| CE_Flush (error : IndexerError)
| CE_Signal (error : string).

#[export] Instance CliError_eq_dec : EqDecision CliError.
Proof. solve_decision. Defined.

Definition sync_scan_config (cli : Cli) (network : WrpcNetwork) : ScanServiceConfig :=
  {| cf_cursor_name := default DEFAULT_SCAN_CURSOR (cli_cursor_name cli);
     cf_chain_id := wrpc_chain_id network;
     cf_min_confirmation_count := cli_min_confirmations cli |}.

(** The first eight bytes in hexadecimal. *)
Definition short_hash (hash : Bytes32) : string :=
  String.string_of_list_byte (to_hex_bytes (take 8 (blist hash))).

Definition bool_display (b : bool) : string := if b then "true" else "false".

Definition print_tick (tick : ScanTick) : string :=
  ("tick initialised=" ++ bool_display (tk_initialised_cursor tick) ++
   " added_chain_blocks=" ++ usize_display (tk_added_chain_blocks tick) ++
   " observed_spends=" ++ usize_display (tk_observed_spends tick) ++
   " start_daa=" ++ usize_display (cu_daa_score (tk_start_cursor tick)) ++
   " end_daa=" ++ usize_display (cu_daa_score (tk_end_cursor tick)) ++
   " end_hash_prefix=" ++ short_hash (cu_block_hash (tk_end_cursor tick)))%string.

Definition print_summary (summary : ScanRunSummary) : string :=
  let '(end_daa, end_hash_prefix) :=
    match sm_end_cursor summary with
    | Some cursor => (usize_display (cu_daa_score cursor), short_hash (cu_block_hash cursor))
    | None => ("none", "none")
    end in
  ("summary ticks=" ++ usize_display (sm_ticks summary) ++
   " initialised=" ++ bool_display (sm_initialised_cursor summary) ++
   " added_chain_blocks=" ++ usize_display (sm_added_chain_blocks summary) ++
   " observed_spends=" ++ usize_display (sm_observed_spends summary) ++
   " end_daa=" ++ end_daa ++ " end_hash_prefix=" ++ end_hash_prefix)%string.

(** What one turn of the program meets: how flushing the store goes, and, given
    the delay in milliseconds, whether the interrupt comes before the delay is
    over. *)
Record Turn := {
  turn_flush : result IndexerError unit;
  turn_wait : Z → option (result string unit)
}.

Definition poll_delay (tick : ScanTick) (poll_ms : u64) : Z :=
  if tk_initialised_cursor tick || bool_decide (0 < tk_added_chain_blocks tick)%Z then 0
  else uval poll_ms.

Section driver.
Context {B S : Type} `{ScanBackend B} `{ScanCursorStore S} `{ObservedSpendStore S}.
Context (config : ScanServiceConfig).

Definition run_tick (turn : Turn) : stateful (B * S) CliError ScanTick := λ w,
  let '(r, w') := tick config w in
  (t ← map_err CE_Sync r; _ ← map_err CE_Flush (turn_flush turn); Ok t, w').

(** [None] when [fuel] ticks were not enough. *)
Definition run_idle (fuel : nat) (max_idle_ticks : u32) (turn : Turn) (w : B * S)
  : option (result CliError ScanRunSummary * (B * S)) :=
  '(r, w') ← run_until_idle config fuel max_idle_ticks w;
  Some (summary ← map_err CE_Sync r; _ ← map_err CE_Flush (turn_flush turn); Ok summary, w').

(** The lines printed, and how the loop ended, or [None] while it runs on. *)
Fixpoint run_forever (poll_ms : u64) (turns : list Turn) (w : B * S)
  : list string * option (result CliError unit) * (B * S) :=
  match turns with
  | [] => ([], None, w)
  | turn :: turns' =>
      match run_tick turn w with
      | (Err e, w') => ([], Some (Err e), w')
      | (Ok t, w') =>
          match turn_wait turn (poll_delay t poll_ms) with
          | Some signal => ([print_tick t], Some (map_err CE_Signal signal), w')
          | None =>
              let '(lines, ended, w'') := run_forever poll_ms turns' w' in
              (print_tick t :: lines, ended, w'')
          end
      end
  end.
End driver.

Section run.
Context {C S : Type} `{RpcApi C} `{ScanCursorStore S} `{ObservedSpendStore S}.

(** The program on a database that opens as [db] says: what it prints and how it
    ends.  [turns] is what it meets; the finite modes meet the first. *)
Definition sync_run (cli : Cli) (db : result IndexerError S) (fuel : nat) (turn : Turn)
    (turns : list Turn) : list string * option (result CliError unit) * option (WrpcBackend C * S) :=
  let wrpc_network := to_wrpc_network (cli_network cli) in
  match (backend ← map_err CE_Connect (connect_borsh (cli_url cli) wrpc_network);
         indexer ← map_err (CE_OpenIndexer (cli_db cli)) db;
         Ok (backend, indexer)) with
  | Err e => ([], Some (Err e), None)
  | Ok w =>
      let config := sync_scan_config cli wrpc_network in
      match cli_mode cli with
      | ModeOnce =>
          match run_tick config turn w with
          | (Ok t, w') => ([print_tick t], Some (Ok ()), Some w')
          | (Err e, w') => ([], Some (Err e), Some w')
          end
      | ModeForever =>
          let '(lines, ended, w') := run_forever config (cli_poll_ms cli) (turn :: turns) w in
          (lines, ended, Some w')
      | ModeUntilIdle =>
          match run_idle config fuel (cli_max_idle_ticks cli) turn w with
          | Some (Ok summary, w') => ([print_summary summary], Some (Ok ()), Some w')
          | Some (Err e, w') => ([], Some (Err e), Some w')
          | None => ([], None, None)
          end
      end
  end.
End run.
