(* ===== verification/WrpcCorrect.v ===== *)
(** What the backend over a live node answers: what a scan reads, what the cache
    holds, how deep a spend is, and what the resolver and the synchroniser make of
    it. *)

From stdpp Require Import base list strings gmap.
From Stdlib Require Import ZArith Lia Strings.Byte.
From S2P Require Import Prelude.
From S2P Require Import Bytes.
From S2P Require Import Encoding.
From S2P Require Import Types.
From S2P Require Import Commit.
From S2P Require Import IndexerTypes.
From S2P Require Import Indexer.
From S2P Require Import Rebuild.
From S2P Require Import Kaspa.
From S2P Require Import Sync.
From S2P Require Import SyncCorrect.
From S2P Require Import Resolver.
From S2P Require Import Wrpc.

Open Scope string_scope.
Open Scope list_scope.

(** * What a block shows *)

(** The inputs of a transaction that spend something, with their positions. *)
Fixpoint input_spends (txid : KaspaTxId) (daa : option u64) (i : nat)
    (inputs : list KaspaOutpoint) : list ObservedSpend :=
  match inputs with
  | [] => []
  | spent :: inputs' =>
      (if decide (spent = outpoint_NULL) then []
       else [{| ob_spent := spent;
                ob_info := {| sp_txid := txid; sp_input_index := wrap 32 (Z.of_nat i);
                              sp_block_daa_score := daa |} |}]) ++
      input_spends txid daa (S i) inputs'
  end.

Definition id_in_block (block : RpcBlock) (i : nat) (transaction : RpcTransaction)
  : option KaspaTxId :=
  match rx_verbose_transaction_id transaction with
  | Some txid => Some txid
  | None => ids ← rb_verbose_transaction_ids block; ids !! i
  end.

(** A transaction the backend can read: it has an id, and its inputs are
    counted in 32 bits. *)
Definition readable_transaction (block : RpcBlock) (i : nat) (transaction : RpcTransaction) : Prop :=
  is_Some (id_in_block block i transaction) ∧
  (Z.of_nat (length (rx_inputs transaction)) <= 2 ^ 32)%Z.

Definition readable (block : RpcBlock) : Prop :=
  (rb_daa_score block + 1 < 2 ^ 64)%Z ∧
  ∀ i transaction, rb_transactions block !! i = Some transaction →
    readable_transaction block i transaction.

Definition transaction_spends (block : RpcBlock) (i : nat) (transaction : RpcTransaction)
  : list ObservedSpend :=
  input_spends (default zero32 (id_in_block block i transaction))
    (Some (wrap 64 (rb_daa_score block + 1))) 0 (rx_inputs transaction).

(** The spends of a block, from its transaction [i] on. *)
Fixpoint spends_from (block : RpcBlock) (i : nat) (transactions : list RpcTransaction)
  : list ObservedSpend :=
  match transactions with
  | [] => []
  | transaction :: transactions' =>
      transaction_spends block i transaction ++ spends_from block (S i) transactions'
  end.

Definition block_spends (block : RpcBlock) : list ObservedSpend :=
  spends_from block 0 (rb_transactions block).

Lemma input_spends_fold txid daa i inputs acc l :
  try_foldi (λ i spends spent,
    input_index ← input_index_of i;
    Ok (if decide (spent = outpoint_NULL) then spends
        else spends ++ [{| ob_spent := spent;
                           ob_info := {| sp_txid := txid; sp_input_index := input_index;
                                         sp_block_daa_score := daa |} |}])) i acc inputs = Ok l ↔
  (inputs = [] ∨ Z.of_nat (i + length inputs) <= 2 ^ 32)%Z ∧ l = acc ++ input_spends txid daa i inputs.
Proof.
  revert i acc. induction inputs as [|o inputs IH]; intros i acc; cbn.
  - rewrite app_nil_r. naive_solver.
  - destruct (input_index_of i) as [idx|e] eqn:Hi; unfold input_index_of in Hi;
      case_decide as Hlt; try discriminate Hi; cbn [mbind result_bind].
    2:{ split; [intros [=]|intros [[Hf|Hf] _]; [discriminate Hf|lia] ]. }
    injection Hi as <-.
    assert (inputs = [] ∨ Z.of_nat (S i + length inputs) <= 2 ^ 32 ↔
            o :: inputs = [] ∨ Z.of_nat (i + S (length inputs)) <= 2 ^ 32)%Z as Hfit.
    { destruct inputs; cbn; (split; intros [Hf|Hf]); try discriminate Hf;
        solve [left; reflexivity | right; lia]. }
    rewrite IH, Hfit. by case_decide; rewrite <-?app_assoc.
Qed.

Lemma transaction_spends_iff block i transaction txid l :
  id_in_block block i transaction = Some txid →
  observed_spends_from_rpc_transaction txid transaction
    (Some (wrap 64 (rb_daa_score block + 1))) = Ok l ↔
  readable_transaction block i transaction ∧ l = transaction_spends block i transaction.
Proof.
  intros Hid. unfold observed_spends_from_rpc_transaction, readable_transaction, transaction_spends.
  rewrite input_spends_fold, Hid. cbn. rewrite is_Some_alt. cbn.
  split; intros [Hl ->]; (split; [|done]).
  - split; [done|]. destruct Hl as [->|?]; [cbn|]; lia.
  - right. by destruct Hl.
Qed.

Lemma transaction_id_iff block i transaction txid :
  rpc_transaction_id_from_block block transaction i = Ok txid ↔
  id_in_block block i transaction = Some txid.
Proof.
  unfold rpc_transaction_id_from_block, id_in_block.
  destruct (rx_verbose_transaction_id transaction); [naive_solver|]. apply ok_or_ok.
Qed.

Lemma accepting_score_iff block s :
  rpc_block_accepting_daa_score block = Ok s ↔
  (rb_daa_score block + 1 < 2 ^ 64)%Z ∧ s = wrap 64 (rb_daa_score block + 1).
Proof.
  unfold rpc_block_accepting_daa_score. rewrite ok_or_ok. unfold checked_add.
  change (uval (wrap 64 1)) with 1%Z. case_decide; naive_solver.
Qed.

Arguments insert_spends spends cache : simpl never.

Lemma insert_spends_cons o info l cache :
  insert_spends ({| ob_spent := o; ob_info := info |} :: l) cache =
    insert_spends l (<[o := info]> cache).
Proof. done. Qed.

Lemma insert_spends_app l1 l2 cache :
  insert_spends (l1 ++ l2) cache = insert_spends l2 (insert_spends l1 cache).
Proof. apply foldl_app. Qed.

(** A cached spend was inserted or there before. *)
Lemma insert_spends_lookup l cache o info :
  insert_spends l cache !! o = Some info →
  {| ob_spent := o; ob_info := info |} ∈ l ∨ cache !! o = Some info.
Proof.
  revert cache. induction l as [|[o' i'] l IH]; intros cache; [by right|].
  rewrite insert_spends_cons.
  intros [Hin|Ho]%IH; [left; by right|]. destruct (decide (o' = o)) as [->|Hne].
  - rewrite lookup_insert_eq in Ho. injection Ho as ->. left. by left.
  - rewrite lookup_insert_ne in Ho by done. by right.
Qed.

(** A spend that is not inserted again stays. *)
Lemma insert_spends_other l cache o :
  o ∉ ob_spent <$> l → insert_spends l cache !! o = cache !! o.
Proof.
  revert cache. induction l as [|[o' i'] l IH]; intros cache Hl; [done|]. rewrite insert_spends_cons.
  cbn in Hl. rewrite not_elem_of_cons in Hl. destruct Hl as [Hne Hl]. rewrite IH by done.
  by rewrite lookup_insert_ne.
Qed.

(** Nothing that is observed is forgotten. *)
Lemma insert_spends_grows l cache o : is_Some (cache !! o) → is_Some (insert_spends l cache !! o).
Proof.
  revert cache. induction l as [|[o' i'] l IH]; intros cache Ho; [done|].
  rewrite insert_spends_cons. apply IH.
  destruct (decide (o' = o)) as [->|]; [rewrite lookup_insert_eq; by eexists|].
  by rewrite lookup_insert_ne.
Qed.

Section scans.
Context {C : Type} `{RpcApi C}.
Implicit Types self : WrpcBackend C.

Definition with_spends (l : list ObservedSpend) (c : C) self : WrpcBackend C :=
  set_cache (insert_spends l (wb_observed_spends self)) (set_client c self).

Lemma with_spends_nil self : with_spends [] (wb_client self) self = self.
Proof. by destruct self. Qed.

Lemma set_client_spends c self : set_client c self = with_spends [] c self.
Proof. by destruct self. Qed.

Lemma with_spends_twice l1 l2 c1 c2 self :
  with_spends l2 c2 (with_spends l1 c1 self) = with_spends (l1 ++ l2) c2 self.
Proof. unfold with_spends, set_cache, set_client. cbn. by rewrite insert_spends_app. Qed.

(** What ingesting a block does: it records the spends of its transactions up
    to one that can not be read. *)
Lemma observe_transactions_runs block i txs observed self :
  let run := observe_transactions block (wrap 64 (rb_daa_score block + 1)) i txs observed self in
  let all := ∀ j tx, txs !! j = Some tx → readable_transaction block (i + j) tx in
  ∃ l, run.2 = with_spends l (wb_client self) self ∧ l `prefix_of` spends_from block i txs ∧
       (all → run.1 = Ok (observed ++ spends_from block i txs) ∧ l = spends_from block i txs) ∧
       (is_ok run.1 = true → all).
Proof.
  revert i observed self. induction txs as [|tx txs IH]; intros i observed self; cbn [observe_transactions].
  { exists []. cbn. rewrite app_nil_r. split; [by rewrite with_spends_nil|]. naive_solver. }
  assert (Hstuck : ¬ readable_transaction block i tx → ∀ P : Prop,
    (∀ j t, (tx :: txs) !! j = Some t → readable_transaction block (i + j) t) → P).
  { intros Hn P Hr. destruct Hn. specialize (Hr 0%nat tx eq_refl). by rewrite Nat.add_0_r in Hr. }
  unfold reading, mbind, stateful_bind.
  destruct (rpc_transaction_id_from_block block tx i) as [txid|e] eqn:Hid.
  2:{ exists []. cbn. split; [by rewrite with_spends_nil|]. split; [apply prefix_nil|].
      split; [|done]. apply Hstuck. intros [[txid Ht] _].
      apply transaction_id_iff in Ht. congruence. }
  apply transaction_id_iff in Hid.
  pose proof (λ l, transaction_spends_iff block i tx txid l Hid) as Hsp.
  destruct (observed_spends_from_rpc_transaction txid tx _) as [spends|e].
  2:{ exists []. cbn. split; [by rewrite with_spends_nil|]. split; [apply prefix_nil|].
      split; [|done]. apply Hstuck. intros Hr. discriminate (proj2 (Hsp _) (conj Hr eq_refl)). }
  destruct (proj1 (Hsp _) eq_refl) as [Hr ->]. unfold update_cache.
  destruct (IH (S i) (observed ++ transaction_spends block i tx)
    (set_cache (insert_spends (transaction_spends block i tx) (wb_observed_spends self)) self))
    as (l & El & Hl & Hall & Hok).
  exists (transaction_spends block i tx ++ l). cbn [spends_from].
  split; [rewrite El; unfold with_spends, set_cache, set_client; cbn; by rewrite insert_spends_app|].
  split; [by apply prefix_app|]. split.
  - intros Hall'. rewrite <-app_assoc in Hall. destruct Hall as [E1 ->]; [|by rewrite <-E1].
    intros j t Hj. rewrite Nat.add_succ_comm. by apply Hall'.
  - intros Hrun [|j] t Hj; cbn in Hj.
    + injection Hj as <-. by rewrite Nat.add_0_r.
    + rewrite <-Nat.add_succ_comm. by apply Hok.
Qed.

Lemma observe_block_runs block self :
  let run := observe_rpc_block_spend_records block self in
  let fine := readable block ∧ wb_poisoned self = false in
  ∃ l, run.2 = with_spends l (wb_client self) self ∧ l `prefix_of` block_spends block ∧
       (l = [] ∨ rb_daa_score block + 1 < 2 ^ 64)%Z ∧
       (fine → run.1 = Ok (block_spends block) ∧ l = block_spends block) ∧
       (is_ok run.1 = true → fine).
Proof.
  unfold observe_rpc_block_spend_records, observed_spends_lock, reading, mbind, stateful_bind.
  destruct (rpc_block_accepting_daa_score block) as [s|e] eqn:Hs.
  2:{ exists []. cbn. split; [by rewrite with_spends_nil|]. split; [apply prefix_nil|].
      split; [by left|]. split; [|done]. intros [[Hfit _] _].
      pose proof (proj2 (accepting_score_iff block _) (conj Hfit eq_refl)); congruence. }
  apply accepting_score_iff in Hs as [Hfit ->]. destruct (wb_poisoned self) eqn:Hp.
  { exists []. rewrite fail_if_true by done. cbn. split; [by rewrite with_spends_nil|].
    split; [apply prefix_nil|]. split; [by left|]. by split; [intros [_ [=] ]|]. }
  rewrite fail_if_false by done. cbn [mbind result_bind].
  destruct (observe_transactions_runs block 0 (rb_transactions block) [] self)
    as (l & El & Hl & Hall & Hok).
  exists l. split; [done|]. split; [done|]. split; [by right|].
  split; [intros [ [_ Hr] _]; by apply Hall|]. intros Hrun. split; [|done]. split; [done|by apply Hok].
Qed.

(** The node answers for the blocks in turn. *)
Inductive fetched : C → list Bytes32 → list RpcBlock → C → Prop :=
| fetched_nil c : fetched c [] [] c
| fetched_cons c hash block c1 hashes blocks c2 :
    get_block hash true c = (Ok block, c1) → fetched c1 hashes blocks c2 →
    fetched c (hash :: hashes) (block :: blocks) c2.

Lemma fetched_app_inv c hash hashes blocks c2 :
  fetched c (hash :: hashes) blocks c2 →
  ∃ block blocks' c1, blocks = block :: blocks' ∧ get_block hash true c = (Ok block, c1) ∧
    fetched c1 hashes blocks' c2.
Proof. inversion 1; subst. naive_solver. Qed.

Definition last_score (last_daa : option u64) (blocks : list RpcBlock) : option u64 :=
  match last blocks with
  | Some block => Some (wrap 64 (rb_daa_score block + 1))
  | None => last_daa
  end.

Lemma last_score_cons d block blocks :
  last_score d (block :: blocks) = last_score (Some (wrap 64 (rb_daa_score block + 1))) blocks.
Proof. unfold last_score. rewrite last_cons. by destruct (last blocks). Qed.

(** The loop fetches a block and ingests it before it fetches the next; when it
    succeeds, that is as if it had fetched them all first. *)
Lemma scan_added_iff hashes d records self d' r self' :
  scan_added_blocks hashes d records self = (Ok (d', r), self') ↔
  ∃ blocks c, fetched (wb_client self) hashes blocks c ∧ Forall readable blocks ∧
    (blocks = [] ∨ wb_poisoned self = false) ∧
    self' = with_spends (blocks ≫= block_spends) c self ∧
    r = records ++ (blocks ≫= block_spends) ∧ d' = last_score d blocks.
Proof.
  revert d records self. induction hashes as [|hash hashes IH]; intros d records self;
    cbn [scan_added_blocks].
  { split.
    - intros [= <- <- <-]. exists [], (wb_client self). cbn. rewrite app_nil_r, with_spends_nil.
      repeat split; try done; [constructor|by left].
    - intros (blocks & c & Hf & _ & _ & -> & -> & ->). inversion Hf; subst. cbn.
      by rewrite app_nil_r, with_spends_nil. }
  unfold run_rpc, reading, mbind at 1, stateful_bind at 1.
  destruct (get_block hash true (wb_client self)) as [[block|e] c1] eqn:Hget; cbn [map_err].
  2:{ split; [done|]. intros (blocks & c & Hf & _).
      apply fetched_app_inv in Hf as (b' & bs' & c1' & _ & Hget' & _). congruence. }
  unfold mbind at 1, stateful_bind at 1.
  destruct (rpc_block_accepting_daa_score block) as [s|e] eqn:Hs.
  2:{ split; [done|]. intros (blocks & c & Hf & Hr & _).
      apply fetched_app_inv in Hf as (b' & bs' & c1' & -> & Hget' & _). rewrite Hget in Hget'.
      injection Hget' as <- <-. apply Forall_cons in Hr as [[Hfit _] _].
      pose proof (proj2 (accepting_score_iff block _) (conj Hfit eq_refl)). congruence. }
  apply accepting_score_iff in Hs as [_ ->].
  destruct (observe_block_runs block (set_client c1 self)) as (l & El & _ & _ & Hall & Hok).
  rewrite sbind_ok. split.
  - intros (a & s1 & Ha & Hrest). rewrite Ha in El, Hall, Hok. cbn [fst snd is_ok] in *.
    pose proof (Hok eq_refl) as [Hr Hp]. destruct (Hall (conj Hr Hp)) as [ [= ->] ->]. subst s1.
    apply IH in Hrest as (blocks & c & Hf & Hrs & _ & -> & -> & ->).
    exists (block :: blocks), c. cbn in *.
    rewrite set_client_spends, !with_spends_twice, <-app_assoc, last_score_cons. cbn.
    split; [by econstructor|]. split; [by constructor|]. by split; [right|].
  - intros (blocks & c & Hf & Hrs & Hp & -> & -> & ->).
    apply fetched_app_inv in Hf as (b' & bs' & c1' & -> & Hget' & Hf). rewrite Hget in Hget'.
    injection Hget' as <- <-. apply Forall_cons in Hrs as [Hr Hrs]. destruct Hp as [|Hp]; [done|].
    destruct (Hall (conj Hr Hp)) as [E1 ->].
    destruct (observe_rpc_block_spend_records block (set_client c1 self)) as [r1 s1].
    cbn [fst snd] in *. subst r1 s1. eexists _, _. split; [done|]. apply IH.
    exists bs', c. cbn. rewrite set_client_spends, !with_spends_twice, <-app_assoc, last_score_cons.
    split; [done|]. split; [done|]. by split; [right|].
Qed.

Lemma run_rpc_ok {A} (call : stateful C rpc_failure A) self a self' :
  run_rpc call self = (Ok a, self') ↔
  ∃ c, call (wb_client self) = (Ok a, c) ∧ self' = set_client c self.
Proof.
  unfold run_rpc. destruct (call (wb_client self)) as [[x|e] c]; cbn; split.
  - intros [= -> <-]. by exists c.
  - by intros (? & [= -> ->] & ->).
  - done.
  - by intros (? & ? & _).
Qed.

(** Fact: What a scan of the virtual chain reads: it succeeds exactly when the node
    answers for the chain and for each added block, every block can be read
    (its score can be counted on, each transaction has an id and an input count
    of 32 bits) and the cache is not poisoned; it then reports, block by block
    and input by input, all that the added blocks spend, leaves out the null
    outpoint, counts the reports, gives the score after the last block, and the
    cache has these spends on top of what it had. *)
Theorem live_scan_iff self start m scan self' :
  scan_virtual_chain_from_block start m self = (Ok scan, self') ↔
  ∃ response c1 blocks c2,
    get_virtual_chain_from_block start false m (wb_client self) = (Ok response, c1) ∧
    fetched c1 (vc_added_chain_block_hashes response) blocks c2 ∧
    Forall readable blocks ∧ (blocks = [] ∨ wb_poisoned self = false) ∧
    scan = {|
      ws_removed_chain_block_hashes := vc_removed_chain_block_hashes response;
      ws_added_chain_block_hashes := vc_added_chain_block_hashes response;
      ws_last_added_daa_score := last_score None blocks;
      ws_observed_spends := usize_of (length (blocks ≫= block_spends));
      ws_observed_spend_records := blocks ≫= block_spends |} ∧
    self' = with_spends (blocks ≫= block_spends) c2 self.
Proof.
  unfold scan_virtual_chain_from_block. rewrite sbind_ok. setoid_rewrite run_rpc_ok. split.
  - intros (response & s1 & (c1 & Hr & ->) & Hrest).
    apply sbind_ok in Hrest as ([d records] & s2 & Hscan & [= <- <-]).
    apply scan_added_iff in Hscan as (blocks & c2 & Hf & Hb & Hp & -> & -> & ->).
    exists response, c1, blocks, c2. cbn. by rewrite set_client_spends, with_spends_twice.
  - intros (response & c1 & blocks & c2 & Hr & Hf & Hb & Hp & -> & ->).
    exists response, (set_client c1 self). split; [by exists c1|]. rewrite sbind_ok.
    exists (last_score None blocks, blocks ≫= block_spends), (with_spends (blocks ≫= block_spends) c2 self).
    split; [|done]. apply scan_added_iff. exists blocks, c2.
    by rewrite set_client_spends, with_spends_twice.
Qed.

(** A spend a block shows that the node returned, with a score that can be
    counted on. *)
Definition shown (spend : ObservedSpend) : Prop :=
  ∃ hash c block c', get_block hash true c = (Ok block, c') ∧
    (rb_daa_score block + 1 < 2 ^ 64)%Z ∧ spend ∈ block_spends block.

(** Whatever a scan answers, the cache gains spends that were shown. *)
Definition gains self self' : Prop :=
  ∃ l c, self' = with_spends l c self ∧ Forall shown l.

Lemma gains_refl self : gains self self.
Proof. exists [], (wb_client self). by rewrite with_spends_nil. Qed.

Lemma gains_trans self1 self2 self3 : gains self1 self2 → gains self2 self3 → gains self1 self3.
Proof.
  intros (l1 & c1 & -> & H1) (l2 & c2 & -> & H2). exists (l1 ++ l2), c2.
  rewrite with_spends_twice. split; [done|]. by apply Forall_app.
Qed.

Lemma run_rpc_gains {A} (call : stateful C rpc_failure A) : moves gains (run_rpc call).
Proof.
  intros self. unfold run_rpc. destruct (call (wb_client self)) as [r c]. cbn.
  exists [], c. by rewrite set_client_spends.
Qed.

Lemma scan_added_gains hashes d records : moves gains (scan_added_blocks hashes d records).
Proof.
  revert d records. induction hashes as [|hash hashes IH]; intros d records self; [apply gains_refl|].
  cbn [scan_added_blocks]. unfold mbind at 1, stateful_bind at 1.
  pose proof (run_rpc_gains (get_block hash true) self) as Hg.
  destruct (run_rpc (get_block hash true) self) as [[block|e] s1] eqn:Hget; [|exact Hg].
  apply run_rpc_ok in Hget as (c & Hget & ->). eapply gains_trans; [exact Hg|].
  apply (moves_bind gains gains_trans); [by apply moves_reading; apply gains_refl|]. intros daa.
  apply (moves_bind gains gains_trans); [|by intros; apply IH]. intros s2.
  destruct (observe_block_runs block s2) as (l & -> & [k Hl] & Hfit & _). exists l, (wb_client s2).
  split; [done|]. destruct Hfit as [->|Hfit]; [constructor|]. apply Forall_forall. intros s Hs.
  exists hash, (wb_client self), block, c. split; [done|]. split; [done|]. rewrite Hl. set_solver.
Qed.

Lemma scan_gains start m : moves gains (scan_virtual_chain_from_block start m).
Proof.
  unfold scan_virtual_chain_from_block.
  apply (moves_bind gains gains_trans); [apply run_rpc_gains|]. intros response.
  apply (moves_bind gains gains_trans); [apply scan_added_gains|]. intros [d records].
  apply moves_ret. apply gains_refl.
Qed.

(** * What the cache holds *)

(** The backends the daemon and the synchroniser make: connected, then scanning
    and asking the node. *)
Inductive live_reachable : WrpcBackend C → Prop :=
| live_connected url network self :
    connect_borsh url network = Ok self → live_reachable self
| live_scanned self start m :
    live_reachable self → live_reachable (scan_virtual_chain_from_block start m self).2
| live_asked {A} self (call : stateful C rpc_failure A) :
    live_reachable self → live_reachable (run_rpc call self).2.

Definition cache_shown self : Prop :=
  wb_poisoned self = false ∧
  ∀ o info, wb_observed_spends self !! o = Some info → shown {| ob_spent := o; ob_info := info |}.

Lemma gains_shown self self' : gains self self' → cache_shown self → cache_shown self'.
Proof.
  intros (l & c & -> & Hl) [Hp Hc]. split; [exact Hp|]. cbn. intros o info Ho.
  apply insert_spends_lookup in Ho as [Hin|Ho]; [|by apply Hc].
  rewrite Forall_forall in Hl. by apply Hl.
Qed.

Lemma connect_borsh_empty url network self :
  connect_borsh url network = Ok self →
  wb_observed_spends self = ∅ ∧ wb_poisoned self = false ∧ wb_network self = wrpc_chain_id network.
Proof. unfold connect_borsh, connect_borsh_with_chain_id. intros Hc. by inv_ok. Qed.

Lemma live_shown self : live_reachable self → cache_shown self.
Proof.
  induction 1 as [url network self Hc|self start m _ IH|A self call _ IH].
  - apply connect_borsh_empty in Hc as (He & Hp & _). split; [done|]. rewrite He.
    intros o info Ho. by rewrite lookup_empty in Ho.
  - by eapply gains_shown; [apply scan_gains|].
  - by eapply gains_shown; [apply run_rpc_gains|].
Qed.

(** What a spend of a block says. *)
Definition spends_in (block : RpcBlock) (spend : ObservedSpend) : Prop :=
  ∃ i transaction j, rb_transactions block !! i = Some transaction ∧
    rx_inputs transaction !! j = Some (ob_spent spend) ∧ ob_spent spend ≠ outpoint_NULL ∧
    ob_info spend = {|
      sp_txid := default zero32 (id_in_block block i transaction);
      sp_input_index := wrap 32 (Z.of_nat j);
      sp_block_daa_score := Some (wrap 64 (rb_daa_score block + 1)) |}.

Lemma input_spends_elem txid daa i inputs spend :
  spend ∈ input_spends txid daa i inputs ↔
  ∃ j, inputs !! j = Some (ob_spent spend) ∧ ob_spent spend ≠ outpoint_NULL ∧
    ob_info spend = {| sp_txid := txid; sp_input_index := wrap 32 (Z.of_nat (i + j));
                       sp_block_daa_score := daa |}.
Proof.
  revert i. induction inputs as [|o inputs IH]; intros i; cbn [input_spends].
  { split; [by intros ?%elem_of_nil|]. by intros (j & Hj & _). }
  rewrite elem_of_app, IH. split.
  - intros [Hin|(j & Hj & Hn & ->)].
    + case_decide; [by apply elem_of_nil in Hin|]. apply list_elem_of_singleton in Hin as ->.
      exists 0%nat. cbn. by rewrite Nat.add_0_r.
    + exists (S j). by rewrite Nat.add_succ_r.
  - destruct spend as [o' info]. cbn. intros ([|j] & Hj & Hn & ->); cbn in Hj.
    + injection Hj as ->. left. rewrite decide_False by done. rewrite Nat.add_0_r. by left.
    + right. exists j. by rewrite Nat.add_succ_r.
Qed.

Lemma block_spends_elem block spend : spend ∈ block_spends block ↔ spends_in block spend.
Proof.
  unfold block_spends, spends_in.
  enough (∀ k txs, spend ∈ spends_from block k txs ↔ ∃ i tx j, txs !! i = Some tx ∧
    rx_inputs tx !! j = Some (ob_spent spend) ∧ ob_spent spend ≠ outpoint_NULL ∧
    ob_info spend = {| sp_txid := default zero32 (id_in_block block (k + i) tx);
      sp_input_index := wrap 32 (Z.of_nat j);
      sp_block_daa_score := Some (wrap 64 (rb_daa_score block + 1)) |}) as Hk by apply (Hk 0%nat).
  intros k txs. revert k. induction txs as [|tx txs IH]; intros k; cbn [spends_from].
  { split; [by intros ?%elem_of_nil|]. by intros (i & t & j & Hi & _). }
  rewrite elem_of_app, IH. unfold transaction_spends. rewrite input_spends_elem. split.
  - intros [(j & Hj & Hn & E)|(i & t & j & Hi & Hj & Hn & E)].
    + exists 0%nat, tx, j. by rewrite Nat.add_0_r.
    + exists (S i), t, j. by rewrite Nat.add_succ_r.
  - intros ([|i] & t & j & Hi & Hj & Hn & E); cbn in Hi.
    + injection Hi as <-. left. exists j. by rewrite Nat.add_0_r in E.
    + right. exists i, t, j. by rewrite Nat.add_succ_r in E.
Qed.

(** * The answers of the chain traits *)

Lemma bind_runs {S E A B} (m : stateful S E A) (k : A → stateful S E B) s a s' :
  m s = (Ok a, s') → (m ≫= k) s = k a s'.
Proof. unfold mbind, stateful_bind. by intros ->. Qed.

Lemma cache_ok {A} (k : gmap KaspaOutpoint SpendingInfo → stateful (WrpcBackend C) KaspaNetworkError A)
    self : wb_poisoned self = false → (observed_spends_lock ≫= k) self = k (wb_observed_spends self) self.
Proof.
  intros Hp. unfold observed_spends_lock, reading, mbind, stateful_bind.
  by rewrite Hp, fail_if_false by done.
Qed.

Lemma get_utxo_live self o :
  wb_poisoned self = false →
  get_utxo self o = Ok ((λ info, {|
    ut_outpoint := o; ut_value := wrap 64 0; ut_script_public_key := {| spk_bytes := [] |};
    ut_block_daa_score := None; ut_spending := Some info |}) <$> wb_observed_spends self !! o).
Proof.
  intros Hp. cbn [get_utxo wrpc_backend]. unfold wrpc_get_utxo, wrpc_observed_spend.
  unfold mbind at 1, stateful_bind at 1. rewrite cache_ok by done. cbn.
  by destruct (wb_observed_spends self !! o).
Qed.

Lemma observed_by_txid_runs self txid :
  wb_poisoned self = false →
  ∃ found, observed_by_txid txid self = (Ok found, self) ∧
    (∀ o info, found = Some (o, info) →
       wb_observed_spends self !! o = Some info ∧ sp_txid info = txid) ∧
    (found = None → ∀ o info, wb_observed_spends self !! o = Some info → sp_txid info ≠ txid).
Proof.
  intros Hp. unfold observed_by_txid. rewrite cache_ok by done. eexists. split; [done|].
  destruct (list_find _ _) as [[i [o' info']]|] eqn:Hf; cbn.
  - apply list_find_Some in Hf as (Hi & Ht & _). split; [|done]. intros o info [= <- <-].
    split; [|exact Ht]. apply list_elem_of_lookup_2 in Hi. unfold ordered in Hi.
    rewrite sort_by_key_perm in Hi. by apply elem_of_map_to_list in Hi.
  - split; [done|]. intros _ o info Ho. apply list_find_None in Hf. rewrite Forall_forall in Hf.
    apply (Hf (o, info)). unfold ordered. rewrite sort_by_key_perm. by apply elem_of_map_to_list.
Qed.

(** The depth of a transaction, from the entry the cache gives for it. *)
Lemma depth_live self txid :
  wb_poisoned self = false →
  (∃ o info, wb_observed_spends self !! o = Some info ∧ sp_txid info = txid ∧
     confirmation_depth self txid =
       match sp_block_daa_score info with
       | None => Ok None
       | Some s =>
           tip ← current_tip self;
           Ok (if decide (tip_daa_score tip < s)%Z then None
               else Some (wrapping_add (usub (tip_daa_score tip) s) (wrap 64 1)))
       end) ∨
  (∀ o info, wb_observed_spends self !! o = Some info → sp_txid info ≠ txid) ∧
  confirmation_depth self txid = Ok None.
Proof.
  intros Hp. destruct (observed_by_txid_runs self txid Hp) as (found & Ef & Hs & Hn).
  cbn [confirmation_depth wrpc_backend current_tip]. unfold wrpc_confirmation_depth.
  rewrite (bind_runs _ _ _ _ _ Ef). destruct found as [[o info]|].
  - left. destruct (Hs o info eq_refl) as [Ho Ht]. exists o, info. split; [done|]. split; [done|].
    destruct (sp_block_daa_score info) as [s|]; [|done].
    unfold mbind, stateful_bind. by destruct (wrpc_current_tip self) as [[tip|e] s'].
  - right. split; [by apply Hn|done].
Qed.

(** C31: The depth the live backend reports is exact: for a backend made by
    connecting, scanning and asking, the depth of a transaction is the node's
    virtual DAA score less the score of a block that the node returned and that
    lists the transaction, with no wrap-around though the code subtracts and adds
    one; and a transaction no cached spend names has none. *)
Theorem live_depth_exact self txid :
  live_reachable self →
  (∀ d, confirmation_depth self txid = Ok (Some d) →
     ∃ hash c block c' tip i transaction,
       get_block hash true c = (Ok block, c') ∧ rb_transactions block !! i = Some transaction ∧
       default zero32 (id_in_block block i transaction) = txid ∧ current_tip self = Ok tip ∧
       (rb_daa_score block < tip_daa_score tip)%Z ∧
       uval d = (tip_daa_score tip - rb_daa_score block)%Z) ∧
  ((∀ o info, wb_observed_spends self !! o = Some info → sp_txid info ≠ txid) →
     confirmation_depth self txid = Ok None).
Proof.
  intros [Hp Hc]%live_shown.
  destruct (depth_live self txid Hp) as [(o & info & Ho & Ht & ->)|[Hn E] ].
  2:{ split; [by rewrite E|done]. }
  split; [|intros Hn; by destruct (Hn o info Ho)]. intros d Hd.
  destruct (Hc o info Ho) as (hash & c & block & c' & Hget & Hfit & Hin).
  apply block_spends_elem in Hin as (i & tx & j & Hi & _ & _ & E). cbn in E. subst info.
  cbn [sp_block_daa_score sp_txid] in *. apply bind_ok in Hd as (tip & Htip & Hd).
  exists hash, c, block, c', tip, i, tx. do 4 (split; [done|]).
  pose proof (uint_range (rb_daa_score block)). pose proof (uint_range (tip_daa_score tip)).
  case_decide as Hlt; [done|]. injection Hd as <-.
  rewrite uval_wrap_small in Hlt by lia. split; [lia|].
  unfold wrapping_add. rewrite uval_wrap_small; rewrite uval_usub; rewrite uval_wrap_small;
    change (uval (wrap 64 1)) with 1%Z; lia.
Qed.

(** C34: A spend of a removed block stays: whatever chain blocks a scan reports as
    removed, a spend the cache had, and that the added blocks do not respend,
    is still the spend of its outpoint, its transaction is still known, and its
    depth still grows with the tip. *)
Theorem removed_spend_stays self start m scan self' o info s tip :
  live_reachable self →
  scan_virtual_chain_from_block start m self = (Ok scan, self') →
  wb_observed_spends self !! o = Some info →
  Forall (λ r, ob_spent r ≠ o ∧ sp_txid (ob_info r) ≠ sp_txid info) (ws_observed_spend_records scan) →
  (∀ o' i, wb_observed_spends self !! o' = Some i → sp_txid i = sp_txid info →
     sp_block_daa_score i = Some s) →
  current_tip self' = Ok tip → (s <= tip_daa_score tip)%Z →
  (∃ utxo, get_utxo self' o = Ok (Some utxo) ∧ ut_spending utxo = Some info) ∧
  get_spending_transaction self' o = Ok (Some (observed_summary (sp_txid info))) ∧
  confirmation_depth self' (sp_txid info) =
    Ok (Some (wrapping_add (usub (tip_daa_score tip) s) (wrap 64 1))).
Proof.
  intros Hl Hscan Ho Hr Hs Htip Hle. destruct (live_shown _ Hl) as [Hp _].
  apply live_scan_iff in Hscan as (resp & c1 & blocks & c2 & _ & _ & _ & _ & -> & ->).
  cbn [ws_observed_spend_records] in Hr.
  set (self' := with_spends (blocks ≫= block_spends) c2 self) in *.
  assert (Hp' : wb_poisoned self' = false) by done.
  assert (Ho' : wb_observed_spends self' !! o = Some info).
  { cbn. rewrite insert_spends_other; [done|]. rewrite list_elem_of_fmap. intros (r & -> & Hin).
    rewrite Forall_forall in Hr. by destruct (Hr r Hin) as [? _]. }
  split; [|split].
  - rewrite get_utxo_live, Ho' by done. by eexists.
  - cbn [get_spending_transaction wrpc_backend].
    unfold wrpc_get_spending_transaction, wrpc_observed_spend. unfold mbind at 1, stateful_bind at 1.
    rewrite cache_ok by done. cbn [mret stateful_ret fst]. by rewrite Ho'.
  - destruct (depth_live self' (sp_txid info) Hp') as [(o' & i & Hi & Ht & ->)|[Hn _] ].
    2:{ by destruct (Hn o info Ho'). }
    cbn in Hi. apply insert_spends_lookup in Hi as [Hin|Hi].
    { rewrite Forall_forall in Hr. by destruct (Hr _ Hin) as [_ ?]. }
    rewrite (Hs _ _ Hi Ht), Htip. cbn [mbind result_bind]. by rewrite decide_False by lia.
Qed.

(** * The resolver over a live node *)

Section resolver.
Context {I : Type} `{Indexer I, Sha256}.
Context (idx : I) (chain : KaspaChainId).

Definition not_open (state : ResolverState) : Prop := ∀ c o s, state ≠ RS_Open c o s.

(** Every way out of [m] is some other verdict than that the covenant is
    open. *)
Definition exits_closed {A} (m : early A) : Prop := ∀ state, m = Err state → not_open state.

Lemma exits_bind {A B} (m : early A) (k : A → early B) :
  exits_closed m → (∀ a, exits_closed (k a)) → exits_closed (m ≫= k).
Proof. intros Hm Hk. destruct m as [a|e]; [apply Hk|]. intros s [= <-]. by apply Hm. Qed.

Lemma exits_fail_if (P : Prop) `{Decision P} state : not_open state → exits_closed (fail_if P state).
Proof. intros Hs s Hf. apply fail_if_err in Hf as [_ ->]. exact Hs. Qed.

Lemma exits_ok_or {A} (x : option A) state : not_open state → exits_closed (ok_or x state).
Proof. intros Hs s. by destruct x; intros [= <-]. Qed.

Lemma exits_map_err {E A} (f : E → ResolverState) (m : result E A) :
  (∀ e, not_open (f e)) → exits_closed (map_err f m).
Proof. intros Hf s. destruct m; intros [= <-]. apply Hf. Qed.

Lemma settled_exits (r : RgkResolver (WrpcBackend C) I) cov sp : exits_closed (settled_depth r cov sp).
Proof.
  unfold settled_depth. apply exits_bind; [by apply exits_fail_if|]. intros _.
  apply exits_bind; [by apply exits_fail_if|]. by intros _ s [=].
Qed.

Lemma policy_exits cov sp latest : exits_closed (check_policy cov sp latest).
Proof.
  unfold check_policy. apply exits_bind; [|intros _; by apply exits_fail_if].
  case_decide; [|by intros ? [=] ]. apply exits_bind; [by apply exits_fail_if|]. intros _.
  by apply exits_map_err.
Qed.

Lemma indexed_exits (r : RgkResolver (WrpcBackend C) I) cov e :
  exits_closed (resolve_indexed_spend r cov e).
Proof.
  unfold resolve_indexed_spend. destruct (last _) as [sp|]; [|by intros ? [=] ].
  apply exits_bind.
  { intros s. unfold spent_utxo. destruct (get_utxo _ _) as [u|er]; [done|].
    by destruct (classify er); intros [= <-]. }
  intros u. destruct (u ≫= ut_spending) as [info|]; [|by intros ? [=] ].
  apply exits_bind; [apply settled_exits|]. intros d.
  apply exits_bind; [by apply exits_fail_if|]. intros _.
  apply exits_bind; [by apply exits_map_err|]. intros _.
  apply exits_bind; [apply policy_exits|]. intros _. by intros ? [= <-].
Qed.

(** A covenant of which the cache shows nothing. *)
Definition unseen self (cov : KaspaCovenantId) : Prop :=
  ∀ entry o, lookup_covenant idx cov = Some entry → ic_open_outpoint entry = Some o →
    wb_observed_spends self !! o = None ∧
    ∀ sp, last (ic_spend_history entry) = Some sp → wb_observed_spends self !! se_spent sp = None.

Lemma resolve_unseen self cov :
  wb_poisoned self = false → unseen self cov →
  let state := resolve_by_covenant (resolver_new self idx chain) cov in
  (state = RS_Unknown cov ∨ ∃ msg, state = RS_NodeDown cov msg) ∧
  (network_id self = Ok chain → state = RS_Unknown cov).
Proof.
  intros Hp Hu. cbv zeta. unfold resolve_by_covenant, check_network, returned.
  cbn [rv_backend rv_indexer rv_verifier_chain resolver_new].
  destruct (network_id self) as [net|e]; [|split; [right; by eexists|done] ].
  unfold fail_if. case_decide as Hnet; cbn [mbind result_bind].
  { split; [right; by eexists|]. intros [= ->]. by destruct Hnet. }
  enough (match (_ : early ResolverState) with Ok s | Err s => s end = RS_Unknown cov) as ->
    by (split; [by left|done]).
  destruct (lookup_covenant idx cov) as [entry|] eqn:Hcov; [|done]. cbn [ok_or mbind result_bind].
  destruct (ic_open_outpoint entry) as [o|] eqn:Hopen; [|done]. cbn [ok_or mbind result_bind].
  destruct (Hu entry o Hcov Hopen) as [Ho Hlast].
  unfold resolve_indexed_spend, open_utxo, spent_utxo. cbn [rv_backend resolver_new].
  rewrite (get_utxo_live self o), Ho by done.
  destruct (last (ic_spend_history entry)) as [sp|]; [|done].
  by rewrite get_utxo_live, (Hlast sp) by done.
Qed.

(** C32: Over the live backend the resolver never reports a covenant as open,
    because that backend answers only for outpoints it saw spent, where its trait
    says that an unspent output is to be answered too; and it knows nothing of a
    covenant whose open outpoint and whose latest spent outpoint are not in its
    cache. *)
Theorem live_resolver_never_open self cov :
  wb_poisoned self = false →
  not_open (resolve_by_covenant (resolver_new self idx chain) cov) ∧
  (unseen self cov → network_id self = Ok chain →
   resolve_by_covenant (resolver_new self idx chain) cov = RS_Unknown cov).
Proof.
  intros Hp. split.
  - enough (∀ m : early ResolverState, exits_closed m → (∀ s, m = Ok s → not_open s) →
      not_open (returned m)) as Hout.
    { apply Hout.
      - apply exits_bind; [unfold check_network; destruct (network_id _);
          [by apply exits_fail_if|by intros ? [= <-] ]|]. intros _.
        do 2 (apply exits_bind; [by apply exits_ok_or|]; intros ?).
        apply exits_bind; [apply indexed_exits|]. intros _.
        apply exits_bind.
        { intros s. unfold open_utxo. destruct (get_utxo _ _) as [[u|]|er]; [done|by intros [= <-]|].
          by destruct (classify er); intros [= <-]. }
        intros u. destruct (ut_spending u); [|by intros ? [=] ]. unfold resolve_open_spent.
        apply exits_bind; [apply settled_exits|]. intros d.
        do 3 (apply exits_bind; [by apply exits_ok_or|]; intros ?). by intros ? [=].
      - intros s Hs. inv_ok. unfold open_utxo in *. cbn [rv_backend resolver_new] in *.
        rewrite get_utxo_live in * by done.
        destruct (wb_observed_spends self !! _) as [info|]; cbn [fmap option_fmap option_map] in *; [|done].
        inv_ok. cbn [ut_spending] in *. unfold resolve_open_spent in *. by inv_ok. }
    intros m He Ho. destruct m; [by apply Ho|by apply He].
  - intros Hu Hnet. by apply resolve_unseen.
Qed.
End resolver.
End scans.

(** * The synchroniser over a live node *)

(** What the node documents: the virtual chain from a block, when nothing is
    removed, is what follows that block, the block of a hash is the same
    whenever it is asked for, and the sink is a block of the chain. *)
Class NodeChain (C : Type) `{RpcApi C} (chain : list (Bytes32 * RpcBlock)) := {
  node_scan_law (c : C) start m response c' :
    get_virtual_chain_from_block start false m c = (Ok response, c') →
    vc_removed_chain_block_hashes response = [] →
    ∃ pre mid post, chain = pre ++ mid ++ post ∧ fst <$> last pre = Some start ∧
      vc_added_chain_block_hashes response = mid.*1;
  node_block_law (c : C) hash block c' b :
    get_block hash true c = (Ok block, c') → (hash, b) ∈ chain → block = b;
  node_tip_law (c : C) dag c' :
    get_block_dag_info c = (Ok dag, c') →
    ∃ pre post, chain = pre ++ post ∧ fst <$> last pre = Some (dag_sink dag)
}.

(** A block of the node as the scanner reports it. *)
Definition scanned_block (entry : Bytes32 * RpcBlock) : ChainBlock :=
  {| cb_hash := entry.1; cb_daa_score := wrap 64 (rb_daa_score entry.2 + 1);
     cb_spends := spend_record <$> block_spends entry.2 |}.

Lemma scanned_hashes l : cb_hash <$> (scanned_block <$> l) = l.*1.
Proof. by rewrite <-list_fmap_compose. Qed.

Lemma scanned_spends l : spends (scanned_block <$> l) = spend_record <$> (l.*2 ≫= block_spends).
Proof.
  induction l as [|e l IH]; [done|]. unfold spends in *. cbn. rewrite fmap_app. by f_equal.
Qed.

Section live_sync.
Context {C S : Type} `{RpcApi C} `{ScanStoreLaws S}.
Context (chain : list (Bytes32 * RpcBlock)) `{!NodeChain C chain}.

Lemma fetched_blocks (c : C) hashes blocks c' mid :
  fetched c hashes blocks c' → hashes = mid.*1 → (∀ e, e ∈ mid → e ∈ chain) → blocks = mid.*2.
Proof.
  intros Hf. revert mid. induction Hf as [c|c h b c1 hs bs c2 Hget _ IH]; intros mid E Hin.
  - by destruct mid.
  - destruct mid as [|[h' b'] mid]; [done|]. cbn in *. injection E as -> ->. f_equal.
    + eapply node_block_law; [exact Hget|]. apply Hin. by left.
    + apply IH; [done|]. intros e He. apply Hin. by right.
Qed.

#[export] Instance wrpc_chain_feed : ChainFeed (WrpcBackend C) (scanned_block <$> chain).
Proof.
  split.
  - intros b cursor m batch b' Hscan Hrem. cbn in Hscan. apply sbind_ok in Hscan as (scan & s1 & Hs & [= <- <-]).
    unfold chain_err in Hs. destruct (scan_virtual_chain_from_block _ m b) as [[scan'|e] s2] eqn:E; [|done].
    cbn in Hs. injection Hs as -> <-.
    apply live_scan_iff in E as (resp & c1 & blocks & c2 & Hv & Hf & _ & _ & -> & _).
    cbn in Hrem |- *. destruct (node_scan_law _ _ _ _ _ Hv Hrem) as (pre & mid & post & Ec & Hh & Ea).
    exists (scanned_block <$> pre), (scanned_block <$> mid), (scanned_block <$> post).
    rewrite fmap_last, scanned_hashes, scanned_spends. split; [by rewrite Ec, !fmap_app|].
    split; [by destruct (last pre)|]. split; [done|]. do 2 f_equal.
    eapply fetched_blocks; [exact Hf|done|]. intros e He. rewrite Ec. set_solver.
  - intros b id cursor b' Hcur. cbn in Hcur. apply sbind_ok in Hcur as (tip & s1 & Ht & [= <- <-]).
    unfold chain_err in Ht. destruct (wrpc_current_tip b) as [[tip'|e] s2] eqn:E; [|done].
    cbn in Ht. injection Ht as -> <-. apply sbind_ok in E as (dag & s3 & Hd & [= <- <-]).
    apply run_rpc_ok in Hd as (c & Hd & ->). cbn.
    destruct (node_tip_law _ _ _ Hd) as (pre & post & Ec & Hh).
    exists (scanned_block <$> pre), (scanned_block <$> post). rewrite Ec, fmap_app, fmap_last.
    split; [done|]. by destruct (last pre).
Qed.

(** The stored cursor is behind the first [n] blocks of the chain. *)
Definition cursor_behind config (s : S) (n : nat) : Prop :=
  cursor_at config (scanned_block <$> chain) s (scanned_block <$> take n chain).

Lemma behind_extends config s n seg :
  cursor_at config (scanned_block <$> chain) s ((scanned_block <$> take n chain) ++ seg) →
  cursor_behind config s (n + length seg) ∧
  ∀ k e, n <= k < n + length seg → chain !! k = Some e → scanned_block e ∈ seg.
Proof.
  intros Hc. pose proof Hc as [[post E] _]. rewrite fmap_take in E.
  assert (scanned_block <$> take (n + length seg) chain = (scanned_block <$> take n chain) ++ seg) as Et.
  { rewrite !fmap_take. pose proof (length_fmap scanned_block chain) as Hlen.
    destruct (decide (n <= length chain)) as [Hn|Hn].
    - rewrite E at 1. apply take_app_length'. rewrite length_app, length_take. lia.
    - rewrite (take_ge _ n) in E |- * by lia. apply (f_equal length) in E.
      rewrite !length_app in E. destruct seg; [|cbn in E; lia]. rewrite app_nil_r. apply take_ge. lia. }
  split; [unfold cursor_behind; by rewrite Et|]. intros k e [Hk1 Hk2] He.
  assert ((scanned_block <$> take (n + length seg) chain) !! k = Some (scanned_block e)) as Hl.
  { by rewrite list_lookup_fmap, lookup_take_lt, He by lia. }
  rewrite Et, lookup_app_r in Hl by (rewrite length_fmap, length_take; lia).
  by apply list_elem_of_lookup_2 in Hl.
Qed.

(** Every input of every transaction of the blocks from [n] to [n'], except the
    null outpoint, is recorded. *)
Definition inputs_recorded (s : S) (n n' : nat) : Prop :=
  ∀ k hash block i transaction j spent,
    n <= k < n' → chain !! k = Some (hash, block) → rb_transactions block !! i = Some transaction →
    rx_inputs transaction !! j = Some spent → spent ≠ outpoint_NULL →
    observed_spend s spent = Ok (Some {|
      os_spent := spent;
      os_spending_txid := default zero32 (id_in_block block i transaction);
      os_input_index := wrap 32 (Z.of_nat j);
      os_block_daa_score := Some (wrap 64 (rb_daa_score block + 1)) |}).

(** Fact: Whatever ticks succeed or fail and however often the service restarts
    with another backend, the cursor only moves forward along the chain and what
    the blocks behind it spend is recorded. *)
Theorem live_service_records config (b b' : WrpcBackend C) (s s' : S) n :
  NoDup chain.*1 → NoDup (ob_spent <$> (chain.*2 ≫= block_spends)) →
  cursor_behind config s n → service_run config (b, s) (b', s') →
  ∃ n', n <= n' ∧ cursor_behind config s' n' ∧ inputs_recorded s' n n'.
Proof.
  intros Hb Hs Hc Hrun.
  destruct (scan_never_skips_a_spend config (scanned_block <$> chain) ltac:(by rewrite scanned_hashes)
    ltac:(by rewrite scanned_spends, <-list_fmap_compose) b s b' s' _ Hc Hrun) as (seg & Hc' & Hall).
  exists (n + length seg). destruct (behind_extends _ _ _ _ Hc') as [Hn Hin].
  split; [lia|]. split; [done|]. intros k hash block i tx j spent Hk He Hi Hj Hne.
  set (spend := {| ob_spent := spent; ob_info := {|
    sp_txid := default zero32 (id_in_block block i tx); sp_input_index := wrap 32 (Z.of_nat j);
    sp_block_daa_score := Some (wrap 64 (rb_daa_score block + 1)) |} |}).
  unfold all_recorded in Hall. rewrite Forall_forall in Hall.
  apply (Hall (spend_record spend)). apply list_elem_of_bind.
  exists (scanned_block (hash, block)). split; [|by apply (Hin k)]. cbn.
  apply list_elem_of_fmap_2. apply block_spends_elem. by exists i, tx, j.
Qed.

Lemma run_tick_ticks config turn w w1 r w2 :
  rtc (ticked (B := WrpcBackend C) (C := S) config) w w1 → run_tick config turn w1 = (r, w2) →
  rtc (ticked config) w w2.
Proof.
  unfold run_tick. intros Hw Ht. destruct (tick config w1) as [r' w'] eqn:E.
  injection Ht as _ <-. eapply rtc_r; [exact Hw|]. unfold ticked. by rewrite E.
Qed.

Lemma run_forever_ticks config poll_ms turns w w1 :
  rtc (ticked (B := WrpcBackend C) (C := S) config) w w1 →
  rtc (ticked config) w (run_forever config poll_ms turns w1).2.
Proof.
  revert w1. induction turns as [|turn turns IH]; intros w1 Hw; [done|]. cbn [run_forever].
  destruct (run_tick config turn w1) as [r w2] eqn:E. pose proof (run_tick_ticks _ _ _ _ _ _ Hw E) as Hw2.
  destruct r as [t|e]; [|done]. destruct (turn_wait _ _); [done|]. specialize (IH w2 Hw2).
  by destruct (run_forever config poll_ms turns w2) as [[lines ended] w3].
Qed.

Lemma run_loop_ticks config fuel max_idle summary idle w w1 r w2 :
  rtc (ticked (B := WrpcBackend C) (C := S) config) w w1 →
  run_loop config fuel max_idle summary idle w1 = Some (r, w2) → rtc (ticked config) w w2.
Proof.
  revert summary idle w1. induction fuel as [|fuel IH]; intros summary idle w1 Hw E; [done|].
  cbn [run_loop] in E. destruct (tick config w1) as [res w'] eqn:Et.
  assert (rtc (ticked config) w w') by (eapply rtc_r; [exact Hw|]; unfold ticked; by rewrite Et).
  destruct res as [t|e]; [|by injection E as _ <-].
  case_decide; [by injection E as _ <-|by eapply IH].
Qed.

(** The program ticks, from the backend it connected to and the store it opened. *)
Lemma sync_run_ticks cli (s : S) fuel turn turns lines ended w' :
  sync_run (C := C) cli (Ok s) fuel turn turns = (lines, ended, Some w') →
  ∃ b, rtc (ticked (sync_scan_config cli (to_wrpc_network (cli_network cli)))) (b, s) w'.
Proof.
  unfold sync_run. set (config := sync_scan_config _ _). intros Hrun.
  destruct (connect_borsh _ _) as [b|e]; [|done]. cbn [map_err mbind result_bind] in Hrun.
  exists b. destruct (cli_mode cli).
  - destruct (run_tick config turn (b, s)) as [r w] eqn:E.
    apply run_tick_ticks with (w := (b, s)) in E; [|constructor].
    by destruct r; injection Hrun as _ _ ->.
  - pose proof (run_forever_ticks config (cli_poll_ms cli) (turn :: turns) (b, s) (b, s)
      ltac:(constructor)) as Hf.
    destruct (run_forever config _ _ _) as [[l e] w]. injection Hrun as _ _ ->. exact Hf.
  - unfold run_idle, run_until_idle in Hrun.
    destruct (run_loop _ _ _ _ _ _) as [[r w]|] eqn:E; [|done].
    apply run_loop_ticks with (w := (b, s)) in E; [|constructor]. cbn in Hrun.
    destruct r; cbn in Hrun; [destruct (turn_flush turn); cbn in Hrun|]; by injection Hrun as _ _ ->.
Qed.

(** Of the ticks from [w] to [w'], the first one that succeeds started the
    cursor, behind the first [n] blocks. *)
Definition cursor_started config (w w' : WrpcBackend C * S) (n : nat) : Prop :=
  ∃ w0 t w1, rtc (ticked config) w w0 ∧ w0.2 = w.2 ∧ tick config w0 = (Ok t, w1) ∧
    tk_initialised_cursor t = true ∧ cursor_behind config w1.2 n ∧ rtc (ticked config) w1 w'.

Lemma cursor_at_behind config (s : S) pre :
  cursor_at config (scanned_block <$> chain) s pre → cursor_behind config s (length pre).
Proof.
  intros Hc. pose proof Hc as [[post E] _]. unfold cursor_behind.
  by replace (scanned_block <$> take (length pre) chain) with pre
    by (by rewrite fmap_take, E, take_app_length).
Qed.

(** C14: What the scanner program leaves in its database, over a node whose chain
    has distinct blocks and spends, in whichever mode it runs, however its ticks,
    flushes and waits go and however it ends.  From a database whose cursor is
    behind the first [n] blocks, the cursor only moves forward along the chain, to
    behind [n'] of them, and every input of every transaction of the blocks between
    the two cursors, except the null outpoint, is recorded under that transaction's
    id, with its position and the score after the block.  A database without a
    cursor is either left as it was, or its first tick that succeeds starts the
    cursor at some block of the chain, and the inputs from there on are recorded;
    those of the blocks before are not scanned. *)
Theorem sync_program_records_inputs cli (s s' : S) fuel turn turns lines ended
    (b' : WrpcBackend C) :
  NoDup chain.*1 → NoDup (ob_spent <$> (chain.*2 ≫= block_spends)) →
  let config := sync_scan_config cli (to_wrpc_network (cli_network cli)) in
  sync_run cli (Ok s) fuel turn turns = (lines, ended, Some (b', s')) →
  (∀ n, cursor_behind config s n →
    ∃ n', n <= n' ∧ cursor_behind config s' n' ∧ inputs_recorded s' n n') ∧
  (load_scan_cursor s (cf_cursor_name config) = Ok None → s' = s ∨
    ∃ b n n', cursor_started config (b, s) (b', s') n ∧
      n <= n' ∧ cursor_behind config s' n' ∧ inputs_recorded s' n n').
Proof.
  intros Hb Hs config [b Hrun]%sync_run_ticks. split.
  - intros n Hc. apply (live_service_records config b b' s s' n); [done..|]. by apply ticks_service.
  - intros Hnone. destruct (first_tick config (scanned_block <$> chain) (b, s) (b', s') Hnone Hrun)
      as [E|(w0 & t & [b1 s1] & pre & Hw0 & E0 & Et & Hi & Hc & Hw1)]; [by left|right].
    apply cursor_at_behind in Hc. cbn in Hc.
    destruct (live_service_records config b1 b' s1 s' (length pre)) as (n' & Hn); [done..| |].
    { by apply ticks_service. }
    exists b, (length pre), n'. split; [|done]. by exists w0, t, (b1, s1).
Qed.
End live_sync.

(** A tick that observes nothing leaves the cache as it was. *)
Lemma idle_tick_cache {C S : Type} `{RpcApi C} `{ScanStoreLaws S} config (b b' : WrpcBackend C)
    (s s' : S) t :
  tick config (b, s) = (Ok t, (b', s')) → uval (tk_observed_spends t) = 0%Z →
  wb_observed_spends b' = wb_observed_spends b ∧ wb_poisoned b' = wb_poisoned b.
Proof.
  intros Ht H0'. apply tick_has_effect in Ht.
  inversion Ht as [|cursor b1 c1 t1 _ Hcur _ _ _| |start batch b1 c1 c2 t1 _ Hscan Hc _ _ _ _ _ Hobs]; subst.
  - cbn in Hcur. apply sbind_ok in Hcur as (tip & s1 & Hm & [= _ <-]). unfold chain_err in Hm.
    destruct (wrpc_current_tip b) as [[x|e] s2] eqn:E; cbn in Hm; [|done]. injection Hm as -> <-.
    apply sbind_ok in E as (dag & s3 & Hd & [= _ <-]). by apply run_rpc_ok in Hd as (c & _ & ->).
  - cbn in Hscan. apply sbind_ok in Hscan as (scan & s1 & Hm & [= <- <-]). unfold chain_err in Hm.
    destruct (scan_virtual_chain_from_block _ _ b) as [[x|e] s2] eqn:E; cbn in Hm; [|done].
    injection Hm as -> <-. apply live_scan_iff in E as (resp & c1' & blocks & c2' & _ & _ & _ & _ & -> & ->).
    unfold check_batch in Hc. cbn in Hc, Hobs. inv_ok.
    rewrite Hobs in H0'. unfold usize_of in H0'. rewrite uval_wrap in H0'. rewrite H0', length_fmap in Hc. cbn.
    by destruct (blocks ≫= block_spends).
Qed.
