(* ===== verification/WrpcSamples.v ===== *)
(** A node over a fixed list of blocks, which meets the promises the theorems of
    the live backend ask of it, and their witnesses. *)

From stdpp Require Import base list strings gmap.
From Stdlib Require Import ZArith Lia Strings.Byte.
From S2P Require Import Prelude.
From S2P Require Import Bytes.
From S2P Require Import Encoding.
From S2P Require Import Types.
From S2P Require Import Commit.
From S2P Require Import CoreSamples.
From S2P Require Import IndexerTypes.
From S2P Require Import Indexer.
From S2P Require Import IndexerCorrect.
From S2P Require Import Rebuild.
From S2P Require Import Kaspa.
From S2P Require Import Sync.
From S2P Require Import SyncCorrect.
From S2P Require Import Resolver.
From S2P Require Import ResolverSamples.
From S2P Require Import Wrpc.
From S2P Require Import WrpcCorrect.

Open Scope list_scope.

#[local] Instance sample_sha256 : Sha256 := toy_sha256.

(** * A node over a list of blocks *)

Definition node_block (daa : Z) (transactions : list RpcTransaction) : RpcBlock :=
  {| rb_daa_score := n64 daa; rb_transactions := transactions;
     rb_verbose_transaction_ids := Some [b32 60; b32 61] |}.

(** Block 2 spends the outpoint 1 under an id of its own, a null outpoint, and
    the outpoint 4 under the id the block lists. *)
Definition first_entry : Bytes32 * RpcBlock := (b32 1, node_block 10 []).
Definition second_entry : Bytes32 * RpcBlock :=
  (b32 2, node_block 11
    [{| rx_inputs := [outpoint_NULL; sample_outpoint 1];
        rx_verbose_transaction_id := Some (b32 50) |};
     {| rx_inputs := [sample_outpoint 4]; rx_verbose_transaction_id := None |}]).
Definition sample_entries : list (Bytes32 * RpcBlock) := [first_entry; second_entry].

(** A block of another branch, which replaces block 2. *)
Definition other_entry : Bytes32 * RpcBlock := (b32 3, node_block 11 []).

Definition entry_of (hash : Bytes32) : option (Bytes32 * RpcBlock) :=
  snd <$> list_find (λ e, e.1 = hash) (sample_entries ++ [other_entry]).

(** From block 1 the node adds block 2; from block 2 it goes over to block 3. *)
Definition sample_virtual_chain (start : Bytes32) : result rpc_failure RpcVirtualChain :=
  if decide (start = b32 1) then
    Ok {| vc_removed_chain_block_hashes := []; vc_added_chain_block_hashes := [b32 2] |}
  else if decide (start = b32 2) then
    Ok {| vc_removed_chain_block_hashes := [b32 2]; vc_added_chain_block_hashes := [b32 3] |}
  else Err (CallFailed "unknown block").

#[export] Instance sample_node : RpcApi unit := {|
  Address := string;
  address_try_from := Ok;
  client_new _ _ := Ok tt;
  client_connect _ _ := Ok tt;
  get_server_info := mret tt;
  get_block_dag_info := mret {| dag_sink := b32 2; dag_block_count := n64 2;
                                dag_virtual_daa_score := n64 40 |};
  get_virtual_chain_from_block start _ _ := reading (λ _, sample_virtual_chain start);
  get_block hash _ := reading (λ _, ok_or (snd <$> entry_of hash) (CallFailed "unknown block"));
  get_balance_by_address _ := mret (n64 7);
  client_submit_transaction _ _ := reading (λ _, Err (CallFailed "read only"))
|}.

Lemma sample_hashes_distinct : NoDup sample_entries.*1.
Proof. apply (bool_decide_unpack _). by vm_compute. Qed.

#[export] Instance sample_node_chain : NodeChain unit sample_entries.
Proof.
  split.
  - intros c start m response c' E Hrem. apply (inj2 pair) in E as [E _].
    unfold sample_virtual_chain in E. repeat case_decide; [|by injection E as <-|done].
    injection E as <-. subst start. by exists [first_entry], [second_entry], [].
  - intros c hash block c' b E Hin. apply (inj2 pair) in E as [E _]. apply ok_or_ok in E.
    repeat (apply elem_of_cons in Hin as [Hin|Hin]; [injection Hin as -> ->|]); [..|by apply elem_of_nil in Hin];
      apply (inj Some); rewrite <-E; by vm_compute.
  - intros c dag c' E. injection E as <- _. exists sample_entries, []. by rewrite app_nil_r.
Qed.

(** * Witnesses *)

Definition connected : WrpcBackend unit := wrpc_new tt KaspaLocalToccata.

(** After a scan from block 1. *)
Definition scanned : WrpcBackend unit := (scan_virtual_chain_from_block (b32 1) None connected).2.

Lemma scanned_reachable : live_reachable scanned.
Proof. apply live_scanned. by apply (live_connected "ws://node"%string WN_LocalToccata). Qed.

Example scan_reports :
  (λ s, (ob_spent <$> ws_observed_spend_records s, ws_last_added_daa_score s)) <$>
    to_option (scan_virtual_chain_from_block (b32 1) None connected).1 =
  Some ([sample_outpoint 1; sample_outpoint 4], Some (n64 12)).
Proof. by vm_compute. Qed.

Lemma live_depth_exact_witness :
  confirmation_depth scanned (b32 50) = Ok (Some (n64 29)) ∧
  ∃ block tip i transaction, current_tip scanned = Ok tip ∧
    rb_transactions block !! i = Some transaction ∧
    default zero32 (id_in_block block i transaction) = b32 50 ∧
    uval (n64 29) = (tip_daa_score tip - rb_daa_score block)%Z.
Proof.
  assert (E : confirmation_depth scanned (b32 50) = Ok (Some (n64 29))) by (by vm_compute).
  destruct (live_depth_exact scanned (b32 50) scanned_reachable) as [Hd _].
  destruct (Hd _ E) as (_ & _ & block & _ & tip & i & transaction & _ & Hi & Ht & Htip & _ & Hv).
  split; [exact E|]. exists block, tip, i, transaction. exact (conj Htip (conj Hi (conj Ht Hv))).
Defined.

(** The next scan, from block 2, which the node has left. *)
Definition reorged := scan_virtual_chain_from_block (b32 2) None scanned.

Lemma answered_ok {E A S} (p : result E A * S) : is_ok p.1 = true → ∃ a, p = (Ok a, p.2).
Proof. destruct p as [[a|e] s]; [|done]. by exists a. Qed.

Lemma scanned_spend :
  wb_observed_spends scanned !! sample_outpoint 1 =
    Some {| sp_txid := b32 50; sp_input_index := n32 1; sp_block_daa_score := Some (n64 12) |}.
Proof. by vm_compute. Qed.

Lemma scanned_scores o i :
  wb_observed_spends scanned !! o = Some i → sp_txid i = b32 50 → sp_block_daa_score i = Some (n64 12).
Proof.
  intros Hi. apply elem_of_map_to_list in Hi. revert Hi.
  assert (Forall (λ x, sp_txid x.2 = b32 50 → sp_block_daa_score x.2 = Some (n64 12))
    (map_to_list (wb_observed_spends scanned))) as Hall
    by (apply (bool_decide_unpack _); by vm_compute).
  rewrite Forall_forall in Hall. intros Hi. by apply (Hall (o, i)).
Qed.

Lemma reorged_records :
  ws_observed_spend_records <$> to_option reorged.1 = Some [].
Proof. by vm_compute. Qed.

Lemma reorged_tip : tip_daa_score <$> to_option (current_tip reorged.2) = Some (n64 40).
Proof. by vm_compute. Qed.

Lemma removed_spend_stays_witness :
  ws_removed_chain_block_hashes <$> to_option reorged.1 = Some [b32 2] ∧
  confirmation_depth reorged.2 (b32 50) = Ok (Some (n64 29)).
Proof.
  split; [by vm_compute|].
  destruct (answered_ok reorged) as [scan E]; [by vm_compute|].
  pose proof reorged_records as Hr. rewrite E in Hr. injection Hr as Hr.
  pose proof reorged_tip as Ht. destruct (current_tip reorged.2) as [tip|e] eqn:Etip; [|done].
  injection Ht as Ht.
  destruct (removed_spend_stays scanned (b32 2) None scan reorged.2 (sample_outpoint 1) _ (n64 12) tip
    scanned_reachable E scanned_spend) as (_ & _ & Hd).
  - rewrite Hr. constructor.
  - exact scanned_scores.
  - exact Etip.
  - apply Z.leb_le. rewrite Ht. by vm_compute.
  - etransitivity; [exact Hd|]. rewrite Ht. by vm_compute.
Defined.

(** A covenant that is open in the index, over a node that has just been
    connected. *)
Lemma live_resolver_never_open_witness :
  let index := exec_all in_memory_new [sample_open] in
  is_Some (lookup_covenant index (b32 21)) ∧
  resolve_by_covenant (resolver_new connected index KaspaLocalToccata) (b32 21) = RS_Unknown (b32 21).
Proof.
  intros index. split; [vm_compute; by eexists|].
  destruct (live_resolver_never_open index KaspaLocalToccata connected (b32 21) eq_refl) as [_ Hu].
  apply Hu; [|reflexivity]. intros e o _ _. split; [reflexivity|]. by intros.
Defined.

(** * The scanner program *)

Definition sample_cli : Cli :=
  {| cli_url := "ws://node"; cli_network := SY_LocalToccata; cli_db := "sync.db";
     cli_cursor_name := None; cli_min_confirmations := None; cli_mode := ModeForever;
     cli_max_idle_ticks := n32 1; cli_poll_ms := n64 1000 |}.

Definition sync_store : InMemoryIndexer :=
  im_set_cursors in_memory_new {[ DEFAULT_SCAN_CURSOR := {|
    cu_chain_id := KaspaLocalToccata; cu_block_hash := b32 1; cu_daa_score := n64 11 |} ]}.

(** A turn after which the delay runs out. *)
Definition quiet_turn : Turn := {| turn_flush := Ok (); turn_wait := λ _, None |}.

(** Two turns: one block, then the node goes over to another branch. *)
Definition sample_run := sync_run (C := unit) sample_cli (Ok sync_store) 0 quiet_turn [quiet_turn].

Example sample_run_prints :
  sample_run.1 =
    (["tick initialised=false added_chain_blocks=1 observed_spends=2 start_daa=11 end_daa=12 end_hash_prefix=0200000000000000"%string],
     Some (Err (CE_Sync (SE_Reorg [b32 2])))).
Proof. apply (bool_decide_unpack _). by vm_compute. Qed.

(** On an empty database the first tick sets the cursor at the tip. *)
Example fresh_run_prints :
  (sync_run (C := unit) sample_cli (Ok in_memory_new) 0 quiet_turn [quiet_turn]).1.1 =
    ["tick initialised=true added_chain_blocks=0 observed_spends=0 start_daa=40 end_daa=40 end_hash_prefix=0200000000000000"%string].
Proof. apply (bool_decide_unpack _). by vm_compute. Qed.

Definition sample_end : WrpcBackend unit * InMemoryIndexer :=
  default (connected, sync_store) sample_run.2.

Lemma sync_program_records_inputs_witness :
  observed_spend sample_end.2 (sample_outpoint 4) =
    Ok (Some {| os_spent := sample_outpoint 4; os_spending_txid := b32 61; os_input_index := n32 0;
                os_block_daa_score := Some (n64 12) |}).
Proof.
  assert (E : sample_run = (sample_run.1.1, sample_run.1.2, Some (sample_end.1, sample_end.2))).
  { assert (Hs : is_Some sample_run.2) by (apply (bool_decide_unpack _); by vm_compute).
    unfold sample_end. destruct sample_run as [[l e] [[b s]|]]; [done|by destruct Hs]. }
  destruct (sync_program_records_inputs sample_entries sample_cli sync_store sample_end.2 0 quiet_turn
    [quiet_turn] sample_run.1.1 sample_run.1.2 sample_end.1 sample_hashes_distinct)
    as [Hkept _]; [|exact E|].
  { apply (bool_decide_unpack _). by vm_compute. }
  destruct (Hkept 1) as (n & Hn & Hc & Hall).
  - split; [by exists [scanned_block second_entry]|]. eexists. split; [by vm_compute|].
    by vm_compute.
  - assert (Hs : (λ c, cu_block_hash <$> c) <$>
      to_option (load_scan_cursor sample_end.2 DEFAULT_SCAN_CURSOR)
      = Some (Some (b32 2))) by (apply (bool_decide_unpack _); by vm_compute).
    destruct Hc as [_ (cursor & Hload & Hlast)].
    change (load_scan_cursor sample_end.2 DEFAULT_SCAN_CURSOR = Ok (Some cursor)) in Hload.
    rewrite Hload in Hs. cbn in Hs. injection Hs as Hs. rewrite Hs in Hlast.
    destruct (decide (n = 1%nat)) as [->|Hn1]; [by vm_compute in Hlast|].
    exact (Hall 1%nat (b32 2) _ 1%nat _ 0%nat (sample_outpoint 4) ltac:(lia) eq_refl eq_refl eq_refl
      ltac:(apply (bool_decide_unpack _); by vm_compute)).
Defined.
