(* ===== verification/Covenant.v ===== *)
(** Covenant state and advanced covenant flows:
    src/crates/rgk-covenant/src/lib.rs, down to [compute_lineage_id].

    The state object of a covenant UTXO and its 148-byte payload, the policy
    shapes of the advanced flows, the evidence that executes one, the execution
    record and the commitments over them. *)

From stdpp Require Import base list strings pretty gmap.
From Stdlib Require Import ZArith Lia Strings.Byte.
From S2P Require Import Prelude.
From S2P Require Import Bytes.
From S2P Require Import Encoding.
From S2P Require Import Types.
From S2P Require Import Records.
From S2P Require Import Commit.
From S2P Require Import Hex.

Open Scope string_scope.

(** [b"rgk:kov:0\0\0\0"] and [b"rgk:ace:0\0\0\0"] *)
Definition COVENANT_STATE_TAG : bytes 12 :=
  to_array 12 [x72; x67; x6b; x3a; x6b; x6f; x76; x3a; x30; x00; x00; x00].
Definition ADVANCED_COVENANT_EXECUTION_RECORD_TAG : bytes 12 :=
  to_array 12 [x72; x67; x6b; x3a; x61; x63; x65; x3a; x30; x00; x00; x00].

(** * Flows and errors *)

Inductive AdvancedCovenantFlow : Type :=
| PaymentGatedTransfer
| EscrowRelease
| VaultTimelockRelease
| AtomicSwap
| CovenantOwnedAsset
| PolicyUpgrade
| ControlledTermination.
#[export] Instance AdvancedCovenantFlow_eq_dec : EqDecision AdvancedCovenantFlow.
Proof. solve_decision. Defined.

Inductive CovenantError : Type :=
| CE_Decode (msg : string)
| CE_PayloadTooLong (got max : Z)
| CE_LineageMismatch (expected actual : Bytes32)
| CE_MigrationNotAllowed
| CE_AssetMismatch (expected actual : Bytes32)
| CE_PolicyModeMismatch (policy : ReceiptPolicy) (mode : ProofMode)
| CE_Invariant (msg : string)
| CE_ScriptBuild (msg : string)
| CE_ZeroAdvancedCovenantField (field : string)
| CE_MissingAdvancedCovenantField (flow : AdvancedCovenantFlow) (field : string)
| CE_AdvancedCovenantExecutionMismatch (flow : AdvancedCovenantFlow) (field : string)
| CE_AdvancedCovenantPaymentTooSmall (flow : AdvancedCovenantFlow) (required actual : u64)
| CE_AdvancedCovenantDaaTooEarly (flow : AdvancedCovenantFlow) (required actual : u64).
#[export] Instance CovenantError_eq_dec : EqDecision CovenantError.
Proof. solve_decision. Defined.

Abbreviation cresult := (result CovenantError).

Definition flow_tag (self : AdvancedCovenantFlow) : u8 :=
  match self with
  | PaymentGatedTransfer => x00
  | EscrowRelease => x01
  | VaultTimelockRelease => x02
  | AtomicSwap => x03
  | CovenantOwnedAsset => x04
  | PolicyUpgrade => x05
  | ControlledTermination => x06
  end.

Definition flow_label (self : AdvancedCovenantFlow) : string :=
  match self with
  | PaymentGatedTransfer => "payment-gated-transfer"
  | EscrowRelease => "escrow-release"
  | VaultTimelockRelease => "vault-timelock-release"
  | AtomicSwap => "atomic-swap"
  | CovenantOwnedAsset => "covenant-owned-asset"
  | PolicyUpgrade => "policy-upgrade"
  | ControlledTermination => "controlled-termination"
  end.

Definition flow_from_tag (tag : u8) : cresult AdvancedCovenantFlow :=
  match tag with
  | x00 => Ok PaymentGatedTransfer
  | x01 => Ok EscrowRelease
  | x02 => Ok VaultTimelockRelease
  | x03 => Ok AtomicSwap
  | x04 => Ok CovenantOwnedAsset
  | x05 => Ok PolicyUpgrade
  | x06 => Ok ControlledTermination
  | _ => Err (CE_Decode ("unknown advanced covenant flow tag " ++ usize_display (byte_Z tag)))
  end.

Definition reject_zero32 (field : string) (b : Bytes32) : cresult unit :=
  if is_zero32 b then Err (CE_ZeroAdvancedCovenantField field) else Ok ().

Definition covenant_decode_err (err : DecodeError) : CovenantError :=
  CE_Decode (decode_error_display err).

(** [r.read_x().map_err(decode_err)?] *)
Definition crd {A} (p : parser DecodeError A) : parser CovenantError A :=
  pmap_err covenant_decode_err p.

(** * Policy shapes *)

Record AdvancedCovenantPolicyShape := {
  ps_chain_id : KaspaChainId;
  ps_asset_id : Bytes32;
  ps_lineage_id : Bytes32;
  ps_flow : AdvancedCovenantFlow;
  ps_covenant_id : KaspaCovenantId;
  ps_counterparty_covenant_id : KaspaCovenantId;
  ps_payment_asset_id : Bytes32;
  ps_payment_amount : u64;
  ps_unlock_daa_score : u64;
  ps_policy_commitment : Bytes32;
  ps_authorization_commitment : Bytes32
}.
#[export] Instance AdvancedCovenantPolicyShape_eq_dec : EqDecision AdvancedCovenantPolicyShape.
Proof. solve_decision. Defined.

Definition shape_require_nonzero (self : AdvancedCovenantPolicyShape) (field : string) (b : Bytes32)
  : cresult unit :=
  if is_zero32 b then Err (CE_MissingAdvancedCovenantField (ps_flow self) field) else Ok ().

Definition shape_require_counterparty (self : AdvancedCovenantPolicyShape) : cresult unit :=
  shape_require_nonzero self "counterparty_covenant_id" (ps_counterparty_covenant_id self).

Definition shape_require_payment (self : AdvancedCovenantPolicyShape) : cresult unit :=
  _ ← shape_require_nonzero self "payment_asset_id" (ps_payment_asset_id self);
  fail_if (uval (ps_payment_amount self) = 0%Z)
    (CE_MissingAdvancedCovenantField (ps_flow self) "payment_amount").

Definition shape_require_unlock (self : AdvancedCovenantPolicyShape) : cresult unit :=
  fail_if (uval (ps_unlock_daa_score self) = 0%Z)
    (CE_MissingAdvancedCovenantField (ps_flow self) "unlock_daa_score").

Definition shape_require_policy_commitment (self : AdvancedCovenantPolicyShape) : cresult unit :=
  shape_require_nonzero self "policy_commitment" (ps_policy_commitment self).

Definition shape_validate (self : AdvancedCovenantPolicyShape) : cresult unit :=
  _ ← reject_zero32 "asset_id" (ps_asset_id self);
  _ ← reject_zero32 "lineage_id" (ps_lineage_id self);
  _ ← reject_zero32 "covenant_id" (ps_covenant_id self);
  _ ← reject_zero32 "authorization_commitment" (ps_authorization_commitment self);
  match ps_flow self with
  | PaymentGatedTransfer =>
      _ ← shape_require_counterparty self;
      shape_require_payment self
  | EscrowRelease =>
      _ ← shape_require_counterparty self;
      shape_require_policy_commitment self
  | VaultTimelockRelease =>
      _ ← shape_require_unlock self;
      shape_require_policy_commitment self
  | AtomicSwap =>
      _ ← shape_require_counterparty self;
      _ ← shape_require_payment self;
      shape_require_unlock self
  | CovenantOwnedAsset =>
      _ ← shape_require_counterparty self;
      shape_require_policy_commitment self
  | PolicyUpgrade | ControlledTermination =>
      shape_require_policy_commitment self
  end.

Definition shape_new (chain_id : KaspaChainId) (asset_id lineage_id : Bytes32)
    (flow : AdvancedCovenantFlow) (covenant_id counterparty_covenant_id : KaspaCovenantId)
    (payment_asset_id : Bytes32) (payment_amount unlock_daa_score : u64)
    (policy_commitment authorization_commitment : Bytes32)
  : cresult AdvancedCovenantPolicyShape :=
  let shape := {|
    ps_chain_id := chain_id; ps_asset_id := asset_id; ps_lineage_id := lineage_id;
    ps_flow := flow; ps_covenant_id := covenant_id;
    ps_counterparty_covenant_id := counterparty_covenant_id;
    ps_payment_asset_id := payment_asset_id; ps_payment_amount := payment_amount;
    ps_unlock_daa_score := unlock_daa_score; ps_policy_commitment := policy_commitment;
    ps_authorization_commitment := authorization_commitment
  |} in
  _ ← shape_validate shape;
  Ok shape.

Definition encode_advanced_covenant_policy_shape (shape : AdvancedCovenantPolicyShape)
  : Writer → Writer :=
  encode (ps_chain_id shape) ▷
  write_bytes32 (ps_asset_id shape) ▷
  write_bytes32 (ps_lineage_id shape) ▷
  write_u8 (flow_tag (ps_flow shape)) ▷
  write_bytes32 (ps_covenant_id shape) ▷
  write_bytes32 (ps_counterparty_covenant_id shape) ▷
  write_bytes32 (ps_payment_asset_id shape) ▷
  write_u64 (ps_payment_amount shape) ▷
  write_u64 (ps_unlock_daa_score shape) ▷
  write_bytes32 (ps_policy_commitment shape) ▷
  write_bytes32 (ps_authorization_commitment shape).

Definition decode_advanced_covenant_policy_shape
  : parser CovenantError AdvancedCovenantPolicyShape :=
  chain_id ← crd decode;
  asset_id ← crd read_bytes32;
  lineage_id ← crd read_bytes32;
  tag ← crd read_u8;
  flow ← plift (flow_from_tag tag);
  covenant_id ← crd read_bytes32;
  counterparty_covenant_id ← crd read_bytes32;
  payment_asset_id ← crd read_bytes32;
  payment_amount ← crd read_u64;
  unlock_daa_score ← crd read_u64;
  policy_commitment ← crd read_bytes32;
  authorization_commitment ← crd read_bytes32;
  mret {|
    ps_chain_id := chain_id; ps_asset_id := asset_id; ps_lineage_id := lineage_id;
    ps_flow := flow; ps_covenant_id := covenant_id;
    ps_counterparty_covenant_id := counterparty_covenant_id;
    ps_payment_asset_id := payment_asset_id; ps_payment_amount := payment_amount;
    ps_unlock_daa_score := unlock_daa_score; ps_policy_commitment := policy_commitment;
    ps_authorization_commitment := authorization_commitment
  |}.

(** * Evidence *)

Record AdvancedCovenantExecutionEvidence := {
  ev_counterparty_covenant_id : KaspaCovenantId;
  ev_payment_asset_id : Bytes32;
  ev_paid_amount : u64;
  ev_current_daa_score : u64;
  ev_policy_commitment : Bytes32;
  ev_authorization_commitment : Bytes32
}.
#[export] Instance AdvancedCovenantExecutionEvidence_eq_dec :
  EqDecision AdvancedCovenantExecutionEvidence.
Proof. solve_decision. Defined.

Section evidence.
Implicit Types (self : AdvancedCovenantExecutionEvidence) (shape : AdvancedCovenantPolicyShape).

Definition evidence_require_authorization self shape : cresult unit :=
  fail_if (ev_authorization_commitment self ≠ ps_authorization_commitment shape)
    (CE_AdvancedCovenantExecutionMismatch (ps_flow shape) "authorization_commitment").

Definition evidence_require_counterparty self shape : cresult unit :=
  fail_if (ev_counterparty_covenant_id self ≠ ps_counterparty_covenant_id shape)
    (CE_AdvancedCovenantExecutionMismatch (ps_flow shape) "counterparty_covenant_id").

Definition evidence_require_payment_asset self shape : cresult unit :=
  fail_if (ev_payment_asset_id self ≠ ps_payment_asset_id shape)
    (CE_AdvancedCovenantExecutionMismatch (ps_flow shape) "payment_asset_id").

Definition evidence_require_exact_payment self shape : cresult unit :=
  fail_if (ev_paid_amount self ≠ ps_payment_amount shape)
    (CE_AdvancedCovenantExecutionMismatch (ps_flow shape) "paid_amount").

Definition evidence_require_unlock self shape : cresult unit :=
  fail_if (ev_current_daa_score self < ps_unlock_daa_score shape)%Z
    (CE_AdvancedCovenantDaaTooEarly (ps_flow shape) (ps_unlock_daa_score shape)
       (ev_current_daa_score self)).

Definition evidence_require_policy_commitment self shape : cresult unit :=
  fail_if (ev_policy_commitment self ≠ ps_policy_commitment shape)
    (CE_AdvancedCovenantExecutionMismatch (ps_flow shape) "policy_commitment").

Definition validate_for_shape self shape : cresult unit :=
  _ ← shape_validate shape;
  _ ← evidence_require_authorization self shape;
  match ps_flow shape with
  | PaymentGatedTransfer =>
      _ ← evidence_require_payment_asset self shape;
      fail_if (ev_paid_amount self < ps_payment_amount shape)%Z
        (CE_AdvancedCovenantPaymentTooSmall (ps_flow shape) (ps_payment_amount shape)
           (ev_paid_amount self))
  | EscrowRelease | CovenantOwnedAsset =>
      _ ← evidence_require_counterparty self shape;
      evidence_require_policy_commitment self shape
  | VaultTimelockRelease =>
      _ ← evidence_require_unlock self shape;
      evidence_require_policy_commitment self shape
  | AtomicSwap =>
      _ ← evidence_require_counterparty self shape;
      _ ← evidence_require_payment_asset self shape;
      _ ← evidence_require_exact_payment self shape;
      _ ← evidence_require_unlock self shape;
      if negb (is_zero32 (ps_policy_commitment shape))
      then evidence_require_policy_commitment self shape else Ok ()
  | PolicyUpgrade | ControlledTermination =>
      evidence_require_policy_commitment self shape
  end.

Definition new_for_shape shape (counterparty_covenant_id : KaspaCovenantId)
    (payment_asset_id : Bytes32) (paid_amount current_daa_score : u64)
    (policy_commitment authorization_commitment : Bytes32)
  : cresult AdvancedCovenantExecutionEvidence :=
  let evidence := {|
    ev_counterparty_covenant_id := counterparty_covenant_id;
    ev_payment_asset_id := payment_asset_id; ev_paid_amount := paid_amount;
    ev_current_daa_score := current_daa_score; ev_policy_commitment := policy_commitment;
    ev_authorization_commitment := authorization_commitment
  |} in
  _ ← validate_for_shape evidence shape;
  Ok evidence.
End evidence.

Definition encode_advanced_covenant_execution_evidence
    (evidence : AdvancedCovenantExecutionEvidence) : Writer → Writer :=
  write_bytes32 (ev_counterparty_covenant_id evidence) ▷
  write_bytes32 (ev_payment_asset_id evidence) ▷
  write_u64 (ev_paid_amount evidence) ▷
  write_u64 (ev_current_daa_score evidence) ▷
  write_bytes32 (ev_policy_commitment evidence) ▷
  write_bytes32 (ev_authorization_commitment evidence).

Definition decode_advanced_covenant_execution_evidence
  : parser CovenantError AdvancedCovenantExecutionEvidence :=
  counterparty_covenant_id ← crd read_bytes32;
  payment_asset_id ← crd read_bytes32;
  paid_amount ← crd read_u64;
  current_daa_score ← crd read_u64;
  policy_commitment ← crd read_bytes32;
  authorization_commitment ← crd read_bytes32;
  mret {|
    ev_counterparty_covenant_id := counterparty_covenant_id;
    ev_payment_asset_id := payment_asset_id; ev_paid_amount := paid_amount;
    ev_current_daa_score := current_daa_score; ev_policy_commitment := policy_commitment;
    ev_authorization_commitment := authorization_commitment
  |}.

(** * Execution plans and records *)

Record AdvancedCovenantExecutionPlan := {
  ap_shape : AdvancedCovenantPolicyShape;
  ap_policy_commitment : Bytes32;
  ap_evidence : AdvancedCovenantExecutionEvidence;
  ap_execution_commitment : Bytes32
}.
#[export] Instance AdvancedCovenantExecutionPlan_eq_dec :
  EqDecision AdvancedCovenantExecutionPlan.
Proof. solve_decision. Defined.

Record AdvancedCovenantExecutionRecord := { er_plan : AdvancedCovenantExecutionPlan }.

Section commitments.
Context `{Sha256}.

Definition advanced_covenant_policy_hash (payload : list byte) : Bytes32 :=
  domain_hash TagAdvancedCovenantPolicy payload.

Definition shape_commitment (self : AdvancedCovenantPolicyShape) : cresult Bytes32 :=
  _ ← shape_validate self;
  Ok (advanced_covenant_policy_hash (into_vec ((
    encode (ps_chain_id self) ▷
    write_bytes32 (ps_asset_id self) ▷
    write_bytes32 (ps_lineage_id self) ▷
    write_u8 (flow_tag (ps_flow self)) ▷
    write_bytes32 (ps_covenant_id self) ▷
    write_bytes32 (ps_counterparty_covenant_id self) ▷
    write_bytes32 (ps_payment_asset_id self) ▷
    write_u64 (ps_payment_amount self) ▷
    write_u64 (ps_unlock_daa_score self) ▷
    write_bytes32 (ps_policy_commitment self) ▷
    write_bytes32 (ps_authorization_commitment self)) writer_new))).

Definition advanced_covenant_execution_hash (policy_commitment : Bytes32)
    (shape : AdvancedCovenantPolicyShape) (evidence : AdvancedCovenantExecutionEvidence)
  : Bytes32 :=
  domain_hash TagAdvancedCovenantExecution (into_vec ((
    write_bytes32 policy_commitment ▷
    write_u8 (flow_tag (ps_flow shape)) ▷
    write_bytes32 (ps_covenant_id shape) ▷
    write_bytes32 (ps_asset_id shape) ▷
    write_bytes32 (ps_lineage_id shape) ▷
    write_bytes32 (ev_counterparty_covenant_id evidence) ▷
    write_bytes32 (ev_payment_asset_id evidence) ▷
    write_u64 (ev_paid_amount evidence) ▷
    write_u64 (ev_current_daa_score evidence) ▷
    write_bytes32 (ev_policy_commitment evidence) ▷
    write_bytes32 (ev_authorization_commitment evidence)) writer_new)).

Definition execution_plan_new (shape : AdvancedCovenantPolicyShape)
    (evidence : AdvancedCovenantExecutionEvidence) : cresult AdvancedCovenantExecutionPlan :=
  policy_commitment ← shape_commitment shape;
  _ ← validate_for_shape evidence shape;
  let execution_commitment := advanced_covenant_execution_hash policy_commitment shape evidence in
  Ok {| ap_shape := shape; ap_policy_commitment := policy_commitment; ap_evidence := evidence;
        ap_execution_commitment := execution_commitment |}.

Definition execution_record_new (plan : AdvancedCovenantExecutionPlan)
  : AdvancedCovenantExecutionRecord := {| er_plan := plan |}.

Definition from_parts (shape : AdvancedCovenantPolicyShape)
    (evidence : AdvancedCovenantExecutionEvidence) : cresult AdvancedCovenantExecutionRecord :=
  plan ← execution_plan_new shape evidence;
  Ok (execution_record_new plan).

Definition execution_record_bytes (self : AdvancedCovenantExecutionRecord) : list byte :=
  let plan := er_plan self in
  into_vec ((
    write_bytes ADVANCED_COVENANT_EXECUTION_RECORD_TAG ▷
    write_u16 ENCODING_VERSION ▷
    encode_advanced_covenant_policy_shape (ap_shape plan) ▷
    write_bytes32 (ap_policy_commitment plan) ▷
    encode_advanced_covenant_execution_evidence (ap_evidence plan) ▷
    write_bytes32 (ap_execution_commitment plan)) writer_new).

Definition execution_record_decode (buf : list byte) : cresult AdvancedCovenantExecutionRecord :=
  _ ← fail_if (uval MAX_BLOB_BYTES < Z.of_nat (length buf))%Z
        (CE_PayloadTooLong (Z.of_nat (length buf)) MAX_BLOB_BYTES);
  run_record (
    tag ← crd (read_array 12);
    _ ← plift (fail_if (tag ≠ ADVANCED_COVENANT_EXECUTION_RECORD_TAG)
          (CE_Decode ("bad advanced covenant execution record tag: " ++ debug_bytes tag)));
    version ← crd read_u16;
    _ ← plift (fail_if (version ≠ ENCODING_VERSION)
          (CE_Decode ("unknown version " ++ usize_display version)));
    shape ← decode_advanced_covenant_policy_shape;
    policy_commitment ← crd read_bytes32;
    evidence ← decode_advanced_covenant_execution_evidence;
    execution_commitment ← crd read_bytes32;
    _ ← crd ensure_consumed;
    plan ← plift (execution_plan_new shape evidence);
    _ ← plift (fail_if (ap_policy_commitment plan ≠ policy_commitment)
          (CE_Decode "advanced covenant policy commitment mismatch"));
    _ ← plift (fail_if (ap_execution_commitment plan ≠ execution_commitment)
          (CE_Decode "advanced covenant execution commitment mismatch"));
    mret {| er_plan := plan |}) buf.
End commitments.

(** * The covenant state *)

Record CovenantState := {
  cs_version : u16;
  cs_chain_id : KaspaChainId;
  cs_lineage_id : Bytes32;
  cs_asset_id : Bytes32;
  cs_current_state_digest : Bytes32;
  cs_receipt_policy : ReceiptPolicy;
  cs_genesis_proof_mode : ProofMode;
  cs_replay_marker : Bytes32
}.
#[export] Instance CovenantState_eq_dec : EqDecision CovenantState.
Proof. solve_decision. Defined.

Definition covenant_state_validate (self : CovenantState) : cresult unit :=
  _ ← fail_if (cs_version self ≠ ENCODING_VERSION)
        (CE_Decode ("unknown version " ++ usize_display (cs_version self)));
  _ ← reject_zero32 "lineage_id" (cs_lineage_id self);
  reject_zero32 "asset_id" (cs_asset_id self).

Definition covenant_state_new (version : u16) (chain_id : KaspaChainId)
    (lineage_id asset_id current_state_digest : Bytes32) (receipt_policy : ReceiptPolicy)
    (genesis_proof_mode : ProofMode) (replay_marker : Bytes32) : cresult CovenantState :=
  let state := {|
    cs_version := version; cs_chain_id := chain_id; cs_lineage_id := lineage_id;
    cs_asset_id := asset_id; cs_current_state_digest := current_state_digest;
    cs_receipt_policy := receipt_policy; cs_genesis_proof_mode := genesis_proof_mode;
    cs_replay_marker := replay_marker
  |} in
  _ ← covenant_state_validate state;
  Ok state.

Definition covenant_genesis (chain_id : KaspaChainId) (asset_id lineage : Bytes32)
    (receipt_policy : ReceiptPolicy) (genesis_proof_mode : ProofMode) : CovenantState :=
  {| cs_version := ENCODING_VERSION; cs_chain_id := chain_id; cs_lineage_id := lineage;
     cs_asset_id := asset_id; cs_current_state_digest := zero32;
     cs_receipt_policy := receipt_policy; cs_genesis_proof_mode := genesis_proof_mode;
     cs_replay_marker := zero32 |}.

Definition advance (self : CovenantState) (new_digest new_replay_marker : Bytes32)
  : cresult CovenantState :=
  _ ← fail_if (new_digest = cs_current_state_digest self)
        (CE_Invariant "new state digest equals current");
  Ok {| cs_version := cs_version self; cs_chain_id := cs_chain_id self;
        cs_lineage_id := cs_lineage_id self; cs_asset_id := cs_asset_id self;
        cs_current_state_digest := new_digest; cs_receipt_policy := cs_receipt_policy self;
        cs_genesis_proof_mode := cs_genesis_proof_mode self;
        cs_replay_marker := new_replay_marker |}.

Definition encode_payload (self : CovenantState) : list byte :=
  into_vec ((
    write_bytes COVENANT_STATE_TAG ▷
    write_u16 (cs_version self) ▷
    encode (cs_chain_id self) ▷
    write_bytes32 (cs_lineage_id self) ▷
    write_bytes32 (cs_asset_id self) ▷
    write_bytes32 (cs_current_state_digest self) ▷
    encode (cs_receipt_policy self) ▷
    encode (cs_genesis_proof_mode self) ▷
    write_bytes32 (cs_replay_marker self)) writer_new).

Definition decode_payload (buf : list byte) : cresult CovenantState :=
  _ ← fail_if (uval MAX_BLOB_BYTES < Z.of_nat (length buf))%Z
        (CE_PayloadTooLong (Z.of_nat (length buf)) MAX_BLOB_BYTES);
  run_record (
    tag ← crd (read_array 12);
    _ ← plift (fail_if (tag ≠ COVENANT_STATE_TAG)
          (CE_Decode ("bad covenant tag: " ++ debug_bytes tag)));
    version ← crd read_u16;
    _ ← plift (fail_if (version ≠ ENCODING_VERSION)
          (CE_Decode ("unknown version " ++ usize_display version)));
    chain_id ← crd decode;
    lineage_id ← crd read_bytes32;
    asset_id ← crd read_bytes32;
    current_state_digest ← crd read_bytes32;
    receipt_policy ← crd decode;
    genesis_proof_mode ← crd decode;
    replay_marker ← crd read_bytes32;
    _ ← crd ensure_consumed;
    let state := {|
      cs_version := version; cs_chain_id := chain_id; cs_lineage_id := lineage_id;
      cs_asset_id := asset_id; cs_current_state_digest := current_state_digest;
      cs_receipt_policy := receipt_policy; cs_genesis_proof_mode := genesis_proof_mode;
      cs_replay_marker := replay_marker
    |} in
    _ ← plift (covenant_state_validate state);
    mret state) buf.

Section covenant_hash.
Context `{Sha256}.

(** The preimage is tag, 32-bit payload length, payload. *)
Definition covenant_commitment (self : CovenantState) : Bytes32 :=
  let payload := encode_payload self in
  sha256 (COVENANT_STATE_TAG ++ u32_le (wrap 32 (Z.of_nat (length payload))) ++ payload)%list.

Definition compute_lineage_id (genesis_outpoint_payload : list byte) (asset_id : Bytes32)
  : Bytes32 :=
  lineage_id genesis_outpoint_payload asset_id.

Definition compute_covenant_id_from_lineage (lineage : Bytes32) : KaspaCovenantId :=
  domain_hash TagLineage lineage.
End covenant_hash.

(** * The covenant id of a genesis

    [kaspa_hashes::CovenantID] is a third-party incremental hasher: the digest of
    the concatenation of the updates. *)
Class KaspaCovenantIdHasher := kaspa_covenant_id_hash : list byte → Bytes32.

Definition hasher_write_len (len : nat) : list byte := u64_le (wrap 64 (Z.of_nat len)).
Definition hasher_write_var_bytes (b : list byte) : list byte :=
  (hasher_write_len (length b) ++ b)%list.

Definition covenant_output_bytes (o : u32 * u64 * u16 * list byte) : list byte :=
  let '(idx, value, spk_version, spk_bytes) := o in
  (u32_le idx ++ u64_le value ++ u16_le spk_version ++ hasher_write_var_bytes spk_bytes)%list.

Definition compute_covenant_id `{KaspaCovenantIdHasher} (genesis_outpoint : KaspaOutpoint)
    (authorized_outputs : list (u32 * u64 * u16 * list byte)) : KaspaCovenantId :=
  kaspa_covenant_id_hash
    (transaction_id genesis_outpoint ++ u32_le (index genesis_outpoint)
     ++ hasher_write_len (length authorized_outputs)
     ++ concat (covenant_output_bytes <$> authorized_outputs))%list.
