(* ===== verification/CovenantCorrect.v ===== *)
(** What the covenant state and the advanced flows guarantee: the payload and
    record formats are strict, commitments bind, validation means the terms of
    the flow, and a state advances only along its own lineage. *)

From stdpp Require Import base list strings.
From Stdlib Require Import ZArith Lia Strings.Byte.
From S2P Require Import Prelude.
From S2P Require Import Bytes.
From S2P Require Import Encoding.
From S2P Require Import Types.
From S2P Require Import Records.
From S2P Require Import Commit.
From S2P Require Import Covenant.

Open Scope string_scope.

(** * Guards *)

Lemma reject_zero32_ok field b u : reject_zero32 field b = Ok u ↔ b ≠ zero32.
Proof.
  unfold reject_zero32. pose proof (is_zero32_spec b). destruct u, (is_zero32 b); naive_solver.
Qed.

Lemma shape_require_nonzero_ok s field b u : shape_require_nonzero s field b = Ok u ↔ b ≠ zero32.
Proof.
  unfold shape_require_nonzero. pose proof (is_zero32_spec b).
  destruct u, (is_zero32 b); naive_solver.
Qed.

Lemma flow_from_tag_ok b f : flow_from_tag b = Ok f ↔ b = flow_tag f.
Proof. split; [destruct b; try done; by intros [= <-]|intros ->; by destruct f]. Qed.

Lemma flow_tag_inj f g : flow_tag f = flow_tag g → f = g.
Proof. by destruct f, g. Qed.

(** * What a shape promises and what evidence must show

    The terms a flow is made of; a shape must fix each of its flow's terms and
    the evidence must meet each of them. *)
Inductive term : Type :=
| Counterparty | Payment | ExactPayment | Unlock | PolicyTerm | OptionalPolicyTerm.

Definition terms_of_shape (f : AdvancedCovenantFlow) : list term :=
  match f with
  | PaymentGatedTransfer => [Counterparty; Payment]
  | EscrowRelease | CovenantOwnedAsset => [Counterparty; PolicyTerm]
  | VaultTimelockRelease => [Unlock; PolicyTerm]
  | AtomicSwap => [Counterparty; Payment; Unlock]
  | PolicyUpgrade | ControlledTermination => [PolicyTerm]
  end.

Definition terms_of_evidence (f : AdvancedCovenantFlow) : list term :=
  match f with
  | PaymentGatedTransfer => [Payment]
  | EscrowRelease | CovenantOwnedAsset => [Counterparty; PolicyTerm]
  | VaultTimelockRelease => [Unlock; PolicyTerm]
  | AtomicSwap => [Counterparty; ExactPayment; Unlock; OptionalPolicyTerm]
  | PolicyUpgrade | ControlledTermination => [PolicyTerm]
  end.

Definition term_fixed (s : AdvancedCovenantPolicyShape) (t : term) : Prop :=
  match t with
  | Counterparty => ps_counterparty_covenant_id s ≠ zero32
  | Payment | ExactPayment =>
      ps_payment_asset_id s ≠ zero32 ∧ (0 < ps_payment_amount s)%Z
  | Unlock => (0 < ps_unlock_daa_score s)%Z
  | PolicyTerm => ps_policy_commitment s ≠ zero32
  | OptionalPolicyTerm => True
  end.

Definition term_met (s : AdvancedCovenantPolicyShape) (e : AdvancedCovenantExecutionEvidence)
    (t : term) : Prop :=
  match t with
  | Counterparty => ev_counterparty_covenant_id e = ps_counterparty_covenant_id s
  | Payment => ev_payment_asset_id e = ps_payment_asset_id s
               ∧ (ps_payment_amount s <= ev_paid_amount e)%Z
  | ExactPayment => ev_payment_asset_id e = ps_payment_asset_id s
                    ∧ ev_paid_amount e = ps_payment_amount s
  | Unlock => (ps_unlock_daa_score s <= ev_current_daa_score e)%Z
  | PolicyTerm => ev_policy_commitment e = ps_policy_commitment s
  | OptionalPolicyTerm =>
      ps_policy_commitment s ≠ zero32 → ev_policy_commitment e = ps_policy_commitment s
  end.

Record shape_ok (s : AdvancedCovenantPolicyShape) : Prop := {
  so_asset : ps_asset_id s ≠ zero32;
  so_lineage : ps_lineage_id s ≠ zero32;
  so_covenant : ps_covenant_id s ≠ zero32;
  so_authorization : ps_authorization_commitment s ≠ zero32;
  so_terms : Forall (term_fixed s) (terms_of_shape (ps_flow s))
}.

Lemma require_payment_ok s u :
  shape_require_payment s = Ok u ↔ term_fixed s Payment.
Proof.
  unfold shape_require_payment. rewrite bind_unit_ok, shape_require_nonzero_ok, fail_if_ok.
  pose proof (uint_range (ps_payment_amount s)). cbn. intuition lia.
Qed.

Lemma require_unlock_ok s u : shape_require_unlock s = Ok u ↔ term_fixed s Unlock.
Proof.
  unfold shape_require_unlock. rewrite fail_if_ok.
  pose proof (uint_range (ps_unlock_daa_score s)). cbn. lia.
Qed.

Lemma shape_validate_ok s : shape_validate s = Ok () ↔ shape_ok s.
Proof.
  unfold shape_validate. rewrite !bind_unit_ok, !reject_zero32_ok.
  assert (Hterms : ∀ m, m = match ps_flow s with
    | PaymentGatedTransfer =>
        _ ← shape_require_counterparty s; shape_require_payment s
    | EscrowRelease => _ ← shape_require_counterparty s; shape_require_policy_commitment s
    | VaultTimelockRelease => _ ← shape_require_unlock s; shape_require_policy_commitment s
    | AtomicSwap => _ ← shape_require_counterparty s; _ ← shape_require_payment s;
        shape_require_unlock s
    | CovenantOwnedAsset => _ ← shape_require_counterparty s; shape_require_policy_commitment s
    | PolicyUpgrade | ControlledTermination => shape_require_policy_commitment s
    end → m = Ok () ↔ Forall (term_fixed s) (terms_of_shape (ps_flow s))).
  { intros m ->. destruct (ps_flow s); cbn [terms_of_shape];
      rewrite ?bind_unit_ok; unfold shape_require_counterparty, shape_require_policy_commitment;
      rewrite ?shape_require_nonzero_ok, ?require_payment_ok, ?require_unlock_ok, ?Forall_cons,
        ?Forall_nil; cbn [term_fixed]; intuition. }
  rewrite (Hterms _ eq_refl). split; [intros (?&?&?&?&?); by constructor|by intros []].
Qed.

Lemma validate_for_shape_ok e s :
  validate_for_shape e s = Ok () ↔
    shape_ok s ∧ ev_authorization_commitment e = ps_authorization_commitment s ∧
    Forall (term_met s e) (terms_of_evidence (ps_flow s)).
Proof.
  unfold validate_for_shape, evidence_require_authorization.
  rewrite !bind_unit_ok, shape_validate_ok, fail_if_neq_ok.
  apply and_iff_compat_l, and_iff_compat_l.
  pose proof (is_zero32_spec (ps_policy_commitment s)) as Hz.
  destruct (ps_flow s); cbn [terms_of_evidence]; rewrite ?Forall_cons, ?Forall_nil;
    rewrite ?bind_unit_ok;
    unfold evidence_require_counterparty, evidence_require_policy_commitment,
      evidence_require_payment_asset, evidence_require_exact_payment, evidence_require_unlock;
    rewrite ?fail_if_neq_ok, ?fail_if_ok; cbn [term_met]; try (intuition lia).
  destruct (is_zero32 (ps_policy_commitment s)); cbn [negb].
  - intuition lia.
  - rewrite fail_if_neq_ok. intuition lia.
Qed.

(** * Codecs *)

#[export] Instance crd_codec {A} (p : parser DecodeError A) P f : Codec p P f → Codec (crd p) P f.
Proof. apply pmap_err_codec. Qed.

Lemma crd_consumed {B} r (k : unit → parser CovenantError B) :
  r_pos r = length (r_buf r) → (crd ensure_consumed ≫= k) r = k () r.
Proof. apply consumed_intro. Qed.

#[export] Instance encode_shape_appending s : Appending (encode_advanced_covenant_policy_shape s).
Proof. unfold encode_advanced_covenant_policy_shape. apply _. Qed.
#[export] Instance encode_evidence_appending e :
  Appending (encode_advanced_covenant_execution_evidence e).
Proof. unfold encode_advanced_covenant_execution_evidence. apply _. Qed.

#[export] Instance shape_codec :
  Codec decode_advanced_covenant_policy_shape always encode_advanced_covenant_policy_shape.
Proof.
  intros r s r' Hr.
  unfold decode_advanced_covenant_policy_shape, encode_advanced_covenant_policy_shape. split.
  - intros H. sound_steps.
    match goal with H : flow_from_tag _ = _ |- _ => apply flow_from_tag_ok in H as -> end.
    split; [done|]. join_steps.
  - intros [_ H]. split_steps. do 4 complete_step.
    erewrite plift_intro; [|by apply flow_from_tag_ok]. cbn beta. complete_steps. by destruct s.
Qed.

#[export] Instance evidence_codec :
  Codec decode_advanced_covenant_execution_evidence always
    encode_advanced_covenant_execution_evidence.
Proof.
  intros r e r' Hr.
  unfold decode_advanced_covenant_execution_evidence, encode_advanced_covenant_execution_evidence.
  split.
  - intros H. sound_steps. split; [done|]. join_steps.
  - intros [_ H]. split_steps. complete_steps. by destruct e.
Qed.

Lemma payload_length s : length (encode_payload s) = 148%nat.
Proof.
  unfold encode_payload, into_vec, writer_new. record_length.
  assert (∀ m : ProofMode, length (encode m []) = 2%nat) as -> by (by intros []).
  assert (length (write_bytes COVENANT_STATE_TAG []) = 12%nat) as -> by done.
  done.
Qed.

Definition covenant_state_ok (s : CovenantState) : Prop :=
  cs_version s = ENCODING_VERSION ∧ cs_lineage_id s ≠ zero32 ∧ cs_asset_id s ≠ zero32.

Lemma covenant_state_validate_ok s u : covenant_state_validate s = Ok u ↔ covenant_state_ok s.
Proof.
  destruct u. unfold covenant_state_validate, covenant_state_ok.
  by rewrite !bind_unit_ok, fail_if_neq_ok, !reject_zero32_ok.
Qed.

Lemma decode_payload_iff (buf : list byte) (s : CovenantState) :
  decode_payload buf = Ok s ↔
    (cs_version s = ENCODING_VERSION ∧ cs_lineage_id s ≠ zero32 ∧ cs_asset_id s ≠ zero32) ∧
    buf = encode_payload s ∧ length buf = 148%nat.
Proof.
  unfold decode_payload. transitivity (covenant_state_ok s ∧ buf = encode_payload s ∧
    (Z.of_nat (length buf) <= uval MAX_BLOB_BYTES)%Z).
  - unfold encode_payload. apply bounded_record_iff; [done|]. intros r r' Hr. split.
    + intros H. sound_steps.
      match goal with H : crd ensure_consumed _ = _ |- _ => apply ensure_consumed_ok in H as [-> He] end.
      match goal with H : covenant_state_validate _ = _ |- _ => apply covenant_state_validate_ok in H end.
      split; [done|]. split; [|done]. join_steps.
    + intros (Hs & H & He). pose proof Hs as (Hv & _ & _). rewrite Hv in H. split_steps.
      complete_steps. rewrite crd_consumed by done. cbv zeta. rewrite <-Hv.
      rewrite (plift_intro _ _ _ ()); [by destruct s|].
      apply covenant_state_validate_ok. by destruct s.
  - split; intros (Hs & -> & _); (split; [done|]); by rewrite payload_length.
Qed.

(** Fact: The covenant payload format is strict: [decode_payload] accepts a buffer
    exactly when it is the 148-byte payload of a state at the current version
    with a lineage and an asset, and returns that state; no other bytes, however
    long, decode. *)
Theorem payload_decode_iff (buf : list byte) (s : CovenantState) :
  decode_payload buf = Ok s ↔
    (cs_version s = ENCODING_VERSION ∧ cs_lineage_id s ≠ zero32 ∧ cs_asset_id s ≠ zero32) ∧
    buf = encode_payload s ∧ length buf = 148%nat.
Proof. apply decode_payload_iff. Qed.

(** * Execution records *)

Section records.
Context `{Sha256}.

Lemma shape_commitment_ok s c :
  shape_commitment s = Ok c ↔
    shape_ok s ∧
    c = advanced_covenant_policy_hash (encode_advanced_covenant_policy_shape s []).
Proof.
  unfold shape_commitment. rewrite bind_unit_ok, shape_validate_ok.
  unfold into_vec, writer_new, encode_advanced_covenant_policy_shape. naive_solver.
Qed.

(** A plan is what [AdvancedCovenantExecutionPlan::new] returns for its shape
    and evidence. *)
Definition plan_ok (p : AdvancedCovenantExecutionPlan) : Prop :=
  execution_plan_new (ap_shape p) (ap_evidence p) = Ok p.

Lemma execution_plan_new_ok s e p :
  execution_plan_new s e = Ok p ↔
    shape_ok s ∧ ev_authorization_commitment e = ps_authorization_commitment s ∧
    Forall (term_met s e) (terms_of_evidence (ps_flow s)) ∧
    let c := advanced_covenant_policy_hash (encode_advanced_covenant_policy_shape s []) in
    p = {| ap_shape := s; ap_policy_commitment := c; ap_evidence := e;
           ap_execution_commitment := advanced_covenant_execution_hash c s e |}.
Proof.
  unfold execution_plan_new. rewrite bind_ok. setoid_rewrite shape_commitment_ok.
  setoid_rewrite bind_unit_ok. setoid_rewrite validate_for_shape_ok. cbv zeta. split.
  - intros (c & [? ->] & (? & ? & ?) & [= <-]). done.
  - intros (? & ? & ? & ->). eexists. split; [done|]. done.
Qed.

Lemma execution_plan_new_self s e p : execution_plan_new s e = Ok p → plan_ok p.
Proof.
  intros Hp. pose proof Hp as Hq. apply execution_plan_new_ok in Hp as (_ & _ & _ & ->).
  exact Hq.
Qed.

Lemma execution_record_length rec : length (execution_record_bytes rec) = 465%nat.
Proof.
  unfold execution_record_bytes, into_vec, writer_new, encode_advanced_covenant_policy_shape,
    encode_advanced_covenant_execution_evidence. cbv zeta. record_length.
  assert (length (write_bytes ADVANCED_COVENANT_EXECUTION_RECORD_TAG []) = 12%nat) as -> by done.
  done.
Qed.

(** Fact: Execution records are strict: [decode_canonical] accepts a buffer
    exactly when it is the 465-byte record of a plan whose shape validates, whose
    evidence meets every term of the shape's flow, and whose two stored
    commitments are the recomputed ones; it returns that plan. *)
Theorem execution_record_decode_iff (buf : list byte) (rec : AdvancedCovenantExecutionRecord) :
  execution_record_decode buf = Ok rec ↔
    execution_plan_new (ap_shape (er_plan rec)) (ap_evidence (er_plan rec)) = Ok (er_plan rec) ∧
    buf = execution_record_bytes rec.
Proof.
  unfold execution_record_decode.
  transitivity (execution_plan_new (ap_shape (er_plan rec)) (ap_evidence (er_plan rec)) = Ok (er_plan rec)
    ∧ buf = execution_record_bytes rec ∧ (Z.of_nat (length buf) <= uval MAX_BLOB_BYTES)%Z);
    [|split; [naive_solver|intros [? ->]; by rewrite execution_record_length]].
  unfold execution_record_bytes. cbv zeta. apply bounded_record_iff; [done|].
  intros r r' Hr. split.
  - intros Hd. sound_steps.
    match goal with H : crd ensure_consumed _ = _ |- _ => apply ensure_consumed_ok in H as [-> He] end.
    match goal with H : execution_plan_new _ _ = Ok ?q |- _ =>
      pose proof (execution_plan_new_self _ _ _ H) as Hself;
      apply execution_plan_new_ok in H as (_ & _ & _ & Hq) end.
    cbv zeta in Hq. cbn [er_plan]. split; [exact Hself|]. split; [|done].
    subst. cbn [ap_shape ap_evidence ap_policy_commitment ap_execution_commitment] in *. join_steps.
  - intros (Hp & Hd & He). destruct rec as [p]. cbn [er_plan] in *.
    split_steps. complete_steps. rewrite crd_consumed by done.
    rewrite (plift_intro _ _ _ _ Hp). cbn beta. by complete_steps.
Qed.

Lemma encode_chain_app_inj (c c' : KaspaChainId) l k :
  (encode c [] ++ l = encode c' [] ++ k)%list → c = c' ∧ l = k.
Proof. by destruct c, c'; cbn; intros [=]. Qed.

Lemma encode_shape_inj s t :
  encode_advanced_covenant_policy_shape s [] = encode_advanced_covenant_policy_shape t [] → s = t.
Proof.
  unfold encode_advanced_covenant_policy_shape. intros E.
  repeat rewrite !write_seq_nil in E by apply _.
  apply encode_chain_app_inj in E as [Ec E].
  unfold write_bytes32, write_u8, write_u64 in E. peel_bytes E.
  destruct s, t; cbn in *. apply flow_tag_inj in Ef1. congruence.
Qed.

(** The messages hashed for the commitment of a shape and for an execution of
    one. *)
Definition shape_message (s : AdvancedCovenantPolicyShape) : list byte :=
  tagged_message TagAdvancedCovenantPolicy (encode_advanced_covenant_policy_shape s []).
Definition execution_messages (s : AdvancedCovenantPolicyShape)
    (e : AdvancedCovenantExecutionEvidence) : list (list byte) :=
  [ltac:(message_of (advanced_covenant_execution_hash (sha256 (shape_message s)) s e)); shape_message s].
Definition covenant_state_message (s : CovenantState) : list byte :=
  ltac:(message_of (covenant_commitment s)).
Hint Unfold execution_messages : messages.

Lemma shape_commitment_binds s t c :
  shape_commitment s = Ok c → shape_commitment t = Ok c →
  s = t ∨ collision [shape_message s; shape_message t].
Proof.
  rewrite !shape_commitment_ok. intros [_ ->] [_ E].
  apply domain_hash_binds in E as [[_ E]|]; [left|by right]. by apply encode_shape_inj.
Qed.

(** Fact: The execution commitment identifies an execution: two plans built by
    [AdvancedCovenantExecutionPlan::new] with the same execution commitment
    have the same shape (chain, asset, lineage, flow, parties, price, unlock
    score, policy, authorisation) and the same evidence, or two of the messages
    hashed for the shapes and the executions collide.  So a record cannot be replayed under another flow or
    policy. *)
Theorem execution_commitment_binding s e p s' e' p' :
  execution_plan_new s e = Ok p → execution_plan_new s' e' = Ok p' →
  ap_execution_commitment p = ap_execution_commitment p' →
  (s = s' ∧ e = e') ∨ collision (execution_messages s e ++ execution_messages s' e').
Proof.
  rewrite !execution_plan_new_ok. cbv zeta. intros (_ & _ & _ & ->) (_ & _ & _ & ->). cbn.
  intros E. apply domain_hash_binds in E as [[_ E]|]; [|by_messages].
  unfold into_vec, writer_new in E. repeat rewrite !write_seq_nil in E by apply _.
  unfold write_bytes32, write_u8, write_u64 in E. peel_bytes E.
  apply domain_hash_binds in Ef as [[_ Ef]|]; [|by_messages].
  apply encode_shape_inj in Ef as ->. left. split; [done|].
  destruct e, e'; cbn in *. congruence.
Qed.

(** Fact: A covenant action is executable exactly on its terms:
    [AdvancedCovenantExecutionPlan::new] succeeds exactly when the shape has
    non-zero identifiers and fixes every term of its flow, the evidence carries
    the shape's authorisation and meets every term the flow's evidence needs
    (counterparty, payment at least or exactly the price, unlock score reached,
    policy commitment); the plan then holds both and their commitments. *)
Theorem execution_plan_iff s e p :
  execution_plan_new s e = Ok p ↔
    (ps_asset_id s ≠ zero32 ∧ ps_lineage_id s ≠ zero32 ∧ ps_covenant_id s ≠ zero32 ∧
     ps_authorization_commitment s ≠ zero32) ∧
    Forall (term_fixed s) (terms_of_shape (ps_flow s)) ∧
    ev_authorization_commitment e = ps_authorization_commitment s ∧
    Forall (term_met s e) (terms_of_evidence (ps_flow s)) ∧
    shape_commitment s = Ok (ap_policy_commitment p) ∧
    p = {| ap_shape := s; ap_policy_commitment := ap_policy_commitment p; ap_evidence := e;
           ap_execution_commitment :=
             advanced_covenant_execution_hash (ap_policy_commitment p) s e |}.
Proof.
  rewrite execution_plan_new_ok, shape_commitment_ok. cbv zeta. split.
  - intros (Hs & Ha & Ht & ->). pose proof Hs as [? ? ? ? ?]. done.
  - intros ((? & ? & ? & ?) & ? & ? & ? & (? & Ec) & Hp). split_and!; [by constructor|done..|].
    by rewrite <-Ec.
Qed.

(** Fact: A payment-gated transfer does not check who is paid: the shape must
    name a counterparty, but evidence accepted for it stays accepted under any
    other counterparty covenant. *)
Theorem payment_gated_counterparty_unchecked s e other :
  ps_flow s = PaymentGatedTransfer → validate_for_shape e s = Ok () →
  validate_for_shape
    {| ev_counterparty_covenant_id := other;
       ev_payment_asset_id := ev_payment_asset_id e; ev_paid_amount := ev_paid_amount e;
       ev_current_daa_score := ev_current_daa_score e;
       ev_policy_commitment := ev_policy_commitment e;
       ev_authorization_commitment := ev_authorization_commitment e |} s = Ok ().
Proof.
  intros Hf. rewrite !validate_for_shape_ok, Hf. cbn [terms_of_evidence ev_authorization_commitment].
  rewrite !Forall_cons, !Forall_nil. by cbn.
Qed.

(** * The covenant state *)

Lemma encode_payload_inj s t : encode_payload s = encode_payload t → s = t.
Proof.
  unfold encode_payload, into_vec, writer_new. intros E.
  repeat rewrite !write_seq_nil in E by apply _. unfold write_bytes32, write_u16, write_bytes in E.
  cbn [app] in E. apply app_inj_1 in E as [_ E]; [|done].
  apply u16_le_app_inj in E as [Ev E].
  apply encode_chain_app_inj in E as [Ec E].
  apply bytes_app_inj in E as [El E]. apply bytes_app_inj in E as [Ea E].
  apply bytes_app_inj in E as [Ed E]. apply encode_policy_app_inj in E as [Ep E].
  apply app_inj_1 in E as [Em E];
    [|by destruct (cs_genesis_proof_mode s), (cs_genesis_proof_mode t)].
  apply (inj blist) in E.
  assert (cs_genesis_proof_mode s = cs_genesis_proof_mode t)
    by (by destruct (cs_genesis_proof_mode s), (cs_genesis_proof_mode t)).
  destruct s, t; cbn in *. congruence.
Qed.

(** Fact: The covenant commitment binds the whole covenant state: two states with
    the same commitment agree in version, chain, lineage, asset, digest, policy,
    proof mode and replay marker, or the messages hashed for them collide. *)
Theorem covenant_commitment_binding s t :
  covenant_commitment s = covenant_commitment t →
  s = t ∨ collision [covenant_state_message s; covenant_state_message t].
Proof.
  unfold covenant_commitment. intros E. apply sha256_inj_or in E as [E|]; [left|by right].
  apply bytes_app_inj in E as [_ E]. apply u32_le_app_inj in E as [_ E].
  by apply encode_payload_inj.
Qed.
End records.

(** The successive [advance] calls along a list of digests and markers. *)
Definition advance_all (s : CovenantState) (l : list (Bytes32 * Bytes32)) : cresult CovenantState :=
  try_fold (λ s dm, advance s dm.1 dm.2) s l.

(** Consecutive digests differ, starting from the current one. *)
Fixpoint moves (current : Bytes32) (l : list (Bytes32 * Bytes32)) : Prop :=
  match l with
  | [] => True
  | (d, _) :: l' => d ≠ current ∧ moves d l'
  end.

Lemma advance_ok s d m s' :
  advance s d m = Ok s' ↔
    d ≠ cs_current_state_digest s ∧
    s' = {| cs_version := cs_version s; cs_chain_id := cs_chain_id s;
            cs_lineage_id := cs_lineage_id s; cs_asset_id := cs_asset_id s;
            cs_current_state_digest := d; cs_receipt_policy := cs_receipt_policy s;
            cs_genesis_proof_mode := cs_genesis_proof_mode s; cs_replay_marker := m |}.
Proof. unfold advance. rewrite bind_unit_ok, fail_if_ok. naive_solver. Qed.

(** C38: A covenant state keeps its type along its lineage: a run of [advance]
    calls succeeds exactly when each digest differs from the one before it; it
    then keeps version, chain, lineage, asset, policy and proof mode, holds the
    last digest and marker, and the result of a valid state is valid and
    decodes from its own payload. *)
Theorem advance_preserves_lineage (s : CovenantState) (l : list (Bytes32 * Bytes32)) s' :
  advance_all s l = Ok s' ↔
    moves (cs_current_state_digest s) l ∧
    cs_version s' = cs_version s ∧ cs_chain_id s' = cs_chain_id s ∧
    cs_lineage_id s' = cs_lineage_id s ∧ cs_asset_id s' = cs_asset_id s ∧
    cs_receipt_policy s' = cs_receipt_policy s ∧
    cs_genesis_proof_mode s' = cs_genesis_proof_mode s ∧
    (cs_current_state_digest s', cs_replay_marker s') =
      default (cs_current_state_digest s, cs_replay_marker s) (last l) ∧
    (covenant_state_validate s = Ok () →
     covenant_state_validate s' = Ok () ∧ decode_payload (encode_payload s') = Ok s').
Proof.
  assert (Hv : covenant_state_validate s' = Ok () → decode_payload (encode_payload s') = Ok s').
  { rewrite covenant_state_validate_ok. intros Hok.
    apply decode_payload_iff. split; [exact Hok|]. split; [done|apply payload_length]. }
  revert s. induction l as [|[d m] l IH]; intros s; unfold advance_all; cbn [try_fold fst snd].
  - split.
    + intros [= <-]. split_and!; auto. exact I.
    + intros (_ & ? & ? & ? & ? & ? & ? & [= ? ?] & _). destruct s, s'; cbn in *. congruence.
  - rewrite bind_ok. setoid_rewrite advance_ok. cbn [moves].
    assert (Hl : ∀ x : Bytes32 * Bytes32, default x (last ((d, m) :: l)) = default (d, m) (last l)).
    { intros x. rewrite last_cons. by destruct (last l). }
    rewrite Hl. split.
    + intros (s1 & [Hd ->] & H). apply IH in H. cbn in H. destruct H as (? & ? & ? & ? & ? & ? & ? & ? & H).
      by split_and!.
    + intros ([Hd Hm] & ? & ? & ? & ? & ? & ? & ? & H). eexists. split; [done|].
      apply IH. cbn. by split_and!.
Qed.

(** * Covenant ids *)

(** The message hashed for a covenant id. *)
Definition covenant_id_message `{KaspaCovenantIdHasher} (o : KaspaOutpoint)
    (l : list (u32 * u64 * u16 * list byte)) : list byte :=
  ltac:(message_of (compute_covenant_id o l)).

Lemma concat_output_bytes_inj (l k : list (u32 * u64 * u16 * list byte)) :
  length l = length k →
  Forall (λ o, Z.of_nat (length o.2) < 2 ^ 64)%Z l → Forall (λ o, Z.of_nat (length o.2) < 2 ^ 64)%Z k →
  concat (covenant_output_bytes <$> l) = concat (covenant_output_bytes <$> k) → l = k.
Proof.
  revert k. induction l as [|[[[i v] p] b] l IH]; intros [|[[[i' v'] p'] b'] k]; try done.
  cbn [length]. intros Hlen Hl Hk E. apply Forall_cons in Hl as [Hb Hl].
  apply Forall_cons in Hk as [Hb' Hk]. cbn in Hb, Hb'.
  cbn [fmap list_fmap concat covenant_output_bytes] in E. rewrite <-!app_assoc in E.
  apply u32_le_app_inj in E as [-> E]. apply u64_le_app_inj in E as [-> E].
  apply u16_le_app_inj in E as [-> E].
  unfold hasher_write_var_bytes, hasher_write_len in E. rewrite <-!app_assoc in E.
  apply u64_le_app_inj in E as [En E]. apply (f_equal uval) in En.
  rewrite !uval_wrap_small in En by lia. apply app_inj_1 in E as [-> E]; [|lia].
  f_equal. apply IH; [by injection Hlen|done..].
Qed.

(** Fact: A covenant id identifies its genesis: two genesis outpoints with
    authorised outputs that yield the same covenant id are the same outpoint
    with the same outputs (index, value, script version and script), in the
    same order, or the messages hashed for the two ids collide; the
    length-prefixed scripts leave no room for ambiguity. *)
Theorem covenant_id_binds_genesis `{KaspaCovenantIdHasher} o l o' l' :
  (Z.of_nat (length l) < 2 ^ 64)%Z → (Z.of_nat (length l') < 2 ^ 64)%Z →
  Forall (λ x, Z.of_nat (length x.2) < 2 ^ 64)%Z l →
  Forall (λ x, Z.of_nat (length x.2) < 2 ^ 64)%Z l' →
  compute_covenant_id o l = compute_covenant_id o' l' →
  (o = o' ∧ l = l') ∨
  collides kaspa_covenant_id_hash [covenant_id_message o l; covenant_id_message o' l'].
Proof.
  intros Hn Hn' Hl Hl' E. unfold compute_covenant_id in E.
  apply inj_or_collides in E as [Exy|]; [left|by right]. apply bytes_app_inj in Exy as [Et E]. apply u32_le_app_inj in E as [Ei E].
  unfold hasher_write_len in E. apply u64_le_app_inj in E as [En E].
  apply (f_equal uval) in En. rewrite !uval_wrap_small in En by lia.
  split; [destruct o, o'; cbn in *; congruence|].
  apply concat_output_bytes_inj; [lia|done..].
Qed.
