(* ===== verification/CovenantScript.v ===== *)
(** The covenant script builder: the second half of
    src/crates/rgk-covenant/src/lib.rs (opcodes, continuation policies,
    [CovenantSpec] and the low-level push helpers).  A script is the [Vec<u8>]
    written so far, as for the canonical [Writer]. *)

From stdpp Require Import base list strings numbers.
From Stdlib Require Import ZArith Lia Strings.Byte.
From S2P Require Import Prelude.
From S2P Require Import Bytes.
From S2P Require Import Encoding.
From S2P Require Import Types.
From S2P Require Import Commit.
From S2P Require Import Hex.
From S2P Require Import Covenant.

Open Scope list_scope.

(** * Opcodes *)

Definition OP_CAT : u8 := x7e.
Definition OP_BLAKE2B_WITH_KEY : u8 := xa7.
Definition OP_OUTPOINT_TX_ID : u8 := xba.
Definition OP_TX_INPUT_INDEX : u8 := xb9.
Definition OP_TX_INPUT_SPK : u8 := xbf.
Definition OP_TX_OUTPUT_COUNT : u8 := xb4.
Definition OP_TX_OUTPUT_SPK : u8 := xc3.
Definition OP_TX_PAYLOAD_LEN : u8 := xc4.
Definition OP_TX_PAYLOAD_SUBSTR : u8 := xb8.
Definition OP_INPUT_COVENANT_ID : u8 := xcf.
Definition OP_OUTPUT_COVENANT_ID : u8 := xd5.
Definition OP_OUTPUT_AUTHORIZING_INPUT : u8 := xd6.
Definition OP_AUTH_OUTPUT_COUNT : u8 := xcb.
Definition OP_AUTH_OUTPUT_IDX : u8 := xcc.
Definition OP_COV_INPUT_COUNT : u8 := xd0.
Definition OP_COV_INPUT_IDX : u8 := xd1.
Definition OP_COV_OUTPUT_COUNT : u8 := xd2.
Definition OP_COV_OUTPUT_IDX : u8 := xd3.
Definition OP_ZK_PRECOMPILE : u8 := xa6.
Definition OP_DUP : u8 := x76.
Definition OP_EQUAL : u8 := x87.
Definition OP_EQUAL_VERIFY : u8 := x88.
Definition OP_DROP : u8 := x75.
Definition OP_HASH160 : u8 := xa9.
Definition OP_CHECKSIG : u8 := xac.
Definition OP_ROT : u8 := x7b.
(** The literal [0x51] that ends every script. *)
Definition OP_TRUE : u8 := x51.

Definition is_rgk_toccata_opcode (b : u8) : bool :=
  bool_decide (b ∈ [OP_CAT; OP_BLAKE2B_WITH_KEY; OP_OUTPOINT_TX_ID; OP_TX_INPUT_INDEX;
    OP_TX_INPUT_SPK; OP_TX_OUTPUT_COUNT; OP_TX_OUTPUT_SPK; OP_TX_PAYLOAD_LEN;
    OP_TX_PAYLOAD_SUBSTR; OP_INPUT_COVENANT_ID; OP_OUTPUT_COVENANT_ID;
    OP_OUTPUT_AUTHORIZING_INPUT; OP_AUTH_OUTPUT_COUNT; OP_AUTH_OUTPUT_IDX; OP_COV_INPUT_COUNT;
    OP_COV_INPUT_IDX; OP_COV_OUTPUT_COUNT; OP_COV_OUTPUT_IDX; OP_ZK_PRECOMPILE; OP_DUP;
    OP_EQUAL; OP_EQUAL_VERIFY; OP_DROP; OP_HASH160; OP_CHECKSIG; OP_ROT]).

(** * Low-level pushes *)

Definition push_var_int (n : u64) : Writer → Writer :=
  if decide (n < 253)%Z then write_u8 (byte_of_Z n)
  else if decide (n <= 65535)%Z then write_u8 xfd ▷ write_u16 (wrap 16 n)
  else if decide (n <= 4294967295)%Z then write_u8 xfe ▷ write_u32 (wrap 32 n)
  else write_u8 xff ▷ write_u64 n.

Definition push_data (data : list byte) : Writer → Writer :=
  let n := Z.of_nat (length data) in
  if decide (n < 76)%Z then write_u8 (byte_of_Z n) ▷ write_bytes data
  else if decide (n <= 255)%Z then write_u8 x4c ▷ write_u8 (byte_of_Z n) ▷ write_bytes data
  else if decide (n <= 65535)%Z then write_u8 x4d ▷ write_u16 (wrap 16 n) ▷ write_bytes data
  else write_u8 x4e ▷ write_u32 (wrap 32 n) ▷ write_bytes data.

(** [while value > 0 { bytes.push((value & 0xff) as u8); value >>= 8; }], for
    at most [fuel] iterations. *)
Fixpoint value_bytes (fuel : nat) (value : Z) : option (list byte) :=
  if decide (0 < value)%Z then
    match fuel with
    | O => None
    | S fuel' =>
        rest ← value_bytes fuel' (Z.shiftr value 8);
        Some (byte_of_Z (Z.land value 255) :: rest)
    end
  else Some [].

(** The sign bit of the most significant byte: an extra byte when that bit is
    taken, else the bit itself. *)
Definition set_sign (negative : bool) (bs : list byte) : list byte :=
  if match list.last bs with Some b => negb (Z.land (byte_Z b) 128 =? 0)%Z | None => false end
  then bs ++ [if negative then x80 else x00]
  else if negative then alter (λ b, byte_of_Z (Z.lor (byte_Z b) 128)) (length bs - 1) bs
  else bs.

(** The number pushed as data, for [n] an [i64]; [n.wrapping_neg() as u64] is
    [-n] modulo [2^64].  The loop runs at most eight times on 64 bits. *)
Definition script_number (n : Z) : list byte :=
  let negative := bool_decide (n < 0)%Z in
  let value := ((if negative then - n else n) mod 2 ^ 64)%Z in
  set_sign negative (default [] (value_bytes 8 value)).

Definition push_script_i64 (n : Z) : Writer → Writer :=
  if decide (n = 0)%Z then write_u8 x00
  else if decide (n = -1)%Z then write_u8 x4f
  else if decide (1 <= n <= 16)%Z then write_u8 (byte_of_Z (80 + n))
  else push_data (script_number n).

Definition push_payload_slice_equals (start end_ : nat) (expected : list byte)
  : Writer → Writer :=
  push_script_i64 (Z.of_nat start) ▷
  push_script_i64 (Z.of_nat end_) ▷
  write_u8 OP_TX_PAYLOAD_SUBSTR ▷
  push_data expected ▷
  write_u8 OP_EQUAL_VERIFY.

Definition push_current_input_covenant_id : Writer → Writer :=
  write_u8 OP_TX_INPUT_INDEX ▷ write_u8 OP_INPUT_COVENANT_ID.

Definition push_current_input_spk : Writer → Writer :=
  write_u8 OP_TX_INPUT_INDEX ▷ write_u8 OP_TX_INPUT_SPK.

Definition push_shared_covenant_output_index (output_ordinal : Z) : Writer → Writer :=
  push_current_input_covenant_id ▷
  push_script_i64 output_ordinal ▷
  write_u8 OP_COV_OUTPUT_IDX.

(** * Continuation policies *)

Record CovenantContinuationPolicy := {
  cp_authorizing_input : u16;
  cp_exact_output_count : u32;
  cp_covenant_output_indices : list u32
}.
#[export] Instance CovenantContinuationPolicy_eq_dec : EqDecision CovenantContinuationPolicy.
Proof. solve_decision. Defined.

Definition singleton : CovenantContinuationPolicy :=
  {| cp_authorizing_input := wrap 16 0; cp_exact_output_count := wrap 32 1;
     cp_covenant_output_indices := [wrap 32 0] |}.

(** One turn of the loop over the indices, carrying the previous one. *)
Definition check_output_index (exact_output_count : u32) (previous : option u32) (idx : u32)
  : cresult (option u32) :=
  _ ← fail_if (exact_output_count <= idx)%Z
        (CE_ScriptBuild ("continuation covenant output index " ++ usize_display idx
           ++ " is outside exact output count " ++ usize_display exact_output_count));
  _ ← when_some previous (λ prev, fail_if (idx <= prev)%Z
        (CE_ScriptBuild "continuation covenant output indices must be strictly increasing"));
  Ok (Some idx).

Definition continuation_validate (self : CovenantContinuationPolicy) : cresult unit :=
  _ ← fail_if (uval (cp_exact_output_count self) = 0%Z)
        (CE_ScriptBuild "continuation policy output count must be non-zero");
  _ ← fail_if (cp_covenant_output_indices self = [])
        (CE_ScriptBuild "continuation policy requires at least one covenant output");
  _ ← try_fold (check_output_index (cp_exact_output_count self)) None
        (cp_covenant_output_indices self);
  Ok ().

Definition continuation_new (authorizing_input : u16) (exact_output_count : u32)
    (covenant_output_indices : list u32) : cresult CovenantContinuationPolicy :=
  let policy := {| cp_authorizing_input := authorizing_input;
                   cp_exact_output_count := exact_output_count;
                   cp_covenant_output_indices := covenant_output_indices |} in
  _ ← continuation_validate policy;
  Ok policy.

Record CovenantSharedContinuationPolicy := {
  sp_covenant_input_count : u32;
  sp_covenant_output_count : u32;
  sp_exact_output_count : u32
}.
#[export] Instance CovenantSharedContinuationPolicy_eq_dec :
  EqDecision CovenantSharedContinuationPolicy.
Proof. solve_decision. Defined.

Definition shared_validate (self : CovenantSharedContinuationPolicy) : cresult unit :=
  _ ← fail_if (uval (sp_covenant_input_count self) = 0%Z)
        (CE_ScriptBuild "shared continuation policy requires at least one covenant input");
  _ ← fail_if (uval (sp_covenant_output_count self) = 0%Z)
        (CE_ScriptBuild "shared continuation policy requires at least one covenant output");
  _ ← fail_if (uval (sp_exact_output_count self) = 0%Z)
        (CE_ScriptBuild "shared continuation policy output count must be non-zero");
  fail_if (sp_exact_output_count self < sp_covenant_output_count self)%Z
    (CE_ScriptBuild ("shared continuation covenant output count "
       ++ usize_display (sp_covenant_output_count self) ++ " exceeds exact output count "
       ++ usize_display (sp_exact_output_count self))).

Definition shared_new (covenant_input_count covenant_output_count exact_output_count : u32)
  : cresult CovenantSharedContinuationPolicy :=
  let policy := {| sp_covenant_input_count := covenant_input_count;
                   sp_covenant_output_count := covenant_output_count;
                   sp_exact_output_count := exact_output_count |} in
  _ ← shared_validate policy;
  Ok policy.

(** * The script *)

Record CovenantSpec := {
  sx_chain_id : KaspaChainId;
  sx_lineage_id : Bytes32;
  sx_asset_id : Bytes32;
  sx_initial_state_digest : Bytes32;
  sx_receipt_policy : ReceiptPolicy;
  sx_genesis_proof_mode : ProofMode
}.
#[export] Instance CovenantSpec_eq_dec : EqDecision CovenantSpec.
Proof. solve_decision. Defined.

Definition PAYLOAD_STATIC_PREFIX_END : nat := 16.
Definition PAYLOAD_LINEAGE_START : nat := 16.
Definition PAYLOAD_LINEAGE_END : nat := 48.
Definition PAYLOAD_CONTRACT_START : nat := 48.
Definition PAYLOAD_CONTRACT_END : nat := 80.
Definition PAYLOAD_POLICY_MODE_START : nat := 112.
Definition PAYLOAD_POLICY_MODE_END : nat := 116.

(** The length of a sample payload, as the source computes it. *)
Definition expected_payload_len : u32 :=
  let sample := {|
    cs_version := ENCODING_VERSION; cs_chain_id := KaspaLocalToccata;
    cs_lineage_id := fill 32 x01; cs_asset_id := fill 32 x02;
    cs_current_state_digest := fill 32 x03; cs_receipt_policy := Any;
    cs_genesis_proof_mode := VerifierReceipt; cs_replay_marker := fill 32 x04
  |} in
  wrap 32 (Z.of_nat (length (encode_payload sample))).

(** The state both builders take the constant fields from: zero digest and
    zero replay marker. *)
Definition template_state (self : CovenantSpec) (digest : Bytes32) : CovenantState :=
  {| cs_version := ENCODING_VERSION; cs_chain_id := sx_chain_id self;
     cs_lineage_id := sx_lineage_id self; cs_asset_id := sx_asset_id self;
     cs_current_state_digest := digest; cs_receipt_policy := sx_receipt_policy self;
     cs_genesis_proof_mode := sx_genesis_proof_mode self; cs_replay_marker := zero32 |}.

(** Sections C to E, common to both builders. *)
Definition push_payload_checks (payload_template : list byte) : Writer → Writer :=
  write_u8 OP_TX_PAYLOAD_LEN ▷
  push_script_i64 expected_payload_len ▷
  write_u8 OP_EQUAL_VERIFY ▷
  push_payload_slice_equals 0 PAYLOAD_STATIC_PREFIX_END
    (slice payload_template 0 PAYLOAD_STATIC_PREFIX_END) ▷
  push_payload_slice_equals PAYLOAD_LINEAGE_START PAYLOAD_LINEAGE_END
    (slice payload_template PAYLOAD_LINEAGE_START PAYLOAD_LINEAGE_END) ▷
  push_payload_slice_equals PAYLOAD_CONTRACT_START PAYLOAD_CONTRACT_END
    (slice payload_template PAYLOAD_CONTRACT_START PAYLOAD_CONTRACT_END) ▷
  push_payload_slice_equals PAYLOAD_POLICY_MODE_START PAYLOAD_POLICY_MODE_END
    (slice payload_template PAYLOAD_POLICY_MODE_START PAYLOAD_POLICY_MODE_END) ▷
  write_u8 OP_TRUE.

(** The checks of one continuation output. *)
Definition push_output_checks (authorizing_input : u16) (output_index : u32) : Writer → Writer :=
  push_script_i64 authorizing_input ▷
  write_u8 OP_TX_INPUT_SPK ▷
  push_script_i64 output_index ▷
  write_u8 OP_TX_OUTPUT_SPK ▷
  write_u8 OP_EQUAL_VERIFY ▷
  push_script_i64 authorizing_input ▷
  write_u8 OP_INPUT_COVENANT_ID ▷
  push_script_i64 output_index ▷
  write_u8 OP_OUTPUT_COVENANT_ID ▷
  write_u8 OP_EQUAL_VERIFY ▷
  push_script_i64 output_index ▷
  write_u8 OP_OUTPUT_AUTHORIZING_INPUT ▷
  push_script_i64 authorizing_input ▷
  write_u8 OP_EQUAL_VERIFY.

Definition build_script_for_policy (self : CovenantSpec) (policy : CovenantContinuationPolicy)
  : cresult (list byte) :=
  _ ← continuation_validate policy;
  let payload_template := encode_payload (template_state self zero32) in
  _ ← fail_if (Z.of_nat (length payload_template) ≠ expected_payload_len)
        (CE_ScriptBuild "payload length template mismatch");
  Ok (into_vec ((
    write_u8 OP_TX_INPUT_INDEX ▷
    push_script_i64 (cp_authorizing_input policy) ▷
    write_u8 OP_EQUAL_VERIFY ▷
    write_u8 OP_TX_OUTPUT_COUNT ▷
    push_script_i64 (cp_exact_output_count policy) ▷
    write_u8 OP_EQUAL_VERIFY ▷
    write_all (push_output_checks (cp_authorizing_input policy))
      (cp_covenant_output_indices policy) ▷
    push_payload_checks payload_template) writer_new)).

Definition build_script (self : CovenantSpec) : cresult (list byte) :=
  build_script_for_policy self singleton.

(** The checks of one shared covenant output. *)
Definition push_shared_output_checks (output_ordinal : Z) : Writer → Writer :=
  push_current_input_spk ▷
  push_shared_covenant_output_index output_ordinal ▷
  write_u8 OP_TX_OUTPUT_SPK ▷
  write_u8 OP_EQUAL_VERIFY ▷
  push_current_input_covenant_id ▷
  push_shared_covenant_output_index output_ordinal ▷
  write_u8 OP_OUTPUT_COVENANT_ID ▷
  write_u8 OP_EQUAL_VERIFY.

Definition build_script_for_shared_policy (self : CovenantSpec)
    (policy : CovenantSharedContinuationPolicy) : cresult (list byte) :=
  _ ← shared_validate policy;
  let payload_template := encode_payload (template_state self zero32) in
  _ ← fail_if (Z.of_nat (length payload_template) ≠ expected_payload_len)
        (CE_ScriptBuild "payload length template mismatch");
  Ok (into_vec ((
    write_u8 OP_TX_OUTPUT_COUNT ▷
    push_script_i64 (sp_exact_output_count policy) ▷
    write_u8 OP_EQUAL_VERIFY ▷
    push_current_input_covenant_id ▷
    write_u8 OP_COV_INPUT_COUNT ▷
    push_script_i64 (sp_covenant_input_count policy) ▷
    write_u8 OP_EQUAL_VERIFY ▷
    push_current_input_covenant_id ▷
    write_u8 OP_COV_OUTPUT_COUNT ▷
    push_script_i64 (sp_covenant_output_count policy) ▷
    write_u8 OP_EQUAL_VERIFY ▷
    write_all push_shared_output_checks (seqZ 0 (sp_covenant_output_count policy)) ▷
    push_payload_checks payload_template) writer_new)).

(** The preimage is lineage, 32-bit payload length, payload. *)
Definition expected_payload_hash `{Sha256} (self : CovenantSpec) : Bytes32 :=
  let payload := encode_payload (template_state self (sx_initial_state_digest self)) in
  sha256 (sx_lineage_id self ++ u32_le (wrap 32 (Z.of_nat (length payload))) ++ payload).
