(* ===== verification/ScriptNumber.v ===== *)
(** Script numbers: [push_script_i64] of src/crates/rgk-covenant/src/lib.rs
    appends the one shortest push of every [i64], and its digit loop ends. *)

From stdpp Require Import base list strings numbers.
From Stdlib Require Import ZArith Lia Strings.Byte.
From S2P Require Import Prelude.
From S2P Require Import Bytes.
From S2P Require Import Encoding.
From S2P Require Import Hex.
From S2P Require Import CovenantScript.

Open Scope Z_scope.

(** * Reading a number back

    Little-endian digits; the top bit of the last byte is the sign. *)
Definition half (n : nat) : Z := 256 ^ Z.of_nat n / 2.

Definition script_num_value (bs : list byte) : Z :=
  let v := le_val bs in
  if decide (v < half (length bs)) then v else half (length bs) - v.

Definition is_i64 (n : Z) : Prop := - 2 ^ 63 <= n < 2 ^ 63.

Lemma pow256_S n : 256 ^ Z.of_nat (S n) = 256 * 256 ^ Z.of_nat n.
Proof. rewrite Nat2Z.inj_succ, Z.pow_succ_r; lia. Qed.

Lemma pow256_pos n : 0 < 256 ^ Z.of_nat n.
Proof. apply Z.pow_pos_nonneg; lia. Qed.

Lemma half_S n : half (S n) = 128 * 256 ^ Z.of_nat n.
Proof.
  unfold half. rewrite pow256_S.
  replace (256 * 256 ^ Z.of_nat n) with (128 * 256 ^ Z.of_nat n * 2) by lia.
  apply Z.div_mul. lia.
Qed.

Lemma pow256_mono n m : (n <= m)%nat → 256 ^ Z.of_nat n <= 256 ^ Z.of_nat m.
Proof. intros. apply Z.pow_le_mono_r; lia. Qed.

Lemma le_val_snoc l b : le_val (l ++ [b]) = le_val l + 256 ^ Z.of_nat (length l) * byte_Z b.
Proof.
  induction l as [|x l IH]; cbn [le_val app length]; [cbn; lia|].
  rewrite IH, pow256_S. lia.
Qed.

(** * The digit loop *)

Lemma value_bytes_zero fuel : value_bytes fuel 0 = Some [].
Proof. by destruct fuel. Qed.

Lemma value_bytes_spec fuel v :
  0 <= v < 256 ^ Z.of_nat fuel →
  ∃ bs, value_bytes fuel v = Some bs ∧ le_val bs = v ∧ (length bs <= fuel)%nat ∧
    (0 < v → ∃ k, length bs = S k ∧ 256 ^ Z.of_nat k <= v).
Proof.
  revert v. induction fuel as [|fuel IH]; intros v Hv.
  - change (256 ^ Z.of_nat 0) with 1 in Hv. exists []. unfold value_bytes.
    rewrite decide_False by lia. split_and!; [done|cbn; lia|done|lia].
  - rewrite pow256_S in Hv. cbn [value_bytes]. case_decide as Hpos; cycle 1.
    { exists []. split_and!; [done|cbn; lia|cbn; lia|lia]. }
    rewrite Z.shiftr_div_pow2 by lia. change (2 ^ 8) with 256.
    pose proof (Z.div_mod v 256 ltac:(lia)) as Hdm.
    pose proof (Z.mod_pos_bound v 256 ltac:(lia)) as Hm.
    destruct (IH (v / 256)) as (bs & Hbs & Hval & Hlen & Hmin).
    { split; [apply Z.div_pos; lia|apply Z.div_lt_upper_bound; lia]. }
    rewrite Hbs. cbn [mbind option_bind]. eexists. split; [done|].
    change 255 with (Z.ones 8). rewrite Z.land_ones by lia. change (2 ^ 8) with 256.
    cbn [le_val length]. rewrite byte_Z_of_Z, Z.mod_mod by lia.
    split_and!; [lia|lia|]. intros _. destruct (decide (0 < v / 256)) as [Hq|Hq].
    + destruct (Hmin Hq) as (k & -> & Hk). exists (S k). split; [done|]. rewrite pow256_S. lia.
    + replace (v / 256) with 0 in Hbs by lia. rewrite value_bytes_zero in Hbs. injection Hbs as <-.
      exists O. split; [done|]. change (256 ^ Z.of_nat 0) with 1. lia.
Qed.

Lemma value_bytes_fuel fuel fuel' v bs :
  (fuel <= fuel')%nat → value_bytes fuel v = Some bs → value_bytes fuel' v = Some bs.
Proof.
  revert fuel' v bs. induction fuel as [|fuel IH]; intros fuel' v bs Hle.
  - unfold value_bytes at 1. case_decide; [done|]. intros [= <-].
    destruct fuel'; cbn [value_bytes]; by rewrite decide_False.
  - destruct fuel' as [|fuel']; [lia|]. cbn [value_bytes]. case_decide; [|done].
    destruct (value_bytes fuel _) as [rest|] eqn:E; [|done].
    by rewrite (IH fuel' _ rest) by (done || lia).
Qed.

(** Fact: The digit loop of [push_script_i64] ends: on any 64-bit value it reaches
    zero within eight iterations, and allowing more changes nothing; the bytes it
    leaves are the little-endian digits of the value, without a leading zero. *)
Theorem value_loop_terminates (v : u64) (fuel : nat) :
  (8 <= fuel)%nat →
  ∃ bs, value_bytes fuel v = Some bs ∧ value_bytes 8 v = Some bs ∧
    le_val bs = v ∧ (length bs <= 8)%nat ∧ list.last bs ≠ Some x00.
Proof.
  intros Hf. destruct (value_bytes_spec 8 v) as (bs & Hbs & Hval & Hlen & Hmin).
  { exact (uint_range v). }
  exists bs. split_and!; [by eapply value_bytes_fuel|done..|].
  intros Hlast. destruct bs as [|b bs] using rev_ind; [done|].
  rewrite last_snoc in Hlast. injection Hlast as ->.
  rewrite le_val_snoc in Hval. cbn in Hval.
  rewrite length_app in Hmin. pose proof (le_val_range bs) as Hr.
  change (byte_Z x00) with 0 in Hval. pose proof (uint_range v).
  destruct (decide (0 < v)) as [Hpos|Hpos].
  - destruct (Hmin Hpos) as (k & Hk & Hle). cbn in Hk. replace (length bs) with k in Hr by lia. lia.
  - replace (uval v) with 0 in Hbs by lia. rewrite value_bytes_zero in Hbs.
    injection Hbs as Hbs. by destruct bs.
Qed.

(** * The sign *)

Lemma high_bit b : (Z.land (byte_Z b) 128 =? 0) = bool_decide (byte_Z b < 128).
Proof. revert b. apply (byte_ind _). vm_compute. reflexivity. Qed.

Lemma or_high_bit b : byte_Z b < 128 → byte_Z (byte_of_Z (Z.lor (byte_Z b) 128)) = byte_Z b + 128.
Proof.
  intros Hb. assert (D : ∀ b, bool_decide (byte_Z b < 128) = true →
    byte_Z (byte_of_Z (Z.lor (byte_Z b) 128)) = byte_Z b + 128).
  { apply (byte_ind (λ b, _ = true → _ = _)). vm_compute. reflexivity. }
  apply D. by apply bool_decide_eq_true.
Qed.

Lemma alter_snoc (f : byte → byte) l b : alter f (length (l ++ [b]) - 1)%nat (l ++ [b]) = l ++ [f b].
Proof.
  rewrite length_app. cbn [length]. replace (length l + 1 - 1)%nat with (length l + 0)%nat by lia.
  by rewrite alter_app_r.
Qed.

Lemma set_sign_spec negative l b :
  let bs := l ++ [b] in
  script_num_value (set_sign negative bs) = (if negative then - le_val bs else le_val bs) ∧
  length (set_sign negative bs) = (if decide (half (length bs) <= le_val bs) then S (length bs) else length bs).
Proof.
  intros bs. unfold set_sign. subst bs. rewrite last_snoc, high_bit.
  pose proof (le_val_range l) as Hl. pose proof (byte_Z_range b) as Hb.
  pose proof (pow256_pos (length l)) as Hp.
  assert (Hlen : length (l ++ [b]) = S (length l)) by (rewrite length_app; cbn; lia).
  assert (Hhalf : half (length (l ++ [b])) = 128 * 256 ^ Z.of_nat (length l)) by (by rewrite Hlen, half_S).
  destruct (decide (byte_Z b < 128)) as [Hlt|Hge].
  - rewrite bool_decide_true by done. cbn [negb].
    rewrite (decide_False (P := half _ <= _)) by (rewrite Hhalf, le_val_snoc; nia).
    destruct negative.
    + rewrite alter_snoc. split; [|rewrite length_app, Hlen; cbn; lia].
      unfold script_num_value. rewrite length_app; cbn [length]. rewrite Nat.add_1_r, half_S.
      rewrite !le_val_snoc, or_high_bit by done. rewrite decide_False by nia. nia.
    + split; [|done]. unfold script_num_value. rewrite Hhalf, le_val_snoc.
      by rewrite decide_True by nia.
  - rewrite bool_decide_false by done. cbn [negb].
    rewrite (decide_True (P := half _ <= _)) by (rewrite Hhalf, le_val_snoc; nia).
    split; [|rewrite length_app; cbn; lia].
    unfold script_num_value. rewrite (length_app (l ++ [b])). cbn [length].
    rewrite Nat.add_1_r, half_S, (le_val_snoc (l ++ [b])), Hlen, pow256_S, le_val_snoc.
    destruct negative.
    + change (byte_Z x80) with 128. rewrite decide_False by nia. nia.
    + change (byte_Z x00) with 0. rewrite decide_True by nia. nia.
Qed.

(** * The encoding *)

Lemma script_number_magnitude n :
  is_i64 n → ((if bool_decide (n < 0) then - n else n) mod 2 ^ 64) = Z.abs n.
Proof.
  unfold is_i64. intros Hn. case_bool_decide; rewrite Z.mod_small by lia; lia.
Qed.

Lemma script_number_spec n :
  is_i64 n →
  script_num_value (script_number n) = n ∧ (length (script_number n) <= 9)%nat ∧
  ∀ bs, script_num_value bs = n → (length (script_number n) <= length bs)%nat.
Proof.
  intros Hn. unfold script_number. rewrite script_number_magnitude by done.
  destruct (value_bytes_spec 8 (Z.abs n)) as (ds & Hds & Hval & Hlen & Hmin).
  { unfold is_i64 in Hn. change (256 ^ Z.of_nat 8) with (2 ^ 64). lia. }
  rewrite Hds. cbn [default from_option id].
  destruct (decide (n = 0)) as [->|Hnz].
  { change (Z.abs 0) with 0 in Hds. rewrite value_bytes_zero in Hds. injection Hds as <-.
    rewrite bool_decide_false by lia. split_and!; [done|cbn; lia|intros; cbn; lia]. }
  destruct ds as [|b l] using rev_ind; [cbn in Hval; lia|]. clear IHl.
  destruct (set_sign_spec (bool_decide (n < 0)) l b) as [Hv Hl]. cbv zeta in Hv, Hl.
  rewrite Hl, Hv, Hval. clear Hl Hv. split_and!.
  - case_bool_decide; lia.
  - case_decide; lia.
  - intros bs Hbs. destruct (Hmin ltac:(lia)) as (k & Hk & Hle).
    destruct bs as [|x bs]; [change (script_num_value []) with 0 in Hbs; lia|].
    assert (Hbound : Z.abs n < half (length (x :: bs))).
    { unfold script_num_value in Hbs. pose proof (le_val_range (x :: bs)) as Hr.
      cbn [length] in *. rewrite pow256_S in Hr. rewrite half_S in *. case_decide; lia. }
    cbn [length] in *. rewrite Hk, half_S in *.
    destruct (Nat.le_gt_cases (length bs) k) as [Hkm|Hkm]; [|case_decide; lia].
    pose proof (pow256_mono _ _ Hkm). case_decide; [lia|].
    destruct (Nat.eq_dec k (length bs)) as [->|]; [lia|].
    pose proof (pow256_mono (S (length bs)) k ltac:(lia)) as Hp. rewrite pow256_S in Hp. lia.
Qed.

(** A sign-magnitude encoding of given length is unique, but for zero. *)
Lemma script_num_value_inj l k :
  length l = length k → script_num_value l = script_num_value k → script_num_value l ≠ 0 → l = k.
Proof.
  unfold script_num_value. intros Hl. rewrite Hl. intros E Hnz. apply le_val_inj; [done|].
  repeat case_decide; pose proof (le_val_range l); pose proof (le_val_range k); lia.
Qed.

(** * Reading a push back

    What the script engine leaves for a single push: [OP_DATA_n] pushes the [n]
    bytes that follow ([OP_0] none), [OP_PUSHDATA1], [2] and [4] carry the length
    in as many bytes, [OP_1NEGATE] and [OP_1] to [OP_16] push a number. *)
Definition length_width (op : byte) : option nat :=
  match op with x4c => Some 1%nat | x4d => Some 2%nat | x4e => Some 4%nat | _ => None end.

Definition pushed_data (code : list byte) : option (list byte) :=
  match code with
  | [] => None
  | op :: rest =>
      if decide (byte_Z op <= 75) then
        if decide (Z.of_nat (length rest) = byte_Z op) then Some rest else None
      else
        h ← length_width op;
        if decide ((h <= length rest)%nat ∧ le_val (take h rest) = Z.of_nat (length (drop h rest)))
        then Some (drop h rest) else None
  end.

Definition number_opcode (op : byte) : option Z :=
  if decide (byte_Z op = 79) then Some (-1)
  else if decide (81 <= byte_Z op <= 96) then Some (byte_Z op - 80)
  else None.

Definition pushed_number (code : list byte) : option Z :=
  match pushed_data code with
  | Some d => Some (script_num_value d)
  | None => match code with [op] => number_opcode op | _ => None end
  end.

(** A push with a length of its own is longer than the direct one. *)
Lemma pushed_data_inv code d :
  pushed_data code = Some d →
  code = byte_of_Z (Z.of_nat (length d)) :: d ∨ (2 + length d <= length code)%nat.
Proof.
  destruct code as [|op rest]; [done|]. unfold pushed_data. case_decide.
  - case_decide as El; [|done]. intros [= <-]. left. by rewrite El, byte_of_Z_Z.
  - destruct (length_width op) as [h|] eqn:Eh; cbn [mbind option_bind]; [|done].
    case_decide as Hd; [|done]. intros [= <-]. right. rewrite length_drop. cbn [length].
    assert (1 <= h)%nat by (destruct op; simplify_eq/=; lia). lia.
Qed.

Lemma number_opcode_inv op n :
  number_opcode op = Some n →
  (n = -1 ∧ op = x4f) ∨ (1 <= n <= 16 ∧ op = byte_of_Z (80 + n)).
Proof.
  unfold number_opcode. repeat case_decide; intros [= <-].
  - left. split; [done|]. by apply byte_Z_inj.
  - right. split; [lia|]. replace (80 + (byte_Z op - 80)) with (byte_Z op) by lia.
    by rewrite byte_of_Z_Z.
Qed.

(** The pushes of a number: its opcode, or its digits with their length in front,
    or something longer. *)
Lemma pushed_number_inv code n :
  pushed_number code = Some n →
  (∃ op, code = [op] ∧ number_opcode op = Some n) ∨
  ∃ d, script_num_value d = n ∧
    (code = byte_of_Z (Z.of_nat (length d)) :: d ∨ (2 + length d <= length code)%nat).
Proof.
  unfold pushed_number. destruct (pushed_data code) as [d|] eqn:Ed.
  - intros [= <-]. right. exists d. split; [done|]. by apply pushed_data_inv.
  - destruct code as [|op [|]]; intros E; [done| |done]. left. by exists op.
Qed.

Lemma pushed_number_data d :
  (length d <= 75)%nat →
  pushed_number (byte_of_Z (Z.of_nat (length d)) :: d) = Some (script_num_value d).
Proof.
  intros Hd. unfold pushed_number, pushed_data. rewrite byte_Z_of_Z, Z.mod_small by lia.
  by rewrite decide_True, decide_True by lia.
Qed.

Lemma pushed_number_opcode op n : number_opcode op = Some n → pushed_number [op] = Some n.
Proof.
  intros E. unfold pushed_number, pushed_data.
  destruct (number_opcode_inv op n E) as [[-> ->]|[Hn ->]]; [done|].
  rewrite decide_False by (rewrite byte_Z_of_Z, Z.mod_small; lia).
  destruct (length_width _) as [h|] eqn:Eh; [|done]. exfalso.
  assert (Ho : ∀ op, length_width op ≠ None → byte_Z op <= 78) by (intros []; cbn; lia || done).
  specialize (Ho (byte_of_Z (80 + n))). rewrite Eh, byte_Z_of_Z, Z.mod_small in Ho by lia.
  specialize (Ho ltac:(done)). lia.
Qed.

(** * What [push_script_i64] appends *)

(** The numbers with an opcode, and the opcode. *)
Definition small_opcode (n : Z) : byte :=
  if decide (n = 0) then x00 else if decide (n = -1) then x4f else byte_of_Z (80 + n).

Lemma push_script_i64_small n out :
  -1 <= n <= 16 → push_script_i64 n out = out ++ [small_opcode n].
Proof.
  intros Hn. unfold push_script_i64, small_opcode. repeat case_decide; done || lia.
Qed.

Lemma push_script_i64_data n out :
  is_i64 n → ~ -1 <= n <= 16 →
  push_script_i64 n out =
    out ++ byte_of_Z (Z.of_nat (length (script_number n))) :: script_number n.
Proof.
  intros Hi Hn. destruct (script_number_spec n Hi) as (_ & Hl & _).
  unfold push_script_i64. rewrite !decide_False by lia. unfold push_data.
  rewrite decide_True by lia. unfold write_seq, write_u8, write_bytes. by rewrite <-app_assoc.
Qed.

Lemma small_opcode_pushes n : -1 <= n <= 16 → pushed_number [small_opcode n] = Some n.
Proof.
  intros Hn. unfold small_opcode. case_decide; [by subst|]. case_decide; [by subst|].
  apply pushed_number_opcode. unfold number_opcode.
  rewrite byte_Z_of_Z, Z.mod_small by lia. rewrite decide_False, decide_True by lia.
  f_equal. lia.
Qed.

Lemma small_opcode_only n code :
  -1 <= n <= 16 → pushed_number code = Some n →
  code = [small_opcode n] ∨ (1 < length code)%nat.
Proof.
  intros Hn [(op & -> & E)|(d & Hd & Hc)]%pushed_number_inv.
  - left. destruct (number_opcode_inv op n E) as [[-> ->]|[H ->]]; [done|].
    unfold small_opcode. by rewrite !decide_False by lia.
  - destruct Hc as [->|?]; [|right; lia]. destruct d as [|b d]; [|right; cbn; lia].
    left. change (script_num_value []) with 0 in Hd. by subst.
Qed.

Lemma data_only n code :
  is_i64 n → ~ -1 <= n <= 16 → pushed_number code = Some n →
  let bs := script_number n in
  code = byte_of_Z (Z.of_nat (length bs)) :: bs ∨ (1 + length bs < length code)%nat.
Proof.
  intros Hi Hn Hp bs. destruct (script_number_spec n Hi) as (Hv & _ & Hmin).
  destruct (pushed_number_inv code n Hp) as [(op & _ & E)|(d & Hd & Hc)].
  - exfalso. destruct (number_opcode_inv op n E); lia.
  - pose proof (Hmin d Hd) as Hle. destruct Hc as [->|Hc]; [|right; subst bs; lia].
    destruct (decide (length bs = length d)) as [El|Hne]; [|right; subst bs; cbn [length]; lia].
    left. subst bs. rewrite <-(script_num_value_inj (script_number n) d); [done|done|congruence|lia].
Qed.

(** C37: [push_script_i64] is canonical.  For every [i64], what it appends to the
    script is a push of exactly that number, of at most ten bytes, and the only
    push of it that is as short: every other one is longer.  It is one opcode
    exactly for the numbers from [-1] to [16], and reaches down to [-2^63], whose
    negation wraps. *)
Theorem script_number_canonical (n : Z) (out : list byte) :
  - 2 ^ 63 <= n < 2 ^ 63 →
  ∃ code, push_script_i64 n out = out ++ code ∧ pushed_number code = Some n ∧
    (length code <= 10)%nat ∧ (length code = 1%nat ↔ -1 <= n <= 16) ∧
    ∀ code', pushed_number code' = Some n → code' = code ∨ (length code < length code')%nat.
Proof.
  intros Hi. destruct (decide (-1 <= n <= 16)) as [Hn|Hn].
  - exists [small_opcode n].
    split_and!; [by apply push_script_i64_small|by apply small_opcode_pushes|cbn; lia|done|].
    intros code' Hp. exact (small_opcode_only n code' Hn Hp).
  - destruct (script_number_spec n Hi) as (Hv & Hl & _). eexists.
    split; [by apply push_script_i64_data|].
    split_and!; [rewrite pushed_number_data by lia; by rewrite Hv|cbn; lia| |].
    + cbn [length]. split; [|lia]. destruct (script_number n); [|done].
      change (script_num_value []) with 0 in Hv. lia.
    + intros code' Hp. exact (data_only n code' Hi Hn Hp).
Qed.
