(* ===== verification/ScriptMeaning.v ===== *)
(** What the covenant scripts of src/crates/rgk-covenant/src/lib.rs say.

    A script is a list of equality checks between operands that read the
    spending transaction, each compiled to pushes, introspection opcodes and
    [OP_EQUAL_VERIFY].  The engine that runs scripts is rusty-kaspa's and is not
    part of the repository: it is a parameter [run], about which [TxScript] states
    what the [opcodes] module documents of the opcodes the builder emits. *)

From stdpp Require Import base list strings numbers.
From Stdlib Require Import ZArith Lia Strings.Byte.
From S2P Require Import Prelude.
From S2P Require Import Bytes.
From S2P Require Import Encoding.
From S2P Require Import Types.
From S2P Require Import Records.
From S2P Require Import Commit.
From S2P Require Import Covenant.
From S2P Require Import CovenantCorrect.
From S2P Require Import CovenantScript.
From S2P Require Import ScriptNumber.

Open Scope list_scope.

(** * Transactions as scripts see them *)

Record TxView := {
  tv_input_index : u32;
  tv_output_count : u32;
  tv_payload : list byte;
  tv_input_spk : Z → option (list byte);
  tv_output_spk : Z → option (list byte);
  tv_input_covenant : Z → option (list byte);
  tv_output_covenant : Z → option (list byte);
  tv_output_authorizer : Z → option u16;
  tv_cov_input_count : list byte → option u32;
  tv_cov_output_count : list byte → option u32;
  tv_cov_output_idx : list byte → Z → option u32
}.

(** [run tx script stack] accepts or fails; an introspection of something the
    transaction does not have fails. *)
Class TxScript (run : TxView → list byte → list (list byte) → bool) : Prop := {
  run_push_data tx d rest st : (length d < 76)%nat →
    run tx (push_data d [] ++ rest) st = run tx rest (d :: st);
  run_negate tx rest st : run tx (x4f :: rest) st = run tx rest ([x81] :: st);
  run_small tx n rest st : (1 <= n <= 16)%Z →
    run tx (byte_of_Z (80 + n) :: rest) st = run tx rest ([byte_of_Z n] :: st);
  run_input_index tx rest st :
    run tx (OP_TX_INPUT_INDEX :: rest) st = run tx rest (script_number (tv_input_index tx) :: st);
  run_output_count tx rest st :
    run tx (OP_TX_OUTPUT_COUNT :: rest) st = run tx rest (script_number (tv_output_count tx) :: st);
  run_payload_len tx rest st :
    run tx (OP_TX_PAYLOAD_LEN :: rest) st =
      run tx rest (script_number (Z.of_nat (length (tv_payload tx))) :: st);
  run_payload_substr tx (lo hi : nat) rest st : (lo <= hi)%nat → (Z.of_nat hi < 2 ^ 31)%Z →
    run tx (OP_TX_PAYLOAD_SUBSTR :: rest)
      (script_number (Z.of_nat hi) :: script_number (Z.of_nat lo) :: st) =
      if decide (hi <= length (tv_payload tx))%nat
      then run tx rest (slice (tv_payload tx) lo hi :: st) else false;
  run_input_spk tx (i : u32) rest st :
    run tx (OP_TX_INPUT_SPK :: rest) (script_number i :: st) =
      match tv_input_spk tx i with Some v => run tx rest (v :: st) | None => false end;
  run_output_spk tx (i : u32) rest st :
    run tx (OP_TX_OUTPUT_SPK :: rest) (script_number i :: st) =
      match tv_output_spk tx i with Some v => run tx rest (v :: st) | None => false end;
  run_input_covenant tx (i : u32) rest st :
    run tx (OP_INPUT_COVENANT_ID :: rest) (script_number i :: st) =
      match tv_input_covenant tx i with Some v => run tx rest (v :: st) | None => false end;
  run_output_covenant tx (i : u32) rest st :
    run tx (OP_OUTPUT_COVENANT_ID :: rest) (script_number i :: st) =
      match tv_output_covenant tx i with Some v => run tx rest (v :: st) | None => false end;
  run_output_authorizer tx (i : u32) rest st :
    run tx (OP_OUTPUT_AUTHORIZING_INPUT :: rest) (script_number i :: st) =
      match tv_output_authorizer tx i with
      | Some a => run tx rest (script_number a :: st) | None => false end;
  run_cov_input_count tx id rest st :
    run tx (OP_COV_INPUT_COUNT :: rest) (id :: st) =
      match tv_cov_input_count tx id with
      | Some n => run tx rest (script_number n :: st) | None => false end;
  run_cov_output_count tx id rest st :
    run tx (OP_COV_OUTPUT_COUNT :: rest) (id :: st) =
      match tv_cov_output_count tx id with
      | Some n => run tx rest (script_number n :: st) | None => false end;
  run_cov_output_idx tx id (k : u32) rest st :
    run tx (OP_COV_OUTPUT_IDX :: rest) (script_number k :: id :: st) =
      match tv_cov_output_idx tx id k with
      | Some n => run tx rest (script_number n :: st) | None => false end;
  run_equal_verify tx a b rest st :
    run tx (OP_EQUAL_VERIFY :: rest) (a :: b :: st) =
      if decide (a = b) then run tx rest st else false;
  run_true tx : run tx [OP_TRUE] [] = true
}.

(** * Checks and their compilation *)

Inductive place : Type :=
| At (i : u32)                (* a constant index *)
| ThisInput                   (* the input being executed *)
| CovOutput (ordinal : u32).  (* the n-th output of this input's covenant *)

Inductive operand : Type :=
| Num (n : u32)
| Data (d : list byte)
| InputIndex
| OutputCount
| PayloadLen
| PayloadSlice (lo hi : nat)
| InputSpk (p : place)
| OutputSpk (p : place)
| InputCovenant (p : place)
| OutputCovenant (p : place)
| OutputAuthorizer (p : place)
| CovInputCount
| CovOutputCount.

Definition compile_covenant : list byte := [OP_TX_INPUT_INDEX; OP_INPUT_COVENANT_ID].

Definition compile_place (p : place) : list byte :=
  match p with
  | At i => push_script_i64 i []
  | ThisInput => [OP_TX_INPUT_INDEX]
  | CovOutput k => compile_covenant ++ push_script_i64 k [] ++ [OP_COV_OUTPUT_IDX]
  end.

Definition compile_operand (o : operand) : list byte :=
  match o with
  | Num n => push_script_i64 n []
  | Data d => push_data d []
  | InputIndex => [OP_TX_INPUT_INDEX]
  | OutputCount => [OP_TX_OUTPUT_COUNT]
  | PayloadLen => [OP_TX_PAYLOAD_LEN]
  | PayloadSlice lo hi =>
      push_script_i64 (Z.of_nat lo) [] ++ push_script_i64 (Z.of_nat hi) [] ++ [OP_TX_PAYLOAD_SUBSTR]
  | InputSpk p => compile_place p ++ [OP_TX_INPUT_SPK]
  | OutputSpk p => compile_place p ++ [OP_TX_OUTPUT_SPK]
  | InputCovenant p => compile_place p ++ [OP_INPUT_COVENANT_ID]
  | OutputCovenant p => compile_place p ++ [OP_OUTPUT_COVENANT_ID]
  | OutputAuthorizer p => compile_place p ++ [OP_OUTPUT_AUTHORIZING_INPUT]
  | CovInputCount => compile_covenant ++ [OP_COV_INPUT_COUNT]
  | CovOutputCount => compile_covenant ++ [OP_COV_OUTPUT_COUNT]
  end.

Definition check : Type := operand * operand.

Definition compile_check (c : check) : list byte :=
  compile_operand c.1 ++ compile_operand c.2 ++ [OP_EQUAL_VERIFY].

Definition compile (p : list check) : list byte := concat (compile_check <$> p) ++ [OP_TRUE].

(** * The two programs *)

Definition output_checks (a k : u32) : list check :=
  [ (InputSpk (At a), OutputSpk (At k));
    (InputCovenant (At a), OutputCovenant (At k));
    (OutputAuthorizer (At k), Num a) ].

Definition payload_checks (template : list byte) : list check :=
  [ (PayloadLen, Num (wrap 32 148));
    (PayloadSlice 0 16, Data (slice template 0 16));
    (PayloadSlice 16 48, Data (slice template 16 48));
    (PayloadSlice 48 80, Data (slice template 48 80));
    (PayloadSlice 112 116, Data (slice template 112 116)) ].

(** An input index is a [u16], pushed through the same [i64]. *)
Definition widen (a : u16) : u32 := wrap 32 a.

Definition continuation_program (spec : CovenantSpec) (policy : CovenantContinuationPolicy)
  : list check :=
  [ (InputIndex, Num (widen (cp_authorizing_input policy)));
    (OutputCount, Num (cp_exact_output_count policy)) ] ++
  (k ← cp_covenant_output_indices policy; output_checks (widen (cp_authorizing_input policy)) k) ++
  payload_checks (encode_payload (template_state spec zero32)).

Definition shared_output_checks (ordinal : u32) : list check :=
  [ (InputSpk ThisInput, OutputSpk (CovOutput ordinal));
    (InputCovenant ThisInput, OutputCovenant (CovOutput ordinal)) ].

Definition shared_program (spec : CovenantSpec) (policy : CovenantSharedContinuationPolicy)
  : list check :=
  [ (OutputCount, Num (sp_exact_output_count policy));
    (CovInputCount, Num (sp_covenant_input_count policy));
    (CovOutputCount, Num (sp_covenant_output_count policy)) ] ++
  (k ← wrap 32 <$> seqZ 0 (sp_covenant_output_count policy); shared_output_checks k) ++
  payload_checks (encode_payload (template_state spec zero32)).

(** * The builders emit the compiled programs *)

#[export] Instance push_data_appending d : Appending (push_data d).
Proof. unfold push_data. repeat case_decide; apply _. Qed.
#[export] Instance push_script_i64_appending n : Appending (push_script_i64 n).
Proof. unfold push_script_i64. repeat case_decide; apply _. Qed.
#[export] Instance push_var_int_appending n : Appending (push_var_int n).
Proof. unfold push_var_int. repeat case_decide; apply _. Qed.
#[export] Instance push_slice_appending lo hi d : Appending (push_payload_slice_equals lo hi d).
Proof. unfold push_payload_slice_equals. apply _. Qed.
#[export] Instance push_payload_checks_appending t : Appending (push_payload_checks t).
Proof. unfold push_payload_checks. apply _. Qed.
#[export] Instance push_output_checks_appending a k : Appending (push_output_checks a k).
Proof. unfold push_output_checks. apply _. Qed.
#[export] Instance push_covenant_appending : Appending push_current_input_covenant_id.
Proof. unfold push_current_input_covenant_id. apply _. Qed.
#[export] Instance push_spk_appending : Appending push_current_input_spk.
Proof. unfold push_current_input_spk. apply _. Qed.
#[export] Instance push_shared_index_appending k : Appending (push_shared_covenant_output_index k).
Proof. unfold push_shared_covenant_output_index. apply _. Qed.
#[export] Instance push_shared_output_checks_appending k : Appending (push_shared_output_checks k).
Proof. unfold push_shared_output_checks. apply _. Qed.

Lemma widen_val (a : u16) : uval (widen a) = a.
Proof. unfold widen. pose proof (uint_range a). rewrite uval_wrap_small; lia. Qed.

Lemma expected_payload_len_val : expected_payload_len = wrap 32 148.
Proof. unfold expected_payload_len. by rewrite payload_length. Qed.

Lemma write_u8_nil b : write_u8 b [] = [b].
Proof. done. Qed.

Ltac flatten_writes :=
  unfold compile_check; cbn [compile_operand compile_place fst snd];
  repeat rewrite !write_seq_nil by apply _; rewrite ?write_u8_nil, <-?app_assoc; cbn [app].

Lemma push_payload_checks_compile t :
  push_payload_checks t [] = compile (payload_checks t).
Proof.
  unfold push_payload_checks, compile, payload_checks, push_payload_slice_equals.
  rewrite expected_payload_len_val.
  cbn [fmap list_fmap concat compile_check compile_operand fst snd].
  flatten_writes. done.
Qed.

Lemma write_all_compile {A} (f : A → Writer → Writer) (g : A → list check) l :
  (∀ x, Appending (f x)) → (∀ x, f x [] = concat (compile_check <$> g x)) →
  write_all f l [] = concat (compile_check <$> (x ← l; g x)).
Proof.
  intros Hf Hg. induction l as [|x l IH]; [done|].
  rewrite write_all_cons, write_seq_nil by apply _. cbn [mbind list_bind].
  by rewrite fmap_app, concat_app, Hg, IH.
Qed.

Lemma output_checks_compile (a : u16) (k : u32) :
  push_output_checks a k [] = concat (compile_check <$> output_checks (widen a) k).
Proof.
  unfold push_output_checks, output_checks.
  cbn [fmap list_fmap concat compile_check compile_operand compile_place fst snd].
  flatten_writes. rewrite !widen_val. by rewrite ?app_nil_r.
Qed.

Lemma shared_output_checks_compile (k : u32) :
  push_shared_output_checks k [] = concat (compile_check <$> shared_output_checks k).
Proof.
  unfold push_shared_output_checks, shared_output_checks, push_shared_covenant_output_index,
    push_current_input_spk, push_current_input_covenant_id, compile_check.
  cbn [fmap list_fmap concat compile_check compile_operand compile_place compile_covenant fst snd].
  flatten_writes. by rewrite ?app_nil_r.
Qed.

Lemma template_length_ok spec d :
  ¬ (Z.of_nat (length (encode_payload (template_state spec d))) ≠ expected_payload_len).
Proof. rewrite payload_length, expected_payload_len_val. by vm_compute. Qed.

Lemma check_indices_ok count prev l r :
  try_fold (check_output_index count) prev l = Ok r →
  Forall (λ k : u32, k < count)%Z l.
Proof.
  revert prev. induction l as [|k l IH]; intros prev E; [constructor|].
  cbn [try_fold] in E. inv_ok. constructor; [|by eapply IH].
  match goal with H : check_output_index _ _ _ = _ |- _ => unfold check_output_index in H; inv_ok end.
  lia.
Qed.

Lemma build_script_compiles_eq (spec : CovenantSpec) (policy : CovenantContinuationPolicy) :
  build_script_for_policy spec policy =
    match continuation_validate policy with
    | Ok _ => Ok (compile (continuation_program spec policy))
    | Err e => Err e
    end.
Proof.
  unfold build_script_for_policy. destruct (continuation_validate policy); [|done].
  cbn [mbind result_bind]. cbv zeta.
  rewrite fail_if_false by apply template_length_ok. cbn [mbind result_bind]. f_equal.
  unfold into_vec, writer_new, continuation_program, compile.
  rewrite !fmap_app, !concat_app, <-!app_assoc.
  rewrite <-(write_all_compile (push_output_checks (cp_authorizing_input policy)) _
    _ _ (output_checks_compile (cp_authorizing_input policy))).
  change (concat (compile_check <$> payload_checks ?t) ++ [OP_TRUE]) with (compile (payload_checks t)).
  rewrite <-push_payload_checks_compile.
  cbn [fmap list_fmap concat]. flatten_writes. by rewrite !widen_val.
Qed.

(** Fact: The builder compiles its policy: for every valid continuation policy,
    [build_script_for_policy] emits exactly the compiled list of checks of
    [continuation_program] (input index, output count, then script, covenant id
    and authoriser of every listed output, then payload length and constant
    payload fields), ended by [OP_TRUE]; for an invalid policy it returns the
    validation error. *)
Theorem build_script_compiles (spec : CovenantSpec) (policy : CovenantContinuationPolicy) :
  build_script_for_policy spec policy =
    match continuation_validate policy with
    | Ok _ => Ok (compile (continuation_program spec policy))
    | Err e => Err e
    end.
Proof. apply build_script_compiles_eq. Qed.

Lemma write_all_fmap {A B} (f : A → Writer → Writer) (g : B → A) l w :
  write_all f (g <$> l) w = write_all (λ x, f (g x)) l w.
Proof. unfold write_all. revert w. induction l as [|x l IH]; intros w; [done|]. cbn. by rewrite IH. Qed.

Lemma seqZ_wrap (n : u32) : uval <$> (wrap 32 <$> seqZ 0 n) = seqZ 0 n.
Proof.
  rewrite <-list_fmap_compose. transitivity (id <$> seqZ 0 n); [|by rewrite list_fmap_id].
  apply list_fmap_ext. intros i z Hz. apply list_elem_of_lookup_2, elem_of_seqZ in Hz.
  pose proof (uint_range n). cbn. rewrite Z.mod_small; lia.
Qed.

(** The shared builder compiles its program in the same way. *)
Lemma build_shared_script_compiles spec policy :
  build_script_for_shared_policy spec policy =
    match shared_validate policy with
    | Ok _ => Ok (compile (shared_program spec policy))
    | Err e => Err e
    end.
Proof.
  unfold build_script_for_shared_policy. destruct (shared_validate policy); [|done].
  cbn [mbind result_bind]. cbv zeta.
  rewrite fail_if_false by apply template_length_ok. cbn [mbind result_bind]. f_equal.
  unfold into_vec, writer_new, shared_program, compile.
  rewrite !fmap_app, !concat_app, <-!app_assoc.
  rewrite <-(write_all_compile (λ k : u32, push_shared_output_checks k) _ _ _
    shared_output_checks_compile).
  rewrite <-(write_all_fmap push_shared_output_checks uval), seqZ_wrap.
  change (concat (compile_check <$> payload_checks ?t) ++ [OP_TRUE]) with (compile (payload_checks t)).
  rewrite <-push_payload_checks_compile. unfold push_current_input_covenant_id.
  cbn [fmap list_fmap concat]. flatten_writes. cbn [compile_covenant app]. done.
Qed.

(** * Meaning of a program *)

Definition eval_covenant (tx : TxView) : option (list byte) :=
  tv_input_covenant tx (tv_input_index tx).

Definition eval_place (tx : TxView) (p : place) : option u32 :=
  match p with
  | At i => Some i
  | ThisInput => Some (tv_input_index tx)
  | CovOutput k => id ← eval_covenant tx; tv_cov_output_idx tx id k
  end.

Definition eval (tx : TxView) (o : operand) : option (list byte) :=
  match o with
  | Num n => Some (script_number n)
  | Data d => Some d
  | InputIndex => Some (script_number (tv_input_index tx))
  | OutputCount => Some (script_number (tv_output_count tx))
  | PayloadLen => Some (script_number (Z.of_nat (length (tv_payload tx))))
  | PayloadSlice lo hi =>
      if decide (hi <= length (tv_payload tx))%nat then Some (slice (tv_payload tx) lo hi) else None
  | InputSpk p => i ← eval_place tx p; tv_input_spk tx (uval i)
  | OutputSpk p => i ← eval_place tx p; tv_output_spk tx (uval i)
  | InputCovenant p => i ← eval_place tx p; tv_input_covenant tx (uval i)
  | OutputCovenant p => i ← eval_place tx p; tv_output_covenant tx (uval i)
  | OutputAuthorizer p =>
      i ← eval_place tx p; a ← tv_output_authorizer tx (uval i); Some (script_number (uval a))
  | CovInputCount =>
      id ← eval_covenant tx; n ← tv_cov_input_count tx id; Some (script_number (uval n))
  | CovOutputCount =>
      id ← eval_covenant tx; n ← tv_cov_output_count tx id; Some (script_number (uval n))
  end.

Definition check_holds (tx : TxView) (c : check) : Prop :=
  ∃ v, eval tx c.1 = Some v ∧ eval tx c.2 = Some v.

Definition operand_ok (o : operand) : Prop :=
  match o with
  | Data d => (length d < 76)%nat
  | PayloadSlice lo hi => (lo <= hi)%nat ∧ (Z.of_nat hi < 2 ^ 31)%Z
  | _ => True
  end.

Lemma u32_i64 (n : u32) : is_i64 n.
Proof. pose proof (uint_range n). unfold is_i64. lia. Qed.
Lemma u16_i64 (n : u16) : is_i64 n.
Proof. pose proof (uint_range n). unfold is_i64. lia. Qed.

Lemma script_number_inj n m :
  is_i64 n → is_i64 m → script_number n = script_number m → n = m.
Proof.
  intros Hn Hm E. destruct (script_number_spec n Hn) as [<- _].
  destruct (script_number_spec m Hm) as [<- _]. by rewrite E.
Qed.

Section run.
Context run `{!TxScript run}.

Lemma script_number_small n : (1 <= n <= 16)%Z → script_number n = [byte_of_Z n].
Proof.
  intros Hn. assert (D : Forall (λ n, script_number n = [byte_of_Z n]) (seqZ 1 16)).
  { apply (bool_decide_unpack _). by vm_compute. }
  apply (proj1 (list.Forall_forall _ _) D), elem_of_seqZ. lia.
Qed.

Lemma run_push_i64 tx n rest st :
  is_i64 n → run tx (push_script_i64 n [] ++ rest) st = run tx rest (script_number n :: st).
Proof.
  intros Hn. unfold push_script_i64. repeat case_decide.
  - subst. apply (run_push_data tx []). cbn. lia.
  - subst. apply run_negate.
  - rewrite script_number_small by done. by apply run_small.
  - apply run_push_data. destruct (script_number_spec n Hn) as (_ & Hl & _). lia.
Qed.

Lemma run_covenant tx rest st :
  run tx (compile_covenant ++ rest) st =
    match eval_covenant tx with Some v => run tx rest (v :: st) | None => false end.
Proof. unfold compile_covenant, eval_covenant. cbn [app]. by rewrite run_input_index, run_input_covenant. Qed.

Lemma run_place tx p rest st :
  run tx (compile_place p ++ rest) st =
    match eval_place tx p with Some i => run tx rest (script_number i :: st) | None => false end.
Proof.
  destruct p as [i| |k]; cbn [compile_place eval_place].
  - apply run_push_i64, u32_i64.
  - apply run_input_index.
  - rewrite <-!app_assoc, run_covenant. destruct (eval_covenant tx) as [id|]; [|done].
    rewrite run_push_i64 by apply u32_i64. apply run_cov_output_idx.
Qed.

Lemma run_operand tx o rest st :
  operand_ok o →
  run tx (compile_operand o ++ rest) st =
    match eval tx o with Some v => run tx rest (v :: st) | None => false end.
Proof.
  intros Ho. destruct o; cbn [compile_operand eval]; rewrite <-?app_assoc; cbn [app].
  - apply run_push_i64, u32_i64.
  - by apply run_push_data.
  - apply run_input_index.
  - apply run_output_count.
  - apply run_payload_len.
  - destruct Ho as [Hlo Hhi]. rewrite !run_push_i64 by (unfold is_i64; lia). cbn [app].
    rewrite run_payload_substr by done. by case_decide.
  - rewrite run_place. destruct (eval_place tx p); [|done]. apply run_input_spk.
  - rewrite run_place. destruct (eval_place tx p); [|done]. apply run_output_spk.
  - rewrite run_place. destruct (eval_place tx p); [|done]. apply run_input_covenant.
  - rewrite run_place. destruct (eval_place tx p); [|done]. apply run_output_covenant.
  - rewrite run_place. destruct (eval_place tx p) as [i|]; [|done]. cbn [app].
    rewrite run_output_authorizer. cbn. by destruct (tv_output_authorizer tx i).
  - rewrite run_covenant. destruct (eval_covenant tx) as [id|]; [|done]. cbn [app].
    rewrite run_cov_input_count. cbn. by destruct (tv_cov_input_count tx id).
  - rewrite run_covenant. destruct (eval_covenant tx) as [id|]; [|done]. cbn [app].
    rewrite run_cov_output_count. cbn. by destruct (tv_cov_output_count tx id).
Qed.

Lemma run_program tx (p : list check) :
  Forall (λ c : check, operand_ok c.1 ∧ operand_ok c.2) p →
  run tx (compile p) [] = true ↔ Forall (check_holds tx) p.
Proof.
  induction 1 as [|[a b] p [Ha Hb] _ IH].
  - change (compile []) with [OP_TRUE]. rewrite run_true. by rewrite list.Forall_nil.
  - unfold compile in *. cbn [fmap list_fmap concat]. unfold compile_check at 1; cbn [fst snd] in *.
    rewrite <-!app_assoc, run_operand by done. rewrite list.Forall_cons, <-IH. unfold check_holds at 1.
    cbn [fst snd]. destruct (eval tx a) as [v|]; [|naive_solver].
    rewrite run_operand by done. destruct (eval tx b) as [w|]; [|naive_solver].
    cbn [app]. rewrite run_equal_verify. case_decide; naive_solver.
Qed.
End run.

(** * What a spend must satisfy *)

(** The payload carries a state with the constants of the spec. *)
Definition carries_state (tx : TxView) (spec : CovenantSpec) : Prop :=
  ∃ digest marker, tv_payload tx = encode_payload
    {| cs_version := ENCODING_VERSION; cs_chain_id := sx_chain_id spec;
       cs_lineage_id := sx_lineage_id spec; cs_asset_id := sx_asset_id spec;
       cs_current_state_digest := digest; cs_receipt_policy := sx_receipt_policy spec;
       cs_genesis_proof_mode := sx_genesis_proof_mode spec; cs_replay_marker := marker |}.

(** Output [k] keeps script and covenant of input [a], which authorises it. *)
Definition continues (tx : TxView) (a : u16) (k : u32) : Prop :=
  (∃ spk, tv_input_spk tx a = Some spk ∧ tv_output_spk tx k = Some spk) ∧
  (∃ id, tv_input_covenant tx a = Some id ∧ tv_output_covenant tx k = Some id) ∧
  tv_output_authorizer tx k = Some a.

Definition spend_allowed (tx : TxView) (spec : CovenantSpec) (policy : CovenantContinuationPolicy)
  : Prop :=
  uval (tv_input_index tx) = cp_authorizing_input policy ∧
  tv_output_count tx = cp_exact_output_count policy ∧
  Forall (continues tx (cp_authorizing_input policy)) (cp_covenant_output_indices policy) ∧
  carries_state tx spec.

(** A 148-byte payload in its six parts. *)
Lemma payload_parts s :
  encode_payload s =
    (COVENANT_STATE_TAG ++ u16_le (cs_version s) ++ encode (cs_chain_id s) []) ++
    cs_lineage_id s ++ cs_asset_id s ++ cs_current_state_digest s ++
    (encode (cs_receipt_policy s) [] ++ encode (cs_genesis_proof_mode s) []) ++
    cs_replay_marker s.
Proof.
  unfold encode_payload, into_vec, writer_new. repeat rewrite !write_seq_nil by apply _.
  rewrite <-!app_assoc. done.
Qed.

Lemma payload_slices s :
  slice (encode_payload s) 0 16 =
    COVENANT_STATE_TAG ++ u16_le (cs_version s) ++ encode (cs_chain_id s) [] ∧
  slice (encode_payload s) 16 48 = cs_lineage_id s ∧
  slice (encode_payload s) 48 80 = cs_asset_id s ∧
  slice (encode_payload s) 80 112 = cs_current_state_digest s ∧
  slice (encode_payload s) 112 116 =
    encode (cs_receipt_policy s) [] ++ encode (cs_genesis_proof_mode s) [] ∧
  slice (encode_payload s) 116 148 = cs_replay_marker s.
Proof.
  rewrite payload_parts.
  set (pre := COVENANT_STATE_TAG ++ u16_le (cs_version s) ++ encode (cs_chain_id s) []).
  set (pm := encode (cs_receipt_policy s) [] ++ encode (cs_genesis_proof_mode s) []).
  assert (Hpre : length pre = 16%nat).
  { unfold pre, u16_le. rewrite !length_app, bytes_length, le_bytes_length, length_chain. done. }
  assert (Hpm : length pm = 4%nat).
  { unfold pm. rewrite length_app, length_policy. by destruct (cs_genesis_proof_mode s). }
  clearbody pre pm.
  pose proof (bytes_length (cs_lineage_id s)) as Hl. pose proof (bytes_length (cs_asset_id s)) as Ha.
  pose proof (bytes_length (cs_current_state_digest s)) as Hd.
  pose proof (bytes_length (cs_replay_marker s)) as Hm.
  assert (Hhead : ∀ (l k : list byte) n, length l = n → slice (l ++ k) 0 n = l).
  { intros l k n <-. apply slice_app_head. }
  split_and!; repeat rewrite slice_app_skip by lia;
    rewrite ?Hpre, ?Hl, ?Ha, ?Hd, ?Hpm; cbn [Nat.sub]; try by apply Hhead.
  rewrite <-(app_nil_r (blist (cs_replay_marker s))) at 1. by apply Hhead.
Qed.

Lemma carries_state_iff (tx : TxView) (spec : CovenantSpec) :
  let t := encode_payload (template_state spec zero32) in
  carries_state tx spec ↔
    length (tv_payload tx) = 148%nat ∧
    slice (tv_payload tx) 0 16 = slice t 0 16 ∧ slice (tv_payload tx) 16 48 = slice t 16 48 ∧
    slice (tv_payload tx) 48 80 = slice t 48 80 ∧ slice (tv_payload tx) 112 116 = slice t 112 116.
Proof.
  intros t. destruct (payload_slices (template_state spec zero32)) as (T1 & T2 & T3 & _ & T5 & _).
  fold t in T1, T2, T3, T5. rewrite T1, T2, T3, T5. split.
  - intros (digest & marker & ->). rewrite payload_length.
    by destruct (payload_slices {| cs_version := ENCODING_VERSION; cs_chain_id := sx_chain_id spec;
      cs_lineage_id := sx_lineage_id spec; cs_asset_id := sx_asset_id spec;
      cs_current_state_digest := digest; cs_receipt_policy := sx_receipt_policy spec;
      cs_genesis_proof_mode := sx_genesis_proof_mode spec; cs_replay_marker := marker |})
      as (-> & -> & -> & _ & -> & _).
  - intros (Hlen & E1 & E2 & E3 & E5). set (p := tv_payload tx) in *.
    exists (to_array 32 (slice p 80 112)), (to_array 32 (slice p 116 148)).
    fold p. rewrite payload_parts. cbn [cs_version cs_chain_id cs_lineage_id cs_asset_id
      cs_current_state_digest cs_receipt_policy cs_genesis_proof_mode cs_replay_marker].
    assert (Hs : ∀ lo hi, (lo <= hi <= 148)%nat → length (slice p lo hi) = (hi - lo)%nat).
    { intros lo hi H. unfold slice. rewrite length_take, length_drop. lia. }
    rewrite !to_array_list by (rewrite Hs; lia).
    cbn [template_state cs_version cs_chain_id cs_lineage_id cs_asset_id
      cs_receipt_policy cs_genesis_proof_mode] in *.
    rewrite <-E1, <-E2, <-E3, <-E5. rewrite !slices_cat by lia.
    unfold slice. rewrite drop_0, firstn_all2; [done|lia].
Qed.

Lemma check_holds_num tx o v n :
  eval tx o = Some (script_number v) → is_i64 v → check_holds tx (o, Num n) ↔ v = uval n.
Proof.
  intros Ho Hv. unfold check_holds; cbn [fst snd eval]. rewrite Ho. split.
  - intros (w & [= <-] & [= E]). symmetry. apply script_number_inj; [apply u32_i64|done|done].
  - intros ->. by eexists.
Qed.

Lemma output_checks_hold tx (a : u16) (k : u32) :
  Forall (check_holds tx) (output_checks (widen a) k) ↔ continues tx a k.
Proof.
  unfold output_checks, continues. rewrite !list.Forall_cons, list.Forall_nil.
  unfold check_holds at 1 2; cbn [fst snd eval eval_place mbind option_bind]. rewrite widen_val.
  assert (check_holds tx (OutputAuthorizer (At k), Num (widen a)) ↔
    tv_output_authorizer tx k = Some a) as ->; [|tauto].
  unfold check_holds; cbn [fst snd eval eval_place mbind option_bind].
  destruct (tv_output_authorizer tx k) as [b|]; cbn; [|naive_solver].
  change (a mod 2 ^ 32)%Z with (uval (widen a)). rewrite widen_val. split.
  - intros (w & [= <-] & [= E]). f_equal. apply (inj uval).
    symmetry. apply script_number_inj; [apply u16_i64..|done].
  - intros [= ->]. by eexists.
Qed.

Lemma payload_checks_hold tx spec :
  (Z.of_nat (length (tv_payload tx)) < 2 ^ 63)%Z →
  Forall (check_holds tx) (payload_checks (encode_payload (template_state spec zero32))) ↔
    carries_state tx spec.
Proof.
  intros Hlen. rewrite carries_state_iff. unfold payload_checks.
  rewrite !list.Forall_cons, list.Forall_nil.
  rewrite (check_holds_num _ PayloadLen (Z.of_nat (length (tv_payload tx))));
    [|done|unfold is_i64; lia].
  assert (Hs : ∀ lo hi d, (hi <= 148)%nat → length (tv_payload tx) = 148%nat →
    check_holds tx (PayloadSlice lo hi, Data d) ↔ slice (tv_payload tx) lo hi = d).
  { intros lo hi d Hhi Hl. unfold check_holds; cbn [fst snd eval].
    rewrite decide_True by lia. split; [intros (v & [= <-] & [= <-]); done|intros ->; by eexists]. }
  change (uval (wrap 32 148)) with 148%Z. split.
  - intros (Hl & H). assert (length (tv_payload tx) = 148%nat) as Hl' by lia.
    rewrite !Hs in H by (done || lia). tauto.
  - intros (Hl & H). split; [lia|]. rewrite !Hs by (done || lia). tauto.
Qed.

Lemma Forall_bind_iff {A B} (f : A → list B) (P : B → Prop) (Q : A → Prop) l :
  (∀ x, Forall P (f x) ↔ Q x) → Forall P (x ← l; f x) ↔ Forall Q l.
Proof.
  intros H. induction l as [|x l IH]; [done|]. cbn [mbind list_bind].
  by rewrite Forall_app, list.Forall_cons, H, IH.
Qed.

Lemma slice_length_le (l : list byte) lo hi : (length (slice l lo hi) <= hi - lo)%nat.
Proof. unfold slice. rewrite length_take. lia. Qed.

Lemma payload_checks_ok t : Forall (λ c : check, operand_ok c.1 ∧ operand_ok c.2) (payload_checks t).
Proof.
  assert (Hd : ∀ lo hi, (hi - lo < 76)%nat → (length (slice t lo hi) < 76)%nat).
  { intros lo hi H. pose proof (slice_length_le t lo hi). lia. }
  unfold payload_checks. rewrite !list.Forall_cons, list.Forall_nil.
  cbn [operand_ok fst snd]. split_and!; try done; try lia; apply Hd; lia.
Qed.

Lemma continuation_program_ok spec policy :
  Forall (λ c : check, operand_ok c.1 ∧ operand_ok c.2) (continuation_program spec policy).
Proof.
  unfold continuation_program. rewrite !Forall_app. split_and!.
  - repeat constructor.
  - apply (Forall_bind_iff _ _ (λ _, True)); [|by apply Forall_true].
    intros k. split; [done|]. repeat constructor.
  - apply payload_checks_ok.
Qed.

Lemma covenant_script_iff run `{!TxScript run} spec policy script tx :
  build_script_for_policy spec policy = Ok script →
  (Z.of_nat (length (tv_payload tx)) < 2 ^ 63)%Z →
  run tx script [] = true ↔ spend_allowed tx spec policy.
Proof.
  intros Hs Hlen. rewrite build_script_compiles_eq in Hs.
  destruct (continuation_validate policy) as [u|]; [|done]. apply (inj Ok) in Hs as <-.
  rewrite run_program by (done || apply continuation_program_ok).
  unfold continuation_program, spend_allowed. rewrite !Forall_app, !list.Forall_cons, list.Forall_nil.
  rewrite payload_checks_hold by done.
  rewrite (Forall_bind_iff _ _ _ _ (output_checks_hold tx (cp_authorizing_input policy))).
  rewrite (check_holds_num _ InputIndex (tv_input_index tx)) by (done || apply u32_i64).
  rewrite (check_holds_num _ OutputCount (tv_output_count tx)) by (done || apply u32_i64).
  rewrite widen_val. split.
  - intros ((? & E & _) & ? & ?). split_and!; try done. by apply (inj uval).
  - intros (? & -> & ? & ?). done.
Qed.

(** C8: The covenant script enforces its policy: on any engine that runs the
    emitted opcodes as documented, the script built for a spec and a policy
    accepts a spend exactly when it executes on the configured input, has the
    exact output count, every listed output keeps the input's script and covenant
    id and names it as authoriser, and the payload is the encoding of a covenant
    state with the spec's chain, lineage, asset, policy and proof mode (any
    digest, any replay marker). *)
Theorem covenant_script_enforces run `{!TxScript run} spec policy script tx :
  build_script_for_policy spec policy = Ok script →
  (Z.of_nat (length (tv_payload tx)) < 2 ^ 63)%Z →
  run tx script [] = true ↔ spend_allowed tx spec policy.
Proof. apply covenant_script_iff, _. Qed.

(** The same for the script every input of a covenant executes. *)
Definition shared_continues (tx : TxView) (id : list byte) (ordinal : u32) : Prop :=
  ∃ k spk, tv_cov_output_idx tx id ordinal = Some k ∧
    tv_input_spk tx (tv_input_index tx) = Some spk ∧ tv_output_spk tx k = Some spk ∧
    tv_output_covenant tx k = Some id.

Definition shared_spend_allowed (tx : TxView) (spec : CovenantSpec)
    (policy : CovenantSharedContinuationPolicy) : Prop :=
  tv_output_count tx = sp_exact_output_count policy ∧
  (∃ id, tv_input_covenant tx (tv_input_index tx) = Some id ∧
    tv_cov_input_count tx id = Some (sp_covenant_input_count policy) ∧
    tv_cov_output_count tx id = Some (sp_covenant_output_count policy) ∧
    ∀ ordinal : u32, (ordinal < sp_covenant_output_count policy)%Z →
      shared_continues tx id ordinal) ∧
  carries_state tx spec.

Lemma shared_program_ok spec policy :
  Forall (λ c : check, operand_ok c.1 ∧ operand_ok c.2) (shared_program spec policy).
Proof.
  unfold shared_program. rewrite !Forall_app. split_and!.
  - repeat constructor.
  - apply (Forall_bind_iff _ _ (λ _, True)); [|by apply Forall_true].
    intros k. split; [done|]. repeat constructor.
  - apply payload_checks_ok.
Qed.

Lemma check_holds_count tx (f : list byte → option u32) o (n : u32) id :
  eval tx o = (i ← eval_covenant tx; m ← f i; Some (script_number (uval m))) →
  eval_covenant tx = Some id → check_holds tx (o, Num n) ↔ f id = Some n.
Proof.
  intros Ho Hid. unfold check_holds; cbn [fst snd]. rewrite Ho, Hid. cbn.
  destruct (f id) as [m|]; cbn; [|naive_solver]. split.
  - intros (w & [= <-] & [= E]). f_equal. apply (inj uval).
    symmetry. apply script_number_inj; [apply u32_i64..|done].
  - intros [= ->]. by eexists.
Qed.

Lemma shared_output_checks_hold tx id ordinal :
  eval_covenant tx = Some id →
  Forall (check_holds tx) (shared_output_checks ordinal) ↔ shared_continues tx id ordinal.
Proof.
  intros Hid. unfold shared_output_checks, shared_continues.
  rewrite !list.Forall_cons, list.Forall_nil. unfold check_holds; cbn [fst snd eval eval_place].
  unfold eval_covenant in Hid. cbn [mbind option_bind]. unfold eval_covenant. rewrite Hid. cbn.
  destruct (tv_cov_output_idx tx id ordinal) as [k|]; cbn; naive_solver.
Qed.

Lemma Forall_ordinals (P : u32 → Prop) (n : u32) :
  Forall P (wrap 32 <$> seqZ 0 n) ↔ ∀ k : u32, (k < n)%Z → P k.
Proof.
  rewrite list.Forall_forall. setoid_rewrite list_elem_of_fmap. setoid_rewrite elem_of_seqZ.
  pose proof (uint_range n). split.
  - intros HP k Hk. apply HP. exists (uval k). pose proof (uint_range k).
    split; [by rewrite wrap_uval|lia].
  - intros HP _ (z & -> & Hz). apply HP. rewrite uval_wrap_small; lia.
Qed.

(** Fact: The shared covenant script enforces its policy: on any engine that runs
    the emitted opcodes as documented, it accepts a spend exactly when the
    executing input has a covenant with the configured numbers of inputs and
    outputs, the transaction has the exact output count, every output of that
    covenant keeps the input's script and covenant id, and the payload encodes a
    state with the spec's constants. *)
Theorem shared_script_enforces run `{!TxScript run} spec policy script tx :
  build_script_for_shared_policy spec policy = Ok script →
  (Z.of_nat (length (tv_payload tx)) < 2 ^ 63)%Z →
  run tx script [] = true ↔ shared_spend_allowed tx spec policy.
Proof.
  intros Hs Hlen. rewrite build_shared_script_compiles in Hs.
  destruct (shared_validate policy) as [u|]; [|done]. apply (inj Ok) in Hs as <-.
  rewrite run_program by (done || apply shared_program_ok).
  unfold shared_program, shared_spend_allowed. rewrite !Forall_app, !list.Forall_cons, list.Forall_nil.
  rewrite payload_checks_hold by done.
  rewrite (check_holds_num _ OutputCount (tv_output_count tx)) by (done || apply u32_i64).
  destruct (eval_covenant tx) as [id|] eqn:Hid; unfold eval_covenant in Hid; rewrite Hid.
  - rewrite (check_holds_count tx (tv_cov_input_count tx) _ _ id) by done.
    rewrite (check_holds_count tx (tv_cov_output_count tx) _ _ id) by done.
    rewrite (Forall_bind_iff _ _ _ _ (λ k, shared_output_checks_hold tx id k Hid)).
    rewrite Forall_ordinals. split.
    + intros ((E & ? & ? & _) & ? & ?). split; [by apply (inj uval)|]. eauto 10.
    + intros (-> & (? & [= <-] & ? & ? & ?) & ?). done.
  - split; [|naive_solver]. intros ((_ & (v & Ev & _) & _) & _). cbn in Ev.
    unfold eval_covenant in Ev. by rewrite Hid in Ev.
Qed.
