(* ===== verification/CovenantSamples.v ===== *)
(** A stand-in script engine that runs the emitted opcodes as documented, and
    the covenant theorems at concrete values. *)

From stdpp Require Import base list strings numbers.
From Stdlib Require Import ZArith Lia Strings.Byte.
From S2P Require Import Prelude.
From S2P Require Import Bytes.
From S2P Require Import Encoding.
From S2P Require Import Types.
From S2P Require Import Commit.
From S2P Require Import Covenant.
From S2P Require Import CovenantCorrect.
From S2P Require Import CovenantScript.
From S2P Require Import ScriptNumber.
From S2P Require Import ScriptMeaning.

Open Scope list_scope.

(** * The stand-in engine *)

Definition num32 (v : list byte) : u32 := wrap 32 (script_num_value v).

(** One opcode: the new stack, or failure. *)
Definition exec_op (tx : TxView) (op : byte) (st : list (list byte)) : option (list (list byte)) :=
  match op, st with
  | x00, _ => Some ([] :: st)
  | x4f, _ => Some ([x81] :: st)
  | xb9, _ => Some (script_number (tv_input_index tx) :: st)
  | xb4, _ => Some (script_number (tv_output_count tx) :: st)
  | xc4, _ => Some (script_number (Z.of_nat (length (tv_payload tx))) :: st)
  | xb8, hi :: lo :: st =>
      let lo := Z.to_nat (script_num_value lo) in
      let hi := Z.to_nat (script_num_value hi) in
      if decide (hi <= length (tv_payload tx))%nat
      then Some (slice (tv_payload tx) lo hi :: st) else None
  | xbf, i :: st => v ← tv_input_spk tx (uval (num32 i)); Some (v :: st)
  | xc3, i :: st => v ← tv_output_spk tx (uval (num32 i)); Some (v :: st)
  | xcf, i :: st => v ← tv_input_covenant tx (uval (num32 i)); Some (v :: st)
  | xd5, i :: st => v ← tv_output_covenant tx (uval (num32 i)); Some (v :: st)
  | xd6, i :: st => v ← tv_output_authorizer tx (uval (num32 i)); Some (script_number (uval v) :: st)
  | xd0, id :: st => v ← tv_cov_input_count tx id; Some (script_number (uval v) :: st)
  | xd2, id :: st => v ← tv_cov_output_count tx id; Some (script_number (uval v) :: st)
  | xd3, k :: id :: st =>
      v ← tv_cov_output_idx tx id (uval (num32 k)); Some (script_number (uval v) :: st)
  | x88, a :: b :: st => if decide (a = b) then Some st else None
  | _, _ => None
  end.

(** [pending] holds the bytes of a push that are still to be read. *)
Fixpoint sample_run_from (tx : TxView) (script : list byte) (pending : option (nat * list byte))
    (st : list (list byte)) : bool :=
  match script, pending with
  | [], Some _ => false
  | [], None => match st with [[x01]] => true | _ => false end
  | b :: rest, Some (0%nat, _) => false
  | b :: rest, Some (1%nat, d) => sample_run_from tx rest None ((d ++ [b]) :: st)
  | b :: rest, Some (S k, d) => sample_run_from tx rest (Some (k, d ++ [b])) st
  | b :: rest, None =>
      let z := byte_Z b in
      if decide (1 <= z < 76)%Z then sample_run_from tx rest (Some (Z.to_nat z, [])) st
      else if decide (81 <= z <= 96)%Z then sample_run_from tx rest None ([byte_of_Z (z - 80)] :: st)
      else match exec_op tx b st with
           | Some st' => sample_run_from tx rest None st'
           | None => false
           end
  end.

Definition sample_run (tx : TxView) (script : list byte) (st : list (list byte)) : bool :=
  sample_run_from tx script None st.

Lemma sample_pending tx d acc rest st :
  d ≠ [] →
  sample_run_from tx (d ++ rest) (Some (length d, acc)) st =
    sample_run_from tx rest None ((acc ++ d) :: st).
Proof.
  revert acc. induction d as [|b d IH]; intros acc; [done|]. intros _.
  destruct d as [|c d]; [done|]. cbn [app length sample_run_from].
  specialize (IH (acc ++ [b]) ltac:(done)). rewrite <-app_assoc in IH. exact IH.
Qed.

Lemma num32_script_number (i : u32) : num32 (script_number i) = i.
Proof.
  unfold num32. destruct (script_number_spec i (u32_i64 i)) as [-> _]. apply wrap_uval.
Qed.

Lemma script_num_nat n : (Z.of_nat n < 2 ^ 31)%Z → Z.to_nat (script_num_value (script_number (Z.of_nat n))) = n.
Proof.
  intros Hn. destruct (script_number_spec (Z.of_nat n)) as [-> _]; [unfold is_i64; lia|]. lia.
Qed.

Lemma sample_opcode tx b rest st :
  (96 < byte_Z b)%Z →
  sample_run_from tx (b :: rest) None st =
    match exec_op tx b st with Some st' => sample_run_from tx rest None st' | None => false end.
Proof. intros Hb. cbn [sample_run_from]. by rewrite !decide_False by lia. Qed.

Ltac run_op :=
  rewrite sample_opcode by done;
  cbv beta iota zeta delta [exec_op OP_TX_PAYLOAD_SUBSTR OP_TX_INPUT_SPK OP_TX_OUTPUT_SPK
    OP_INPUT_COVENANT_ID OP_OUTPUT_COVENANT_ID OP_OUTPUT_AUTHORIZING_INPUT OP_COV_INPUT_COUNT
    OP_COV_OUTPUT_COUNT OP_COV_OUTPUT_IDX OP_EQUAL_VERIFY].

#[export] Instance sample_run_script : TxScript sample_run.
Proof.
  split; intros; unfold sample_run; try reflexivity.
  - unfold push_data. rewrite decide_True by lia. rewrite write_seq_nil by apply _.
    rewrite write_u8_nil. unfold write_bytes. cbn [app sample_run_from].
    rewrite byte_Z_of_Z, Z.mod_small by lia. destruct d as [|b d].
    + reflexivity.
    + assert (1 <= Z.of_nat (length (b :: d)))%Z by (cbn [length]; lia). rewrite decide_True by lia. rewrite Nat2Z.id.
      by rewrite sample_pending.
  - cbn [sample_run_from]. rewrite byte_Z_of_Z, Z.mod_small by lia.
    rewrite decide_False by lia. rewrite decide_True by lia. by replace (80 + n - 80)%Z with n by lia.
  - run_op. rewrite !script_num_nat by lia. by case_decide.
  - run_op. rewrite num32_script_number.
    by destruct (tv_input_spk tx i).
  - run_op. rewrite num32_script_number.
    by destruct (tv_output_spk tx i).
  - run_op. rewrite num32_script_number.
    by destruct (tv_input_covenant tx i).
  - run_op. rewrite num32_script_number.
    by destruct (tv_output_covenant tx i).
  - run_op. rewrite num32_script_number.
    by destruct (tv_output_authorizer tx i).
  - run_op. by destruct (tv_cov_input_count tx id).
  - run_op. by destruct (tv_cov_output_count tx id).
  - run_op. rewrite num32_script_number.
    by destruct (tv_cov_output_idx tx id k).
  - run_op. by case_decide.
Qed.

(** * A spend of a singleton covenant *)

Definition sample_spec : CovenantSpec :=
  {| sx_chain_id := KaspaLocalToccata; sx_lineage_id := fill 32 x07; sx_asset_id := fill 32 x08;
     sx_initial_state_digest := fill 32 x09; sx_receipt_policy := Any;
     sx_genesis_proof_mode := ZkReceipt |}.

Definition sample_state : CovenantState :=
  {| cs_version := ENCODING_VERSION; cs_chain_id := KaspaLocalToccata;
     cs_lineage_id := fill 32 x07; cs_asset_id := fill 32 x08;
     cs_current_state_digest := fill 32 x0a; cs_receipt_policy := Any;
     cs_genesis_proof_mode := ZkReceipt; cs_replay_marker := fill 32 x0b |}.

Definition sample_spend (authorizer : u16) : TxView :=
  let spk := [x01; x02; x03] in
  let id := blist (fill 32 x0c) in
  {| tv_input_index := wrap 32 0; tv_output_count := wrap 32 1;
     tv_payload := encode_payload sample_state;
     tv_input_spk := λ _, Some spk; tv_output_spk := λ _, Some spk;
     tv_input_covenant := λ _, Some id; tv_output_covenant := λ _, Some id;
     tv_output_authorizer := λ _, Some authorizer;
     tv_cov_input_count := λ _, Some (wrap 32 1); tv_cov_output_count := λ _, Some (wrap 32 1);
     tv_cov_output_idx := λ _ _, Some (wrap 32 0) |}.

Definition sample_script : list byte :=
  match build_script sample_spec with Ok s => s | Err _ => [] end.

Lemma covenant_script_enforces_witness :
  sample_run (sample_spend (wrap 16 0)) sample_script [] = true ∧
  spend_allowed (sample_spend (wrap 16 0)) sample_spec singleton ∧
  ¬ spend_allowed (sample_spend (wrap 16 1)) sample_spec singleton.
Proof.
  split; [by vm_compute|]. split.
  - apply (covenant_script_enforces sample_run sample_spec singleton sample_script);
      [by vm_compute|by vm_compute|by vm_compute].
  - intros H. apply (covenant_script_enforces sample_run sample_spec singleton sample_script) in H;
      [|by vm_compute..]. revert H. by vm_compute.
Defined.

Definition sample_shared_policy : CovenantSharedContinuationPolicy :=
  {| sp_covenant_input_count := wrap 32 1; sp_covenant_output_count := wrap 32 1;
     sp_exact_output_count := wrap 32 1 |}.

Definition sample_shared_script : list byte :=
  match build_script_for_shared_policy sample_spec sample_shared_policy with
  | Ok s => s | Err _ => [] end.

Lemma shared_script_enforces_witness :
  shared_spend_allowed (sample_spend (wrap 16 0)) sample_spec sample_shared_policy.
Proof.
  apply (shared_script_enforces sample_run sample_spec sample_shared_policy sample_shared_script);
    by vm_compute.
Defined.

Lemma value_loop_terminates_witness :
  ∃ bs, value_bytes 9 (wrap 64 (2 ^ 64 - 1)) = Some bs ∧
    value_bytes 8 (wrap 64 (2 ^ 64 - 1)) = Some bs ∧
    le_val bs = wrap 64 (2 ^ 64 - 1) ∧ (length bs <= 8)%nat ∧ list.last bs ≠ Some x00.
Proof. apply (value_loop_terminates (wrap 64 (2 ^ 64 - 1)) 9). lia. Defined.

Lemma script_number_canonical_witness :
  ∃ code, push_script_i64 (- 2 ^ 63) [x51] = [x51] ++ code ∧
    pushed_number code = Some (- 2 ^ 63)%Z ∧
    (length code <= 10)%nat ∧ (length code = 1%nat ↔ (-1 <= - 2 ^ 63 <= 16)%Z) ∧
    ∀ code', pushed_number code' = Some (- 2 ^ 63)%Z → code' = code ∨ (length code < length code')%nat.
Proof. apply (script_number_canonical (- 2 ^ 63) [x51]). lia. Defined.

(** * Executions and commitments *)

Definition sample_payment_shape : AdvancedCovenantPolicyShape :=
  {| ps_chain_id := KaspaLocalToccata; ps_asset_id := fill 32 x01; ps_lineage_id := fill 32 x02;
     ps_flow := PaymentGatedTransfer; ps_covenant_id := fill 32 x03;
     ps_counterparty_covenant_id := fill 32 x04; ps_payment_asset_id := fill 32 x05;
     ps_payment_amount := wrap 64 100; ps_unlock_daa_score := wrap 64 0;
     ps_policy_commitment := zero32; ps_authorization_commitment := fill 32 x06 |}.

Definition sample_evidence (paid : Z) : AdvancedCovenantExecutionEvidence :=
  {| ev_counterparty_covenant_id := fill 32 x04; ev_payment_asset_id := fill 32 x05;
     ev_paid_amount := wrap 64 paid; ev_current_daa_score := wrap 64 7;
     ev_policy_commitment := zero32; ev_authorization_commitment := fill 32 x06 |}.

Lemma payment_gated_counterparty_unchecked_witness :
  validate_for_shape (sample_evidence 100) sample_payment_shape = Ok () ∧
  validate_for_shape
    {| ev_counterparty_covenant_id := fill 32 xff; ev_payment_asset_id := fill 32 x05;
       ev_paid_amount := wrap 64 100; ev_current_daa_score := wrap 64 7;
       ev_policy_commitment := zero32; ev_authorization_commitment := fill 32 x06 |}
    sample_payment_shape = Ok ().
Proof.
  split; [by vm_compute|].
  apply (payment_gated_counterparty_unchecked sample_payment_shape (sample_evidence 100) (fill 32 xff));
    by vm_compute.
Defined.

Definition sample_hash : Sha256 := toy_sha256.
#[local] Existing Instance sample_hash.

Definition sample_plan (paid : Z) : AdvancedCovenantExecutionPlan :=
  match execution_plan_new sample_payment_shape (sample_evidence paid) with
  | Ok p => p
  | Err _ => {| ap_shape := sample_payment_shape; ap_policy_commitment := zero32;
                ap_evidence := sample_evidence paid; ap_execution_commitment := zero32 |}
  end.

Lemma execution_commitment_binding_witness :
  execution_plan_new sample_payment_shape (sample_evidence 120) = Ok (sample_plan 120) ∧
  sample_payment_shape = sample_payment_shape ∧ sample_evidence 120 = sample_evidence 120.
Proof.
  split; [by vm_compute|].
  destruct (execution_commitment_binding sample_payment_shape (sample_evidence 120) (sample_plan 120)
    sample_payment_shape (sample_evidence 120) (sample_plan 120)) as [Hs|Hc];
    [by vm_compute..|done|exact Hs|no_collision Hc].
Defined.

Lemma covenant_commitment_binding_witness :
  covenant_commitment sample_state = covenant_commitment sample_state ∧
  (sample_state = sample_state ∨
   collision [covenant_state_message sample_state; covenant_state_message sample_state]).
Proof. split; [done|]. by apply (covenant_commitment_binding sample_state sample_state). Defined.

Definition sample_id_hash : KaspaCovenantIdHasher := toy_sha256.
#[local] Existing Instance sample_id_hash.

Definition sample_outputs : list (u32 * u64 * u16 * list byte) :=
  [(wrap 32 0, wrap 64 1000, wrap 16 0, [x51]); (wrap 32 1, wrap 64 5, wrap 16 0, [x51; x52])].

Lemma covenant_id_binds_genesis_witness :
  (outpoint_NULL = outpoint_NULL ∧ sample_outputs = sample_outputs) ∨
  collides kaspa_covenant_id_hash
    [covenant_id_message outpoint_NULL sample_outputs; covenant_id_message outpoint_NULL sample_outputs].
Proof.
  apply (covenant_id_binds_genesis outpoint_NULL sample_outputs outpoint_NULL sample_outputs);
    [done|done|repeat constructor..|done].
Defined.

(** An underpaid transfer is refused with the amounts. *)
Example underpaid_refused :
  execution_plan_new sample_payment_shape (sample_evidence 99) =
    Err (CE_AdvancedCovenantPaymentTooSmall PaymentGatedTransfer (wrap 64 100) (wrap 64 99)).
Proof. by vm_compute. Qed.
