(* ===== verification/Tx.v ===== *)
(** Transactions and their builders: src/crates/rgk-tx/src/lib.rs.

    The kaspa hashers are third-party incremental hashers: a digest is a
    parameter applied to the concatenation of the updates, so a function that
    feeds a hasher is a [Writer] transformer, as the source's own
    [PreimageWriter] is.  Arithmetic is that of the release profile (no overflow
    checks): [+] on [u64] wraps.  A body that can panic (an assertion, an index)
    returns an [option], [None] standing for the panic. *)

From stdpp Require Import base list strings numbers.
From Stdlib Require Import ZArith Lia Strings.Byte.
From S2P Require Import Prelude.
From S2P Require Import Bytes.
From S2P Require Import Encoding.
From S2P Require Import Types.
From S2P Require Import Commit.
From S2P Require Import Covenant.
From S2P Require Import CovenantScript.

Open Scope list_scope.

Definition TX_VERSION_TOCCATA : u16 := wrap 16 1.
Definition SUBNETWORK_ID_SIZE : nat := 20.
Definition SUBNETWORK_NAMESPACE_LEN : nat := 4.
Definition SUBNETWORK_ZERO_TAIL_LEN : nat := SUBNETWORK_ID_SIZE - SUBNETWORK_NAMESPACE_LEN.
Definition TOCCATA_SCRIPT_PUBLIC_KEY_MAX_SCRIPT_LEN : Z := 65535.

Abbreviation ToccataSubnetworkId := (bytes 20).
Definition SUBNETWORK_ID_NATIVE : ToccataSubnetworkId := fill 20 x00.
Definition SUBNETWORK_ID_COINBASE : ToccataSubnetworkId :=
  to_array 20 (x01 :: replicate 19 x00).

(** * Errors *)

Inductive TxBuildError : Type :=
| TE_BadFee (fee in_total : u64)
| TE_ChangeOverflow (in_total fee covenant : u64)
| TE_EmptyScriptPublicKey
| TE_ChainMismatch (expected actual : KaspaChainId)
| TE_CovenantMismatch (tx state : Bytes32)
| TE_MalformedScriptPublicKey
| TE_ScriptPublicKeyTooLong (len max : Z)
| TE_InvalidToccataSubnetwork
| TE_InvalidToccataGas
| TE_InvalidToccataSigHashType (b : u8)
| TE_ToccataSigHashInputOutOfBounds (input_index input_count : nat)
| TE_MissingToccataSigHashUtxo (input_index : nat)
| TE_InvalidToccataCovenantGroup (reason : string).
#[export] Instance TxBuildError_eq_dec : EqDecision TxBuildError.
Proof. solve_decision. Defined.

Abbreviation tresult := (result TxBuildError).

(** * Signature hash types *)

Record ToccataSigHashType := SigHash { sh_byte : u8 }.
#[export] Instance ToccataSigHashType_eq_dec : EqDecision ToccataSigHashType.
Proof. solve_decision. Defined.

Definition SIG_HASH_ALL : ToccataSigHashType := SigHash x01.
Definition SIG_HASH_NONE : ToccataSigHashType := SigHash x02.
Definition SIG_HASH_SINGLE : ToccataSigHashType := SigHash x04.
Definition SIG_HASH_ANY_ONE_CAN_PAY : ToccataSigHashType := SigHash x80.
Definition SIG_HASH_MASK : u8 := x07.

Definition byte_and (a b : byte) : byte := byte_of_Z (Z.land (byte_Z a) (byte_Z b)).
Definition byte_or (a b : byte) : byte := byte_of_Z (Z.lor (byte_Z a) (byte_Z b)).

Definition is_allowed_sig_hash_type (value : u8) : bool :=
  match value with
  | x01 | x02 | x04 | x81 | x82 | x84 => true
  | _ => false
  end.

Definition sighash_from_u8 (value : u8) : tresult ToccataSigHashType :=
  if negb (is_allowed_sig_hash_type value) then Err (TE_InvalidToccataSigHashType value)
  else Ok (SigHash value).

Definition is_sighash_all (self : ToccataSigHashType) : bool :=
  bool_decide (byte_and (sh_byte self) SIG_HASH_MASK = sh_byte SIG_HASH_ALL).
Definition is_sighash_none (self : ToccataSigHashType) : bool :=
  bool_decide (byte_and (sh_byte self) SIG_HASH_MASK = sh_byte SIG_HASH_NONE).
Definition is_sighash_single (self : ToccataSigHashType) : bool :=
  bool_decide (byte_and (sh_byte self) SIG_HASH_MASK = sh_byte SIG_HASH_SINGLE).
Definition is_sighash_anyone_can_pay (self : ToccataSigHashType) : bool :=
  bool_decide (byte_and (sh_byte self) (sh_byte SIG_HASH_ANY_ONE_CAN_PAY)
               = sh_byte SIG_HASH_ANY_ONE_CAN_PAY).

Definition sighash_bitor (self rhs : ToccataSigHashType) : ToccataSigHashType :=
  SigHash (byte_or (sh_byte self) (sh_byte rhs)).

(** * Builder transactions *)

Record CovenantBinding := {
  cb_authorizing_input : u16;
  cb_covenant_id : KaspaCovenantId
}.
#[export] Instance CovenantBinding_eq_dec : EqDecision CovenantBinding.
Proof. solve_decision. Defined.

Record TxOutput := {
  to_value : u64;
  to_script_public_key : list byte;
  to_covenant_binding : option CovenantBinding
}.
#[export] Instance TxOutput_eq_dec : EqDecision TxOutput.
Proof. solve_decision. Defined.

Definition tx_output_new (value : u64) (script_public_key : list byte) : tresult TxOutput :=
  _ ← fail_if (script_public_key = []) TE_EmptyScriptPublicKey;
  Ok {| to_value := value; to_script_public_key := script_public_key;
        to_covenant_binding := None |}.

Definition tx_output_covenant (value : u64) (script_public_key : list byte)
    (binding : CovenantBinding) : tresult TxOutput :=
  _ ← fail_if (script_public_key = []) TE_EmptyScriptPublicKey;
  Ok {| to_value := value; to_script_public_key := script_public_key;
        to_covenant_binding := Some binding |}.

Definition fee_only (value : u64) : TxOutput :=
  {| to_value := value; to_script_public_key := []; to_covenant_binding := None |}.

Definition write_len32 (len : nat) : Writer → Writer := write_u32 (wrap 32 (Z.of_nat len)).

Definition encode_tx_output (self : TxOutput) : Writer → Writer :=
  write_u64 (to_value self) ▷
  write_len32 (length (to_script_public_key self)) ▷
  write_bytes (to_script_public_key self) ▷
  match to_covenant_binding self with
  | Some b =>
      write_u8 x01 ▷ write_u16 (cb_authorizing_input b) ▷ write_bytes32 (cb_covenant_id b)
  | None => write_u8 x00
  end.

Record TxInput := {
  ti_previous_outpoint : KaspaOutpoint;
  ti_signature_script : list byte;
  ti_sequence : u64
}.
#[export] Instance TxInput_eq_dec : EqDecision TxInput.
Proof. solve_decision. Defined.

Definition tx_input_new (previous_outpoint : KaspaOutpoint) : TxInput :=
  {| ti_previous_outpoint := previous_outpoint; ti_signature_script := [];
     ti_sequence := wrap 64 0 |}.

Definition encode_tx_input (self : TxInput) : Writer → Writer :=
  write_bytes32 (transaction_id (ti_previous_outpoint self)) ▷
  write_u32 (index (ti_previous_outpoint self)) ▷
  write_len32 (length (ti_signature_script self)) ▷
  write_bytes (ti_signature_script self) ▷
  write_u64 (ti_sequence self).

Record UnsignedTx := {
  ut_inputs : list TxInput;
  ut_outputs : list TxOutput;
  ut_payload : list byte;
  ut_lock_time : u64
}.

Definition encode_unsigned_tx (self : UnsignedTx) : list byte :=
  into_vec ((
    write_len32 (length (ut_inputs self)) ▷
    write_all encode_tx_input (ut_inputs self) ▷
    write_len32 (length (ut_outputs self)) ▷
    write_all encode_tx_output (ut_outputs self) ▷
    write_len32 (length (ut_payload self)) ▷
    write_bytes (ut_payload self) ▷
    write_u64 (ut_lock_time self)) writer_new).

(** * Toccata v1 transactions *)

Record ToccataScriptPublicKey := {
  tk_version : u16;
  tk_script : list byte
}.
#[export] Instance ToccataScriptPublicKey_eq_dec : EqDecision ToccataScriptPublicKey.
Proof. solve_decision. Defined.

Definition from_versioned_bytes (b : list byte) : tresult ToccataScriptPublicKey :=
  match b with
  | b0 :: b1 :: script =>
      let script_len := Z.of_nat (length script) in
      _ ← fail_if (TOCCATA_SCRIPT_PUBLIC_KEY_MAX_SCRIPT_LEN < script_len)%Z
            (TE_ScriptPublicKeyTooLong script_len TOCCATA_SCRIPT_PUBLIC_KEY_MAX_SCRIPT_LEN);
      Ok {| tk_version := wrap 16 (le_val [b0; b1]); tk_script := script |}
  | _ => Err TE_MalformedScriptPublicKey
  end.

Definition to_versioned_bytes (self : ToccataScriptPublicKey) : list byte :=
  u16_le (tk_version self) ++ tk_script self.

Record ToccataTxInput := {
  vi_previous_outpoint : KaspaOutpoint;
  vi_signature_script : list byte;
  vi_sequence : u64;
  vi_compute_budget : u16
}.
#[export] Instance ToccataTxInput_eq_dec : EqDecision ToccataTxInput.
Proof. solve_decision. Defined.

Definition toccata_input_new (previous_outpoint : KaspaOutpoint) (compute_budget : u16)
  : ToccataTxInput :=
  {| vi_previous_outpoint := previous_outpoint; vi_signature_script := [];
     vi_sequence := wrap 64 0; vi_compute_budget := compute_budget |}.

Definition from_unsigned (input : TxInput) (compute_budget : u16) : ToccataTxInput :=
  {| vi_previous_outpoint := ti_previous_outpoint input;
     vi_signature_script := ti_signature_script input; vi_sequence := ti_sequence input;
     vi_compute_budget := compute_budget |}.

Record ToccataTxOutput := {
  vo_value : u64;
  vo_script_public_key : ToccataScriptPublicKey;
  vo_covenant_binding : option CovenantBinding
}.
#[export] Instance ToccataTxOutput_eq_dec : EqDecision ToccataTxOutput.
Proof. solve_decision. Defined.

Definition toccata_output_new (value : u64) (script_public_key : ToccataScriptPublicKey)
  : ToccataTxOutput :=
  {| vo_value := value; vo_script_public_key := script_public_key; vo_covenant_binding := None |}.

Definition toccata_output_covenant (value : u64) (script_public_key : ToccataScriptPublicKey)
    (covenant_binding : CovenantBinding) : ToccataTxOutput :=
  {| vo_value := value; vo_script_public_key := script_public_key;
     vo_covenant_binding := Some covenant_binding |}.

Definition toccata_output_try_from (output : TxOutput) : tresult ToccataTxOutput :=
  spk ← from_versioned_bytes (to_script_public_key output);
  Ok {| vo_value := to_value output; vo_script_public_key := spk;
        vo_covenant_binding := to_covenant_binding output |}.

Record ToccataUtxoEntry := {
  ue_amount : u64;
  ue_script_public_key : ToccataScriptPublicKey
}.

Record ToccataV1Tx := {
  vt_inputs : list ToccataTxInput;
  vt_outputs : list ToccataTxOutput;
  vt_lock_time : u64;
  vt_subnetwork_id : ToccataSubnetworkId;
  vt_gas : u64;
  vt_payload : list byte;
  vt_mass : u64
}.
#[export] Instance ToccataV1Tx_eq_dec : EqDecision ToccataV1Tx.
Proof. solve_decision. Defined.

Record ToccataGenesisCovenantGroup := {
  gg_authorizing_input : u16;
  gg_outputs : list u32
}.

(** ** Subnetworks and gas *)

Definition all_zero (l : list byte) : bool := forallb (λ b, Byte.eqb b x00) l.

(** [id[4..]] all zero and [id[1..4]] not all zero *)
Definition is_toccata_user_lane (id : ToccataSubnetworkId) : bool :=
  all_zero (drop SUBNETWORK_NAMESPACE_LEN id) &&
  existsb (λ b, negb (Byte.eqb b x00)) (take (SUBNETWORK_NAMESPACE_LEN - 1) (drop 1 id)).

Definition toccata_user_lane_subnetwork (namespace : bytes 4) : tresult ToccataSubnetworkId :=
  let id := to_array 20 (blist namespace ++ replicate SUBNETWORK_ZERO_TAIL_LEN x00) in
  if is_toccata_user_lane id then Ok id else Err TE_InvalidToccataSubnetwork.

Definition validate_toccata_subnetwork (id : ToccataSubnetworkId) : tresult unit :=
  if bool_decide (id = SUBNETWORK_ID_NATIVE) || bool_decide (id = SUBNETWORK_ID_COINBASE)
     || is_toccata_user_lane id
  then Ok () else Err TE_InvalidToccataSubnetwork.

Definition validate_toccata_gas (id : ToccataSubnetworkId) (gas : u64) : tresult unit :=
  if bool_decide (uval gas = 0%Z) || is_toccata_user_lane id
  then Ok () else Err TE_InvalidToccataGas.

(** ** Construction *)

Definition toccata_tx_new (inputs : list ToccataTxInput) (outputs : list ToccataTxOutput)
    (lock_time : u64) (subnetwork_id : ToccataSubnetworkId) (gas : u64) (payload : list byte)
  : tresult ToccataV1Tx :=
  _ ← validate_toccata_subnetwork subnetwork_id;
  _ ← validate_toccata_gas subnetwork_id gas;
  Ok {| vt_inputs := inputs; vt_outputs := outputs; vt_lock_time := lock_time;
        vt_subnetwork_id := subnetwork_id; vt_gas := gas; vt_payload := payload;
        vt_mass := wrap 64 0 |}.

Definition native (inputs : list ToccataTxInput) (outputs : list ToccataTxOutput)
    (payload : list byte) : tresult ToccataV1Tx :=
  toccata_tx_new inputs outputs (wrap 64 0) SUBNETWORK_ID_NATIVE (wrap 64 0) payload.

Definition with_mass (self : ToccataV1Tx) (mass : u64) : ToccataV1Tx :=
  {| vt_inputs := vt_inputs self; vt_outputs := vt_outputs self;
     vt_lock_time := vt_lock_time self; vt_subnetwork_id := vt_subnetwork_id self;
     vt_gas := vt_gas self; vt_payload := vt_payload self; vt_mass := mass |}.

(** [.map(f).collect::<Result<Vec<_>, _>>()] *)
Fixpoint collect {E A B} (f : A → result E B) (l : list A) : result E (list B) :=
  match l with
  | [] => Ok []
  | x :: l' => y ← f x; k ← collect f l'; Ok (y :: k)
  end.

Definition into_toccata_v1 (self : UnsignedTx) (compute_budget : u16)
    (subnetwork_id : ToccataSubnetworkId) (gas mass : u64) : tresult ToccataV1Tx :=
  let inputs := (λ input, from_unsigned input compute_budget) <$> ut_inputs self in
  outputs ← collect toccata_output_try_from (ut_outputs self);
  tx ← toccata_tx_new inputs outputs (ut_lock_time self) subnetwork_id gas (ut_payload self);
  Ok (with_mass tx mass).

(** ** Feeding the hashers *)

(** [write_len]: a 64-bit length. *)
Definition feed_len (len : nat) : Writer → Writer := write_u64 (wrap 64 (Z.of_nat len)).
Definition feed_var_bytes (b : list byte) : Writer → Writer :=
  feed_len (length b) ▷ write_bytes b.

Record ToccataEncodingFlags := {
  EXCLUDE_SIGNATURE_SCRIPT : bool;
  EXCLUDE_MASS_COMMIT : bool;
  EXCLUDE_PAYLOAD : bool
}.
Definition FULL : ToccataEncodingFlags :=
  {| EXCLUDE_SIGNATURE_SCRIPT := false; EXCLUDE_MASS_COMMIT := false; EXCLUDE_PAYLOAD := false |}.
Definition REST_FLAGS : ToccataEncodingFlags :=
  {| EXCLUDE_SIGNATURE_SCRIPT := true; EXCLUDE_MASS_COMMIT := true; EXCLUDE_PAYLOAD := true |}.

Definition hash_toccata_outpoint (o : KaspaOutpoint) : Writer → Writer :=
  write_bytes32 (transaction_id o) ▷ write_u32 (index o).

Definition hash_toccata_script_public_key (spk : ToccataScriptPublicKey) : Writer → Writer :=
  write_u16 (tk_version spk) ▷ feed_var_bytes (tk_script spk).

Definition feed_binding (b : option CovenantBinding) : Writer → Writer :=
  write_bool (bool_decide (is_Some b)) ▷
  match b with
  | Some binding => write_u16 (cb_authorizing_input binding) ▷ write_bytes32 (cb_covenant_id binding)
  | None => write_nothing
  end.

Definition write_toccata_input (flags : ToccataEncodingFlags) (input : ToccataTxInput)
  : Writer → Writer :=
  hash_toccata_outpoint (vi_previous_outpoint input) ▷
  (if EXCLUDE_SIGNATURE_SCRIPT flags then feed_var_bytes []
   else feed_var_bytes (vi_signature_script input)) ▷
  write_u64 (vi_sequence input) ▷
  (if negb (EXCLUDE_MASS_COMMIT flags) then write_u16 (vi_compute_budget input)
   else write_nothing).

Definition write_toccata_output (output : ToccataTxOutput) : Writer → Writer :=
  write_u64 (vo_value output) ▷
  write_u16 (tk_version (vo_script_public_key output)) ▷
  feed_var_bytes (tk_script (vo_script_public_key output)) ▷
  feed_binding (vo_covenant_binding output).

Definition hash_toccata_output_for_sighash (output : ToccataTxOutput) : Writer → Writer :=
  write_u64 (vo_value output) ▷
  hash_toccata_script_public_key (vo_script_public_key output) ▷
  feed_binding (vo_covenant_binding output).

Definition write_transaction (flags : ToccataEncodingFlags) (self : ToccataV1Tx)
  : Writer → Writer :=
  write_u16 TX_VERSION_TOCCATA ▷
  feed_len (length (vt_inputs self)) ▷
  write_all (write_toccata_input flags) (vt_inputs self) ▷
  feed_len (length (vt_outputs self)) ▷
  write_all write_toccata_output (vt_outputs self) ▷
  write_u64 (vt_lock_time self) ▷
  write_bytes (vt_subnetwork_id self) ▷
  write_u64 (vt_gas self) ▷
  (if EXCLUDE_PAYLOAD flags then feed_var_bytes [] else feed_var_bytes (vt_payload self)) ▷
  (if negb (EXCLUDE_MASS_COMMIT flags) then write_u64 (vt_mass self) else write_nothing).

Definition write_rest_preimage (self : ToccataV1Tx) : Writer → Writer :=
  write_transaction REST_FLAGS self.

Definition rest_preimage (self : ToccataV1Tx) : list byte := write_rest_preimage self [].

(** ** Digests *)

(** The hashers of [kaspa_hashes]. *)
Class KaspaTxHashes := {
  TransactionRest : list byte → Bytes32;
  PayloadDigest : list byte → Bytes32;
  TransactionV1Id : list byte → Bytes32;
  TransactionHash : list byte → Bytes32;
  TransactionSigningHash : list byte → Bytes32
}.

Section digests.
Context `{KaspaTxHashes}.

Definition rest_digest (self : ToccataV1Tx) : Bytes32 :=
  TransactionRest (write_rest_preimage self []).

Definition payload_digest (self : ToccataV1Tx) : Bytes32 := PayloadDigest (vt_payload self).

Definition txid (self : ToccataV1Tx) : Bytes32 :=
  TransactionV1Id (payload_digest self ++ rest_digest self).

Definition tx_hash (self : ToccataV1Tx) : Bytes32 :=
  TransactionHash (write_transaction FULL self []).

Definition sighash_previous_outputs_hash (self : ToccataV1Tx) (hash_type : ToccataSigHashType)
  : Bytes32 :=
  if is_sighash_anyone_can_pay hash_type then zero32
  else TransactionSigningHash
    (write_all (λ input, hash_toccata_outpoint (vi_previous_outpoint input)) (vt_inputs self) []).

Definition sighash_sequences_hash (self : ToccataV1Tx) (hash_type : ToccataSigHashType) : Bytes32 :=
  if is_sighash_single hash_type || is_sighash_anyone_can_pay hash_type
     || is_sighash_none hash_type then zero32
  else TransactionSigningHash (write_all (λ input, write_u64 (vi_sequence input)) (vt_inputs self) []).

Definition sighash_payload_hash (self : ToccataV1Tx) : Bytes32 :=
  if bool_decide (vt_subnetwork_id self = SUBNETWORK_ID_NATIVE)
     && bool_decide (vt_payload self = []) then zero32
  else TransactionSigningHash (feed_var_bytes (vt_payload self) []).

Definition sighash_outputs_hash (self : ToccataV1Tx) (hash_type : ToccataSigHashType)
    (input_index : nat) : Bytes32 :=
  if is_sighash_none hash_type then zero32
  else if is_sighash_single hash_type then
    match vt_outputs self !! input_index with
    | None => zero32
    | Some output => TransactionSigningHash (hash_toccata_output_for_sighash output [])
    end
  else TransactionSigningHash (write_all hash_toccata_output_for_sighash (vt_outputs self) []).

Definition schnorr_signature_hash (self : ToccataV1Tx) (input_index : nat)
    (previous_utxos : list ToccataUtxoEntry) (hash_type : ToccataSigHashType) : tresult Bytes32 :=
  hash_type ← sighash_from_u8 (sh_byte hash_type);
  input ← ok_or (vt_inputs self !! input_index)
    (TE_ToccataSigHashInputOutOfBounds input_index (length (vt_inputs self)));
  previous_utxo ← ok_or (previous_utxos !! input_index)
    (TE_MissingToccataSigHashUtxo input_index);
  Ok (TransactionSigningHash ((
    write_u16 TX_VERSION_TOCCATA ▷
    write_bytes32 (sighash_previous_outputs_hash self hash_type) ▷
    write_bytes32 (sighash_sequences_hash self hash_type) ▷
    hash_toccata_outpoint (vi_previous_outpoint input) ▷
    hash_toccata_script_public_key (ue_script_public_key previous_utxo) ▷
    write_u64 (ue_amount previous_utxo) ▷
    write_u64 (vi_sequence input) ▷
    write_bytes32 (sighash_outputs_hash self hash_type input_index) ▷
    write_u64 (vt_lock_time self) ▷
    write_bytes (vt_subnetwork_id self) ▷
    write_u64 (vt_gas self) ▷
    write_bytes32 (sighash_payload_hash self) ▷
    write_u8 (sh_byte hash_type)) [])).

(** ** Borsh

    [BorshWriter::write_len] asserts that the length fits 32 bits. *)
Definition bwriter : Type := Writer → option Writer.
Definition bw (f : Writer → Writer) : bwriter := λ w, Some (f w).
Definition bw_seq (f g : bwriter) : bwriter := λ w, w' ← f w; g w'.
Definition bw_all {A} (f : A → bwriter) (l : list A) : bwriter :=
  λ w, opt_fold (λ w x, f x w) w l.
Definition bw_len (len : nat) : bwriter := λ w,
  if decide (Z.of_nat len <= 2 ^ 32 - 1)%Z then Some (write_u32 (wrap 32 (Z.of_nat len)) w)
  else None.
Definition bw_vec (b : list byte) : bwriter := bw_seq (bw_len (length b)) (bw (write_bytes b)).

Definition write_borsh_toccata_input (input : ToccataTxInput) : bwriter :=
  bw_seq (bw (hash_toccata_outpoint (vi_previous_outpoint input)))
  (bw_seq (bw_vec (vi_signature_script input))
  (bw_seq (bw (write_u64 (vi_sequence input)))
  (bw_seq (bw (write_u8 x01)) (bw (write_u16 (vi_compute_budget input)))))).

Definition write_borsh_toccata_output (output : ToccataTxOutput) : bwriter :=
  bw_seq (bw (write_u64 (vo_value output)))
  (bw_seq (bw (write_u16 (tk_version (vo_script_public_key output))))
  (bw_seq (bw_vec (tk_script (vo_script_public_key output)))
  match vo_covenant_binding output with
  | Some binding =>
      bw_seq (bw (write_u8 x01))
      (bw_seq (bw (write_u16 (cb_authorizing_input binding)))
              (bw (write_bytes32 (cb_covenant_id binding))))
  | None => bw (write_u8 x00)
  end)).

Definition to_borsh_bytes (self : ToccataV1Tx) : option (list byte) :=
  bw_seq (bw (write_u16 TX_VERSION_TOCCATA))
  (bw_seq (bw_len (length (vt_inputs self)))
  (bw_seq (bw_all write_borsh_toccata_input (vt_inputs self))
  (bw_seq (bw_len (length (vt_outputs self)))
  (bw_seq (bw_all write_borsh_toccata_output (vt_outputs self))
  (bw_seq (bw (write_u64 (vt_lock_time self)))
  (bw_seq (bw (write_bytes (vt_subnetwork_id self)))
  (bw_seq (bw (write_u64 (vt_gas self)))
  (bw_seq (bw_vec (vt_payload self))
  (bw_seq (bw (write_u64 (vt_mass self)))
          (bw (write_bytes (txid self)))))))))))) writer_new.
End digests.

(** ** Genesis covenants *)

Section genesis.
Context `{KaspaCovenantIdHasher}.

(** [outputs.windows(2).any(|pair| pair[0] >= pair[1])] *)
Definition any_unordered (l : list u32) : bool :=
  existsb (λ p : u32 * u32, bool_decide (p.2 <= p.1)%Z) (zip l (tail l)).

(** The method works on [&mut self]: what it returns comes with the transaction it
    leaves behind.  An index out of bounds panics. *)
Inductive TxFailure : Type := TF_Panic | TF_Error (e : TxBuildError).
Definition TxM : Type → Type := stateful ToccataV1Tx TxFailure.

Definition group_error (reason : string) : TxFailure :=
  TF_Error (TE_InvalidToccataCovenantGroup reason).
Definition indexed {A} (l : list A) (i : nat) : result TxFailure A := ok_or (l !! i) TF_Panic.

(** [if condition { return Err(..) }] on the transaction as it is *)
Definition refuse_when (P : ToccataV1Tx → Prop) `{∀ self, Decision (P self)} (reason : string)
  : TxM unit := reading (λ self, fail_if (P self) (group_error reason)).

Definition check_slot (seen_outputs : list bool) (output_index : u32) : TxM (list bool) :=
  let output_slot := Z.to_nat output_index in
  _ ← refuse_when (λ self, (length (vt_outputs self) <= output_slot)%nat) "output does not exist";
  seen ← reading (λ _, indexed seen_outputs output_slot);
  _ ← refuse_when (λ _, seen = true) "output appears in more than one group";
  output ← reading (λ self, indexed (vt_outputs self) output_slot);
  _ ← refuse_when (λ _, is_Some (vo_covenant_binding output)) "output already has covenant binding";
  mret (<[output_slot := true]> seen_outputs).

Definition check_group (seen_outputs : list bool) (group : ToccataGenesisCovenantGroup)
  : TxM (list bool) :=
  let input_index := Z.to_nat (gg_authorizing_input group) in
  _ ← refuse_when (λ self, (length (vt_inputs self) <= input_index)%nat)
        "authorizing input does not exist";
  _ ← refuse_when (λ _, gg_outputs group = []) "empty output group";
  _ ← refuse_when (λ _, any_unordered (gg_outputs group) = true) "outputs are not strictly ordered";
  stateful_fold check_slot seen_outputs (gg_outputs group).

Definition authorized_output (self : ToccataV1Tx) (output_index : u32)
  : option (u32 * u64 * u16 * list byte) :=
  output ← vt_outputs self !! Z.to_nat output_index;
  Some (output_index, vo_value output, tk_version (vo_script_public_key output),
        tk_script (vo_script_public_key output)).

Definition with_outputs (self : ToccataV1Tx) (outputs : list ToccataTxOutput) : ToccataV1Tx :=
  {| vt_inputs := vt_inputs self; vt_outputs := outputs; vt_lock_time := vt_lock_time self;
     vt_subnetwork_id := vt_subnetwork_id self; vt_gas := vt_gas self;
     vt_payload := vt_payload self; vt_mass := vt_mass self |}.

Definition set_binding (binding : CovenantBinding) (_ : unit) (output_index : u32) : TxM unit :=
  updating (λ self,
    let slot := Z.to_nat output_index in
    output ← indexed (vt_outputs self) slot;
    Ok (with_outputs self
          (<[slot := {| vo_value := vo_value output;
                        vo_script_public_key := vo_script_public_key output;
                        vo_covenant_binding := Some binding |}]> (vt_outputs self)))).

(** One turn of the second loop. *)
Definition bind_group (_ : unit) (group : ToccataGenesisCovenantGroup) : TxM unit :=
  input ← reading (λ self, indexed (vt_inputs self) (Z.to_nat (gg_authorizing_input group)));
  authorized_outputs ← reading (λ self, ok_or (mapM (authorized_output self) (gg_outputs group)) TF_Panic);
  let covenant_id := compute_covenant_id (vi_previous_outpoint input) authorized_outputs in
  let binding := {| cb_authorizing_input := gg_authorizing_input group;
                    cb_covenant_id := covenant_id |} in
  stateful_fold (set_binding binding) () (gg_outputs group).

Definition populate_genesis_covenants (groups : list ToccataGenesisCovenantGroup) : TxM unit :=
  seen_outputs ← reading (λ self, Ok (replicate (length (vt_outputs self)) false));
  _ ← stateful_fold check_group seen_outputs groups;
  stateful_fold bind_group () groups.
End genesis.

(** * Builders *)

Definition build_genesis_output (state : CovenantState) (spk : list byte)
    (covenant_id : KaspaCovenantId) (authorizing_input : u16) (value : u64) : tresult TxOutput :=
  _ ← fail_if (spk = []) TE_EmptyScriptPublicKey;
  _ ← fail_if (covenant_id = zero32) (TE_CovenantMismatch covenant_id (cs_lineage_id state));
  tx_output_covenant value spk
    {| cb_authorizing_input := authorizing_input; cb_covenant_id := covenant_id |}.

Definition build_transition_spend (open_covenant : KaspaOutpoint) : TxInput :=
  tx_input_new open_covenant.

Definition build_transition_outputs (new_state : CovenantState) (new_spk : list byte)
    (new_value : u64) (new_covenant_id : KaspaCovenantId) (fee change_value : u64)
    (change_spk : option (list byte)) (in_total : u64) : tresult (list TxOutput) :=
  _ ← fail_if (new_spk = []) TE_EmptyScriptPublicKey;
  _ ← fail_if (new_covenant_id = zero32)
        (TE_CovenantMismatch new_covenant_id (cs_lineage_id new_state));
  _ ← fail_if (in_total < wrapping_add fee new_value)%Z
        (TE_ChangeOverflow in_total fee new_value);
  covenant_out ← tx_output_covenant new_value new_spk
    {| cb_authorizing_input := wrap 16 0; cb_covenant_id := new_covenant_id |};
  match change_spk with
  | Some spk =>
      if decide (0 < change_value)%Z then
        change_out ← tx_output_new change_value spk;
        Ok [covenant_out; change_out]
      else Ok [covenant_out]
  | None => Ok [covenant_out]
  end.

Definition build_fee_output (value : u64) : TxOutput := fee_only value.

Definition validate_balanced (inputs outputs fee : u64) : tresult unit :=
  fail_if (inputs < wrapping_add outputs fee)%Z (TE_BadFee fee inputs).

(** * Helpers *)

Definition spk_from_redeem_script `{Sha256} (redeem_script : list byte) : list byte :=
  u16_le (wrap 16 0) ++ sha256 redeem_script.

Definition spec_from_state (state : CovenantState) : CovenantSpec :=
  {| sx_chain_id := cs_chain_id state; sx_lineage_id := cs_lineage_id state;
     sx_asset_id := cs_asset_id state; sx_initial_state_digest := cs_current_state_digest state;
     sx_receipt_policy := cs_receipt_policy state;
     sx_genesis_proof_mode := cs_genesis_proof_mode state |}.
