(* ===== verification/TxCorrect.v ===== *)
(** What the transaction digests bind, when a transaction is balanced, and what
    [populate_genesis_covenants] does. *)

From stdpp Require Import base list strings numbers.
From Stdlib Require Import ZArith Lia Strings.Byte.
From S2P Require Import Prelude.
From S2P Require Import Bytes.
From S2P Require Import Encoding.
From S2P Require Import Types.
From S2P Require Import Commit.
From S2P Require Import Covenant.
From S2P Require Import CovenantScript.
From S2P Require Import Tx.

Open Scope list_scope.

(** * Self-delimiting writers

    The bytes written for a value, followed by anything, determine the value and
    the rest. *)

Definition delimits {A} (P : A → Prop) (f : A → Writer → Writer) : Prop :=
  ∀ x y l k, P x → P y → f x [] ++ l = f y [] ++ k → x = y ∧ l = k.

Lemma write_all_delimits {A} (P : A → Prop) (f : A → Writer → Writer) xs ys l k :
  delimits P f → (∀ x, Appending (f x)) → length xs = length ys → Forall P xs → Forall P ys →
  write_all f xs [] ++ l = write_all f ys [] ++ k → xs = ys ∧ l = k.
Proof.
  intros Hf Ha. revert ys. induction xs as [|x xs IH]; intros [|y ys]; try done.
  cbn [length]. intros [= Hl] Hx Hy. apply list.Forall_cons in Hx as [Hx Hxs].
  apply list.Forall_cons in Hy as [Hy Hys].
  rewrite !write_all_cons, !write_seq_nil by apply _. rewrite <-!app_assoc. intros E.
  apply Hf in E as [-> E]; [|done..]. by destruct (IH ys Hl Hxs Hys E) as [-> ->].
Qed.

(** Without a count, the whole output still determines the list. *)
Lemma write_all_whole {A} (P : A → Prop) (f : A → Writer → Writer) xs ys :
  delimits P f → (∀ x, Appending (f x)) → (∀ x, f x [] ≠ []) → Forall P xs → Forall P ys →
  write_all f xs [] = write_all f ys [] → xs = ys.
Proof.
  intros Hf Ha Hne. revert ys. induction xs as [|x xs IH]; intros [|y ys] Hx Hy; [done|..];
    rewrite ?write_all_cons, ?write_seq_nil by apply _; intros E.
  - exfalso. symmetry in E. apply app_eq_nil in E as [E _]. by apply Hne in E.
  - exfalso. apply app_eq_nil in E as [E _]. by apply Hne in E.
  - apply list.Forall_cons in Hx as [Hx Hxs], Hy as [Hy Hys].
    apply Hf in E as [-> E]; [|done..]. f_equal. by apply IH.
Qed.

Lemma write_all_map {A B} (f : B → Writer → Writer) (g : A → B) l w :
  write_all f (g <$> l) w = write_all (λ x, f (g x)) l w.
Proof. unfold write_all. revert w. induction l as [|x l IH]; intros w; [done|]. cbn. by rewrite IH. Qed.

Lemma write_all_ext {A} (f g : A → Writer → Writer) l w :
  (∀ x w, f x w = g x w) → write_all f l w = write_all g l w.
Proof.
  intros E. unfold write_all. revert w. induction l as [|x l IH]; intros w; [done|]. cbn. by rewrite E.
Qed.

(** Lengths below [2^64], as every [Vec] has. *)
Definition fits (n : nat) : Prop := (Z.of_nat n < 2 ^ 64)%Z.

Lemma feed_len_delimits n m l k :
  fits n → fits m → feed_len n [] ++ l = feed_len m [] ++ k → n = m ∧ l = k.
Proof.
  unfold fits, feed_len, write_u64. cbn [app]. intros Hn Hm E.
  apply u64_le_app_inj in E as [E ->]. apply (f_equal uval) in E.
  rewrite !uval_wrap_small in E by lia. split; [lia|done].
Qed.

#[export] Instance feed_len_appending n : Appending (feed_len n).
Proof. unfold feed_len. apply _. Qed.
#[export] Instance feed_var_appending b : Appending (feed_var_bytes b).
Proof. unfold feed_var_bytes. apply _. Qed.
#[export] Instance outpoint_appending o : Appending (hash_toccata_outpoint o).
Proof. unfold hash_toccata_outpoint. apply _. Qed.
#[export] Instance spk_appending s : Appending (hash_toccata_script_public_key s).
Proof. unfold hash_toccata_script_public_key. apply _. Qed.
#[export] Instance binding_appending b : Appending (feed_binding b).
Proof. unfold feed_binding. destruct b; apply _. Qed.
#[export] Instance input_appending f i : Appending (write_toccata_input f i).
Proof. unfold write_toccata_input. destruct (EXCLUDE_SIGNATURE_SCRIPT f), (EXCLUDE_MASS_COMMIT f); apply _. Qed.
#[export] Instance output_appending o : Appending (write_toccata_output o).
Proof. unfold write_toccata_output. apply _. Qed.
#[export] Instance sighash_output_appending o : Appending (hash_toccata_output_for_sighash o).
Proof. unfold hash_toccata_output_for_sighash. apply _. Qed.

Lemma feed_var_delimits : delimits (λ b, fits (length b)) feed_var_bytes.
Proof.
  intros b c l k Hb Hc. unfold feed_var_bytes. rewrite !write_seq_nil by apply _.
  rewrite <-!app_assoc. intros E. apply feed_len_delimits in E as [El E]; [|done..].
  unfold write_bytes in E. cbn [app] in E. by apply app_inj_1 in E.
Qed.

Lemma outpoint_delimits : delimits always hash_toccata_outpoint.
Proof.
  intros o p l k _ _. unfold hash_toccata_outpoint. rewrite !write_seq_nil by apply _.
  unfold write_bytes32, write_u32. cbn [app]. rewrite <-!app_assoc. intros E.
  apply bytes_app_inj in E as [Et E]. apply u32_le_app_inj in E as [Ei ->].
  split; [|done]. destruct o, p; cbn in *; congruence.
Qed.

Lemma binding_delimits : delimits always feed_binding.
Proof.
  intros b c l k _ _. unfold feed_binding.
  destruct b as [[a i]|], c as [[a' i']|]; rewrite !write_seq_nil by apply _; cbn; try done.
  - intros E. apply cons_byte_inj in E as [_ E]. unfold write_seq, write_u16, write_bytes32 in E. cbn [app] in E.
    rewrite <-?app_assoc in E. apply u16_le_app_inj in E as [-> E].
    by apply bytes_app_inj in E as [-> ->].
  - by intros [= E].
Qed.

Lemma spk_delimits :
  delimits (λ s, fits (length (tk_script s))) hash_toccata_script_public_key.
Proof.
  intros s t l k Hs Ht. unfold hash_toccata_script_public_key. rewrite !write_seq_nil by apply _.
  rewrite <-!app_assoc. unfold write_u16. cbn [app]. intros E.
  apply u16_le_app_inj in E as [Ev E]. apply feed_var_delimits in E as [Eb ->]; [|done..].
  split; [|done]. destruct s, t; cbn in *; congruence.
Qed.

Definition output_fits (o : ToccataTxOutput) : Prop :=
  fits (length (tk_script (vo_script_public_key o))).

Lemma output_same o w : write_toccata_output o w = hash_toccata_output_for_sighash o w.
Proof. done. Qed.

Lemma sighash_output_delimits : delimits output_fits hash_toccata_output_for_sighash.
Proof.
  intros o p l k Ho Hp. unfold hash_toccata_output_for_sighash. rewrite !write_seq_nil by apply _.
  rewrite <-!app_assoc. unfold write_u64 at 1 2. cbn [app]. intros E.
  apply u64_le_app_inj in E as [Ev E]. apply spk_delimits in E as [Es E]; [|done..].
  apply binding_delimits in E as [Eb ->]; [|done..].
  split; [|done]. destruct o, p; cbn in *; congruence.
Qed.

Lemma output_delimits : delimits output_fits write_toccata_output.
Proof. exact sighash_output_delimits. Qed.

(** * Sums *)

(** Fact: [validate_balanced] is right except when the required total overflows
    [u64]: it accepts exactly when the inputs cover outputs plus fee, or that sum
    passes [2^64] and the inputs cover only its wrapped remainder. *)
Theorem validate_balanced_bounds (inputs outputs fee : u64) :
  validate_balanced inputs outputs fee = Ok () ↔
    (outputs + fee <= inputs)%Z ∨
    ((2 ^ 64 <= outputs + fee)%Z ∧ (outputs + fee - 2 ^ 64 <= inputs)%Z).
Proof.
  unfold validate_balanced, wrapping_add. rewrite fail_if_ok, uval_wrap.
  pose proof (uint_range inputs). pose proof (uint_range outputs). pose proof (uint_range fee).
  destruct (decide (outputs + fee < 2 ^ 64)%Z) as [Hlt|Hge].
  - rewrite Z.mod_small by lia. lia.
  - rewrite <-(Z_mod_plus_full (outputs + fee) (-1)), Z.mod_small by lia. lia.
Qed.

(** The total of a list of outputs. *)
Definition total_value (l : list TxOutput) : Z := foldr (λ o acc, to_value o + acc)%Z 0%Z l.

(** Fact: The transition builder ignores the change when it checks the total:
    with a script, a covenant id and a sum of fee and covenant value that does
    not overflow, it returns outputs exactly when that sum is at most the input
    total, whatever the change value; so for every input total there is a call
    that succeeds with outputs worth more than the inputs. *)
Theorem transition_change_unchecked state spk (value : u64) id (fee change : u64) change_spk
    (in_total : u64) :
  spk ≠ [] → id ≠ zero32 → change_spk ≠ [] → (fee + value < 2 ^ 64)%Z →
  ((fee + value <= in_total)%Z ↔
   ∃ outs, build_transition_outputs state spk value id fee change (Some change_spk) in_total = Ok outs) ∧
  ∀ outs, build_transition_outputs state spk value id fee change (Some change_spk) in_total = Ok outs →
    total_value outs = (value + change)%Z.
Proof.
  intros Hspk Hid Hcs Hsum. unfold build_transition_outputs, tx_output_covenant, tx_output_new, wrapping_add.
  pose proof (uint_range fee). pose proof (uint_range value). pose proof (uint_range change).
  rewrite !(fail_if_false (spk = [])), (fail_if_false (id = zero32)) by done.
  cbn [mbind result_bind]. rewrite !(fail_if_false (change_spk = [])) by done. cbn [mbind result_bind].
  unfold fail_if. rewrite uval_wrap_small by lia.
  repeat case_decide; cbn [mbind result_bind]; split; try (intros ? [= <-]; cbn; lia);
    try (split; intros; [naive_solver lia|lia]); naive_solver lia.
Qed.

(** * Script public keys *)

(** Fact: A versioned script public key round-trips: parsing accepts exactly the
    two version bytes followed by a script of at most 65535 bytes, and printing
    what it returns gives the input back. *)
Theorem versioned_bytes_roundtrip (b : list byte) (s : ToccataScriptPublicKey) :
  from_versioned_bytes b = Ok s ↔
    b = to_versioned_bytes s ∧ (Z.of_nat (length (tk_script s)) <= 65535)%Z.
Proof.
  unfold from_versioned_bytes, to_versioned_bytes, TOCCATA_SCRIPT_PUBLIC_KEY_MAX_SCRIPT_LEN. split.
  - destruct b as [|b0 [|b1 script]]; [done..|]. rewrite bind_unit_ok, fail_if_ok.
    intros [Hlen E]. apply (inj Ok) in E as <-. cbn [tk_version tk_script]. split; [|lia].
    unfold u16_le. by rewrite (le_bytes_wrap 16 2 [b0; b1]).
  - intros [-> Hlen]. unfold u16_le. cbn [le_bytes app]. rewrite bind_unit_ok, fail_if_ok.
    split; [lia|]. f_equal. change [byte_of_Z (tk_version s); byte_of_Z (tk_version s / 256)]
      with (le_bytes 2 (tk_version s)).
    rewrite wrap_le_val by done. by destruct s.
Qed.

(** * What the digests bind

    Each hash is a function of its own, so a collision is said of one of them and
    of the messages given to it. *)

Section digests.
Context `{KaspaTxHashes}.

Record tx_fits (t : ToccataV1Tx) : Prop := {
  tf_inputs : fits (length (vt_inputs t));
  tf_outputs : fits (length (vt_outputs t));
  tf_payload : fits (length (vt_payload t));
  tf_scripts : Forall output_fits (vt_outputs t);
  tf_signatures : Forall (λ i, fits (length (vi_signature_script i))) (vt_inputs t)
}.

(** What a transaction does, without how it is authorised or weighed. *)
Record tx_effects := TxEffects {
  te_inputs : list (KaspaOutpoint * u64);
  te_outputs : list ToccataTxOutput;
  te_lock_time : u64;
  te_subnetwork : ToccataSubnetworkId;
  te_gas : u64;
  te_payload : list byte
}.

Definition input_effect (i : ToccataTxInput) : KaspaOutpoint * u64 :=
  (vi_previous_outpoint i, vi_sequence i).

Definition effects (t : ToccataV1Tx) : tx_effects :=
  TxEffects (input_effect <$> vt_inputs t) (vt_outputs t) (vt_lock_time t) (vt_subnetwork_id t)
    (vt_gas t) (vt_payload t).

Definition write_effect_input (p : KaspaOutpoint * u64) : Writer → Writer :=
  hash_toccata_outpoint p.1 ▷ feed_var_bytes [] ▷ write_u64 p.2.

#[export] Instance effect_input_appending p : Appending (write_effect_input p).
Proof. unfold write_effect_input. apply _. Qed.

Lemma effect_input_delimits : delimits always write_effect_input.
Proof.
  intros [o s] [p t] l k _ _. unfold write_effect_input. rewrite !write_seq_nil by apply _.
  rewrite <-!app_assoc. cbn [fst snd]. intros E. apply outpoint_delimits in E as [-> E]; [|done..].
  apply feed_var_delimits in E as [_ E]; [|done..]. unfold write_u64 in E. cbn [app] in E.
  by apply u64_le_app_inj in E as [-> ->].
Qed.

Lemma rest_input_effect i w :
  write_toccata_input REST_FLAGS i w = write_effect_input (input_effect i) w.
Proof. done. Qed.

Definition rest_bytes (e : tx_effects) : list byte :=
  (write_u16 TX_VERSION_TOCCATA ▷
   feed_len (length (te_inputs e)) ▷ write_all write_effect_input (te_inputs e) ▷
   feed_len (length (te_outputs e)) ▷ write_all write_toccata_output (te_outputs e) ▷
   write_u64 (te_lock_time e) ▷ write_bytes (te_subnetwork e) ▷ write_u64 (te_gas e) ▷
   feed_var_bytes []) [].

Lemma rest_preimage_effects t : rest_preimage t = rest_bytes (effects t).
Proof.
  unfold rest_preimage, rest_bytes, write_rest_preimage, write_transaction, effects.
  cbn [te_inputs te_outputs te_lock_time te_subnetwork te_gas REST_FLAGS EXCLUDE_PAYLOAD
    EXCLUDE_MASS_COMMIT negb].
  rewrite length_fmap. unfold write_seq, write_nothing. rewrite write_all_map.
  by rewrite (write_all_ext _ _ (vt_inputs t) _ rest_input_effect).
Qed.

Lemma rest_bytes_inj e e' :
  fits (length (te_inputs e)) → fits (length (te_inputs e')) →
  fits (length (te_outputs e)) → fits (length (te_outputs e')) →
  Forall output_fits (te_outputs e) → Forall output_fits (te_outputs e') →
  te_payload e = te_payload e' → rest_bytes e = rest_bytes e' → e = e'.
Proof.
  intros Hi Hi' Ho Ho' Hs Hs' Hp E. unfold rest_bytes in E.
  rewrite !write_seq_nil in E by apply _. rewrite <-?app_assoc in E.
  unfold write_u16 at 1 2 in E. cbn [app] in E. apply u16_le_app_inj in E as [_ E].
  apply feed_len_delimits in E as [Eli E]; [|done..].
  apply (write_all_delimits always) in E as [Ei E];
    [|apply effect_input_delimits|apply _|done|by apply Forall_true..].
  apply feed_len_delimits in E as [Elo E]; [|done..].
  apply (write_all_delimits output_fits) in E as [Eo E];
    [|apply output_delimits|apply _|done..].
  unfold write_u64, write_bytes in E. cbn [app] in E.
  apply u64_le_app_inj in E as [El E]. apply bytes_app_inj in E as [Esub E].
  apply u64_le_app_inj in E as [Eg _]. destruct e, e'; cbn in *; congruence.
Qed.

(** The message a transaction id hashes last, and what it takes for two ids to
    coincide otherwise. *)
Definition txid_message (t : ToccataV1Tx) : list byte := (payload_digest t ++ rest_digest t)%list.

Definition txid_collision (t t' : ToccataV1Tx) : Prop :=
  collides TransactionV1Id [txid_message t; txid_message t'] ∨
  collides PayloadDigest [vt_payload t; vt_payload t'] ∨
  collides TransactionRest [rest_preimage t; rest_preimage t'].

(** Fact: The transaction id names what the transaction does: it depends only on
    the spent outpoints and sequences, the outputs with their covenant bindings,
    lock time, subnetwork, gas and payload (signing an input, or changing a
    compute budget or the storage mass, keeps it), and two transactions with
    one id agree on all of these, or the messages hashed for the two ids
    collide. *)
Theorem txid_names_effects (t t' : ToccataV1Tx) :
  tx_fits t → tx_fits t' →
  (effects t = effects t' → txid t = txid t') ∧
  (txid t = txid t' → effects t = effects t' ∨ txid_collision t t').
Proof.
  intros [Hi Ho Hp Hs _] [Hi' Ho' Hp' Hs' _]. unfold txid, txid_collision. split.
  - intros E. unfold payload_digest, rest_digest.
    change (write_rest_preimage ?x []) with (rest_preimage x). rewrite !rest_preimage_effects.
    assert (vt_payload t = vt_payload t') as -> by (by injection E). by rewrite E.
  - intros E. apply inj_or_collides in E as [E|]; [|by right; left].
    apply bytes_app_inj in E as [Ep E]. apply (inj blist) in E.
    unfold payload_digest in Ep. unfold rest_digest in E.
    apply inj_or_collides in Ep as [Ep|]; [|by right; right; left].
    apply inj_or_collides in E as [E|]; [|by right; right; right].
    change (write_rest_preimage ?x []) with (rest_preimage x) in E.
    rewrite !rest_preimage_effects in E.
    left. apply rest_bytes_inj; try done; cbn; by rewrite length_fmap.
Qed.

Lemma full_input_delimits :
  delimits (λ i, fits (length (vi_signature_script i))) (write_toccata_input FULL).
Proof.
  intros i j l k Hi Hj. unfold write_toccata_input. cbn [FULL EXCLUDE_SIGNATURE_SCRIPT
    EXCLUDE_MASS_COMMIT negb]. rewrite !write_seq_nil by apply _. rewrite <-!app_assoc. intros E.
  apply outpoint_delimits in E as [Eo E]; [|done..]. apply feed_var_delimits in E as [Es E]; [|done..].
  unfold write_u64, write_u16 in E. cbn [app] in E.
  apply u64_le_app_inj in E as [Eq E]. apply u16_le_app_inj in E as [Eb ->].
  split; [|done]. destruct i, j; cbn in *; congruence.
Qed.

(** Fact: The transaction hash identifies the whole transaction: signature
    scripts, compute budgets and storage mass included, two transactions with
    one hash are equal, or the messages hashed for the two collide. *)
Theorem tx_hash_identifies (t t' : ToccataV1Tx) :
  tx_fits t → tx_fits t' → tx_hash t = tx_hash t' →
  t = t' ∨ collides TransactionHash [write_transaction FULL t []; write_transaction FULL t' []].
Proof.
  intros [Hi Ho Hp Hs Hg] [Hi' Ho' Hp' Hs' Hg'] E. unfold tx_hash in E.
  apply inj_or_collides in E as [E|]; [left|by right].
  unfold write_transaction in E. cbn [FULL EXCLUDE_PAYLOAD EXCLUDE_MASS_COMMIT negb] in E.
  rewrite !write_seq_nil in E by apply _. rewrite <-?app_assoc in E.
  unfold write_u16 at 1 2 in E. cbn [app] in E. apply u16_le_app_inj in E as [_ E].
  apply feed_len_delimits in E as [Eli E]; [|done..].
  apply (write_all_delimits (λ i, fits (length (vi_signature_script i)))) in E as [Ei E];
    [|apply full_input_delimits|apply _|done..].
  apply feed_len_delimits in E as [Elo E]; [|done..].
  apply (write_all_delimits output_fits) in E as [Eo E];
    [|apply output_delimits|apply _|done..].
  unfold write_u64, write_bytes in E. cbn [app] in E.
  apply u64_le_app_inj in E as [El E]. apply bytes_app_inj in E as [Esub E].
  apply u64_le_app_inj in E as [Eg E]. apply feed_var_delimits in E as [Epay E]; [|done..].
  apply u64_le_inj in E. destruct t, t'; cbn in *; congruence.
Qed.

(** * What a signature covers *)

(** The parts of the transaction and of the spent output that a signature of a
    given type commits to; [None] is a part it leaves open. *)
Record signed_view := SignedView {
  sv_type : ToccataSigHashType;
  sv_prevouts : option (list KaspaOutpoint);
  sv_sequences : option (list u64);
  sv_outpoint : KaspaOutpoint;
  sv_spk : ToccataScriptPublicKey;
  sv_amount : u64;
  sv_sequence : u64;
  sv_outputs : option (list ToccataTxOutput);
  sv_lock_time : u64;
  sv_subnetwork : ToccataSubnetworkId;
  sv_gas : u64;
  sv_payload : option (list byte)
}.

Definition signed_outputs (t : ToccataV1Tx) (i : nat) (h : ToccataSigHashType)
  : option (list ToccataTxOutput) :=
  if is_sighash_none h then None
  else if is_sighash_single h then o ← vt_outputs t !! i; Some [o]
  else Some (vt_outputs t).

Definition signed (t : ToccataV1Tx) (i : nat) (utxos : list ToccataUtxoEntry)
    (h : ToccataSigHashType) : option signed_view :=
  input ← vt_inputs t !! i;
  utxo ← utxos !! i;
  Some {|
    sv_type := h;
    sv_prevouts := if is_sighash_anyone_can_pay h then None
                   else Some (vi_previous_outpoint <$> vt_inputs t);
    sv_sequences := if is_sighash_all h && negb (is_sighash_anyone_can_pay h)
                    then Some (vi_sequence <$> vt_inputs t) else None;
    sv_outpoint := vi_previous_outpoint input;
    sv_spk := ue_script_public_key utxo;
    sv_amount := ue_amount utxo;
    sv_sequence := vi_sequence input;
    sv_outputs := signed_outputs t i h;
    sv_lock_time := vt_lock_time t;
    sv_subnetwork := vt_subnetwork_id t;
    sv_gas := vt_gas t;
    sv_payload := if bool_decide (vt_subnetwork_id t = SUBNETWORK_ID_NATIVE)
                     && bool_decide (vt_payload t = [])
                  then None else Some (vt_payload t)
  |}.

Definition part_digest {A} (f : A → Writer → Writer) (o : option A) : Bytes32 :=
  match o with Some x => TransactionSigningHash (f x []) | None => zero32 end.

Definition view_bytes (v : signed_view) : list byte :=
  (write_u16 TX_VERSION_TOCCATA ▷
   write_bytes32 (part_digest (write_all hash_toccata_outpoint) (sv_prevouts v)) ▷
   write_bytes32 (part_digest (write_all write_u64) (sv_sequences v)) ▷
   hash_toccata_outpoint (sv_outpoint v) ▷
   hash_toccata_script_public_key (sv_spk v) ▷
   write_u64 (sv_amount v) ▷ write_u64 (sv_sequence v) ▷
   write_bytes32 (part_digest (write_all hash_toccata_output_for_sighash) (sv_outputs v)) ▷
   write_u64 (sv_lock_time v) ▷ write_bytes (sv_subnetwork v) ▷ write_u64 (sv_gas v) ▷
   write_bytes32 (part_digest feed_var_bytes (sv_payload v)) ▷
   write_u8 (sh_byte (sv_type v))) [].

(** An allowed type is exactly one of all, none and single. *)
Lemma allowed_types b :
  is_allowed_sig_hash_type b = true →
  (is_sighash_all (SigHash b), is_sighash_none (SigHash b), is_sighash_single (SigHash b)) ∈
    [(true, false, false); (false, true, false); (false, false, true)].
Proof. intros Hb. apply (bool_decide_unpack _). by destruct b. Qed.

Lemma sighash_from_u8_ok b h :
  sighash_from_u8 b = Ok h ↔ is_allowed_sig_hash_type b = true ∧ h = SigHash b.
Proof. unfold sighash_from_u8. destruct (is_allowed_sig_hash_type b); cbn; naive_solver. Qed.

Lemma signature_hash_view t i utxos h d :
  schnorr_signature_hash t i utxos h = Ok d ↔
    is_allowed_sig_hash_type (sh_byte h) = true ∧
    ∃ v, signed t i utxos h = Some v ∧ d = TransactionSigningHash (view_bytes v).
Proof.
  unfold schnorr_signature_hash, signed. rewrite bind_ok. setoid_rewrite sighash_from_u8_ok.
  setoid_rewrite bind_ok. setoid_rewrite ok_or_ok. setoid_rewrite bind_ok. setoid_rewrite ok_or_ok.
  assert (Hd : is_allowed_sig_hash_type (sh_byte h) = true →
    sighash_sequences_hash t h = part_digest (write_all write_u64)
      (if is_sighash_all h && negb (is_sighash_anyone_can_pay h)
       then Some (vi_sequence <$> vt_inputs t) else None)).
  { intros Ha. apply allowed_types in Ha. destruct h as [b]. cbn [sh_byte] in Ha.
    unfold sighash_sequences_hash. rewrite !elem_of_cons in Ha.
    destruct (is_sighash_anyone_can_pay _), Ha as [E|[E|[E|E%elem_of_nil]]];
      try done; injection E as -> -> ->; cbn; [done..| |done|done].
    by rewrite write_all_map. }
  assert (Hp : sighash_previous_outputs_hash t h = part_digest (write_all hash_toccata_outpoint)
      (if is_sighash_anyone_can_pay h then None else Some (vi_previous_outpoint <$> vt_inputs t))).
  { unfold sighash_previous_outputs_hash. destruct (is_sighash_anyone_can_pay h); [done|].
    cbn [part_digest]. by rewrite write_all_map. }
  assert (Ho : sighash_outputs_hash t h i =
    part_digest (write_all hash_toccata_output_for_sighash) (signed_outputs t i h)).
  { unfold sighash_outputs_hash, signed_outputs. destruct (is_sighash_none h); [done|].
    destruct (is_sighash_single h); [|done]. by destruct (vt_outputs t !! i). }
  assert (Hy : sighash_payload_hash t = part_digest feed_var_bytes
    (if bool_decide (vt_subnetwork_id t = SUBNETWORK_ID_NATIVE) && bool_decide (vt_payload t = [])
     then None else Some (vt_payload t))).
  { unfold sighash_payload_hash.
    by destruct (bool_decide (vt_subnetwork_id t = _)), (bool_decide (vt_payload t = [])). }
  destruct h as [b]. split.
  - intros (h' & [Ha ->] & input & Hin & utxo & Hu & [= <-]). split; [done|].
    rewrite Hin, Hu. eexists. split; [done|]. unfold view_bytes. cbn [sv_type sv_prevouts
      sv_sequences sv_outpoint sv_spk sv_amount sv_sequence sv_outputs sv_lock_time sv_subnetwork
      sv_gas sv_payload sh_byte]. by rewrite <-Hp, <-Ho, <-Hy, <-Hd.
  - intros (Ha & v & Hv & ->). destruct (vt_inputs t !! i) as [input|]; [|done].
    destruct (utxos !! i) as [utxo|]; [|done]. injection Hv as <-.
    eexists. split; [done|]. eexists. split; [done|]. eexists. split; [done|]. f_equal.
    unfold view_bytes. cbn [sv_type sv_prevouts
      sv_sequences sv_outpoint sv_spk sv_amount sv_sequence sv_outputs sv_lock_time sv_subnetwork
      sv_gas sv_payload sh_byte]. by rewrite <-Hp, <-Ho, <-Hy, <-Hd.
Qed.

(** The messages the signing hash is given for a view: those of the parts it
    commits to by a digest of their own, and the view's. *)
Definition part_message {A} (f : A → Writer → Writer) (o : option A) : list (list byte) :=
  match o with Some x => [f x []] | None => [] end.

Definition view_parts (v : signed_view) : list (list byte) :=
  (part_message (write_all hash_toccata_outpoint) (sv_prevouts v) ++
   part_message (write_all write_u64) (sv_sequences v) ++
   part_message (write_all hash_toccata_output_for_sighash) (sv_outputs v) ++
   part_message feed_var_bytes (sv_payload v))%list.

(** Two of the messages of the views have one signing hash, or a part has the
    hash zero, which stands for a part left open. *)
Definition signing_break (ms parts : list (list byte)) : Prop :=
  collides TransactionSigningHash (ms ++ parts)%list ∨ hits TransactionSigningHash zero32 parts.

Lemma part_digest_inj {A} (f : A → Writer → Writer) o o' :
  (∀ x y, o = Some x → o' = Some y → f x [] = f y [] → x = y) →
  part_digest f o = part_digest f o' →
  o = o' ∨ signing_break [] (part_message f o ++ part_message f o').
Proof.
  unfold part_digest, signing_break. intros Hf.
  destruct o as [x|], o' as [y|]; cbn [part_message app]; intros E.
  - apply inj_or_collides in E as [E|]; [left|right; by left]. f_equal. by apply Hf.
  - right; right. exists (f x []). split; [by left|done].
  - right; right. exists (f y []). split; [by left|done].
  - by left.
Qed.

Lemma signing_break_mono ms ks parts parts' :
  ms ⊆ ks → parts ⊆ parts' → signing_break ms parts → signing_break ks parts'.
Proof.
  intros Hm Hp [Hc|Hz]; [left|right].
  - eapply collides_mono; [|exact Hc]. apply app_included; [by apply included_app_l|by apply included_app_r].
  - by eapply hits_mono.
Qed.

Record view_fits (v : signed_view) : Prop := {
  vf_spk : fits (length (tk_script (sv_spk v)));
  vf_outputs : ∀ l, sv_outputs v = Some l → Forall output_fits l;
  vf_payload : ∀ b, sv_payload v = Some b → fits (length b)
}.

Lemma write_u64_delimits : delimits always write_u64.
Proof. intros x y l k _ _. unfold write_u64. cbn [app]. apply u64_le_app_inj. Qed.

Lemma app_ne_nil {A} (l k : list A) n : length l = S n → l ++ k ≠ [].
Proof. by destruct l. Qed.

(** A break in one part is a break of the view. *)
Local Ltac part_break :=
  right; eapply signing_break_mono; [reflexivity| |eassumption]; unfold view_parts; solve_messages.

Lemma view_bytes_inj v v' :
  view_fits v → view_fits v' → view_bytes v = view_bytes v' →
  v = v' ∨ signing_break [] (view_parts v ++ view_parts v').
Proof.
  intros [Hs Ho Hp] [Hs' Ho' Hp'] E. unfold view_bytes in E.
  rewrite !write_seq_nil in E by apply _. rewrite <-?app_assoc in E.
  unfold write_u16 at 1 2 in E. unfold write_bytes32, write_u64, write_bytes, write_u8 in E.
  cbn [app] in E. apply u16_le_app_inj in E as [_ E].
  apply bytes_app_inj in E as [Eprev E]. apply bytes_app_inj in E as [Eseq E].
  apply outpoint_delimits in E as [Eout E]; [|done..].
  apply spk_delimits in E as [Espk E]; [|done..].
  apply u64_le_app_inj in E as [Eam E]. apply u64_le_app_inj in E as [Esq E].
  apply bytes_app_inj in E as [Eouts E]. apply u64_le_app_inj in E as [El E].
  apply bytes_app_inj in E as [Esub E]. apply u64_le_app_inj in E as [Eg E].
  apply bytes_app_inj in E as [Epay E]. apply cons_byte_inj in E as [Ety _].
  apply part_digest_inj in Eprev as [Eprev|]; [|by part_break|intros x y _ _].
  2: { apply (write_all_whole always); [apply outpoint_delimits|apply _| |by apply Forall_true..].
       intros o. unfold hash_toccata_outpoint. rewrite write_seq_nil by apply _.
       apply (app_ne_nil _ _ 31). unfold write_bytes32. apply bytes_length. }
  apply part_digest_inj in Eseq as [Eseq|]; [|by part_break|intros x y _ _].
  2: { apply (write_all_whole always); [apply write_u64_delimits|apply _|done|by apply Forall_true..]. }
  apply part_digest_inj in Eouts as [Eouts|]; [|by part_break|intros x y Hx Hy].
  2: { apply (write_all_whole output_fits); [apply sighash_output_delimits|apply _| |by eauto..].
       intros o. unfold hash_toccata_output_for_sighash. rewrite write_seq_nil by apply _.
       apply (app_ne_nil _ _ 7). apply u64_le_length. }
  apply part_digest_inj in Epay as [Epay|]; [|by part_break|intros x y Hx Hy Ex].
  2: { apply (f_equal (λ l, l ++ [])) in Ex. by apply feed_var_delimits in Ex as [-> _]; eauto. }
  left. destruct v as [[]], v' as [[]]; cbn in *. congruence.
Qed.

Lemma signed_fits t i utxos h v :
  tx_fits t → Forall (λ u, fits (length (tk_script (ue_script_public_key u)))) utxos →
  signed t i utxos h = Some v → view_fits v.
Proof.
  intros [? ? ? Hs _] Hu. unfold signed.
  destruct (vt_inputs t !! i) as [input|]; [|done]. destruct (utxos !! i) as [utxo|] eqn:E; [|done].
  cbn. intros [= <-]. constructor; cbn.
  - by eapply (list.Forall_lookup_1 _ _ _ _ Hu).
  - intros l. unfold signed_outputs. destruct (is_sighash_none h); [done|].
    destruct (is_sighash_single h); [|by intros [= <-]].
    destruct (vt_outputs t !! i) as [o|] eqn:Eo; [|done]. intros [= <-].
    constructor; [|constructor]. by eapply (list.Forall_lookup_1 _ _ _ _ Hs).
  - intros b. destruct (_ && _); [done|]. by intros [= <-].
Qed.

Lemma signed_exists t i utxos h :
  is_Some (signed t i utxos h) ↔ (i < length (vt_inputs t) ∧ i < length utxos)%nat.
Proof.
  rewrite <-!lookup_lt_is_Some. unfold signed.
  destruct (vt_inputs t !! i), (utxos !! i); cbn; split; try (by intros [? ?]); try (by intros [[? ?] [? ?]]); eauto.
Qed.

(** C12: A signature covers exactly the view of its hash type: the signature hash
    exists exactly when the type is one of the six allowed and the input and its
    spent output are given.  The hash is then a function of the [signed] view
    (all spent outpoints unless anyone-can-pay, all sequences for plain [ALL], no
    output, the output at the input's index or every output with its covenant
    binding, and always the spent output, lock time, subnetwork, gas, payload and
    type), and two hashes are equal only when the views are, unless two different
    ones of the messages that the two computations hash, the view's and those of
    its parts, have one signing hash, or such a part has the hash zero. *)
Theorem signature_hash_covers_view t i utxos h t' i' utxos' h' :
  tx_fits t → tx_fits t' →
  Forall (λ u, fits (length (tk_script (ue_script_public_key u)))) utxos →
  Forall (λ u, fits (length (tk_script (ue_script_public_key u)))) utxos' →
  ((∃ d, schnorr_signature_hash t i utxos h = Ok d) ↔
     is_allowed_sig_hash_type (sh_byte h) = true ∧
     (i < length (vt_inputs t) ∧ i < length utxos)%nat) ∧
  ∀ d d', schnorr_signature_hash t i utxos h = Ok d →
    schnorr_signature_hash t' i' utxos' h' = Ok d' →
    ∃ v v', signed t i utxos h = Some v ∧ signed t' i' utxos' h' = Some v' ∧
      (v = v' → d = d') ∧
      (d = d' → v = v' ∨ signing_break [view_bytes v; view_bytes v'] (view_parts v ++ view_parts v')).
Proof.
  intros Ht Ht' Hu Hu'. split.
  { setoid_rewrite signature_hash_view. rewrite <-signed_exists.
    split; [by intros (d & Ha & v & Hv & _); eauto|]. intros [Ha [v Hv] ]. eauto. }
  intros d d' (_ & v & Hv & ->)%signature_hash_view (_ & v' & Hv' & ->)%signature_hash_view.
  exists v, v'. split_and!; [done|done|by intros ->|]. intros E.
  apply inj_or_collides in E as [E|Hc].
  - apply view_bytes_inj in E as [->|]; [by left| | |].
    + right. by eapply signing_break_mono; [apply list_subseteq_nil|reflexivity|].
    + exact (signed_fits _ _ _ _ _ Ht Hu Hv).
    + exact (signed_fits _ _ _ _ _ Ht' Hu' Hv').
  - right; left. eapply collides_mono; [|exact Hc]. solve_messages.
Qed.
End digests.
