(* ===== verification/TxGenesis.v ===== *)
(** [populate_genesis_covenants] of src/crates/rgk-tx/src/lib.rs, a method on a
    mutable transaction: it validates every group before it touches an output,
    leaves the transaction as it was when it refuses, never indexes out of
    bounds, and binds each listed output to the covenant id of its group. *)

From stdpp Require Import base list strings numbers.
From Stdlib Require Import ZArith Lia Strings.Byte.
From S2P Require Import Prelude.
From S2P Require Import Bytes.
From S2P Require Import Encoding.
From S2P Require Import Types.
From S2P Require Import Commit.
From S2P Require Import Covenant.
From S2P Require Import CovenantScript.
From S2P Require Import Tx.

Open Scope list_scope.

Section genesis.
Context `{KaspaCovenantIdHasher}.

Abbreviation slot k := (Z.to_nat (uval k)).

Lemma slot_inj (a b : u32) : slot a = slot b → a = b.
Proof.
  intros E. apply (inj uval). pose proof (uint_range a). pose proof (uint_range b). lia.
Qed.

(** * The checks *)

Definition slot_free (t : ToccataV1Tx) (k : u32) : Prop :=
  ∃ o, vt_outputs t !! slot k = Some o ∧ vo_covenant_binding o = None.

(** Strictly increasing output indices. *)
Fixpoint increasing (l : list u32) : Prop :=
  match l with
  | a :: (b :: _) as l' => (a < b)%Z ∧ increasing l'
  | _ => True
  end.

Lemma any_unordered_false l : any_unordered l = false ↔ increasing l.
Proof.
  unfold any_unordered. induction l as [|a [|b l] IH]; [done..|].
  cbn [tail zip existsb]. cbn [zip zip_with existsb fst snd]. rewrite orb_false_iff, bool_decide_eq_false.
  change (zip_with pair l (tail l)) with (zip l (tail l)) in *.
  cbn [tail] in IH. cbn [increasing]. rewrite <-IH. cbn [zip zip_with]. split; intros []; (split; [lia|done]).
Qed.

Record group_ok (t : ToccataV1Tx) (g : ToccataGenesisCovenantGroup) : Prop := {
  go_input : (Z.to_nat (gg_authorizing_input g) < length (vt_inputs t))%nat;
  go_nonempty : gg_outputs g ≠ [];
  go_increasing : increasing (gg_outputs g);
  go_free : Forall (slot_free t) (gg_outputs g)
}.

(** The first loop only reads the transaction: its verdict on one output and on
    one group, and the transaction as it was. *)
Definition slot_verdict (t : ToccataV1Tx) (seen : list bool) (k : u32) : result TxFailure (list bool) :=
  _ ← fail_if (length (vt_outputs t) <= slot k)%nat (group_error "output does not exist");
  s ← indexed seen (slot k);
  _ ← fail_if (s = true) (group_error "output appears in more than one group");
  o ← indexed (vt_outputs t) (slot k);
  _ ← fail_if (is_Some (vo_covenant_binding o)) (group_error "output already has covenant binding");
  Ok (<[slot k := true]> seen).

Definition group_verdict (t : ToccataV1Tx) (seen : list bool) (g : ToccataGenesisCovenantGroup)
  : result TxFailure (list bool) :=
  _ ← fail_if (length (vt_inputs t) <= Z.to_nat (gg_authorizing_input g))%nat
        (group_error "authorizing input does not exist");
  _ ← fail_if (gg_outputs g = []) (group_error "empty output group");
  _ ← fail_if (any_unordered (gg_outputs g) = true) (group_error "outputs are not strictly ordered");
  try_fold (slot_verdict t) seen (gg_outputs g).

Local Ltac run_guards :=
  unfold refuse_when, reading, mbind, stateful_bind, result_bind;
  repeat first
    [ match goal with |- context [fail_if ?P ?e] => destruct (fail_if P e) as [[]|]; [|done] end
    | match goal with |- context [@indexed ?A ?l ?i] => destruct (@indexed A l i) as [?|]; [|done] end ].

Lemma check_slot_reads t seen k : check_slot seen k t = (slot_verdict t seen k, t).
Proof. unfold check_slot, slot_verdict. cbv zeta. run_guards. done. Qed.

Lemma check_group_reads t seen g : check_group seen g t = (group_verdict t seen g, t).
Proof.
  unfold check_group, group_verdict. cbv zeta. run_guards.
  apply stateful_fold_reads. apply check_slot_reads.
Qed.

Definition mark (seen : list bool) (k : u32) : list bool := <[slot k := true]> seen.

Lemma slot_verdict_ok t seen k seen' :
  length seen = length (vt_outputs t) →
  slot_verdict t seen k = Ok seen' ↔ slot_free t k ∧ seen !! slot k = Some false ∧ seen' = mark seen k.
Proof.
  intros Hlen. unfold slot_verdict, slot_free, indexed. rewrite bind_unit_ok, fail_if_ok, bind_ok.
  setoid_rewrite ok_or_ok. split.
  - intros (Hk & b & Hs & E). apply bind_unit_ok in E as [Hb%fail_if_ok E].
    apply bind_ok in E as (o & Ho%ok_or_ok & E). apply bind_unit_ok in E as [Hn%fail_if_ok [= <-] ].
    split_and!; [|destruct b; [done|exact Hs]|done]. exists o. split; [done|].
    destruct (vo_covenant_binding o); [|done]. destruct Hn. by eexists.
  - intros ((o & Ho & Hb) & Hs & ->). pose proof (lookup_lt_Some _ _ _ Ho). split; [lia|].
    exists false. split; [done|]. rewrite fail_if_false by done. cbn [mbind result_bind].
    apply bind_ok. exists o. split; [by apply ok_or_ok|]. rewrite fail_if_false; [done|].
    rewrite Hb. by intros [].
Qed.

Lemma mark_length seen k : length (mark seen k) = length seen.
Proof. apply length_insert. Qed.

Lemma mark_all_lookup l seen k :
  Forall (λ k, slot k < length seen)%nat l →
  foldl mark seen l !! slot k = if decide (k ∈ l) then Some true else seen !! slot k.
Proof.
  revert seen. induction l as [|x l IH]; intros seen Hl; [done|]. cbn [foldl].
  apply list.Forall_cons in Hl as [Hx Hl].
  rewrite IH by (eapply list.Forall_impl; [exact Hl|]; intros ?; by rewrite mark_length).
  unfold mark. destruct (decide (k ∈ l)) as [Hk|Hk].
  - by rewrite decide_True by (apply elem_of_cons; by right).
  - destruct (decide (k = x)) as [->|Hne].
    + rewrite list_lookup_insert_eq by done. by rewrite decide_True by (apply elem_of_cons; by left).
    + rewrite list_lookup_insert_ne by (intros E; by apply slot_inj in E).
      rewrite decide_False; [done|]. rewrite elem_of_cons. naive_solver.
Qed.

Lemma check_slots_ok t l seen seen' :
  length seen = length (vt_outputs t) →
  try_fold (slot_verdict t) seen l = Ok seen' ↔
    Forall (slot_free t) l ∧ NoDup l ∧ Forall (λ k, seen !! slot k = Some false) l ∧
    seen' = foldl mark seen l.
Proof.
  revert seen. induction l as [|k l IH]; intros seen Hlen; cbn [try_fold foldl].
  - split; [intros [= <-]; split_and!; constructor|by intros (_ & _ & _ & ->)].
  - rewrite bind_ok. setoid_rewrite slot_verdict_ok; [|done]. rewrite !list.Forall_cons, list.NoDup_cons. split.
    + intros (s1 & (Hf & Hs & ->) & E). apply IH in E as (Hfs & Hnd & Hss & ->); [|by rewrite mark_length].
      rewrite list.Forall_forall in Hss.
      assert (Hk : k ∉ l).
      { intros Hin. specialize (Hss k Hin). unfold mark in Hss.
        rewrite list_lookup_insert_eq in Hss; [done|]. by apply lookup_lt_Some in Hs. }
      split_and!; try done. apply list.Forall_forall. intros x Hx. specialize (Hss x Hx).
      unfold mark in Hss. rewrite list_lookup_insert_ne in Hss; [done|].
      intros E. apply slot_inj in E as ->. done.
    + intros ((Hf & Hfs) & (Hk & Hnd) & (Hs & Hss) & ->). eexists. split; [done|].
      apply IH; [by rewrite mark_length|]. split_and!; try done.
      rewrite list.Forall_forall in *. intros x Hx. unfold mark.
      rewrite list_lookup_insert_ne; [by apply Hss|]. intros E. apply slot_inj in E as ->. done.
Qed.

Lemma increasing_lt l a : increasing (a :: l) → Forall (λ b : u32, a < b)%Z l.
Proof.
  revert a. induction l as [|b l IH]; intros a; [constructor|]. intros [Hab Hl].
  constructor; [done|]. eapply list.Forall_impl; [by apply IH|]. cbn. intros x Hx. lia.
Qed.

Lemma increasing_NoDup l : increasing l → NoDup l.
Proof.
  induction l as [|a l IH]; [constructor|]. intros Hl. constructor.
  - intros Hin. apply increasing_lt in Hl. rewrite list.Forall_forall in Hl. specialize (Hl a Hin). lia.
  - apply IH. destruct l; [done|apply Hl].
Qed.

Lemma check_group_ok t seen g seen' :
  length seen = length (vt_outputs t) →
  group_verdict t seen g = Ok seen' ↔
    group_ok t g ∧ Forall (λ k, seen !! slot k = Some false) (gg_outputs g) ∧
    seen' = foldl mark seen (gg_outputs g).
Proof.
  intros Hlen. unfold group_verdict. rewrite !bind_unit_ok, !fail_if_ok, check_slots_ok by done.
  rewrite not_true_iff_false, any_unordered_false. split.
  - intros (Hi & Hne & Hinc & Hf & _ & Hs & ->). split_and!; [|done|done]. by constructor; [lia|..].
  - intros ([] & Hs & ->). split_and!; try done; [lia|by apply increasing_NoDup].
Qed.

Lemma foldl_mark_length l seen : length (foldl mark seen l) = length seen.
Proof. revert seen. induction l as [|k l IH]; intros seen; [done|]. cbn. by rewrite IH, mark_length. Qed.

Lemma group_slots t g : group_ok t g → Forall (λ k, slot k < length (vt_outputs t))%nat (gg_outputs g).
Proof.
  intros [_ _ _ Hf]. eapply list.Forall_impl; [exact Hf|]. intros k (o & Ho & _).
  by apply lookup_lt_Some in Ho.
Qed.

Lemma check_groups_ok t groups seen :
  length seen = length (vt_outputs t) →
  is_ok (try_fold (group_verdict t) seen groups) = true ↔
    Forall (group_ok t) groups ∧ NoDup (g ← groups; gg_outputs g) ∧
    Forall (λ k, seen !! slot k = Some false) (g ← groups; gg_outputs g).
Proof.
  revert seen. induction groups as [|g gs IH]; intros seen Hlen; cbn [try_fold mbind list_bind].
  - split; [intros _; split_and!; constructor|done].
  - rewrite list.Forall_cons, list.Forall_app, list.NoDup_app.
    destruct (group_verdict t seen g) as [seen1|e] eqn:E; cbn [mbind result_bind].
    + apply check_group_ok in E as (Hg & Hs & ->); [|done].
      rewrite IH by (by rewrite foldl_mark_length).
      assert (Hmark : ∀ k, foldl mark seen (gg_outputs g) !! slot k =
        if decide (k ∈ gg_outputs g) then Some true else seen !! slot k).
      { intros k. apply mark_all_lookup. rewrite Hlen. by apply group_slots. }
      setoid_rewrite Hmark. rewrite !list.Forall_forall. split.
      * intros (Hgs & Hnd & Hss). split_and!; try done.
        -- apply increasing_NoDup, Hg.
        -- intros k Hk Hk'. specialize (Hss k Hk'). by rewrite decide_True in Hss.
        -- by apply list.Forall_forall.
        -- intros k Hk. specialize (Hss k Hk). by case_decide.
      * intros ((_ & Hgs) & (_ & Hdis & Hnd) & (_ & Hss)). split_and!; try done.
        intros k Hk. rewrite decide_False; [by apply Hss|]. intros Hk'. by apply (Hdis k).
    + split; [done|]. intros ((Hg & _) & _ & Hs & _). exfalso.
      assert (group_verdict t seen g = Ok (foldl mark seen (gg_outputs g))); [|congruence].
      by apply check_group_ok.
Qed.

(** * Binding *)

(** Same transaction up to the bindings of the outputs. *)
Definition strip (o : ToccataTxOutput) : u64 * ToccataScriptPublicKey :=
  (vo_value o, vo_script_public_key o).

Definition bound (b : CovenantBinding) (o : ToccataTxOutput) : ToccataTxOutput :=
  {| vo_value := vo_value o; vo_script_public_key := vo_script_public_key o;
     vo_covenant_binding := Some b |}.

Definition slots (l : list u32) : list nat := (λ k : u32, slot k) <$> l.

Lemma elem_of_slots (k : u32) l : slot k ∈ slots l ↔ k ∈ l.
Proof.
  unfold slots. rewrite list_elem_of_fmap. split.
  - intros (x & E & Hx). by apply slot_inj in E as ->.
  - intros Hk. by exists k.
Qed.

Lemma set_bindings b l t :
  Forall (λ k, slot k < length (vt_outputs t))%nat l →
  ∃ outs', stateful_fold (set_binding b) () l t = (Ok (), with_outputs t outs') ∧
    ∀ i, outs' !! i = (if decide (i ∈ slots l) then bound b <$> vt_outputs t !! i else vt_outputs t !! i).
Proof.
  revert t. induction l as [|x l IH]; intros t Hl; cbn [stateful_fold].
  - exists (vt_outputs t). split; [by destruct t|done].
  - apply list.Forall_cons in Hl as [Hx Hl]. unfold mbind, stateful_bind, set_binding at 1, updating, indexed.
    destruct (lookup_lt_is_Some_2 (vt_outputs t) (slot x) Hx) as [o Ho]. rewrite Ho.
    cbn [ok_or mbind result_bind].
    match goal with |- context [stateful_fold _ _ l ?t1] => destruct (IH t1) as (outs' & -> & Hk) end.
    { eapply list.Forall_impl; [exact Hl|]. intros ?. cbn. by rewrite length_insert. }
    cbn [with_outputs vt_outputs] in Hk. exists outs'. split; [done|]. intros i. rewrite Hk.
    unfold slots; cbn [fmap list_fmap]; fold (slots l). destruct (decide (i = slot x)) as [->|Hne].
    + rewrite list_lookup_insert_eq by done.
      rewrite (decide_True (P := slot x ∈ slot x :: slots l)) by constructor.
      rewrite Ho. cbn. by case_decide.
    + rewrite list_lookup_insert_ne by congruence. destruct (decide (i ∈ slots l)) as [Hin|Hin].
      * by rewrite decide_True by (by constructor).
      * rewrite decide_False; [done|]. rewrite elem_of_cons. naive_solver.
Qed.

(** The binding a group gives, from the transaction before any binding. *)
Definition group_binding (t : ToccataV1Tx) (g : ToccataGenesisCovenantGroup) (b : CovenantBinding)
  : Prop :=
  ∃ input outputs,
    vt_inputs t !! Z.to_nat (gg_authorizing_input g) = Some input ∧
    mapM (authorized_output t) (gg_outputs g) = Some outputs ∧
    b = {| cb_authorizing_input := gg_authorizing_input g;
           cb_covenant_id := compute_covenant_id (vi_previous_outpoint input) outputs |}.

Definition same_shape (t t' : ToccataV1Tx) : Prop :=
  t' = with_outputs t (vt_outputs t') ∧ strip <$> vt_outputs t' = strip <$> vt_outputs t.

Lemma same_shape_output t t' k : same_shape t t' → authorized_output t' k = authorized_output t k.
Proof.
  intros [_ E]. unfold authorized_output.
  apply (f_equal (λ l, l !! slot k)) in E. rewrite !list_lookup_fmap in E.
  destruct (vt_outputs t' !! slot k) as [o'|], (vt_outputs t !! slot k) as [o|]; try done.
  cbn in *. unfold strip in E. congruence.
Qed.

Lemma authorized_outputs_some t l :
  Forall (λ k, slot k < length (vt_outputs t))%nat l → is_Some (mapM (authorized_output t) l).
Proof.
  intros Hl. apply mapM_is_Some_2. eapply list.Forall_impl; [exact Hl|]. intros k Hk.
  apply lookup_lt_is_Some_2 in Hk as [o Ho]. cbn. unfold authorized_output. rewrite Ho. by eexists.
Qed.

Lemma bind_group_spec t0 t g :
  same_shape t0 t → group_ok t0 g →
  ∃ t' b, bind_group () g t = (Ok (), t') ∧ group_binding t0 g b ∧ same_shape t0 t' ∧
    ∀ i, vt_outputs t' !! i =
      (if decide (i ∈ slots (gg_outputs g)) then bound b <$> vt_outputs t !! i
       else vt_outputs t !! i).
Proof.
  intros Hs Hg. pose proof Hs as [Et Estrip]. pose proof Hg as [Hi _ _ _].
  assert (Elen : length (vt_outputs t) = length (vt_outputs t0)).
  { by rewrite <-(length_fmap strip), Estrip, length_fmap. }
  assert (Ein : vt_inputs t = vt_inputs t0) by by rewrite Et.
  unfold bind_group, reading, mbind, stateful_bind, indexed. rewrite Ein.
  destruct (lookup_lt_is_Some_2 _ _ Hi) as [input Hin]. rewrite Hin. cbn [ok_or].
  rewrite (mapM_ext _ (authorized_output t0)) by (intros; by apply same_shape_output).
  destruct (authorized_outputs_some t0 (gg_outputs g)) as [outs Houts]; [by apply group_slots|].
  rewrite Houts. cbn [ok_or]. cbv zeta. set (b := {| cb_authorizing_input := _ |}).
  destruct (set_bindings b (gg_outputs g) t) as (outs' & -> & Hk).
  { rewrite Elen. by apply group_slots. }
  eexists _, b. split; [done|]. split; [by exists input, outs|].
  cbn [with_outputs vt_outputs]. split; [|done]. split; [by rewrite Et|].
  cbn [with_outputs vt_outputs]. rewrite <-Estrip. apply list_eq. intros i.
  rewrite !list_lookup_fmap, Hk. case_decide; [|done]. by destruct (vt_outputs t !! i).
Qed.

(** The groups one after the other. *)
Lemma bind_groups_spec t0 t groups :
  same_shape t0 t → Forall (group_ok t0) groups → NoDup (g ← groups; gg_outputs g) →
  ∃ t', stateful_fold bind_group () groups t = (Ok (), t') ∧ same_shape t0 t' ∧
    (∀ g k, g ∈ groups → k ∈ gg_outputs g →
       ∃ b, group_binding t0 g b ∧ vt_outputs t' !! slot k = bound b <$> vt_outputs t !! slot k) ∧
    ∀ i, i ∉ slots (g ← groups; gg_outputs g) → vt_outputs t' !! i = vt_outputs t !! i.
Proof.
  revert t. induction groups as [|g gs IH]; intros t Hs Hok Hnd; cbn [stateful_fold mbind list_bind] in *.
  - exists t. split_and!; try done. intros g k Hg. by apply elem_of_nil in Hg.
  - apply list.Forall_cons in Hok as [Hg Hgs]. apply list.NoDup_app in Hnd as (_ & Hdis & Hnd).
    destruct (bind_group_spec t0 t g Hs Hg) as (t1 & b & E & Hb & Hs1 & Hk).
    unfold mbind at 1, stateful_bind. rewrite E.
    destruct (IH t1 Hs1 Hgs Hnd) as (t' & -> & Hs' & Hin & Hout). exists t'.
    split; [done|]. split; [done|].
    assert (Hslots : slots (gg_outputs g ++ (x ← gs; gg_outputs x)) =
      slots (gg_outputs g) ++ slots (x ← gs; gg_outputs x)) by apply fmap_app.
    split.
    + intros g' k [->|Hg']%elem_of_cons Hk'.
      * exists b. split; [done|]. rewrite Hout by (rewrite elem_of_slots; by apply Hdis).
        rewrite Hk. by rewrite decide_True by by apply elem_of_slots.
      * destruct (Hin g' k Hg' Hk') as (b' & Hb' & ->). exists b'. split; [done|].
        rewrite Hk, decide_False; [done|]. rewrite elem_of_slots. intros Hk2. apply (Hdis k Hk2).
        apply list_elem_of_bind. by exists g'.
    + intros i Hi. rewrite Hslots, elem_of_app in Hi. rewrite Hout by tauto.
      rewrite Hk. by rewrite decide_False by tauto.
Qed.

(** Every refusal of the first loop is a group error: it never indexes out of
    bounds. *)
Definition refusal (e : TxFailure) : Prop := ∃ reason, e = group_error reason.

Lemma slots_refusal t seen l e :
  length seen = length (vt_outputs t) → try_fold (slot_verdict t) seen l = Err e → refusal e.
Proof.
  revert seen. induction l as [|k l IH]; intros seen Hlen; cbn [try_fold]; [done|].
  rewrite bind_err. intros [E|(s1 & E1 & E)].
  - unfold slot_verdict, indexed in E. apply bind_err in E as [ [_ ->]%fail_if_err|([] & Hk%fail_if_ok & E)].
    { by eexists. }
    destruct (lookup_lt_is_Some_2 seen (slot k)) as [b Hb]; [lia|].
    destruct (lookup_lt_is_Some_2 (vt_outputs t) (slot k)) as [o Ho]; [lia|].
    rewrite Hb, Ho in E. cbn [ok_or mbind result_bind] in E.
    apply bind_err in E as [ [_ ->]%fail_if_err|(_ & _ & E)]; [by eexists|].
    apply bind_err in E as [ [_ ->]%fail_if_err|(_ & _ & E)]; [by eexists|done].
  - apply slot_verdict_ok in E1 as (_ & _ & ->); [|done]. eapply IH, E. by rewrite mark_length.
Qed.

Lemma groups_refusal t seen groups e :
  length seen = length (vt_outputs t) → try_fold (group_verdict t) seen groups = Err e → refusal e.
Proof.
  revert seen. induction groups as [|g gs IH]; intros seen Hlen; cbn [try_fold]; [done|].
  rewrite bind_err. intros [E|(s1 & E1 & E)].
  - unfold group_verdict in E.
    do 3 (apply bind_err in E as [ [_ ->]%fail_if_err|(_ & _ & E)]; [by eexists|]).
    by eapply slots_refusal.
  - apply check_group_ok in E1 as (_ & _ & ->); [|done]. eapply IH, E. by rewrite foldl_mark_length.
Qed.

(** C21: Genesis covenants are all-or-nothing and never panic:
    [populate_genesis_covenants] succeeds exactly when every group has an
    existing authorising input and a non-empty, strictly increasing list of
    existing, unbound outputs, and no output is in two groups; otherwise it
    returns a group error and leaves the transaction it works on as it was.  On
    success only bindings change: each listed output is bound to its group's
    input and to the covenant id of that input's outpoint and the group's
    outputs, every other output is untouched. *)
Theorem populate_genesis_spec (t : ToccataV1Tx) (groups : list ToccataGenesisCovenantGroup) :
  (Forall (group_ok t) groups ∧ NoDup (g ← groups; gg_outputs g) →
   ∃ t', populate_genesis_covenants groups t = (Ok (), t') ∧
     t' = with_outputs t (vt_outputs t') ∧
     (strip <$> vt_outputs t') = (strip <$> vt_outputs t) ∧
     (∀ g k, g ∈ groups → k ∈ gg_outputs g →
        ∃ b, group_binding t g b ∧ vt_outputs t' !! slot k = bound b <$> vt_outputs t !! slot k) ∧
     ∀ i, i ∉ slots (g ← groups; gg_outputs g) → vt_outputs t' !! i = vt_outputs t !! i) ∧
  (¬ (Forall (group_ok t) groups ∧ NoDup (g ← groups; gg_outputs g)) →
   ∃ reason, populate_genesis_covenants groups t = (Err (group_error reason), t)).
Proof.
  set (seen := replicate (length (vt_outputs t)) false).
  assert (Hlen : length seen = length (vt_outputs t)) by apply length_replicate.
  assert (Hrun : populate_genesis_covenants groups t =
    match try_fold (group_verdict t) seen groups with
    | Ok _ => stateful_fold bind_group () groups t
    | Err e => (Err e, t)
    end).
  { unfold populate_genesis_covenants, reading, mbind at 1 2, stateful_bind. fold seen.
    rewrite (stateful_fold_reads _ (group_verdict t)) by apply check_group_reads.
    by destruct (try_fold _ _ _). }
  rewrite Hrun. pose proof (check_groups_ok t groups seen Hlen) as Hcheck. split.
  - intros [Hok Hnd]. destruct (try_fold _ _ _) as [s|e].
    + destruct (bind_groups_spec t t groups) as (t' & -> & [Et Es] & Hin & Hout); [|done..|].
      { split; [by destruct t|done]. }
      by exists t'.
    + cbn in Hcheck. exfalso. assert (false = true) as ?; [|done]. apply Hcheck.
      split_and!; try done. apply list.Forall_forall. intros k Hk.
      apply list_elem_of_bind in Hk as (g & Hk & Hg).
      apply lookup_replicate_2. rewrite list.Forall_forall in Hok.
      pose proof (group_slots t g (Hok g Hg)) as Hl. rewrite list.Forall_forall in Hl. by apply Hl.
  - intros Hnot. destruct (try_fold _ _ _) as [s|e] eqn:E.
    + destruct Hnot. destruct Hcheck as [Hc _]. specialize (Hc eq_refl). naive_solver.
    + destruct (groups_refusal _ _ _ _ Hlen E) as [reason ->]. by exists reason.
Qed.
End genesis.
