(* ===== verification/TxBorsh.v ===== *)
(** The Borsh wire form of a Toccata v1 transaction
    ([ToccataV1Tx::to_borsh_bytes], src/crates/rgk-tx/src/lib.rs): when its
    assertions hold, and that it is unambiguous. *)

From stdpp Require Import base list strings numbers.
From Stdlib Require Import ZArith Lia Strings.Byte.
From S2P Require Import Prelude.
From S2P Require Import Bytes.
From S2P Require Import Encoding.
From S2P Require Import Types.
From S2P Require Import Tx.
From S2P Require Import TxCorrect.

Open Scope list_scope.

(** [b] writes [f] when [P] holds and panics otherwise. *)
Definition guarded (P : Prop) (f : Writer → Writer) (b : bwriter) : Prop :=
  (P → ∀ w, b w = Some (f w)) ∧ (¬ P → ∀ w, b w = None).

Lemma guarded_bw f : guarded True f (bw f).
Proof. split; [done|by intros []]. Qed.

Lemma guarded_seq P Q f g b c `{!Decision P} :
  guarded P f b → guarded Q g c → guarded (P ∧ Q) (f ▷ g) (bw_seq b c).
Proof.
  intros [Hb Hb'] [Hc Hc']. unfold bw_seq, write_seq. split.
  - intros [HP HQ] w. rewrite Hb by done. cbn. by rewrite Hc.
  - intros Hn w. destruct (decide P) as [HP|HP].
    + rewrite Hb by done. cbn. apply Hc'. tauto.
    + by rewrite Hb'.
Qed.

Lemma guarded_all {A} (P : A → Prop) f (b : A → bwriter) `{!∀ x, Decision (P x)} l :
  (∀ x, guarded (P x) (f x) (b x)) → guarded (Forall P l) (write_all f l) (bw_all b l).
Proof.
  intros Hb. induction l as [|x l IH].
  - split; [done|]. intros []. constructor.
  - destruct (guarded_seq _ _ _ _ _ _ (Hb x) IH) as [H1 H2]. split.
    + intros Hl%list.Forall_cons w. by apply H1.
    + intros Hl w. rewrite list.Forall_cons in Hl. by apply H2.
Qed.

Definition fits32 (n : nat) : Prop := (Z.of_nat n <= 2 ^ 32 - 1)%Z.
#[export] Instance fits32_dec n : Decision (fits32 n).
Proof. unfold fits32. apply _. Defined.

Definition write_vec (b : list byte) : Writer → Writer := write_len32 (length b) ▷ write_bytes b.

Lemma guarded_len n : guarded (fits32 n) (write_len32 n) (bw_len n).
Proof. split; intros Hn w; unfold bw_len, fits32 in *; [by rewrite decide_True|by rewrite decide_False]. Qed.

Lemma guarded_vec b : guarded (fits32 (length b)) (write_vec b) (bw_vec b).
Proof.
  destruct (guarded_seq _ _ _ _ _ _ (guarded_len (length b)) (guarded_bw (write_bytes b))) as [H1 H2].
  split; intros; [apply H1|apply H2]; tauto.
Qed.

Definition write_binding (o : option CovenantBinding) : Writer → Writer :=
  match o with
  | Some b => write_u8 x01 ▷ write_u16 (cb_authorizing_input b) ▷ write_bytes32 (cb_covenant_id b)
  | None => write_u8 x00
  end.

Definition write_borsh_input (i : ToccataTxInput) : Writer → Writer :=
  hash_toccata_outpoint (vi_previous_outpoint i) ▷ write_vec (vi_signature_script i) ▷
  write_u64 (vi_sequence i) ▷ write_u8 x01 ▷ write_u16 (vi_compute_budget i).

Definition write_borsh_output (o : ToccataTxOutput) : Writer → Writer :=
  write_u64 (vo_value o) ▷ write_u16 (tk_version (vo_script_public_key o)) ▷
  write_vec (tk_script (vo_script_public_key o)) ▷ write_binding (vo_covenant_binding o).

#[export] Instance write_len32_appending n : Appending (write_len32 n).
Proof. unfold write_len32. apply _. Qed.
#[export] Instance write_vec_appending b : Appending (write_vec b).
Proof. unfold write_vec. apply _. Qed.
#[export] Instance write_binding_appending o : Appending (write_binding o).
Proof. unfold write_binding. destruct o; apply _. Qed.
#[export] Instance borsh_input_appending i : Appending (write_borsh_input i).
Proof. unfold write_borsh_input. apply _. Qed.
#[export] Instance borsh_output_appending o : Appending (write_borsh_output o).
Proof. unfold write_borsh_output. apply _. Qed.

Lemma guarded_input i :
  guarded (fits32 (length (vi_signature_script i))) (write_borsh_input i) (write_borsh_toccata_input i).
Proof.
  pose proof (guarded_seq _ _ _ _ _ _ (guarded_bw (hash_toccata_outpoint (vi_previous_outpoint i)))
    (guarded_seq _ _ _ _ _ _ (guarded_vec (vi_signature_script i))
    (guarded_seq _ _ _ _ _ _ (guarded_bw (write_u64 (vi_sequence i)))
    (guarded_seq _ _ _ _ _ _ (guarded_bw (write_u8 x01)) (guarded_bw (write_u16 (vi_compute_budget i)))))))
    as [H1 H2].
  split; intros; [apply H1|apply H2]; tauto.
Qed.

Lemma guarded_binding o :
  guarded True (write_binding o)
    match o with
    | Some b => bw_seq (bw (write_u8 x01)) (bw_seq (bw (write_u16 (cb_authorizing_input b)))
                  (bw (write_bytes32 (cb_covenant_id b))))
    | None => bw (write_u8 x00)
    end.
Proof. destruct o; split; done. Qed.

Lemma guarded_output o :
  guarded (fits32 (length (tk_script (vo_script_public_key o)))) (write_borsh_output o)
    (write_borsh_toccata_output o).
Proof.
  pose proof (guarded_seq _ _ _ _ _ _ (guarded_bw (write_u64 (vo_value o)))
    (guarded_seq _ _ _ _ _ _ (guarded_bw (write_u16 (tk_version (vo_script_public_key o))))
    (guarded_seq _ _ _ _ _ _ (guarded_vec (tk_script (vo_script_public_key o)))
    (guarded_binding (vo_covenant_binding o))))) as [H1 H2].
  split; intros; [apply H1|apply H2]; tauto.
Qed.

(** Every vector length fits 32 bits. *)
Definition borsh_fits (t : ToccataV1Tx) : Prop :=
  fits32 (length (vt_inputs t)) ∧
  Forall (λ i, fits32 (length (vi_signature_script i))) (vt_inputs t) ∧
  fits32 (length (vt_outputs t)) ∧
  Forall (λ o, fits32 (length (tk_script (vo_script_public_key o)))) (vt_outputs t) ∧
  fits32 (length (vt_payload t)).

Section borsh.
Context `{KaspaTxHashes}.

Definition borsh_bytes (t : ToccataV1Tx) : list byte :=
  (write_u16 TX_VERSION_TOCCATA ▷
   write_len32 (length (vt_inputs t)) ▷ write_all write_borsh_input (vt_inputs t) ▷
   write_len32 (length (vt_outputs t)) ▷ write_all write_borsh_output (vt_outputs t) ▷
   write_u64 (vt_lock_time t) ▷ write_bytes (vt_subnetwork_id t) ▷ write_u64 (vt_gas t) ▷
   write_vec (vt_payload t) ▷ write_u64 (vt_mass t) ▷ write_bytes (txid t)) [].

Lemma to_borsh_spec t :
  (borsh_fits t → to_borsh_bytes t = Some (borsh_bytes t)) ∧
  (¬ borsh_fits t → to_borsh_bytes t = None).
Proof.
  pose proof (guarded_seq _ _ _ _ _ _ (guarded_bw (write_u16 TX_VERSION_TOCCATA))
    (guarded_seq _ _ _ _ _ _ (guarded_len (length (vt_inputs t)))
    (guarded_seq _ _ _ _ _ _ (guarded_all _ _ _ (vt_inputs t) guarded_input)
    (guarded_seq _ _ _ _ _ _ (guarded_len (length (vt_outputs t)))
    (guarded_seq _ _ _ _ _ _ (guarded_all _ _ _ (vt_outputs t) guarded_output)
    (guarded_seq _ _ _ _ _ _ (guarded_bw (write_u64 (vt_lock_time t)))
    (guarded_seq _ _ _ _ _ _ (guarded_bw (write_bytes (vt_subnetwork_id t)))
    (guarded_seq _ _ _ _ _ _ (guarded_bw (write_u64 (vt_gas t)))
    (guarded_seq _ _ _ _ _ _ (guarded_vec (vt_payload t))
    (guarded_seq _ _ _ _ _ _ (guarded_bw (write_u64 (vt_mass t)))
      (guarded_bw (write_bytes (txid t)))))))))))))
    as [H1 H2].
  unfold borsh_fits. split; intros Hf; [apply H1; tauto|apply H2; tauto].
Qed.

Lemma write_vec_delimits : delimits (λ b, fits32 (length b)) write_vec.
Proof.
  intros b c l k Hb Hc. unfold write_vec, write_len32, fits32 in *. rewrite !write_seq_nil by apply _.
  unfold write_u32, write_bytes. cbn [app]. rewrite <-!app_assoc. intros E.
  apply u32_le_app_inj in E as [En E]. apply (f_equal uval) in En.
  rewrite !uval_wrap_small in En by lia. apply app_inj_1 in E as [-> ->]; [done|lia].
Qed.

Lemma write_len32_delimits n m l k :
  fits32 n → fits32 m → write_len32 n [] ++ l = write_len32 m [] ++ k → n = m ∧ l = k.
Proof.
  unfold fits32, write_len32, write_u32. cbn [app]. intros Hn Hm E.
  apply u32_le_app_inj in E as [En ->]. apply (f_equal uval) in En.
  rewrite !uval_wrap_small in En by lia. split; [lia|done].
Qed.

Lemma borsh_input_delimits :
  delimits (λ i, fits32 (length (vi_signature_script i))) write_borsh_input.
Proof.
  intros i j l k Hi Hj. unfold write_borsh_input. rewrite !write_seq_nil by apply _.
  rewrite <-!app_assoc. intros E. apply outpoint_delimits in E as [Eo E]; [|done..].
  apply write_vec_delimits in E as [Es E]; [|done..].
  unfold write_u64, write_u8, write_u16 in E. cbn [app] in E.
  apply u64_le_app_inj in E as [Eq E]. apply cons_byte_inj in E as [_ E].
  apply u16_le_app_inj in E as [Eb ->]. split; [|done]. destruct i, j; cbn in *; congruence.
Qed.

Lemma write_binding_delimits : delimits always write_binding.
Proof.
  intros b c l k _ _. unfold write_binding. destruct b as [[a i]|], c as [[a' i']|];
    rewrite ?write_seq_nil by apply _; unfold write_u8, write_u16, write_bytes32; cbn [app];
    intros E; apply cons_byte_inj in E as [Eb E]; try done.
  rewrite <-!app_assoc in E. cbn in E. apply u16_le_app_inj in E as [-> E].
  by apply bytes_app_inj in E as [-> ->].
Qed.

Lemma borsh_output_delimits :
  delimits (λ o, fits32 (length (tk_script (vo_script_public_key o)))) write_borsh_output.
Proof.
  intros o p l k Ho Hp. unfold write_borsh_output. rewrite !write_seq_nil by apply _.
  rewrite <-!app_assoc. unfold write_u64, write_u16. cbn [app]. intros E.
  apply u64_le_app_inj in E as [Ev E]. apply u16_le_app_inj in E as [Evv E].
  apply write_vec_delimits in E as [Es E]; [|done..].
  apply write_binding_delimits in E as [Eb ->]; [|done..].
  split; [|done]. destruct o as [? []], p as [? []]; cbn in *; congruence.
Qed.

(** Fact: The Borsh form is total on transactions whose vectors fit 32-bit lengths,
    panics on the others, and is unambiguous: two transactions with the same
    wire bytes are equal in every field, with no appeal to the hashes. *)
Theorem borsh_identifies (t t' : ToccataV1Tx) :
  (is_Some (to_borsh_bytes t) ↔ borsh_fits t) ∧
  (is_Some (to_borsh_bytes t) → to_borsh_bytes t = to_borsh_bytes t' → t = t').
Proof.
  assert (Hs : ∀ t, is_Some (to_borsh_bytes t) ↔ borsh_fits t).
  { intros u. destruct (to_borsh_spec u) as [H1 H2]. split.
    - intros [bs E]. apply dec_stable. intros Hn. by rewrite H2 in E.
    - intros Hf. rewrite H1 by done. by eexists. }
  split; [apply Hs|]. intros Hsome E.
  assert (Hf : borsh_fits t) by by apply Hs.
  assert (Hf' : borsh_fits t') by (apply Hs; by rewrite <-E).
  rewrite (proj1 (to_borsh_spec t) Hf), (proj1 (to_borsh_spec t') Hf') in E.
  injection E as E. destruct Hf as (Hi & Hsg & Ho & Hsc & Hp), Hf' as (Hi' & Hsg' & Ho' & Hsc' & Hp').
  unfold borsh_bytes in E. rewrite !write_seq_nil in E by apply _. rewrite <-?app_assoc in E.
  unfold write_u16 at 1 2 in E. cbn [app] in E. apply u16_le_app_inj in E as [_ E].
  apply write_len32_delimits in E as [Eli E]; [|done..].
  apply (write_all_delimits _ _ _ _ _ _ borsh_input_delimits) in E as [Ei E]; [|apply _|done..].
  apply write_len32_delimits in E as [Elo E]; [|done..].
  apply (write_all_delimits _ _ _ _ _ _ borsh_output_delimits) in E as [Eo E]; [|apply _|done..].
  unfold write_u64, write_bytes in E. cbn [app] in E.
  apply u64_le_app_inj in E as [El E]. apply bytes_app_inj in E as [Esub E].
  apply u64_le_app_inj in E as [Eg E]. apply write_vec_delimits in E as [Epay E]; [|done..].
  apply u64_le_app_inj in E as [Em _]. destruct t, t'; cbn in *; congruence.
Qed.
End borsh.
