(* ===== verification/CovenantFlow.v ===== *)
(** The covenant state, its script and the transaction builder together: a spend
    the script accepts carries a state of the same lineage, and every advanced
    state can be spent into. *)

From stdpp Require Import base list strings numbers.
From Stdlib Require Import ZArith Lia Strings.Byte.
From S2P Require Import Prelude.
From S2P Require Import Bytes.
From S2P Require Import Encoding.
From S2P Require Import Types.
From S2P Require Import Covenant.
From S2P Require Import CovenantCorrect.
From S2P Require Import CovenantScript.
From S2P Require Import ScriptNumber.
From S2P Require Import ScriptMeaning.
From S2P Require Import Tx.
From S2P Require Import TxCorrect.
From S2P Require Import CovenantSamples.

Open Scope list_scope.

Definition same_lineage (s s' : CovenantState) : Prop :=
  cs_chain_id s' = cs_chain_id s ∧ cs_lineage_id s' = cs_lineage_id s ∧
  cs_asset_id s' = cs_asset_id s ∧ cs_receipt_policy s' = cs_receipt_policy s ∧
  cs_genesis_proof_mode s' = cs_genesis_proof_mode s.

(** Same lineage, at the current version: what the payload of a spend carries. *)
Lemma carries_state_of tx s :
  carries_state tx (spec_from_state s) ↔
    ∃ s', tv_payload tx = encode_payload s' ∧ cs_version s' = ENCODING_VERSION ∧ same_lineage s s'.
Proof.
  unfold carries_state, spec_from_state, same_lineage. cbn. split.
  - intros (d & m & ->). eexists. split; [done|]. done.
  - intros (s' & -> & Hv & ? & ? & ? & ? & ?). exists (cs_current_state_digest s'), (cs_replay_marker s').
    f_equal. destruct s'; cbn in *. congruence.
Qed.

(** C15: A covenant never leaves its lineage on chain: whenever an engine that
    runs the opcodes as documented accepts a spend under the script a valid
    state's spec builds for any continuation policy, the spend's payload decodes,
    and the state it decodes to has the same chain, lineage, asset, receipt
    policy and proof mode. *)
Theorem accepted_spend_keeps_lineage run `{!TxScript run} (s : CovenantState) policy script tx :
  covenant_state_validate s = Ok () →
  build_script_for_policy (spec_from_state s) policy = Ok script →
  (Z.of_nat (length (tv_payload tx)) < 2 ^ 63)%Z →
  run tx script [] = true →
  ∃ s', decode_payload (tv_payload tx) = Ok s' ∧
    cs_chain_id s' = cs_chain_id s ∧ cs_lineage_id s' = cs_lineage_id s ∧
    cs_asset_id s' = cs_asset_id s ∧ cs_receipt_policy s' = cs_receipt_policy s ∧
    cs_genesis_proof_mode s' = cs_genesis_proof_mode s.
Proof.
  intros Hs Hb Hlen Hrun. apply (covenant_script_iff run _ _ _ _ Hb Hlen) in Hrun as (_ & _ & _ & Hc).
  apply carries_state_of in Hc as (s' & Hp & Hv & Hl). exists s'. split; [|exact Hl].
  apply covenant_state_validate_ok in Hs as (_ & Hlin & Ha).
  apply decode_payload_iff. rewrite Hp. split; [|split; [done|apply payload_length]].
  destruct Hl as (_ & -> & -> & _). done.
Qed.

(** Fact: Every advance can be put on chain: when [advance] leads from a valid state
    to another, a spend of the state's singleton script that keeps input 0's
    script and covenant in its one output, authorised by input 0, and carries the
    advanced state's payload, is accepted by every engine that runs the opcodes
    as documented. *)
Theorem advance_is_spendable run `{!TxScript run} (s : CovenantState) d m s' tx :
  covenant_state_validate s = Ok () → advance s d m = Ok s' →
  tv_payload tx = encode_payload s' →
  tv_input_index tx = wrap 32 0 → tv_output_count tx = wrap 32 1 →
  continues tx (wrap 16 0) (wrap 32 0) →
  ∃ script, build_script (spec_from_state s) = Ok script ∧ run tx script [] = true.
Proof.
  intros Hs Ha Hp Hi Ho Hc. unfold build_script.
  destruct (build_script_for_policy (spec_from_state s) singleton) as [script|e] eqn:Hb.
  - exists script. split; [done|]. apply (covenant_script_iff run _ _ _ _ Hb).
    { rewrite Hp, payload_length. lia. }
    split_and!; [by rewrite Hi|done|by constructor|].
    apply carries_state_of. exists s'. apply advance_ok in Ha as [_ ->].
    apply covenant_state_validate_ok in Hs as [Hv _]. done.
  - exfalso. rewrite build_script_compiles_eq in Hb.
    assert (continuation_validate singleton = Ok ()) as Hv by by vm_compute. by rewrite Hv in Hb.
Qed.

(** * At concrete values *)

Definition sample_genesis : CovenantState :=
  covenant_genesis KaspaLocalToccata (fill 32 x08) (fill 32 x07) Any ZkReceipt.

Definition sample_advanced : CovenantState :=
  match advance sample_genesis (fill 32 x0a) (fill 32 x0b) with Ok s => s | Err _ => sample_genesis end.

Lemma accepted_spend_keeps_lineage_witness :
  sample_run (sample_spend (wrap 16 0)) sample_script [] = true ∧
  ∃ s', decode_payload (tv_payload (sample_spend (wrap 16 0))) = Ok s' ∧
    cs_chain_id s' = KaspaLocalToccata ∧ cs_lineage_id s' = fill 32 x07 ∧
    cs_asset_id s' = fill 32 x08 ∧ cs_receipt_policy s' = Any ∧ cs_genesis_proof_mode s' = ZkReceipt.
Proof.
  split; [by vm_compute|].
  apply (accepted_spend_keeps_lineage sample_run sample_genesis singleton sample_script
    (sample_spend (wrap 16 0))); by vm_compute.
Defined.

Lemma advance_is_spendable_witness :
  ∃ script, build_script (spec_from_state sample_genesis) = Ok script ∧
    sample_run (sample_spend (wrap 16 0)) script [] = true.
Proof.
  apply (advance_is_spendable sample_run sample_genesis (fill 32 x0a) (fill 32 x0b) sample_advanced);
    [by vm_compute..|].
  split_and!; [by exists [x01; x02; x03]|by exists (blist (fill 32 x0c))|by vm_compute].
Defined.
