(* ===== verification/TxSamples.v ===== *)
(** The transaction theorems at concrete transactions, and the overflow and
    change cases of the builders. *)

From stdpp Require Import base list strings numbers.
From Stdlib Require Import ZArith Lia Strings.Byte.
From S2P Require Import Prelude.
From S2P Require Import Bytes.
From S2P Require Import Encoding.
From S2P Require Import Types.
From S2P Require Import Commit.
From S2P Require Import Covenant.
From S2P Require Import Tx.
From S2P Require Import TxCorrect.
From S2P Require Import TxGenesis.
From S2P Require Import TxBorsh.

Open Scope list_scope.

Definition sample_tx_hashes : KaspaTxHashes := {|
  TransactionRest := toy_sha256; PayloadDigest := toy_sha256; TransactionV1Id := toy_sha256;
  TransactionHash := toy_sha256; TransactionSigningHash := toy_sha256 |}.
#[local] Existing Instance sample_tx_hashes.
Definition sample_cov_hash : KaspaCovenantIdHasher := toy_sha256.
#[local] Existing Instance sample_cov_hash.

Definition sample_spk (b : byte) : ToccataScriptPublicKey :=
  {| tk_version := wrap 16 0; tk_script := [x51; b] |}.

Definition sample_input (signature : list byte) : ToccataTxInput :=
  {| vi_previous_outpoint := {| transaction_id := fill 32 x05; index := wrap 32 3 |};
     vi_signature_script := signature; vi_sequence := wrap 64 9; vi_compute_budget := wrap 16 4 |}.

Definition sample_tx (signature : list byte) : ToccataV1Tx :=
  {| vt_inputs := [sample_input signature];
     vt_outputs := [toccata_output_new (wrap 64 1000) (sample_spk x01);
                    toccata_output_new (wrap 64 20) (sample_spk x02)];
     vt_lock_time := wrap 64 0; vt_subnetwork_id := SUBNETWORK_ID_NATIVE; vt_gas := wrap 64 0;
     vt_payload := [x01; x02]; vt_mass := wrap 64 7 |}.

Lemma sample_tx_fits sig : (length sig <= 10)%nat → tx_fits (sample_tx sig).
Proof.
  intros Hs. constructor; unfold fits; cbn [sample_tx vt_inputs vt_outputs vt_payload length]; try lia.
  - repeat constructor.
  - constructor; [|constructor]. cbn [sample_input vi_signature_script]. lia.
Qed.

(** Signing does not change the id. *)
Lemma txid_names_effects_witness :
  sample_tx [] ≠ sample_tx [xaa] ∧ txid (sample_tx []) = txid (sample_tx [xaa]).
Proof.
  split; [done|].
  apply (txid_names_effects (sample_tx []) (sample_tx [xaa]));
    [apply sample_tx_fits; cbn; lia|apply sample_tx_fits; cbn; lia|reflexivity].
Defined.

Lemma tx_hash_identifies_witness :
  sample_tx [xaa] = sample_tx [xaa] ∨
  collides TransactionHash
    [write_transaction FULL (sample_tx [xaa]) []; write_transaction FULL (sample_tx [xaa]) []].
Proof.
  apply (tx_hash_identifies (sample_tx [xaa]) (sample_tx [xaa]));
    [apply sample_tx_fits; cbn; lia|apply sample_tx_fits; cbn; lia|reflexivity].
Defined.

Definition sample_utxos : list ToccataUtxoEntry :=
  [{| ue_amount := wrap 64 1100; ue_script_public_key := sample_spk x03 |}].

Definition sample_sighash (signature : list byte) : Bytes32 :=
  match schnorr_signature_hash (sample_tx signature) 0 sample_utxos SIG_HASH_ALL with
  | Ok d => d | Err _ => zero32 end.

(** A signature hash does not depend on the signature it will be put in; and no two
    messages of the two computations collide under the sample hash, so equal
    hashes give equal views. *)
Lemma signature_hash_covers_view_witness :
  (∃ d, schnorr_signature_hash (sample_tx []) 0 sample_utxos SIG_HASH_ALL = Ok d) ∧
  ∃ v v', signed (sample_tx []) 0 sample_utxos SIG_HASH_ALL = Some v ∧
    signed (sample_tx [xbb]) 0 sample_utxos SIG_HASH_ALL = Some v' ∧ v = v'.
Proof.
  assert (Hu : Forall (λ u, fits (length (tk_script (ue_script_public_key u)))) sample_utxos)
    by repeat constructor.
  destruct (signature_hash_covers_view (sample_tx []) 0 sample_utxos SIG_HASH_ALL
    (sample_tx [xbb]) 0 sample_utxos SIG_HASH_ALL) as [Hex Hsame];
    [apply sample_tx_fits; cbn; lia|apply sample_tx_fits; cbn; lia|exact Hu|exact Hu|].
  split; [apply Hex; split; [by vm_compute|cbn; lia]|].
  destruct (Hsame (sample_sighash []) (sample_sighash [xbb])) as (v & v' & Hv & Hv' & _ & Hi);
    [by vm_compute|by vm_compute|]. exists v, v'. split; [exact Hv|]. split; [exact Hv'|].
  destruct Hi as [E|Hb]; [by vm_compute|exact E|]. vm_compute in Hv, Hv'.
  injection Hv as <-. injection Hv' as <-. destruct Hb as [Hc|Hc]; no_collision Hc.
Defined.

Definition sample_group : ToccataGenesisCovenantGroup :=
  {| gg_authorizing_input := wrap 16 0; gg_outputs := [wrap 32 0] |}.

(** One group over output 0: bound there, output 1 untouched. *)
Lemma populate_genesis_spec_witness :
  ∃ t', populate_genesis_covenants [sample_group] (sample_tx []) = (Ok (), t') ∧
    vt_outputs t' !! 1%nat = vt_outputs (sample_tx []) !! 1%nat.
Proof.
  destruct (populate_genesis_spec (sample_tx []) [sample_group]) as [Hok _].
  destruct Hok as (t' & Ht & _ & _ & _ & Hout).
  - split; [|cbn; apply NoDup_singleton].
    constructor; [|constructor]. constructor; [vm_compute; lia|done|done|].
    constructor; [|constructor]. by eexists.
  - exists t'. split; [exact Ht|]. apply Hout. apply (bool_decide_unpack _). vm_compute. exact I.
Defined.

Lemma borsh_identifies_witness :
  borsh_fits (sample_tx []) ∧ is_Some (to_borsh_bytes (sample_tx [])).
Proof.
  assert (Hf : borsh_fits (sample_tx [])) by (apply (bool_decide_unpack _); vm_compute; exact I).
  split; [exact Hf|]. by apply (borsh_identifies (sample_tx []) (sample_tx [])).
Defined.

Definition sample_cov_state : CovenantState :=
  covenant_genesis KaspaLocalToccata (fill 32 x08) (fill 32 x07) Any ZkReceipt.

(** A change of [2^64 - 1] out of an input total of 10. *)
Lemma transition_change_unchecked_witness :
  ∃ outs, build_transition_outputs sample_cov_state [x51] (wrap 64 8) (fill 32 x01) (wrap 64 2)
            (wrap 64 (2 ^ 64 - 1)) (Some [x52]) (wrap 64 10) = Ok outs.
Proof.
  apply (transition_change_unchecked sample_cov_state [x51] (wrap 64 8) (fill 32 x01) (wrap 64 2)
    (wrap 64 (2 ^ 64 - 1)) [x52] (wrap 64 10)); by vm_compute.
Defined.

(** A fee that wraps the sum: outputs worth [2^64 - 1] from an input of 0. *)
Example wrapped_fee_accepted :
  is_ok (build_transition_outputs sample_cov_state [x51] (wrap 64 (2 ^ 64 - 1)) (fill 32 x01)
    (wrap 64 1) (wrap 64 0) None (wrap 64 0)) = true.
Proof. by vm_compute. Qed.
