(* ===== verification/Zk.v ===== *)
(** The zero-knowledge receipt mode without a proving library
    (src/crates/rgk-zk/src/lib.rs): the public statements and their byte
    layouts, the semantic transition statement and its validation, proof blobs,
    zero-knowledge receipts and the stack of the RISC Zero precompile. *)

From stdpp Require Import base list strings.
From Stdlib Require Import ZArith Lia Strings.Byte.
From S2P Require Import Prelude.
From S2P Require Import Bytes.
From S2P Require Import Encoding.
From S2P Require Import Types.
From S2P Require Import Commit.
From S2P Require Import AssetTypes.
From S2P Require Import AssetRules.
From S2P Require Import Asset.

Open Scope string_scope.

(** * Tags and errors *)

Inductive ZkTag : Type := Groth16 | R0Succinct.

#[export] Instance ZkTag_eq_dec : EqDecision ZkTag.
Proof. solve_decision. Defined.

Definition zk_tag_from_byte (b : u8) : option ZkTag :=
  match b with x20 => Some Groth16 | x21 => Some R0Succinct | _ => None end.
Definition zk_tag_as_byte (self : ZkTag) : u8 :=
  match self with Groth16 => x20 | R0Succinct => x21 end.

Inductive ZkError : Type :=
| ZE_MissingProof
| ZE_ProofTooLong (got : nat) (max : Z)
| ZE_TooManyPublicInputs (got max : nat)
| ZE_PublicInputTooLong (got max : nat)
| ZE_SemanticCountTooLarge (field : string) (count : nat)
| ZE_SemanticTransitionMismatch (field : string)
| ZE_SemanticTransitionInvalid (field : string)
| ZE_UnknownTag (tag : u8)
| ZE_UnsupportedTag (tag : ZkTag)
| ZE_InvalidR0SuccinctFieldLen (field : string) (got expected : nat)
| ZE_InvalidR0SuccinctFieldMultiple (field : string) (got multiple : nat)
| ZE_R0SuccinctTooManyItems (field : string) (got max : nat)
| ZE_UnsupportedR0SuccinctHashFn (hashfn : u8)
| ZE_StatementMismatch
| ZE_WrongMode (mode : ProofMode).

Abbreviation zresult := (result ZkError).

(** * The RISC Zero Succinct stack *)

Definition R0_SUCCINCT_HASH_FN_POSEIDON2 : u8 := x01.
Definition R0_SUCCINCT_CONTROL_DIGEST_BYTES : nat := 32.
Definition R0_SUCCINCT_CONTROL_INDEX_BYTES : nat := 4.
Definition R0_SUCCINCT_MAX_CONTROL_DIGESTS : nat := 8.
Definition R0_SUCCINCT_MAX_SEAL_BYTES : Z := 1000000.

Record R0SuccinctPrecompileStack := {
  r0_claim : Bytes32;
  r0_control_index : bytes R0_SUCCINCT_CONTROL_INDEX_BYTES;
  r0_control_digests : list byte;
  r0_seal : list byte;
  r0_journal : Bytes32;
  r0_image_id : Bytes32;
  r0_control_id : Bytes32;
  r0_hashfn : u8;
  r0_tag : u8
}.

Definition validate_r0_succinct_variable_fields (control_digests seal : list byte) (hashfn : u8)
  : zresult unit :=
  _ ← fail_if (hashfn ≠ R0_SUCCINCT_HASH_FN_POSEIDON2) (ZE_UnsupportedR0SuccinctHashFn hashfn);
  _ ← fail_if (length control_digests mod R0_SUCCINCT_CONTROL_DIGEST_BYTES ≠ 0)%nat
        (ZE_InvalidR0SuccinctFieldMultiple "control_digests" (length control_digests)
           R0_SUCCINCT_CONTROL_DIGEST_BYTES);
  let control_digest_count := (length control_digests / R0_SUCCINCT_CONTROL_DIGEST_BYTES)%nat in
  _ ← fail_if (R0_SUCCINCT_MAX_CONTROL_DIGESTS < control_digest_count)%nat
        (ZE_R0SuccinctTooManyItems "control_digests" control_digest_count
           R0_SUCCINCT_MAX_CONTROL_DIGESTS);
  _ ← fail_if (seal = [] ∨ (length seal mod 4 ≠ 0)%nat)
        (ZE_InvalidR0SuccinctFieldMultiple "seal" (length seal) 4);
  fail_if (R0_SUCCINCT_MAX_SEAL_BYTES < Z.of_nat (length seal))%Z
    (ZE_ProofTooLong (length seal) R0_SUCCINCT_MAX_SEAL_BYTES).

Definition r0_stack_new (claim : Bytes32) (control_index : bytes R0_SUCCINCT_CONTROL_INDEX_BYTES)
    (control_digests seal : list byte) (journal image_id control_id : Bytes32) (hashfn : u8)
  : zresult R0SuccinctPrecompileStack :=
  _ ← validate_r0_succinct_variable_fields control_digests seal hashfn;
  Ok {| r0_claim := claim; r0_control_index := control_index;
        r0_control_digests := control_digests; r0_seal := seal; r0_journal := journal;
        r0_image_id := image_id; r0_control_id := control_id; r0_hashfn := hashfn;
        r0_tag := zk_tag_as_byte R0Succinct |}.

Definition script_push_items (self : R0SuccinctPrecompileStack) : list (list byte) :=
  [ blist (r0_claim self); blist (r0_control_index self); r0_control_digests self; r0_seal self;
    blist (r0_journal self); blist (r0_image_id self); blist (r0_control_id self);
    [r0_hashfn self]; [r0_tag self] ].

Definition control_digest_count (self : R0SuccinctPrecompileStack) : nat :=
  (length (r0_control_digests self) / R0_SUCCINCT_CONTROL_DIGEST_BYTES)%nat.

(** * The receipt statement *)

(** [chain_id_tagged_le_u32]: the tag ['K'] and the chain value, each as a
    little-endian [u32]. *)
Definition chain_id_tagged_le_u32 (chain_id : KaspaChainId) : list byte :=
  (u32_le (wrap 32 (byte_Z chain_TAG)) ++ u32_le (wrap 32 (byte_Z (chain_as_u8 chain_id))))%list.

Record ZkStatement := {
  zs_old_state_digest : Bytes32;
  zs_new_state_digest : Bytes32;
  zs_asset_id : RgkAssetId;
  zs_kaspa_covenant_id : KaspaCovenantId;
  zs_chain_id : KaspaChainId;
  zs_receipt_id : Bytes32;
  zs_transition_digest : TransitionDigest;
  zs_continuation_commitment : ContinuationCommitment
}.

#[export] Instance ZkStatement_eq_dec : EqDecision ZkStatement.
Proof. solve_decision. Defined.

Definition ZK_STATEMENT_LEN : nat := 232.

Definition zk_public_inputs (self : ZkStatement) : list byte :=
  (zs_old_state_digest self ++
   zs_new_state_digest self ++
   zs_asset_id self ++
   zs_kaspa_covenant_id self ++
   chain_id_tagged_le_u32 (zs_chain_id self) ++
   zs_receipt_id self ++
   zs_transition_digest self ++
   zs_continuation_commitment self)%list.

Definition zk_from_receipt (receipt : RgkReceipt) (receipt_id : Bytes32) : ZkStatement :=
  {| zs_old_state_digest := sc_state_digest (rc_old_state receipt);
     zs_new_state_digest := sc_state_digest (rc_new_state receipt);
     zs_asset_id := sc_asset_id (rc_old_state receipt);
     zs_kaspa_covenant_id := rc_covenant_id receipt;
     zs_chain_id := rc_chain_id receipt;
     zs_receipt_id := receipt_id;
     zs_transition_digest := rc_transition_digest receipt;
     zs_continuation_commitment := rc_continuation_commitment receipt |}.

Definition zk_matches (self : ZkStatement) (receipt : RgkReceipt) (receipt_id : Bytes32) : bool :=
  bool_decide (self = zk_from_receipt receipt receipt_id).

(** * The semantic transition statement *)

Record SemanticTransitionStatement := {
  ss_chain_id : KaspaChainId;
  ss_schema_id : Bytes32;
  ss_asset_id : Bytes32;
  ss_previous_state_digest : Bytes32;
  ss_new_state_digest : Bytes32;
  ss_transition_digest : Bytes32;
  ss_continuation_commitment : Bytes32;
  ss_continuation_shape_root : Bytes32;
  ss_lane_id : Bytes32;
  ss_privacy_policy : LanePrivacyPolicy;
  ss_policy_commitment : Bytes32;
  ss_metadata_commitment : Bytes32;
  ss_previous_owner_commitment : Bytes32;
  ss_new_owner_commitment : Bytes32;
  ss_ownership_authorization_commitment : Bytes32;
  ss_total_supply : u64;
  ss_spent_allocation_count : u64;
  ss_new_allocation_count : u64;
  ss_spent_supply : u64;
  ss_new_supply : u64;
  ss_burned_supply : u64;
  ss_burn_authorization_commitment : Bytes32
}.

#[export] Instance SemanticTransitionStatement_eq_dec : EqDecision SemanticTransitionStatement.
Proof. solve_decision. Defined.

Definition SEMANTIC_STATEMENT_LEN : nat := 512.

Definition reject_zero_semantic (bytes : Bytes32) (field : string) : zresult unit :=
  if is_zero32 bytes then Err (ZE_SemanticTransitionInvalid field) else Ok ().

Definition semantic_validate (self : SemanticTransitionStatement) : zresult unit :=
  _ ← reject_zero_semantic (ss_schema_id self) "schema_id";
  _ ← reject_zero_semantic (ss_asset_id self) "asset_id";
  _ ← reject_zero_semantic (ss_previous_state_digest self) "previous_state_digest";
  _ ← reject_zero_semantic (ss_new_state_digest self) "new_state_digest";
  _ ← reject_zero_semantic (ss_transition_digest self) "transition_digest";
  _ ← reject_zero_semantic (ss_continuation_commitment self) "continuation_commitment";
  _ ← reject_zero_semantic (ss_continuation_shape_root self) "continuation_shape_root";
  _ ← reject_zero_semantic (ss_lane_id self) "lane_id";
  _ ← reject_zero_semantic (ss_policy_commitment self) "policy_commitment";
  _ ← reject_zero_semantic (ss_metadata_commitment self) "metadata_commitment";
  _ ← reject_zero_semantic (ss_previous_owner_commitment self) "previous_owner_commitment";
  _ ← reject_zero_semantic (ss_new_owner_commitment self) "new_owner_commitment";
  _ ← fail_if (ss_previous_owner_commitment self ≠ ss_new_owner_commitment self ∧
               is_zero32 (ss_ownership_authorization_commitment self) = true)
        (ZE_SemanticTransitionInvalid "ownership_authorization_commitment");
  _ ← fail_if (ss_previous_state_digest self = ss_new_state_digest self)
        (ZE_SemanticTransitionInvalid "no-op state digest");
  _ ← fail_if (uval (ss_total_supply self) = 0%Z) (ZE_SemanticTransitionInvalid "total_supply");
  _ ← fail_if (uval (ss_spent_allocation_count self) = 0%Z)
        (ZE_SemanticTransitionInvalid "spent_allocation_count");
  _ ← fail_if (uval (ss_spent_supply self) = 0%Z) (ZE_SemanticTransitionInvalid "spent_supply");
  _ ← fail_if ((ss_total_supply self < ss_spent_supply self)%Z ∨
               (ss_total_supply self < ss_new_supply self)%Z)
        (ZE_SemanticTransitionInvalid "supply exceeds total_supply");
  accounted_supply ← ok_or (checked_add (ss_new_supply self) (ss_burned_supply self))
                       (ZE_SemanticTransitionInvalid "supply overflow");
  _ ← fail_if (accounted_supply ≠ ss_spent_supply self)
        (ZE_SemanticTransitionInvalid "spent_supply != new_supply + burned_supply");
  _ ← fail_if (uval (ss_new_allocation_count self) = 0%Z ∧ uval (ss_burned_supply self) = 0%Z)
        (ZE_SemanticTransitionInvalid "new_allocation_count");
  _ ← fail_if (uval (ss_new_supply self) = 0%Z ∧ uval (ss_burned_supply self) = 0%Z)
        (ZE_SemanticTransitionInvalid "new_supply");
  if decide (uval (ss_burned_supply self) = 0%Z)
  then fail_if (is_zero32 (ss_burn_authorization_commitment self) = false)
         (ZE_SemanticTransitionInvalid "unexpected burn_authorization_commitment")
  else fail_if (is_zero32 (ss_burn_authorization_commitment self) = true)
         (ZE_SemanticTransitionInvalid "burn_authorization_commitment").

(** [SemanticTransitionStatement::new]: the 22 arguments are the fields. *)
Definition semantic_new (statement : SemanticTransitionStatement)
  : zresult SemanticTransitionStatement :=
  _ ← semantic_validate statement;
  Ok statement.

(** [u64::try_from] of a [usize] *)
Definition semantic_count (count : nat) (field : string) : zresult u64 :=
  _ ← fail_if (2 ^ 64 <= Z.of_nat count)%Z (ZE_SemanticCountTooLarge field count);
  Ok (usize_of count).

(** The guards of [from_reports], in the order of the code. *)
Definition reports_agree (transition : RgkTransitionReport) (continuation : RgkContinuationReport)
  : zresult unit :=
  _ ← fail_if (trr_chain transition ≠ cr_chain continuation)
        (ZE_SemanticTransitionMismatch "chain_id");
  _ ← fail_if (trr_schema_id transition ≠ cr_schema_id continuation)
        (ZE_SemanticTransitionMismatch "schema_id");
  _ ← fail_if (trr_asset_id transition ≠ cr_asset_id continuation)
        (ZE_SemanticTransitionMismatch "asset_id");
  _ ← fail_if (trr_total_supply transition ≠ cr_total_supply continuation)
        (ZE_SemanticTransitionMismatch "total_supply");
  _ ← fail_if (trr_spent_supply transition ≠ cr_spent_supply continuation)
        (ZE_SemanticTransitionMismatch "spent_supply");
  _ ← fail_if (trr_new_supply transition ≠ cr_new_supply continuation)
        (ZE_SemanticTransitionMismatch "new_supply");
  _ ← fail_if (trr_burned_supply transition ≠ cr_burned_supply continuation)
        (ZE_SemanticTransitionMismatch "burned_supply");
  _ ← fail_if (trr_burn_authorization_commitment transition
               ≠ cr_burn_authorization_commitment continuation)
        (ZE_SemanticTransitionMismatch "burn_authorization_commitment");
  _ ← fail_if (trr_spent_allocation_count transition ≠ cr_spent_allocation_count continuation)
        (ZE_SemanticTransitionMismatch "spent_allocation_count");
  _ ← fail_if (trr_new_allocation_count transition ≠ cr_new_allocation_count continuation)
        (ZE_SemanticTransitionMismatch "new_allocation_count");
  _ ← fail_if (trr_lane_id transition ≠ cr_lane_id continuation)
        (ZE_SemanticTransitionMismatch "lane_id");
  _ ← fail_if (trr_privacy_policy transition ≠ cr_privacy_policy continuation)
        (ZE_SemanticTransitionMismatch "privacy_policy");
  _ ← fail_if (trr_policy_commitment transition ≠ cr_policy_commitment continuation)
        (ZE_SemanticTransitionMismatch "policy_commitment");
  _ ← fail_if (trr_metadata_commitment transition ≠ cr_metadata_commitment continuation)
        (ZE_SemanticTransitionMismatch "metadata_commitment");
  _ ← fail_if (trr_previous_owner_commitment transition ≠ cr_previous_owner_commitment continuation)
        (ZE_SemanticTransitionMismatch "previous_owner_commitment");
  _ ← fail_if (trr_new_owner_commitment transition ≠ cr_new_owner_commitment continuation)
        (ZE_SemanticTransitionMismatch "new_owner_commitment");
  _ ← fail_if (trr_ownership_authorization_commitment transition
               ≠ cr_ownership_authorization_commitment continuation)
        (ZE_SemanticTransitionMismatch "ownership_authorization_commitment");
  fail_if (trr_previous_state_digest transition ≠ cr_previous_state_digest continuation)
    (ZE_SemanticTransitionMismatch "previous_state_digest").

Definition from_reports (transition : RgkTransitionReport) (continuation : RgkContinuationReport)
  : zresult SemanticTransitionStatement :=
  _ ← reports_agree transition continuation;
  spent_allocation_count ← semantic_count (trr_spent_allocation_count transition)
                             "spent_allocation_count";
  new_allocation_count ← semantic_count (trr_new_allocation_count transition)
                           "new_allocation_count";
  let statement := {|
    ss_chain_id := trr_chain transition;
    ss_schema_id := trr_schema_id transition;
    ss_asset_id := trr_asset_id transition;
    ss_previous_state_digest := trr_previous_state_digest transition;
    ss_new_state_digest := trr_new_state_digest transition;
    ss_transition_digest := trr_transition_digest transition;
    ss_continuation_commitment := cr_commitment continuation;
    ss_continuation_shape_root := cr_shape_root continuation;
    ss_lane_id := trr_lane_id transition;
    ss_privacy_policy := trr_privacy_policy transition;
    ss_policy_commitment := trr_policy_commitment transition;
    ss_metadata_commitment := trr_metadata_commitment transition;
    ss_previous_owner_commitment := trr_previous_owner_commitment transition;
    ss_new_owner_commitment := trr_new_owner_commitment transition;
    ss_ownership_authorization_commitment := trr_ownership_authorization_commitment transition;
    ss_total_supply := trr_total_supply transition;
    ss_spent_allocation_count := spent_allocation_count;
    ss_new_allocation_count := new_allocation_count;
    ss_spent_supply := trr_spent_supply transition;
    ss_new_supply := trr_new_supply transition;
    ss_burned_supply := trr_burned_supply transition;
    ss_burn_authorization_commitment := trr_burn_authorization_commitment transition |} in
  _ ← semantic_validate statement;
  Ok statement.

(** [u64::from(b)] *)
Definition u64_of_byte (b : byte) : u64 := wrap 64 (byte_Z b).

Definition semantic_public_inputs (self : SemanticTransitionStatement) : list byte :=
  (chain_id_tagged_le_u32 (ss_chain_id self) ++
   ss_schema_id self ++
   ss_asset_id self ++
   ss_previous_state_digest self ++
   ss_new_state_digest self ++
   ss_transition_digest self ++
   ss_continuation_commitment self ++
   ss_continuation_shape_root self ++
   ss_lane_id self ++
   ss_policy_commitment self ++
   ss_metadata_commitment self ++
   ss_previous_owner_commitment self ++
   ss_new_owner_commitment self ++
   ss_ownership_authorization_commitment self ++
   u64_le (ss_total_supply self) ++
   u64_le (ss_spent_allocation_count self) ++
   u64_le (ss_new_allocation_count self) ++
   u64_le (u64_of_byte (privacy_as_u8 (ss_privacy_policy self))) ++
   u64_le (ss_spent_supply self) ++
   u64_le (ss_new_supply self) ++
   u64_le (ss_burned_supply self) ++
   ss_burn_authorization_commitment self)%list.

Definition matches_receipt (self : SemanticTransitionStatement) (receipt : RgkReceipt) : bool :=
  bool_decide (rc_chain_id receipt = ss_chain_id self) &&
  bool_decide (sc_chain_id (rc_old_state receipt) = ss_chain_id self) &&
  bool_decide (sc_chain_id (rc_new_state receipt) = ss_chain_id self) &&
  bool_decide (sc_asset_id (rc_old_state receipt) = ss_asset_id self) &&
  bool_decide (sc_asset_id (rc_new_state receipt) = ss_asset_id self) &&
  bool_decide (sc_state_digest (rc_old_state receipt) = ss_previous_state_digest self) &&
  bool_decide (sc_state_digest (rc_new_state receipt) = ss_new_state_digest self) &&
  bool_decide (rc_transition_digest receipt = ss_transition_digest self) &&
  bool_decide (rc_continuation_commitment receipt = ss_continuation_commitment self).

Definition matches_zk_statement (self : SemanticTransitionStatement) (statement : ZkStatement)
  : bool :=
  bool_decide (zs_chain_id statement = ss_chain_id self) &&
  bool_decide (zs_asset_id statement = ss_asset_id self) &&
  bool_decide (zs_old_state_digest statement = ss_previous_state_digest self) &&
  bool_decide (zs_new_state_digest statement = ss_new_state_digest self) &&
  bool_decide (zs_transition_digest statement = ss_transition_digest self) &&
  bool_decide (zs_continuation_commitment statement = ss_continuation_commitment self).

(** * Proof blobs and zero-knowledge receipts *)

Record ZkProof := {
  zp_tag : ZkTag;
  zp_proof_bytes : list byte
}.

Definition MAX_PROOF_BYTES : Z := 1024 * 64.

Definition zk_proof_new (tag : ZkTag) (proof_bytes : list byte) : zresult ZkProof :=
  _ ← fail_if (tag ≠ Groth16) (ZE_UnsupportedTag tag);
  _ ← fail_if (proof_bytes = []) ZE_MissingProof;
  _ ← fail_if (MAX_PROOF_BYTES < Z.of_nat (length proof_bytes))%Z
        (ZE_ProofTooLong (length proof_bytes) MAX_PROOF_BYTES);
  Ok {| zp_tag := tag; zp_proof_bytes := proof_bytes |}.

Definition encode_for_precompile (self : ZkProof) : list byte :=
  zk_tag_as_byte (zp_tag self) :: zp_proof_bytes self.

(** The struct [ZkReceipt]. *)
Record ZkReceiptPair := {
  zr_statement : ZkStatement;
  zr_proof : ZkProof
}.

Definition zk_receipt_build (receipt : RgkReceipt) (receipt_id : Bytes32) (proof : ZkProof)
  : zresult ZkReceiptPair :=
  _ ← fail_if (rc_proof_mode receipt ≠ ZkReceipt) (ZE_WrongMode (rc_proof_mode receipt));
  Ok {| zr_statement := zk_from_receipt receipt receipt_id; zr_proof := proof |}.

Definition zk_verify_local (self : ZkReceiptPair) (receipt : RgkReceipt) (receipt_id : Bytes32)
  : zresult (list byte) :=
  _ ← fail_if (rc_proof_mode receipt ≠ ZkReceipt) (ZE_WrongMode (rc_proof_mode receipt));
  _ ← fail_if (zk_matches (zr_statement self) receipt receipt_id = false) ZE_StatementMismatch;
  let inputs := zk_public_inputs (zr_statement self) in
  _ ← fail_if (length inputs ≠ ZK_STATEMENT_LEN)
        (ZE_PublicInputTooLong (length inputs) ZK_STATEMENT_LEN);
  Ok (encode_for_precompile (zr_proof self)).
