(* ===== verification/ZkCorrect.v ===== *)
(** The statements of the zero-knowledge mode: their byte layouts can be read
    back, what validation of a semantic statement means, when the two reports
    of a transition make one, and what a local check of a zero-knowledge
    receipt accepts. *)

From stdpp Require Import base list strings.
From Stdlib Require Import ZArith Lia Strings.Byte.
From S2P Require Import Prelude.
From S2P Require Import Bytes.
From S2P Require Import Encoding.
From S2P Require Import Types.
From S2P Require Import Commit.
From S2P Require Import AssetTypes.
From S2P Require Import AssetRules.
From S2P Require Import Asset.
From S2P Require Import AssetCorrect.
From S2P Require Import Zk.

Open Scope list_scope.

(** * Layouts *)

Lemma chain_tagged_length c : length (chain_id_tagged_le_u32 c) = 8.
Proof. by destruct c. Qed.

Lemma chain_tagged_app_inj c d l k :
  chain_id_tagged_le_u32 c ++ l = chain_id_tagged_le_u32 d ++ k → c = d ∧ l = k.
Proof.
  intros E. apply app_inj_1 in E as [E ->]; [|by rewrite !chain_tagged_length].
  split; [|done]. by destruct c, d.
Qed.

Lemma privacy_u64_inj p q :
  u64_le (u64_of_byte (privacy_as_u8 p)) = u64_le (u64_of_byte (privacy_as_u8 q)) → p = q.
Proof. by destruct p, q. Qed.

Definition zk_fields (s : ZkStatement) : list (list byte) :=
  [ blist (zs_old_state_digest s); blist (zs_new_state_digest s); blist (zs_asset_id s);
    blist (zs_kaspa_covenant_id s); chain_id_tagged_le_u32 (zs_chain_id s);
    blist (zs_receipt_id s); blist (zs_transition_digest s);
    blist (zs_continuation_commitment s) ].
Definition zk_widths : list nat := [32; 32; 32; 32; 8; 32; 32; 32].

Definition semantic_fields (s : SemanticTransitionStatement) : list (list byte) :=
  [ chain_id_tagged_le_u32 (ss_chain_id s); blist (ss_schema_id s); blist (ss_asset_id s);
    blist (ss_previous_state_digest s); blist (ss_new_state_digest s);
    blist (ss_transition_digest s); blist (ss_continuation_commitment s);
    blist (ss_continuation_shape_root s); blist (ss_lane_id s); blist (ss_policy_commitment s);
    blist (ss_metadata_commitment s); blist (ss_previous_owner_commitment s);
    blist (ss_new_owner_commitment s); blist (ss_ownership_authorization_commitment s);
    u64_le (ss_total_supply s); u64_le (ss_spent_allocation_count s);
    u64_le (ss_new_allocation_count s);
    u64_le (u64_of_byte (privacy_as_u8 (ss_privacy_policy s))); u64_le (ss_spent_supply s);
    u64_le (ss_new_supply s); u64_le (ss_burned_supply s);
    blist (ss_burn_authorization_commitment s) ].
Definition semantic_widths : list nat :=
  8 :: replicate 13 32 ++ replicate 7 8 ++ [32].

Lemma zk_public_concat s : zk_public_inputs s = concat (zk_fields s).
Proof. unfold zk_public_inputs, zk_fields. cbn [concat]. by rewrite app_nil_r. Qed.

Lemma semantic_public_concat s : semantic_public_inputs s = concat (semantic_fields s).
Proof. unfold semantic_public_inputs, semantic_fields. cbn [concat]. by rewrite app_nil_r. Qed.

Ltac field_lengths :=
  cbn [fmap list_fmap]; rewrite ?bytes_length, ?chain_tagged_length, ?u64_le_length; reflexivity.

Lemma zk_fields_length s : length <$> zk_fields s = zk_widths.
Proof. unfold zk_fields. field_lengths. Qed.

Lemma semantic_fields_length s : length <$> semantic_fields s = semantic_widths.
Proof. unfold semantic_fields. field_lengths. Qed.

Lemma concat_length_widths {A} (fields : list (list A)) widths :
  length <$> fields = widths → length (concat fields) = sum_list widths.
Proof. intros <-. induction fields as [|f fs IH]; cbn; [done|]. by rewrite length_app, IH. Qed.

Lemma zk_public_length s : length (zk_public_inputs s) = ZK_STATEMENT_LEN.
Proof. rewrite zk_public_concat. by erewrite concat_length_widths by apply zk_fields_length. Qed.

Lemma semantic_public_length s : length (semantic_public_inputs s) = SEMANTIC_STATEMENT_LEN.
Proof.
  rewrite semantic_public_concat. by erewrite concat_length_widths by apply semantic_fields_length.
Qed.

(** The fields of a statement, at their offsets. *)
Lemma semantic_cuts s : cuts 0 semantic_widths (semantic_public_inputs s) = semantic_fields s.
Proof. apply cuts_fields; [apply semantic_public_concat|apply semantic_fields_length]. Qed.

Lemma zk_cuts s : cuts 0 zk_widths (zk_public_inputs s) = zk_fields s.
Proof. apply cuts_fields; [apply zk_public_concat|apply zk_fields_length]. Qed.

Ltac peel_fields E :=
  repeat match type of E with
  | chain_id_tagged_le_u32 _ ++ _ = _ =>
      let F := fresh "Ec" in apply chain_tagged_app_inj in E as [F E]
  | _ => peel_step E
  end.

#[export] Instance zk_public_inj : Inj (=) (=) zk_public_inputs.
Proof.
  intros s t E. unfold zk_public_inputs in E. peel_fields E. destruct s, t. cbn in *. by subst.
Qed.

#[export] Instance semantic_public_inj : Inj (=) (=) semantic_public_inputs.
Proof.
  intros s t E. unfold semantic_public_inputs in E. peel_fields E.
  destruct s, t. cbn in *. subst. f_equal. by apply privacy_u64_inj, (f_equal u64_le).
Qed.

(** * Validation *)

(** What the layout of a statement says about it. *)
Record semantic_layout_ok (s : SemanticTransitionStatement) : Prop := {
  so_schema : ss_schema_id s ≠ zero32;
  so_asset : ss_asset_id s ≠ zero32;
  so_previous : ss_previous_state_digest s ≠ zero32;
  so_new : ss_new_state_digest s ≠ zero32;
  so_moves : ss_previous_state_digest s ≠ ss_new_state_digest s;
  so_transition : ss_transition_digest s ≠ zero32;
  so_continuation : ss_continuation_commitment s ≠ zero32;
  so_shape_root : ss_continuation_shape_root s ≠ zero32;
  so_lane : ss_lane_id s ≠ zero32;
  so_policy : ss_policy_commitment s ≠ zero32;
  so_metadata : ss_metadata_commitment s ≠ zero32;
  so_previous_owner : ss_previous_owner_commitment s ≠ zero32;
  so_new_owner : ss_new_owner_commitment s ≠ zero32;
  so_handoff : ss_previous_owner_commitment s = ss_new_owner_commitment s ∨
               ss_ownership_authorization_commitment s ≠ zero32;
  so_total : (0 < ss_total_supply s)%Z;
  so_spent_count : (0 < ss_spent_allocation_count s)%Z;
  so_spent : (0 < ss_spent_supply s)%Z;
  so_accounted : (uval (ss_spent_supply s) = ss_new_supply s + ss_burned_supply s)%Z;
  so_new_count : (0 < ss_new_allocation_count s ∨ 0 < ss_burned_supply s)%Z;
  so_new_supply : (0 < ss_new_supply s ∨ 0 < ss_burned_supply s)%Z
}.

(** A burn and its authorisation come together. *)
Definition burn_authorized (s : SemanticTransitionStatement) : Prop :=
  ss_burn_authorization_commitment s = zero32 ↔ uval (ss_burned_supply s) = 0%Z.

Record semantic_ok (s : SemanticTransitionStatement) : Prop := {
  so_layout : semantic_layout_ok s;
  so_within : (ss_spent_supply s <= ss_total_supply s)%Z;
  so_burn : burn_authorized s
}.

Lemma reject_zero_semantic_ok b f u : reject_zero_semantic b f = Ok u ↔ b ≠ zero32.
Proof.
  unfold reject_zero_semantic. pose proof (is_zero32_spec b). destruct u, (is_zero32 b); naive_solver.
Qed.

Lemma semantic_validate_ok s u : semantic_validate s = Ok u ↔ semantic_ok s.
Proof.
  destruct u. unfold semantic_validate.
  pose proof (uint_range (ss_total_supply s)). pose proof (uint_range (ss_spent_supply s)).
  pose proof (uint_range (ss_new_supply s)). pose proof (uint_range (ss_burned_supply s)).
  pose proof (uint_range (ss_spent_allocation_count s)).
  pose proof (uint_range (ss_new_allocation_count s)).
  rewrite !bind_unit_ok, !reject_zero_semantic_ok, !fail_if_ok, is_zero32_spec.
  split.
  - intros (?&?&?&?&?&?&?&?&?&?&?&?&Ho&Hm&Ht&Hc&Hs&Hle&E).
    apply bind_ok in E as (acc & Ha%ok_or_ok%checked_add_some & E).
    rewrite !bind_unit_ok, !fail_if_ok in E. destruct E as (He%dec_stable & Hn & Hb & E). subst acc.
    constructor; [constructor| |]; try done; try lia.
    + destruct (decide (ss_previous_owner_commitment s = ss_new_owner_commitment s)); [by left|right].
      naive_solver.
    + case_decide as Hz; rewrite fail_if_ok, ?is_zero32_not, ?is_zero32_false in E.
      * split; [done|]. intros _. by apply dec_stable.
      * split; [done|]. intros ?. done.
  - intros [[] ? []]. split_and!; try done; [naive_solver|lia..|].
    apply bind_ok. exists (ss_spent_supply s). split; [by apply ok_or_ok, checked_add_some|].
    rewrite !bind_unit_ok, !fail_if_ok. split_and!; [naive_solver|lia|lia|].
    case_decide as Hz; rewrite fail_if_ok, ?is_zero32_not, ?is_zero32_false; naive_solver.
Qed.

(** * Statements of transitions *)

(** The statement of two reports. *)
Definition statement_of (t : RgkTransitionReport) (c : RgkContinuationReport)
  : SemanticTransitionStatement := {|
  ss_chain_id := trr_chain t; ss_schema_id := trr_schema_id t; ss_asset_id := trr_asset_id t;
  ss_previous_state_digest := trr_previous_state_digest t;
  ss_new_state_digest := trr_new_state_digest t;
  ss_transition_digest := trr_transition_digest t;
  ss_continuation_commitment := cr_commitment c; ss_continuation_shape_root := cr_shape_root c;
  ss_lane_id := trr_lane_id t; ss_privacy_policy := trr_privacy_policy t;
  ss_policy_commitment := trr_policy_commitment t;
  ss_metadata_commitment := trr_metadata_commitment t;
  ss_previous_owner_commitment := trr_previous_owner_commitment t;
  ss_new_owner_commitment := trr_new_owner_commitment t;
  ss_ownership_authorization_commitment := trr_ownership_authorization_commitment t;
  ss_total_supply := trr_total_supply t;
  ss_spent_allocation_count := usize_of (trr_spent_allocation_count t);
  ss_new_allocation_count := usize_of (trr_new_allocation_count t);
  ss_spent_supply := trr_spent_supply t; ss_new_supply := trr_new_supply t;
  ss_burned_supply := trr_burned_supply t;
  ss_burn_authorization_commitment := trr_burn_authorization_commitment t |}.

Definition count_fits (n : nat) : Prop := (Z.of_nat n < 2 ^ 64)%Z.

Lemma from_reports_ok t c s :
  from_reports t c = Ok s ↔
    reports_agree t c = Ok () ∧ count_fits (trr_spent_allocation_count t) ∧
    count_fits (trr_new_allocation_count t) ∧ s = statement_of t c ∧ semantic_ok s.
Proof.
  unfold from_reports, semantic_count, count_fits. rewrite bind_unit_ok. split.
  - intros [Ha E]. split; [done|].
    apply bind_ok in E as (? & Hs & E). apply bind_unit_ok in Hs as [Hs%fail_if_ok [= <-]].
    apply bind_ok in E as (? & Hn & E). apply bind_unit_ok in Hn as [Hn%fail_if_ok [= <-]].
    apply bind_unit_ok in E as [Hv%semantic_validate_ok E]. injection E as E. subst s.
    split_and!; [lia|lia|done|done].
  - intros (Ha & Hs & Hn & -> & Hv). split; [done|].
    rewrite !fail_if_false by lia. cbn [mbind result_bind].
    apply bind_unit_ok. split; [by apply semantic_validate_ok|done].
Qed.

(** Statements forbid a digest of zero. *)
Lemma digest_nonzero `{Sha256} m ms : m ∈ ms → sha256 m ≠ zero32 ∨ zero_digest ms.
Proof.
  intros Hm. destruct (sha256_nonzero_or m) as [|Hz]; [by left|right].
  eapply hits_mono; [|exact Hz]. by apply cons_included, list_subseteq_nil.
Qed.

(** A digest is not zero, or its message is one of the list with digest zero. *)
Ltac nonzero_digest := apply digest_nonzero; autounfold with messages; in_messages.

Section correct.
Context `{Sha256}.

(** The messages whose digests the statement of a transition holds, beyond those
    of the plan's report. *)
Definition statement_messages (t : RgkTransition) : list (list byte) :=
  transition_digest_messages t ++
  state_messages (transition_state t (tr_new_allocations t) (tr_new_owner_commitment t)).
#[local] Hint Unfold statement_messages transition_digest_messages plan_messages : messages.

(** The transition of a finalised plan and the plan's report agree. *)
Lemma finalized_reports_agree p w daa depth :
  reports_agree (transition_report_of (finalize_transition p w daa depth)) (plan_report_of p) = Ok ().
Proof.
  assert (Hs : shape_supply (cp_new_allocation_shapes p) =
               supply (tr_new_allocations (finalize_transition p w daa depth))).
  { cbn. by rewrite total_fmap. }
  unfold reports_agree. cbn -[finalize_transition]. rewrite Hs. cbn.
  rewrite length_fmap. by repeat (rewrite fail_if_false by naive_solver).
Qed.

(** A validated transition whose supply stays within the total has a valid
    statement, when no digest in it is zero. *)
Lemma transition_statement_ok t c :
  transition_ok t → (supply (tr_spent_allocations t) <= tr_total_supply t)%Z →
  count_fits (length (tr_spent_allocations t)) → count_fits (length (tr_new_allocations t)) →
  cr_commitment c ≠ zero32 → cr_shape_root c ≠ zero32 →
  semantic_ok (statement_of (transition_report_of t) c) ∨ zero_digest (statement_messages t).
Proof.
  intros Ht Hle Hsc Hnc Hc Hr.
  assert (policy_digest (tr_proof_policy t) ≠ zero32 ∨ zero_digest (statement_messages t)) as [Hpol|];
    [by nonzero_digest| |by right].
  assert (new_digest t ≠ zero32 ∨ zero_digest (statement_messages t)) as [Hnew|];
    [by nonzero_digest| |by right].
  assert (transition_digest_unchecked t (new_digest t) (policy_digest (tr_proof_policy t)) ≠ zero32 ∨
    zero_digest (statement_messages t)) as [Hdig|]; [by nonzero_digest|left|by right].
  destruct Ht as [[] [] ? ? Hne Hsp ? ? Hn ? Hb ? Hm ?].
  pose proof (total_nonneg al_amount (tr_new_allocations t)) as H0.
  destruct (burned_range _ _ _ H0 to_spent_bound Hb) as [Hb1 Hb2].
  pose proof (uint_range (tr_total_supply t)) as Hrange.
  assert (Hpos : (0 < supply (tr_spent_allocations t))%Z).
  { destruct (tr_spent_allocations t) as [|a l]; [done|]. apply Forall_cons in Hsp as [[] _].
    rewrite total_cons. pose proof (total_nonneg al_amount l). lia. }
  assert (Hcnt : (0 < Z.of_nat (length (tr_spent_allocations t)))%Z).
  { destruct (tr_spent_allocations t); [done|]. cbn. lia. }
  unfold count_fits in Hsc, Hnc.
  assert (E1 : uval (wrap 64 (supply (tr_spent_allocations t))) = supply (tr_spent_allocations t))
    by (apply uval_wrap_small; lia).
  assert (E2 : uval (wrap 64 (supply (tr_new_allocations t))) = supply (tr_new_allocations t))
    by (apply uval_wrap_small; lia).
  assert (E3 : uval (wrap 64 (burned (tr_burn t))) = burned (tr_burn t))
    by (apply uval_wrap_small; lia).
  constructor; [constructor| |unfold burn_authorized]; cbn -[transition_digest_unchecked new_digest wrap usize_of];
    rewrite ?E1, ?E2, ?E3; rewrite ?uval_usize_of by done; try done; try lia.
  - destruct (tr_burn t) as [q|]; cbn in Hb |- *; [destruct Hb; by right|left].
    destruct (tr_new_allocations t); [|cbn; lia]. change (supply []) with 0%Z in Hb. lia.
  - unfold burn_authorization_commitment. destruct (tr_burn t) as [q|]; cbn in Hb |- *; [|done].
    destruct Hb as (? & _ & ?). split; [done|lia].
Qed.

(** Fact: Every step of an asset's lineage has a semantic statement: when a plan
    over a reachable state is finalised, [from_reports] accepts the report of
    the transition with the report of the plan, and the statement holds their
    digests, counts and supplies; its supply check never refuses it.
    (Otherwise two of the messages hashed for the states of the history and the
    step collide, or one hashed for the statement has the digest zero.) *)
Theorem lineage_step_has_statement i ts d l o b p rp w (daa depth : u64) f :
  asset_lineage i ts d l o b → cp_previous_state_digest p = d →
  plan_validate p = Ok rp → plan_finalize p w daa depth = Ok f →
  count_fits (length (cp_spent_allocations p)) → count_fits (length (cp_new_allocation_shapes p)) →
  (from_reports (fc_transition_report f) rp = Ok (statement_of (fc_transition_report f) rp) ∧
   semantic_validate (statement_of (fc_transition_report f) rp) = Ok ()) ∨
  zero_digest (statement_messages (fc_transition f) ++ plan_messages p) ∨
  collision (history_messages i (ts ++ [fc_transition f])).
Proof.
  intros Hl Hlink [Hp ->]%plan_validate_ok (_ & Ht & ->)%plan_finalize_ok Hsc Hnc.
  cbn -[finalize_transition statement_messages plan_messages history_messages]. set (t := finalize_transition p w daa depth) in *.
  apply lineage_invariant in Hl as [Hinv|]; [|right; right; rewrite history_messages_snoc; by_messages].
  destruct (lineage_spends i ts d l o b t Hinv Hlink Ht) as [[Hs _]|]; [|by right; right].
  destruct Hs as (_ & Htot & Hperm & _). destruct Hinv as [_ Hsup Hb _ _ _].
  assert (cr_commitment (plan_report_of p) ≠ zero32 ∨ zero_digest (plan_messages p)) as [Hc|];
    [by nonzero_digest| |by_messages].
  assert (cr_shape_root (plan_report_of p) ≠ zero32 ∨ zero_digest (plan_messages p)) as [Hr|];
    [by nonzero_digest| |by_messages].
  destruct (transition_statement_ok t (plan_report_of p)) as [Hok|]; try done; [..| |by_messages].
  - rewrite Htot, (total_perm _ _ _ Hperm). lia.
  - unfold t. cbn. by rewrite length_fmap.
  - left. rewrite from_reports_ok, semantic_validate_ok. split_and!; try done.
    + apply finalized_reports_agree.
    + unfold t. cbn. by rewrite length_fmap.
Qed.
End correct.

(** * Zero-knowledge receipts *)

(** Fact: The local check of a zero-knowledge receipt, exactly: [verify_local]
    accepts a receipt with its id iff the receipt is in ZK mode and the pair's
    statement is the one of that receipt and id; it returns the proof bytes
    behind their tag.  So what [build] returns for a receipt verifies for that
    receipt and id and for no receipt that differs in a public input. *)
Theorem zk_verify_local_iff self receipt id out :
  zk_verify_local self receipt id = Ok out ↔
    rc_proof_mode receipt = ZkReceipt ∧ zr_statement self = zk_from_receipt receipt id ∧
    zk_receipt_build receipt id (zr_proof self) = Ok self ∧
    out = zk_tag_as_byte (zp_tag (zr_proof self)) :: zp_proof_bytes (zr_proof self).
Proof.
  unfold zk_verify_local, zk_receipt_build, zk_matches.
  rewrite !bind_unit_ok, !fail_if_neq_ok, !fail_if_ok, bool_decide_eq_false, zk_public_length.
  destruct self as [st pr]. cbn [zr_statement zr_proof]. split.
  - intros (Hm & Hs%dec_stable & _ & [= <-]). split_and!; try done. by rewrite Hs.
  - intros (Hm & Hs & _ & ->). by split_and!; [|naive_solver|..].
Qed.

(** The receipt statement and the semantic statement of one transition agree on
    the six fields they share. *)
Lemma matches_zk_statement_iff s z :
  matches_zk_statement s z = true ↔
    zs_chain_id z = ss_chain_id s ∧ zs_asset_id z = ss_asset_id s ∧
    zs_old_state_digest z = ss_previous_state_digest s ∧
    zs_new_state_digest z = ss_new_state_digest s ∧
    zs_transition_digest z = ss_transition_digest s ∧
    zs_continuation_commitment z = ss_continuation_commitment s.
Proof.
  unfold matches_zk_statement. rewrite !andb_true_iff, !bool_decide_eq_true. tauto.
Qed.

(** Fact: a receipt that matches a semantic statement has a receipt statement
    that does. *)
Theorem matching_receipt_statement s r id :
  matches_receipt s r = true → matches_zk_statement s (zk_from_receipt r id) = true.
Proof.
  unfold matches_receipt. rewrite !andb_true_iff, !bool_decide_eq_true, matches_zk_statement_iff.
  cbn. tauto.
Qed.

(** * The RISC Zero stack *)

(** Fact: the stack of the RISC Zero precompile exists exactly for Poseidon2, at
    most eight control digests of 32 bytes, and a seal of 32-bit words, at
    least one and at most a million bytes; its nine items are then the fields
    in the order of the precompile, the control digests being a multiple of 32
    bytes. *)
Theorem r0_stack_iff claim index digests seal journal image control hashfn s :
  r0_stack_new claim index digests seal journal image control hashfn = Ok s ↔
    hashfn = x01 ∧ (∃ n, length digests = 32 * n ∧ n <= 8)%nat ∧
    (∃ m, length seal = 4 * m ∧ 0 < m)%nat ∧ (Z.of_nat (length seal) <= 1000000)%Z ∧
    script_push_items s =
      [blist claim; blist index; digests; seal; blist journal; blist image; blist control;
       [x01]; [x21]].
Proof.
  unfold r0_stack_new, validate_r0_succinct_variable_fields, R0_SUCCINCT_CONTROL_DIGEST_BYTES,
    R0_SUCCINCT_MAX_CONTROL_DIGESTS, R0_SUCCINCT_MAX_SEAL_BYTES, R0_SUCCINCT_HASH_FN_POSEIDON2.
  rewrite !bind_unit_ok, !fail_if_ok. split.
  - intros [(-> %dec_stable & Hd & Hn & Hs & Hl) [= <-]].
    split_and!; try done; [|  |lia].
    + exists (length digests / 32)%nat. pose proof (Nat.div_mod_eq (length digests) 32). lia.
    + exists (length seal / 4)%nat. pose proof (Nat.div_mod_eq (length seal) 4).
      destruct seal; [naive_solver|]. cbn [length] in *. lia.
  - intros (-> & (n & Hn & Hn8) & (m & Hm & Hm0) & Hl & E).
    rewrite Hn, Hm, (Nat.mul_comm 32), (Nat.mul_comm 4), Nat.div_mul, !Nat.Div0.mod_mul by done.
    split; [split_and!; try done; try lia; destruct seal; cbn in *; naive_solver lia|].
    unfold script_push_items in E. destruct s. cbn in E. injection E as ?????????.
    repeat match goal with H : blist _ = blist _ |- _ => apply (inj blist) in H end. by subst.
Qed.
