(* ===== verification/ZkGadgets.v ===== *)
(** Constraint synthesis for the circuits of src/crates/rgk-zk/src/real_zk.rs.

    A circuit is a program that allocates variables with their assignment and
    emits constraints.  The variables, the gadgets on them and the field are the
    proving library's: the class [Gadgets] names the ones the source calls, the
    class [GadgetLaws] says what they are documented to do under an assignment.
    [synth] is the program's monad: an error, or a value and the constraints
    emitted so far.  [sat m Q] says that every constraint [m] emits holds and
    its value satisfies [Q]; the circuits are proved in that calculus.  The
    gadget functions that return a [Result] in the source fail only for
    variables without an assignment and are total here. *)

From stdpp Require Import base list strings.
From Stdlib Require Import ZArith Lia Strings.Byte.
From S2P Require Import Prelude.
From S2P Require Import Bytes.
From S2P Require Import Encoding.
From S2P Require Import Types.
From S2P Require Import Commit.
From S2P Require Import AssetTypes.
From S2P Require Import AssetRules.
From S2P Require Import AssetCorrect.

Open Scope list_scope.

(** * The library *)

(** The error of the library the source returns itself. *)
Inductive SynthesisError : Type := Unsatisfiable.

Class Gadgets := {
  (** The scalar field. *)
  Fr : Type;
  from_le_bytes_mod_order : list byte → Fr;
  (** Variables and constraints. *)
  UInt8 : Type;
  Boolean : Type;
  FpVar : Type;
  Constraint : Type;
  (** [UInt8] *)
  u8_constant : byte → UInt8;
  u8_new_witness : byte → UInt8;
  u8_to_bits_le : UInt8 → list Boolean;
  u8_is_eq : UInt8 → UInt8 → Boolean;
  u8_enforce_equal : UInt8 → UInt8 → Constraint;
  (** Slices of [UInt8] *)
  bytes_is_eq : list UInt8 → list UInt8 → Boolean;
  bytes_is_neq : list UInt8 → list UInt8 → Boolean;
  bytes_enforce_equal : list UInt8 → list UInt8 → Constraint;
  (** [Boolean] *)
  bool_TRUE : Boolean;
  bool_not : Boolean → Boolean;
  kary_or : list Boolean → Boolean;
  bool_enforce_equal : Boolean → Boolean → Constraint;
  le_bits_to_fp : list Boolean → FpVar;
  (** [FpVar] *)
  fp_constant : Z → FpVar;
  fp_new_input : Fr → FpVar;
  fp_add : FpVar → FpVar → FpVar;
  fp_enforce_equal : FpVar → FpVar → Constraint;
  (** [Sha256Gadget::digest] *)
  Sha256Gadget_digest : list UInt8 → list UInt8;
  (** Whether a constraint holds under the assignment. *)
  constraint_holds : Constraint → bool
}.

(** The number of a list of bits, least significant first. *)
Definition bits_val (l : list bool) : Z := foldr (λ b z, Z.b2z b + 2 * z)%Z 0%Z l.
Definition byte_bits (b : byte) : list bool := Z.testbit (byte_Z b) <$> seqZ 0 8.

Class GadgetLaws `{Sha256} {G : Gadgets} := {
  (** The order of the field, and the residue class of an integer. *)
  fr_order : Z;
  fr_of : Z → Fr;
  fr_order_bound : (2 ^ 200 < fr_order)%Z;
  fr_of_eq a b : fr_of a = fr_of b ↔ (a mod fr_order = b mod fr_order)%Z;
  from_le_bytes_of l : from_le_bytes_mod_order l = fr_of (le_val l);
  (** Values under the assignment. *)
  u8_value : UInt8 → byte;
  bool_value : Boolean → bool;
  fp_value : FpVar → Fr;
  u8_constant_value b : u8_value (u8_constant b) = b;
  u8_witness_value b : u8_value (u8_new_witness b) = b;
  u8_bits_value x : bool_value <$> u8_to_bits_le x = byte_bits (u8_value x);
  u8_is_eq_value x y : bool_value (u8_is_eq x y) = bool_decide (u8_value x = u8_value y);
  u8_enforce_equal_holds x y :
    constraint_holds (u8_enforce_equal x y) = true ↔ u8_value x = u8_value y;
  bytes_is_eq_value l k : length l = length k →
    bool_value (bytes_is_eq l k) = bool_decide (u8_value <$> l = u8_value <$> k);
  bytes_is_neq_value l k : length l = length k →
    bool_value (bytes_is_neq l k) = bool_decide (u8_value <$> l ≠ u8_value <$> k);
  (** Slices of different lengths are refused. *)
  bytes_enforce_equal_holds l k :
    constraint_holds (bytes_enforce_equal l k) = true ↔ u8_value <$> l = u8_value <$> k;
  bool_TRUE_value : bool_value bool_TRUE = true;
  bool_not_value b : bool_value (bool_not b) = negb (bool_value b);
  kary_or_value l : bool_value (kary_or l) = existsb bool_value l;
  bool_enforce_equal_holds b c :
    constraint_holds (bool_enforce_equal b c) = true ↔ bool_value b = bool_value c;
  (** Fewer bits than the field has. *)
  le_bits_to_fp_value l : (length l <= 200)%nat →
    fp_value (le_bits_to_fp l) = fr_of (bits_val (bool_value <$> l));
  fp_constant_value z : fp_value (fp_constant z) = fr_of z;
  fp_new_input_value f : fp_value (fp_new_input f) = f;
  fp_add_value x y a b :
    fp_value x = fr_of a → fp_value y = fr_of b → fp_value (fp_add x y) = fr_of (a + b);
  fp_enforce_equal_holds x y :
    constraint_holds (fp_enforce_equal x y) = true ↔ fp_value x = fp_value y;
  digest_value l : u8_value <$> Sha256Gadget_digest l = blist (sha256 (u8_value <$> l))
}.

(** * Synthesis *)

Section synth.
Context {G : Gadgets}.

Definition synth (A : Type) : Type := result SynthesisError (A * list Constraint).

#[export] Instance synth_ret : MRet synth := λ _ a, Ok (a, []).
#[export] Instance synth_bind : MBind synth := λ _ _ f m,
  match m with
  | Ok (a, cs) => match f a with Ok (b, cs') => Ok (b, cs ++ cs') | Err e => Err e end
  | Err e => Err e
  end.

(** [x.enforce_equal(y)?] *)
Definition enforce (c : Constraint) : synth unit := Ok ((), [c]).

(** [if cond { return Err(SynthesisError::Unsatisfiable) }] *)
Definition unsat_if (P : Prop) {dec : Decision P} : synth unit :=
  if decide P then Err Unsatisfiable else Ok ((), []).
Arguments unsat_if P {dec} : simpl never.

(** [ok?] for a function of the source without constraints. *)
Definition from_result {A} (r : result SynthesisError A) : synth A :=
  match r with Ok a => Ok (a, []) | Err e => Err e end.

(** [for x in l { f(x)? }] *)
Fixpoint for_each {A} (f : A → synth unit) (l : list A) : synth unit :=
  match l with [] => mret () | x :: l' => _ ← f x; for_each f l' end.

(** Whether the circuit is satisfied: it synthesises, and all its constraints
    hold. *)
Definition is_satisfied (m : synth unit) : bool :=
  match m with Ok (_, cs) => forallb constraint_holds cs | Err _ => false end.

(** * The helpers of the source *)

Definition witness_vec (l : list byte) : list UInt8 := u8_new_witness <$> l.
Definition constant_vec (l : list byte) : list UInt8 := u8_constant <$> l.

Definition enforce_byte_equals (byte : UInt8) (expected : u8) : synth unit :=
  enforce (u8_enforce_equal byte (u8_constant expected)).

Definition enforce_byte_in (byte : UInt8) (allowed : list u8) : synth unit :=
  let matches := (λ value, u8_is_eq byte (u8_constant value)) <$> allowed in
  enforce (bool_enforce_equal (kary_or matches) bool_TRUE).

Definition nonzero_bytes_bool (bytes : list UInt8) : Boolean :=
  let zero := constant_vec (replicate (length bytes) x00) in
  bytes_is_neq bytes zero.

Definition enforce_nonzero_bytes (bytes : list UInt8) : synth unit :=
  enforce (bool_enforce_equal (nonzero_bytes_bool bytes) bool_TRUE).

Definition enforce_bytes_equal_const (bytes : list UInt8) (expected : list byte) : synth unit :=
  enforce (bytes_enforce_equal bytes (constant_vec expected)).

Definition le_bytes_as_fr (bytes : list UInt8) : FpVar :=
  le_bits_to_fp (x ← bytes; u8_to_bits_le x).

(** [l.chunks(8)] *)
Fixpoint chunks8 {A} (l : list A) : list (list A) :=
  match l with
  | [] => []
  | a :: b :: c :: d :: e :: f :: g :: h :: l' => [a; b; c; d; e; f; g; h] :: chunks8 l'
  | _ => [l]
  end.

Definition public_inputs_as_vars (public_inputs : list byte) : list FpVar :=
  (λ chunk, fp_new_input (from_le_bytes_mod_order (to_array 32 chunk))) <$> chunks8 public_inputs.

Definition digest_bytes_as_frs (digest : list UInt8) : list FpVar :=
  le_bytes_as_fr <$> chunks8 digest.

Definition enforce_frs_equal (lhs rhs : list FpVar) : synth unit :=
  _ ← unsat_if (length lhs ≠ length rhs);
  for_each (λ p, enforce (fp_enforce_equal p.1 p.2)) (zip lhs rhs).

Definition enforce_bytes_equal_public_frs (bytes : list UInt8) (public_frs : list FpVar)
  : synth unit :=
  enforce_frs_equal (digest_bytes_as_frs bytes) public_frs.

Definition domain_hash_digest (domain : string) (payload : list UInt8) : list UInt8 :=
  let preimage :=
    constant_vec (u32_le (wrap 32 (Z.of_nat (length (as_bytes domain))))) ++
    constant_vec (as_bytes domain) ++ payload in
  Sha256Gadget_digest preimage.
End synth.
Arguments unsat_if {G} P {dec} : simpl never.

(** * Bytes and field elements *)

Lemma bits_val_app l k : bits_val (l ++ k) = (bits_val l + 2 ^ Z.of_nat (length l) * bits_val k)%Z.
Proof.
  induction l as [|b l IH].
  { change (bits_val []) with 0%Z. change (2 ^ Z.of_nat (length []))%Z with 1%Z. cbn [app]. ring. }
  cbn [app length].
  change (bits_val (b :: l ++ k)) with (Z.b2z b + 2 * bits_val (l ++ k))%Z.
  change (bits_val (b :: l)) with (Z.b2z b + 2 * bits_val l)%Z. rewrite IH.
  rewrite Nat2Z.inj_succ, Z.pow_succ_r by lia. ring.
Qed.

Lemma byte_bits_val b : bits_val (byte_bits b) = byte_Z b.
Proof. by destruct b. Qed.

Lemma byte_bits_length b : length (byte_bits b) = 8%nat.
Proof. done. Qed.

Lemma bits_of_bytes l : bits_val (x ← l; byte_bits x) = le_val l.
Proof.
  induction l as [|b l IH]; [done|]. cbn [mbind list_bind le_val].
  rewrite bits_val_app, IH, byte_bits_val, byte_bits_length. done.
Qed.

Lemma bytes_bits_length (l : list byte) : length (x ← l; byte_bits x) = (8 * length l)%nat.
Proof.
  induction l as [|b l IH]; [done|]. rewrite bind_cons, length_app, IH, byte_bits_length. cbn. lia.
Qed.

Lemma le_val_pad l n : le_val (l ++ replicate n x00) = le_val l.
Proof.
  induction l as [|b l IH]; cbn [app le_val]; [|by rewrite IH].
  induction n as [|n IHn]; cbn [replicate le_val]; [done|]. by rewrite IHn.
Qed.

Lemma list_ind8 {A} (P : list A → Prop) :
  (∀ l, (length l < 8)%nat → P l) →
  (∀ a b c d e f g h l, P l → P (a :: b :: c :: d :: e :: f :: g :: h :: l)) → ∀ l, P l.
Proof.
  intros Hs Hc. fix IH 1. intros [|a [|b [|c [|d [|e [|f [|g [|h l]]]]]]]];
    try (apply Hs; cbn; lia). apply Hc, IH.
Qed.

Lemma chunks8_short {A} (l : list A) : (length l < 8)%nat → l = [] ∨ l ≠ [] ∧ chunks8 l = [l].
Proof. destruct l as [|a [|b [|c [|d [|e [|f [|g [|h l]]]]]]]]; cbn; (by left) || (by right) || lia. Qed.

Lemma concat_chunks8 {A} (l : list A) : concat (chunks8 l) = l.
Proof.
  induction l as [l Hl|a b c d e f g h l IH] using list_ind8.
  - destruct (chunks8_short l Hl) as [-> | [_ ->]]; [done|]. cbn. by rewrite app_nil_r.
  - cbn. by rewrite IH.
Qed.

Lemma chunks8_le {A} (l : list A) : Forall (λ c, (length c <= 8)%nat) (chunks8 l).
Proof.
  induction l as [l Hl|a b c d e f g h l IH] using list_ind8.
  - destruct (chunks8_short l Hl) as [-> | [_ ->]]; [constructor|]. apply list.Forall_singleton. lia.
  - cbn. constructor; [cbn; lia|done].
Qed.

Lemma chunks8_lengths {A B} (l : list A) (k : list B) :
  length l = length k → length <$> chunks8 l = length <$> chunks8 k.
Proof.
  revert k. induction l as [l Hl|a b c d e f g h l IH] using list_ind8; intros k E.
  - assert (Hk : (length k < 8)%nat) by lia.
    destruct (chunks8_short l Hl) as [-> | [? ->]], (chunks8_short k Hk) as [-> | [? ->]].
    + done.
    + by destruct k.
    + by destruct l.
    + cbn. by rewrite E.
  - do 8 (destruct k as [|? k]; [done|]). cbn. do 2 f_equal. apply IH. by injection E.
Qed.

Lemma chunks8_fmap {A B} (f : A → B) (l : list A) :
  chunks8 (list_fmap _ _ f l) = list_fmap _ _ (list_fmap _ _ f) (chunks8 l).
Proof.
  induction l as [l Hl|a b c d e f' g h l IH] using list_ind8.
  - destruct l as [|a [|b [|c [|d [|e [|f' [|g [|h l]]]]]]]]; done || (cbn in Hl; lia).
  - cbn. by rewrite IH.
Qed.

(** * Satisfaction *)

Section satisfaction.
Context {G : Gadgets}.

(** [m] succeeds, its constraints hold, and its value satisfies [Q]. *)
Definition sat {A} (m : synth A) (Q : A → Prop) : Prop :=
  match m with
  | Ok (a, cs) => Forall (λ c, constraint_holds c = true) cs ∧ Q a
  | Err _ => False
  end.

(** A circuit that synthesises and whose constraints hold. *)
Definition accepted (m : synth unit) : Prop := sat m (λ _, True).

Lemma is_satisfied_iff m : is_satisfied m = true ↔ accepted m.
Proof.
  unfold accepted. destruct m as [[[] cs]|e]; cbn; [|done].
  rewrite forallb_forall, list.Forall_forall. setoid_rewrite list_elem_of_In. tauto.
Qed.

Lemma sat_ret {A} (a : A) Q : sat (mret a) Q ↔ Q a.
Proof. cbn. split; [by intros []|by split]. Qed.

Lemma sat_bind {A B} (m : synth A) (f : A → synth B) Q :
  sat (m ≫= f) Q ↔ sat m (λ a, sat (f a) Q).
Proof.
  destruct m as [[a cs]|e]; cbn; [|done].
  destruct (f a) as [[b cs']|e]; cbn; [|naive_solver]. rewrite list.Forall_app. tauto.
Qed.

(** A step without a result: its condition, and then the rest. *)
Lemma sat_unit (m : synth unit) Q : sat m Q ↔ accepted m ∧ Q ().
Proof. unfold accepted. destruct m as [[[] cs]|e]; cbn; tauto. Qed.

Lemma accepted_ret : accepted (mret ()) ↔ True.
Proof. unfold accepted. by rewrite sat_ret. Qed.

Lemma accepted_bind (m : synth unit) (k : unit → synth unit) :
  accepted (m ≫= k) ↔ accepted m ∧ accepted (k ()).
Proof. unfold accepted at 1. by rewrite sat_bind, sat_unit. Qed.

(** The condition of a sequence, from the conditions of its steps. *)
Lemma accepted_seq (m : synth unit) (k : unit → synth unit) (C D : Prop) :
  (accepted m ↔ C) → (accepted (k ()) ↔ D) → accepted (m ≫= k) ↔ C ∧ D.
Proof. intros <- <-. apply accepted_bind. Qed.

Lemma accepted_enforce c : accepted (enforce c) ↔ constraint_holds c = true.
Proof. unfold accepted. cbn. rewrite list.Forall_singleton. tauto. Qed.

Lemma accepted_unsat_if P `{Decision P} : accepted (unsat_if P) ↔ ¬ P.
Proof. unfold accepted, unsat_if. case_decide; cbn; [tauto|]. rewrite list.Forall_nil. tauto. Qed.

Lemma accepted_unsat_neq {A} `{EqDecision A} (a b : A) : accepted (unsat_if (a ≠ b)) ↔ a = b.
Proof. rewrite accepted_unsat_if. split; [apply dec_stable|by intros -> Hn]. Qed.

Lemma accepted_from_result {A} (r : result SynthesisError A) (k : A → synth unit) :
  accepted (from_result r ≫= k) ↔ ∃ a, r = Ok a ∧ accepted (k a).
Proof.
  unfold accepted. rewrite sat_bind. destruct r; cbn; [rewrite list.Forall_nil|naive_solver].
  split; [intros [_ HQ]; by eexists|]. intros (? & [= <-] & ?). done.
Qed.

Lemma accepted_for_each {A} (f : A → synth unit) l :
  accepted (for_each f l) ↔ Forall (λ x, accepted (f x)) l.
Proof.
  induction l as [|x l IH]; cbn [for_each].
  - rewrite accepted_ret, list.Forall_nil. tauto.
  - by rewrite accepted_bind, IH, list.Forall_cons.
Qed.
End satisfaction.
#[global] Opaque synth_bind synth_ret.

(** * The helpers under an assignment *)

Section laws.
Context `{GadgetLaws}.
Implicit Types l k : list UInt8.

(** The bytes assigned to variables. *)
Definition vals l : list byte := u8_value <$> l.

Lemma vals_length l : length (vals l) = length l.
Proof. apply length_fmap. Qed.

Lemma vals_app l k : vals (l ++ k) = vals l ++ vals k.
Proof. apply fmap_app. Qed.

Lemma vals_cons x l : vals (x :: l) = u8_value x :: vals l.
Proof. done. Qed.

Lemma vals_slice l lo hi : vals (slice l lo hi) = slice (vals l) lo hi.
Proof. apply slice_fmap. Qed.

Lemma vals_witness (l : list byte) : vals (witness_vec l) = l.
Proof.
  unfold vals, witness_vec. rewrite <-list_fmap_compose. etransitivity; [|apply list_fmap_id].
  apply list_fmap_ext. intros ? x _. apply u8_witness_value.
Qed.

Lemma vals_constant (l : list byte) : vals (constant_vec l) = l.
Proof.
  unfold vals, constant_vec. rewrite <-list_fmap_compose. etransitivity; [|apply list_fmap_id].
  apply list_fmap_ext. intros ? x _. apply u8_constant_value.
Qed.

Lemma accepted_byte_equals x e : accepted (enforce_byte_equals x e) ↔ u8_value x = e.
Proof.
  unfold enforce_byte_equals. by rewrite accepted_enforce, u8_enforce_equal_holds, u8_constant_value.
Qed.

Lemma accepted_true b : accepted (enforce (bool_enforce_equal b bool_TRUE)) ↔ bool_value b = true.
Proof. by rewrite accepted_enforce, bool_enforce_equal_holds, bool_TRUE_value. Qed.

Lemma accepted_byte_in x allowed : accepted (enforce_byte_in x allowed) ↔ u8_value x ∈ allowed.
Proof.
  unfold enforce_byte_in. rewrite accepted_true, kary_or_value, existsb_exists.
  setoid_rewrite <-list_elem_of_In. split.
  - intros (b & (v & -> & Hv)%list_elem_of_fmap & Hb).
    rewrite u8_is_eq_value, u8_constant_value, bool_decide_eq_true in Hb. by subst.
  - intros E. eexists. split; [apply list_elem_of_fmap; by eexists|].
    by rewrite u8_is_eq_value, u8_constant_value, bool_decide_eq_true.
Qed.

Lemma nonzero_bool_value l :
  bool_value (nonzero_bytes_bool l) = bool_decide (vals l ≠ replicate (length l) x00).
Proof.
  unfold nonzero_bytes_bool. rewrite bytes_is_neq_value.
  - change (u8_value <$> ?k) with (vals k). by rewrite vals_constant.
  - unfold constant_vec. by rewrite length_fmap, length_replicate.
Qed.

Lemma accepted_nonzero l :
  accepted (enforce_nonzero_bytes l) ↔ vals l ≠ replicate (length l) x00.
Proof.
  unfold enforce_nonzero_bytes. by rewrite accepted_true, nonzero_bool_value, bool_decide_eq_true.
Qed.

Lemma accepted_bytes_const l e : accepted (enforce_bytes_equal_const l e) ↔ vals l = e.
Proof.
  unfold enforce_bytes_equal_const. rewrite accepted_enforce, bytes_enforce_equal_holds.
  change (u8_value <$> ?k) with (vals k). by rewrite vals_constant.
Qed.

Lemma accepted_bytes_equal l k : accepted (enforce (bytes_enforce_equal l k)) ↔ vals l = vals k.
Proof. by rewrite accepted_enforce, bytes_enforce_equal_holds. Qed.

Lemma accepted_bytes_neq l k : length l = length k →
  accepted (enforce (bool_enforce_equal (bytes_is_neq l k) bool_TRUE)) ↔ vals l ≠ vals k.
Proof. intros E. by rewrite accepted_true, bytes_is_neq_value, bool_decide_eq_true. Qed.

(** At most 25 bytes are the number they spell in the field. *)
Lemma le_bytes_as_fr_value l : (length l <= 25)%nat →
  fp_value (le_bytes_as_fr l) = fr_of (le_val (vals l)).
Proof.
  intros Hl. unfold le_bytes_as_fr.
  assert (Hb : bool_value <$> (x ← l; u8_to_bits_le x) = x ← vals l; byte_bits x).
  { clear Hl. induction l as [|x l IH]; [done|]. rewrite vals_cons, !bind_cons, fmap_app,
      u8_bits_value. by rewrite IH. }
  rewrite le_bits_to_fp_value.
  - by rewrite Hb, bits_of_bytes.
  - rewrite <-(length_fmap bool_value), Hb, bytes_bits_length, vals_length. lia.
Qed.

Lemma fr_of_bytes_inj (a b : list byte) :
  (length a <= 25)%nat → length a = length b → fr_of (le_val a) = fr_of (le_val b) → a = b.
Proof.
  intros Ha Hl E. apply le_val_inj; [done|]. rewrite fr_of_eq in E.
  assert (Hr : (256 ^ Z.of_nat (length a) <= 2 ^ 200)%Z).
  { change 256%Z with (2 ^ 8)%Z. rewrite <-Z.pow_mul_r by lia. apply Z.pow_le_mono_r; lia. }
  pose proof (le_val_range a). pose proof (le_val_range b). rewrite <-Hl in *.
  pose proof fr_order_bound. rewrite !Z.mod_small in E by lia. done.
Qed.

Lemma chunk_input_value (c : list byte) : (length c <= 32)%nat →
  fp_value (fp_new_input (from_le_bytes_mod_order (to_array 32 c))) = fr_of (le_val c).
Proof.
  intros Hc. rewrite fp_new_input_value, from_le_bytes_of. f_equal.
  etransitivity; [|apply (le_val_pad c (32 - length c))]. f_equal. cbn [to_array blist].
  by rewrite take_ge by lia.
Qed.

Lemma accepted_frs_chunks l (p : list byte) : length l = length p →
  accepted (enforce_frs_equal (digest_bytes_as_frs l) (public_inputs_as_vars p)) ↔ vals l = p.
Proof.
  intros Hl. unfold enforce_frs_equal, digest_bytes_as_frs, public_inputs_as_vars.
  pose proof (chunks8_lengths l p Hl) as Hc.
  rewrite accepted_bind, accepted_unsat_neq, accepted_for_each, !length_fmap.
  assert (Hn : length (chunks8 l) = length (chunks8 p)).
  { by rewrite <-(length_fmap length (chunks8 l)), Hc, length_fmap. }
  transitivity (chunks8 (vals l) = chunks8 p).
  - unfold vals. rewrite (chunks8_fmap u8_value l). pose proof (chunks8_le l) as H8.
    assert (Hz : Forall (λ x, accepted (enforce (fp_enforce_equal x.1 x.2)))
        (zip (le_bytes_as_fr <$> chunks8 l)
             ((λ c, fp_new_input (from_le_bytes_mod_order (to_array 32 c))) <$> chunks8 p))
      ↔ list_fmap _ _ (list_fmap _ _ u8_value) (chunks8 l) = chunks8 p).
    { clear Hl. revert Hc H8 Hn. generalize (chunks8 l), (chunks8 p). clear l p.
      intros cs. induction cs as [|c cs IH]; intros [|d ds] Hc H8 Hn; try done.
      apply list.Forall_cons in H8 as [Hc8 H8]. cbn [fmap list_fmap] in Hc. injection Hc as Hcd Hc.
      cbn [fmap list_fmap zip zip_with]. rewrite list.Forall_cons, IH; [|done..|by injection Hn].
      cbn [fst snd]. rewrite accepted_enforce, fp_enforce_equal_holds.
      rewrite le_bytes_as_fr_value, chunk_input_value by lia. split.
      - intros [E <-]. f_equal. apply fr_of_bytes_inj; rewrite ?vals_length; [lia|done|done].
      - intros E. pose proof (f_equal (hd []) E) as E1. pose proof (f_equal tail E) as E2.
        cbn in E1, E2. split; [|done]. by rewrite <-E1. }
    rewrite Hz. tauto.
  - split; intros E.
    + by rewrite <-(concat_chunks8 (vals l)), E, concat_chunks8.
    + by rewrite E.
Qed.

Lemma digest_vals domain l : vals (domain_hash_digest domain l) = domain_hash_str domain (vals l).
Proof.
  unfold domain_hash_digest, domain_hash_str, domain_preimage. unfold vals at 1.
  rewrite digest_value. change (u8_value <$> ?k) with (vals k). by rewrite !vals_app, !vals_constant.
Qed.
End laws.
