(* ===== verification/ZkCircuits.v ===== *)
(** The semantic circuit and the allocation circuits of
    src/crates/rgk-zk/src/real_zk.rs: their witnesses, their public inputs and
    the constraints [generate_constraints] emits. *)

From stdpp Require Import base list strings vector.
From Stdlib Require Import ZArith Lia Strings.Byte.
From S2P Require Import Prelude.
From S2P Require Import Bytes.
From S2P Require Import Encoding.
From S2P Require Import Types.
From S2P Require Import Commit.
From S2P Require Import Hex.
From S2P Require Import AssetTypes.
From S2P Require Import AssetRules.
From S2P Require Import Zk.
From S2P Require Import ZkGadgets.

Open Scope string_scope.
Open Scope list_scope.

Definition SEMANTIC_PUBLIC_INPUT_LEN : nat := SEMANTIC_STATEMENT_LEN.
Definition ALLOCATION_WITNESS_LEN : nat := 157.

(** * Burns *)

Record BurnDigestEncoding := {
  bd_amount : list byte;
  bd_authorization_commitment : Bytes32
}.

(** [bytes.iter().all(|byte| *byte == 0)] *)
Definition all_zero (l : list byte) : bool := forallb (λ b, Byte.eqb b x00) l.

Definition burn_digest_encoding (public_inputs : list byte)
  : result SynthesisError (option BurnDigestEncoding) :=
  _ ← fail_if (length public_inputs ≠ SEMANTIC_PUBLIC_INPUT_LEN) Unsatisfiable;
  let amount := slice public_inputs 472 480 in
  let authorization_commitment := slice public_inputs 480 512 in
  match all_zero amount, all_zero authorization_commitment with
  | true, true => Ok None
  | true, false | false, true => Err Unsatisfiable
  | false, false =>
      Ok (Some {| bd_amount := amount;
                  bd_authorization_commitment := to_array 32 authorization_commitment |})
  end.

(** * Witnesses *)

Abbreviation sresult := (result string).

Definition encode_native_allocation (allocation : RgkAllocation) : list byte :=
  [chain_as_u8 (an_chain (al_anchor allocation))] ++
  transaction_id (an_covenant_outpoint (al_anchor allocation)) ++
  u32_le (index (an_covenant_outpoint (al_anchor allocation))) ++
  an_covenant_id (al_anchor allocation) ++
  an_witness_txid (al_anchor allocation) ++
  u64_le (an_daa_score (al_anchor allocation)) ++
  u64_le (an_confirmation_depth (al_anchor allocation)) ++
  u64_le (al_amount allocation) ++
  al_encrypted_note_commitment allocation.

(** The refusal of an allocation of another length; [what] names it. *)
Definition expected_witness_len (what : string) (allocation : list byte) : string :=
  ("expected " ++ usize_display (Z.of_nat ALLOCATION_WITNESS_LEN) ++ "-byte " ++ what ++ ", got " ++
   usize_display (Z.of_nat (length allocation)))%string.

Definition indexed_witness (side : string) (i : nat) : string :=
  (side ++ " allocation witness " ++ usize_display (Z.of_nat i))%string.

(** The loops over [allocations.iter().enumerate()] *)
Definition check_witness_lens (side : string) (allocations : list (list byte)) : sresult unit :=
  try_foldi (λ i _ allocation,
      fail_if (length allocation ≠ ALLOCATION_WITNESS_LEN)
        (expected_witness_len (indexed_witness side i) allocation))
    0 () allocations.

Record OneInZeroOutAllocationWitness := {
  zow_spent_allocation : list byte;
  zow_transition_witness_txid : Bytes32
}.

Definition one_in_zero_out_witness (spent_allocation : list byte) (transition_witness_txid : Bytes32)
  : sresult OneInZeroOutAllocationWitness :=
  _ ← fail_if (length spent_allocation ≠ ALLOCATION_WITNESS_LEN)
        (expected_witness_len "spent allocation witness" spent_allocation);
  _ ← fail_if (all_zero transition_witness_txid = true)
        "expected non-zero terminal burn transition witness txid";
  Ok {| zow_spent_allocation := spent_allocation;
        zow_transition_witness_txid := transition_witness_txid |}.

Definition one_in_zero_out_from_allocation (spent : RgkAllocation) (transition_witness_txid : Bytes32)
  : sresult OneInZeroOutAllocationWitness :=
  one_in_zero_out_witness (encode_native_allocation spent) transition_witness_txid.

Record OneInOneOutAllocationWitness := {
  oow_spent_allocation : list byte;
  oow_new_allocation : list byte
}.

Definition one_in_one_out_witness (spent_allocation new_allocation : list byte)
  : sresult OneInOneOutAllocationWitness :=
  _ ← fail_if (length spent_allocation ≠ ALLOCATION_WITNESS_LEN)
        (expected_witness_len "spent allocation witness" spent_allocation);
  _ ← fail_if (length new_allocation ≠ ALLOCATION_WITNESS_LEN)
        (expected_witness_len "new allocation witness" new_allocation);
  Ok {| oow_spent_allocation := spent_allocation; oow_new_allocation := new_allocation |}.

Definition one_in_one_out_from_allocations (spent new : RgkAllocation)
  : sresult OneInOneOutAllocationWitness :=
  one_in_one_out_witness (encode_native_allocation spent) (encode_native_allocation new).

Record TwoInTwoOutAllocationWitness := {
  ttw_spent_allocations : vec (list byte) 2;
  ttw_new_allocations : vec (list byte) 2
}.

Definition two_in_two_out_witness (spent_allocations new_allocations : vec (list byte) 2)
  : sresult TwoInTwoOutAllocationWitness :=
  _ ← check_witness_lens "spent" spent_allocations;
  _ ← check_witness_lens "new" new_allocations;
  Ok {| ttw_spent_allocations := spent_allocations; ttw_new_allocations := new_allocations |}.

Definition two_in_two_out_from_allocations (spent new : vec RgkAllocation 2)
  : sresult TwoInTwoOutAllocationWitness :=
  two_in_two_out_witness (vmap encode_native_allocation spent) (vmap encode_native_allocation new).

Record FixedAllocationVectorWitness (SPENT NEW : nat) := {
  fvw_spent_allocations : vec (list byte) SPENT;
  fvw_new_allocations : vec (list byte) NEW
}.
Arguments fvw_spent_allocations {SPENT NEW}.
Arguments fvw_new_allocations {SPENT NEW}.

Definition fixed_vector_witness {SPENT NEW} (spent_allocations : vec (list byte) SPENT)
    (new_allocations : vec (list byte) NEW) : sresult (FixedAllocationVectorWitness SPENT NEW) :=
  _ ← fail_if (SPENT = 0 ∨ NEW = 0)
        "allocation-vector witnesses require at least one spent and one new allocation";
  _ ← check_witness_lens "spent" spent_allocations;
  _ ← check_witness_lens "new" new_allocations;
  Ok {| fvw_spent_allocations := spent_allocations; fvw_new_allocations := new_allocations |}.

Definition fixed_vector_from_allocations {SPENT NEW} (spent : vec RgkAllocation SPENT)
    (new : vec RgkAllocation NEW) : sresult (FixedAllocationVectorWitness SPENT NEW) :=
  fixed_vector_witness (vmap encode_native_allocation spent) (vmap encode_native_allocation new).

(** * Circuits *)

Record SemanticTransitionCircuit := {
  stc_public_inputs : list byte;
  stc_witness : list byte
}.

Definition semantic_circuit (statement : SemanticTransitionStatement) : SemanticTransitionCircuit :=
  let public_inputs := semantic_public_inputs statement in
  {| stc_public_inputs := public_inputs; stc_witness := public_inputs |}.

(** The four circuits over allocations differ in the type of their witness. *)
Record AllocationCircuit (W : Type) := {
  ac_public_inputs : list byte;
  ac_statement_witness : list byte;
  ac_allocation_witness : W
}.
Arguments ac_public_inputs {W}.
Arguments ac_statement_witness {W}.
Arguments ac_allocation_witness {W}.

Abbreviation OneInZeroOutAllocationCircuit := (AllocationCircuit OneInZeroOutAllocationWitness).
Abbreviation OneInOneOutAllocationCircuit := (AllocationCircuit OneInOneOutAllocationWitness).
Abbreviation TwoInTwoOutAllocationCircuit := (AllocationCircuit TwoInTwoOutAllocationWitness).
Abbreviation FixedAllocationVectorCircuit SPENT NEW :=
  (AllocationCircuit (FixedAllocationVectorWitness SPENT NEW)).

(** [from_statement_and_witness] of the three dedicated circuits *)
Definition allocation_circuit {W} (statement : SemanticTransitionStatement) (allocation_witness : W)
  : sresult (AllocationCircuit W) :=
  let public_inputs := semantic_public_inputs statement in
  _ ← fail_if (length public_inputs ≠ SEMANTIC_PUBLIC_INPUT_LEN)
        ("expected " ++ usize_display (Z.of_nat SEMANTIC_PUBLIC_INPUT_LEN) ++
         "-byte semantic statement, got " ++
         usize_display (Z.of_nat (length public_inputs)))%string;
  Ok {| ac_public_inputs := public_inputs; ac_statement_witness := public_inputs;
        ac_allocation_witness := allocation_witness |}.

Definition fixed_vector_circuit {SPENT NEW} (statement : SemanticTransitionStatement)
    (allocation_witness : FixedAllocationVectorWitness SPENT NEW)
  : sresult (FixedAllocationVectorCircuit SPENT NEW) :=
  circuit ← allocation_circuit statement allocation_witness;
  _ ← fail_if (SPENT = 0 ∨ NEW = 0)
        "allocation-vector circuits require at least one spent and one new allocation";
  Ok circuit.

(** [allocations.iter().any(|allocation| allocation.len() != ALLOCATION_WITNESS_LEN)] *)
Definition some_len_differs (allocations : list (list byte)) : bool :=
  existsb (λ allocation, bool_decide (length allocation ≠ ALLOCATION_WITNESS_LEN)) allocations.

(** * Constraints *)

Section constraints.
Context {G : Gadgets}.

(** [l[i]], for an index within the slice *)
Definition byte_at (l : list UInt8) (i : nat) : UInt8 := nth i l (u8_constant x00).

Definition enforce_bytes_equal (l k : list UInt8) : synth unit := enforce (bytes_enforce_equal l k).

(** [l.is_neq(k)?.enforce_equal(&Boolean::TRUE)?] *)
Definition enforce_bytes_differ (l k : list UInt8) : synth unit :=
  enforce (bool_enforce_equal (bytes_is_neq l k) bool_TRUE).

(** [Boolean::kary_or(bs)?.enforce_equal(&Boolean::TRUE)?] *)
Definition enforce_some (bs : list Boolean) : synth unit :=
  enforce (bool_enforce_equal (kary_or bs) bool_TRUE).

Definition CHAIN_VALUES : list u8 :=
  [ chain_as_u8 KaspaMainnet; chain_as_u8 KaspaTestnet; chain_as_u8 KaspaSimnet;
    chain_as_u8 KaspaDevnet; chain_as_u8 KaspaLocalToccata ].

Definition enforce_chain_id_layout (public : list UInt8) : synth unit :=
  _ ← unsat_if (length public ≠ 8);
  _ ← enforce_byte_equals (byte_at public 0) chain_TAG;
  _ ← enforce_byte_equals (byte_at public 1) x00;
  _ ← enforce_byte_equals (byte_at public 2) x00;
  _ ← enforce_byte_equals (byte_at public 3) x00;
  _ ← enforce_byte_in (byte_at public 4) CHAIN_VALUES;
  _ ← enforce_byte_equals (byte_at public 5) x00;
  _ ← enforce_byte_equals (byte_at public 6) x00;
  enforce_byte_equals (byte_at public 7) x00.

Definition enforce_semantic_layout (statement : list UInt8) : synth unit :=
  _ ← unsat_if (length statement ≠ SEMANTIC_PUBLIC_INPUT_LEN);
  _ ← enforce_chain_id_layout (slice statement 0 8);
  _ ← enforce_nonzero_bytes (slice statement 8 40);
  _ ← enforce_nonzero_bytes (slice statement 40 72);
  _ ← enforce_nonzero_bytes (slice statement 72 104);
  _ ← enforce_nonzero_bytes (slice statement 104 136);
  _ ← enforce_bytes_differ (slice statement 72 104) (slice statement 104 136);
  _ ← enforce_nonzero_bytes (slice statement 136 168);
  _ ← enforce_nonzero_bytes (slice statement 168 200);
  _ ← enforce_nonzero_bytes (slice statement 200 232);
  _ ← enforce_nonzero_bytes (slice statement 232 264);
  _ ← enforce_nonzero_bytes (slice statement 264 296);
  _ ← enforce_nonzero_bytes (slice statement 296 328);
  _ ← enforce_nonzero_bytes (slice statement 328 360);
  _ ← enforce_nonzero_bytes (slice statement 360 392);
  let owners_equal := bytes_is_eq (slice statement 328 360) (slice statement 360 392) in
  let ownership_authorization_is_nonzero := nonzero_bytes_bool (slice statement 392 424) in
  _ ← enforce_some [owners_equal; ownership_authorization_is_nonzero];
  _ ← enforce_nonzero_bytes (slice statement 424 432);
  _ ← enforce_nonzero_bytes (slice statement 432 440);
  _ ← enforce_byte_in (byte_at statement 448) [x00; x01; x02];
  _ ← for_each (λ byte, enforce_byte_equals byte x00) (slice statement 449 456);
  _ ← enforce_nonzero_bytes (slice statement 456 464);
  let spent_supply := le_bytes_as_fr (slice statement 456 464) in
  let new_supply := le_bytes_as_fr (slice statement 464 472) in
  let burned_supply := le_bytes_as_fr (slice statement 472 480) in
  let accounted_supply := fp_add new_supply burned_supply in
  _ ← enforce (fp_enforce_equal accounted_supply spent_supply);
  let burned_supply_is_nonzero := nonzero_bytes_bool (slice statement 472 480) in
  _ ← enforce_some [nonzero_bytes_bool (slice statement 440 448); burned_supply_is_nonzero];
  enforce_some [nonzero_bytes_bool (slice statement 464 472); burned_supply_is_nonzero].

Definition semantic_generate_constraints (self : SemanticTransitionCircuit) : synth unit :=
  _ ← unsat_if (length (stc_public_inputs self) ≠ SEMANTIC_PUBLIC_INPUT_LEN ∨
                length (stc_witness self) ≠ SEMANTIC_PUBLIC_INPUT_LEN);
  _ ← from_result (burn_digest_encoding (stc_public_inputs self));
  let public_frs := public_inputs_as_vars (stc_public_inputs self) in
  let witness := witness_vec (stc_witness self) in
  let witness_frs := digest_bytes_as_frs witness in
  _ ← enforce_frs_equal witness_frs public_frs;
  enforce_semantic_layout witness.

(** * Allocation transitions *)

Definition validate_nonempty_allocation_slices (allocations : list (list UInt8)) : synth unit :=
  _ ← unsat_if (allocations = @nil (list UInt8));
  for_each (λ allocation, unsat_if (length allocation ≠ ALLOCATION_WITNESS_LEN)) allocations.

Definition enforce_allocation_common_for_chain (chain_value : UInt8) (allocation : list UInt8)
  : synth unit :=
  _ ← enforce (u8_enforce_equal (byte_at allocation 0) chain_value);
  _ ← enforce_nonzero_bytes (slice allocation 1 37);
  _ ← enforce_nonzero_bytes (slice allocation 37 69);
  _ ← enforce_nonzero_bytes (slice allocation 69 101);
  _ ← enforce_nonzero_bytes (slice allocation 109 117);
  _ ← enforce_nonzero_bytes (slice allocation 117 125);
  enforce_nonzero_bytes (slice allocation 125 157).

Definition enforce_allocation_common (statement allocation : list UInt8) : synth unit :=
  enforce_allocation_common_for_chain (byte_at statement 4) allocation.

(** [for left in 0..n { for right in left + 1..n { .. } }] *)
Fixpoint enforce_distinct_outpoints (allocations : list (list UInt8)) : synth unit :=
  match allocations with
  | [] => mret ()
  | lhs :: rest =>
      _ ← for_each (λ rhs, enforce_bytes_differ (slice lhs 1 41) (slice rhs 1 41)) rest;
      enforce_distinct_outpoints rest
  end.

Definition enforce_spent_anchors_not_reused (spent_allocations new_allocations : list (list UInt8))
  : synth unit :=
  for_each (λ spent,
    for_each (λ new, enforce_bytes_differ (slice spent 1 41) (slice new 1 41)) new_allocations)
    spent_allocations.

Definition sum_allocation_amounts (allocations : list (list UInt8)) : FpVar :=
  match allocations with
  | [] => fp_constant 0
  | first :: rest =>
      foldl (λ sum allocation, fp_add sum (le_bytes_as_fr (slice allocation 117 125)))
        (le_bytes_as_fr (slice first 117 125)) rest
  end.

Definition enforce_allocation_supply_delta (statement : list UInt8)
    (spent_allocations new_allocations : list (list UInt8)) : synth unit :=
  let public_spent_supply := le_bytes_as_fr (slice statement 456 464) in
  let public_new_supply := le_bytes_as_fr (slice statement 464 472) in
  let public_burned_supply := le_bytes_as_fr (slice statement 472 480) in
  let spent_sum := sum_allocation_amounts spent_allocations in
  let new_sum := sum_allocation_amounts new_allocations in
  _ ← enforce (fp_enforce_equal spent_sum public_spent_supply);
  _ ← enforce (fp_enforce_equal new_sum public_new_supply);
  let accounted_supply := fp_add new_sum public_burned_supply in
  enforce (fp_enforce_equal spent_sum accounted_supply).

(** * Digests *)

Definition allocation_root_digest (allocations : list (list UInt8)) : list UInt8 :=
  let payload := constant_vec (u32_le (len_u32 allocations)) ++ concat allocations in
  domain_hash_digest "rgk:asset:allocation-root:v1" payload.

(** The bytes [encode_burn_digest] appends. *)
Definition encode_burn_digest (burn : option BurnDigestEncoding) : list UInt8 :=
  match burn with
  | None => [u8_constant x00]
  | Some burn =>
      [u8_constant x01] ++ constant_vec (bd_amount burn) ++
      constant_vec (bd_authorization_commitment burn)
  end.

Definition state_digest (statement allocation_root owner_commitment : list UInt8) : list UInt8 :=
  let payload :=
    slice statement 40 72 ++
    slice statement 424 432 ++
    allocation_root ++
    slice statement 264 296 ++
    slice statement 296 328 ++
    owner_commitment ++
    [byte_at statement 448] ++
    slice statement 232 264 in
  domain_hash_digest "rgk:asset:state:v2" payload.

Definition continuation_shape_root_digest (statement : list UInt8)
    (new_allocations : list (list UInt8)) : list UInt8 :=
  let payload :=
    [byte_at statement 4] ++
    constant_vec (u32_le (len_u32 new_allocations)) ++
    concat ((λ new, slice new 33 37 ++ slice new 37 69 ++ slice new 117 125 ++ slice new 125 157)
            <$> new_allocations) in
  domain_hash_digest "rgk:continuation:shape-root:v1" payload.

Definition continuation_commitment_digest (statement spent_root shape_root : list UInt8)
    (burn : option BurnDigestEncoding) : list UInt8 :=
  let payload :=
    [byte_at statement 4] ++
    slice statement 8 40 ++
    slice statement 40 72 ++
    slice statement 424 432 ++
    slice statement 72 104 ++
    spent_root ++
    shape_root ++
    encode_burn_digest burn ++
    slice statement 232 264 ++
    [byte_at statement 448] ++
    slice statement 264 296 ++
    slice statement 296 328 ++
    slice statement 328 360 ++
    slice statement 360 392 ++
    slice statement 392 424 in
  domain_hash_digest "rgk:continuation:phase1:v2" payload.

Definition transition_witness_txid (new_allocations : list (list UInt8))
    (terminal_witness_txid : option (list UInt8)) : synth (list UInt8) :=
  match head new_allocations, terminal_witness_txid with
  | Some first_new, None => mret (slice first_new 69 101)
  | None, Some witness_txid =>
      _ ← unsat_if (length witness_txid ≠ 32);
      mret witness_txid
  | _, _ => Err Unsatisfiable
  end.

Definition transition_digest (statement : list UInt8)
    (spent_allocations new_allocations : list (list UInt8)) (burn : option BurnDigestEncoding)
    (terminal_witness_txid : option (list UInt8)) : synth (list UInt8) :=
  witness_txid ← transition_witness_txid new_allocations terminal_witness_txid;
  let payload :=
    [byte_at statement 4] ++
    slice statement 8 40 ++
    slice statement 40 72 ++
    slice statement 424 432 ++
    slice statement 72 104 ++
    slice statement 104 136 ++
    witness_txid ++
    encode_burn_digest burn ++
    slice statement 232 264 ++
    [byte_at statement 448] ++
    slice statement 264 296 ++
    slice statement 296 328 ++
    slice statement 328 360 ++
    slice statement 360 392 ++
    slice statement 392 424 ++
    constant_vec (u32_le (len_u32 spent_allocations)) ++
    concat ((λ spent, [u8_constant x69] ++ spent) <$> spent_allocations) ++
    constant_vec (u32_le (len_u32 new_allocations)) ++
    concat ((λ new, [u8_constant x6f] ++ new) <$> new_allocations) in
  _ ← for_each (λ new, enforce_bytes_equal (slice new 69 101) witness_txid) new_allocations;
  mret (domain_hash_digest "rgk:asset:transition:v2" payload).

(** * The circuits *)

Definition enforce_allocation_transition (statement : list UInt8)
    (spent_allocations new_allocations : list (list UInt8)) (burn : option BurnDigestEncoding)
    (terminal_witness_txid : option (list UInt8)) : synth unit :=
  _ ← unsat_if (length statement ≠ SEMANTIC_PUBLIC_INPUT_LEN);
  _ ← validate_nonempty_allocation_slices spent_allocations;
  _ ← match new_allocations with
      | [] =>
          match terminal_witness_txid with
          | None => Err Unsatisfiable
          | Some witness_txid =>
              _ ← unsat_if (length witness_txid ≠ 32 ∨ ¬ is_Some burn);
              enforce_nonzero_bytes witness_txid
          end
      | _ =>
          _ ← validate_nonempty_allocation_slices new_allocations;
          unsat_if (is_Some terminal_witness_txid)
      end;
  _ ← enforce_bytes_equal_const (slice statement 432 440) (u64_le (len_u64 spent_allocations));
  _ ← enforce_bytes_equal_const (slice statement 440 448) (u64_le (len_u64 new_allocations));
  _ ← for_each (enforce_allocation_common statement) spent_allocations;
  _ ← for_each (λ allocation,
        _ ← enforce_allocation_common statement allocation;
        enforce_bytes_equal (slice allocation 1 33) (slice allocation 69 101)) new_allocations;
  _ ← enforce_distinct_outpoints spent_allocations;
  _ ← enforce_distinct_outpoints new_allocations;
  _ ← enforce_spent_anchors_not_reused spent_allocations new_allocations;
  _ ← enforce_allocation_supply_delta statement spent_allocations new_allocations;
  let spent_root := allocation_root_digest spent_allocations in
  let new_root := allocation_root_digest new_allocations in
  let old_state_digest := state_digest statement spent_root (slice statement 328 360) in
  _ ← enforce_bytes_equal old_state_digest (slice statement 72 104);
  let new_state_digest := state_digest statement new_root (slice statement 360 392) in
  _ ← enforce_bytes_equal new_state_digest (slice statement 104 136);
  let shape_root := continuation_shape_root_digest statement new_allocations in
  _ ← enforce_bytes_equal shape_root (slice statement 200 232);
  let continuation_commitment :=
    continuation_commitment_digest statement spent_root shape_root burn in
  _ ← enforce_bytes_equal continuation_commitment (slice statement 168 200);
  transition_digest ← transition_digest statement spent_allocations new_allocations burn
                        terminal_witness_txid;
  enforce_bytes_equal transition_digest (slice statement 136 168).

(** The start of [generate_constraints] of the four circuits: the statement is
    the public one and has the semantic layout. *)
Definition allocation_statement (public_inputs statement_witness : list byte)
  : synth (list UInt8) :=
  let public_frs := public_inputs_as_vars public_inputs in
  let statement := witness_vec statement_witness in
  let statement_frs := digest_bytes_as_frs statement in
  _ ← enforce_frs_equal statement_frs public_frs;
  _ ← enforce_semantic_layout statement;
  mret statement.

Definition one_in_one_out_generate_constraints (self : OneInOneOutAllocationCircuit) : synth unit :=
  let w := ac_allocation_witness self in
  _ ← unsat_if (length (ac_public_inputs self) ≠ SEMANTIC_PUBLIC_INPUT_LEN ∨
                length (ac_statement_witness self) ≠ SEMANTIC_PUBLIC_INPUT_LEN ∨
                length (oow_spent_allocation w) ≠ ALLOCATION_WITNESS_LEN ∨
                length (oow_new_allocation w) ≠ ALLOCATION_WITNESS_LEN);
  burn ← from_result (burn_digest_encoding (ac_public_inputs self));
  statement ← allocation_statement (ac_public_inputs self) (ac_statement_witness self);
  let spent := witness_vec (oow_spent_allocation w) in
  let new := witness_vec (oow_new_allocation w) in
  enforce_allocation_transition statement [spent] [new] burn None.

Definition one_in_zero_out_generate_constraints (self : OneInZeroOutAllocationCircuit) : synth unit :=
  let w := ac_allocation_witness self in
  _ ← unsat_if (length (ac_public_inputs self) ≠ SEMANTIC_PUBLIC_INPUT_LEN ∨
                length (ac_statement_witness self) ≠ SEMANTIC_PUBLIC_INPUT_LEN ∨
                length (zow_spent_allocation w) ≠ ALLOCATION_WITNESS_LEN);
  burn ← from_result (burn_digest_encoding (ac_public_inputs self));
  _ ← unsat_if (¬ is_Some burn);
  statement ← allocation_statement (ac_public_inputs self) (ac_statement_witness self);
  let spent := witness_vec (zow_spent_allocation w) in
  let transition_witness_txid := witness_vec (zow_transition_witness_txid w) in
  _ ← enforce_nonzero_bytes transition_witness_txid;
  enforce_allocation_transition statement [spent] [] burn (Some transition_witness_txid).

Definition two_in_two_out_generate_constraints (self : TwoInTwoOutAllocationCircuit) : synth unit :=
  let w := ac_allocation_witness self in
  _ ← unsat_if (length (ac_public_inputs self) ≠ SEMANTIC_PUBLIC_INPUT_LEN ∨
                length (ac_statement_witness self) ≠ SEMANTIC_PUBLIC_INPUT_LEN ∨
                some_len_differs (ttw_spent_allocations w) = true ∨
                some_len_differs (ttw_new_allocations w) = true);
  burn ← from_result (burn_digest_encoding (ac_public_inputs self));
  statement ← allocation_statement (ac_public_inputs self) (ac_statement_witness self);
  let spent_0 := witness_vec (ttw_spent_allocations w !!! 0%fin) in
  let spent_1 := witness_vec (ttw_spent_allocations w !!! 1%fin) in
  let new_0 := witness_vec (ttw_new_allocations w !!! 0%fin) in
  let new_1 := witness_vec (ttw_new_allocations w !!! 1%fin) in
  enforce_allocation_transition statement [spent_0; spent_1] [new_0; new_1] burn None.

Definition fixed_vector_generate_constraints {SPENT NEW}
    (self : FixedAllocationVectorCircuit SPENT NEW) : synth unit :=
  let w := ac_allocation_witness self in
  _ ← unsat_if (SPENT = 0 ∨ NEW = 0 ∨
                length (ac_public_inputs self) ≠ SEMANTIC_PUBLIC_INPUT_LEN ∨
                length (ac_statement_witness self) ≠ SEMANTIC_PUBLIC_INPUT_LEN ∨
                some_len_differs (fvw_spent_allocations w) = true ∨
                some_len_differs (fvw_new_allocations w) = true);
  burn ← from_result (burn_digest_encoding (ac_public_inputs self));
  statement ← allocation_statement (ac_public_inputs self) (ac_statement_witness self);
  let spent_witnesses := witness_vec <$> vec_to_list (fvw_spent_allocations w) in
  let new_witnesses := witness_vec <$> vec_to_list (fvw_new_allocations w) in
  enforce_allocation_transition statement spent_witnesses new_witnesses burn None.
End constraints.
