(* ===== verification/ZkCircuitsCorrect.v ===== *)
(** What the semantic circuit and the allocation circuits accept: each is
    satisfied exactly by the encodings of statements and allocations in a
    relation stated on the native types. *)

From stdpp Require Import base list strings vector.
From Stdlib Require Import ZArith Lia Strings.Byte.
From S2P Require Import Prelude.
From S2P Require Import Bytes.
From S2P Require Import Encoding.
From S2P Require Import Types.
From S2P Require Import Commit.
From S2P Require Import AssetTypes.
From S2P Require Import AssetRules.
From S2P Require Import Asset.
From S2P Require Import AssetCorrect.
From S2P Require Import Zk.
From S2P Require Import ZkCorrect.
From S2P Require Import ZkGadgets.
From S2P Require Import ZkCircuits.

Open Scope list_scope.

(** * Fields at their offsets *)

(** The number of the field that starts at an offset. *)
Fixpoint field_index (widths : list nat) (off : nat) : nat :=
  match widths, off with
  | w :: widths', S _ => S (field_index widths' (off - w))
  | _, _ => 0
  end.

(** Reads the slices of a buffer that is cut in fields. *)
Ltac field_slices p widths cuts_eq :=
  repeat match goal with
  | |- context [slice p ?lo ?hi] =>
      let i := eval vm_compute in (field_index widths lo) in
      change (slice p lo hi) with (nth i (cuts 0 widths p) []); rewrite cuts_eq; cbn [nth]
  end.

Lemma nth_slice (l : list byte) i hi d : (i < hi)%nat → nth i l d = hd d (slice l i hi).
Proof.
  intros Hi. transitivity (default d (slice l i hi !! 0)); [|by destruct (slice l i hi)].
  unfold slice. rewrite nth_lookup, lookup_take_lt, lookup_drop by lia. by rewrite Nat.add_0_r.
Qed.

Ltac semantic_slices s :=
  field_slices (semantic_public_inputs s) semantic_widths (semantic_cuts s);
  cbn [nth semantic_fields].

Lemma semantic_chain_byte s : nth 4 (semantic_public_inputs s) x00 = chain_as_u8 (ss_chain_id s).
Proof. unfold semantic_public_inputs. by destruct (ss_chain_id s). Qed.

Lemma semantic_privacy_byte s :
  nth 448 (semantic_public_inputs s) x00 = privacy_as_u8 (ss_privacy_policy s).
Proof.
  rewrite (nth_slice _ 448 456) by lia. semantic_slices s. by destruct (ss_privacy_policy s).
Qed.

(** * Zero fields *)

Lemma blist_fill n b : blist (fill n b) = replicate n b.
Proof. apply to_array_list, length_replicate. Qed.

Lemma blist_zero_iff {n} (b : bytes n) : blist b = replicate n x00 ↔ b = fill n x00.
Proof. rewrite <-blist_fill. split; [apply (inj blist)|by intros ->]. Qed.

Lemma u64_zero_iff (v : u64) : u64_le v = replicate 8 x00 ↔ uval v = 0%Z.
Proof.
  change (replicate 8 x00) with (u64_le (wrap 64 0)). split.
  - by intros ->%u64_le_inj.
  - intros E. f_equal. by apply (inj uval).
Qed.

Lemma all_zero_iff l : all_zero l = true ↔ l = replicate (length l) x00.
Proof. apply forallb_zero. Qed.

(** * Reading a statement back *)

Definition field32 (p : list byte) (lo : nat) : Bytes32 := to_array 32 (slice p lo (lo + 32)).
Definition field64 (p : list byte) (lo : nat) : u64 := wrap 64 (le_val (slice p lo (lo + 8))).

Lemma field32_list p lo : (lo + 32 <= length p)%nat → blist (field32 p lo) = slice p lo (lo + 32).
Proof. intros. apply to_array_list. rewrite slice_length; lia. Qed.

Lemma field64_list p lo : (lo + 8 <= length p)%nat → u64_le (field64 p lo) = slice p lo (lo + 8).
Proof. intros. unfold u64_le, field64. rewrite le_bytes_wrap; [done..|]. rewrite slice_length; lia. Qed.

Definition decode_statement (c : KaspaChainId) (pol : LanePrivacyPolicy) (p : list byte)
  : SemanticTransitionStatement := {|
  ss_chain_id := c; ss_schema_id := field32 p 8; ss_asset_id := field32 p 40;
  ss_previous_state_digest := field32 p 72; ss_new_state_digest := field32 p 104;
  ss_transition_digest := field32 p 136; ss_continuation_commitment := field32 p 168;
  ss_continuation_shape_root := field32 p 200; ss_lane_id := field32 p 232;
  ss_privacy_policy := pol; ss_policy_commitment := field32 p 264;
  ss_metadata_commitment := field32 p 296; ss_previous_owner_commitment := field32 p 328;
  ss_new_owner_commitment := field32 p 360; ss_ownership_authorization_commitment := field32 p 392;
  ss_total_supply := field64 p 424; ss_spent_allocation_count := field64 p 432;
  ss_new_allocation_count := field64 p 440; ss_spent_supply := field64 p 456;
  ss_new_supply := field64 p 464; ss_burned_supply := field64 p 472;
  ss_burn_authorization_commitment := field32 p 480 |}.

Definition is_statement (p : list byte) : Prop := ∃ s, p = semantic_public_inputs s.

(** 512 bytes with a chain and a privacy policy are a statement. *)
Lemma statement_bytes p c pol :
  length p = SEMANTIC_STATEMENT_LEN → slice p 0 8 = chain_id_tagged_le_u32 c →
  slice p 448 456 = u64_le (u64_of_byte (privacy_as_u8 pol)) → is_statement p.
Proof.
  intros Hl Hc Hp. exists (decode_statement c pol p). rewrite semantic_public_concat.
  transitivity (concat (cuts 0 semantic_widths p)); [by rewrite concat_cuts|].
  unfold SEMANTIC_STATEMENT_LEN in Hl. f_equal. unfold semantic_fields, decode_statement. cbn -[slice field32 field64 u64_le].
  rewrite !field32_list, !field64_list, <-Hc, <-Hp by (rewrite Hl; lia). reflexivity.
Qed.

Section circuits.
Context `{GadgetLaws}.
Implicit Types st : list UInt8.

Lemma byte_at_value l i : u8_value (byte_at l i) = nth i (vals l) x00.
Proof.
  unfold byte_at. revert i. induction l as [|x l IH]; intros [|i]; cbn [nth];
    [apply u8_constant_value..|done|apply IH].
Qed.

Lemma accepted_some_of a b :
  accepted (enforce_some [a; b]) ↔ bool_value a = true ∨ bool_value b = true.
Proof.
  unfold enforce_some. rewrite accepted_true, kary_or_value. cbn. rewrite !orb_true_iff. naive_solver.
Qed.

Lemma accepted_some bs : accepted (enforce_some bs) ↔ existsb bool_value bs = true.
Proof. unfold enforce_some. by rewrite accepted_true, kary_or_value. Qed.

Lemma chain_values b : b ∈ CHAIN_VALUES ↔ ∃ c, b = chain_as_u8 c.
Proof.
  unfold CHAIN_VALUES. rewrite !elem_of_cons. split.
  - intros E. repeat destruct E as [-> | E]; try by eexists. by apply not_elem_of_nil in E.
  - intros [[] ->]; tauto.
Qed.

Lemma privacy_values b : b ∈ [x00; x01; x02] ↔ ∃ pol, b = privacy_as_u8 pol.
Proof.
  rewrite !elem_of_cons. split.
  - intros E. repeat destruct E as [-> | E]; [by exists PublicLineage|by exists PrivateLane|
      by exists StealthLane|by apply not_elem_of_nil in E].
  - intros [[] ->]; tauto.
Qed.

(** Checks of slices, on the bytes of the buffer. *)
Lemma nonzero_slice_value st lo hi : (hi <= length st)%nat →
  bool_value (nonzero_bytes_bool (slice st lo hi)) =
    bool_decide (slice (vals st) lo hi ≠ replicate (hi - lo) x00).
Proof. intros. by rewrite nonzero_bool_value, vals_slice, slice_length. Qed.

Lemma eq_slices_value st lo hi lo' hi' :
  (hi <= length st)%nat → (hi' <= length st)%nat → (hi - lo = hi' - lo')%nat →
  bool_value (bytes_is_eq (slice st lo hi) (slice st lo' hi')) =
    bool_decide (slice (vals st) lo hi = slice (vals st) lo' hi').
Proof. intros. rewrite bytes_is_eq_value by (rewrite !slice_length; lia). by rewrite <-!vals_slice. Qed.

Lemma accepted_some_nonzero st lo hi lo' hi' : (hi <= length st)%nat → (hi' <= length st)%nat →
  accepted (enforce_some [nonzero_bytes_bool (slice st lo hi); nonzero_bytes_bool (slice st lo' hi')]) ↔
    slice (vals st) lo hi ≠ replicate (hi - lo) x00 ∨ slice (vals st) lo' hi' ≠ replicate (hi' - lo') x00.
Proof. intros. by rewrite accepted_some_of, !nonzero_slice_value, !bool_decide_eq_true. Qed.

Lemma accepted_equal_or_nonzero st a b c d e f :
  (b <= length st)%nat → (d <= length st)%nat → (b - a = d - c)%nat → (f <= length st)%nat →
  accepted (enforce_some [bytes_is_eq (slice st a b) (slice st c d); nonzero_bytes_bool (slice st e f)]) ↔
    slice (vals st) a b = slice (vals st) c d ∨ slice (vals st) e f ≠ replicate (f - e) x00.
Proof.
  intros. by rewrite accepted_some_of, nonzero_slice_value, eq_slices_value, !bool_decide_eq_true.
Qed.

Lemma accepted_nonzero_slice st lo hi : (hi <= length st)%nat →
  accepted (enforce_nonzero_bytes (slice st lo hi)) ↔
    slice (vals st) lo hi ≠ replicate (hi - lo) x00.
Proof. intros. by rewrite accepted_nonzero, vals_slice, slice_length. Qed.

Lemma accepted_differ_slices st k lo hi lo' hi' :
  (hi <= length st)%nat → (hi' <= length k)%nat → (hi - lo = hi' - lo')%nat →
  accepted (enforce_bytes_differ (slice st lo hi) (slice k lo' hi')) ↔
    slice (vals st) lo hi ≠ slice (vals k) lo' hi'.
Proof.
  intros. unfold enforce_bytes_differ. rewrite accepted_bytes_neq, !vals_slice; [done|].
  by rewrite !slice_length.
Qed.

Lemma accepted_zero_bytes l :
  accepted (for_each (λ b, enforce_byte_equals b x00) l) ↔ vals l = replicate (length l) x00.
Proof.
  rewrite accepted_for_each. induction l as [|x l IH]; [by split; [|constructor]|].
  rewrite list.Forall_cons, IH, accepted_byte_equals, vals_cons. cbn [length replicate]. split.
  - by intros [-> ->].
  - by intros [= -> ->].
Qed.

Lemma accepted_chain_layout l : length l = 8%nat →
  accepted (enforce_chain_id_layout l) ↔ ∃ c, vals l = chain_id_tagged_le_u32 c.
Proof.
  intros Hl. do 8 (destruct l as [|? l]; [done|]). destruct l; [|done].
  unfold enforce_chain_id_layout. rewrite !accepted_bind, accepted_unsat_neq.
  rewrite !accepted_byte_equals, accepted_byte_in, chain_values. cbn [byte_at nth]. split.
  - intros (_ & E0 & E1 & E2 & E3 & (c & E4) & E5 & E6 & E7). exists c.
    unfold vals. cbn [fmap list_fmap]. rewrite E0, E1, E2, E3, E4, E5, E6, E7. by destruct c.
  - intros (c & E). unfold vals in E. cbn [fmap list_fmap] in E.
    assert (E' : chain_id_tagged_le_u32 c = [chain_TAG; x00; x00; x00; chain_as_u8 c; x00; x00; x00])
      by (by destruct c).
    rewrite E' in E. clear E'. repeat apply cons_byte_inj in E as [? E]. naive_solver.
Qed.

(** The value of eight bytes, and sums of them, in the field. *)
Definition le_slice (l : list byte) (lo : nat) : Z := le_val (slice l lo (lo + 8)).

Lemma le_slice_range l lo : (0 <= le_slice l lo < 2 ^ 64)%Z.
Proof.
  pose proof (le_val_range (slice l lo (lo + 8))) as Hr. unfold le_slice.
  assert ((256 ^ Z.of_nat (length (slice l lo (lo + 8))) <= 2 ^ 64)%Z); [|lia].
  change (2 ^ 64)%Z with (256 ^ 8)%Z. apply Z.pow_le_mono_r; [lia|].
  unfold slice. rewrite length_take. lia.
Qed.

Lemma le_slice_value st lo :
  fp_value (le_bytes_as_fr (slice st lo (lo + 8))) = fr_of (le_slice (vals st) lo).
Proof.
  rewrite le_bytes_as_fr_value, vals_slice; [done|]. unfold slice. rewrite length_take. lia.
Qed.

(** Numbers below 2^200 are equal in the field only when they are equal. *)
Lemma fr_of_small a b : (0 <= a < 2 ^ 200)%Z → (0 <= b < 2 ^ 200)%Z → fr_of a = fr_of b ↔ a = b.
Proof. intros. pose proof fr_order_bound. rewrite fr_of_eq, !Z.mod_small by lia. done. Qed.

Lemma accepted_fp_equal x y a b :
  fp_value x = fr_of a → fp_value y = fr_of b → (0 <= a < 2 ^ 200)%Z → (0 <= b < 2 ^ 200)%Z →
  accepted (enforce (fp_enforce_equal x y)) ↔ a = b.
Proof.
  intros Hx Hy Ha Hb. rewrite accepted_enforce, fp_enforce_equal_holds, Hx, Hy. by apply fr_of_small.
Qed.

Lemma accepted_accounted st a b c :
  accepted (enforce (fp_enforce_equal
    (fp_add (le_bytes_as_fr (slice st a (a + 8))) (le_bytes_as_fr (slice st b (b + 8))))
    (le_bytes_as_fr (slice st c (c + 8))))) ↔
  (le_slice (vals st) a + le_slice (vals st) b = le_slice (vals st) c)%Z.
Proof.
  pose proof (le_slice_range (vals st) a). pose proof (le_slice_range (vals st) b).
  pose proof (le_slice_range (vals st) c).
  apply accepted_fp_equal; [apply fp_add_value; apply le_slice_value|apply le_slice_value|lia..].
Qed.

End circuits.

(** * The semantic layout *)

(** Reads a sequence of checks on a buffer as a conjunction. *)
Ltac accept_leaf :=
  first
  [ apply accepted_unsat_neq
  | apply accepted_nonzero_slice; lia
  | apply accepted_differ_slices; lia
  | apply accepted_chain_layout; rewrite slice_length; lia
  | apply accepted_some_nonzero; lia
  | apply accepted_equal_or_nonzero; lia
  | apply accepted_byte_in
  | apply accepted_zero_bytes
  | apply (accepted_accounted _ 464 472 456) ].
Ltac accept := repeat (eapply accepted_seq; [solve [accept_leaf]|]); accept_leaf.

Section semantic.
Context `{GadgetLaws}.
Implicit Types st : list UInt8.

Lemma semantic_supplies s :
  le_slice (semantic_public_inputs s) 456 = ss_spent_supply s ∧
  le_slice (semantic_public_inputs s) 464 = ss_new_supply s ∧
  le_slice (semantic_public_inputs s) 472 = ss_burned_supply s.
Proof.
  unfold le_slice. change (456 + 8)%nat with 464%nat. change (464 + 8)%nat with 472%nat.
  change (472 + 8)%nat with 480%nat. semantic_slices s. unfold u64_le.
  rewrite !le_val_le_bytes. change (256 ^ Z.of_nat 8)%Z with (2 ^ 64)%Z.
  rewrite !Z.mod_small by apply uint_range. done.
Qed.

Lemma privacy_layout (p : list byte) : length p = SEMANTIC_STATEMENT_LEN →
  (∃ pol, slice p 448 456 = u64_le (u64_of_byte (privacy_as_u8 pol))) ↔
    nth 448 p x00 ∈ [x00; x01; x02] ∧ slice p 449 456 = replicate 7 x00.
Proof.
  intros Hl. assert (E : slice p 448 456 = slice p 448 449 ++ slice p 449 456)
    by (symmetry; apply slices_cat; lia).
  rewrite (nth_slice _ 448 449), privacy_values by lia. unfold SEMANTIC_STATEMENT_LEN in Hl.
  assert (H1 : length (slice p 448 449) = 1%nat) by (rewrite slice_length; lia).
  rewrite E. destruct (slice p 448 449) as [|b [|]]; try done. cbn [hd app]. split.
  - intros [pol Ep]. assert (b = privacy_as_u8 pol ∧ slice p 449 456 = replicate 7 x00) as [-> ->]
      by (destruct pol; by apply cons_byte_inj in Ep). split; [by eexists|done].
  - intros [[pol ->] ->]. exists pol. by destruct pol.
Qed.

Lemma accepted_semantic_layout st s : vals st = semantic_public_inputs s →
  accepted (enforce_semantic_layout st) ↔ semantic_layout_ok s.
Proof.
  intros Hv. assert (Hl : length st = 512%nat)
    by (rewrite <-vals_length, Hv; apply semantic_public_length).
  unfold enforce_semantic_layout. etransitivity; [accept|].
  rewrite !byte_at_value, !vals_slice, Hv, semantic_privacy_byte, privacy_values.
  destruct (semantic_supplies s) as (-> & -> & ->).
  rewrite slice_length by lia. cbn [Nat.sub]. 
  pose proof (privacy_layout (semantic_public_inputs s) (semantic_public_length s)) as Hp.
  rewrite semantic_privacy_byte, privacy_values in Hp. destruct Hp as [Hp _].
  assert (Hzero : slice (semantic_public_inputs s) 449 456 = replicate 7 x00).
  { apply Hp. exists (ss_privacy_policy s). by semantic_slices s. }
  semantic_slices s. rewrite !blist_zero_iff, !u64_zero_iff, !(inj_iff blist).
  pose proof (uint_range (ss_total_supply s)). pose proof (uint_range (ss_spent_supply s)).
  pose proof (uint_range (ss_new_supply s)). pose proof (uint_range (ss_burned_supply s)).
  pose proof (uint_range (ss_spent_allocation_count s)).
  pose proof (uint_range (ss_new_allocation_count s)). split.
  - intros (? & _ & ? & ? & ? & ? & ? & ? & ? & ? & ? & ? & ? & ? & ? & Ho & ? & ? & _ & _ & ? & ? &
      ? & ?). constructor; done || lia.
  - intros []. split_and!; try done; try lia; by eexists.
Qed.

Lemma layout_is_statement st : accepted (enforce_semantic_layout st) → is_statement (vals st).
Proof.
  unfold enforce_semantic_layout. rewrite accepted_bind, accepted_unsat_neq. intros [Hl Ha]. revert Ha.
  assert (Hv : length (vals st) = SEMANTIC_STATEMENT_LEN) by by rewrite vals_length.
  unfold SEMANTIC_PUBLIC_INPUT_LEN, SEMANTIC_STATEMENT_LEN in Hl.
  match goal with |- accepted ?m → _ => let H := fresh in eassert (accepted m ↔ _) as H by accept; rewrite H; clear H end.
  rewrite byte_at_value, !vals_slice, slice_length by lia. cbn [Nat.sub].
  intros ((c & Hc) & _ & _ & _ & _ & _ & _ & _ & _ & _ & _ & _ & _ & _ & _ & _ & _ & Hp & Hz & _).
  destruct (privacy_layout (vals st) Hv) as [_ Hpol]. destruct (Hpol (conj Hp Hz)) as [pol Hb].
  by eapply statement_bytes.
Qed.

(** * Burns *)

(** The burn a statement declares, as the circuits encode it. *)
Definition burn_of (s : SemanticTransitionStatement) : option BurnDigestEncoding :=
  if decide (uval (ss_burned_supply s) = 0%Z) then None
  else Some {| bd_amount := u64_le (ss_burned_supply s);
               bd_authorization_commitment := ss_burn_authorization_commitment s |}.

Lemma burn_encoding_ok s b :
  burn_digest_encoding (semantic_public_inputs s) = Ok b ↔ burn_authorized s ∧ b = burn_of s.
Proof.
  unfold burn_digest_encoding, burn_of, burn_authorized.
  rewrite bind_unit_ok, fail_if_neq_ok, semantic_public_length. semantic_slices s.
  pose proof (all_zero_iff (u64_le (ss_burned_supply s))) as Ha.
  pose proof (all_zero_iff (ss_burn_authorization_commitment s)) as Hz.
  rewrite u64_le_length, u64_zero_iff in Ha. rewrite bytes_length, blist_zero_iff in Hz.
  rewrite to_array_blist. destruct (all_zero (u64_le _)), (all_zero (blist _)); case_decide; naive_solver.
Qed.

(** * The semantic circuit *)

Lemma accepted_statement_inputs (p w : list byte) : length p = SEMANTIC_PUBLIC_INPUT_LEN →
  length w = SEMANTIC_PUBLIC_INPUT_LEN →
  accepted (enforce_frs_equal (digest_bytes_as_frs (witness_vec w)) (public_inputs_as_vars p)) ↔ w = p.
Proof.
  intros Hp Hw. rewrite accepted_frs_chunks, vals_witness; [done|].
  rewrite <-vals_length, vals_witness. congruence.
Qed.

(** C19: The semantic circuit, exactly: public inputs and a witness satisfy it iff
    both are the 512 bytes of one statement whose layout is right and whose burn
    and authorisation come together.  So for a statement the circuit is
    satisfied iff [validate] accepts the statement or the only thing wrong with
    it is that it spends more than the total supply, which the circuit does not
    compare. *)
Theorem semantic_circuit_iff (c : SemanticTransitionCircuit) :
  (is_satisfied (semantic_generate_constraints c) = true ↔
     ∃ s, c = semantic_circuit s ∧ semantic_layout_ok s ∧ burn_authorized s) ∧
  (∀ s, semantic_validate s = Ok () ↔
     is_satisfied (semantic_generate_constraints (semantic_circuit s)) = true ∧
     (ss_spent_supply s <= ss_total_supply s)%Z).
Proof.
  assert (Hc : ∀ c, is_satisfied (semantic_generate_constraints c) = true ↔
     ∃ s, c = semantic_circuit s ∧ semantic_layout_ok s ∧ burn_authorized s).
  { clear c. intros [p w]. rewrite is_satisfied_iff. unfold semantic_generate_constraints.
    cbn [stc_public_inputs stc_witness]. rewrite accepted_bind, accepted_unsat_if, accepted_from_result.
    setoid_rewrite accepted_bind. split.
    - intros (Hl & b & Hb & Hf & Hs). assert (Hp : length p = SEMANTIC_PUBLIC_INPUT_LEN) by (apply dec_stable; tauto).
      assert (Hw : length w = SEMANTIC_PUBLIC_INPUT_LEN) by (apply dec_stable; tauto).
      rewrite accepted_statement_inputs in Hf by done. subst w.
      destruct (layout_is_statement _ Hs) as [s E]. rewrite vals_witness in E. subst p.
      rewrite accepted_semantic_layout in Hs by apply vals_witness.
      apply burn_encoding_ok in Hb as [Hb _]. by exists s.
    - intros (s & [= -> ->] & Hs & Hb). rewrite semantic_public_length. split; [tauto|].
      exists (burn_of s). rewrite burn_encoding_ok, accepted_statement_inputs by apply semantic_public_length.
      split_and!; try done. by rewrite accepted_semantic_layout by apply vals_witness. }
  split; [apply Hc|]. intros s. rewrite Hc, semantic_validate_ok. split.
  - intros []. by split; [exists s|].
  - intros [(s' & E & Hs & Hb) Hle]. apply (f_equal stc_witness), (inj semantic_public_inputs) in E. by subst.
Qed.
End semantic.
