(* ===== verification/ZkAllocation.v ===== *)
(** The allocation circuits: what [enforce_allocation_transition] accepts, as a
    relation between a statement and native allocations. *)

From stdpp Require Import base list strings vector.
From Stdlib Require Import ZArith Lia Strings.Byte.
From S2P Require Import Prelude.
From S2P Require Import Bytes.
From S2P Require Import Encoding.
From S2P Require Import Types.
From S2P Require Import Commit.
From S2P Require Import AssetTypes.
From S2P Require Import AssetRules.
From S2P Require Import Asset.
From S2P Require Import AssetCorrect.
From S2P Require Import Zk.
From S2P Require Import ZkCorrect.
From S2P Require Import ZkGadgets.
From S2P Require Import ZkCircuits.
From S2P Require Import ZkCircuitsCorrect.

Open Scope list_scope.

(** * Allocations as witnesses *)

Definition alloc_widths : list nat := [1; 32; 4; 32; 32; 8; 8; 8; 32].
Definition alloc_fields (a : RgkAllocation) : list (list byte) :=
  [ [chain_as_u8 (an_chain (al_anchor a))];
    blist (transaction_id (outpoint_of a)); u32_le (index (outpoint_of a));
    blist (an_covenant_id (al_anchor a)); blist (an_witness_txid (al_anchor a));
    u64_le (an_daa_score (al_anchor a)); u64_le (an_confirmation_depth (al_anchor a));
    u64_le (al_amount a); blist (al_encrypted_note_commitment a) ].

Lemma alloc_concat a : encode_native_allocation a = concat (alloc_fields a).
Proof. unfold encode_native_allocation, alloc_fields. cbn [concat]. by rewrite app_nil_r. Qed.

Lemma alloc_fields_length a : length <$> alloc_fields a = alloc_widths.
Proof.
  unfold alloc_fields. cbn [fmap list_fmap].
  by rewrite ?bytes_length, ?u64_le_length, ?u32_le_length.
Qed.

Lemma alloc_cuts a : cuts 0 alloc_widths (encode_native_allocation a) = alloc_fields a.
Proof. apply cuts_fields; [apply alloc_concat|apply alloc_fields_length]. Qed.

Lemma alloc_length a : length (encode_native_allocation a) = ALLOCATION_WITNESS_LEN.
Proof. rewrite alloc_concat. by erewrite concat_length_widths by apply alloc_fields_length. Qed.

Ltac alloc_slices a :=
  field_slices (encode_native_allocation a) alloc_widths (alloc_cuts a); cbn [nth alloc_fields].

Definition field_u32 (p : list byte) (lo : nat) : u32 := wrap 32 (le_val (slice p lo (lo + 4))).

Lemma field_u32_list p lo : (lo + 4 <= length p)%nat → u32_le (field_u32 p lo) = slice p lo (lo + 4).
Proof. intros. unfold u32_le, field_u32. rewrite le_bytes_wrap; [done..|]. rewrite slice_length; lia. Qed.

Definition decode_alloc (c : KaspaChainId) (p : list byte) : RgkAllocation := {|
  al_anchor := {|
    an_chain := c;
    an_covenant_outpoint := {| transaction_id := field32 p 1; index := field_u32 p 33 |};
    an_covenant_id := field32 p 37; an_witness_txid := field32 p 69;
    an_daa_score := field64 p 101; an_confirmation_depth := field64 p 109 |};
  al_amount := field64 p 117; al_encrypted_note_commitment := field32 p 125 |}.

(** 157 bytes that start with a chain are an allocation. *)
Lemma alloc_bytes p c : length p = ALLOCATION_WITNESS_LEN → nth 0 p x00 = chain_as_u8 c →
  ∃ a, p = encode_native_allocation a.
Proof.
  intros Hl Hc. exists (decode_alloc c p). rewrite alloc_concat.
  transitivity (concat (cuts 0 alloc_widths p)); [by rewrite concat_cuts|].
  unfold ALLOCATION_WITNESS_LEN in Hl. f_equal. unfold alloc_fields, decode_alloc, outpoint_of.
  cbn -[slice field32 field64 field_u32 u64_le u32_le].
  rewrite !field32_list, !field64_list, !field_u32_list, <-Hc by (rewrite Hl; lia).
  cbn [cuts alloc_widths]. f_equal. destruct p; [done|]. reflexivity.
Qed.

(** What the circuits compare when they compare outpoints: bytes 1 to 41 of an
    allocation, the outpoint and the first four bytes of the covenant id. *)
Definition anchor_key (a : RgkAllocation) : KaspaOutpoint * list byte :=
  (outpoint_of a, take 4 (an_covenant_id (al_anchor a))).

Lemma alloc_key_slice a :
  slice (encode_native_allocation a) 1 41 =
    transaction_id (outpoint_of a) ++ u32_le (index (outpoint_of a)) ++
    take 4 (an_covenant_id (al_anchor a)).
Proof.
  rewrite <-(slices_cat _ 1 33 41), <-(slices_cat _ 33 37 41) by lia. 
  assert (E : slice (encode_native_allocation a) 37 41 = take 4 (slice (encode_native_allocation a) 37 69)).
  { unfold slice. by rewrite take_take. }
  rewrite E. by alloc_slices a.
Qed.

Lemma anchor_key_eq a b :
  slice (encode_native_allocation a) 1 41 = slice (encode_native_allocation b) 1 41 ↔
    anchor_key a = anchor_key b.
Proof.
  rewrite !alloc_key_slice. unfold anchor_key. destruct (outpoint_of a), (outpoint_of b). cbn. split.
  - intros E. peel_bytes E. subst. by rewrite E.
  - by intros [= -> -> ->].
Qed.

Lemma u32_le_inj (x y : u32) : u32_le x = u32_le y → x = y.
Proof. intros E. apply (f_equal (λ l, l ++ [])) in E. by apply u32_le_app_inj in E as [E _]. Qed.

Section allocations.
Context `{GadgetLaws}.
Implicit Types (st l : list UInt8) (ls ks : list (list UInt8)) (a b : RgkAllocation).

Lemma accepted_common l chain_value a c :
  vals l = encode_native_allocation a → u8_value chain_value = chain_as_u8 c →
  accepted (enforce_allocation_common_for_chain chain_value l) ↔ allocation_ok c a.
Proof.
  intros Hv Hc. assert (Hl : length l = 157%nat) by (rewrite <-vals_length, Hv; apply alloc_length).
  unfold enforce_allocation_common_for_chain. etransitivity.
  { repeat (eapply accepted_seq; [first [apply accepted_nonzero_slice; lia|apply accepted_enforce]|]).
    apply accepted_nonzero_slice. lia. }
  rewrite u8_enforce_equal_holds, byte_at_value, Hc, Hv. cbn [Nat.sub].
  assert (E0 : nth 0 (encode_native_allocation a) x00 = chain_as_u8 (an_chain (al_anchor a))) by done.
  assert (E1 : slice (encode_native_allocation a) 1 37 ≠ replicate 36 x00 ↔ outpoint_of a ≠ outpoint_NULL).
  { rewrite <-(slices_cat _ 1 33 37) by lia. alloc_slices a. apply not_iff_compat.
    change (replicate 36 x00) with (replicate 32 x00 ++ u32_le (wrap 32 0)). split.
    - intros E. apply app_inj_1 in E as [E1 E2]; [|by rewrite bytes_length].
      apply blist_zero_iff in E1. apply u32_le_inj in E2. destruct (outpoint_of a). cbn in *. by subst.
    - intros ->. done. }
  rewrite E0, E1. alloc_slices a. rewrite !blist_zero_iff, !u64_zero_iff.
  pose proof (uint_range (al_amount a)). pose proof (uint_range (an_confirmation_depth (al_anchor a))).
  split.
  - intros (Hch & ? & ? & ? & ? & ? & ?). constructor; try done; try lia.
    by destruct (an_chain (al_anchor a)), c.
  - intros [? <- ? ? ? ? ?]. split_and!; done || lia.
Qed.

Lemma common_is_allocation l chain_value c :
  length l = ALLOCATION_WITNESS_LEN → u8_value chain_value = chain_as_u8 c →
  accepted (enforce_allocation_common_for_chain chain_value l) → ∃ a, vals l = encode_native_allocation a.
Proof.
  intros Hl Hc. unfold enforce_allocation_common_for_chain.
  rewrite accepted_bind, accepted_enforce, u8_enforce_equal_holds, byte_at_value, Hc. intros [E _].
  eapply alloc_bytes; [by rewrite vals_length|done].
Qed.

(** Buffers that hold the allocations of a list. *)
Definition carries ls (xs : list RgkAllocation) : Prop :=
  Forall2 (λ l a, vals l = encode_native_allocation a) ls xs.

Lemma carries_length ls xs : carries ls xs → length ls = length xs.
Proof. apply Forall2_length. Qed.

Lemma carried_length l a : vals l = encode_native_allocation a → length l = 157%nat.
Proof. intros E. rewrite <-vals_length, E. apply alloc_length. Qed.

Lemma carries_concat ls xs : carries ls xs → vals (concat ls) = concat (encode_native_allocation <$> xs).
Proof.
  induction 1 as [|l a ls xs Hl Hr IH]; [done|]. cbn [concat fmap list_fmap].
  by rewrite vals_app, Hl, IH.
Qed.

(** A check of every buffer is a condition on every allocation. *)
Lemma carries_forall (f : list UInt8 → synth unit) (P : RgkAllocation → Prop) ls xs :
  (∀ l a, vals l = encode_native_allocation a → accepted (f l) ↔ P a) →
  carries ls xs → accepted (for_each f ls) ↔ Forall P xs.
Proof.
  intros Hf Hc. rewrite accepted_for_each.
  induction Hc as [|l a ls xs Hl Hr IH]; [by split|]. by rewrite !list.Forall_cons, IH, Hf.
Qed.

Definition created (a : RgkAllocation) : Prop :=
  transaction_id (outpoint_of a) = an_witness_txid (al_anchor a).

Lemma accepted_created l a : vals l = encode_native_allocation a →
  accepted (enforce_bytes_equal (slice l 1 33) (slice l 69 101)) ↔ created a.
Proof.
  intros Hv. unfold enforce_bytes_equal. rewrite accepted_bytes_equal, !vals_slice, Hv.
  alloc_slices a. apply (inj_iff blist).
Qed.

Lemma accepted_anchors_differ l k a b :
  vals l = encode_native_allocation a → vals k = encode_native_allocation b →
  accepted (enforce_bytes_differ (slice l 1 41) (slice k 1 41)) ↔ anchor_key a ≠ anchor_key b.
Proof.
  intros Ha Hb. pose proof (carried_length _ _ Ha). pose proof (carried_length _ _ Hb).
  rewrite accepted_differ_slices, Ha, Hb by lia. by rewrite anchor_key_eq.
Qed.

Lemma accepted_distinct ls xs : carries ls xs →
  accepted (enforce_distinct_outpoints ls) ↔ NoDup (anchor_key <$> xs).
Proof.
  induction 1 as [|l a ls xs Hl Hr IH]; cbn [enforce_distinct_outpoints fmap list_fmap].
  { rewrite accepted_ret. by split; [constructor|]. }
  rewrite accepted_bind, IH, NoDup_cons,
    (carries_forall _ (λ b, anchor_key a ≠ anchor_key b) ls xs); [|by intros; apply accepted_anchors_differ|done].
  rewrite list.Forall_forall. f_equiv. split.
  - intros Hf (b & E & Hb)%list_elem_of_fmap. by apply (Hf b).
  - intros Hf b Hb E. apply Hf, list_elem_of_fmap. by exists b.
Qed.

Lemma accepted_not_reused ls xs ks ys : carries ls xs → carries ks ys →
  accepted (enforce_spent_anchors_not_reused ls ks) ↔
    ∀ a b, a ∈ xs → b ∈ ys → anchor_key a ≠ anchor_key b.
Proof.
  intros Hx Hy. unfold enforce_spent_anchors_not_reused.
  rewrite (carries_forall _ (λ a, Forall (λ b, anchor_key a ≠ anchor_key b) ys) ls xs); [|clear ls Hx|done].
  - rewrite list.Forall_forall. setoid_rewrite list.Forall_forall.
    split; [intros Hf a b Ha; by apply Hf|intros Hf a Ha b Hb; by apply Hf].
  - intros l a Hl. apply carries_forall; [|done]. intros. by apply accepted_anchors_differ.
Qed.

(** * Supplies *)

Lemma carried_amount l a : vals l = encode_native_allocation a →
  fp_value (le_bytes_as_fr (slice l 117 125)) = fr_of (al_amount a).
Proof.
  intros E. rewrite (le_slice_value l 117), E. f_equal. unfold le_slice.
  change (117 + 8)%nat with 125%nat. alloc_slices a. unfold u64_le. rewrite le_val_le_bytes.
  apply Z.mod_small. exact (uint_range (al_amount a)).
Qed.

Lemma carried_supply ls xs : carries ls xs → fp_value (sum_allocation_amounts ls) = fr_of (supply xs).
Proof.
  intros Hc. unfold sum_allocation_amounts. destruct Hc as [|l a ls xs Hl Hc]; [apply fp_constant_value|].
  apply carried_amount in Hl. rewrite total_cons. revert Hl.
  generalize (le_bytes_as_fr (slice l 117 125)). generalize (uval (al_amount a)). clear l a.
  induction Hc as [|l a ls xs Hl Hc IH]; intros z v Hv; cbn [foldl].
  { change (supply []) with 0%Z. by rewrite Z.add_0_r. }
  rewrite total_cons, Z.add_assoc. apply IH. apply fp_add_value; [done|by apply carried_amount].
Qed.

Lemma supply_fits xs : count_fits (length xs) → (0 <= supply xs < 2 ^ 128)%Z.
Proof.
  unfold count_fits. intros Hn. split; [apply total_nonneg|].
  enough (supply xs <= Z.of_nat (length xs) * 2 ^ 64)%Z by nia. clear Hn.
  induction xs as [|a xs IH]; [done|]. rewrite total_cons. cbn [length].
  pose proof (uint_range (al_amount a)). lia.
Qed.

Lemma accepted_supply_delta st s ls xs ks ys :
  vals st = semantic_public_inputs s → carries ls xs → carries ks ys →
  count_fits (length xs) → count_fits (length ys) →
  accepted (enforce_allocation_supply_delta st ls ks) ↔
    uval (ss_spent_supply s) = supply xs ∧ uval (ss_new_supply s) = supply ys ∧
    (supply xs = supply ys + ss_burned_supply s)%Z.
Proof.
  intros Hv Hx Hy Hnx Hny. unfold enforce_allocation_supply_delta.
  destruct (semantic_supplies s) as (E1 & E2 & E3). rewrite <-Hv in E1, E2, E3.
  pose proof (carried_supply _ _ Hx) as Sx. pose proof (carried_supply _ _ Hy) as Sy.
  pose proof (supply_fits _ Hnx). pose proof (supply_fits _ Hny).
  pose proof (uint_range (ss_spent_supply s)). pose proof (uint_range (ss_new_supply s)).
  pose proof (uint_range (ss_burned_supply s)).
  rewrite !accepted_bind.
  rewrite (accepted_fp_equal _ _ (supply xs) (ss_spent_supply s)); [|done|by rewrite (le_slice_value st 456), E1|lia..].
  rewrite (accepted_fp_equal _ _ (supply ys) (ss_new_supply s)); [|done|by rewrite (le_slice_value st 464), E2|lia..].
  rewrite (accepted_fp_equal _ _ (supply xs) (supply ys + ss_burned_supply s));
    [|done|apply fp_add_value; [done|by rewrite (le_slice_value st 472), E3]|lia..].
  split; intros (? & ? & ?); split_and!; congruence.
Qed.

(** * Digests *)

Definition root_in_order (xs : list RgkAllocation) : Bytes32 :=
  asset_domain_hash "rgk:asset:allocation-root:v1"
    (u32_le (len_u32 xs) ++ concat (encode_native_allocation <$> xs)).

Definition state_with_root (s : SemanticTransitionStatement) (root owner : Bytes32) : Bytes32 :=
  asset_domain_hash "rgk:asset:state:v2"
    (ss_asset_id s ++ u64_le (ss_total_supply s) ++ root ++ ss_policy_commitment s ++
     ss_metadata_commitment s ++ owner ++ [privacy_as_u8 (ss_privacy_policy s)] ++ ss_lane_id s).

Definition shape_root_in_order (s : SemanticTransitionStatement) (ys : list RgkAllocation) : Bytes32 :=
  asset_domain_hash "rgk:continuation:shape-root:v1"
    ([chain_as_u8 (ss_chain_id s)] ++ u32_le (len_u32 ys) ++
     concat ((λ a, u32_le (index (outpoint_of a)) ++ an_covenant_id (al_anchor a) ++
                   u64_le (al_amount a) ++ al_encrypted_note_commitment a) <$> ys)).

(** The burn proof a statement declares. *)
Definition burn_proof_of (s : SemanticTransitionStatement) : option RgkBurnProof :=
  if decide (uval (ss_burned_supply s) = 0%Z) then None
  else Some {| bp_amount := ss_burned_supply s;
               bp_authorization_commitment := ss_burn_authorization_commitment s |}.

(** The fields both digests below end with. *)
Definition statement_tail (s : SemanticTransitionStatement) : list byte :=
  ss_lane_id s ++ [privacy_as_u8 (ss_privacy_policy s)] ++ ss_policy_commitment s ++
  ss_metadata_commitment s ++ ss_previous_owner_commitment s ++ ss_new_owner_commitment s ++
  ss_ownership_authorization_commitment s.

Definition commitment_with_roots (s : SemanticTransitionStatement) (spent_root shape_root : Bytes32)
    (burn : option RgkBurnProof) : Bytes32 :=
  asset_domain_hash "rgk:continuation:phase1:v2"
    ([chain_as_u8 (ss_chain_id s)] ++ ss_schema_id s ++ ss_asset_id s ++
     u64_le (ss_total_supply s) ++ ss_previous_state_digest s ++ spent_root ++ shape_root ++
     encode_burn_proof burn ++ statement_tail s).

Definition transition_in_order (s : SemanticTransitionStatement) (xs ys : list RgkAllocation)
    (burn : option RgkBurnProof) (txid : Bytes32) : Bytes32 :=
  asset_domain_hash "rgk:asset:transition:v2"
    ([chain_as_u8 (ss_chain_id s)] ++ ss_schema_id s ++ ss_asset_id s ++
     u64_le (ss_total_supply s) ++ ss_previous_state_digest s ++ ss_new_state_digest s ++
     txid ++ encode_burn_proof burn ++ statement_tail s ++
     u32_le (len_u32 xs) ++ concat ((λ a, [x69] ++ encode_native_allocation a) <$> xs) ++
     u32_le (len_u32 ys) ++ concat ((λ a, [x6f] ++ encode_native_allocation a) <$> ys)).

Lemma len_u32_eq {A B} (l : list A) (k : list B) : length l = length k → len_u32 l = len_u32 k.
Proof. unfold len_u32. by intros ->. Qed.

(** The bytes a payload is built from, one piece at a time. *)
Ltac payload st s Hv :=
  rewrite !digest_vals; unfold asset_domain_hash; f_equal;
  rewrite ?vals_app, ?vals_cons, ?vals_slice, ?byte_at_value, ?(vals_constant (G := _)), ?Hv,
    ?semantic_chain_byte, ?semantic_privacy_byte;
  change (vals (@nil UInt8)) with (@nil byte); semantic_slices s.

Definition burn_bytes (burn : option BurnDigestEncoding) : list byte :=
  match burn with
  | None => [x00]
  | Some q => [x01] ++ bd_amount q ++ bd_authorization_commitment q
  end.

Lemma burn_vals burn : vals (encode_burn_digest burn) = burn_bytes burn.
Proof.
  destruct burn as [q|]; unfold encode_burn_digest, burn_bytes;
    rewrite ?vals_app, !vals_cons, !u8_constant_value; [|done].
  by rewrite !vals_constant.
Qed.

Section digests.
Context st s (Hv : vals st = semantic_public_inputs s).

Lemma root_vals ls xs : carries ls xs → vals (allocation_root_digest ls) = root_in_order xs.
Proof using Type.
  intros Hc. unfold allocation_root_digest, root_in_order. rewrite digest_vals. unfold asset_domain_hash.
  by rewrite vals_app, vals_constant, (carries_concat _ _ Hc), (len_u32_eq _ _ (carries_length _ _ Hc)).
Qed.

Lemma state_vals rt ow (root owner : Bytes32) : vals rt = root → vals ow = owner →
  vals (state_digest st rt ow) = state_with_root s root owner.
Proof using Hv.
  intros Hr Ho. unfold state_digest, state_with_root. payload st s Hv. by rewrite Hr, Ho.
Qed.

Lemma burn_of_bytes : burn_bytes (burn_of s) = encode_burn_proof (burn_proof_of s).
Proof using Type. unfold burn_of, burn_proof_of. by case_decide. Qed.

Lemma shape_root_vals ls ys : carries ls ys →
  vals (continuation_shape_root_digest st ls) = shape_root_in_order s ys.
Proof using Hv.
  intros Hc. unfold continuation_shape_root_digest, shape_root_in_order. payload st s Hv.
  rewrite (len_u32_eq _ _ (carries_length _ _ Hc)). do 3 f_equal.
  induction Hc as [|l a ls ys Hl Hc IH]; [done|]. cbn [fmap list_fmap concat].
  rewrite !vals_app, IH, !vals_slice, Hl. by alloc_slices a.
Qed.

Lemma commitment_vals rt sh (root shape : Bytes32) burn :
  vals rt = root → vals sh = shape → burn_bytes burn = encode_burn_proof (burn_proof_of s) →
  vals (continuation_commitment_digest st rt sh burn) =
    commitment_with_roots s root shape (burn_proof_of s).
Proof using Hv.
  intros Hr Hs Hb. unfold continuation_commitment_digest, commitment_with_roots, statement_tail.
  payload st s Hv. by rewrite Hr, Hs, burn_vals, Hb.
Qed.

Lemma marked_vals ls xs (m : byte) : carries ls xs →
  vals (concat ((λ l, [u8_constant m] ++ l) <$> ls)) =
    concat ((λ a, [m] ++ encode_native_allocation a) <$> xs).
Proof using Type.
  induction 1 as [|l a ls xs Hl Hc IH]; [done|]. cbn [fmap list_fmap concat].
  by rewrite !vals_app, vals_cons, IH, Hl, u8_constant_value.
Qed.

(** Where the transaction id of the transition comes from: the first new
    allocation, or the terminal witness when there is none. *)
Definition txid_input ys (terminal : option (list UInt8)) (txid : Bytes32) : Prop :=
  match terminal with
  | None => an_witness_txid ∘ al_anchor <$> head ys = Some txid
  | Some w => ys = [] ∧ vals w = txid
  end.

Lemma txid_input_value ls ys terminal txid : carries ls ys → txid_input ys terminal txid →
  ∃ w, transition_witness_txid ls terminal = mret w ∧ vals w = txid.
Proof using Type.
  intros Hc Ht. unfold transition_witness_txid. destruct terminal as [w|].
  - destruct Ht as [-> Hw]. apply Forall2_nil_inv_r in Hc as ->. exists w. split; [|done].
    unfold unsat_if. rewrite decide_False; [done|]. rewrite <-vals_length, Hw, bytes_length. by intros [].
  - destruct Hc as [|l a ls ys Hl Hc]; [done|]. injection Ht as <-. eexists. split; [done|].
    rewrite vals_slice, Hl. by alloc_slices a.
Qed.

Lemma accepted_transition_digest ls ks xs ys burn terminal (txid : Bytes32) :
  carries ls xs → carries ks ys → txid_input ys terminal txid →
  burn_bytes burn = encode_burn_proof (burn_proof_of s) →
  accepted (digest ← transition_digest st ls ks burn terminal;
            enforce_bytes_equal digest (slice st 136 168)) ↔
    Forall (λ a, an_witness_txid (al_anchor a) = txid) ys ∧
    ss_transition_digest s = transition_in_order s xs ys (burn_proof_of s) txid.
Proof using Hv.
  intros Hx Hy Ht Hb. destruct (txid_input_value _ _ _ _ Hy Ht) as (w & E & Hw).
  unfold transition_digest. rewrite E. unfold accepted. rewrite !sat_bind, sat_ret, sat_bind, sat_unit, sat_ret.
  rewrite (carries_forall _ (λ a, an_witness_txid (al_anchor a) = txid) ks ys); [|intros l a Hl|done].
  - f_equiv. match goal with |- sat ?m _ ↔ _ => change (accepted m ↔ ss_transition_digest s = transition_in_order s xs ys (burn_proof_of s) txid) end.
    unfold enforce_bytes_equal. rewrite accepted_bytes_equal, vals_slice, Hv. semantic_slices s.
    transitivity (blist (transition_in_order s xs ys (burn_proof_of s) txid) = ss_transition_digest s);
      [|by split; [intros ->%(inj blist)|intros ->]].
    f_equiv. unfold transition_in_order, statement_tail. payload st s Hv.
    rewrite Hw, burn_vals, Hb, (len_u32_eq _ _ (carries_length _ _ Hx)),
      (len_u32_eq _ _ (carries_length _ _ Hy)).
    rewrite (marked_vals _ _ _ Hx), (marked_vals _ _ _ Hy). by rewrite <-!app_assoc.
  - unfold enforce_bytes_equal. rewrite accepted_bytes_equal, vals_slice, Hl, Hw. alloc_slices a.
    apply (inj_iff blist).
Qed.
End digests.

(** * The relation *)

(** What the constraints of a transition say of the statement and the
    allocations, in the order of the witness. *)
Record allocation_relation (s : SemanticTransitionStatement) (xs ys : list RgkAllocation)
    (txid : Bytes32) : Prop := {
  ar_spent_nonempty : xs ≠ [];
  ar_txid : txid ≠ zero32;
  ar_spent_count : ss_spent_allocation_count s = len_u64 xs;
  ar_new_count : ss_new_allocation_count s = len_u64 ys;
  ar_spent : Forall (allocation_ok (ss_chain_id s)) xs;
  ar_new : Forall (λ a, allocation_ok (ss_chain_id s) a ∧ created a) ys;
  ar_witness : Forall (λ a, an_witness_txid (al_anchor a) = txid) ys;
  ar_spent_distinct : NoDup (anchor_key <$> xs);
  ar_new_distinct : NoDup (anchor_key <$> ys);
  ar_fresh : ∀ a b, a ∈ xs → b ∈ ys → anchor_key a ≠ anchor_key b;
  ar_spent_supply : uval (ss_spent_supply s) = supply xs;
  ar_new_supply : uval (ss_new_supply s) = supply ys;
  ar_supply : (supply xs = supply ys + ss_burned_supply s)%Z;
  ar_previous : ss_previous_state_digest s =
    state_with_root s (root_in_order xs) (ss_previous_owner_commitment s);
  ar_next : ss_new_state_digest s =
    state_with_root s (root_in_order ys) (ss_new_owner_commitment s);
  ar_shape_root : ss_continuation_shape_root s = shape_root_in_order s ys;
  ar_commitment : ss_continuation_commitment s =
    commitment_with_roots s (root_in_order xs) (shape_root_in_order s ys) (burn_proof_of s);
  ar_transition : ss_transition_digest s = transition_in_order s xs ys (burn_proof_of s) txid
}.

Lemma nonempty_slices_ok ls xs : carries ls xs →
  accepted (validate_nonempty_allocation_slices ls) ↔ xs ≠ [].
Proof.
  intros Hc. unfold validate_nonempty_allocation_slices.
  rewrite accepted_bind, accepted_unsat_if, accepted_for_each. split.
  - intros [Hn _] ->. apply Forall2_nil_inv_r in Hc as ->. by apply Hn.
  - intros Hn. split; [intros ->; by apply Forall2_nil_inv_l in Hc|].
    induction Hc as [|l a ls' xs' Hl Hc' IH] in Hn |- *; constructor.
    + apply accepted_unsat_neq. by eapply carried_length.
    + destruct Hc' as [|l' a' ls' xs' Hl' Hc']; [constructor|by apply IH].
Qed.

Lemma accepted_count st lo (v : u64) {A} (l : list A) :
  slice (vals st) lo (lo + 8) = u64_le v →
  accepted (enforce_bytes_equal_const (slice st lo (lo + 8)) (u64_le (len_u64 l))) ↔ v = len_u64 l.
Proof.
  intros E. rewrite accepted_bytes_const, vals_slice, E. split; [apply u64_le_inj|by intros ->].
Qed.

(** The case analysis on the new allocations. *)
Definition terminal_check ks (burn : option BurnDigestEncoding) (terminal : option (list UInt8))
  : synth unit :=
  match ks with
  | [] =>
      match terminal with
      | None => Err Unsatisfiable
      | Some witness_txid =>
          _ ← unsat_if (length witness_txid ≠ 32 ∨ ¬ is_Some burn);
          enforce_nonzero_bytes witness_txid
      end
  | _ =>
      _ ← validate_nonempty_allocation_slices ks;
      unsat_if (is_Some terminal)
  end.

Lemma burn_of_some s : is_Some (burn_of s) ↔ uval (ss_burned_supply s) ≠ 0%Z.
Proof. unfold burn_of. case_decide; split; [by intros []|done|done|by eexists]. Qed.

Lemma terminal_check_ok ks ys s terminal (txid : Bytes32) :
  carries ks ys → txid_input ys terminal txid →
  accepted (terminal_check ks (burn_of s) terminal) ↔
    match terminal with Some _ => uval (ss_burned_supply s) ≠ 0%Z ∧ txid ≠ zero32 | None => True end.
Proof.
  intros Hc Ht. unfold terminal_check. pose proof (nonempty_slices_ok ks ys Hc) as Hn.
  destruct terminal as [w|].
  - destruct Ht as [-> Hw]. apply Forall2_nil_inv_r in Hc as ->.
    rewrite accepted_bind, accepted_unsat_if, accepted_nonzero, <-burn_of_some, Hw.
    rewrite <-vals_length, Hw, bytes_length, blist_zero_iff.
    destruct (decide (is_Some (burn_of s))); naive_solver.
  - destruct Hc as [|k b ks ys Hk Hc]; [done|].
    rewrite accepted_bind, Hn, accepted_unsat_if. split; [done|]. intros _. split; [done|]. by intros [].
Qed.

Lemma accepted_transition st s ls ks xs ys terminal (txid : Bytes32) :
  vals st = semantic_public_inputs s → carries ls xs → carries ks ys →
  count_fits (length xs) → count_fits (length ys) → txid_input ys terminal txid →
  accepted (enforce_allocation_transition st ls ks (burn_of s) terminal) ↔
    (ys = [] → uval (ss_burned_supply s) ≠ 0%Z) ∧ allocation_relation s xs ys txid.
Proof.
  intros Hv Hx Hy Hnx Hny Ht. pose proof (terminal_check_ok ks ys s terminal txid Hy Ht) as Hterm.
  assert (Hc4 : u8_value (byte_at st 4) = chain_as_u8 (ss_chain_id s))
    by by rewrite byte_at_value, Hv, semantic_chain_byte.
  unfold enforce_allocation_transition. cbv zeta.
  fold (terminal_check ks (burn_of s) terminal).
  etransitivity.
  { eapply accepted_seq; [apply accepted_unsat_neq|].
    eapply accepted_seq; [by apply nonempty_slices_ok|].
    eapply accepted_seq; [exact Hterm|].
    eapply accepted_seq; [apply (accepted_count st 432 (ss_spent_allocation_count s)); rewrite Hv;
      cbn [Nat.add]; by semantic_slices s|].
    eapply accepted_seq; [apply (accepted_count st 440 (ss_new_allocation_count s)); rewrite Hv;
      cbn [Nat.add]; by semantic_slices s|].
    eapply accepted_seq; [apply (carries_forall _ (allocation_ok (ss_chain_id s))
      _ xs); [intros l a Hl; by apply accepted_common|done]|].
    eapply accepted_seq; [apply (carries_forall _ (λ a, allocation_ok (ss_chain_id s) a ∧ created a)
      _ ys); [intros l a Hl; apply accepted_seq; [by apply accepted_common|by apply accepted_created]|done]|].
    eapply accepted_seq; [by apply accepted_distinct|].
    eapply accepted_seq; [by apply accepted_distinct|].
    eapply accepted_seq; [by apply accepted_not_reused|].
    eapply accepted_seq; [by apply accepted_supply_delta|].
    do 4 (eapply accepted_seq; [apply accepted_bytes_equal|]).
    apply accepted_transition_digest; try done. apply burn_of_bytes. }
  rewrite !vals_slice, Hv. semantic_slices s.
  rewrite (state_vals st s Hv _ _ (root_in_order xs) (ss_previous_owner_commitment s));
    [|by apply root_vals|rewrite vals_slice, Hv; by semantic_slices s].
  rewrite (state_vals st s Hv _ _ (root_in_order ys) (ss_new_owner_commitment s));
    [|by apply root_vals|rewrite vals_slice, Hv; by semantic_slices s].
  rewrite (shape_root_vals st s Hv ks ys Hy).
  rewrite (commitment_vals st s Hv _ _ (root_in_order xs) (shape_root_in_order s ys));
    [|by apply root_vals|by apply shape_root_vals|apply burn_of_bytes].
  rewrite !(inj_iff blist).
  assert (Hcx : len_u64 ls = len_u64 xs) by (unfold len_u64; by rewrite (carries_length _ _ Hx)).
  assert (Hcy : len_u64 ks = len_u64 ys) by (unfold len_u64; by rewrite (carries_length _ _ Hy)).
  rewrite Hcx, Hcy. split.
  - intros (? & ? & Hcase & ? & ? & ? & Hnew & ? & ? & ? & (? & ? & ?) & ? & ? & ? & ? & Hw & ?).
    assert (txid ≠ zero32 ∧ (ys = [] → uval (ss_burned_supply s) ≠ 0%Z)) as [? ?].
    { destruct terminal; [naive_solver|]. destruct ys as [|a ys]; [done|]. split; [|done].
      injection Ht as <-. apply list.Forall_cons in Hnew as [[[] _] _]. done. }
    split; [done|]. by constructor.
  - intros [Hb []]. split_and!; try done.
    + rewrite <-vals_length, Hv. apply semantic_public_length.
    + destruct terminal; [|done]. destruct Ht as [-> _]. by split; [apply Hb|].
Qed.

(** Buffers of the right length whose common fields are accepted hold
    allocations. *)
Lemma common_carries (f : list UInt8 → synth unit) ls :
  (∀ l, length l = ALLOCATION_WITNESS_LEN → accepted (f l) → ∃ a, vals l = encode_native_allocation a) →
  Forall (λ l, accepted (unsat_if (length l ≠ ALLOCATION_WITNESS_LEN))) ls →
  Forall (λ l, accepted (f l)) ls → ∃ xs, carries ls xs.
Proof.
  intros Hf Hl. induction Hl as [|l ls Hl _ IH]; intros Ha; [by exists []; constructor|].
  apply list.Forall_cons in Ha as [Hx Ha]. rewrite accepted_unsat_neq in Hl.
  destruct (Hf l Hl Hx) as [a E]. destruct (IH Ha) as [xs Hc]. exists (a :: xs). by constructor.
Qed.

Lemma transition_carries st s ls ks burn terminal :
  vals st = semantic_public_inputs s →
  accepted (enforce_allocation_transition st ls ks burn terminal) →
  ∃ xs ys txid, carries ls xs ∧ carries ks ys ∧ txid_input ys terminal txid.
Proof.
  intros Hv. assert (Hc4 : u8_value (byte_at st 4) = chain_as_u8 (ss_chain_id s))
    by by rewrite byte_at_value, Hv, semantic_chain_byte.
  unfold enforce_allocation_transition. cbv zeta. fold (terminal_check ks burn terminal).
  do 7 rewrite accepted_bind. unfold validate_nonempty_allocation_slices at 1.
  rewrite accepted_bind, !accepted_for_each.
  intros (_ & (_ & Hl) & Ht & _ & _ & Hs & Hn & _).
  destruct (common_carries (enforce_allocation_common st) ls) as [xs Hx]; [|done..|].
  { intros l Hl157. by eapply common_is_allocation. }
  exists xs. unfold terminal_check in Ht. destruct ks as [|k ks].
  - destruct terminal as [w|]; [|done]. rewrite accepted_bind, accepted_unsat_if in Ht.
    destruct Ht as [Hw _]. exists [], (to_array 32 (vals w)). split_and!; [done|by apply Forall2_nil|].
    split; [done|]. rewrite to_array_list; [done|]. rewrite vals_length. apply dec_stable. tauto.
  - rewrite accepted_bind, accepted_unsat_if in Ht. destruct Ht as [Ht Hnone].
    unfold validate_nonempty_allocation_slices in Ht. rewrite accepted_bind, accepted_for_each in Ht.
    destruct Ht as [_ Ht].
    destruct (common_carries (λ l, _ ← enforce_allocation_common st l;
      enforce_bytes_equal (slice l 1 33) (slice l 69 101)) (k :: ks)) as [ys Hy]; [|done..|].
    { intros l Hl157. rewrite accepted_bind. intros [? _]. by eapply common_is_allocation. }
    exists ys. destruct terminal; [by destruct Hnone; eexists|].
    inversion Hy as [|? b ? ys' Hb Hy' E1 E2]. subst. exists (an_witness_txid (al_anchor b)). by split_and!.
Qed.

(** * The circuits *)

(** A statement and allocations, as the bytes of a circuit. *)
Record circuit_accepts (p w : list byte) (spent new : list (list byte))
    (terminal : option Bytes32) (s : SemanticTransitionStatement) (xs ys : list RgkAllocation)
    (txid : Bytes32) : Prop := {
  ca_public : p = semantic_public_inputs s;
  ca_witness : w = semantic_public_inputs s;
  ca_spent : spent = encode_native_allocation <$> xs;
  ca_new : new = encode_native_allocation <$> ys;
  ca_layout : semantic_layout_ok s;
  ca_burn : burn_authorized s;
  ca_txid : match terminal with
            | None => an_witness_txid ∘ al_anchor <$> head ys = Some txid
            | Some t => ys = [] ∧ t = txid ∧ uval (ss_burned_supply s) ≠ 0%Z
            end;
  ca_relation : allocation_relation s xs ys txid
}.

Lemma carries_witness (ws : list (list byte)) xs :
  carries (witness_vec <$> ws) xs ↔ ws = encode_native_allocation <$> xs.
Proof.
  unfold carries. rewrite Forall2_fmap_l. split.
  - induction 1 as [|l a ls xs Hl Hc IH]; [done|].
    change (vals (witness_vec l) = encode_native_allocation a) in Hl.
    rewrite vals_witness in Hl. by subst.
  - intros ->. induction xs as [|a xs IH]; constructor; [apply vals_witness|done].
Qed.

Lemma accepted_allocation_statement (p w : list byte) (k : list UInt8 → synth unit) :
  accepted (allocation_statement p w ≫= k) ↔
    accepted (enforce_frs_equal (digest_bytes_as_frs (witness_vec w)) (public_inputs_as_vars p)) ∧
    accepted (enforce_semantic_layout (witness_vec w)) ∧ accepted (k (witness_vec w)).
Proof.
  unfold allocation_statement, accepted at 1. by rewrite sat_bind, sat_bind, sat_unit, sat_bind, sat_unit, sat_ret.
Qed.

Lemma accepted_circuit (p w : list byte) (spent new : list (list byte)) (terminal : option Bytes32) :
  length p = SEMANTIC_PUBLIC_INPUT_LEN → length w = SEMANTIC_PUBLIC_INPUT_LEN →
  count_fits (length spent) → count_fits (length new) →
  (∃ burn, burn_digest_encoding p = Ok burn ∧
     accepted (statement ← allocation_statement p w;
               enforce_allocation_transition statement (witness_vec <$> spent) (witness_vec <$> new)
                 burn (witness_vec ∘ blist <$> terminal))) ↔
  ∃ s xs ys txid, circuit_accepts p w spent new terminal s xs ys txid.
Proof.
  intros Hp Hw Hs Hn. setoid_rewrite accepted_allocation_statement.
  setoid_rewrite (accepted_statement_inputs p w Hp Hw). split.
  - intros (burn & Hb & -> & Hlay & Ht).
    destruct (layout_is_statement _ Hlay) as [s E]. rewrite vals_witness in E. subst p.
    rewrite accepted_semantic_layout in Hlay by apply vals_witness.
    apply burn_encoding_ok in Hb as [Hb ->].
    destruct (transition_carries _ s _ _ _ _ (vals_witness _) Ht) as (xs & ys & txid & Hx & Hy & Hin).
    assert (Hnx : count_fits (length xs)) by by rewrite <-(carries_length _ _ Hx), length_fmap.
    assert (Hny : count_fits (length ys)) by by rewrite <-(carries_length _ _ Hy), length_fmap.
    rewrite (accepted_transition _ s _ _ xs ys _ txid) in Ht; try done; [|apply vals_witness].
    destruct Ht as [Hnil Hrel]. exists s, xs, ys, txid. constructor; try done; try by apply carries_witness.
    destruct terminal as [t|]; [|done]. destruct Hin as [-> Hin].
    change (vals (witness_vec t) = txid) in Hin. rewrite vals_witness in Hin.
    apply (inj blist) in Hin. split_and!; [done|done|by apply Hnil].
  - intros (s & xs & ys & txid & [-> -> -> -> Hlay Hb Hin Hrel]). rewrite length_fmap in Hs, Hn.
    exists (burn_of s). rewrite burn_encoding_ok, accepted_semantic_layout by apply vals_witness.
    split_and!; try done.
    assert (Hin' : txid_input ys (witness_vec ∘ blist <$> terminal) txid).
    { destruct terminal as [t|]; [|done]. destruct Hin as (-> & -> & _). split; [done|]. apply vals_witness. }
    apply (accepted_transition _ s _ _ xs ys _ txid); try done; [apply vals_witness|by apply carries_witness..|].
    split; [|done]. intros ->. destruct terminal; [by destruct Hin as (_ & _ & ?)|done].
Qed.

Lemma some_len_differs_false (l : list (list byte)) :
  some_len_differs l ≠ true ↔ Forall (λ x, length x = ALLOCATION_WITNESS_LEN) l.
Proof.
  unfold some_len_differs. rewrite not_true_iff_false. induction l as [|x l IH]; [by split|].
  cbn [existsb]. rewrite orb_false_iff, IH, list.Forall_cons, bool_decide_eq_false.
  split; intros [Hx Hl]; (split; [|done]); [by apply dec_stable|by intros Hn].
Qed.

Lemma encoded_lengths (xs : list RgkAllocation) :
  Forall (λ x, length x = ALLOCATION_WITNESS_LEN) (encode_native_allocation <$> xs).
Proof. apply Forall_fmap, list.Forall_forall. intros a _. apply alloc_length. Qed.

(** Fact: The allocation-vector circuits, exactly: for a fixed shape, public inputs
    and witnesses satisfy the circuit iff they are the bytes of one statement and
    of allocations, all on the statement's chain and confirmed, the new ones
    created by the transaction they name; spent and new allocations differ in
    their anchors; the amounts sum to the statement's supplies, with nothing
    created beyond what was spent; and the statement's digests are those of the
    allocations in the order of the witness. *)
Theorem fixed_vector_circuit_iff SPENT NEW (c : FixedAllocationVectorCircuit SPENT NEW) :
  count_fits SPENT → count_fits NEW →
  is_satisfied (fixed_vector_generate_constraints c) = true ↔
    NEW ≠ 0%nat ∧
    ∃ s xs ys txid,
      circuit_accepts (ac_public_inputs c) (ac_statement_witness c)
        (fvw_spent_allocations (ac_allocation_witness c))
        (fvw_new_allocations (ac_allocation_witness c)) None s xs ys txid.
Proof.
  intros HS HN. destruct c as [p w [ws vs]]. cbn [ac_public_inputs ac_statement_witness
    ac_allocation_witness fvw_spent_allocations fvw_new_allocations].
  rewrite is_satisfied_iff. unfold fixed_vector_generate_constraints. cbv zeta.
  cbn [ac_public_inputs ac_statement_witness ac_allocation_witness fvw_spent_allocations fvw_new_allocations].
  rewrite accepted_bind, accepted_unsat_if, accepted_from_result. split.
  - intros [Hg Hb]. assert (NEW ≠ 0%nat) by tauto.
    assert (length p = SEMANTIC_PUBLIC_INPUT_LEN) by (apply dec_stable; tauto).
    assert (length w = SEMANTIC_PUBLIC_INPUT_LEN) by (apply dec_stable; tauto).
    split; [done|]. apply (accepted_circuit p w ws vs None); rewrite ?length_vec_to_list; done.
  - intros [Hne (s & xs & ys & txid & Ha)]. pose proof Ha as [-> -> Es Ey _ _ _ Hr].
    pose proof (semantic_public_length s) as Hlen. split.
    + rewrite Es, Ey. intros Hor. repeat destruct Hor as [Hor | Hor]; try done.
      * subst SPENT. apply (ar_spent_nonempty _ _ _ _ Hr). apply (f_equal length) in Es.
        rewrite length_vec_to_list, length_fmap in Es. by destruct xs.
      * by apply (some_len_differs_false _ ) in Hor; [|apply encoded_lengths].
      * by apply (some_len_differs_false _ ) in Hor; [|apply encoded_lengths].
    + apply (accepted_circuit _ _ ws vs None); rewrite ?length_vec_to_list; try done.
      by exists s, xs, ys, txid.
Qed.
End allocations.
