(* ===== verification/ZkTransition.v ===== *)
(** The allocation circuits against the native rules: which transitions have a
    satisfied circuit, what a satisfied circuit proves of a transition, and that
    the dedicated circuits are members of the fixed family. *)

From stdpp Require Import base list sorting strings vector gmap.
From Stdlib Require Import ZArith Lia Strings.Byte.
From S2P Require Import Prelude.
From S2P Require Import Bytes.
From S2P Require Import Encoding.
From S2P Require Import Types.
From S2P Require Import Commit.
From S2P Require Import AssetTypes.
From S2P Require Import AssetRules.
From S2P Require Import Asset.
From S2P Require Import AssetCorrect.
From S2P Require Import Zk.
From S2P Require Import ZkCorrect.
From S2P Require Import ZkGadgets.
From S2P Require Import ZkCircuits.
From S2P Require Import ZkCircuitsCorrect.
From S2P Require Import ZkAllocation.

Open Scope list_scope.

(** * The dedicated circuits *)

Section dedicated.
Context {G : Gadgets}.

Lemma unsat_if_iff (P Q : Prop) `{Decision P, Decision Q} : (P ↔ Q) → unsat_if P = unsat_if Q.
Proof. intros E. unfold unsat_if. do 2 case_decide; tauto || done. Qed.

Definition one_in_one_out_as_fixed (c : OneInOneOutAllocationCircuit)
  : FixedAllocationVectorCircuit 1 1 :=
  {| ac_public_inputs := ac_public_inputs c; ac_statement_witness := ac_statement_witness c;
     ac_allocation_witness := {|
       fvw_spent_allocations := [# oow_spent_allocation (ac_allocation_witness c)];
       fvw_new_allocations := [# oow_new_allocation (ac_allocation_witness c)] |} |}.

Definition two_in_two_out_as_fixed (c : TwoInTwoOutAllocationCircuit)
  : FixedAllocationVectorCircuit 2 2 :=
  {| ac_public_inputs := ac_public_inputs c; ac_statement_witness := ac_statement_witness c;
     ac_allocation_witness := {|
       fvw_spent_allocations := ttw_spent_allocations (ac_allocation_witness c);
       fvw_new_allocations := ttw_new_allocations (ac_allocation_witness c) |} |}.

Lemma some_len_differs_one (l : list byte) :
  some_len_differs [l] = true ↔ length l ≠ ALLOCATION_WITNESS_LEN.
Proof. unfold some_len_differs. cbn. by rewrite orb_false_r, bool_decide_eq_true. Qed.

(** Fact: The dedicated one-in/one-out and two-in/two-out circuits emit exactly the
    constraints of the fixed-arity family at shapes (1, 1) and (2, 2). *)
Theorem dedicated_circuits_are_fixed :
  (∀ c, one_in_one_out_generate_constraints c =
        fixed_vector_generate_constraints (one_in_one_out_as_fixed c)) ∧
  (∀ c, two_in_two_out_generate_constraints c =
        fixed_vector_generate_constraints (two_in_two_out_as_fixed c)).
Proof.
  split; intros [p w [spent new]]; unfold one_in_one_out_generate_constraints,
    two_in_two_out_generate_constraints, fixed_vector_generate_constraints; cbv zeta;
    cbn [ac_public_inputs ac_statement_witness ac_allocation_witness one_in_one_out_as_fixed
      two_in_two_out_as_fixed fvw_spent_allocations fvw_new_allocations oow_spent_allocation
      oow_new_allocation ttw_spent_allocations ttw_new_allocations].
  - f_equal. apply unsat_if_iff. cbn [vec_to_list]. rewrite !some_len_differs_one.
    assert (1 ≠ 0) by done. tauto.
  - inv_vec spent. intros s0 s1. inv_vec new. intros n0 n1. f_equal. apply unsat_if_iff. assert (2 ≠ 0) by done. tauto.
Qed.
End dedicated.

(** * Transitions as witnesses *)

(** The transition a statement and its allocations describe, under a policy. *)
Definition transition_of (s : SemanticTransitionStatement) (policy : RgkProofPolicy)
    (xs ys : list RgkAllocation) (txid : Bytes32) : RgkTransition := {|
  tr_chain := ss_chain_id s; tr_schema_id := ss_schema_id s; tr_asset_id := ss_asset_id s;
  tr_total_supply := ss_total_supply s; tr_metadata_commitment := ss_metadata_commitment s;
  tr_previous_owner_commitment := ss_previous_owner_commitment s;
  tr_new_owner_commitment := ss_new_owner_commitment s;
  tr_ownership_authorization_commitment := ss_ownership_authorization_commitment s;
  tr_previous_state_digest := ss_previous_state_digest s;
  tr_spent_allocations := xs; tr_new_allocations := ys; tr_burn := burn_proof_of s;
  tr_witness_txid := txid; tr_lane_id := ss_lane_id s; tr_privacy_policy := ss_privacy_policy s;
  tr_proof_policy := policy |}.

(** The plan a transition realises. *)
Definition plan_of (t : RgkTransition) : RgkContinuationPlan := {|
  cp_chain := tr_chain t; cp_schema_id := tr_schema_id t; cp_asset_id := tr_asset_id t;
  cp_total_supply := tr_total_supply t; cp_metadata_commitment := tr_metadata_commitment t;
  cp_previous_owner_commitment := tr_previous_owner_commitment t;
  cp_new_owner_commitment := tr_new_owner_commitment t;
  cp_ownership_authorization_commitment := tr_ownership_authorization_commitment t;
  cp_previous_state_digest := tr_previous_state_digest t;
  cp_spent_allocations := tr_spent_allocations t;
  cp_new_allocation_shapes := shape_of <$> tr_new_allocations t;
  cp_burn := tr_burn t; cp_lane_id := tr_lane_id t; cp_privacy_policy := tr_privacy_policy t;
  cp_proof_policy := tr_proof_policy t |}.

Lemma plan_of_finalize p w daa depth : plan_of (finalize_transition p w daa depth) = p.
Proof.
  unfold plan_of. rewrite (finalize_shapes p w daa depth). by destruct p.
Qed.

(** Lists in the order the native digests sort them. *)
Definition canonical (xs : list RgkAllocation) : Prop := sort_by_key allocation_key xs = xs.
Definition canonical_shapes (l : list RgkContinuationAllocationShape) : Prop :=
  sort_by_key shape_key l = l.

Section native.
Context `{GadgetLaws}.
Implicit Types (s : SemanticTransitionStatement) (t : RgkTransition) (xs ys : list RgkAllocation).

(** The statement of a transition and its plan. *)
Definition transition_statement t : SemanticTransitionStatement :=
  statement_of (transition_report_of t) (plan_report_of (plan_of t)).

Lemma encode_native_eq a : encode_native_allocation a = encode_allocation a.
Proof. done. Qed.

Lemma root_canonical xs : canonical xs → root_in_order xs = allocation_root xs.
Proof. intros E. unfold allocation_root. by rewrite E. Qed.

Lemma root_in_order_sorted xs : allocation_root xs = root_in_order (sort_by_key allocation_key xs).
Proof. done. Qed.

Lemma state_with_root_native s xs owner :
  state_with_root s (allocation_root xs) owner =
    state_digest_for_allocations {|
      sd_asset_id := ss_asset_id s; sd_total_supply := ss_total_supply s; sd_allocations := xs;
      sd_lane_id := ss_lane_id s; sd_privacy_policy := ss_privacy_policy s;
      sd_policy_commitment := ss_policy_commitment s;
      sd_metadata_commitment := ss_metadata_commitment s; sd_owner_commitment := owner |}.
Proof. done. Qed.

Lemma transition_in_order_native s policy xs ys txid :
  transition_in_order s xs ys (burn_proof_of s) txid =
    transition_digest_unchecked (transition_of s policy xs ys txid)
      (ss_new_state_digest s) (ss_policy_commitment s).
Proof.
  unfold transition_in_order, transition_digest_unchecked, statement_tail. cbn -[app].
  f_equal. by rewrite <-!app_assoc.
Qed.

Lemma shape_root_native s ys : canonical_shapes (shape_of <$> ys) →
  shape_root_in_order s ys = continuation_shape_root (ss_chain_id s) (shape_of <$> ys).
Proof.
  intros E. unfold continuation_shape_root. rewrite E. unfold shape_root_in_order. f_equal.
  rewrite (len_u32_eq (shape_of <$> ys) ys) by apply length_fmap. by rewrite <-list_fmap_compose.
Qed.

Lemma reports_agree_plan_of t :
  reports_agree (transition_report_of t) (plan_report_of (plan_of t)) = Ok ().
Proof.
  assert (Hs : shape_supply (shape_of <$> tr_new_allocations t) = supply (tr_new_allocations t))
    by by rewrite total_fmap.
  unfold reports_agree. cbn. rewrite Hs, length_fmap. by repeat (rewrite fail_if_false by naive_solver).
Qed.

(** Supplies of a validated transition fit their fields. *)
Lemma transition_supplies t : transition_ok t →
  uval (wrap 64 (supply (tr_spent_allocations t))) = supply (tr_spent_allocations t) ∧
  uval (wrap 64 (supply (tr_new_allocations t))) = supply (tr_new_allocations t) ∧
  uval (wrap 64 (burned (tr_burn t))) = burned (tr_burn t) ∧
  (supply (tr_spent_allocations t) = supply (tr_new_allocations t) + burned (tr_burn t))%Z.
Proof.
  intros Ht. pose proof (total_nonneg al_amount (tr_new_allocations t)) as H0'.
  pose proof (to_spent_bound _ Ht) as Hb.
  destruct (burned_range _ _ _ H0' Hb (to_supply _ Ht)) as [Hb1 Hb2].
  assert (E : (supply (tr_spent_allocations t) = supply (tr_new_allocations t) + burned (tr_burn t))%Z).
  { pose proof (to_supply _ Ht) as E. unfold burned, burn_accounts in *. destruct (tr_burn t); lia. }
  rewrite !uval_wrap_small by lia. done.
Qed.

Lemma burn_proof_of_transition t : transition_ok t →
  burn_proof_of (transition_statement t) = tr_burn t.
Proof.
  intros Ht. destruct (transition_supplies t Ht) as (_ & _ & E & _).
  pose proof (to_supply _ Ht) as Hs. unfold burn_proof_of, transition_statement.
  cbn -[wrap transition_digest_unchecked new_digest]. rewrite E.
  destruct (tr_burn t) as [q|]; cbn -[wrap] in *; [|by rewrite decide_True].
  rewrite decide_False by lia. f_equal. destruct q as [am au]. cbn -[wrap] in *. f_equal. apply wrap_uval.
Qed.

Lemma outpoints_keys_NoDup xs : NoDup (outpoint_of <$> xs) → NoDup (anchor_key <$> xs).
Proof. intros Hnd. apply (NoDup_fmap_1 fst). by rewrite <-list_fmap_compose. Qed.

(** The allocations of a validated transition, listed in canonical order, are in
    the circuits' relation with its statement. *)
Lemma transition_relation t :
  transition_ok t → canonical (tr_spent_allocations t) → canonical (tr_new_allocations t) →
  canonical_shapes (shape_of <$> tr_new_allocations t) →
  Forall created (tr_new_allocations t) →
  Forall (λ a, an_witness_txid (al_anchor a) = tr_witness_txid t) (tr_new_allocations t) →
  allocation_relation (transition_statement t) (tr_spent_allocations t) (tr_new_allocations t)
    (tr_witness_txid t).
Proof.
  intros Ht Hcs Hcn Hcsh Hcr Hw. destruct (transition_supplies t Ht) as (Es & En & Eb & E).
  pose proof (burn_proof_of_transition t Ht) as Hburn.
  assert (Hst : transition_of (transition_statement t) (tr_proof_policy t) (tr_spent_allocations t)
    (tr_new_allocations t) (tr_witness_txid t) = t).
  { unfold transition_of. rewrite Hburn. by destruct t. }
  constructor.
  - apply (to_nonempty _ Ht).
  - apply (to_witness _ Ht).
  - done.
  - done.
  - apply (to_spent _ Ht).
  - apply list.Forall_and. split; [apply (to_new _ Ht)|done].
  - done.
  - apply outpoints_keys_NoDup, (to_spent_distinct _ Ht).
  - apply outpoints_keys_NoDup, (to_new_distinct _ Ht).
  - intros a b Ha Hb [= Eo _]. apply (to_fresh _ Ht b Hb). rewrite <-Eo. by apply list_elem_of_fmap_2.
  - exact Es.
  - exact En.
  - rewrite E. f_equal. symmetry. exact Eb.
  - rewrite root_canonical, state_with_root_native by done. exact (to_old_digest _ Ht).
  - by rewrite root_canonical, state_with_root_native by done.
  - by rewrite shape_root_native.
  - rewrite root_canonical, shape_root_native by done. rewrite Hburn.
    unfold transition_statement. cbn -[plan_commitment_unchecked plan_of].
    unfold plan_commitment_unchecked, commitment_with_roots, statement_tail. cbn -[app]. done.
  - rewrite (transition_in_order_native _ (tr_proof_policy t)), Hst. done.
Qed.

(** * Complete: valid transitions have satisfied circuits *)

Lemma check_witness_lens_ok side (l : list (list byte)) :
  Forall (λ x, length x = ALLOCATION_WITNESS_LEN) l → check_witness_lens side l = Ok ().
Proof.
  unfold check_witness_lens. generalize 0%nat. induction l as [|x l IH]; intros i Hl; [done|].
  apply list.Forall_cons in Hl as [Hx Hl]. cbn [try_foldi]. rewrite fail_if_false by naive_solver.
  by apply IH.
Qed.

(** Shapes listed by output index are in canonical order, and so are the
    allocations of one transaction that realise them. *)
Definition by_output (l : list RgkContinuationAllocationShape) : Prop :=
  StronglySorted (λ a b, sh_output_index a < sh_output_index b)%Z l.

Lemma sorted_by_key {A K} `{OrdLaws K} (key : A → K) l :
  StronglySorted (λ x y, cmp (key x) (key y) = Lt) l → sort_by_key key l = l.
Proof.
  induction 1 as [|x l Hl IH Hx]; [done|]. cbn [sort_by_key foldr]. fold (sort_by_key key l).
  rewrite IH. destruct Hx as [|y l Hxy Hx]; [done|]. cbn [insert_by_key]. by rewrite Hxy.
Qed.

Lemma prod_cmp_lt {A B} `{Ord A, Ord B} (p q : A * B) : cmp p.1 q.1 = Lt → cmp p q = Lt.
Proof. intros E. unfold cmp, prod_ord. by rewrite E. Qed.

Lemma by_output_shapes l : by_output l → canonical_shapes l.
Proof.
  intros Hl. apply sorted_by_key. unfold by_output in Hl.
  induction Hl as [|x l Hl IH Hx]; constructor; [done|]. eapply Forall_impl; [exact Hx|].
  intros y Hxy%Z.compare_lt_iff. apply prod_cmp_lt, prod_cmp_lt, prod_cmp_lt. exact Hxy.
Qed.

Lemma by_output_finalized p w daa depth l :
  by_output l → canonical (finalize_allocation p w daa depth <$> l).
Proof.
  intros Hl. apply sorted_by_key. unfold by_output in Hl.
  induction Hl as [|x l Hl IH Hx]; constructor; [done|]. apply Forall_fmap.
  eapply Forall_impl; [exact Hx|]. intros y Hxy%Z.compare_lt_iff.
  do 4 apply prod_cmp_lt. cbn [fst allocation_key]. unfold cmp, KaspaOutpoint_ord. cbn.
  unfold cmp, prod_ord. cbn. by rewrite cmp_refl.
Qed.

Lemma vmap_list {A B n} (f : A → B) (v : vec A n) : vec_to_list (vmap f v) = f <$> vec_to_list v.
Proof. apply vec_to_list_map. Qed.

Lemma fixed_circuit_of {SPENT NEW} s (spent : vec RgkAllocation SPENT) (new : vec RgkAllocation NEW) :
  SPENT ≠ 0%nat → NEW ≠ 0%nat →
  ∃ wit c, fixed_vector_from_allocations spent new = Ok wit ∧ fixed_vector_circuit s wit = Ok c ∧
    ac_public_inputs c = semantic_public_inputs s ∧
    ac_statement_witness c = semantic_public_inputs s ∧
    vec_to_list (fvw_spent_allocations (ac_allocation_witness c)) = encode_native_allocation <$> vec_to_list spent ∧
    vec_to_list (fvw_new_allocations (ac_allocation_witness c)) = encode_native_allocation <$> vec_to_list new.
Proof.
  intros Hs Hn. do 2 eexists. unfold fixed_vector_from_allocations, fixed_vector_witness.
  rewrite fail_if_false, !check_witness_lens_ok by (tauto || (rewrite vmap_list; apply encoded_lengths)).
  split; [done|]. unfold fixed_vector_circuit, allocation_circuit.
  rewrite !fail_if_false by (tauto || (rewrite semantic_public_length; intros Hne; by apply Hne)).
  split; [done|]. cbn. by rewrite !vmap_list.
Qed.

(** C11: Completeness of the allocation circuits: when a plan is finalised and its
    statement validates, and its spent allocations are listed in canonical order
    and its shapes by output index, the witness built from the allocations
    satisfies the circuit of their shape. *)
Theorem plan_circuit_complete {SPENT NEW} p rp w (daa depth : u64) f
    (spent : vec RgkAllocation SPENT) (new : vec RgkAllocation NEW) :
  plan_validate p = Ok rp → plan_finalize p w daa depth = Ok f →
  semantic_validate (statement_of (fc_transition_report f) rp) = Ok () →
  vec_to_list spent = cp_spent_allocations p →
  vec_to_list new = tr_new_allocations (fc_transition f) →
  canonical (cp_spent_allocations p) → by_output (cp_new_allocation_shapes p) →
  count_fits SPENT → count_fits NEW → NEW ≠ 0%nat →
  ∃ wit c, fixed_vector_from_allocations spent new = Ok wit ∧
    fixed_vector_circuit (statement_of (fc_transition_report f) rp) wit = Ok c ∧
    is_satisfied (fixed_vector_generate_constraints c) = true.
Proof.
  intros [Hp ->]%plan_validate_ok (_ & Ht & ->)%plan_finalize_ok. cbn [fc_transition_report fc_transition].
  set (t := finalize_transition p w daa depth) in *. intros Hv Hs Hn Hcs Hby HS HN HN0.
  assert (Hplan : plan_of t = p) by apply plan_of_finalize.
  assert (Hst : statement_of (transition_report_of t) (plan_report_of p) = transition_statement t)
    by (unfold transition_statement; by rewrite Hplan).
  rewrite Hst in *. apply semantic_validate_ok in Hv as [Hlay _ Hb].
  assert (HS0 : SPENT ≠ 0%nat).
  { intros ->. apply (po_nonempty _ Hp). rewrite <-Hs. by inv_vec spent. }
  destruct (fixed_circuit_of (transition_statement t) spent new HS0 HN0) as (wit & c & Hw & Hc & Ep & Es & Ew & En).
  exists wit, c. split_and!; [done..|]. apply fixed_vector_circuit_iff; [done..|]. split; [done|].
  exists (transition_statement t), (tr_spent_allocations t), (tr_new_allocations t), w.
  constructor; try done; [by rewrite Ew, Hs|by rewrite En, Hn|..].
  - rewrite <-Hn. destruct new as [|a ? new]; [done|]. cbn in Hn. symmetry in Hn.
    cbn. destruct (cp_new_allocation_shapes p); cbn in Hn; [done|]. by injection Hn as <- _.
  - apply (transition_relation t); try done.
    + by apply by_output_finalized.
    + unfold t. rewrite finalize_shapes. by apply by_output_shapes.
    + apply Forall_fmap, Forall_true. done.
    + apply Forall_fmap, Forall_true. done.
Qed.

(** * Terminal burns *)

(** Fact: The terminal-burn circuit, exactly: it is satisfied iff its bytes are one
    statement and one allocation in the relation with no new allocation and the
    witness's own transaction id, and the statement declares a burn. *)
Theorem one_in_zero_out_circuit_iff (c : OneInZeroOutAllocationCircuit) :
  is_satisfied (one_in_zero_out_generate_constraints c) = true ↔
    ∃ s a, circuit_accepts (ac_public_inputs c) (ac_statement_witness c)
      [zow_spent_allocation (ac_allocation_witness c)] []
      (Some (zow_transition_witness_txid (ac_allocation_witness c))) s [a] []
      (zow_transition_witness_txid (ac_allocation_witness c)).
Proof.
  destruct c as [p w [spent txid]]. rewrite is_satisfied_iff.
  unfold one_in_zero_out_generate_constraints. cbv zeta.
  cbn [ac_public_inputs ac_statement_witness ac_allocation_witness zow_spent_allocation
    zow_transition_witness_txid].
  rewrite accepted_bind, accepted_unsat_if, accepted_from_result.
  assert (Hfit : count_fits 1 ∧ count_fits 0) by (by split). destruct Hfit as [H1 H0'].
  assert (Hcirc := λ Hp Hw, accepted_circuit p w [spent] [] (Some txid) Hp Hw H1 H0').
  setoid_rewrite accepted_allocation_statement in Hcirc. cbn [fmap list_fmap option_fmap option_map] in Hcirc.
  split.
  - intros (Hl & burn & Hb & Hk).
    rewrite accepted_bind, accepted_unsat_if, accepted_allocation_statement, accepted_bind in Hk.
    destruct Hk as (Hsome & Hf & Hlay & Hnz & Ht).
    assert (Hp : length p = SEMANTIC_PUBLIC_INPUT_LEN) by (apply dec_stable; tauto).
    assert (Hw : length w = SEMANTIC_PUBLIC_INPUT_LEN) by (apply dec_stable; tauto).
    destruct (proj1 (Hcirc Hp Hw)) as (s & xs & ys & txid' & Ha); [by exists burn|].
    pose proof Ha as [_ _ Es _ _ _ (-> & <- & _) _].
    destruct xs as [|a [|]]; try done. by exists s, a.
  - intros (s & a & Ha). pose proof Ha as [-> -> Es _ _ Hb (_ & _ & Hne) Hr].
    pose proof (semantic_public_length s) as Hlen.
    assert (spent = encode_native_allocation a) as -> by (by injection Es).
    split; [rewrite alloc_length; tauto|].
    destruct (proj2 (Hcirc Hlen Hlen)) as (burn & Hburn & Hf & Hlay & Ht); [by exists s, [a], [], txid|].
    exists burn. pose proof Hburn as [_ ->]%burn_encoding_ok. split; [done|].
    rewrite accepted_bind, accepted_unsat_if, accepted_allocation_statement, accepted_bind.
    split_and!; [|done|done| |done].
    + rewrite burn_of_some. tauto.
    + rewrite accepted_nonzero, vals_witness. unfold witness_vec. rewrite length_fmap, bytes_length.
      rewrite blist_zero_iff. apply (ar_txid _ _ _ _ Hr).
Qed.

(** Fact: burning a whole one-allocation state has a satisfied circuit: the
    witness built from the spent allocation and the burn's transaction. *)
Theorem terminal_burn_complete p rp w (daa depth : u64) f a :
  plan_validate p = Ok rp → plan_finalize p w daa depth = Ok f →
  semantic_validate (statement_of (fc_transition_report f) rp) = Ok () →
  cp_spent_allocations p = [a] → cp_new_allocation_shapes p = [] →
  ∃ wit c, one_in_zero_out_from_allocation a w = Ok wit ∧
    allocation_circuit (statement_of (fc_transition_report f) rp) wit = Ok c ∧
    is_satisfied (one_in_zero_out_generate_constraints c) = true.
Proof.
  intros [Hp ->]%plan_validate_ok (_ & Ht & ->)%plan_finalize_ok. cbn [fc_transition_report].
  set (t := finalize_transition p w daa depth) in *. intros Hv Hs Hn.
  assert (Hplan : plan_of t = p) by apply plan_of_finalize.
  assert (Hst : statement_of (transition_report_of t) (plan_report_of p) = transition_statement t)
    by (unfold transition_statement; by rewrite Hplan).
  rewrite Hst in *. apply semantic_validate_ok in Hv as [Hlay _ Hb].
  assert (Hnew : tr_new_allocations t = []) by (unfold t; cbn; by rewrite Hn).
  assert (Hsp : tr_spent_allocations t = [a]) by done.
  pose proof (to_witness _ Ht) as Hw0. change (w ≠ zero32) in Hw0.
  exists {| zow_spent_allocation := encode_native_allocation a; zow_transition_witness_txid := w |}.
  eexists. split; [|split].
  - unfold one_in_zero_out_from_allocation, one_in_zero_out_witness.
    rewrite !fail_if_false; [done|by rewrite alloc_length; intros Hx; apply Hx|].
    rewrite all_zero_iff, bytes_length, blist_zero_iff. done.
  - unfold allocation_circuit. rewrite fail_if_false; [done|].
    rewrite semantic_public_length. intros Hx. by apply Hx.
  - apply one_in_zero_out_circuit_iff. exists (transition_statement t), a. constructor; try done.
    + split_and!; [done..|]. intros E0.
      pose proof (po_shapes_nonempty _ Hp Hn) as Hne. pose proof (burn_proof_of_transition t Ht) as Eb.
      unfold burn_proof_of in Eb. by rewrite decide_True in Eb by done.
    + pose proof (transition_relation t Ht) as Hr. rewrite Hsp, Hnew in Hr. by apply Hr; try constructor.
Qed.

(** * Sound: a satisfied circuit proves a valid transition *)

(** The allocations of a circuit, without two of one outpoint. *)
Definition outpoints_distinct xs ys : Prop := NoDup (outpoint_of <$> xs ++ ys).

Lemma burn_proof_accounts s : semantic_layout_ok s → burn_authorized s →
  burn_accounts (ss_spent_supply s) (ss_new_supply s) (burn_proof_of s).
Proof.
  intros Hl Hb. pose proof (so_accounted _ Hl) as E. unfold burn_proof_of, burn_accounts.
  unfold burn_authorized in Hb. pose proof (uint_range (ss_burned_supply s)).
  case_decide; cbn; [lia|]. split_and!; [lia|done|tauto].
Qed.

Lemma related_transition_ok s policy xs ys txid :
  semantic_layout_ok s → burn_authorized s → allocation_relation s xs ys txid →
  policy_digest policy = ss_policy_commitment s → proof_policy_validate policy = Ok () →
  canonical xs → canonical ys → outpoints_distinct xs ys →
  transition_ok (transition_of s policy xs ys txid).
Proof.
  intros Hl Hb Hr Hpol Hval Hcx Hcy Hnd. pose proof (burn_proof_accounts s Hl Hb) as Hacc.
  pose proof (uint_range (ss_spent_supply s)) as Hrange. destruct Hl, Hr.
  unfold outpoints_distinct in Hnd. rewrite fmap_app in Hnd. apply NoDup_app in Hnd as (Hndx & Hfr & Hndy).
  assert (Hd : ∀ zs owner, canonical zs →
    transition_state_digest (transition_of s policy xs ys txid) zs (policy_digest policy) owner =
      state_with_root s (root_in_order zs) owner).
  { intros zs owner Hz. rewrite root_canonical by done. rewrite state_with_root_native, Hpol. done. }
  constructor; cbn -[burn_proof_of]; try done.
  - rewrite <-ar_spent_supply. apply Hrange.
  - eapply Forall_impl; [exact ar_new|]. by intros a [? _].
  - by rewrite <-ar_spent_supply, <-ar_new_supply.
  - unfold old_digest. cbn [transition_of tr_spent_allocations tr_proof_policy tr_previous_owner_commitment].
    by rewrite Hd.
  - unfold new_digest. cbn [transition_of tr_new_allocations tr_proof_policy tr_new_owner_commitment].
    rewrite Hd, <-ar_next by done. done.
  - intros a Ha Hin. apply (Hfr _ Hin). by apply list_elem_of_fmap_2.
Qed.

(** ... and the statement is the transition's. *)
Lemma related_statement s policy xs ys txid :
  semantic_layout_ok s → burn_authorized s → allocation_relation s xs ys txid →
  policy_digest policy = ss_policy_commitment s →
  canonical xs → canonical ys → canonical_shapes (shape_of <$> ys) →
  transition_statement (transition_of s policy xs ys txid) = s.
Proof.
  intros Hl Hb Hr Hpol Hcx Hcy Hcs.
  assert (Hw : ∀ (v : u64) z, uval v = z → wrap 64 z = v) by (intros v z <-; apply wrap_uval).
  assert (Hburn : wrap 64 (burned (burn_proof_of s)) = ss_burned_supply s).
  { apply Hw. unfold burn_proof_of. by case_decide. }
  assert (Hauth : burn_authorization_commitment (burn_proof_of s) = ss_burn_authorization_commitment s).
  { unfold burn_proof_of. unfold burn_authorized in Hb. case_decide; [|done]. symmetry. by apply Hb. }
  assert (Hnd : new_digest (transition_of s policy xs ys txid) = ss_new_state_digest s).
  { rewrite (ar_next _ _ _ _ Hr), root_canonical, state_with_root_native, <-Hpol by done. done. }
  unfold transition_statement, statement_of. cbn -[new_digest wrap burn_proof_of plan_of
    continuation_shape_root plan_commitment_unchecked transition_digest_unchecked usize_of].
  rewrite Hnd, Hburn, Hauth, (Hw _ _ (ar_spent_supply _ _ _ _ Hr)), (Hw _ _ (ar_new_supply _ _ _ _ Hr)),
    Hpol, <-(transition_in_order_native s policy xs ys txid), <-(ar_transition _ _ _ _ Hr).
  cbn -[new_digest wrap burn_proof_of continuation_shape_root plan_commitment_unchecked usize_of].
  rewrite <-(shape_root_native s ys Hcs).
  assert (Hcm : plan_commitment_unchecked (plan_of (transition_of s policy xs ys txid))
      (policy_digest policy) (shape_root_in_order s ys) = ss_continuation_commitment s).
  { rewrite (ar_commitment _ _ _ _ Hr), root_canonical, Hpol by done. done. }
  rewrite Hcm, <-(ar_shape_root _ _ _ _ Hr).
  change (usize_of (length xs)) with (len_u64 xs). change (usize_of (length ys)) with (len_u64 ys).
  rewrite <-(ar_spent_count _ _ _ _ Hr), <-(ar_new_count _ _ _ _ Hr). by destruct s.
Qed.

(** C5: Soundness of the allocation circuits: whoever satisfies the circuit of a
    shape knows a statement and allocations such that, for every valid policy
    whose digest is the policy commitment of the statement, if the allocations are
    listed in canonical order, the new ones also as shapes, and no two of them
    share an outpoint, they form a transition that [validate] accepts with the
    state and transition digests of the statement.  Its reports make exactly that
    statement provided it spends at most the total supply; the circuit does not
    compare the two, where [from_reports] does. *)
Theorem satisfied_circuit_is_transition SPENT NEW (c : FixedAllocationVectorCircuit SPENT NEW) :
  count_fits SPENT → count_fits NEW →
  is_satisfied (fixed_vector_generate_constraints c) = true →
  ∃ s xs ys txid,
    ac_public_inputs c = semantic_public_inputs s ∧
    vec_to_list (fvw_spent_allocations (ac_allocation_witness c)) = encode_native_allocation <$> xs ∧
    vec_to_list (fvw_new_allocations (ac_allocation_witness c)) = encode_native_allocation <$> ys ∧
    ∀ policy,
      policy_digest policy = ss_policy_commitment s → proof_policy_validate policy = Ok () →
      canonical xs → canonical ys → canonical_shapes (shape_of <$> ys) → outpoints_distinct xs ys →
      let t := transition_of s policy xs ys txid in
      ∃ r, transition_validate t = Ok r ∧ tr_new_allocations t = ys ∧
        trr_transition_digest r = ss_transition_digest s ∧
        trr_new_state_digest r = ss_new_state_digest s ∧
        ((ss_spent_supply s <= ss_total_supply s)%Z →
         from_reports r (plan_report_of (plan_of t)) = Ok s).
Proof.
  intros HS HN [_ (s & xs & ys & txid & Ha)]%fixed_vector_circuit_iff; [|done..].
  exists s, xs, ys, txid. destruct Ha as [Ep _ Ex Ey Hl Hb _ Hr]. split_and!; [done..|].
  intros policy Hpol Hval Hcx Hcy Hcs Hnd t.
  assert (Hstat : transition_statement t = s) by by apply related_statement.
  exists (transition_report_of t). split_and!.
  - apply transition_validate_ok. split; [by apply related_transition_ok|done].
  - done.
  - by rewrite <-Hstat.
  - by rewrite <-Hstat.
  - intros Hle. apply from_reports_ok. split_and!; [apply reports_agree_plan_of| | |done|by constructor].
    + unfold count_fits in *. apply (f_equal length) in Ex. rewrite length_vec_to_list, length_fmap in Ex.
      cbn. by rewrite <-Ex.
    + unfold count_fits in *. apply (f_equal length) in Ey. rewrite length_vec_to_list, length_fmap in Ey.
      cbn. by rewrite <-Ey.
Qed.

(** The messages of digests over allocations as they are listed. *)
Definition listed_message xs : list byte := ltac:(message_of (root_in_order xs)).
Definition listed_state_message (s : SemanticTransitionStatement) xs (owner : Bytes32) : list byte :=
  ltac:(message_of (state_with_root s (root_in_order xs) owner)).

Lemma root_in_order_binds xs ys :
  root_in_order xs = root_in_order ys → xs = ys ∨ collision [listed_message xs; listed_message ys].
Proof.
  intros E. apply asset_hash_binds in E as [[_ E]|]; [left|by right|done..].
  apply u32_le_app_inj in E as [_ E].
  by apply (concat_fixed_inj encode_allocation 156) in E;
    [|apply encode_allocation_length|apply encode_allocation_inj].
Qed.

(** What the circuit and the native digest of a state hash for its allocations. *)
Definition order_messages (s : SemanticTransitionStatement) xs (owner : Bytes32) : list (list byte) :=
  let sorted := sort_by_key allocation_key xs in
  [listed_state_message s xs owner; listed_message xs;
   listed_state_message s sorted owner; listed_message sorted].
#[local] Hint Unfold order_messages : messages.

(** A state whose digest is also the native one lists its allocations in
    canonical order. *)
Lemma state_in_order_canonical s xs owner :
  state_with_root s (root_in_order xs) owner = state_with_root s (allocation_root xs) owner →
  canonical xs ∨ collision (order_messages s xs owner).
Proof.
  intros E. rewrite root_in_order_sorted in E. apply asset_hash_binds in E as [[_ E]|]; [|by_messages|done..].
  peel_bytes E. apply root_in_order_binds in Ef1 as [Ef1|]; [by left|by_messages].
Qed.

Definition witness_of_messages (t : RgkTransition) xs ys (txid : Bytes32) : list (list byte) :=
  let s := transition_statement t in
  [transition_message t (new_digest t) (policy_digest (tr_proof_policy t));
   transition_message (transition_of s (tr_proof_policy t) xs ys txid) (ss_new_state_digest s)
     (ss_policy_commitment s)] ++
  order_messages s xs (ss_previous_owner_commitment s) ++
  order_messages s ys (ss_new_owner_commitment s).
#[local] Hint Unfold witness_of_messages : messages.

(** Fact: A circuit for the statement of a given transition is satisfied by that
    transition's allocations only, in the order the transition lists them, and
    only when that order is the canonical one: a valid transition that lists its
    allocations otherwise has no satisfying witness.  (Otherwise two of the
    messages collide that are hashed for the digest of the transition, for the one
    the witness [xs] and [ys] gives, and for its states with and without
    sorting.) *)
Theorem circuit_witness_is_transition SPENT NEW (c : FixedAllocationVectorCircuit SPENT NEW) t r :
  (Z.of_nat SPENT < 2 ^ 32)%Z → count_fits NEW →
  transition_validate t = Ok r → (Z.of_nat (length (tr_spent_allocations t)) < 2 ^ 32)%Z →
  ac_public_inputs c = semantic_public_inputs (statement_of r (plan_report_of (plan_of t))) →
  is_satisfied (fixed_vector_generate_constraints c) = true →
  ∃ xs ys txid,
    vec_to_list (fvw_spent_allocations (ac_allocation_witness c)) = encode_native_allocation <$> xs ∧
    vec_to_list (fvw_new_allocations (ac_allocation_witness c)) = encode_native_allocation <$> ys ∧
    ((xs = tr_spent_allocations t ∧ ys = tr_new_allocations t ∧
      Forall (λ a, created a ∧ an_witness_txid (al_anchor a) = tr_witness_txid t) ys ∧
      canonical xs ∧ canonical ys) ∨ collision (witness_of_messages t xs ys txid)).
Proof.
  intros HS HN [Ht ->]%transition_validate_ok Hlen Ep Hsat.
  change (statement_of _ _) with (transition_statement t) in Ep.
  apply fixed_vector_circuit_iff in Hsat as [_ (s & xs & ys & txid & Ha)];
    [|unfold count_fits; lia|done].
  pose proof Ha as [Ep' _ Ex Ey Hl Hb _ Hr]. rewrite Ep in Ep'. apply (inj semantic_public_inputs) in Ep'.
  assert (Hlx : length xs = SPENT) by (by rewrite <-(length_fmap encode_native_allocation), <-Ex, length_vec_to_list).
  pose proof (ar_transition _ _ _ _ Hr) as Ed.
  rewrite (transition_in_order_native s (tr_proof_policy t)), <-Ep' in Ed.
  change (ss_transition_digest (transition_statement t)) with
    (transition_digest_unchecked t (new_digest t) (policy_digest (tr_proof_policy t))) in Ed.
  subst s. exists xs, ys, txid. split; [done|]. split; [done|].
  apply transition_digest_binds in Ed as [(Eq & _ & _)|]; [|by_messages|done|cbn; lia].
  specialize (Eq eq_refl).
  assert (tr_spent_allocations t = xs) as Exs by (by rewrite Eq).
  assert (tr_new_allocations t = ys) as Eys by (by rewrite Eq).
  assert (tr_witness_txid t = txid) as Ew by (by rewrite Eq).
  set (s := transition_statement t) in *.
  assert (Hold : ss_previous_state_digest s =
    state_with_root s (allocation_root xs) (ss_previous_owner_commitment s)).
  { rewrite <-Exs. exact (to_old_digest _ Ht). }
  assert (Hnew : ss_new_state_digest s =
    state_with_root s (allocation_root ys) (ss_new_owner_commitment s)) by (by rewrite <-Eys).
  rewrite (ar_previous _ _ _ _ Hr) in Hold. rewrite (ar_next _ _ _ _ Hr) in Hnew.
  apply state_in_order_canonical in Hold as [Hcx|];
    [|right; eapply collides_mono; [|eassumption]; unfold witness_of_messages; fold s; solve_messages].
  apply state_in_order_canonical in Hnew as [Hcy|];
    [|right; eapply collides_mono; [|eassumption]; unfold witness_of_messages; fold s; solve_messages].
  left. split; [done|]. split; [done|]. rewrite Ew. split_and!; [|done|done].
  apply list.Forall_and. split; [|apply (ar_witness _ _ _ _ Hr)].
  eapply Forall_impl; [apply (ar_new _ _ _ _ Hr)|]. by intros a [_ ?].
Qed.

(** * Outpoints are not all a circuit compares *)

(** A statement around given digests: one asset, no change of owner, no burn. *)
Definition plain_statement (c : KaspaChainId) xs ys (previous next transition commitment shape : Bytes32)
  : SemanticTransitionStatement := {|
  ss_chain_id := c; ss_schema_id := fill 32 x01; ss_asset_id := fill 32 x01;
  ss_previous_state_digest := previous; ss_new_state_digest := next;
  ss_transition_digest := transition; ss_continuation_commitment := commitment;
  ss_continuation_shape_root := shape; ss_lane_id := fill 32 x01;
  ss_privacy_policy := PublicLineage; ss_policy_commitment := fill 32 x01;
  ss_metadata_commitment := fill 32 x01; ss_previous_owner_commitment := fill 32 x01;
  ss_new_owner_commitment := fill 32 x01; ss_ownership_authorization_commitment := zero32;
  ss_total_supply := wrap 64 (supply xs); ss_spent_allocation_count := len_u64 xs;
  ss_new_allocation_count := len_u64 ys; ss_spent_supply := wrap 64 (supply xs);
  ss_new_supply := wrap 64 (supply ys); ss_burned_supply := wrap 64 0;
  ss_burn_authorization_commitment := zero32 |}.

(** ... and the one whose digests are those of its allocations. *)
Definition consistent_statement (c : KaspaChainId) xs ys (txid : Bytes32) : SemanticTransitionStatement :=
  let s0 := plain_statement c xs ys zero32 zero32 zero32 zero32 zero32 in
  let previous := state_with_root s0 (root_in_order xs) (fill 32 x01) in
  let next := state_with_root s0 (root_in_order ys) (fill 32 x01) in
  let shape := shape_root_in_order s0 ys in
  let s1 := plain_statement c xs ys previous next zero32 zero32 shape in
  plain_statement c xs ys previous next (transition_in_order s1 xs ys None txid)
    (commitment_with_roots s1 (root_in_order xs) shape None) shape.

Record listed (c : KaspaChainId) xs ys (txid : Bytes32) : Prop := {
  li_spent : xs ≠ [];
  li_spent_ok : Forall (allocation_ok c) xs;
  li_new_ok : Forall (λ a, allocation_ok c a ∧ created a) ys;
  li_witness : Forall (λ a, an_witness_txid (al_anchor a) = txid) ys;
  li_txid : txid ≠ zero32;
  li_spent_keys : NoDup (anchor_key <$> xs);
  li_new_keys : NoDup (anchor_key <$> ys);
  li_fresh : ∀ a b, a ∈ xs → b ∈ ys → anchor_key a ≠ anchor_key b;
  li_bound : (0 < supply xs < 2 ^ 64)%Z;
  li_supply : supply ys = supply xs;
  li_counts : count_fits (length xs) ∧ count_fits (length ys)
}.

Lemma consistent_statement_relation c xs ys txid :
  listed c xs ys txid → allocation_relation (consistent_statement c xs ys txid) xs ys txid.
Proof.
  intros []. assert (Es : uval (wrap 64 (supply xs)) = supply xs) by (apply uval_wrap_small; lia).
  constructor; try done.
  - change (uval (wrap 64 (supply ys)) = supply ys). by rewrite li_supply0.
  - rewrite li_supply0. change (supply xs = supply xs + 0)%Z. lia.
Qed.

(** The messages whose digests that statement holds, and those of its two roots. *)
Definition consistent_messages (c : KaspaChainId) xs ys (txid : Bytes32) : list (list byte) :=
  [ltac:(message_of (ss_previous_state_digest (consistent_statement c xs ys txid)));
   ltac:(message_of (ss_new_state_digest (consistent_statement c xs ys txid)));
   ltac:(message_of (ss_transition_digest (consistent_statement c xs ys txid)));
   ltac:(message_of (ss_continuation_commitment (consistent_statement c xs ys txid)));
   ltac:(message_of (ss_continuation_shape_root (consistent_statement c xs ys txid)));
   listed_message xs; listed_message ys].

Lemma consistent_statement_valid c xs ys txid :
  let ms := consistent_messages c xs ys txid in
  listed c xs ys txid → xs ≠ ys →
  semantic_ok (consistent_statement c xs ys txid) ∨ zero_digest ms ∨ collision ms.
Proof.
  intros ms [] Hne. set (s := consistent_statement c xs ys txid).
  destruct (decide (ss_previous_state_digest s = ss_new_state_digest s)) as [E|Hmove].
  { right. right. unfold ms, consistent_messages. apply asset_hash_binds in E as [[_ E]|]; [|by_messages|done..].
    peel_bytes E. apply root_in_order_binds in Ef1 as [|]; [done|by_messages]. }
  assert (ss_previous_state_digest s ≠ zero32 ∨ zero_digest ms) as [|]
    by (unfold ms, consistent_messages; nonzero_digest); [|by right; left].
  assert (ss_new_state_digest s ≠ zero32 ∨ zero_digest ms) as [|]
    by (unfold ms, consistent_messages; nonzero_digest); [|by right; left].
  assert (ss_transition_digest s ≠ zero32 ∨ zero_digest ms) as [|]
    by (unfold ms, consistent_messages; nonzero_digest); [|by right; left].
  assert (ss_continuation_commitment s ≠ zero32 ∨ zero_digest ms) as [|]
    by (unfold ms, consistent_messages; nonzero_digest); [|by right; left].
  assert (ss_continuation_shape_root s ≠ zero32 ∨ zero_digest ms) as [|]
    by (unfold ms, consistent_messages; nonzero_digest); [|by right; left].
  assert (Es : uval (wrap 64 (supply xs)) = supply xs) by (apply uval_wrap_small; lia).
  assert (En : uval (wrap 64 (supply ys)) = supply xs) by by rewrite li_supply0.
  destruct li_counts0 as [Hcx Hcy]. unfold count_fits in Hcx, Hcy.
  assert (Hx : (0 < len_u64 xs)%Z).
  { unfold len_u64. rewrite uval_wrap_small by lia. destruct xs; [done|]. cbn. lia. }
  assert (Hy : (0 < len_u64 ys)%Z).
  { unfold len_u64. rewrite uval_wrap_small by lia. destruct ys; [|cbn; lia].
    change (supply []) with 0%Z in li_supply0. lia. }
  left. constructor; [constructor| |]; try done; cbn -[wrap len_u64]; rewrite ?Es, ?En; try lia.
  - by left.
  - change (uval (wrap 64 0)) with 0%Z. lia.
Qed.

(** The allocation that names the same outpoint under another covenant. *)
Definition twin (a : RgkAllocation) (covenant_id : Bytes32) : RgkAllocation := {|
  al_anchor := {|
    an_chain := an_chain (al_anchor a); an_covenant_outpoint := outpoint_of a;
    an_covenant_id := covenant_id; an_witness_txid := an_witness_txid (al_anchor a);
    an_daa_score := an_daa_score (al_anchor a);
    an_confirmation_depth := an_confirmation_depth (al_anchor a) |};
  al_amount := al_amount a; al_encrypted_note_commitment := al_encrypted_note_commitment a |}.

Lemma duplicate_refused c a b :
  allocation_ok c a → allocation_ok c b → outpoint_of a = outpoint_of b →
  validate_allocation_set_structure c [a; b] = Err (AE_DuplicateAnchorOutpoint 1).
Proof.
  intros Ha Hb E. unfold validate_allocation_set_structure, validate_allocation_set_structure_allow_empty.
  rewrite fail_if_false by done. cbn [try_foldi mbind result_bind].
  assert (E1 : check_allocation c 0 (∅, wrap 64 0) a = Ok ({[ outpoint_of a ]} ∪ ∅, al_amount a)).
  { apply check_allocation_ok. split_and!; [done|apply not_elem_of_empty|done|].
    change (uval (wrap 64 0)) with 0%Z. lia. }
  rewrite E1. cbn [mbind result_bind]. unfold check_allocation. destruct Hb.
  rewrite !(fail_if_false (_ = _)) by (rewrite ?is_zero32_spec; done || lia).
  rewrite (fail_if_false (_ ≠ _)) by (by intros Hn). cbn [mbind result_bind].
  rewrite fail_if_true; [done|]. change (an_covenant_outpoint (al_anchor b)) with (outpoint_of b).
  rewrite <-E. set_solver.
Qed.

(** C35: The circuits do not hold outpoints apart: they compare bytes 1 to 41 of
    an allocation, four more than the outpoint has.  One outpoint spent twice,
    under covenant ids that differ in their first four bytes, counts twice: a
    valid statement exists whose circuit is satisfied with the new supply twice
    the outpoint's amount, where [validate_allocation_set_structure] refuses the
    two as a duplicate.  (Otherwise, of the seven messages whose digests that
    statement holds or builds on, one has the digest zero or two have the same.) *)
Theorem circuit_spends_outpoint_twice NEW c a covenant_id (new : vec RgkAllocation NEW) txid :
  allocation_ok c a → covenant_id ≠ zero32 →
  take 4 covenant_id ≠ take 4 (an_covenant_id (al_anchor a)) → (2 * al_amount a < 2 ^ 64)%Z →
  Forall (λ b, allocation_ok c b ∧ created b ∧ an_witness_txid (al_anchor b) = txid) new →
  NoDup (anchor_key <$> vec_to_list new) → txid ≠ transaction_id (outpoint_of a) →
  supply new = (2 * al_amount a)%Z → count_fits NEW →
  let ms := consistent_messages c [a; twin a covenant_id] new txid in
  (validate_allocation_set_structure c [a; twin a covenant_id] = Err (AE_DuplicateAnchorOutpoint 1) ∧
   ∃ s wit circuit,
     fixed_vector_from_allocations [# a; twin a covenant_id] new = Ok wit ∧
     fixed_vector_circuit s wit = Ok circuit ∧ semantic_validate s = Ok () ∧
     is_satisfied (fixed_vector_generate_constraints circuit) = true) ∨ zero_digest ms ∨ collision ms.
Proof.
  intros Ha Hcov Hkey Hamt Hnew Hnd Htx Hsup HN ms.
  assert (Htw : allocation_ok c (twin a covenant_id)) by (by destruct Ha).
  assert (Hsum : supply [a; twin a covenant_id] = (2 * al_amount a)%Z).
  { rewrite !total_cons. change (supply []) with 0%Z. cbn. lia. }
  pose proof (ao_amount _ _ Ha) as Hpos.
  assert (Hne : vec_to_list new ≠ []).
  { intros E. rewrite E in Hsup. change (supply []) with 0%Z in Hsup. lia. }
  assert (Hl : listed c [a; twin a covenant_id] new txid).
  { constructor; try done.
    - apply list.Forall_cons. split; [done|]. by apply list.Forall_singleton.
    - eapply Forall_impl; [exact Hnew|]. by intros b (? & ? & _).
    - eapply Forall_impl; [exact Hnew|]. by intros b (_ & _ & ?).
    - destruct (vec_to_list new) as [|b l]; [done|]. apply list.Forall_cons in Hnew as [([] & _ & <-) _]. done.
    - cbn. apply NoDup_cons. split; [|apply NoDup_singleton]. rewrite list_elem_of_singleton.
      by intros [= E].
    - intros x b Hx Hb [= Eo _]. rewrite list.Forall_forall in Hnew. destruct (Hnew b Hb) as (_ & Hcr & <-).
      apply Htx. rewrite <-Hcr, <-Eo. by apply elem_of_cons in Hx as [-> | ->%list_elem_of_singleton].
    - rewrite Hsum. lia.
    - by rewrite Hsum.
    - by rewrite length_vec_to_list. }
  destruct (consistent_statement_valid _ _ _ _ Hl) as [Hok|]; [intros E| |by right].
  { rewrite <-E in Hnew. apply list.Forall_cons in Hnew as [(_ & Hcr & Hw) _].
    apply Htx. by rewrite <-Hw, <-Hcr. }
  left. split; [by apply duplicate_refused|].
  set (s := consistent_statement c [a; twin a covenant_id] new txid) in *.
  assert (HN0 : NEW ≠ 0%nat) by (intros ->; apply Hne; by inv_vec new).
  destruct (fixed_circuit_of s [# a; twin a covenant_id] new ltac:(done) HN0)
    as (wit & circ & Hw & Hc & Ep & Es & Ew & En).
  exists s, wit, circ. split_and!; [done|done|by apply semantic_validate_ok|].
  apply fixed_vector_circuit_iff; [done..|]. split; [done|].
  exists s, [a; twin a covenant_id], new, txid. destruct Hok. constructor; try done.
  - destruct (vec_to_list new) as [|b l]; [done|]. by apply list.Forall_cons in Hnew as [(_ & _ & <-) _].
  - by apply consistent_statement_relation.
Qed.
End native.
