(* ===== verification/ZkLane.v ===== *)
(** The receipt circuit and the private-lane circuits of
    src/crates/rgk-zk/src/real_zk.rs: statements, witnesses and constraints. *)

From stdpp Require Import base list strings vector.
From Stdlib Require Import ZArith Lia Strings.Byte.
From S2P Require Import Prelude.
From S2P Require Import Bytes.
From S2P Require Import Encoding.
From S2P Require Import Types.
From S2P Require Import Commit.
From S2P Require Import AssetTypes.
From S2P Require Import AssetRules.
From S2P Require Import Lane.
From S2P Require Import Zk.
From S2P Require Import ZkGadgets.
From S2P Require Import ZkCircuits.

Open Scope string_scope.
Open Scope list_scope.

(** * Receipts *)

Definition PUBLIC_INPUT_LEN : nat := ZK_STATEMENT_LEN.

Record ReceiptBodyOffsets := {
  ro_covenant : nat;
  ro_old_state : nat;
  ro_new_state : nat;
  ro_transition : nat;
  ro_continuation : nat
}.

(** [usize] is 64 bits wide: neither [checked_add] overflows after a [u32]. *)
Definition receipt_body_offsets (body : list byte) : result SynthesisError ReceiptBodyOffsets :=
  _ ← fail_if (length body < 4)%nat Unsatisfiable;
  let domain_len := Z.to_nat (le_val (slice body 0 4)) in
  let covenant := (4 + domain_len)%nat in
  let required := (covenant + 192)%nat in
  _ ← fail_if (length body ≠ required) Unsatisfiable;
  Ok {| ro_covenant := covenant;
        ro_old_state := covenant + 32;
        ro_new_state := covenant + 64;
        ro_transition := covenant + 96;
        ro_continuation := covenant + 128 |}.

Definition receipt_domain_prefix : list byte :=
  u32_le (wrap 32 (Z.of_nat (length (as_bytes "rgk:receipt")))) ++ as_bytes "rgk:receipt".

Record ReceiptCircuit := {
  rcc_public_inputs : list byte;
  rcc_witness : list byte
}.

Definition receipt_circuit (receipt : RgkReceipt) (receipt_id : Bytes32) : ReceiptCircuit :=
  let tag := wrap 32 (byte_Z chain_TAG) in
  let val := wrap 32 (byte_Z (chain_as_u8 (rc_chain_id receipt))) in
  {| rcc_public_inputs :=
       sc_state_digest (rc_old_state receipt) ++
       sc_state_digest (rc_new_state receipt) ++
       sc_asset_id (rc_old_state receipt) ++
       rc_covenant_id receipt ++
       u32_le tag ++
       u32_le val ++
       receipt_id ++
       rc_transition_digest receipt ++
       rc_continuation_commitment receipt;
     rcc_witness := receipt_encode_body receipt |}.

(** * Lanes *)

Record LaneDiscoveryStatement := {
  ld_lane_id : Bytes32;
  ld_scan_tag : Bytes32;
  ld_epoch : u64
}.

#[export] Instance LaneDiscoveryStatement_eq_dec : EqDecision LaneDiscoveryStatement.
Proof. solve_decision. Defined.

Definition LANE_DISCOVERY_PUBLIC_INPUT_LEN : nat := 72.
Definition LANE_GRAPH_DISCOVERY_ROOT_LEN : nat := 32.
Definition LANE_GRAPH_SEGMENT_PREFIX_LEN : nat := 72.

Record LaneDiscoveryWitness := {
  lw_view_key : Bytes32;
  lw_asset_id : Bytes32
}.

Definition lane_public_inputs (self : LaneDiscoveryStatement) : list byte :=
  ld_lane_id self ++ ld_scan_tag self ++ u64_le (ld_epoch self).

(** [native_nodes_from] *)
Definition native_nodes_from {LANES} (nodes : vec LaneDiscoveryStatement LANES)
  : vec RgkLaneGraphNode LANES :=
  vmap (λ node, {| gn_lane_id := ld_lane_id node; gn_scan_tag := ld_scan_tag node;
                   gn_epoch := ld_epoch node |}) nodes.

Record LaneGraphDiscoveryStatement (LANES : nat) := {
  lg_graph_root : Bytes32;
  lg_nodes : vec LaneDiscoveryStatement LANES
}.
Arguments lg_graph_root {LANES}.
Arguments lg_nodes {LANES}.

Record LaneGraphSegmentStatement (LANES : nat) := {
  lgs_previous_root : Bytes32;
  lgs_next_root : Bytes32;
  lgs_segment_index : u64;
  lgs_nodes : vec LaneDiscoveryStatement LANES
}.
Arguments lgs_previous_root {LANES}.
Arguments lgs_next_root {LANES}.
Arguments lgs_segment_index {LANES}.
Arguments lgs_nodes {LANES}.

Definition lane_graph_public_inputs {LANES} (self : LaneGraphDiscoveryStatement LANES) : list byte :=
  lg_graph_root self ++ concat (lane_public_inputs <$> vec_to_list (lg_nodes self)).

Definition lane_segment_public_inputs {LANES} (self : LaneGraphSegmentStatement LANES) : list byte :=
  lgs_previous_root self ++ lgs_next_root self ++ u64_le (lgs_segment_index self) ++
  concat (lane_public_inputs <$> vec_to_list (lgs_nodes self)).

(** The three lane circuits hold the same data. *)
Record LaneCircuit := {
  lc_public_inputs : list byte;
  lc_witness : LaneDiscoveryWitness
}.

Definition lane_graph_discovery_public_input_len (lanes : nat) : nat :=
  LANE_GRAPH_DISCOVERY_ROOT_LEN + lanes * LANE_DISCOVERY_PUBLIC_INPUT_LEN.
Definition lane_graph_segment_public_input_len (lanes : nat) : nat :=
  LANE_GRAPH_SEGMENT_PREFIX_LEN + lanes * LANE_DISCOVERY_PUBLIC_INPUT_LEN.

Section statements.
Context `{Sha256}.

Definition lane_from_private (view_key asset_id : Bytes32) (epoch : u64) : LaneDiscoveryStatement :=
  let lane_id := derive_blinded_lane_id view_key asset_id epoch in
  let scan_tag := derive_scan_tag view_key lane_id epoch in
  {| ld_lane_id := lane_id; ld_scan_tag := scan_tag; ld_epoch := epoch |}.

Definition lane_matches_witness (self : LaneDiscoveryStatement) (witness : LaneDiscoveryWitness)
  : bool :=
  bool_decide (self = lane_from_private (lw_view_key witness) (lw_asset_id witness) (ld_epoch self)).

Definition lane_circuit (statement : LaneDiscoveryStatement) (witness : LaneDiscoveryWitness)
  : sresult LaneCircuit :=
  _ ← fail_if (lane_matches_witness statement witness = false)
        "lane discovery witness does not derive the public lane id and scan tag";
  Ok {| lc_public_inputs := lane_public_inputs statement; lc_witness := witness |}.

Definition lane_graph_from_private {LANES} (view_key asset_id : Bytes32) (epochs : vec u64 LANES)
  : LaneGraphDiscoveryStatement LANES :=
  let nodes := vmap (lane_from_private view_key asset_id) epochs in
  let native_nodes := native_nodes_from nodes in
  {| lg_graph_root := derive_private_lane_graph_root native_nodes; lg_nodes := nodes |}.

Definition lane_graph_matches_witness {LANES} (self : LaneGraphDiscoveryStatement LANES)
    (witness : LaneDiscoveryWitness) : bool :=
  if decide (LANES = 0) then false
  else
    let native_nodes := native_nodes_from (lg_nodes self) in
    bool_decide (lg_graph_root self = derive_private_lane_graph_root native_nodes) &&
    forallb (λ node, lane_matches_witness node witness) (lg_nodes self).

Definition lane_graph_circuit {LANES} (statement : LaneGraphDiscoveryStatement LANES)
    (witness : LaneDiscoveryWitness) : sresult LaneCircuit :=
  _ ← fail_if (LANES = 0) "lane graph discovery requires at least one lane node";
  _ ← fail_if (lane_graph_matches_witness statement witness = false)
        "lane graph discovery witness does not derive the public graph nodes and root";
  Ok {| lc_public_inputs := lane_graph_public_inputs statement; lc_witness := witness |}.

Definition lane_segment_from_private {LANES} (view_key asset_id previous_root : Bytes32)
    (segment_index : u64) (epochs : vec u64 LANES) : LaneGraphSegmentStatement LANES :=
  let nodes := vmap (lane_from_private view_key asset_id) epochs in
  let native_nodes := native_nodes_from nodes in
  {| lgs_previous_root := previous_root;
     lgs_next_root := extend_private_lane_graph_root previous_root segment_index native_nodes;
     lgs_segment_index := segment_index;
     lgs_nodes := nodes |}.

Definition lane_segment_matches_witness {LANES} (self : LaneGraphSegmentStatement LANES)
    (witness : LaneDiscoveryWitness) : bool :=
  if decide (LANES = 0) then false
  else
    let native_nodes := native_nodes_from (lgs_nodes self) in
    bool_decide (lgs_next_root self =
      extend_private_lane_graph_root (lgs_previous_root self) (lgs_segment_index self) native_nodes) &&
    forallb (λ node, lane_matches_witness node witness) (lgs_nodes self).

Definition lane_segment_circuit {LANES} (statement : LaneGraphSegmentStatement LANES)
    (witness : LaneDiscoveryWitness) : sresult LaneCircuit :=
  _ ← fail_if (LANES = 0) "lane graph segment requires at least one lane node";
  _ ← fail_if (lane_segment_matches_witness statement witness = false)
        "lane graph segment witness does not derive the public segment nodes and root";
  Ok {| lc_public_inputs := lane_segment_public_inputs statement; lc_witness := witness |}.
End statements.

(** * Constraints *)

Section constraints.
Context {G : Gadgets}.

Definition receipt_generate_constraints (self : ReceiptCircuit) : synth unit :=
  _ ← unsat_if (length (rcc_public_inputs self) ≠ PUBLIC_INPUT_LEN);
  let public_frs := public_inputs_as_vars (rcc_public_inputs self) in
  let witness := witness_vec (rcc_witness self) in
  let preimage := constant_vec receipt_domain_prefix ++ witness in
  let computed_digest := Sha256Gadget_digest preimage in
  let computed_frs := digest_bytes_as_frs computed_digest in
  _ ← enforce_frs_equal computed_frs (slice public_frs 17 21);
  offsets ← from_result (receipt_body_offsets (rcc_witness self));
  _ ← enforce_bytes_equal_public_frs
        (slice witness (ro_old_state offsets) (ro_old_state offsets + 32)) (slice public_frs 0 4);
  _ ← enforce_bytes_equal_public_frs
        (slice witness (ro_new_state offsets) (ro_new_state offsets + 32)) (slice public_frs 4 8);
  _ ← enforce_bytes_equal_public_frs
        (slice witness (ro_covenant offsets) (ro_covenant offsets + 32)) (slice public_frs 12 16);
  _ ← enforce_bytes_equal_public_frs
        (slice witness (ro_transition offsets) (ro_transition offsets + 32)) (slice public_frs 21 25);
  enforce_bytes_equal_public_frs
    (slice witness (ro_continuation offsets) (ro_continuation offsets + 32)) (slice public_frs 25 29).

Definition enforce_lane_discovery_node_layout (public : list UInt8) : synth unit :=
  _ ← unsat_if (length public ≠ LANE_DISCOVERY_PUBLIC_INPUT_LEN);
  _ ← enforce_nonzero_bytes (slice public 0 32);
  enforce_nonzero_bytes (slice public 32 64).

Definition enforce_lane_discovery_public_layout (public : list UInt8) : synth unit :=
  _ ← unsat_if (length public ≠ LANE_DISCOVERY_PUBLIC_INPUT_LEN);
  enforce_lane_discovery_node_layout public.

(** The loops over [node_index in 0..LANES], at offset
    [prefix + node_index * LANE_DISCOVERY_PUBLIC_INPUT_LEN]. *)
Definition node_offsets (prefix lanes : nat) : list nat :=
  (λ node_index, prefix + node_index * LANE_DISCOVERY_PUBLIC_INPUT_LEN)%nat <$> seq 0 lanes.

Definition enforce_lane_graph_discovery_public_layout (LANES : nat) (public : list UInt8)
  : synth unit :=
  _ ← unsat_if (LANES = 0 ∨ length public ≠ lane_graph_discovery_public_input_len LANES);
  _ ← enforce_nonzero_bytes (slice public 0 LANE_GRAPH_DISCOVERY_ROOT_LEN);
  for_each (λ offset, enforce_lane_discovery_node_layout
      (slice public offset (offset + LANE_DISCOVERY_PUBLIC_INPUT_LEN)))
    (node_offsets LANE_GRAPH_DISCOVERY_ROOT_LEN LANES).

Definition enforce_lane_graph_segment_public_layout (LANES : nat) (public : list UInt8)
  : synth unit :=
  _ ← unsat_if (LANES = 0 ∨ length public ≠ lane_graph_segment_public_input_len LANES);
  _ ← enforce_nonzero_bytes (slice public 0 32);
  _ ← enforce_nonzero_bytes (slice public 32 64);
  _ ← enforce_bytes_differ (slice public 0 32) (slice public 32 64);
  for_each (λ offset, enforce_lane_discovery_node_layout
      (slice public offset (offset + LANE_DISCOVERY_PUBLIC_INPUT_LEN)))
    (node_offsets LANE_GRAPH_SEGMENT_PREFIX_LEN LANES).

(** The two derivations of a node from the hidden key and asset. *)
Definition enforce_node_derivation (view_key asset_id lane_id scan_tag epoch : list UInt8)
  : synth unit :=
  let lane_payload := view_key ++ asset_id ++ epoch in
  let derived_lane_id := domain_hash_digest "rgk:lane:blinded-id:v1" lane_payload in
  _ ← enforce_bytes_equal derived_lane_id lane_id;
  let scan_payload := view_key ++ lane_id ++ epoch in
  let derived_scan_tag := domain_hash_digest "rgk:lane:scan-tag:v1" scan_payload in
  enforce_bytes_equal derived_scan_tag scan_tag.

(** The public inputs, also as bytes under the public field elements. *)
Definition bind_public_bytes (public_inputs : list byte) : synth (list UInt8) :=
  let public_frs := public_inputs_as_vars public_inputs in
  let public_bytes := witness_vec public_inputs in
  let public_bytes_frs := digest_bytes_as_frs public_bytes in
  _ ← enforce_frs_equal public_bytes_frs public_frs;
  mret public_bytes.

Definition lane_generate_constraints (self : LaneCircuit) : synth unit :=
  _ ← unsat_if (length (lc_public_inputs self) ≠ LANE_DISCOVERY_PUBLIC_INPUT_LEN);
  public_bytes ← bind_public_bytes (lc_public_inputs self);
  _ ← enforce_lane_discovery_public_layout public_bytes;
  let view_key := witness_vec (lw_view_key (lc_witness self)) in
  let asset_id := witness_vec (lw_asset_id (lc_witness self)) in
  enforce_node_derivation view_key asset_id (slice public_bytes 0 32) (slice public_bytes 32 64)
    (slice public_bytes 64 72).

Definition enforce_node_derivations (view_key asset_id public_bytes : list UInt8)
    (offsets : list nat) : synth unit :=
  for_each (λ offset,
      let lane_id := slice public_bytes offset (offset + 32) in
      let scan_tag := slice public_bytes (offset + 32) (offset + 64) in
      let epoch := slice public_bytes (offset + 64) (offset + 72) in
      enforce_node_derivation view_key asset_id lane_id scan_tag epoch)
    offsets.

(** [LANES as u64] *)
Definition lanes_u64 (LANES : nat) : u64 := wrap 64 (Z.of_nat LANES).

Definition lane_graph_generate_constraints (LANES : nat) (self : LaneCircuit) : synth unit :=
  _ ← unsat_if (LANES = 0 ∨
        length (lc_public_inputs self) ≠ lane_graph_discovery_public_input_len LANES);
  public_bytes ← bind_public_bytes (lc_public_inputs self);
  _ ← enforce_lane_graph_discovery_public_layout LANES public_bytes;
  let root_payload :=
    constant_vec (u64_le (lanes_u64 LANES)) ++ drop LANE_GRAPH_DISCOVERY_ROOT_LEN public_bytes in
  let graph_root := domain_hash_digest "rgk:lane:graph-root:v1" root_payload in
  _ ← enforce_bytes_equal graph_root (slice public_bytes 0 LANE_GRAPH_DISCOVERY_ROOT_LEN);
  let view_key := witness_vec (lw_view_key (lc_witness self)) in
  let asset_id := witness_vec (lw_asset_id (lc_witness self)) in
  enforce_node_derivations view_key asset_id public_bytes
    (node_offsets LANE_GRAPH_DISCOVERY_ROOT_LEN LANES).

Definition lane_segment_generate_constraints (LANES : nat) (self : LaneCircuit) : synth unit :=
  _ ← unsat_if (LANES = 0 ∨
        length (lc_public_inputs self) ≠ lane_graph_segment_public_input_len LANES);
  public_bytes ← bind_public_bytes (lc_public_inputs self);
  _ ← enforce_lane_graph_segment_public_layout LANES public_bytes;
  let previous_root := slice public_bytes 0 32 in
  let next_root := slice public_bytes 32 64 in
  let segment_index := slice public_bytes 64 72 in
  let nodes := drop LANE_GRAPH_SEGMENT_PREFIX_LEN public_bytes in
  let root_payload :=
    previous_root ++ segment_index ++ constant_vec (u64_le (lanes_u64 LANES)) ++ nodes in
  let computed_next_root := domain_hash_digest "rgk:lane:graph-segment-root:v1" root_payload in
  _ ← enforce_bytes_equal computed_next_root next_root;
  let view_key := witness_vec (lw_view_key (lc_witness self)) in
  let asset_id := witness_vec (lw_asset_id (lc_witness self)) in
  enforce_node_derivations view_key asset_id public_bytes
    (node_offsets LANE_GRAPH_SEGMENT_PREFIX_LEN LANES).
End constraints.
