(* ===== verification/ZkLaneCorrect.v ===== *)
(** What the receipt circuit and the lane circuits accept. *)

From stdpp Require Import base list strings vector.
From Stdlib Require Import ZArith Lia Strings.Byte.
From S2P Require Import Prelude.
From S2P Require Import Bytes.
From S2P Require Import Encoding.
From S2P Require Import Types.
From S2P Require Import Commit.
From S2P Require Import AssetTypes.
From S2P Require Import AssetRules.
From S2P Require Import Lane.
From S2P Require Import Zk.
From S2P Require Import ZkCorrect.
From S2P Require Import ZkGadgets.
From S2P Require Import ZkCircuits.
From S2P Require Import ZkCircuitsCorrect.
From S2P Require Import ZkLane.

Open Scope list_scope.

(** * Slices of the public field elements *)

Lemma chunks8_take_drop {A} (l : list A) : (8 <= length l)%nat →
  chunks8 l = take 8 l :: chunks8 (drop 8 l).
Proof. do 8 (destruct l as [|? l]; [cbn; lia|]). done. Qed.

Lemma chunks8_drop {A} n (l : list A) : (8 * n <= length l)%nat →
  drop n (chunks8 l) = chunks8 (drop (8 * n) l).
Proof.
  revert l. induction n as [|n IH]; intros l Hl; [done|].
  rewrite chunks8_take_drop by lia. cbn [drop]. rewrite IH by (rewrite length_drop; lia).
  rewrite drop_drop. do 2 f_equal. lia.
Qed.

Lemma chunks8_take {A} n (l : list A) : (8 * n <= length l)%nat →
  take n (chunks8 l) = chunks8 (take (8 * n) l).
Proof.
  revert l. induction n as [|n IH]; intros l Hl; [done|].
  rewrite (chunks8_take_drop l), (chunks8_take_drop (take _ l)) by (rewrite ?length_take; lia).
  cbn [take]. rewrite take_take, IH by (rewrite length_drop; lia).
  f_equal; [f_equal; lia|]. f_equal. rewrite skipn_firstn_comm. f_equal. lia.
Qed.

Lemma chunks8_slice {A} (l : list A) a b : (8 * b <= length l)%nat → (a <= b)%nat →
  slice (chunks8 l) a b = chunks8 (slice l (8 * a) (8 * b)).
Proof.
  intros Hl Hab. unfold slice. rewrite chunks8_drop by lia.
  rewrite chunks8_take by (rewrite length_drop; lia). do 2 f_equal. lia.
Qed.

Section receipts.
Context `{GadgetLaws}.

Lemma accepted_public_slice (l : list UInt8) (p : list byte) a b :
  (8 * b <= length p)%nat → (a <= b)%nat → length l = (8 * b - 8 * a)%nat →
  accepted (enforce_bytes_equal_public_frs l (slice (public_inputs_as_vars p) a b)) ↔
    vals l = slice p (8 * a) (8 * b).
Proof.
  intros Hp Hab Hl. unfold enforce_bytes_equal_public_frs.
  assert (E : slice (public_inputs_as_vars p) a b = public_inputs_as_vars (slice p (8 * a) (8 * b))).
  { unfold public_inputs_as_vars. by rewrite <-slice_fmap, chunks8_slice. }
  rewrite E. apply accepted_frs_chunks. rewrite slice_length; lia.
Qed.

(** * The receipt circuit *)

(** A receipt body: a domain string behind its length, and six digests. *)
Definition body_fields (domain : list byte) (covenant old new transition continuation nonce : Bytes32)
  : list (list byte) :=
  [ u32_le (len_u32 domain); domain; blist covenant; blist old; blist new; blist transition;
    blist continuation; blist nonce ].
Definition body_widths (n : nat) : list nat := [4; n; 32; 32; 32; 32; 32; 32].

Definition offsets_at (covenant : nat) : ReceiptBodyOffsets :=
  {| ro_covenant := covenant; ro_old_state := covenant + 32; ro_new_state := covenant + 64;
     ro_transition := covenant + 96; ro_continuation := covenant + 128 |}.

Lemma body_fields_length domain c o n t k x :
  length <$> body_fields domain c o n t k x = body_widths (length domain).
Proof. unfold body_fields. cbn [fmap list_fmap]. by rewrite !bytes_length, u32_le_length. Qed.

Lemma body_cuts domain c o n t k x :
  cuts 0 (body_widths (length domain)) (concat (body_fields domain c o n t k x)) =
    body_fields domain c o n t k x.
Proof. apply cuts_fields; [done|apply body_fields_length]. Qed.

Definition domain_fits (domain : list byte) : Prop := (Z.of_nat (length domain) < 2 ^ 32)%Z.

Lemma body_offsets_ok w offsets :
  receipt_body_offsets w = Ok offsets ↔
    ∃ domain c o n t k x, domain_fits domain ∧ w = concat (body_fields domain c o n t k x) ∧
      offsets = offsets_at (4 + length domain).
Proof.
  unfold receipt_body_offsets. rewrite !bind_unit_ok, !fail_if_ok. split.
  - intros (H4 & Hl%dec_stable & [= <-]).
    pose proof (le_val_range (slice w 0 4)) as Hr. rewrite slice_length in Hr by lia.
    change (256 ^ Z.of_nat (4 - 0))%Z with (2 ^ 32)%Z in Hr.
    set (m := Z.to_nat (le_val (slice w 0 4))) in *.
    set (domain := slice w 4 (4 + m)).
    assert (Hd : length domain = m) by (unfold domain; rewrite slice_length; lia).
    exists domain, (field32 w (4 + m)), (field32 w (4 + m + 32)), (field32 w (4 + m + 64)),
      (field32 w (4 + m + 96)), (field32 w (4 + m + 128)), (field32 w (4 + m + 160)).
    split; [unfold domain_fits; lia|]. rewrite Hd. split; [|done].
    transitivity (concat (cuts 0 (body_widths m) w)).
    { rewrite concat_cuts; [done|]. cbn. lia. }
    f_equal. unfold body_fields. rewrite !field32_list by lia. unfold body_widths. cbn [cuts].
    assert (E0 : slice w 0 4 = u32_le (len_u32 domain)).
    { unfold len_u32. rewrite Hd. unfold m. rewrite Z2Nat.id by lia. unfold u32_le.
      rewrite le_bytes_wrap; [done|done|]. rewrite slice_length; lia. }
    rewrite !Nat.add_0_l, E0, <-!(Nat.add_assoc (4 + m)). done.
  - intros (domain & c & o & n & t & k & x & Hd & -> & ->).
    set (w := concat (body_fields domain c o n t k x)).
    assert (Hl : length w = (196 + length domain)%nat).
    { unfold w. erewrite concat_length_widths by apply body_fields_length. cbn. lia. }
    assert (E0 : slice w 0 4 = u32_le (len_u32 domain)).
    { pose proof (body_cuts domain c o n t k x) as E. by apply (f_equal (hd [])) in E. }
    rewrite E0. unfold u32_le. rewrite le_val_le_bytes. unfold len_u32, domain_fits in *.
    rewrite uval_wrap_small by lia. rewrite Z.mod_small by lia. rewrite Nat2Z.id.
    split_and!; [lia| |done]. intros Hn. apply Hn. lia.
Qed.

Ltac zk_slices z := field_slices (zk_public_inputs z) zk_widths (zk_cuts z); cbn [nth zk_fields].

(** The slices of a body at its offsets. *)
Lemma body_slices domain c o n t k x (w := concat (body_fields domain c o n t k x))
    (d := length domain) :
  slice w (4 + d) (4 + d + 32) = c ∧ slice w (4 + d + 32) (4 + d + 32 + 32) = o ∧
  slice w (4 + d + 64) (4 + d + 64 + 32) = n ∧ slice w (4 + d + 96) (4 + d + 96 + 32) = t ∧
  slice w (4 + d + 128) (4 + d + 128 + 32) = k.
Proof.
  pose proof (body_cuts domain c o n t k x) as E. fold w d in E. unfold body_widths in E.
  cbn [cuts] in E. rewrite !Nat.add_0_l, <-!(Nat.add_assoc (4 + d)) in E.
  cbn [Nat.add] in E |- *. rewrite <-!Nat.add_assoc in *. cbn [Nat.add] in E |- *. 
  split_and!; [exact (f_equal (λ l, nth 2 l []) E)|exact (f_equal (λ l, nth 3 l []) E)|
    exact (f_equal (λ l, nth 4 l []) E)|exact (f_equal (λ l, nth 5 l []) E)|exact (f_equal (λ l, nth 6 l []) E)].
Qed.

Lemma accepted_body_field w lo (b f : Bytes32) (p : list byte) i :
  slice w lo (lo + 32) = b → (lo + 32 <= length w)%nat →
  slice p (8 * i) (8 * (i + 4)) = f → (8 * (i + 4) <= length p)%nat →
  accepted (enforce_bytes_equal_public_frs (slice (witness_vec w) lo (lo + 32))
    (slice (public_inputs_as_vars p) i (i + 4))) ↔ b = f.
Proof.
  intros Hb Hw Hf Hp.
  rewrite (accepted_public_slice _ _ i (i + 4)), vals_slice, vals_witness, Hb, Hf; [|lia|lia|].
  - apply (inj_iff blist).
  - rewrite slice_length; [lia|]. by rewrite <-vals_length, vals_witness.
Qed.

Lemma accepted_body_checks z domain c o n t k x
    (w := concat (body_fields domain c o n t k x)) (offsets := offsets_at (4 + length domain)) :
  accepted (
    _ ← enforce_bytes_equal_public_frs (slice (witness_vec w) (ro_old_state offsets) (ro_old_state offsets + 32))
          (slice (public_inputs_as_vars (zk_public_inputs z)) 0 4);
    _ ← enforce_bytes_equal_public_frs (slice (witness_vec w) (ro_new_state offsets) (ro_new_state offsets + 32))
          (slice (public_inputs_as_vars (zk_public_inputs z)) 4 8);
    _ ← enforce_bytes_equal_public_frs (slice (witness_vec w) (ro_covenant offsets) (ro_covenant offsets + 32))
          (slice (public_inputs_as_vars (zk_public_inputs z)) 12 16);
    _ ← enforce_bytes_equal_public_frs (slice (witness_vec w) (ro_transition offsets) (ro_transition offsets + 32))
          (slice (public_inputs_as_vars (zk_public_inputs z)) 21 25);
    enforce_bytes_equal_public_frs (slice (witness_vec w) (ro_continuation offsets) (ro_continuation offsets + 32))
      (slice (public_inputs_as_vars (zk_public_inputs z)) 25 29)) ↔
  o = zs_old_state_digest z ∧ n = zs_new_state_digest z ∧ c = zs_kaspa_covenant_id z ∧
  t = zs_transition_digest z ∧ k = zs_continuation_commitment z.
Proof.
  destruct (body_slices domain c o n t k x) as (Ec & Eo & En & Et & Ek). fold w in Ec, Eo, En, Et, Ek.
  assert (Hw : length w = (196 + length domain)%nat).
  { unfold w. erewrite concat_length_widths by apply body_fields_length. cbn. lia. }
  pose proof (zk_public_length z) as Hp. unfold ZK_STATEMENT_LEN in Hp.
  unfold offsets. cbn [offsets_at ro_covenant ro_old_state ro_new_state ro_transition ro_continuation].
  eapply accepted_seq; [apply (accepted_body_field _ _ _ _ _ 0)|];
  [| | | |eapply accepted_seq; [apply (accepted_body_field _ _ _ _ _ 4)|]];
  [..|eapply accepted_seq; [apply (accepted_body_field _ _ _ _ _ 12)|]];
  [..|eapply accepted_seq; [apply (accepted_body_field _ _ _ _ _ 21)|]];
  [..|apply (accepted_body_field _ _ _ _ _ 25)]; try done; try lia; cbn [Nat.mul Nat.add]; by zk_slices z.
Qed.

Lemma receipt_circuit_accepts z w :
  is_satisfied (receipt_generate_constraints
    {| rcc_public_inputs := zk_public_inputs z; rcc_witness := w |}) = true ↔
  ∃ domain nonce, domain_fits domain ∧
    w = concat (body_fields domain (zs_kaspa_covenant_id z) (zs_old_state_digest z)
          (zs_new_state_digest z) (zs_transition_digest z) (zs_continuation_commitment z) nonce) ∧
    zs_receipt_id z = domain_hash TagReceipt w.
Proof.
  rewrite is_satisfied_iff. unfold receipt_generate_constraints.
  cbn [rcc_public_inputs rcc_witness]. cbv zeta. pose proof (zk_public_length z) as Hl.
  unfold ZK_STATEMENT_LEN in Hl.
  assert (Hid : accepted (enforce_frs_equal
      (digest_bytes_as_frs (Sha256Gadget_digest (constant_vec receipt_domain_prefix ++ witness_vec w)))
      (slice (public_inputs_as_vars (zk_public_inputs z)) 17 21)) ↔
    zs_receipt_id z = domain_hash TagReceipt w).
  { assert (Hlen : length (Sha256Gadget_digest (constant_vec receipt_domain_prefix ++ witness_vec w)) = 32%nat)
      by (by rewrite <-vals_length; unfold vals; rewrite digest_value, bytes_length).
    etransitivity; [apply (accepted_public_slice _ _ 17 21); lia|].
    assert (Ed : vals (Sha256Gadget_digest (constant_vec receipt_domain_prefix ++ witness_vec w)) =
      domain_hash TagReceipt w).
    { unfold vals. rewrite digest_value. change (u8_value <$> ?l) with (vals l).
      rewrite vals_app, vals_constant, vals_witness. unfold domain_hash, domain_hash_str,
        domain_preimage, receipt_domain_prefix. by rewrite <-app_assoc. }
    rewrite Ed. change (8 * 17)%nat with 136%nat. change (8 * 21)%nat with 168%nat. zk_slices z.
    split; [by intros ->%(inj blist)|by intros ->]. }
  rewrite accepted_bind, accepted_unsat_neq, accepted_bind, Hid, accepted_from_result.
  split.
  - intros (_ & E & offsets & Ho & Hf). pose proof Ho as (domain & c & o & n & t & k & x & Hd & -> & ->)%body_offsets_ok.
    apply accepted_body_checks in Hf as (-> & -> & -> & -> & ->). by exists domain, x.
  - intros (domain & nonce & Hd & -> & E). split_and!; [by rewrite zk_public_length|done|].
    exists (offsets_at (4 + length domain)). split; [apply body_offsets_ok; by repeat eexists|].
    by apply accepted_body_checks.
Qed.

(** The domain string of a receipt, as bytes. *)
Definition receipt_domain (r : RgkReceipt) : list byte :=
  as_bytes (domain_string (rc_chain_id r) (sc_receipt_policy (rc_old_state r)) (Some (rc_proof_mode r))).

Lemma receipt_body_fields r :
  receipt_encode_body r =
    concat (body_fields (receipt_domain r) (rc_covenant_id r) (sc_state_digest (rc_old_state r))
      (sc_state_digest (rc_new_state r)) (rc_transition_digest r) (rc_continuation_commitment r)
      (rc_replay_nonce r)).
Proof.
  unfold receipt_encode_body, into_vec, writer_new, write_seq, write_str, write_blob, write_u32,
    write_bytes32, body_fields. cbn [concat app]. rewrite app_nil_r, <-!app_assoc. done.
Qed.

Lemma receipt_domain_fits r : domain_fits (receipt_domain r).
Proof.
  unfold domain_fits, receipt_domain.
  by destruct (rc_chain_id r), (sc_receipt_policy (rc_old_state r)), (rc_proof_mode r).
Qed.

Lemma receipt_circuit_eq r id :
  receipt_circuit r id =
    {| rcc_public_inputs := zk_public_inputs (zk_from_receipt r id); rcc_witness := receipt_encode_body r |}.
Proof.
  unfold receipt_circuit, zk_public_inputs, chain_id_tagged_le_u32. cbv zeta.
  by rewrite <-(app_assoc (u32_le _) (u32_le _)).
Qed.

(** A statement holds the fields of a receipt that its body has. *)
Definition body_agrees (z : ZkStatement) (r : RgkReceipt) : Prop :=
  zs_old_state_digest z = sc_state_digest (rc_old_state r) ∧
  zs_new_state_digest z = sc_state_digest (rc_new_state r) ∧
  zs_kaspa_covenant_id z = rc_covenant_id r ∧
  zs_transition_digest z = rc_transition_digest r ∧
  zs_continuation_commitment z = rc_continuation_commitment r.

Definition receipt_witnessed (z : ZkStatement) (w : list byte) : Prop :=
  is_satisfied (receipt_generate_constraints
    {| rcc_public_inputs := zk_public_inputs z; rcc_witness := w |}) = true.

(** C24: The receipt circuit, exactly: over a statement with a receipt's id the
    receipt's body satisfies the circuit iff the statement's state digests,
    covenant, transition digest and continuation commitment are the receipt's,
    and nothing but the body does, unless the witness and the body are two
    messages with one SHA-256 digest under the receipt tag; the statement's asset
    and chain are whatever they are.  The circuit made from a receipt and an id is
    satisfied iff the id is the receipt's commitment. *)
Theorem receipt_circuit_iff r :
  (∀ z, zs_receipt_id z = receipt_commitment r →
    (receipt_witnessed z (receipt_encode_body r) ↔ body_agrees z r) ∧
    ∀ w, receipt_witnessed z w →
      w = receipt_encode_body r ∨ collision [receipt_message r; tagged_message TagReceipt w]) ∧
  (∀ id, is_satisfied (receipt_generate_constraints (receipt_circuit r id)) = true ↔
     id = receipt_commitment r).
Proof.
  split.
  - intros z Hid. unfold receipt_witnessed. split; [split|].
    + intros (domain & nonce & Hd & Ew & _)%receipt_circuit_accepts.
      rewrite receipt_body_fields in Ew. unfold body_fields in Ew. cbn [concat] in Ew.
      apply u32_le_app_inj in Ew as [El Ew]. unfold len_u32 in El.
      pose proof (receipt_domain_fits r) as Hr. unfold domain_fits in *.
      apply (f_equal uval) in El. rewrite !uval_wrap_small in El by lia.
      apply app_inj_1 in Ew as [_ Ew]; [|lia]. peel_bytes Ew. done.
    + intros (E1 & E2 & E3 & E4 & E5). apply receipt_circuit_accepts.
      exists (receipt_domain r), (rc_replay_nonce r). rewrite E1, E2, E3, E4, E5.
      split_and!; [apply receipt_domain_fits|apply receipt_body_fields|done].
    + intros w (_ & _ & _ & _ & E)%receipt_circuit_accepts. rewrite Hid in E.
      unfold receipt_commitment in E. apply domain_hash_binds in E as [[_ E]|Hc];
        [left; symmetry; exact E|right; exact Hc].
  - intros id. rewrite receipt_circuit_eq, receipt_circuit_accepts. split; [by intros (? & ? & _ & _ & E)|].
    intros ->. exists (receipt_domain r), (rc_replay_nonce r).
    split_and!; [apply receipt_domain_fits|apply receipt_body_fields|done].
Qed.
End receipts.

(** * Lane statements as bytes *)

Lemma lane_public_length n : length (lane_public_inputs n) = 72%nat.
Proof. unfold lane_public_inputs. by rewrite !length_app, !bytes_length, u64_le_length. Qed.

Lemma lane_public_slices n (q : list byte) :
  slice (lane_public_inputs n ++ q) 0 32 = ld_lane_id n ∧
  slice (lane_public_inputs n ++ q) 32 64 = ld_scan_tag n ∧
  slice (lane_public_inputs n ++ q) 64 72 = u64_le (ld_epoch n).
Proof.
  set (fs := [blist (ld_lane_id n); blist (ld_scan_tag n); u64_le (ld_epoch n); q]).
  assert (E : cuts 0 [32; 32; 8; length q]%nat (lane_public_inputs n ++ q) = fs).
  { apply cuts_fields; unfold fs, lane_public_inputs; cbn [concat fmap list_fmap].
    - by rewrite app_nil_r, <-!app_assoc.
    - by rewrite !bytes_length, u64_le_length. }
  split_and!; [exact (f_equal (λ l, nth 0 l []) E)|exact (f_equal (λ l, nth 1 l []) E)|
    exact (f_equal (λ l, nth 2 l []) E)].
Qed.

Lemma lane_bytes (p : list byte) : length p = 72%nat → ∃ n, p = lane_public_inputs n.
Proof.
  intros Hl. exists {| ld_lane_id := field32 p 0; ld_scan_tag := field32 p 32; ld_epoch := field64 p 64 |}.
  unfold lane_public_inputs. cbn [ld_lane_id ld_scan_tag ld_epoch].
  rewrite !field32_list, field64_list by lia. cbn [Nat.add]. rewrite !slices_cat by lia.
  by rewrite <-Hl, slice_all.
Qed.

Lemma nodes_bytes LANES (p : list byte) : length p = (LANES * 72)%nat →
  ∃ v : vec LaneDiscoveryStatement LANES, p = concat (lane_public_inputs <$> vec_to_list v).
Proof.
  revert p. induction LANES as [|L IH]; intros p Hl; [exists [#]; by destruct p|].
  destruct (lane_bytes (take 72 p)) as [n En]; [rewrite length_take; lia|].
  destruct (IH (drop 72 p)) as [v Ev]; [rewrite length_drop; lia|].
  exists (n ::: v). cbn [vec_to_list fmap list_fmap concat]. rewrite <-En.
  etransitivity; [symmetry; apply (take_drop 72)|]. by f_equal.
Qed.

Lemma node_offsets_S prefix L :
  node_offsets prefix (S L) = prefix :: node_offsets (prefix + 72) L.
Proof.
  unfold node_offsets. cbn [seq fmap list_fmap]. f_equal; [lia|].
  rewrite <-seq_shift, <-list_fmap_compose. apply list_fmap_ext. intros ? i _. cbn. lia.
Qed.

(** What holds of every node's slices holds of every node. *)
Lemma forall_nodes (P : nat → Prop) (Q : LaneDiscoveryStatement → Prop) (pre : list byte) {LANES}
    (v : vec LaneDiscoveryStatement LANES) :
  (∀ off n rest, drop off (pre ++ concat (lane_public_inputs <$> vec_to_list v)) = lane_public_inputs n ++ rest →
     P off ↔ Q n) →
  Forall P (node_offsets (length pre) LANES) ↔ Forall Q (vec_to_list v).
Proof.
  revert pre. induction v as [|n L v IH]; intros pre Hpq; [by split; constructor|].
  rewrite node_offsets_S. cbn [vec_to_list]. rewrite !list.Forall_cons. f_equiv.
  - apply (Hpq _ n (concat (lane_public_inputs <$> vec_to_list v))). by rewrite drop_app_length.
  - specialize (IH (pre ++ lane_public_inputs n)). rewrite length_app, lane_public_length in IH.
    apply IH. intros off m rest E. apply (Hpq off m rest). by rewrite <-E, <-app_assoc.
Qed.

Lemma slice_of_drop (p q : list byte) off lo hi : drop off p = q →
  slice p (off + lo) (off + hi) = slice q lo hi.
Proof. intros <-. unfold slice. rewrite drop_drop. f_equal. lia. Qed.

Lemma concat_nodes_length {LANES} (v : vec LaneDiscoveryStatement LANES) :
  length (concat (lane_public_inputs <$> vec_to_list v)) = (LANES * 72)%nat.
Proof.
  by rewrite (concat_fixed_length lane_public_inputs 72 lane_public_length), length_vec_to_list.
Qed.

Lemma graph_public_length {LANES} (s : LaneGraphDiscoveryStatement LANES) :
  length (lane_graph_public_inputs s) = lane_graph_discovery_public_input_len LANES.
Proof. unfold lane_graph_public_inputs. by rewrite length_app, bytes_length, concat_nodes_length. Qed.

Lemma segment_public_length {LANES} (s : LaneGraphSegmentStatement LANES) :
  length (lane_segment_public_inputs s) = lane_graph_segment_public_input_len LANES.
Proof.
  unfold lane_segment_public_inputs.
  by rewrite !length_app, !bytes_length, u64_le_length, concat_nodes_length.
Qed.

(** * The lane circuits *)

Section lanes.
Context `{GadgetLaws}.
Implicit Types (w : LaneDiscoveryWitness) (n : LaneDiscoveryStatement).

(** What the circuits require of a node: nonzero commitments, derived from the
    hidden key and asset. *)
Definition node_derived w n : Prop :=
  ld_lane_id n ≠ zero32 ∧ ld_scan_tag n ≠ zero32 ∧ lane_matches_witness n w = true.

Lemma lane_matches_iff n w :
  lane_matches_witness n w = true ↔
    ld_lane_id n = derive_blinded_lane_id (lw_view_key w) (lw_asset_id w) (ld_epoch n) ∧
    ld_scan_tag n = derive_scan_tag (lw_view_key w) (ld_lane_id n) (ld_epoch n).
Proof.
  unfold lane_matches_witness. rewrite bool_decide_eq_true. destruct n as [l t e]. cbn. split.
  - by intros [= -> ->].
  - by intros [-> ->].
Qed.

Lemma accepted_derivation w n (lane tag epoch : list UInt8) :
  vals lane = ld_lane_id n → vals tag = ld_scan_tag n → vals epoch = u64_le (ld_epoch n) →
  accepted (enforce_node_derivation (witness_vec (lw_view_key w)) (witness_vec (lw_asset_id w))
    lane tag epoch) ↔ lane_matches_witness n w = true.
Proof.
  intros Hl Ht He. unfold enforce_node_derivation. cbv zeta.
  rewrite accepted_bind. unfold enforce_bytes_equal. rewrite !accepted_bytes_equal.
  rewrite !digest_vals, !vals_app, !vals_witness, Hl, Ht, He, lane_matches_iff, !(inj_iff blist).
  split; intros [E1 E2]; by split.
Qed.

Lemma accepted_node_layout (l : list UInt8) n : vals l = lane_public_inputs n →
  accepted (enforce_lane_discovery_node_layout l) ↔ ld_lane_id n ≠ zero32 ∧ ld_scan_tag n ≠ zero32.
Proof.
  intros Hv. assert (Hl : length l = 72%nat) by (by rewrite <-vals_length, Hv, lane_public_length).
  unfold enforce_lane_discovery_node_layout. rewrite !accepted_bind, accepted_unsat_neq.
  rewrite !accepted_nonzero_slice, Hv by lia.
  destruct (lane_public_slices n []) as (E1 & E2 & _). rewrite app_nil_r in E1, E2.
  rewrite E1, E2, !blist_zero_iff. tauto.
Qed.

Lemma accepted_bind_public (p : list byte) (k : list UInt8 → synth unit) :
  accepted (bind_public_bytes p ≫= k) ↔ accepted (k (witness_vec p)).
Proof.
  unfold bind_public_bytes, accepted at 1. rewrite sat_bind, sat_bind, sat_unit, sat_ret.
  rewrite accepted_frs_chunks, vals_witness; [by split; [intros []|split]|].
  by rewrite <-vals_length, vals_witness.
Qed.

Lemma vals_drop k (l : list UInt8) : vals (drop k l) = drop k (vals l).
Proof. apply fmap_drop. Qed.

(** A node's commitments are set. *)
Definition node_set n : Prop := ld_lane_id n ≠ zero32 ∧ ld_scan_tag n ≠ zero32.

Lemma accepted_nodes w (p : list byte) prefix {LANES} (pre : list byte)
    (v : vec LaneDiscoveryStatement LANES) :
  p = pre ++ concat (lane_public_inputs <$> vec_to_list v) → length pre = prefix →
  (accepted (for_each (λ offset, enforce_lane_discovery_node_layout
       (slice (witness_vec p) offset (offset + LANE_DISCOVERY_PUBLIC_INPUT_LEN)))
     (node_offsets prefix LANES)) ↔ Forall node_set (vec_to_list v)) ∧
  (accepted (enforce_node_derivations (witness_vec (lw_view_key w)) (witness_vec (lw_asset_id w))
     (witness_vec p) (node_offsets prefix LANES)) ↔
   Forall (λ n, lane_matches_witness n w = true) (vec_to_list v)).
Proof.
  intros -> <-. unfold enforce_node_derivations. rewrite !accepted_for_each.
  split; apply forall_nodes; intros off n rest E;
    destruct (lane_public_slices n rest) as (E1 & E2 & E3).
  - apply accepted_node_layout. rewrite vals_slice, vals_witness.
    rewrite <-(Nat.add_0_r off) at 1. rewrite (slice_of_drop _ _ off 0 _ E).
    unfold LANE_DISCOVERY_PUBLIC_INPUT_LEN. rewrite <-(lane_public_length n). apply slice_app_head.
  - apply accepted_derivation; rewrite vals_slice, vals_witness.
    + rewrite <-(Nat.add_0_r off) at 1. by rewrite (slice_of_drop _ _ off 0 _ E).
    + by rewrite (slice_of_drop _ _ off 32 _ E).
    + by rewrite (slice_of_drop _ _ off 64 _ E).
Qed.

(** Fact: The lane-discovery circuit, exactly: it is satisfied iff its public
    inputs are a lane id, a scan tag and an epoch, none of the commitments zero,
    that the hidden view key and asset id derive. *)
Theorem lane_circuit_iff (c : LaneCircuit) :
  is_satisfied (lane_generate_constraints c) = true ↔
    ∃ n, lane_circuit n (lc_witness c) = Ok c ∧ node_set n.
Proof.
  rewrite is_satisfied_iff. destruct c as [p w]. unfold lane_generate_constraints, lane_circuit.
  cbn [lc_public_inputs lc_witness]. rewrite accepted_bind, accepted_unsat_neq, accepted_bind_public.
  unfold enforce_lane_discovery_public_layout.
  assert (Hcore : ∀ n, p = lane_public_inputs n →
    accepted (_ ← (_ ← unsat_if (length (witness_vec p) ≠ LANE_DISCOVERY_PUBLIC_INPUT_LEN);
                   enforce_lane_discovery_node_layout (witness_vec p));
              enforce_node_derivation (witness_vec (lw_view_key w)) (witness_vec (lw_asset_id w))
                (slice (witness_vec p) 0 32) (slice (witness_vec p) 32 64) (slice (witness_vec p) 64 72)) ↔
    node_set n ∧ lane_matches_witness n w = true).
  { intros n ->. destruct (lane_public_slices n []) as (E1 & E2 & E3). rewrite app_nil_r in E1, E2, E3.
    rewrite !accepted_bind, accepted_unsat_neq, (accepted_node_layout _ n) by apply vals_witness.
    rewrite (accepted_derivation w n) by (by rewrite vals_slice, vals_witness).
    assert (length (witness_vec (lane_public_inputs n)) = LANE_DISCOVERY_PUBLIC_INPUT_LEN)
      by (rewrite <-vals_length, vals_witness; apply lane_public_length).
    unfold node_set. tauto. }
  split.
  - intros [Hl Ha]. destruct (lane_bytes p Hl) as [n ->]. apply (Hcore n eq_refl) in Ha as [Hn Hm].
    exists n. by rewrite Hm.
  - intros (n & Hc & Hn). apply bind_unit_ok in Hc as [Hm%fail_if_ok [= <-]].
    rewrite lane_public_length. split; [done|]. apply (Hcore n eq_refl). split; [done|].
    by apply not_false_iff_true.
Qed.

Lemma graph_matches_iff {LANES} (s : LaneGraphDiscoveryStatement LANES) w :
  lane_graph_matches_witness s w = true ↔
    LANES ≠ 0%nat ∧ lg_graph_root s = derive_private_lane_graph_root (native_nodes_from (lg_nodes s)) ∧
    Forall (λ n, lane_matches_witness n w = true) (vec_to_list (lg_nodes s)).
Proof.
  unfold lane_graph_matches_witness. case_decide; [by split; [|intros []]|].
  rewrite andb_true_iff, bool_decide_eq_true, forallb_forall, list.Forall_forall.
  setoid_rewrite list_elem_of_In. tauto.
Qed.

Lemma segment_matches_iff {LANES} (s : LaneGraphSegmentStatement LANES) w :
  lane_segment_matches_witness s w = true ↔
    LANES ≠ 0%nat ∧
    lgs_next_root s = extend_private_lane_graph_root (lgs_previous_root s) (lgs_segment_index s)
      (native_nodes_from (lgs_nodes s)) ∧
    Forall (λ n, lane_matches_witness n w = true) (vec_to_list (lgs_nodes s)).
Proof.
  unfold lane_segment_matches_witness. case_decide; [by split; [|intros []]|].
  rewrite andb_true_iff, bool_decide_eq_true, forallb_forall, list.Forall_forall.
  setoid_rewrite list_elem_of_In. tauto.
Qed.

Lemma native_nodes_bytes {LANES} (v : vec LaneDiscoveryStatement LANES) :
  concat (encode_node <$> vec_to_list (native_nodes_from v)) =
    concat (lane_public_inputs <$> vec_to_list v).
Proof. unfold native_nodes_from. rewrite vec_to_list_map, <-list_fmap_compose. done. Qed.

Lemma native_nodes_len {LANES} (v : vec LaneDiscoveryStatement LANES) :
  len_u64 (vec_to_list (native_nodes_from v)) = lanes_u64 LANES.
Proof. unfold len_u64, lanes_u64. by rewrite length_vec_to_list. Qed.

(** A byte string of the length of the layout is a root and nodes. *)
Lemma graph_bytes LANES p :
  length p = lane_graph_discovery_public_input_len LANES →
  ∃ s : LaneGraphDiscoveryStatement LANES, p = lane_graph_public_inputs s.
Proof.
  unfold lane_graph_discovery_public_input_len, LANE_GRAPH_DISCOVERY_ROOT_LEN,
    LANE_DISCOVERY_PUBLIC_INPUT_LEN. intros Hl.
  destruct (nodes_bytes LANES (drop 32 p)) as [v Ev]; [rewrite length_drop; lia|].
  exists {| lg_graph_root := to_array 32 (take 32 p); lg_nodes := v |}.
  unfold lane_graph_public_inputs. cbn [lg_graph_root lg_nodes].
  rewrite to_array_list by (rewrite length_take; lia). rewrite <-Ev. symmetry. apply take_drop.
Qed.

Lemma graph_slices {LANES} (s : LaneGraphDiscoveryStatement LANES) (p := lane_graph_public_inputs s) :
  slice p 0 32 = lg_graph_root s ∧ drop 32 p = concat (lane_public_inputs <$> vec_to_list (lg_nodes s)).
Proof.
  unfold p, lane_graph_public_inputs, slice. split.
  - apply take_app_length'. by rewrite bytes_length.
  - by rewrite drop_app_length' by (by rewrite bytes_length).
Qed.

(** The constraints after the public inputs are read, over a statement. *)
Lemma graph_circuit_core {LANES} (s : LaneGraphDiscoveryStatement LANES) w
    (p := lane_graph_public_inputs s) :
  LANES ≠ 0%nat →
  accepted (_ ← enforce_lane_graph_discovery_public_layout LANES (witness_vec p);
    _ ← enforce_bytes_equal (domain_hash_digest "rgk:lane:graph-root:v1"
          (constant_vec (u64_le (lanes_u64 LANES)) ++ drop LANE_GRAPH_DISCOVERY_ROOT_LEN (witness_vec p)))
          (slice (witness_vec p) 0 LANE_GRAPH_DISCOVERY_ROOT_LEN);
    enforce_node_derivations (witness_vec (lw_view_key w)) (witness_vec (lw_asset_id w))
      (witness_vec p) (node_offsets LANE_GRAPH_DISCOVERY_ROOT_LEN LANES)) ↔
  lg_graph_root s ≠ zero32 ∧ Forall node_set (vec_to_list (lg_nodes s)) ∧
  lane_graph_matches_witness s w = true.
Proof.
  intros HL. unfold LANE_GRAPH_DISCOVERY_ROOT_LEN.
  destruct (accepted_nodes w p 32 (lg_graph_root s) (lg_nodes s)) as [Hlay Hder];
    [done|apply bytes_length|].
  destruct (graph_slices s) as [E0 E1]. fold p in E0, E1.
  unfold enforce_lane_graph_discovery_public_layout.
  assert (Hl : length (witness_vec p) = lane_graph_discovery_public_input_len LANES)
    by (rewrite <-vals_length, vals_witness; apply graph_public_length).
  unfold lane_graph_discovery_public_input_len, LANE_GRAPH_DISCOVERY_ROOT_LEN in Hl |- *.
  rewrite !accepted_bind, accepted_unsat_if, Hlay, Hder, accepted_nonzero_slice, vals_witness by lia.
  unfold enforce_bytes_equal. rewrite accepted_bytes_equal, digest_vals, vals_app, vals_constant.
  rewrite vals_drop, vals_slice, vals_witness, E0, E1, blist_zero_iff, (inj_iff blist), graph_matches_iff.
  unfold derive_private_lane_graph_root. rewrite native_nodes_bytes, native_nodes_len.
  unfold asset_domain_hash. split.
  - intros ((_ & ? & ?) & ? & ?). by split_and!.
  - intros (? & ? & _ & ? & ?). split_and!; try done. intros [|Hne]; [done|]. by apply Hne.
Qed.

(** Fact: The lane-graph circuit, exactly: for a number of lanes, it is satisfied
    iff its public inputs are a nonzero root and that many set nodes, all derived
    from one hidden view key and asset id, and the root is the native graph root
    of the nodes in their order. *)
Theorem lane_graph_circuit_iff LANES (c : LaneCircuit) :
  is_satisfied (lane_graph_generate_constraints LANES c) = true ↔
    ∃ s : LaneGraphDiscoveryStatement LANES, lane_graph_circuit s (lc_witness c) = Ok c ∧
      lg_graph_root s ≠ zero32 ∧ Forall node_set (vec_to_list (lg_nodes s)).
Proof.
  rewrite is_satisfied_iff. destruct c as [p w]. unfold lane_graph_generate_constraints, lane_graph_circuit.
  cbn [lc_public_inputs lc_witness]. cbv zeta.
  rewrite accepted_bind, accepted_unsat_if, accepted_bind_public. split.
  - intros [Hg Ha]. assert (HL : LANES ≠ 0%nat) by tauto.
    destruct (graph_bytes LANES p) as [s ->]; [apply dec_stable; tauto|].
    apply (graph_circuit_core s w HL) in Ha as (Hr & Hn & Hm). exists s. split_and!; [|done|done].
    apply bind_unit_ok. rewrite fail_if_ok. split; [done|]. apply bind_unit_ok. by rewrite fail_if_ok, Hm.
  - intros (s & Hc & Hr & Hn). apply bind_unit_ok in Hc as [HL%fail_if_ok Hc].
    apply bind_unit_ok in Hc as [Hm%fail_if_ok [= <-]]. rewrite graph_public_length.
    split; [tauto|]. apply (graph_circuit_core s w HL). split_and!; [done|done|by apply not_false_iff_true].
Qed.

(** What the segment circuit requires beyond the native check. *)
Definition segment_set {LANES} (s : LaneGraphSegmentStatement LANES) : Prop :=
  lgs_previous_root s ≠ zero32 ∧ lgs_next_root s ≠ zero32 ∧
  lgs_previous_root s ≠ lgs_next_root s ∧ Forall node_set (vec_to_list (lgs_nodes s)).

Lemma segment_slices {LANES} (s : LaneGraphSegmentStatement LANES)
    (p := lane_segment_public_inputs s) :
  slice p 0 32 = lgs_previous_root s ∧ slice p 32 64 = lgs_next_root s ∧
  slice p 64 72 = u64_le (lgs_segment_index s) ∧
  drop 72 p = concat (lane_public_inputs <$> vec_to_list (lgs_nodes s)).
Proof.
  set (rest := concat (lane_public_inputs <$> vec_to_list (lgs_nodes s))).
  set (fs := [blist (lgs_previous_root s); blist (lgs_next_root s); u64_le (lgs_segment_index s); rest]).
  assert (E : cuts 0 [32; 32; 8; length rest]%nat p = fs).
  { apply cuts_fields; unfold fs, p, lane_segment_public_inputs; cbn [concat fmap list_fmap].
    - by rewrite app_nil_r.
    - by rewrite !bytes_length, u64_le_length. }
  split_and!; [exact (f_equal (λ l, nth 0 l []) E)|exact (f_equal (λ l, nth 1 l []) E)|
    exact (f_equal (λ l, nth 2 l []) E)|].
  unfold p, lane_segment_public_inputs. rewrite !app_assoc. apply drop_app_length'.
  by rewrite !length_app, !bytes_length, u64_le_length.
Qed.

Lemma segment_circuit_core LANES (s : LaneGraphSegmentStatement LANES) w
    (p := lane_segment_public_inputs s) : LANES ≠ 0%nat →
  accepted (_ ← enforce_lane_graph_segment_public_layout LANES (witness_vec p);
    _ ← enforce_bytes_equal (domain_hash_digest "rgk:lane:graph-segment-root:v1"
          (slice (witness_vec p) 0 32 ++ slice (witness_vec p) 64 72 ++
           constant_vec (u64_le (lanes_u64 LANES)) ++ drop LANE_GRAPH_SEGMENT_PREFIX_LEN (witness_vec p)))
          (slice (witness_vec p) 32 64);
    enforce_node_derivations (witness_vec (lw_view_key w)) (witness_vec (lw_asset_id w))
      (witness_vec p) (node_offsets LANE_GRAPH_SEGMENT_PREFIX_LEN LANES)) ↔
  segment_set s ∧ lane_segment_matches_witness s w = true.
Proof.
  intros HL. unfold LANE_GRAPH_SEGMENT_PREFIX_LEN.
  destruct (accepted_nodes w p 72 (lgs_previous_root s ++ lgs_next_root s ++ u64_le (lgs_segment_index s))
    (lgs_nodes s)) as [Hlay Hder].
  { unfold p, lane_segment_public_inputs. by rewrite <-!app_assoc. }
  { by rewrite !length_app, !bytes_length, u64_le_length. }
  unfold enforce_lane_graph_segment_public_layout.
  assert (Hl : length (witness_vec p) = lane_graph_segment_public_input_len LANES).
  { rewrite <-vals_length, vals_witness. apply segment_public_length. }
  unfold lane_graph_segment_public_input_len, LANE_GRAPH_SEGMENT_PREFIX_LEN in Hl |- *.
  rewrite !accepted_bind, accepted_unsat_if, Hlay, Hder, !accepted_nonzero_slice,
    accepted_differ_slices, vals_witness by lia.
  unfold enforce_bytes_equal. rewrite accepted_bytes_equal, digest_vals, !vals_app, vals_constant.
  rewrite vals_drop, !vals_slice, vals_witness.
  destruct (segment_slices s) as (E0 & E1 & E2 & E3). fold p in E0, E1, E2, E3. rewrite E0, E1, E2, E3.
  rewrite !blist_zero_iff, !(inj_iff blist), segment_matches_iff. unfold segment_set.
  unfold extend_private_lane_graph_root, asset_domain_hash.
  rewrite native_nodes_bytes, native_nodes_len. split.
  - intros ((_ & ? & ? & ? & ?) & ? & ?). by split_and!.
  - intros ((? & ? & ? & ?) & _ & ? & ?). split_and!; try done.
    intros [|Hne]; [done|]. by apply Hne.
Qed.

(** Fact: The lane-graph segment circuit, exactly: it is satisfied iff its public
    inputs are one segment whose next root extends the previous one by the
    nodes at the segment's index, the roots set and different, the nodes set and
    derived from one hidden view key and asset id. *)
Theorem lane_segment_circuit_iff LANES (c : LaneCircuit) :
  is_satisfied (lane_segment_generate_constraints LANES c) = true ↔
    ∃ s : LaneGraphSegmentStatement LANES,
      lane_segment_circuit s (lc_witness c) = Ok c ∧ segment_set s.
Proof.
  rewrite is_satisfied_iff. destruct c as [p w]. unfold lane_segment_generate_constraints, lane_segment_circuit.
  cbn [lc_public_inputs lc_witness]. cbv zeta.
  rewrite accepted_bind, accepted_unsat_if, accepted_bind_public. split.
  - intros [Hg Ha]. assert (HL : LANES ≠ 0%nat) by tauto.
    assert (Hl : length p = lane_graph_segment_public_input_len LANES) by (apply dec_stable; tauto).
    unfold lane_graph_segment_public_input_len, LANE_GRAPH_SEGMENT_PREFIX_LEN,
      LANE_DISCOVERY_PUBLIC_INPUT_LEN in Hl.
    destruct (nodes_bytes LANES (drop 72 p)) as [v Ev]; [rewrite length_drop; lia|].
    set (s := {| lgs_previous_root := field32 p 0; lgs_next_root := field32 p 32;
                 lgs_segment_index := field64 p 64; lgs_nodes := v |}).
    assert (Hp : p = lane_segment_public_inputs s).
    { unfold lane_segment_public_inputs, s. cbn [lgs_previous_root lgs_next_root lgs_segment_index lgs_nodes].
      rewrite !field32_list, field64_list, <-Ev by lia. cbn [Nat.add].
      rewrite !app_assoc, !slices_cat by lia. symmetry. apply take_drop. }
    rewrite Hp in Ha. apply segment_circuit_core in Ha as [Hs Hm]; [|done]. exists s. split; [|done].
    apply bind_unit_ok. rewrite fail_if_ok. split; [done|]. apply bind_unit_ok. rewrite fail_if_ok, Hm.
    split; [done|]. by rewrite Hp.
  - intros (s & Hc & Hs). apply bind_unit_ok in Hc as [HL%fail_if_ok Hc].
    apply bind_unit_ok in Hc as [Hm%fail_if_ok [= <-]]. rewrite segment_public_length.
    split; [tauto|]. apply segment_circuit_core; [done|]. split; [done|by apply not_false_iff_true].
Qed.

(** A chain of segments, in the order of a streamed graph: the first starts at the empty
    root, each next one where the one before ended, numbered from zero. *)
Fixpoint segment_chain {LANES} (root : Bytes32) (i : nat)
    (l : list (LaneGraphSegmentStatement LANES)) : Prop :=
  match l with
  | [] => True
  | s :: l' => lgs_previous_root s = root ∧ lgs_segment_index s = wrap 64 (Z.of_nat i) ∧
               segment_chain (lgs_next_root s) (S i) l'
  end.

Definition chain_end {LANES} (l : list (LaneGraphSegmentStatement LANES)) : Bytes32 :=
  foldl (λ _ s, lgs_next_root s) private_lane_graph_empty_root l.

Definition segment_nodes {LANES} (s : LaneGraphSegmentStatement LANES) : list RgkLaneGraphNode :=
  vec_to_list (native_nodes_from (lgs_nodes s)).

Lemma segment_chain_fold {LANES} (l : list (LaneGraphSegmentStatement LANES)) r i :
  segment_chain r i l → Forall (λ s, ∃ w, lane_segment_matches_witness s w = true) l →
  foldl (λ _ s, lgs_next_root s) r l =
    foldl (λ r s, extend_private_lane_graph_root r s.1 s.2) r
      (imap (λ j x, (wrap 64 (Z.of_nat (i + j)), x)) (segment_nodes <$> l)).
Proof.
  revert r i. induction l as [|s l IH]; intros r i Hc Hw; [done|].
  destruct Hc as (Hr & Hi & Hc). apply list.Forall_cons in Hw as [(w & Hs) Hw].
  apply segment_matches_iff in Hs as (_ & Hs & _). rewrite Hr, Hi in Hs.
  cbn [foldl fmap list_fmap imap fst snd]. rewrite Nat.add_0_r. fold (segment_nodes s) in Hs.
  rewrite <-Hs, (IH _ (S i)) by done. f_equal. apply imap_ext. intros j x _. cbn.
  by rewrite Nat.add_succ_r.
Qed.

Lemma lane_public_inj n m : lane_public_inputs n = lane_public_inputs m → n = m.
Proof.
  unfold lane_public_inputs. intros E. peel_bytes E. apply u64_le_inj in E.
  destruct n, m. cbn in *. by subst.
Qed.

Lemma segment_public_inj {LANES} (s t : LaneGraphSegmentStatement LANES) :
  lane_segment_public_inputs s = lane_segment_public_inputs t → s = t.
Proof.
  unfold lane_segment_public_inputs. intros E. peel_bytes E.
  apply (concat_fixed_inj lane_public_inputs 71) in E; [|apply lane_public_length|apply lane_public_inj].
  apply vec_to_list_inj2 in E. destruct s, t. cbn in *. by subst.
Qed.

(** Fact: Any number of segments make one graph: when segments are numbered from
    zero, the first starting at the empty root and each continuing where the one
    before ended, and each has a satisfied circuit over its public inputs, the
    last next root is the streamed graph root of all their nodes in order. *)
Theorem segment_chain_root LANES (l : list (LaneGraphSegmentStatement LANES)) :
  segment_chain private_lane_graph_empty_root 0 l →
  Forall (λ s, ∃ c, lc_public_inputs c = lane_segment_public_inputs s ∧
                    is_satisfied (lane_segment_generate_constraints LANES c) = true) l →
  chain_end l = lane_graph_root (segment_nodes <$> l).
Proof.
  intros Hc Hs. apply (segment_chain_fold l _ 0); [done|]. eapply Forall_impl; [exact Hs|].
  intros s (c & Ep & (s' & Ec & _)%lane_segment_circuit_iff). exists (lc_witness c).
  apply bind_unit_ok in Ec as [_ Ec]. apply bind_unit_ok in Ec as [Hm%fail_if_ok E].
  assert (s' = s) as ->.
  { apply segment_public_inj. rewrite <-Ep. destruct c as [p w]. by injection E. }
  by apply not_false_iff_true.
Qed.
End lanes.
