(* ===== verification/ZkAudit.v ===== *)
(** The segmented allocation audit of src/crates/rgk-zk/src/real_zk.rs:
    transcript segments, running totals that are kept in commitments, the final
    equality of the two totals, the exclusion of spent anchors among the new
    ones, and the verification of a bundle of their statements. *)

From stdpp Require Import base list strings vector.
From Stdlib Require Import ZArith Lia Strings.Byte.
From S2P Require Import Prelude.
From S2P Require Import Bytes.
From S2P Require Import Encoding.
From S2P Require Import Types.
From S2P Require Import Commit.
From S2P Require Import Hex.
From S2P Require Import AssetTypes.
From S2P Require Import AssetRules.
From S2P Require Import AssetStrategy.
From S2P Require Import Lane.
From S2P Require Import Zk.
From S2P Require Import ZkGadgets.
From S2P Require Import ZkCircuits.

Open Scope string_scope.
Open Scope list_scope.

Definition ALLOCATION_TRANSCRIPT_SEGMENT_PUBLIC_INPUT_LEN : nat := 128.
Definition ALLOCATION_CONSERVATION_SEGMENT_PUBLIC_INPUT_LEN : nat := 192.
Definition ALLOCATION_CONSERVATION_FINAL_PUBLIC_INPUT_LEN : nat := 80.
Definition ALLOCATION_EXCLUSION_SEGMENT_PAIR_PUBLIC_INPUT_LEN : nat := 232.

(** * Statements *)

#[export] Instance RgkAllocationTranscriptSide_eq_dec : EqDecision RgkAllocationTranscriptSide.
Proof. solve_decision. Defined.

Record AllocationTranscriptSegmentStatement (ALLOCS : nat) := {
  ats_previous_root : Bytes32;
  ats_next_root : Bytes32;
  ats_chain_id : KaspaChainId;
  ats_side : RgkAllocationTranscriptSide;
  ats_segment_index : u64;
  ats_total_count : u64;
  ats_segment_amount_commitment : Bytes32
}.
Arguments ats_previous_root {ALLOCS}.
Arguments ats_next_root {ALLOCS}.
Arguments ats_chain_id {ALLOCS}.
Arguments ats_side {ALLOCS}.
Arguments ats_segment_index {ALLOCS}.
Arguments ats_total_count {ALLOCS}.
Arguments ats_segment_amount_commitment {ALLOCS}.

#[export] Instance AllocationTranscriptSegmentStatement_eq_dec ALLOCS :
  EqDecision (AllocationTranscriptSegmentStatement ALLOCS).
Proof. solve_decision. Defined.

Record AllocationConservationSegmentStatement (ALLOCS : nat) := {
  acs_transcript : AllocationTranscriptSegmentStatement ALLOCS;
  acs_previous_total_commitment : Bytes32;
  acs_next_total_commitment : Bytes32
}.
Arguments acs_transcript {ALLOCS}.
Arguments acs_previous_total_commitment {ALLOCS}.
Arguments acs_next_total_commitment {ALLOCS}.

Record AllocationConservationFinalStatement := {
  afs_spent_total_count : u64;
  afs_new_total_count : u64;
  afs_spent_total_commitment : Bytes32;
  afs_new_total_commitment : Bytes32
}.

Record AllocationExclusionSegmentPairStatement (SPENT NEW : nat) := {
  aes_spent_previous_root : Bytes32;
  aes_spent_next_root : Bytes32;
  aes_new_previous_root : Bytes32;
  aes_new_next_root : Bytes32;
  aes_chain_id : KaspaChainId;
  aes_spent_segment_index : u64;
  aes_new_segment_index : u64;
  aes_spent_total_count : u64;
  aes_new_total_count : u64;
  aes_spent_amount_commitment : Bytes32;
  aes_new_amount_commitment : Bytes32
}.
Arguments aes_spent_previous_root {SPENT NEW}.
Arguments aes_spent_next_root {SPENT NEW}.
Arguments aes_new_previous_root {SPENT NEW}.
Arguments aes_new_next_root {SPENT NEW}.
Arguments aes_chain_id {SPENT NEW}.
Arguments aes_spent_segment_index {SPENT NEW}.
Arguments aes_new_segment_index {SPENT NEW}.
Arguments aes_spent_total_count {SPENT NEW}.
Arguments aes_new_total_count {SPENT NEW}.
Arguments aes_spent_amount_commitment {SPENT NEW}.
Arguments aes_new_amount_commitment {SPENT NEW}.

Definition transcript_public_inputs {ALLOCS} (self : AllocationTranscriptSegmentStatement ALLOCS)
  : list byte :=
  ats_previous_root self ++
  ats_next_root self ++
  chain_id_tagged_le_u32 (ats_chain_id self) ++
  [side_as_u8 (ats_side self)] ++
  replicate 7 x00 ++
  u64_le (ats_segment_index self) ++
  u64_le (ats_total_count self) ++
  ats_segment_amount_commitment self.

Definition conservation_public_inputs {ALLOCS} (self : AllocationConservationSegmentStatement ALLOCS)
  : list byte :=
  transcript_public_inputs (acs_transcript self) ++
  acs_previous_total_commitment self ++
  acs_next_total_commitment self.

Definition final_public_inputs (self : AllocationConservationFinalStatement) : list byte :=
  u64_le (afs_spent_total_count self) ++
  u64_le (afs_new_total_count self) ++
  afs_spent_total_commitment self ++
  afs_new_total_commitment self.

Definition exclusion_public_inputs {SPENT NEW}
    (self : AllocationExclusionSegmentPairStatement SPENT NEW) : list byte :=
  aes_spent_previous_root self ++
  aes_spent_next_root self ++
  aes_new_previous_root self ++
  aes_new_next_root self ++
  chain_id_tagged_le_u32 (aes_chain_id self) ++
  u64_le (aes_spent_segment_index self) ++
  u64_le (aes_new_segment_index self) ++
  u64_le (aes_spent_total_count self) ++
  u64_le (aes_new_total_count self) ++
  aes_spent_amount_commitment self ++
  aes_new_amount_commitment self.

(** * Witnesses *)

Record AllocationTranscriptSegmentWitness (ALLOCS : nat) := {
  atw_allocations : vec (list byte) ALLOCS;
  atw_segment_amount : u64;
  atw_amount_blinding : Bytes32
}.
Arguments atw_allocations {ALLOCS}.
Arguments atw_segment_amount {ALLOCS}.
Arguments atw_amount_blinding {ALLOCS}.

Record AllocationConservationSegmentWitness (ALLOCS : nat) := {
  acw_transcript : AllocationTranscriptSegmentWitness ALLOCS;
  acw_previous_total : u64;
  acw_next_total : u64;
  acw_previous_total_blinding : Bytes32;
  acw_next_total_blinding : Bytes32
}.
Arguments acw_transcript {ALLOCS}.
Arguments acw_previous_total {ALLOCS}.
Arguments acw_next_total {ALLOCS}.
Arguments acw_previous_total_blinding {ALLOCS}.
Arguments acw_next_total_blinding {ALLOCS}.

Record AllocationConservationFinalWitness := {
  afw_total : u64;
  afw_spent_total_blinding : Bytes32;
  afw_new_total_blinding : Bytes32
}.

Record AllocationExclusionSegmentPairWitness (SPENT NEW : nat) := {
  aew_spent : AllocationTranscriptSegmentWitness SPENT;
  aew_new : AllocationTranscriptSegmentWitness NEW
}.
Arguments aew_spent {SPENT NEW}.
Arguments aew_new {SPENT NEW}.

(** The four audit circuits differ in the type of their witness. *)
Record AuditCircuit (W : Type) := {
  auc_public_inputs : list byte;
  auc_witness : W
}.
Arguments auc_public_inputs {W}.
Arguments auc_witness {W}.

(** The sums of the native allocations ([what] is the refusal of an overflow)
    and of the witnesses. *)
Definition checked_amount_sum (what : string) (allocations : list RgkAllocation) : sresult u64 :=
  try_fold (λ sum allocation, ok_or (checked_add sum (al_amount allocation)) what)
    (wrap 64 0) allocations.

Definition allocation_amount_sum : list RgkAllocation → sresult u64 :=
  checked_amount_sum "allocation amount sum overflow".

(** [allocation.get(lo..hi)] *)
Definition get_slice (l : list byte) (lo hi : nat) : option (list byte) :=
  if decide (hi <= length l)%nat then Some (slice l lo hi) else None.

Definition allocation_witness_amount (allocations : list (list byte)) : option u64 :=
  opt_fold (λ sum allocation,
      bytes ← get_slice allocation 117 125; checked_add sum (wrap 64 (le_val bytes)))
    (wrap 64 0) allocations.

Section statements.
Context `{Sha256}.

Definition allocation_conservation_total_commitment (side : RgkAllocationTranscriptSide)
    (total_count running_total : u64) (blinding : Bytes32) : Bytes32 :=
  let payload :=
    [side_as_u8 side] ++ u64_le total_count ++ u64_le running_total ++ blinding in
  asset_domain_hash "rgk:asset:allocation-conservation-total:v1" payload.

Definition allocation_transcript_segment_root_from_witness (previous_root : Bytes32)
    (side : RgkAllocationTranscriptSide) (segment_index total_count : u64)
    (allocations : list (list byte)) : Bytes32 :=
  let payload :=
    previous_root ++ [side_as_u8 side] ++ u64_le segment_index ++ u64_le total_count ++
    u64_le (len_u64 allocations) ++ concat allocations in
  asset_domain_hash "rgk:asset:allocation-transcript-segment-root:v1" payload.

(** [allocations[0].anchor.chain]; the callers have refused an empty slice. *)
Definition first_chain (allocations : list RgkAllocation) : KaspaChainId :=
  match allocations with a :: _ => an_chain (al_anchor a) | [] => KaspaMainnet end.

Definition mixed_chains (chain_id : KaspaChainId) (allocations : list RgkAllocation) : bool :=
  existsb (λ allocation, bool_decide (an_chain (al_anchor allocation) ≠ chain_id)) allocations.

Definition transcript_from_allocations (ALLOCS : nat) (previous_root : Bytes32)
    (side : RgkAllocationTranscriptSide) (segment_index total_count : u64)
    (allocations : list RgkAllocation) (amount_blinding : Bytes32)
  : sresult (AllocationTranscriptSegmentStatement ALLOCS) :=
  _ ← fail_if (ALLOCS = 0%nat) "allocation transcript segment requires at least one allocation";
  _ ← fail_if (length allocations ≠ ALLOCS)
        ("expected " ++ usize_display (Z.of_nat ALLOCS) ++ " allocation transcript witnesses, got " ++
         usize_display (Z.of_nat (length allocations)))%string;
  _ ← fail_if (total_count < usize_of ALLOCS)%Z
        ("total allocation count " ++ usize_display total_count ++
         " is smaller than segment length " ++ usize_display (Z.of_nat ALLOCS))%string;
  let chain_id := first_chain allocations in
  _ ← fail_if (mixed_chains chain_id allocations = true)
        "allocation transcript segment contains mixed chain ids";
  segment_amount ← checked_amount_sum "allocation transcript segment amount overflow" allocations;
  _ ← fail_if (uval segment_amount = 0%Z)
        "allocation transcript segment amount must be non-zero";
  Ok {| ats_previous_root := previous_root;
        ats_next_root :=
          extend_allocation_transcript_root previous_root side segment_index total_count allocations;
        ats_chain_id := chain_id;
        ats_side := side;
        ats_segment_index := segment_index;
        ats_total_count := total_count;
        ats_segment_amount_commitment :=
          allocation_transcript_amount_commitment side segment_index total_count segment_amount
            amount_blinding |}.

(** [sum.checked_add] over witnesses of the right length *)
Definition witness_amount (allocations : list (list byte)) : option u64 :=
  opt_fold (λ sum allocation, checked_add sum (wrap 64 (le_val (slice allocation 117 125))))
    (wrap 64 0) allocations.

Definition transcript_matches_witness {ALLOCS} (self : AllocationTranscriptSegmentStatement ALLOCS)
    (witness : AllocationTranscriptSegmentWitness ALLOCS) : bool :=
  if decide (ALLOCS = 0%nat) then false
  else if some_len_differs (atw_allocations witness) then false
  else if existsb (λ allocation, negb (Byte.eqb (nth 0 allocation x00) (chain_as_u8 (ats_chain_id self))))
            (atw_allocations witness) then false
  else match witness_amount (atw_allocations witness) with
  | None => false
  | Some segment_amount =>
      bool_decide (segment_amount = atw_segment_amount witness) &&
      bool_decide (ats_segment_amount_commitment self =
        allocation_transcript_amount_commitment (ats_side self) (ats_segment_index self)
          (ats_total_count self) (atw_segment_amount witness) (atw_amount_blinding witness)) &&
      bool_decide (ats_next_root self =
        allocation_transcript_segment_root_from_witness (ats_previous_root self) (ats_side self)
          (ats_segment_index self) (ats_total_count self) (atw_allocations witness))
  end.

(** [AllocationTranscriptSegmentWitness::new] and [from_allocations] *)
Definition transcript_witness_new {ALLOCS} (allocations : vec (list byte) ALLOCS)
    (segment_amount : u64) (amount_blinding : Bytes32)
  : sresult (AllocationTranscriptSegmentWitness ALLOCS) :=
  _ ← fail_if (ALLOCS = 0%nat) "allocation transcript segment requires at least one allocation";
  _ ← try_foldi (λ i _ allocation,
        fail_if (length allocation ≠ ALLOCATION_WITNESS_LEN)
          (expected_witness_len
             ("allocation transcript witness " ++ usize_display (Z.of_nat i))%string allocation))
      0 () (vec_to_list allocations);
  _ ← fail_if (uval segment_amount = 0%Z)
        "allocation transcript segment amount must be non-zero";
  Ok {| atw_allocations := allocations; atw_segment_amount := segment_amount;
        atw_amount_blinding := amount_blinding |}.

Definition transcript_witness_from_allocations (ALLOCS : nat) (allocations : list RgkAllocation)
    (amount_blinding : Bytes32) : sresult (AllocationTranscriptSegmentWitness ALLOCS) :=
  _ ← fail_if (length allocations ≠ ALLOCS)
        ("expected " ++ usize_display (Z.of_nat ALLOCS) ++ " allocation transcript witnesses, got " ++
         usize_display (Z.of_nat (length allocations)))%string;
  segment_amount ← checked_amount_sum "allocation transcript segment amount overflow" allocations;
  let ordered := sort_by_key allocation_key allocations in
  transcript_witness_new
    (fun_to_vec (λ i : fin ALLOCS, nth i (encode_native_allocation <$> ordered) []))
    segment_amount amount_blinding.

Definition conservation_from_allocations (ALLOCS : nat) (previous_root : Bytes32)
    (side : RgkAllocationTranscriptSide) (segment_index total_count previous_running_total : u64)
    (allocations : list RgkAllocation)
    (amount_blinding previous_total_blinding next_total_blinding : Bytes32)
  : sresult (AllocationConservationSegmentStatement ALLOCS) :=
  _ ← fail_if (previous_total_blinding = zero32 ∨ next_total_blinding = zero32)
        "allocation conservation running total blindings must be non-zero";
  _ ← fail_if (uval segment_index = 0%Z ∧ uval previous_running_total ≠ 0%Z)
        "initial allocation conservation segment must start from zero";
  transcript ← transcript_from_allocations ALLOCS previous_root side segment_index total_count
                 allocations amount_blinding;
  segment_amount ← allocation_amount_sum allocations;
  next_running_total ← ok_or (checked_add previous_running_total segment_amount)
                         "allocation conservation running total overflow";
  Ok {| acs_transcript := transcript;
        acs_previous_total_commitment :=
          allocation_conservation_total_commitment side total_count previous_running_total
            previous_total_blinding;
        acs_next_total_commitment :=
          allocation_conservation_total_commitment side total_count next_running_total
            next_total_blinding |}.

Definition conservation_witness_from_allocations (ALLOCS : nat) (previous_running_total : u64)
    (allocations : list RgkAllocation)
    (amount_blinding previous_total_blinding next_total_blinding : Bytes32)
  : sresult (AllocationConservationSegmentWitness ALLOCS) :=
  _ ← fail_if (previous_total_blinding = zero32 ∨ next_total_blinding = zero32)
        "allocation conservation running total blindings must be non-zero";
  segment_amount ← allocation_amount_sum allocations;
  next_total ← ok_or (checked_add previous_running_total segment_amount)
                 "allocation conservation running total overflow";
  transcript ← transcript_witness_from_allocations ALLOCS allocations amount_blinding;
  Ok {| acw_transcript := transcript;
        acw_previous_total := previous_running_total;
        acw_next_total := next_total;
        acw_previous_total_blinding := previous_total_blinding;
        acw_next_total_blinding := next_total_blinding |}.

(** [allocation_conservation_segment_matches] *)
Definition conservation_matches_witness {ALLOCS}
    (statement : AllocationConservationSegmentStatement ALLOCS)
    (witness : AllocationConservationSegmentWitness ALLOCS) : bool :=
  let t := acs_transcript statement in
  if decide (acw_previous_total_blinding witness = zero32 ∨
             acw_next_total_blinding witness = zero32) then false
  else if decide (uval (ats_segment_index t) = 0%Z ∧ uval (acw_previous_total witness) ≠ 0%Z)
  then false
  else if negb (transcript_matches_witness t (acw_transcript witness)) then false
  else match allocation_witness_amount (atw_allocations (acw_transcript witness)) with
  | None => false
  | Some segment_amount =>
      match checked_add (acw_previous_total witness) segment_amount with
      | None => false
      | Some next_total =>
          bool_decide (next_total = acw_next_total witness) &&
          bool_decide (acs_previous_total_commitment statement =
            allocation_conservation_total_commitment (ats_side t) (ats_total_count t)
              (acw_previous_total witness) (acw_previous_total_blinding witness)) &&
          bool_decide (acs_next_total_commitment statement =
            allocation_conservation_total_commitment (ats_side t) (ats_total_count t)
              (acw_next_total witness) (acw_next_total_blinding witness))
      end
  end.

Definition final_from_total (spent_total_count new_total_count total : u64)
    (spent_total_blinding new_total_blinding : Bytes32)
  : sresult AllocationConservationFinalStatement :=
  _ ← fail_if (uval spent_total_count = 0%Z ∨ uval new_total_count = 0%Z)
        "allocation conservation final counts must be non-zero";
  _ ← fail_if (uval total = 0%Z) "allocation conservation final total must be non-zero";
  _ ← fail_if (spent_total_blinding = zero32 ∨ new_total_blinding = zero32)
        "allocation conservation final blindings must be non-zero";
  Ok {| afs_spent_total_count := spent_total_count;
        afs_new_total_count := new_total_count;
        afs_spent_total_commitment :=
          allocation_conservation_total_commitment Spent spent_total_count total spent_total_blinding;
        afs_new_total_commitment :=
          allocation_conservation_total_commitment New new_total_count total new_total_blinding |}.

Definition final_matches_witness (self : AllocationConservationFinalStatement)
    (witness : AllocationConservationFinalWitness) : bool :=
  bool_decide (uval (afs_spent_total_count self) ≠ 0%Z) &&
  bool_decide (uval (afs_new_total_count self) ≠ 0%Z) &&
  bool_decide (uval (afw_total witness) ≠ 0%Z) &&
  bool_decide (afw_spent_total_blinding witness ≠ zero32) &&
  bool_decide (afw_new_total_blinding witness ≠ zero32) &&
  bool_decide (afs_spent_total_commitment self =
    allocation_conservation_total_commitment Spent (afs_spent_total_count self)
      (afw_total witness) (afw_spent_total_blinding witness)) &&
  bool_decide (afs_new_total_commitment self =
    allocation_conservation_total_commitment New (afs_new_total_count self)
      (afw_total witness) (afw_new_total_blinding witness)).

Definition final_witness_new (total : u64) (spent_total_blinding new_total_blinding : Bytes32)
  : sresult AllocationConservationFinalWitness :=
  _ ← fail_if (uval total = 0%Z) "allocation conservation final total must be non-zero";
  _ ← fail_if (spent_total_blinding = zero32 ∨ new_total_blinding = zero32)
        "allocation conservation final blindings must be non-zero";
  Ok {| afw_total := total; afw_spent_total_blinding := spent_total_blinding;
        afw_new_total_blinding := new_total_blinding |}.

Definition exclusion_from_allocations (SPENT NEW : nat) (spent_previous_root new_previous_root : Bytes32)
    (spent_segment_index new_segment_index spent_total_count new_total_count : u64)
    (spent_allocations new_allocations : list RgkAllocation)
    (spent_amount_blinding new_amount_blinding : Bytes32)
  : sresult (AllocationExclusionSegmentPairStatement SPENT NEW) :=
  _ ← fail_if (SPENT = 0%nat ∨ NEW = 0%nat)
        "allocation exclusion segment-pair proof requires non-empty spent and new segments";
  _ ← fail_if (length spent_allocations ≠ SPENT ∨ length new_allocations ≠ NEW)
        ("expected spent/new segment lengths " ++ usize_display (Z.of_nat SPENT) ++ "/" ++
         usize_display (Z.of_nat NEW) ++ ", got " ++
         usize_display (Z.of_nat (length spent_allocations)) ++ "/" ++
         usize_display (Z.of_nat (length new_allocations)))%string;
  _ ← fail_if (spent_total_count < usize_of SPENT ∨ new_total_count < usize_of NEW)%Z
        "allocation exclusion total counts must cover their segments";
  let chain_id := first_chain spent_allocations in
  _ ← fail_if (mixed_chains chain_id (spent_allocations ++ new_allocations) = true)
        "allocation exclusion segment-pair proof contains mixed chain ids";
  spent_amount ← allocation_amount_sum spent_allocations;
  new_amount ← allocation_amount_sum new_allocations;
  _ ← fail_if (uval spent_amount = 0%Z ∨ uval new_amount = 0%Z)
        "allocation exclusion segment amount must be non-zero";
  Ok {| aes_spent_previous_root := spent_previous_root;
        aes_spent_next_root :=
          extend_allocation_transcript_root spent_previous_root Spent spent_segment_index
            spent_total_count spent_allocations;
        aes_new_previous_root := new_previous_root;
        aes_new_next_root :=
          extend_allocation_transcript_root new_previous_root New new_segment_index
            new_total_count new_allocations;
        aes_chain_id := chain_id;
        aes_spent_segment_index := spent_segment_index;
        aes_new_segment_index := new_segment_index;
        aes_spent_total_count := spent_total_count;
        aes_new_total_count := new_total_count;
        aes_spent_amount_commitment :=
          allocation_transcript_amount_commitment Spent spent_segment_index spent_total_count
            spent_amount spent_amount_blinding;
        aes_new_amount_commitment :=
          allocation_transcript_amount_commitment New new_segment_index new_total_count
            new_amount new_amount_blinding |}.

Definition exclusion_witness_from_allocations (SPENT NEW : nat)
    (spent_allocations new_allocations : list RgkAllocation)
    (spent_amount_blinding new_amount_blinding : Bytes32)
  : sresult (AllocationExclusionSegmentPairWitness SPENT NEW) :=
  spent ← transcript_witness_from_allocations SPENT spent_allocations spent_amount_blinding;
  new ← transcript_witness_from_allocations NEW new_allocations new_amount_blinding;
  Ok {| aew_spent := spent; aew_new := new |}.

(** [allocation_exclusion_segment_pair_matches] *)
Definition exclusion_matches_witness {SPENT NEW}
    (statement : AllocationExclusionSegmentPairStatement SPENT NEW)
    (witness : AllocationExclusionSegmentPairWitness SPENT NEW) : bool :=
  let spent_allocations := vec_to_list (atw_allocations (aew_spent witness)) in
  let new_allocations := vec_to_list (atw_allocations (aew_new witness)) in
  if decide (SPENT = 0%nat ∨ NEW = 0%nat) then false
  else if existsb (λ allocation,
            bool_decide (length allocation ≠ ALLOCATION_WITNESS_LEN) ||
            negb (Byte.eqb (nth 0 allocation x00) (chain_as_u8 (aes_chain_id statement))))
            (spent_allocations ++ new_allocations) then false
  else if existsb (λ spent,
            existsb (λ new, bool_decide (slice spent 1 41 = slice new 1 41)) new_allocations)
            spent_allocations then false
  else match allocation_witness_amount spent_allocations, allocation_witness_amount new_allocations with
  | Some spent_amount, Some new_amount =>
      bool_decide (spent_amount = atw_segment_amount (aew_spent witness)) &&
      bool_decide (new_amount = atw_segment_amount (aew_new witness)) &&
      bool_decide (aes_spent_next_root statement =
        allocation_transcript_segment_root_from_witness (aes_spent_previous_root statement) Spent
          (aes_spent_segment_index statement) (aes_spent_total_count statement) spent_allocations) &&
      bool_decide (aes_new_next_root statement =
        allocation_transcript_segment_root_from_witness (aes_new_previous_root statement) New
          (aes_new_segment_index statement) (aes_new_total_count statement) new_allocations) &&
      bool_decide (aes_spent_amount_commitment statement =
        allocation_transcript_amount_commitment Spent (aes_spent_segment_index statement)
          (aes_spent_total_count statement) (atw_segment_amount (aew_spent witness))
          (atw_amount_blinding (aew_spent witness))) &&
      bool_decide (aes_new_amount_commitment statement =
        allocation_transcript_amount_commitment New (aes_new_segment_index statement)
          (aes_new_total_count statement) (atw_segment_amount (aew_new witness))
          (atw_amount_blinding (aew_new witness)))
  | _, _ => false
  end.

(** * Circuits *)

(** [from_statement_and_witness] of the four circuits *)
Definition transcript_circuit {ALLOCS} (statement : AllocationTranscriptSegmentStatement ALLOCS)
    (allocation_witness : AllocationTranscriptSegmentWitness ALLOCS)
  : sresult (AuditCircuit (AllocationTranscriptSegmentWitness ALLOCS)) :=
  _ ← fail_if (transcript_matches_witness statement allocation_witness = false)
        "allocation transcript witness does not match the public segment root and amount";
  Ok {| auc_public_inputs := transcript_public_inputs statement; auc_witness := allocation_witness |}.

Definition conservation_circuit {ALLOCS} (statement : AllocationConservationSegmentStatement ALLOCS)
    (witness : AllocationConservationSegmentWitness ALLOCS)
  : sresult (AuditCircuit (AllocationConservationSegmentWitness ALLOCS)) :=
  _ ← fail_if (conservation_matches_witness statement witness = false)
        "allocation conservation segment witness does not match the public roots, amount commitment, or running totals";
  Ok {| auc_public_inputs := conservation_public_inputs statement; auc_witness := witness |}.

Definition final_circuit (statement : AllocationConservationFinalStatement)
    (witness : AllocationConservationFinalWitness)
  : sresult (AuditCircuit AllocationConservationFinalWitness) :=
  _ ← fail_if (final_matches_witness statement witness = false)
        "allocation conservation final witness does not open both public total commitments to the same amount";
  Ok {| auc_public_inputs := final_public_inputs statement; auc_witness := witness |}.

Definition exclusion_circuit {SPENT NEW} (statement : AllocationExclusionSegmentPairStatement SPENT NEW)
    (witness : AllocationExclusionSegmentPairWitness SPENT NEW)
  : sresult (AuditCircuit (AllocationExclusionSegmentPairWitness SPENT NEW)) :=
  _ ← fail_if (exclusion_matches_witness statement witness = false)
        "allocation exclusion segment-pair witness does not match the public roots, commitments, or exclusion relation";
  Ok {| auc_public_inputs := exclusion_public_inputs statement; auc_witness := witness |}.
End statements.

(** * Constraints *)

Section constraints.
Context {G : Gadgets}.

Definition enforce_transcript_layout (public : list UInt8) : synth unit :=
  _ ← unsat_if (length public ≠ ALLOCATION_TRANSCRIPT_SEGMENT_PUBLIC_INPUT_LEN);
  _ ← enforce_nonzero_bytes (slice public 0 32);
  _ ← enforce_nonzero_bytes (slice public 32 64);
  _ ← enforce_bytes_differ (slice public 0 32) (slice public 32 64);
  _ ← enforce_chain_id_layout (slice public 64 72);
  _ ← enforce_byte_in (byte_at public 72) [x00; x01];
  _ ← for_each (λ byte, enforce_byte_equals byte x00) (slice public 73 80);
  _ ← enforce_nonzero_bytes (slice public 88 96);
  enforce_nonzero_bytes (slice public 96 128).

Definition enforce_conservation_layout (public : list UInt8) : synth unit :=
  _ ← unsat_if (length public ≠ ALLOCATION_CONSERVATION_SEGMENT_PUBLIC_INPUT_LEN);
  _ ← enforce_transcript_layout (slice public 0 ALLOCATION_TRANSCRIPT_SEGMENT_PUBLIC_INPUT_LEN);
  _ ← enforce_nonzero_bytes (slice public 128 160);
  enforce_nonzero_bytes (slice public 160 192).

Definition enforce_final_layout (public : list UInt8) : synth unit :=
  _ ← unsat_if (length public ≠ ALLOCATION_CONSERVATION_FINAL_PUBLIC_INPUT_LEN);
  _ ← enforce_nonzero_bytes (slice public 0 8);
  _ ← enforce_nonzero_bytes (slice public 8 16);
  _ ← enforce_nonzero_bytes (slice public 16 48);
  enforce_nonzero_bytes (slice public 48 80).

Definition enforce_exclusion_layout (public : list UInt8) : synth unit :=
  _ ← unsat_if (length public ≠ ALLOCATION_EXCLUSION_SEGMENT_PAIR_PUBLIC_INPUT_LEN);
  _ ← enforce_nonzero_bytes (slice public 0 32);
  _ ← enforce_nonzero_bytes (slice public 32 64);
  _ ← enforce_nonzero_bytes (slice public 64 96);
  _ ← enforce_nonzero_bytes (slice public 96 128);
  _ ← enforce_bytes_differ (slice public 0 32) (slice public 32 64);
  _ ← enforce_bytes_differ (slice public 64 96) (slice public 96 128);
  _ ← enforce_chain_id_layout (slice public 128 136);
  _ ← enforce_nonzero_bytes (slice public 152 160);
  _ ← enforce_nonzero_bytes (slice public 160 168);
  _ ← enforce_nonzero_bytes (slice public 168 200);
  enforce_nonzero_bytes (slice public 200 232).

Definition transcript_segment_root_digest (ALLOCS : nat) (previous_root : list UInt8) (side : UInt8)
    (segment_index total_count : list UInt8) (allocations : list (list UInt8)) : synth (list UInt8) :=
  _ ← unsat_if (length previous_root ≠ 32 ∨ length segment_index ≠ 8 ∨ length total_count ≠ 8 ∨
                length allocations ≠ ALLOCS);
  let payload :=
    previous_root ++ [side] ++ segment_index ++ total_count ++
    constant_vec (u64_le (usize_of ALLOCS)) ++ concat allocations in
  mret (domain_hash_digest "rgk:asset:allocation-transcript-segment-root:v1" payload).

Definition transcript_amount_commitment_digest (side : UInt8)
    (segment_index total_count segment_amount amount_blinding : list UInt8) : synth (list UInt8) :=
  _ ← unsat_if (length segment_index ≠ 8 ∨ length total_count ≠ 8 ∨ length segment_amount ≠ 8 ∨
                length amount_blinding ≠ 32);
  let payload := [side] ++ segment_index ++ total_count ++ segment_amount ++ amount_blinding in
  mret (domain_hash_digest "rgk:asset:allocation-transcript-amount:v1" payload).

Definition conservation_total_commitment_digest (side : UInt8)
    (total_count running_total blinding : list UInt8) : synth (list UInt8) :=
  _ ← unsat_if (length total_count ≠ 8 ∨ length running_total ≠ 8 ∨ length blinding ≠ 32);
  let payload := [side] ++ total_count ++ running_total ++ blinding in
  mret (domain_hash_digest "rgk:asset:allocation-conservation-total:v1" payload).

Definition enforce_transcript_segment (ALLOCS : nat)
    (public segment_amount amount_blinding : list UInt8) (allocations : list (list UInt8))
  : synth unit :=
  _ ← unsat_if (length public ≠ ALLOCATION_TRANSCRIPT_SEGMENT_PUBLIC_INPUT_LEN ∨
                length allocations ≠ ALLOCS);
  _ ← unsat_if (length segment_amount ≠ 8 ∨ length amount_blinding ≠ 32);
  _ ← validate_nonempty_allocation_slices allocations;
  _ ← enforce_nonzero_bytes segment_amount;
  _ ← enforce_nonzero_bytes amount_blinding;
  _ ← for_each (enforce_allocation_common_for_chain (byte_at public 68)) allocations;
  _ ← enforce_distinct_outpoints allocations;
  let segment_amount_fr := le_bytes_as_fr segment_amount in
  let amount_sum := sum_allocation_amounts allocations in
  _ ← enforce (fp_enforce_equal amount_sum segment_amount_fr);
  amount_commitment ← transcript_amount_commitment_digest (byte_at public 72) (slice public 80 88)
                        (slice public 88 96) segment_amount amount_blinding;
  _ ← enforce_bytes_equal amount_commitment (slice public 96 128);
  computed_next_root ← transcript_segment_root_digest ALLOCS (slice public 0 32) (byte_at public 72)
                         (slice public 80 88) (slice public 88 96) allocations;
  enforce_bytes_equal computed_next_root (slice public 32 64).

Definition enforce_initial_total_zero (segment_index previous_total : list UInt8) : synth unit :=
  _ ← unsat_if (length segment_index ≠ 8 ∨ length previous_total ≠ 8);
  let is_first_segment := bytes_is_eq segment_index (constant_vec (replicate 8 x00)) in
  let not_first_segment := bool_not is_first_segment in
  for_each (λ byte,
    let byte_is_zero := u8_is_eq byte (u8_constant x00) in
    enforce_some [not_first_segment; byte_is_zero]) previous_total.

Definition enforce_conservation_segment (ALLOCS : nat)
    (public segment_amount amount_blinding previous_total next_total
     previous_total_blinding next_total_blinding : list UInt8)
    (allocations : list (list UInt8)) : synth unit :=
  _ ← unsat_if (length public ≠ ALLOCATION_CONSERVATION_SEGMENT_PUBLIC_INPUT_LEN ∨
                length previous_total ≠ 8 ∨ length next_total ≠ 8 ∨
                length previous_total_blinding ≠ 32 ∨ length next_total_blinding ≠ 32);
  _ ← enforce_transcript_segment ALLOCS
        (slice public 0 ALLOCATION_TRANSCRIPT_SEGMENT_PUBLIC_INPUT_LEN)
        segment_amount amount_blinding allocations;
  _ ← enforce_nonzero_bytes previous_total_blinding;
  _ ← enforce_nonzero_bytes next_total_blinding;
  let previous_total_fr := le_bytes_as_fr previous_total in
  let next_total_fr := le_bytes_as_fr next_total in
  let segment_amount_fr := le_bytes_as_fr segment_amount in
  let computed_next_total := fp_add previous_total_fr segment_amount_fr in
  _ ← enforce (fp_enforce_equal computed_next_total next_total_fr);
  _ ← enforce_initial_total_zero (slice public 80 88) previous_total;
  previous_total_commitment ← conservation_total_commitment_digest (byte_at public 72)
                                (slice public 88 96) previous_total previous_total_blinding;
  _ ← enforce_bytes_equal previous_total_commitment (slice public 128 160);
  next_total_commitment ← conservation_total_commitment_digest (byte_at public 72)
                            (slice public 88 96) next_total next_total_blinding;
  enforce_bytes_equal next_total_commitment (slice public 160 192).

Definition enforce_conservation_final
    (public total spent_total_blinding new_total_blinding : list UInt8) : synth unit :=
  _ ← unsat_if (length public ≠ ALLOCATION_CONSERVATION_FINAL_PUBLIC_INPUT_LEN ∨
                length total ≠ 8 ∨ length spent_total_blinding ≠ 32 ∨
                length new_total_blinding ≠ 32);
  _ ← enforce_nonzero_bytes total;
  _ ← enforce_nonzero_bytes spent_total_blinding;
  _ ← enforce_nonzero_bytes new_total_blinding;
  spent_total_commitment ← conservation_total_commitment_digest (u8_constant (side_as_u8 Spent))
                             (slice public 0 8) total spent_total_blinding;
  _ ← enforce_bytes_equal spent_total_commitment (slice public 16 48);
  new_total_commitment ← conservation_total_commitment_digest (u8_constant (side_as_u8 New))
                           (slice public 8 16) total new_total_blinding;
  enforce_bytes_equal new_total_commitment (slice public 48 80).

Definition enforce_exclusion_segment_pair (SPENT NEW : nat)
    (public spent_amount spent_blinding new_amount new_blinding : list UInt8)
    (spent_allocations new_allocations : list (list UInt8)) : synth unit :=
  _ ← unsat_if (length public ≠ ALLOCATION_EXCLUSION_SEGMENT_PAIR_PUBLIC_INPUT_LEN ∨
                length spent_allocations ≠ SPENT ∨ length new_allocations ≠ NEW ∨
                length spent_amount ≠ 8 ∨ length new_amount ≠ 8 ∨
                length spent_blinding ≠ 32 ∨ length new_blinding ≠ 32);
  _ ← validate_nonempty_allocation_slices spent_allocations;
  _ ← validate_nonempty_allocation_slices new_allocations;
  _ ← enforce_nonzero_bytes spent_amount;
  _ ← enforce_nonzero_bytes new_amount;
  _ ← enforce_nonzero_bytes spent_blinding;
  _ ← enforce_nonzero_bytes new_blinding;
  _ ← for_each (enforce_allocation_common_for_chain (byte_at public 132)) spent_allocations;
  _ ← for_each (enforce_allocation_common_for_chain (byte_at public 132)) new_allocations;
  _ ← enforce_distinct_outpoints spent_allocations;
  _ ← enforce_distinct_outpoints new_allocations;
  _ ← enforce_spent_anchors_not_reused spent_allocations new_allocations;
  _ ← enforce (fp_enforce_equal (sum_allocation_amounts spent_allocations) (le_bytes_as_fr spent_amount));
  _ ← enforce (fp_enforce_equal (sum_allocation_amounts new_allocations) (le_bytes_as_fr new_amount));
  spent_amount_commitment ← transcript_amount_commitment_digest (u8_constant (side_as_u8 Spent))
                              (slice public 136 144) (slice public 152 160) spent_amount spent_blinding;
  _ ← enforce_bytes_equal spent_amount_commitment (slice public 168 200);
  new_amount_commitment ← transcript_amount_commitment_digest (u8_constant (side_as_u8 New))
                            (slice public 144 152) (slice public 160 168) new_amount new_blinding;
  _ ← enforce_bytes_equal new_amount_commitment (slice public 200 232);
  spent_next_root ← transcript_segment_root_digest SPENT (slice public 0 32)
                      (u8_constant (side_as_u8 Spent)) (slice public 136 144) (slice public 152 160)
                      spent_allocations;
  _ ← enforce_bytes_equal spent_next_root (slice public 32 64);
  new_next_root ← transcript_segment_root_digest NEW (slice public 64 96)
                    (u8_constant (side_as_u8 New)) (slice public 144 152) (slice public 160 168)
                    new_allocations;
  enforce_bytes_equal new_next_root (slice public 96 128).

Definition transcript_generate_constraints {ALLOCS}
    (self : AuditCircuit (AllocationTranscriptSegmentWitness ALLOCS)) : synth unit :=
  let w := auc_witness self in
  _ ← unsat_if (ALLOCS = 0%nat ∨
                length (auc_public_inputs self) ≠ ALLOCATION_TRANSCRIPT_SEGMENT_PUBLIC_INPUT_LEN ∨
                some_len_differs (atw_allocations w) = true);
  let public_frs := public_inputs_as_vars (auc_public_inputs self) in
  let public_bytes := witness_vec (auc_public_inputs self) in
  let public_bytes_frs := digest_bytes_as_frs public_bytes in
  _ ← enforce_frs_equal public_bytes_frs public_frs;
  _ ← enforce_transcript_layout public_bytes;
  let segment_amount := witness_vec (u64_le (atw_segment_amount w)) in
  let amount_blinding := witness_vec (atw_amount_blinding w) in
  let allocation_witnesses := witness_vec <$> vec_to_list (atw_allocations w) in
  enforce_transcript_segment ALLOCS public_bytes segment_amount amount_blinding allocation_witnesses.

Definition conservation_generate_constraints {ALLOCS}
    (self : AuditCircuit (AllocationConservationSegmentWitness ALLOCS)) : synth unit :=
  let w := auc_witness self in
  let t := acw_transcript w in
  _ ← unsat_if (ALLOCS = 0%nat ∨
                length (auc_public_inputs self) ≠ ALLOCATION_CONSERVATION_SEGMENT_PUBLIC_INPUT_LEN ∨
                some_len_differs (atw_allocations t) = true);
  let public_frs := public_inputs_as_vars (auc_public_inputs self) in
  let public_bytes := witness_vec (auc_public_inputs self) in
  let public_bytes_frs := digest_bytes_as_frs public_bytes in
  _ ← enforce_frs_equal public_bytes_frs public_frs;
  _ ← enforce_conservation_layout public_bytes;
  let segment_amount := witness_vec (u64_le (atw_segment_amount t)) in
  let amount_blinding := witness_vec (atw_amount_blinding t) in
  let previous_total := witness_vec (u64_le (acw_previous_total w)) in
  let next_total := witness_vec (u64_le (acw_next_total w)) in
  let previous_total_blinding := witness_vec (acw_previous_total_blinding w) in
  let next_total_blinding := witness_vec (acw_next_total_blinding w) in
  let allocation_witnesses := witness_vec <$> vec_to_list (atw_allocations t) in
  enforce_conservation_segment ALLOCS public_bytes segment_amount amount_blinding previous_total
    next_total previous_total_blinding next_total_blinding allocation_witnesses.

Definition final_generate_constraints (self : AuditCircuit AllocationConservationFinalWitness)
  : synth unit :=
  let w := auc_witness self in
  _ ← unsat_if (length (auc_public_inputs self) ≠ ALLOCATION_CONSERVATION_FINAL_PUBLIC_INPUT_LEN);
  let public_frs := public_inputs_as_vars (auc_public_inputs self) in
  let public_bytes := witness_vec (auc_public_inputs self) in
  let public_bytes_frs := digest_bytes_as_frs public_bytes in
  _ ← enforce_frs_equal public_bytes_frs public_frs;
  _ ← enforce_final_layout public_bytes;
  let total := witness_vec (u64_le (afw_total w)) in
  let spent_total_blinding := witness_vec (afw_spent_total_blinding w) in
  let new_total_blinding := witness_vec (afw_new_total_blinding w) in
  enforce_conservation_final public_bytes total spent_total_blinding new_total_blinding.

Definition exclusion_generate_constraints {SPENT NEW}
    (self : AuditCircuit (AllocationExclusionSegmentPairWitness SPENT NEW)) : synth unit :=
  let w := auc_witness self in
  _ ← unsat_if (SPENT = 0%nat ∨ NEW = 0%nat ∨
                length (auc_public_inputs self) ≠ ALLOCATION_EXCLUSION_SEGMENT_PAIR_PUBLIC_INPUT_LEN ∨
                some_len_differs (atw_allocations (aew_spent w)) = true ∨
                some_len_differs (atw_allocations (aew_new w)) = true);
  let public_frs := public_inputs_as_vars (auc_public_inputs self) in
  let public_bytes := witness_vec (auc_public_inputs self) in
  let public_bytes_frs := digest_bytes_as_frs public_bytes in
  _ ← enforce_frs_equal public_bytes_frs public_frs;
  _ ← enforce_exclusion_layout public_bytes;
  let spent_amount := witness_vec (u64_le (atw_segment_amount (aew_spent w))) in
  let spent_blinding := witness_vec (atw_amount_blinding (aew_spent w)) in
  let new_amount := witness_vec (u64_le (atw_segment_amount (aew_new w))) in
  let new_blinding := witness_vec (atw_amount_blinding (aew_new w)) in
  let spent_allocations := witness_vec <$> vec_to_list (atw_allocations (aew_spent w)) in
  let new_allocations := witness_vec <$> vec_to_list (atw_allocations (aew_new w)) in
  enforce_exclusion_segment_pair SPENT NEW public_bytes spent_amount spent_blinding new_amount
    new_blinding spent_allocations new_allocations.
End constraints.

(** * Bundles *)

Record AllocationAuditBundle (SPENT NEW : nat) := {
  aab_spent_transcripts : list (AllocationTranscriptSegmentStatement SPENT);
  aab_new_transcripts : list (AllocationTranscriptSegmentStatement NEW);
  aab_spent_conservation : list (AllocationConservationSegmentStatement SPENT);
  aab_new_conservation : list (AllocationConservationSegmentStatement NEW);
  aab_final_conservation : AllocationConservationFinalStatement;
  aab_exclusions : list (AllocationExclusionSegmentPairStatement SPENT NEW)
}.
Arguments aab_spent_transcripts {SPENT NEW}.
Arguments aab_new_transcripts {SPENT NEW}.
Arguments aab_spent_conservation {SPENT NEW}.
Arguments aab_new_conservation {SPENT NEW}.
Arguments aab_final_conservation {SPENT NEW}.
Arguments aab_exclusions {SPENT NEW}.

Record AllocationAuditBundleReport := {
  aar_chain_id : KaspaChainId;
  aar_spent_segments : usize;
  aar_new_segments : usize;
  aar_exclusion_pairs : usize;
  aar_spent_total_count : u64;
  aar_new_total_count : u64;
  aar_spent_final_root : Bytes32;
  aar_new_final_root : Bytes32;
  aar_spent_total_commitment : Bytes32;
  aar_new_total_commitment : Bytes32
}.

Record AllocationTranscriptChainAudit := {
  tca_chain_id : KaspaChainId;
  tca_total_count : u64;
  tca_final_root : Bytes32
}.

Definition usize_MAX : Z := (2 ^ 64 - 1)%Z.

Section bundles.
Context `{Sha256}.

(** The body of the loop over the segments; the state is
    [previous_next_root]. *)
Definition check_transcript_segment {ALLOCS} (label : string) (side : RgkAllocationTranscriptSide)
    (chain_id : KaspaChainId) (expected_total : u64) (position : nat) (previous_next_root : Bytes32)
    (segment : AllocationTranscriptSegmentStatement ALLOCS) : sresult Bytes32 :=
  let at_position := (" transcript segment " ++ usize_display (Z.of_nat position))%string in
  _ ← fail_if (usize_MAX < Z.of_nat position)%Z (label ++ " transcript chain index exceeds u64")%string;
  let expected_index := wrap 64 (Z.of_nat position) in
  _ ← fail_if (ats_side segment ≠ side) (label ++ at_position ++ " has the wrong side")%string;
  _ ← fail_if (ats_chain_id segment ≠ chain_id)
        (label ++ at_position ++ " has a different chain id")%string;
  _ ← fail_if (ats_segment_index segment ≠ expected_index)
        (label ++ " transcript segment index " ++ usize_display (ats_segment_index segment) ++
         " is not contiguous at " ++ usize_display expected_index)%string;
  _ ← fail_if (ats_total_count segment ≠ expected_total)
        (label ++ at_position ++ " total_count=" ++ usize_display (ats_total_count segment) ++
         " does not equal " ++ usize_display expected_total)%string;
  _ ← fail_if (ats_previous_root segment ≠ previous_next_root)
        (label ++ at_position ++ " does not link to the previous segment root")%string;
  Ok (ats_next_root segment).

Definition verify_allocation_transcript_chain {ALLOCS} (label : string)
    (side : RgkAllocationTranscriptSide) (segments : list (AllocationTranscriptSegmentStatement ALLOCS))
  : sresult AllocationTranscriptChainAudit :=
  _ ← fail_if (ALLOCS = 0%nat)
        (label ++ " transcript chain requires a non-zero segment arity")%string;
  first ← ok_or (head segments)
            (label ++ " transcript chain must contain at least one segment")%string;
  _ ← fail_if (ats_side first ≠ side) (label ++ " transcript chain has the wrong side")%string;
  let empty_root := allocation_transcript_empty_root side in
  _ ← fail_if (ats_previous_root first ≠ empty_root)
        (label ++ " transcript chain must start at the empty root")%string;
  expected_total_usize ← ok_or (checked_mul (usize_of (length segments)) (usize_of ALLOCS))
                           (label ++ " transcript chain allocation count overflow")%string;
  _ ← fail_if (usize_MAX < expected_total_usize)%Z
        (label ++ " transcript chain allocation count exceeds u64")%string;
  let expected_total := expected_total_usize in
  _ ← fail_if (ats_total_count first ≠ expected_total)
        (label ++ " transcript chain total_count=" ++ usize_display (ats_total_count first) ++
         " does not equal segment coverage " ++ usize_display expected_total)%string;
  let chain_id := ats_chain_id first in
  previous_next_root ← try_foldi (check_transcript_segment label side chain_id expected_total) 0
                         (ats_previous_root first) segments;
  Ok {| tca_chain_id := chain_id; tca_total_count := expected_total;
        tca_final_root := previous_next_root |}.

(** The body of the loop over the pairs; the state is
    [previous_next_commitment]. *)
Definition check_conservation_segment {ALLOCS} (label : string) (position : nat)
    (previous_next_commitment : option Bytes32)
    (p : AllocationTranscriptSegmentStatement ALLOCS * AllocationConservationSegmentStatement ALLOCS)
  : sresult (option Bytes32) :=
  let '(transcript, statement) := p in
  let at_position := (" conservation segment " ++ usize_display (Z.of_nat position))%string in
  _ ← fail_if (acs_transcript statement ≠ transcript)
        (label ++ at_position ++ " does not bind the matching transcript segment")%string;
  _ ← fail_if (position = 0%nat ∧ uval (ats_segment_index transcript) ≠ 0%Z)
        (label ++ " conservation chain does not start at segment index zero")%string;
  _ ← match previous_next_commitment with
      | Some expected_previous =>
          fail_if (acs_previous_total_commitment statement ≠ expected_previous)
            (label ++ at_position ++
             " does not link to the previous running-total commitment")%string
      | None => Ok ()
      end;
  Ok (Some (acs_next_total_commitment statement)).

Definition verify_allocation_conservation_chain {ALLOCS} (label : string)
    (transcripts : list (AllocationTranscriptSegmentStatement ALLOCS))
    (conservation : list (AllocationConservationSegmentStatement ALLOCS))
    (final_total_commitment : Bytes32) : sresult unit :=
  _ ← fail_if (length conservation ≠ length transcripts)
        (label ++ " conservation chain has " ++ usize_display (Z.of_nat (length conservation)) ++
         " segments for " ++ usize_display (Z.of_nat (length transcripts)) ++
         " transcript segments")%string;
  previous_next_commitment ← try_foldi (check_conservation_segment label) 0 None
                               (zip transcripts conservation);
  fail_if (previous_next_commitment ≠ Some final_total_commitment)
    (label ++
     " conservation chain terminal commitment does not match final equality statement")%string.

(** [segments.iter().find(|segment| segment.segment_index == index)] *)
Definition find_segment {ALLOCS} (segments : list (AllocationTranscriptSegmentStatement ALLOCS))
    (index : u64) : option (AllocationTranscriptSegmentStatement ALLOCS) :=
  snd <$> list_find (λ segment, ats_segment_index segment = index) segments.

Definition pair_label (pair : u64 * u64) : string :=
  ("spent=" ++ usize_display pair.1 ++ " new=" ++ usize_display pair.2)%string.

(** The body of the loop over the exclusions; the state is [seen]. *)
Definition check_exclusion {SPENT NEW}
    (spent_transcripts : list (AllocationTranscriptSegmentStatement SPENT))
    (new_transcripts : list (AllocationTranscriptSegmentStatement NEW))
    (chain_id : KaspaChainId) (seen : list (u64 * u64))
    (exclusion : AllocationExclusionSegmentPairStatement SPENT NEW) : sresult (list (u64 * u64)) :=
  _ ← fail_if (aes_chain_id exclusion ≠ chain_id)
        "allocation exclusion grid contains a mixed chain id";
  let pair := (aes_spent_segment_index exclusion, aes_new_segment_index exclusion) in
  _ ← fail_if (pair ∈ seen)
        ("duplicate allocation exclusion grid pair " ++ pair_label pair)%string;
  spent ← ok_or (find_segment spent_transcripts (aes_spent_segment_index exclusion))
            ("allocation exclusion pair references unknown spent segment " ++
             usize_display (aes_spent_segment_index exclusion))%string;
  new ← ok_or (find_segment new_transcripts (aes_new_segment_index exclusion))
          ("allocation exclusion pair references unknown new segment " ++
           usize_display (aes_new_segment_index exclusion))%string;
  _ ← fail_if (aes_spent_previous_root exclusion ≠ ats_previous_root spent ∨
               aes_spent_next_root exclusion ≠ ats_next_root spent ∨
               aes_spent_total_count exclusion ≠ ats_total_count spent ∨
               aes_spent_amount_commitment exclusion ≠ ats_segment_amount_commitment spent)
        ("allocation exclusion pair " ++ pair_label pair ++
         " does not bind the spent transcript segment")%string;
  _ ← fail_if (aes_new_previous_root exclusion ≠ ats_previous_root new ∨
               aes_new_next_root exclusion ≠ ats_next_root new ∨
               aes_new_total_count exclusion ≠ ats_total_count new ∨
               aes_new_amount_commitment exclusion ≠ ats_segment_amount_commitment new)
        ("allocation exclusion pair " ++ pair_label pair ++
         " does not bind the new transcript segment")%string;
  Ok (seen ++ [pair]).

Definition verify_allocation_exclusion_grid {SPENT NEW}
    (spent_transcripts : list (AllocationTranscriptSegmentStatement SPENT))
    (new_transcripts : list (AllocationTranscriptSegmentStatement NEW))
    (exclusions : list (AllocationExclusionSegmentPairStatement SPENT NEW))
    (chain_id : KaspaChainId) : sresult unit :=
  expected_entries ← ok_or (checked_mul (usize_of (length spent_transcripts))
                                        (usize_of (length new_transcripts)))
                       "allocation exclusion grid size overflow";
  _ ← fail_if (usize_of (length exclusions) ≠ expected_entries)
        ("allocation exclusion grid has " ++ usize_display (Z.of_nat (length exclusions)) ++
         " pairs, expected " ++ usize_display expected_entries)%string;
  seen ← try_fold (check_exclusion spent_transcripts new_transcripts chain_id) [] exclusions;
  try_fold (λ _ spent,
    try_fold (λ _ new,
      let pair := (ats_segment_index spent, ats_segment_index new) in
      fail_if (pair ∉ seen)
        ("allocation exclusion grid is missing pair " ++ pair_label pair)%string)
      () new_transcripts)
    () spent_transcripts.

Definition verify_allocation_audit_bundle {SPENT NEW} (bundle : AllocationAuditBundle SPENT NEW)
  : sresult AllocationAuditBundleReport :=
  let final := aab_final_conservation bundle in
  _ ← fail_if (SPENT = 0%nat ∨ NEW = 0%nat)
        "allocation audit bundle requires non-zero segment arities";
  spent_chain ← verify_allocation_transcript_chain "spent" Spent (aab_spent_transcripts bundle);
  new_chain ← verify_allocation_transcript_chain "new" New (aab_new_transcripts bundle);
  _ ← fail_if (tca_chain_id spent_chain ≠ tca_chain_id new_chain)
        "allocation audit bundle contains mixed spent/new chain ids";
  _ ← fail_if (afs_spent_total_count final ≠ tca_total_count spent_chain)
        "allocation audit final spent count does not match spent transcript chain";
  _ ← fail_if (afs_new_total_count final ≠ tca_total_count new_chain)
        "allocation audit final new count does not match new transcript chain";
  _ ← verify_allocation_conservation_chain "spent" (aab_spent_transcripts bundle)
        (aab_spent_conservation bundle) (afs_spent_total_commitment final);
  _ ← verify_allocation_conservation_chain "new" (aab_new_transcripts bundle)
        (aab_new_conservation bundle) (afs_new_total_commitment final);
  _ ← verify_allocation_exclusion_grid (aab_spent_transcripts bundle) (aab_new_transcripts bundle)
        (aab_exclusions bundle) (tca_chain_id spent_chain);
  Ok {| aar_chain_id := tca_chain_id spent_chain;
        aar_spent_segments := usize_of (length (aab_spent_transcripts bundle));
        aar_new_segments := usize_of (length (aab_new_transcripts bundle));
        aar_exclusion_pairs := usize_of (length (aab_exclusions bundle));
        aar_spent_total_count := tca_total_count spent_chain;
        aar_new_total_count := tca_total_count new_chain;
        aar_spent_final_root := tca_final_root spent_chain;
        aar_new_final_root := tca_final_root new_chain;
        aar_spent_total_commitment := afs_spent_total_commitment final;
        aar_new_total_commitment := afs_new_total_commitment final |}.
End bundles.
