(* ===== verification/ZkAuditCorrect.v ===== *)
(** The audit circuits, as relations between a statement and native
    allocations. *)

From stdpp Require Import base list strings vector.
From Stdlib Require Import ZArith Lia Strings.Byte.
From S2P Require Import Prelude.
From S2P Require Import Bytes.
From S2P Require Import Encoding.
From S2P Require Import Types.
From S2P Require Import Commit.
From S2P Require Import AssetTypes.
From S2P Require Import AssetRules.
From S2P Require Import Asset.
From S2P Require Import AssetCorrect.
From S2P Require Import Lane.
From S2P Require Import Zk.
From S2P Require Import ZkCorrect.
From S2P Require Import ZkGadgets.
From S2P Require Import ZkCircuits.
From S2P Require Import ZkCircuitsCorrect.
From S2P Require Import ZkAllocation.
From S2P Require Import ZkLaneCorrect.
From S2P Require Import ZkAudit.

Open Scope list_scope.

(** * Layouts *)

Definition transcript_widths : list nat := [32; 32; 8; 1; 7; 8; 8; 32].
Definition transcript_fields {ALLOCS} (s : AllocationTranscriptSegmentStatement ALLOCS) : list (list byte) :=
  [ blist (ats_previous_root s); blist (ats_next_root s); chain_id_tagged_le_u32 (ats_chain_id s);
    [side_as_u8 (ats_side s)]; replicate 7 x00; u64_le (ats_segment_index s);
    u64_le (ats_total_count s); blist (ats_segment_amount_commitment s) ].

Lemma transcript_cuts {ALLOCS} (s : AllocationTranscriptSegmentStatement ALLOCS) :
  cuts 0 transcript_widths (transcript_public_inputs s) = transcript_fields s.
Proof.
  apply cuts_fields.
  - unfold transcript_public_inputs, transcript_fields. cbn [concat]. by rewrite app_nil_r.
  - unfold transcript_fields. cbn [fmap list_fmap].
    by rewrite ?bytes_length, ?u64_le_length, ?chain_tagged_length.
Qed.

Ltac transcript_slices s :=
  field_slices (transcript_public_inputs s) transcript_widths (transcript_cuts s);
  cbn [nth transcript_fields].

Lemma transcript_length {ALLOCS} (s : AllocationTranscriptSegmentStatement ALLOCS) :
  length (transcript_public_inputs s) = ALLOCATION_TRANSCRIPT_SEGMENT_PUBLIC_INPUT_LEN.
Proof.
  unfold transcript_public_inputs.
  by rewrite !length_app, !bytes_length, !u64_le_length, chain_tagged_length.
Qed.

Lemma transcript_bytes {ALLOCS} (s : AllocationTranscriptSegmentStatement ALLOCS) :
  nth 68 (transcript_public_inputs s) x00 = chain_as_u8 (ats_chain_id s) ∧
  nth 72 (transcript_public_inputs s) x00 = side_as_u8 (ats_side s).
Proof.
  split; [|rewrite (nth_slice _ 72 73) by lia; by transcript_slices s].
  unfold transcript_public_inputs. rewrite app_nth2, app_nth2 by (rewrite !bytes_length; lia).
  rewrite !bytes_length. by destruct (ats_chain_id s).
Qed.

Definition exclusion_widths : list nat := [32; 32; 32; 32; 8; 8; 8; 8; 8; 32; 32].
Definition exclusion_fields {SPENT NEW} (s : AllocationExclusionSegmentPairStatement SPENT NEW)
  : list (list byte) :=
  [ blist (aes_spent_previous_root s); blist (aes_spent_next_root s);
    blist (aes_new_previous_root s); blist (aes_new_next_root s);
    chain_id_tagged_le_u32 (aes_chain_id s); u64_le (aes_spent_segment_index s);
    u64_le (aes_new_segment_index s); u64_le (aes_spent_total_count s);
    u64_le (aes_new_total_count s); blist (aes_spent_amount_commitment s);
    blist (aes_new_amount_commitment s) ].

Lemma exclusion_cuts {SPENT NEW} (s : AllocationExclusionSegmentPairStatement SPENT NEW) :
  cuts 0 exclusion_widths (exclusion_public_inputs s) = exclusion_fields s.
Proof.
  apply cuts_fields.
  - unfold exclusion_public_inputs, exclusion_fields. cbn [concat]. by rewrite app_nil_r.
  - unfold exclusion_fields. cbn [fmap list_fmap].
    by rewrite ?bytes_length, ?u64_le_length, ?chain_tagged_length.
Qed.

Ltac exclusion_slices s :=
  field_slices (exclusion_public_inputs s) exclusion_widths (exclusion_cuts s);
  cbn [nth exclusion_fields].

Lemma exclusion_length {SPENT NEW} (s : AllocationExclusionSegmentPairStatement SPENT NEW) :
  length (exclusion_public_inputs s) = ALLOCATION_EXCLUSION_SEGMENT_PAIR_PUBLIC_INPUT_LEN.
Proof.
  unfold exclusion_public_inputs.
  by rewrite !length_app, !bytes_length, !u64_le_length, chain_tagged_length.
Qed.

Lemma exclusion_chain_byte {SPENT NEW} (s : AllocationExclusionSegmentPairStatement SPENT NEW) :
  nth 132 (exclusion_public_inputs s) x00 = chain_as_u8 (aes_chain_id s).
Proof.
  unfold exclusion_public_inputs. do 4 (rewrite app_nth2 by (rewrite !bytes_length; lia)).
  rewrite !bytes_length. by destruct (aes_chain_id s).
Qed.

Definition final_widths : list nat := [8; 8; 32; 32].
Definition final_fields (s : AllocationConservationFinalStatement) : list (list byte) :=
  [ u64_le (afs_spent_total_count s); u64_le (afs_new_total_count s);
    blist (afs_spent_total_commitment s); blist (afs_new_total_commitment s) ].

Lemma final_cuts s : cuts 0 final_widths (final_public_inputs s) = final_fields s.
Proof.
  apply cuts_fields.
  - unfold final_public_inputs, final_fields. cbn [concat]. by rewrite app_nil_r.
  - unfold final_fields. cbn [fmap list_fmap]. by rewrite ?bytes_length, ?u64_le_length.
Qed.

Ltac final_slices s :=
  field_slices (final_public_inputs s) final_widths (final_cuts s); cbn [nth final_fields].

Lemma final_length s : length (final_public_inputs s) = ALLOCATION_CONSERVATION_FINAL_PUBLIC_INPUT_LEN.
Proof.
  unfold final_public_inputs. by rewrite !length_app, !bytes_length, !u64_le_length.
Qed.

Definition conservation_widths : list nat := [128; 32; 32].
Definition conservation_fields {ALLOCS} (s : AllocationConservationSegmentStatement ALLOCS)
  : list (list byte) :=
  [ transcript_public_inputs (acs_transcript s); blist (acs_previous_total_commitment s);
    blist (acs_next_total_commitment s) ].

Lemma conservation_cuts {ALLOCS} (s : AllocationConservationSegmentStatement ALLOCS) :
  cuts 0 conservation_widths (conservation_public_inputs s) = conservation_fields s.
Proof.
  apply cuts_fields.
  - unfold conservation_public_inputs, conservation_fields. cbn [concat]. by rewrite app_nil_r.
  - unfold conservation_fields. cbn [fmap list_fmap]. by rewrite transcript_length, ?bytes_length.
Qed.

Ltac conservation_slices s :=
  field_slices (conservation_public_inputs s) conservation_widths (conservation_cuts s);
  cbn [nth conservation_fields].

Lemma conservation_length {ALLOCS} (s : AllocationConservationSegmentStatement ALLOCS) :
  length (conservation_public_inputs s) = ALLOCATION_CONSERVATION_SEGMENT_PUBLIC_INPUT_LEN.
Proof.
  unfold conservation_public_inputs. by rewrite !length_app, transcript_length, !bytes_length.
Qed.

(** * Relations *)

Section audit.
Context `{GadgetLaws}.
Implicit Types (st : list UInt8) (ls ks : list (list UInt8)) (xs ys : list RgkAllocation).

(** The root of a segment whose allocations are taken in the order they are
    listed; the native [extend_allocation_transcript_root] sorts them first. *)
Definition segment_root (previous : Bytes32) (side : RgkAllocationTranscriptSide) (i total : u64) xs
  : Bytes32 :=
  allocation_transcript_segment_root_from_witness previous side i total (encode_native_allocation <$> xs).

(** The allocations of one segment and the opening of its amount. *)
Record segment_holds (c : KaspaChainId) xs (amount : u64) (blinding : Bytes32) : Prop := {
  sg_nonempty : xs ≠ [];
  sg_ok : Forall (allocation_ok c) xs;
  sg_keys : NoDup (anchor_key <$> xs);
  sg_amount : supply xs = amount;
  sg_blinding : blinding ≠ zero32
}.

Record transcript_holds {ALLOCS} (s : AllocationTranscriptSegmentStatement ALLOCS) xs (amount : u64)
    (blinding : Bytes32) : Prop := {
  th_segment : segment_holds (ats_chain_id s) xs amount blinding;
  th_commitment : ats_segment_amount_commitment s =
    allocation_transcript_amount_commitment (ats_side s) (ats_segment_index s) (ats_total_count s)
      amount blinding;
  th_root : ats_next_root s =
    segment_root (ats_previous_root s) (ats_side s) (ats_segment_index s) (ats_total_count s) xs
}.

Record transcript_layout_ok {ALLOCS} (s : AllocationTranscriptSegmentStatement ALLOCS) : Prop := {
  tl_previous : ats_previous_root s ≠ zero32;
  tl_next : ats_next_root s ≠ zero32;
  tl_moves : ats_previous_root s ≠ ats_next_root s;
  tl_count : uval (ats_total_count s) ≠ 0%Z;
  tl_commitment : ats_segment_amount_commitment s ≠ zero32
}.

Record conservation_holds {ALLOCS} (s : AllocationConservationSegmentStatement ALLOCS) xs
    (amount previous next : u64) (blinding previous_blinding next_blinding : Bytes32) : Prop := {
  ch_transcript : transcript_holds (acs_transcript s) xs amount blinding;
  ch_previous_blinding : previous_blinding ≠ zero32;
  ch_next_blinding : next_blinding ≠ zero32;
  ch_total : (previous + amount = next)%Z;
  ch_first : uval (ats_segment_index (acs_transcript s)) = 0%Z → uval previous = 0%Z;
  ch_previous : acs_previous_total_commitment s =
    allocation_conservation_total_commitment (ats_side (acs_transcript s))
      (ats_total_count (acs_transcript s)) previous previous_blinding;
  ch_next : acs_next_total_commitment s =
    allocation_conservation_total_commitment (ats_side (acs_transcript s))
      (ats_total_count (acs_transcript s)) next next_blinding
}.

Definition conservation_layout_ok {ALLOCS} (s : AllocationConservationSegmentStatement ALLOCS) : Prop :=
  transcript_layout_ok (acs_transcript s) ∧
  acs_previous_total_commitment s ≠ zero32 ∧ acs_next_total_commitment s ≠ zero32.

Definition final_layout_ok (s : AllocationConservationFinalStatement) : Prop :=
  uval (afs_spent_total_count s) ≠ 0%Z ∧ uval (afs_new_total_count s) ≠ 0%Z ∧
  afs_spent_total_commitment s ≠ zero32 ∧ afs_new_total_commitment s ≠ zero32.

Record exclusion_holds {SPENT NEW} (s : AllocationExclusionSegmentPairStatement SPENT NEW) xs ys
    (spent_amount new_amount : u64) (spent_blinding new_blinding : Bytes32) : Prop := {
  eh_spent : segment_holds (aes_chain_id s) xs spent_amount spent_blinding;
  eh_new : segment_holds (aes_chain_id s) ys new_amount new_blinding;
  eh_fresh : ∀ a b, a ∈ xs → b ∈ ys → anchor_key a ≠ anchor_key b;
  eh_spent_commitment : aes_spent_amount_commitment s =
    allocation_transcript_amount_commitment Spent (aes_spent_segment_index s)
      (aes_spent_total_count s) spent_amount spent_blinding;
  eh_new_commitment : aes_new_amount_commitment s =
    allocation_transcript_amount_commitment New (aes_new_segment_index s)
      (aes_new_total_count s) new_amount new_blinding;
  eh_spent_root : aes_spent_next_root s =
    segment_root (aes_spent_previous_root s) Spent (aes_spent_segment_index s)
      (aes_spent_total_count s) xs;
  eh_new_root : aes_new_next_root s =
    segment_root (aes_new_previous_root s) New (aes_new_segment_index s) (aes_new_total_count s) ys
}.

Record exclusion_layout_ok {SPENT NEW} (s : AllocationExclusionSegmentPairStatement SPENT NEW) : Prop := {
  el_spent_previous : aes_spent_previous_root s ≠ zero32;
  el_spent_next : aes_spent_next_root s ≠ zero32;
  el_new_previous : aes_new_previous_root s ≠ zero32;
  el_new_next : aes_new_next_root s ≠ zero32;
  el_spent_moves : aes_spent_previous_root s ≠ aes_spent_next_root s;
  el_new_moves : aes_new_previous_root s ≠ aes_new_next_root s;
  el_spent_count : uval (aes_spent_total_count s) ≠ 0%Z;
  el_new_count : uval (aes_new_total_count s) ≠ 0%Z;
  el_spent_commitment : aes_spent_amount_commitment s ≠ zero32;
  el_new_commitment : aes_new_amount_commitment s ≠ zero32
}.

(** * Layouts under an assignment *)

Lemma accepted_own_bytes (p : list byte) :
  accepted (enforce_frs_equal (digest_bytes_as_frs (witness_vec p)) (public_inputs_as_vars p)) ↔ True.
Proof.
  rewrite accepted_frs_chunks, vals_witness; [done|]. by rewrite <-vals_length, vals_witness.
Qed.

Lemma side_values (s : RgkAllocationTranscriptSide) : side_as_u8 s ∈ [x00; x01].
Proof. destruct s; [left|right; left]. Qed.

Lemma accepted_transcript_layout {ALLOCS} st (s : AllocationTranscriptSegmentStatement ALLOCS) :
  vals st = transcript_public_inputs s →
  accepted (enforce_transcript_layout st) ↔ transcript_layout_ok s.
Proof.
  intros Hv. assert (Hl : length st = 128%nat) by (rewrite <-vals_length, Hv; apply transcript_length).
  unfold enforce_transcript_layout. etransitivity; [accept|].
  rewrite !vals_slice, byte_at_value, Hv, (proj2 (transcript_bytes s)), slice_length by (rewrite Hl; lia).
  cbn [Nat.sub]. transcript_slices s. rewrite !blist_zero_iff, !(inj_iff blist), !u64_zero_iff.
  split.
  - intros (_ & ? & ? & ? & _ & _ & _ & ? & ?). by constructor.
  - intros []. split_and!; try done; [by eexists|apply side_values].
Qed.

(** A conservation statement starts with the transcript's. *)
Lemma conservation_prefix {ALLOCS} st (s : AllocationConservationSegmentStatement ALLOCS) :
  vals st = conservation_public_inputs s →
  vals (slice st 0 ALLOCATION_TRANSCRIPT_SEGMENT_PUBLIC_INPUT_LEN) =
    transcript_public_inputs (acs_transcript s).
Proof.
  intros Hv. rewrite vals_slice, Hv. unfold ALLOCATION_TRANSCRIPT_SEGMENT_PUBLIC_INPUT_LEN.
  by conservation_slices s.
Qed.

Lemma accepted_conservation_layout {ALLOCS} st (s : AllocationConservationSegmentStatement ALLOCS) :
  vals st = conservation_public_inputs s →
  accepted (enforce_conservation_layout st) ↔ conservation_layout_ok s.
Proof.
  intros Hv. assert (Hl : length st = 192%nat) by (rewrite <-vals_length, Hv; apply conservation_length).
  unfold enforce_conservation_layout. etransitivity.
  { eapply accepted_seq; [apply accepted_unsat_neq|].
    eapply accepted_seq; [by apply (accepted_transcript_layout _ (acs_transcript s)), conservation_prefix|accept]. }
  rewrite Hv. cbn [Nat.sub]. conservation_slices s. rewrite !blist_zero_iff.
  unfold conservation_layout_ok. tauto.
Qed.

Lemma accepted_final_layout st s : vals st = final_public_inputs s →
  accepted (enforce_final_layout st) ↔ final_layout_ok s.
Proof.
  intros Hv. assert (Hl : length st = 80%nat) by (rewrite <-vals_length, Hv; apply final_length).
  unfold enforce_final_layout. etransitivity; [accept|]. rewrite Hv. cbn [Nat.sub].
  final_slices s. rewrite !blist_zero_iff, !u64_zero_iff. unfold final_layout_ok. tauto.
Qed.

Lemma accepted_exclusion_layout {SPENT NEW} st (s : AllocationExclusionSegmentPairStatement SPENT NEW) :
  vals st = exclusion_public_inputs s →
  accepted (enforce_exclusion_layout st) ↔ exclusion_layout_ok s.
Proof.
  intros Hv. assert (Hl : length st = 232%nat) by (rewrite <-vals_length, Hv; apply exclusion_length).
  unfold enforce_exclusion_layout. etransitivity; [accept|]. rewrite !vals_slice, Hv. cbn [Nat.sub].
  exclusion_slices s. rewrite !blist_zero_iff, !(inj_iff blist), !u64_zero_iff. split.
  - intros (_ & ? & ? & ? & ? & ? & ? & _ & ? & ? & ? & ?). by constructor.
  - intros []. split_and!; try done. by eexists.
Qed.

(** * Digests *)

(** [m] computes a digest: it refuses nothing, and what follows gets bytes of
    this value. *)
Definition yields (m : synth (list UInt8)) (v : list byte) : Prop :=
  ∃ x, vals x = v ∧ ∀ k : list UInt8 → synth unit, accepted (m ≫= k) ↔ accepted (k x).

Lemma guarded_yields P `{Decision P} x v : ¬ P → vals x = v → yields (_ ← unsat_if P; mret x) v.
Proof.
  intros HP Hx. exists x. split; [done|]. intros k. unfold accepted.
  rewrite sat_bind, sat_bind, sat_unit, sat_ret, accepted_unsat_if. tauto.
Qed.

Lemma accepted_yields m v target (k : synth unit) : yields m v →
  accepted (d ← m; _ ← enforce_bytes_equal d target; k) ↔ v = vals target ∧ accepted k.
Proof.
  intros (x & <- & Hk). rewrite Hk. unfold enforce_bytes_equal.
  by rewrite accepted_bind, accepted_bytes_equal.
Qed.

Lemma accepted_yields_last m v target : yields m v →
  accepted (d ← m; enforce_bytes_equal d target) ↔ v = vals target.
Proof. intros (x & <- & Hk). rewrite Hk. unfold enforce_bytes_equal. by rewrite accepted_bytes_equal. Qed.

Lemma vals_length_of l v : vals l = v → length l = length v.
Proof. intros <-. by rewrite vals_length. Qed.

Lemma amount_yields side i t a b s (idx tc amt : u64) (bl : Bytes32) :
  u8_value side = side_as_u8 s → vals i = u64_le idx → vals t = u64_le tc →
  vals a = u64_le amt → vals b = bl →
  yields (transcript_amount_commitment_digest side i t a b)
    (allocation_transcript_amount_commitment s idx tc amt bl).
Proof.
  intros Hs Hi Ht Ha Hb. apply guarded_yields.
  - rewrite (vals_length_of _ _ Hi), (vals_length_of _ _ Ht), (vals_length_of _ _ Ha),
      (vals_length_of _ _ Hb), !u64_le_length, bytes_length. lia.
  - rewrite digest_vals. unfold allocation_transcript_amount_commitment, asset_domain_hash.
    do 2 f_equal. rewrite !vals_app, vals_cons, Hs, Hi, Ht, Ha, Hb. done.
Qed.

Lemma total_yields side t a b s (tc amt : u64) (bl : Bytes32) :
  u8_value side = side_as_u8 s → vals t = u64_le tc → vals a = u64_le amt → vals b = bl →
  yields (conservation_total_commitment_digest side t a b)
    (allocation_conservation_total_commitment s tc amt bl).
Proof.
  intros Hs Ht Ha Hb. apply guarded_yields.
  - rewrite (vals_length_of _ _ Ht), (vals_length_of _ _ Ha),
      (vals_length_of _ _ Hb), !u64_le_length, bytes_length. lia.
  - rewrite digest_vals. unfold allocation_conservation_total_commitment, asset_domain_hash.
    do 2 f_equal. rewrite !vals_app, vals_cons, Hs, Ht, Ha, Hb. done.
Qed.

Lemma root_yields ALLOCS p side i t ls s (previous : Bytes32) (idx tc : u64) xs :
  vals p = previous → u8_value side = side_as_u8 s → vals i = u64_le idx → vals t = u64_le tc →
  carries ls xs → length xs = ALLOCS →
  yields (transcript_segment_root_digest ALLOCS p side i t ls) (segment_root previous s idx tc xs).
Proof.
  intros Hp Hs Hi Ht Hc <-. pose proof (carries_length _ _ Hc) as Hn. apply guarded_yields.
  - rewrite (vals_length_of _ _ Hp), (vals_length_of _ _ Hi), (vals_length_of _ _ Ht),
      !u64_le_length, bytes_length. lia.
  - rewrite digest_vals. unfold segment_root, allocation_transcript_segment_root_from_witness,
      asset_domain_hash. do 2 f_equal.
    rewrite !vals_app, vals_cons, vals_constant, (carries_concat _ _ Hc), Hp, Hs, Hi, Ht.
    unfold len_u64. rewrite length_fmap. done.
Qed.

(** * Segments *)

(** The checks of one segment's allocations, before its digests. *)
Lemma carried_blinding l (b : Bytes32) : vals l = b →
  accepted (enforce_nonzero_bytes l) ↔ b ≠ zero32.
Proof.
  intros Hv. rewrite accepted_nonzero, Hv, (vals_length_of _ _ Hv), bytes_length.
  by rewrite blist_zero_iff.
Qed.

Lemma carried_nonzero_u64 l (v : u64) : vals l = u64_le v →
  accepted (enforce_nonzero_bytes l) ↔ uval v ≠ 0%Z.
Proof.
  intros Hv. rewrite accepted_nonzero, Hv, (vals_length_of _ _ Hv), u64_le_length.
  by rewrite u64_zero_iff.
Qed.

Lemma carried_u64 l (v : u64) : vals l = u64_le v → fp_value (le_bytes_as_fr l) = fr_of v.
Proof.
  intros Hv. rewrite le_bytes_as_fr_value, Hv.
  - f_equal. unfold u64_le. rewrite le_val_le_bytes. apply Z.mod_small. exact (uint_range v).
  - rewrite (vals_length_of _ _ Hv), u64_le_length. lia.
Qed.

Lemma accepted_sum ls xs l (v : u64) : carries ls xs → vals l = u64_le v → count_fits (length xs) →
  accepted (enforce (fp_enforce_equal (sum_allocation_amounts ls) (le_bytes_as_fr l))) ↔
    supply xs = v.
Proof.
  intros Hc Hv Hn. pose proof (supply_fits _ Hn). pose proof (uint_range v).
  apply accepted_fp_equal; [by apply carried_supply|by apply carried_u64|lia..].
Qed.

Lemma accepted_commons x ls xs c : carries ls xs → u8_value x = chain_as_u8 c →
  accepted (for_each (enforce_allocation_common_for_chain x) ls) ↔ Forall (allocation_ok c) xs.
Proof. intros Hc Hx. apply carries_forall; [|done]. intros l a Hl. by apply accepted_common. Qed.

Lemma ok_supply_positive c xs : Forall (allocation_ok c) xs → xs ≠ [] → (0 < supply xs)%Z.
Proof.
  intros [|a l [Hp _ _ _ _ _ _] _] Hn; [done|]. rewrite total_cons. pose proof (total_nonneg al_amount l). lia.
Qed.

Lemma accepted_transcript_segment {ALLOCS} st (s : AllocationTranscriptSegmentStatement ALLOCS)
    al bl ls xs (amount : u64) (blinding : Bytes32) :
  vals st = transcript_public_inputs s → vals al = u64_le amount → vals bl = blinding →
  carries ls xs → length xs = ALLOCS → count_fits ALLOCS →
  accepted (enforce_transcript_segment ALLOCS st al bl ls) ↔ transcript_holds s xs amount blinding.
Proof.
  intros Hv Ha Hb Hc Hn HA.
  assert (Hl : length st = 128%nat) by (rewrite <-vals_length, Hv; apply transcript_length).
  destruct (transcript_bytes s) as [Hch Hsd].
  assert (Hi : vals (slice st 80 88) = u64_le (ats_segment_index s)) by (rewrite vals_slice, Hv; by transcript_slices s).
  assert (Ht : vals (slice st 88 96) = u64_le (ats_total_count s)) by (rewrite vals_slice, Hv; by transcript_slices s).
  assert (Hp : vals (slice st 0 32) = ats_previous_root s) by (rewrite vals_slice, Hv; by transcript_slices s).
  unfold enforce_transcript_segment. cbv zeta. etransitivity.
  { eapply accepted_seq; [apply accepted_unsat_if|].
    eapply accepted_seq; [apply accepted_unsat_if|].
    eapply accepted_seq; [by apply nonempty_slices_ok|].
    eapply accepted_seq; [by apply carried_nonzero_u64|].
    eapply accepted_seq; [by apply carried_blinding|].
    eapply accepted_seq; [apply (accepted_commons _ _ xs (ats_chain_id s)); [done|by rewrite byte_at_value, Hv]|].
    eapply accepted_seq; [by apply accepted_distinct|].
    eapply accepted_seq; [apply accepted_sum; [done..|by rewrite Hn]|].
    etransitivity.
    { apply accepted_yields, (amount_yields _ _ _ _ _ (ats_side s) (ats_segment_index s)
        (ats_total_count s) amount blinding); try done. by rewrite byte_at_value, Hv. }
    apply and_iff_compat_l, accepted_yields_last, (root_yields _ _ _ _ _ _ (ats_side s)
      (ats_previous_root s) (ats_segment_index s) (ats_total_count s) xs); try done.
    by rewrite byte_at_value, Hv. }
  rewrite (carries_length _ _ Hc), Hn, (vals_length_of _ _ Ha), (vals_length_of _ _ Hb), Hl, !vals_slice, Hv,
    u64_le_length, bytes_length.
  transcript_slices s. rewrite !(inj_iff blist). split.
  - intros (_ & _ & ? & _ & ? & ? & ? & ? & ? & ?). repeat constructor; done.
  - intros [[] Hcm Hr]. pose proof (ok_supply_positive _ _ sg_ok0 sg_nonempty0).
    split_and!; try done; unfold ALLOCATION_TRANSCRIPT_SEGMENT_PUBLIC_INPUT_LEN; lia.
Qed.

(** Accepted buffers hold allocations. *)
Lemma checked_carries x ls c : u8_value x = chain_as_u8 c →
  accepted (validate_nonempty_allocation_slices ls) →
  accepted (for_each (enforce_allocation_common_for_chain x) ls) → ∃ xs, carries ls xs.
Proof.
  intros Hx. unfold validate_nonempty_allocation_slices. rewrite accepted_bind, !accepted_for_each.
  intros [_ Hl] Hf. apply (common_carries (enforce_allocation_common_for_chain x)); [|done..].
  intros l Hl157. by eapply common_is_allocation.
Qed.

Lemma transcript_segment_carries {ALLOCS} st (s : AllocationTranscriptSegmentStatement ALLOCS) al bl ls :
  vals st = transcript_public_inputs s →
  accepted (enforce_transcript_segment ALLOCS st al bl ls) → ∃ xs, carries ls xs ∧ length xs = ALLOCS.
Proof.
  intros Hv. destruct (transcript_bytes s) as [Hch _]. unfold enforce_transcript_segment. cbv zeta.
  do 6 rewrite accepted_bind. rewrite accepted_unsat_if. intros (Hg & _ & Hne & _ & _ & Hf & _).
  destruct (checked_carries (byte_at st 68) ls (ats_chain_id s)) as [xs Hc]; [by rewrite byte_at_value, Hv|done..|].
  exists xs. split; [done|]. rewrite <-(carries_length _ _ Hc). apply dec_stable. tauto.
Qed.

Lemma bytes_all_zero l : Forall (λ b, u8_value b = x00) l ↔ vals l = replicate (length l) x00.
Proof.
  induction l as [|b l IH]; [by split; [|constructor]|].
  rewrite list.Forall_cons, IH, vals_cons. cbn [length replicate].
  split; [by intros [-> ->]|by intros [= -> ->]].
Qed.

Lemma initial_total_ok i p (idx v : u64) : vals i = u64_le idx → vals p = u64_le v →
  accepted (enforce_initial_total_zero i p) ↔ (uval idx = 0%Z → uval v = 0%Z).
Proof.
  intros Hi Hp. unfold enforce_initial_total_zero. cbv zeta.
  rewrite accepted_bind, accepted_unsat_if, (vals_length_of _ _ Hi), (vals_length_of _ _ Hp), !u64_le_length.
  set (first := bytes_is_eq _ _).
  assert (Hf : bool_value first = bool_decide (uval idx = 0%Z)).
  { unfold first. rewrite bytes_is_eq_value.
    - change (u8_value <$> constant_vec ?k) with (vals (constant_vec k)). rewrite vals_constant.
      change (u8_value <$> i) with (vals i). rewrite Hi. apply bool_decide_ext, u64_zero_iff.
    - rewrite (vals_length_of _ _ Hi), u64_le_length. unfold constant_vec. by rewrite length_fmap. }
  assert (Hb : ∀ b, accepted (enforce_some [bool_not first; u8_is_eq b (u8_constant x00)]) ↔
                    (uval idx = 0%Z → u8_value b = x00)).
  { intros b. rewrite accepted_some_of, bool_not_value, Hf, u8_is_eq_value, u8_constant_value.
    rewrite bool_decide_eq_true. case_bool_decide; cbn.
    - split; [by intros [|]|]. intros Hx. right. by apply Hx.
    - split; [done|by left]. }
  rewrite accepted_for_each, (Forall_iff _ _ _ Hb), <-(u64_zero_iff v), <-Hp.
  assert (Hl : length p = 8%nat) by (by rewrite (vals_length_of _ _ Hp), u64_le_length).
  assert (Hz : vals p = replicate 8 x00 ↔ Forall (λ b, u8_value b = x00) p)
    by (by rewrite bytes_all_zero, Hl).
  rewrite Hz, !list.Forall_forall. split.
  - intros [_ Hx] E b Hin. by apply Hx.
  - intros Hx. split; [lia|]. intros b Hin E. by apply Hx.
Qed.

Lemma accepted_conservation_segment {ALLOCS} st (s : AllocationConservationSegmentStatement ALLOCS)
    al bl pt nt pb nb ls xs (amount previous next : u64) (blinding previous_blinding next_blinding : Bytes32) :
  vals st = conservation_public_inputs s → vals al = u64_le amount → vals bl = blinding →
  vals pt = u64_le previous → vals nt = u64_le next → vals pb = previous_blinding →
  vals nb = next_blinding → carries ls xs → length xs = ALLOCS → count_fits ALLOCS →
  accepted (enforce_conservation_segment ALLOCS st al bl pt nt pb nb ls) ↔
    conservation_holds s xs amount previous next blinding previous_blinding next_blinding.
Proof.
  intros Hv Ha Hb Hpt Hnt Hpb Hnb Hc Hn HA.
  assert (Hl : length st = 192%nat) by (rewrite <-vals_length, Hv; apply conservation_length).
  assert (Hst : vals (slice st 0 128) = transcript_public_inputs (acs_transcript s))
    by by apply conservation_prefix.
  assert (Hsub : ∀ lo hi, (hi <= 128)%nat →
    slice (vals st) lo hi = slice (transcript_public_inputs (acs_transcript s)) lo hi).
  { intros lo hi Hhi. rewrite <-Hst. rewrite vals_slice. unfold slice.
    rewrite drop_0, Nat.sub_0_r, skipn_firstn_comm, take_take. f_equal. lia. }
  assert (Hi : vals (slice st 80 88) = u64_le (ats_segment_index (acs_transcript s))).
  { rewrite vals_slice, Hsub by lia. by transcript_slices (acs_transcript s). }
  assert (Ht : vals (slice st 88 96) = u64_le (ats_total_count (acs_transcript s))).
  { rewrite vals_slice, Hsub by lia. by transcript_slices (acs_transcript s). }
  assert (Hsd : u8_value (byte_at st 72) = side_as_u8 (ats_side (acs_transcript s))).
  { rewrite byte_at_value, (nth_slice _ 72 73), Hsub by lia. by transcript_slices (acs_transcript s). }
  pose proof (uint_range previous). pose proof (uint_range amount). pose proof (uint_range next).
  unfold enforce_conservation_segment. cbv zeta. etransitivity.
  { eapply accepted_seq; [apply accepted_unsat_if|].
    eapply accepted_seq; [by apply (accepted_transcript_segment _ (acs_transcript s) _ _ _ xs amount blinding)|].
    eapply accepted_seq; [by apply carried_blinding|].
    eapply accepted_seq; [by apply carried_blinding|].
    eapply accepted_seq.
    { apply (accepted_fp_equal _ _ (previous + amount) next);
        [apply fp_add_value; by apply carried_u64|by apply carried_u64|lia..]. }
    eapply accepted_seq; [by apply initial_total_ok|].
    etransitivity.
    { by apply accepted_yields, (total_yields _ _ _ _ (ats_side (acs_transcript s))
        (ats_total_count (acs_transcript s)) previous previous_blinding). }
    by apply and_iff_compat_l, accepted_yields_last, (total_yields _ _ _ _ (ats_side (acs_transcript s))
      (ats_total_count (acs_transcript s)) next next_blinding). }
  rewrite (vals_length_of _ _ Hpt), (vals_length_of _ _ Hnt), (vals_length_of _ _ Hpb),
    (vals_length_of _ _ Hnb), Hl, !vals_slice, Hv, !u64_le_length, !bytes_length.
  conservation_slices s. rewrite !(inj_iff blist). split.
  - intros (_ & ? & ? & ? & ? & ? & ? & ?). by constructor.
  - intros []. split_and!; try done. unfold ALLOCATION_CONSERVATION_SEGMENT_PUBLIC_INPUT_LEN. lia.
Qed.

(** The opening of both final commitments to one total. *)
Record final_holds (s : AllocationConservationFinalStatement) (total : u64)
    (spent_blinding new_blinding : Bytes32) : Prop := {
  fh_total : uval total ≠ 0%Z;
  fh_spent_blinding : spent_blinding ≠ zero32;
  fh_new_blinding : new_blinding ≠ zero32;
  fh_spent : afs_spent_total_commitment s =
    allocation_conservation_total_commitment Spent (afs_spent_total_count s) total spent_blinding;
  fh_new : afs_new_total_commitment s =
    allocation_conservation_total_commitment New (afs_new_total_count s) total new_blinding
}.

Lemma accepted_conservation_final st s tt sb nb (total : u64) (spent_blinding new_blinding : Bytes32) :
  vals st = final_public_inputs s → vals tt = u64_le total → vals sb = spent_blinding →
  vals nb = new_blinding →
  accepted (enforce_conservation_final st tt sb nb) ↔ final_holds s total spent_blinding new_blinding.
Proof.
  intros Hv Ht Hs Hn. assert (Hl : length st = 80%nat) by (rewrite <-vals_length, Hv; apply final_length).
  assert (Hi : vals (slice st 0 8) = u64_le (afs_spent_total_count s)) by (rewrite vals_slice, Hv; by final_slices s).
  assert (Hj : vals (slice st 8 16) = u64_le (afs_new_total_count s)) by (rewrite vals_slice, Hv; by final_slices s).
  unfold enforce_conservation_final. etransitivity.
  { eapply accepted_seq; [apply accepted_unsat_if|].
    eapply accepted_seq; [by apply carried_nonzero_u64|].
    eapply accepted_seq; [by apply carried_blinding|].
    eapply accepted_seq; [by apply carried_blinding|].
    etransitivity.
    { by apply accepted_yields, (total_yields _ _ _ _ Spent (afs_spent_total_count s) total spent_blinding);
        [apply u8_constant_value|..]. }
    by apply and_iff_compat_l, accepted_yields_last,
      (total_yields _ _ _ _ New (afs_new_total_count s) total new_blinding); [apply u8_constant_value|..]. }
  rewrite (vals_length_of _ _ Ht), (vals_length_of _ _ Hs), (vals_length_of _ _ Hn), Hl, !vals_slice, Hv,
    !u64_le_length, !bytes_length.
  final_slices s. rewrite !(inj_iff blist). split.
  - intros (_ & ? & ? & ? & ? & ?). by constructor.
  - intros []. split_and!; try done. unfold ALLOCATION_CONSERVATION_FINAL_PUBLIC_INPUT_LEN. lia.
Qed.

Lemma accepted_exclusion {SPENT NEW} st (s : AllocationExclusionSegmentPairStatement SPENT NEW)
    sa sb na nb ls ks xs ys (spent_amount new_amount : u64) (spent_blinding new_blinding : Bytes32) :
  vals st = exclusion_public_inputs s → vals sa = u64_le spent_amount → vals sb = spent_blinding →
  vals na = u64_le new_amount → vals nb = new_blinding → carries ls xs → carries ks ys →
  length xs = SPENT → length ys = NEW → count_fits SPENT → count_fits NEW →
  accepted (enforce_exclusion_segment_pair SPENT NEW st sa sb na nb ls ks) ↔
    exclusion_holds s xs ys spent_amount new_amount spent_blinding new_blinding.
Proof.
  intros Hv Hsa Hsb Hna Hnb Hx Hy HnS HnN HS HN.
  assert (Hl : length st = 232%nat) by (rewrite <-vals_length, Hv; apply exclusion_length).
  assert (Hch : u8_value (byte_at st 132) = chain_as_u8 (aes_chain_id s))
    by (rewrite byte_at_value, Hv; apply exclusion_chain_byte).
  assert (E0 : vals (slice st 0 32) = aes_spent_previous_root s) by (rewrite vals_slice, Hv; by exclusion_slices s).
  assert (E2 : vals (slice st 64 96) = aes_new_previous_root s) by (rewrite vals_slice, Hv; by exclusion_slices s).
  assert (E5 : vals (slice st 136 144) = u64_le (aes_spent_segment_index s)) by (rewrite vals_slice, Hv; by exclusion_slices s).
  assert (E6 : vals (slice st 144 152) = u64_le (aes_new_segment_index s)) by (rewrite vals_slice, Hv; by exclusion_slices s).
  assert (E7 : vals (slice st 152 160) = u64_le (aes_spent_total_count s)) by (rewrite vals_slice, Hv; by exclusion_slices s).
  assert (E8 : vals (slice st 160 168) = u64_le (aes_new_total_count s)) by (rewrite vals_slice, Hv; by exclusion_slices s).
  unfold enforce_exclusion_segment_pair. etransitivity.
  { eapply accepted_seq; [apply accepted_unsat_if|].
    eapply accepted_seq; [by apply nonempty_slices_ok|].
    eapply accepted_seq; [by apply nonempty_slices_ok|].
    eapply accepted_seq; [by apply carried_nonzero_u64|].
    eapply accepted_seq; [by apply carried_nonzero_u64|].
    eapply accepted_seq; [by apply carried_blinding|].
    eapply accepted_seq; [by apply carried_blinding|].
    eapply accepted_seq; [by apply (accepted_commons _ _ xs (aes_chain_id s))|].
    eapply accepted_seq; [by apply (accepted_commons _ _ ys (aes_chain_id s))|].
    eapply accepted_seq; [by apply accepted_distinct|].
    eapply accepted_seq; [by apply accepted_distinct|].
    eapply accepted_seq; [by apply accepted_not_reused|].
    eapply accepted_seq; [apply accepted_sum; [done..|by rewrite HnS]|].
    eapply accepted_seq; [apply accepted_sum; [done..|by rewrite HnN]|].
    etransitivity.
    { by apply accepted_yields, (amount_yields _ _ _ _ _ Spent (aes_spent_segment_index s)
        (aes_spent_total_count s) spent_amount spent_blinding); [apply u8_constant_value|..]. }
    apply and_iff_compat_l. etransitivity.
    { by apply accepted_yields, (amount_yields _ _ _ _ _ New (aes_new_segment_index s)
        (aes_new_total_count s) new_amount new_blinding); [apply u8_constant_value|..]. }
    apply and_iff_compat_l. etransitivity.
    { by apply accepted_yields, (root_yields _ _ _ _ _ _ Spent (aes_spent_previous_root s)
        (aes_spent_segment_index s) (aes_spent_total_count s) xs); [|apply u8_constant_value|..]. }
    by apply and_iff_compat_l, accepted_yields_last, (root_yields _ _ _ _ _ _ New
      (aes_new_previous_root s) (aes_new_segment_index s) (aes_new_total_count s) ys);
      [|apply u8_constant_value|..]. }
  rewrite (carries_length _ _ Hx), (carries_length _ _ Hy), HnS, HnN, (vals_length_of _ _ Hsa),
    (vals_length_of _ _ Hsb), (vals_length_of _ _ Hna), (vals_length_of _ _ Hnb), Hl, !vals_slice, Hv,
    !u64_le_length, !bytes_length.
  exclusion_slices s. rewrite !(inj_iff blist). split.
  - intros (_ & ? & ? & _ & _ & ? & ? & ? & ? & ? & ? & ? & ? & ? & ? & ? & ? & ?).
    constructor; try done; by constructor.
  - intros [[] [] ]. pose proof (ok_supply_positive _ _ sg_ok0 sg_nonempty0).
    pose proof (ok_supply_positive _ _ sg_ok1 sg_nonempty1).
    split_and!; try done; unfold ALLOCATION_EXCLUSION_SEGMENT_PAIR_PUBLIC_INPUT_LEN; lia.
Qed.

Lemma exclusion_carries {SPENT NEW} st (s : AllocationExclusionSegmentPairStatement SPENT NEW)
    sa sb na nb ls ks :
  vals st = exclusion_public_inputs s →
  accepted (enforce_exclusion_segment_pair SPENT NEW st sa sb na nb ls ks) →
  ∃ xs ys, carries ls xs ∧ carries ks ys ∧ length xs = SPENT ∧ length ys = NEW.
Proof.
  intros Hv. assert (Hch : u8_value (byte_at st 132) = chain_as_u8 (aes_chain_id s))
    by (rewrite byte_at_value, Hv; apply exclusion_chain_byte).
  unfold enforce_exclusion_segment_pair.
  do 9 rewrite accepted_bind. rewrite accepted_unsat_if.
  intros (Hg & Hs & Hn & _ & _ & _ & _ & Hfs & Hfn & _).
  destruct (checked_carries _ ls _ Hch Hs Hfs) as [xs Hx], (checked_carries _ ks _ Hch Hn Hfn) as [ys Hy].
  exists xs, ys. rewrite <-(carries_length _ _ Hx), <-(carries_length _ _ Hy).
  split_and!; [done|done|apply dec_stable; tauto..].
Qed.

(** * The circuits *)

(** A circuit's buffers, when its first checks have passed. *)
Lemma witness_carries {n} (ws : vec (list byte) n) xs :
  carries (witness_vec <$> vec_to_list ws) xs ↔ vec_to_list ws = encode_native_allocation <$> xs.
Proof. apply carries_witness. Qed.

Lemma encoded_vec {n} (ws : vec (list byte) n) xs :
  vec_to_list ws = encode_native_allocation <$> xs →
  length xs = n ∧ some_len_differs ws ≠ true.
Proof.
  intros E. split.
  - by rewrite <-(length_fmap encode_native_allocation), <-E, length_vec_to_list.
  - rewrite E. apply some_len_differs_false, encoded_lengths.
Qed.

Lemma transcript_satisfied {ALLOCS} (c : AuditCircuit (AllocationTranscriptSegmentWitness ALLOCS))
    (s : AllocationTranscriptSegmentStatement ALLOCS) :
  count_fits ALLOCS → auc_public_inputs c = transcript_public_inputs s →
  is_satisfied (transcript_generate_constraints c) = true ↔
    ∃ xs, vec_to_list (atw_allocations (auc_witness c)) = encode_native_allocation <$> xs ∧
      transcript_layout_ok s ∧
      transcript_holds s xs (atw_segment_amount (auc_witness c)) (atw_amount_blinding (auc_witness c)).
Proof.
  intros HA. destruct c as [p [ws amount blinding]]. cbn. intros ->.
  rewrite is_satisfied_iff. unfold transcript_generate_constraints. cbn [auc_public_inputs auc_witness
    atw_allocations atw_segment_amount atw_amount_blinding].
  rewrite !accepted_bind, accepted_unsat_if, accepted_own_bytes, (accepted_transcript_layout _ s)
    by apply vals_witness. split.
  - intros (Hg & _ & Hlay & Ha).
    destruct (transcript_segment_carries _ s _ _ _ (vals_witness _) Ha) as (xs & Hc & Hn).
    exists xs. split; [by apply witness_carries|]. split; [done|].
    by eapply accepted_transcript_segment in Ha; [|apply vals_witness..|done|done|done].
  - intros (xs & E & Hlay & Hh). destruct (encoded_vec _ _ E) as [Hn Hd]. split_and!; [|done|done|].
    + rewrite transcript_length. intros [-> | [|] ]; [|done|done].
      apply (sg_nonempty _ _ _ _ (th_segment _ _ _ _ Hh)). by destruct xs.
    + eapply accepted_transcript_segment; try apply vals_witness; try done. by apply witness_carries.
Qed.

Lemma conservation_satisfied {ALLOCS} (c : AuditCircuit (AllocationConservationSegmentWitness ALLOCS))
    (s : AllocationConservationSegmentStatement ALLOCS) :
  count_fits ALLOCS → auc_public_inputs c = conservation_public_inputs s →
  let w := auc_witness c in
  is_satisfied (conservation_generate_constraints c) = true ↔
    ∃ xs, vec_to_list (atw_allocations (acw_transcript w)) = encode_native_allocation <$> xs ∧
      conservation_layout_ok s ∧
      conservation_holds s xs (atw_segment_amount (acw_transcript w)) (acw_previous_total w)
        (acw_next_total w) (atw_amount_blinding (acw_transcript w)) (acw_previous_total_blinding w)
        (acw_next_total_blinding w).
Proof.
  intros HA. destruct c as [p [ [ws amount blinding] pt nt pb nb] ]. cbn. intros ->.
  rewrite is_satisfied_iff. unfold conservation_generate_constraints.
  cbn [auc_public_inputs auc_witness atw_allocations atw_segment_amount atw_amount_blinding
    acw_transcript acw_previous_total acw_next_total acw_previous_total_blinding acw_next_total_blinding].
  rewrite !accepted_bind, accepted_unsat_if, accepted_own_bytes, (accepted_conservation_layout _ s)
    by apply vals_witness. split.
  - intros (Hg & _ & Hlay & Ha). pose proof Ha as Ht. unfold enforce_conservation_segment in Ht.
    cbv zeta in Ht. rewrite accepted_bind, accepted_bind in Ht. destruct Ht as (_ & Ht & _).
    destruct (transcript_segment_carries _ (acs_transcript s) _ _ _
      (conservation_prefix _ s (vals_witness _)) Ht) as (xs & Hc & Hn).
    exists xs. split; [by apply witness_carries|]. split; [done|].
    by eapply accepted_conservation_segment in Ha; [|apply vals_witness..|done|done|done].
  - intros (xs & E & Hlay & Hh). destruct (encoded_vec _ _ E) as [Hn Hd]. split_and!; [|done|done|].
    + rewrite conservation_length. intros [-> | [|] ]; [|done|done].
      apply (sg_nonempty _ _ _ _ (th_segment _ _ _ _ (ch_transcript _ _ _ _ _ _ _ _ Hh))). by destruct xs.
    + eapply accepted_conservation_segment; try apply vals_witness; try done. by apply witness_carries.
Qed.

Lemma final_satisfied c s : auc_public_inputs c = final_public_inputs s →
  is_satisfied (final_generate_constraints c) = true ↔
    final_layout_ok s ∧
    final_holds s (afw_total (auc_witness c)) (afw_spent_total_blinding (auc_witness c))
      (afw_new_total_blinding (auc_witness c)).
Proof.
  destruct c as [p [total sb nb]]. cbn. intros ->. rewrite is_satisfied_iff.
  unfold final_generate_constraints. cbn [auc_public_inputs auc_witness afw_total
    afw_spent_total_blinding afw_new_total_blinding].
  rewrite !accepted_bind, accepted_unsat_neq, accepted_own_bytes, (accepted_final_layout _ s),
    (accepted_conservation_final _ s _ _ _ total sb nb) by apply vals_witness.
  pose proof (final_length s). tauto.
Qed.

Lemma exclusion_satisfied {SPENT NEW} (c : AuditCircuit (AllocationExclusionSegmentPairWitness SPENT NEW))
    (s : AllocationExclusionSegmentPairStatement SPENT NEW) :
  count_fits SPENT → count_fits NEW → auc_public_inputs c = exclusion_public_inputs s →
  let w := auc_witness c in
  is_satisfied (exclusion_generate_constraints c) = true ↔
    ∃ xs ys, vec_to_list (atw_allocations (aew_spent w)) = encode_native_allocation <$> xs ∧
      vec_to_list (atw_allocations (aew_new w)) = encode_native_allocation <$> ys ∧
      exclusion_layout_ok s ∧
      exclusion_holds s xs ys (atw_segment_amount (aew_spent w)) (atw_segment_amount (aew_new w))
        (atw_amount_blinding (aew_spent w)) (atw_amount_blinding (aew_new w)).
Proof.
  intros HS HN. destruct c as [p [ [ws sa sb] [vs na nb] ] ]. cbn. intros ->.
  rewrite is_satisfied_iff. unfold exclusion_generate_constraints.
  cbn [auc_public_inputs auc_witness atw_allocations atw_segment_amount atw_amount_blinding
    aew_spent aew_new].
  rewrite !accepted_bind, accepted_unsat_if, accepted_own_bytes, (accepted_exclusion_layout _ s)
    by apply vals_witness. split.
  - intros (Hg & _ & Hlay & Ha).
    destruct (exclusion_carries _ s _ _ _ _ _ _ (vals_witness _) Ha) as (xs & ys & Hx & Hy & HnS & HnN).
    exists xs, ys. split_and!; [by apply witness_carries|by apply witness_carries|done|].
    by eapply accepted_exclusion in Ha; [|apply vals_witness..|done|done|done|done|done|done].
  - intros (xs & ys & E & F & Hlay & Hh). destruct (encoded_vec _ _ E) as [HnS HdS], (encoded_vec _ _ F) as [HnN HdN].
    split_and!; [|done|done|].
    + rewrite exclusion_length. intros [-> | [-> | [|[|] ] ] ]; [| |done..].
      * apply (sg_nonempty _ _ _ _ (eh_spent _ _ _ _ _ _ _ Hh)). by destruct xs.
      * apply (sg_nonempty _ _ _ _ (eh_new _ _ _ _ _ _ _ Hh)). by destruct ys.
    + eapply accepted_exclusion; try apply vals_witness; try done; by apply witness_carries.
Qed.
End audit.
