(* ===== verification/ZkAuditBundle.v ===== *)
(** Bundles of the segmented audit: what [verify_allocation_audit_bundle]
    accepts, and what an accepted bundle with proved statements shows about the
    allocations behind it. *)

From stdpp Require Import base list strings vector sets.
From Stdlib Require Import ZArith Lia Strings.Byte.
From S2P Require Import Prelude.
From S2P Require Import Bytes.
From S2P Require Import Encoding.
From S2P Require Import Types.
From S2P Require Import Commit.
From S2P Require Import AssetTypes.
From S2P Require Import AssetRules.
From S2P Require Import Asset.
From S2P Require Import AssetCorrect.
From S2P Require Import AssetStrategy.
From S2P Require Import Lane.
From S2P Require Import Zk.
From S2P Require Import ZkCorrect.
From S2P Require Import ZkGadgets.
From S2P Require Import ZkCircuits.
From S2P Require Import ZkCircuitsCorrect.
From S2P Require Import ZkAllocation.
From S2P Require Import ZkTransition.
From S2P Require Import ZkAudit.
From S2P Require Import ZkAuditCorrect.

Open Scope list_scope.

(** * What the verifier checks *)

(** Segments in a row: numbered from [i], each starting at the root where the
    one before ended. *)
Fixpoint linked {ALLOCS} (side : RgkAllocationTranscriptSide) (c : KaspaChainId) (total : u64)
    (i : nat) (root : Bytes32) (l : list (AllocationTranscriptSegmentStatement ALLOCS)) : Prop :=
  match l with
  | [] => True
  | s :: l' =>
      (Z.of_nat i < 2 ^ 64)%Z ∧ ats_side s = side ∧ ats_chain_id s = c ∧
      ats_segment_index s = wrap 64 (Z.of_nat i) ∧ ats_total_count s = total ∧
      ats_previous_root s = root ∧ linked side c total (S i) (ats_next_root s) l'
  end.

Definition last_root {ALLOCS} (root : Bytes32) (l : list (AllocationTranscriptSegmentStatement ALLOCS))
  : Bytes32 := foldl (λ _ s, ats_next_root s) root l.

(** Running totals in a row. *)
Fixpoint totals_linked {ALLOCS} (commitment : Bytes32)
    (l : list (AllocationConservationSegmentStatement ALLOCS)) : Prop :=
  match l with
  | [] => True
  | s :: l' => acs_previous_total_commitment s = commitment ∧
               totals_linked (acs_next_total_commitment s) l'
  end.

Definition last_total {ALLOCS} (commitment : Bytes32)
    (l : list (AllocationConservationSegmentStatement ALLOCS)) : Bytes32 :=
  foldl (λ _ s, acs_next_total_commitment s) commitment l.

(** The commitment a conservation chain starts from, whatever it is. *)
Definition first_total {ALLOCS} (l : list (AllocationConservationSegmentStatement ALLOCS)) : Bytes32 :=
  match l with [] => zero32 | s :: _ => acs_previous_total_commitment s end.

Section bundles.
Context `{Sha256}.

Lemma check_segment_ok {ALLOCS} label side c total i root
    (s : AllocationTranscriptSegmentStatement ALLOCS) out :
  check_transcript_segment label side c total i root s = Ok out ↔
    (Z.of_nat i < 2 ^ 64)%Z ∧ ats_side s = side ∧ ats_chain_id s = c ∧
    ats_segment_index s = wrap 64 (Z.of_nat i) ∧ ats_total_count s = total ∧
    ats_previous_root s = root ∧ ats_next_root s = out.
Proof.
  unfold check_transcript_segment. cbv zeta. rewrite !bind_unit_ok, !fail_if_neq_ok, fail_if_ok.
  unfold usize_MAX. assert ((¬ 2 ^ 64 - 1 < Z.of_nat i)%Z ↔ (Z.of_nat i < 2 ^ 64)%Z) as -> by lia.
  assert (Ok (ats_next_root s) = Ok out ↔ ats_next_root s = out) as -> by (split; congruence). tauto.
Qed.

Lemma linked_ok {ALLOCS} label side c total i root
    (l : list (AllocationTranscriptSegmentStatement ALLOCS)) out :
  try_foldi (check_transcript_segment label side c total) i root l = Ok out ↔
    linked side c total i root l ∧ out = last_root root l.
Proof.
  revert i root. induction l as [|s l IH]; intros i root; cbn [try_foldi linked last_root foldl].
  { split; [by intros [= <-]|by intros [_ ->]]. }
  rewrite bind_ok. setoid_rewrite IH. setoid_rewrite check_segment_ok. split.
  - intros (r & (? & ? & ? & ? & ? & ? & <-) & Hl & ->). by split_and!.
  - intros ((? & ? & ? & ? & ? & ? & Hl) & ->). by exists (ats_next_root s).
Qed.

Lemma check_conservation_ok {ALLOCS} label i previous (t : AllocationTranscriptSegmentStatement ALLOCS) s out :
  check_conservation_segment label i previous (t, s) = Ok out ↔
    acs_transcript s = t ∧ (i = 0%nat → uval (ats_segment_index t) = 0%Z) ∧
    (∀ p, previous = Some p → acs_previous_total_commitment s = p) ∧
    out = Some (acs_next_total_commitment s).
Proof.
  unfold check_conservation_segment. cbv zeta. rewrite !bind_unit_ok, fail_if_neq_ok, fail_if_ok.
  assert (Hp : match previous with
    | Some p => fail_if (acs_previous_total_commitment s ≠ p)
        (label ++ (" conservation segment " ++ Hex.usize_display (Z.of_nat i)) ++
         " does not link to the previous running-total commitment")%string
    | None => Ok () end = Ok () ↔ ∀ p, previous = Some p → acs_previous_total_commitment s = p).
  { destruct previous; [rewrite fail_if_neq_ok; naive_solver|by split]. }
  rewrite Hp. split.
  - intros (? & Hi & ? & [= <-]). split_and!; try done. intros ->. apply dec_stable. intros Hn. by apply Hi.
  - intros (? & Hi & ? & ->). split_and!; try done. intros [-> Hn]. by apply Hn, Hi.
Qed.

Lemma totals_linked_ok {ALLOCS} label i commitment (ts : list (AllocationTranscriptSegmentStatement ALLOCS))
    (l : list (AllocationConservationSegmentStatement ALLOCS)) out :
  length l = length ts → (0 < i)%nat →
  try_foldi (check_conservation_segment label) i (Some commitment) (zip ts l) = Ok out ↔
    acs_transcript <$> l = ts ∧ totals_linked commitment l ∧ out = Some (last_total commitment l).
Proof.
  revert i commitment ts. induction l as [|s l IH]; intros i commitment [|t ts] Hlen Hi; try done.
  { cbn. split; [by intros [= <-]|by intros (_ & _ & ->)]. }
  cbn [zip zip_with try_foldi totals_linked last_total foldl fmap list_fmap].
  rewrite bind_ok. setoid_rewrite check_conservation_ok. split.
  - intros (r & (<- & _ & Hp & ->) & Hr). apply IH in Hr as (<- & Hl & ->); [|by injection Hlen|lia].
    split_and!; [done|by apply Hp|done|done].
  - intros ([= <- E] & (Hp & Hl) & ->). exists (Some (acs_next_total_commitment s)).
    rewrite IH by (lia || by injection Hlen). split; [|done].
    split_and!; [done|lia| |done]. by intros p [= <-].
Qed.

Lemma conservation_chain_ok {ALLOCS} label (ts : list (AllocationTranscriptSegmentStatement ALLOCS))
    (l : list (AllocationConservationSegmentStatement ALLOCS)) (final : Bytes32) :
  verify_allocation_conservation_chain label ts l final = Ok () ↔
    acs_transcript <$> l = ts ∧ ts ≠ [] ∧ (∀ t, head ts = Some t → uval (ats_segment_index t) = 0%Z) ∧
    totals_linked (first_total l) l ∧ last_total (first_total l) l = final.
Proof.
  unfold verify_allocation_conservation_chain. rewrite bind_unit_ok, bind_ok, fail_if_neq_ok.
  setoid_rewrite fail_if_neq_ok. destruct l as [|s l], ts as [|t ts].
  - split; [|by intros (_ & ? & _)]. by intros (_ & r & [= <-] & Hr).
  - by split; [intros (? & _)|intros (? & _)].
  - by split; [intros (? & _)|intros (? & _)].
  - cbn [zip zip_with try_foldi fmap list_fmap first_total totals_linked last_total foldl head].
    setoid_rewrite bind_ok. setoid_rewrite check_conservation_ok. split.
    + intros (Hlen & r & (o & (<- & Hi & _ & ->) & Hr) & ->).
      rewrite totals_linked_ok in Hr by (lia || by injection Hlen). destruct Hr as (<- & Hl & [= ->]).
      split_and!; try done. intros t' [= <-]. by apply Hi.
    + intros ([= <- <-] & _ & Hi & (_ & Hl) & <-). split; [cbn; by rewrite length_fmap|].
      eexists. split; [|done]. exists (Some (acs_next_total_commitment s)).
      rewrite totals_linked_ok by (rewrite ?length_fmap; lia || done).
      split; [|by split_and!]. split_and!; try done. intros _. by apply Hi.
Qed.

Lemma transcript_chain_ok {ALLOCS} label side (l : list (AllocationTranscriptSegmentStatement ALLOCS)) t :
  verify_allocation_transcript_chain label side l = Ok t ↔
    ALLOCS ≠ 0%nat ∧ l ≠ [] ∧
    checked_mul (usize_of (length l)) (usize_of ALLOCS) = Some (tca_total_count t) ∧
    linked side (tca_chain_id t) (tca_total_count t) 0 (allocation_transcript_empty_root side) l ∧
    tca_final_root t = last_root (allocation_transcript_empty_root side) l.
Proof.
  unfold verify_allocation_transcript_chain. rewrite bind_unit_ok, fail_if_ok, bind_ok.
  destruct l as [|s l]; cbn [head].
  { split; [by intros (_ & ? & ? & _)|by intros (_ & ? & _)]. }
  cbv zeta. setoid_rewrite ok_or_ok. split.
  - intros (HA & first & [= <-] & Hr). split; [done|]. split; [done|].
    rewrite !bind_unit_ok, !fail_if_neq_ok, bind_ok in Hr. destruct Hr as (Hs & Hp & total & Ht & Hr).
    rewrite ok_or_ok in Ht. rewrite !bind_unit_ok, !fail_if_neq_ok, bind_ok in Hr.
    destruct Hr as (_ & Htc & r & Hl & [= <-]). rewrite linked_ok, Hp in Hl. cbn. by destruct Hl as [Hl ->].
  - intros (HA & _ & Ht & Hl & Hr). split; [done|]. exists s. split; [done|].
    pose proof Hl as (_ & Hs & Hc & _ & Htc & Hp & _).
    rewrite !bind_unit_ok, !fail_if_neq_ok, bind_ok. split; [done|]. split; [done|].
    exists (tca_total_count t). rewrite ok_or_ok. split; [done|].
    rewrite !bind_unit_ok, !fail_if_neq_ok, bind_ok, fail_if_ok.
    split; [pose proof (uint_range (tca_total_count t)); unfold usize_MAX; lia|]. split; [done|].
    exists (tca_final_root t). rewrite linked_ok, Hp, Hc, Hr. split; [done|].
    destruct t as [tc tt tr]. cbn in *. by subst.
Qed.

(** * The grid *)

Definition exclusion_pair {SPENT NEW} (e : AllocationExclusionSegmentPairStatement SPENT NEW) : u64 * u64 :=
  (aes_spent_segment_index e, aes_new_segment_index e).

(** A pair statement about two transcript segments. *)
Record pair_bound {SPENT NEW} (s : AllocationTranscriptSegmentStatement SPENT)
    (n : AllocationTranscriptSegmentStatement NEW)
    (e : AllocationExclusionSegmentPairStatement SPENT NEW) : Prop := {
  pb_spent_previous : aes_spent_previous_root e = ats_previous_root s;
  pb_spent_next : aes_spent_next_root e = ats_next_root s;
  pb_spent_count : aes_spent_total_count e = ats_total_count s;
  pb_spent_commitment : aes_spent_amount_commitment e = ats_segment_amount_commitment s;
  pb_new_previous : aes_new_previous_root e = ats_previous_root n;
  pb_new_next : aes_new_next_root e = ats_next_root n;
  pb_new_count : aes_new_total_count e = ats_total_count n;
  pb_new_commitment : aes_new_amount_commitment e = ats_segment_amount_commitment n
}.

Definition exclusion_bound {SPENT NEW} (ss : list (AllocationTranscriptSegmentStatement SPENT))
    (ns : list (AllocationTranscriptSegmentStatement NEW)) (c : KaspaChainId)
    (e : AllocationExclusionSegmentPairStatement SPENT NEW) : Prop :=
  aes_chain_id e = c ∧ ∃ s n, find_segment ss (aes_spent_segment_index e) = Some s ∧
    find_segment ns (aes_new_segment_index e) = Some n ∧ pair_bound s n e.

Lemma four_differ `{EqDecision A, EqDecision B} (a b c d : A) (x y : B) (f g : A) :
  ¬ (a ≠ b ∨ c ≠ d ∨ x ≠ y ∨ f ≠ g) ↔ a = b ∧ c = d ∧ x = y ∧ f = g.
Proof. split; [|tauto]. intros Hn. split_and!; apply dec_stable; tauto. Qed.

Lemma check_exclusion_ok {SPENT NEW} (ss : list (AllocationTranscriptSegmentStatement SPENT))
    (ns : list (AllocationTranscriptSegmentStatement NEW)) c seen e out :
  check_exclusion ss ns c seen e = Ok out ↔
    exclusion_bound ss ns c e ∧ (exclusion_pair e ∉ seen) ∧ out = seen ++ [exclusion_pair e].
Proof.
  unfold check_exclusion, exclusion_bound. cbv zeta.
  rewrite !bind_unit_ok, fail_if_neq_ok, fail_if_ok, bind_ok. setoid_rewrite ok_or_ok. split.
  - intros (Hc & Hp & s & Hs & Hr). rewrite bind_ok in Hr. destruct Hr as (n & Hn & Hr).
    rewrite ok_or_ok in Hn. rewrite !bind_unit_ok, !fail_if_ok, (four_differ (aes_spent_previous_root e)),
      (four_differ (aes_new_previous_root e)) in Hr.
    destruct Hr as ((? & ? & ? & ?) & (? & ? & ? & ?) & [= <-]). split_and!; try done.
    exists s, n. split_and!; [done|done|by constructor].
  - intros ((Hc & s & n & Hs & Hn & []) & Hp & ->). split_and!; [done|done|].
    exists s. split; [done|]. rewrite bind_ok. exists n. rewrite ok_or_ok. split; [done|].
    by rewrite !bind_unit_ok, !fail_if_ok, (four_differ (aes_spent_previous_root e)),
      (four_differ (aes_new_previous_root e)).
Qed.

Lemma exclusions_ok {SPENT NEW} (ss : list (AllocationTranscriptSegmentStatement SPENT))
    (ns : list (AllocationTranscriptSegmentStatement NEW)) c seen es out :
  try_fold (check_exclusion ss ns c) seen es = Ok out ↔
    Forall (exclusion_bound ss ns c) es ∧ NoDup (exclusion_pair <$> es) ∧
    (∀ e, e ∈ es → exclusion_pair e ∉ seen) ∧ out = seen ++ (exclusion_pair <$> es).
Proof.
  revert seen. induction es as [|e es IH]; intros seen; cbn [try_fold fmap list_fmap].
  { rewrite app_nil_r. split; [|by intros (_ & _ & _ & ->)]. intros [= <-].
    split_and!; [constructor|constructor| |done]. by intros e He%elem_of_nil. }
  rewrite bind_ok. setoid_rewrite check_exclusion_ok. setoid_rewrite IH.
  rewrite list.Forall_cons, NoDup_cons. split.
  - intros (r & (Hb & Hp & ->) & Hf & Hnd & Hall & ->). rewrite <-app_assoc.
    split_and!; try done.
    + intros (e' & E & He')%list_elem_of_fmap. apply (Hall e' He'). rewrite <-E. set_solver.
    + intros e' [-> | He']%elem_of_cons; [done|]. specialize (Hall e' He'). set_solver.
  - intros ((Hb & Hf) & (Hp & Hnd) & Hall & ->). exists (seen ++ [exclusion_pair e]).
    split_and!; try done.
    + apply Hall. by left.
    + intros e' He'. rewrite elem_of_app, list_elem_of_singleton. intros [Hin|E].
      * revert Hin. apply Hall. by right.
      * apply Hp, list_elem_of_fmap. by exists e'.
    + by rewrite <-app_assoc.
Qed.

Lemma try_fold_check {A} (P : A → Prop) (f : unit → A → result string unit) l :
  (∀ x, f () x = Ok () ↔ P x) → try_fold f () l = Ok () ↔ Forall P l.
Proof.
  intros Hf. induction l as [|x l IH]; cbn [try_fold]; [by split; [constructor|]|].
  by rewrite bind_unit_ok, Hf, IH, list.Forall_cons.
Qed.

Lemma grid_ok {SPENT NEW} (ss : list (AllocationTranscriptSegmentStatement SPENT))
    (ns : list (AllocationTranscriptSegmentStatement NEW)) es c :
  verify_allocation_exclusion_grid ss ns es c = Ok () ↔
    checked_mul (usize_of (length ss)) (usize_of (length ns)) = Some (usize_of (length es)) ∧
    Forall (exclusion_bound ss ns c) es ∧ NoDup (exclusion_pair <$> es) ∧
    ∀ s n, s ∈ ss → n ∈ ns → (ats_segment_index s, ats_segment_index n) ∈ exclusion_pair <$> es.
Proof.
  unfold verify_allocation_exclusion_grid. rewrite bind_ok. setoid_rewrite ok_or_ok.
  assert (Hpairs : ∀ seen : list (u64 * u64),
    try_fold (λ _ spent, try_fold (λ _ new,
      let pair := (ats_segment_index spent, ats_segment_index new) in
      fail_if (pair ∉ seen)
        ("allocation exclusion grid is missing pair " ++ pair_label pair)%string) () ns) () ss = Ok () ↔
    ∀ s n, s ∈ ss → n ∈ ns → (ats_segment_index s, ats_segment_index n) ∈ seen).
  { intros seen. rewrite (try_fold_check (λ s, Forall (λ n, (ats_segment_index s, ats_segment_index n) ∈ seen) ns)).
    - rewrite list.Forall_forall. setoid_rewrite list.Forall_forall. naive_solver.
    - intros s. apply try_fold_check. intros n. cbv zeta. rewrite fail_if_ok.
      split; [apply dec_stable|by intros Hin Hn]. }
  split.
  - intros (total & Ht & Hr). rewrite bind_unit_ok, fail_if_neq_ok, bind_ok in Hr.
    destruct Hr as (<- & seen & Hs & Hr). apply exclusions_ok in Hs as (Hb & Hnd & _ & ->).
    rewrite Hpairs in Hr. by split_and!.
  - intros (Ht & Hb & Hnd & Hall). eexists. split; [exact Ht|].
    rewrite bind_unit_ok, fail_if_neq_ok, bind_ok. split; [done|]. exists (exclusion_pair <$> es).
    rewrite exclusions_ok, Hpairs. split_and!; try done. by intros e _ Hin%elem_of_nil.
Qed.
End bundles.

(** * What a proved bundle shows *)

Section proved.
Context `{GadgetLaws}.
Implicit Types (xs ys : list RgkAllocation) (xss yss : list (list RgkAllocation)).

(** The messages of a total commitment and of a segment's root. *)
Definition total_message (s : RgkAllocationTranscriptSide) (t v : u64) (b : Bytes32) : list byte :=
  ltac:(message_of (allocation_conservation_total_commitment s t v b)).
Definition segment_message (p : Bytes32) (s : RgkAllocationTranscriptSide) (i t : u64)
    (allocations : list (list byte)) : list byte :=
  ltac:(message_of (allocation_transcript_segment_root_from_witness p s i t allocations)).

Lemma total_commitment_binds s t v (b : Bytes32) s' t' v' (b' : Bytes32) :
  allocation_conservation_total_commitment s t v b =
    allocation_conservation_total_commitment s' t' v' b' →
  v = v' ∨ collision [total_message s t v b; total_message s' t' v' b'].
Proof.
  intros E. apply asset_hash_binds in E as [[_ E]|]; [left|by right|done..]. by peel_bytes E.
Qed.

Lemma segment_root_binds (p : Bytes32) s i t xs (p' : Bytes32) s' i' t' ys :
  segment_root p s i t xs = segment_root p' s' i' t' ys →
  xs = ys ∨ collision [segment_message p s i t (encode_native_allocation <$> xs);
                       segment_message p' s' i' t' (encode_native_allocation <$> ys)].
Proof.
  intros E. apply asset_hash_binds in E as [[_ E]|]; [left|by right|done..]. peel_bytes E.
  by apply (concat_fixed_inj encode_allocation 156) in E;
    [|apply encode_allocation_length|apply encode_allocation_inj].
Qed.

(** ** Witnesses

    A satisfied circuit over the public inputs of a statement is given by its
    witness.  The messages of a witness are those its circuit hashes for the
    roots and the totals of the statement. *)

Definition conservation_witnessed {ALLOCS} (s : AllocationConservationSegmentStatement ALLOCS)
    (w : AllocationConservationSegmentWitness ALLOCS) : Prop :=
  is_satisfied (conservation_generate_constraints
    {| auc_public_inputs := conservation_public_inputs s; auc_witness := w |}) = true.

Definition final_witnessed (s : AllocationConservationFinalStatement)
    (w : AllocationConservationFinalWitness) : Prop :=
  is_satisfied (final_generate_constraints
    {| auc_public_inputs := final_public_inputs s; auc_witness := w |}) = true.

Definition exclusion_witnessed {SPENT NEW} (s : AllocationExclusionSegmentPairStatement SPENT NEW)
    (w : AllocationExclusionSegmentPairWitness SPENT NEW) : Prop :=
  is_satisfied (exclusion_generate_constraints
    {| auc_public_inputs := exclusion_public_inputs s; auc_witness := w |}) = true.

Definition conservation_messages {ALLOCS} (s : AllocationConservationSegmentStatement ALLOCS)
    (w : AllocationConservationSegmentWitness ALLOCS) : list (list byte) :=
  let t := acs_transcript s in
  [segment_message (ats_previous_root t) (ats_side t) (ats_segment_index t) (ats_total_count t)
     (vec_to_list (atw_allocations (acw_transcript w)));
   total_message (ats_side t) (ats_total_count t) (acw_previous_total w) (acw_previous_total_blinding w);
   total_message (ats_side t) (ats_total_count t) (acw_next_total w) (acw_next_total_blinding w)].

Definition final_messages (s : AllocationConservationFinalStatement)
    (w : AllocationConservationFinalWitness) : list (list byte) :=
  [total_message Spent (afs_spent_total_count s) (afw_total w) (afw_spent_total_blinding w);
   total_message New (afs_new_total_count s) (afw_total w) (afw_new_total_blinding w)].

Definition exclusion_messages {SPENT NEW} (s : AllocationExclusionSegmentPairStatement SPENT NEW)
    (w : AllocationExclusionSegmentPairWitness SPENT NEW) : list (list byte) :=
  [segment_message (aes_spent_previous_root s) Spent (aes_spent_segment_index s)
     (aes_spent_total_count s) (vec_to_list (atw_allocations (aew_spent w)));
   segment_message (aes_new_previous_root s) New (aes_new_segment_index s)
     (aes_new_total_count s) (vec_to_list (atw_allocations (aew_new w)))].

(** Below, [ms] are messages that hold those of every witness at hand. *)
Definition conservation_in (ms : list (list byte)) {ALLOCS}
    (s : AllocationConservationSegmentStatement ALLOCS) : Prop :=
  ∃ w, conservation_witnessed s w ∧ conservation_messages s w ⊆ ms.
Definition exclusion_in (ms : list (list byte)) {SPENT NEW}
    (s : AllocationExclusionSegmentPairStatement SPENT NEW) : Prop :=
  ∃ w, exclusion_witnessed s w ∧ exclusion_messages s w ⊆ ms.

Lemma collision_of (x y : list byte) (ms : list (list byte)) :
  x ∈ ms → y ∈ ms → collision [x; y] → collision ms.
Proof.
  intros Hx Hy. apply collides_mono. apply cons_included; [done|]. by apply cons_included, list_subseteq_nil.
Qed.

(** The allocations behind one segment, and where its root is hashed. *)
Record segment_of (ms : list (list byte)) {ALLOCS} (c : KaspaChainId)
    (s : AllocationTranscriptSegmentStatement ALLOCS) xs : Prop := {
  sf_length : length xs = ALLOCS;
  sf_ok : Forall (allocation_ok c) xs;
  sf_keys : NoDup (anchor_key <$> xs);
  sf_root : ats_next_root s =
    segment_root (ats_previous_root s) (ats_side s) (ats_segment_index s) (ats_total_count s) xs;
  sf_message : segment_message (ats_previous_root s) (ats_side s) (ats_segment_index s)
    (ats_total_count s) (encode_native_allocation <$> xs) ∈ ms
}.

(** The root of a transcript whose segments are taken in the order they list
    their allocations. *)
Definition transcript_in_order (side : RgkAllocationTranscriptSide) (total : u64) xss : Bytes32 :=
  foldl (λ r s, segment_root r side s.1 total s.2) (allocation_transcript_empty_root side)
    (numbered xss).

(** It is the native root when the segments are in canonical order. *)
Lemma transcript_in_order_native side total xss :
  Forall canonical xss → transcript_in_order side total xss = transcript_root side total xss.
Proof.
  intros Hc. unfold transcript_in_order, transcript_root, numbered.
  assert (Hg : ∀ i r, foldl (λ r s, segment_root r side s.1 total s.2) r
      (imap (λ j x, (wrap 64 (Z.of_nat (i + j)), x)) xss) =
    foldl (λ r s, extend_allocation_transcript_root r side s.1 total s.2) r
      (imap (λ j x, (wrap 64 (Z.of_nat (i + j)), x)) xss)); [|apply (Hg 0%nat)].
  induction Hc as [|xs xss Hx Hc IH]; intros i r; [done|]. cbn [imap foldl fst snd].
  assert (E : ∀ k, segment_root r side k total xs =
    extend_allocation_transcript_root r side k total xs).
  { intros k. unfold segment_root, extend_allocation_transcript_root,
      allocation_transcript_segment_root_from_witness. cbv zeta. rewrite Hx.
    unfold len_u64. by rewrite length_fmap. }
  rewrite E. specialize (IH (S i)). rewrite !(imap_ext _ (λ j x, (wrap 64 (Z.of_nat (S i + j)), x)) xss).
  - apply IH.
  - intros j x _. cbn. by rewrite Nat.add_succ_r.
Qed.

Lemma linked_root ms {ALLOCS} side c total i root (l : list (AllocationTranscriptSegmentStatement ALLOCS)) xss :
  linked side c total i root l → Forall2 (segment_of ms c) l xss →
  last_root root l = foldl (λ r s, segment_root r side s.1 total s.2) root
    (imap (λ j x, (wrap 64 (Z.of_nat (i + j)), x)) xss).
Proof.
  intros Hl Hf. revert i root Hl. induction Hf as [|s xs l xss [] Hf IH]; intros i root Hl; [done|].
  destruct Hl as (_ & Hs & _ & Hi & Ht & Hp & Hl). cbn [last_root foldl imap fst snd].
  fold (last_root (ats_next_root s) l). rewrite (IH (S i) _ Hl), Nat.add_0_r, <-Hi, <-Hs, <-Ht, <-Hp, sf_root0.
  f_equal. apply imap_ext. intros j x _. cbn. by rewrite Nat.add_succ_r.
Qed.

Definition conservation_proved {ALLOCS} (s : AllocationConservationSegmentStatement ALLOCS) : Prop :=
  ∃ c, auc_public_inputs c = conservation_public_inputs s ∧
       is_satisfied (conservation_generate_constraints (ALLOCS := ALLOCS) c) = true.

Definition final_proved (s : AllocationConservationFinalStatement) : Prop :=
  ∃ c, auc_public_inputs c = final_public_inputs s ∧ is_satisfied (final_generate_constraints c) = true.

Definition exclusion_proved {SPENT NEW} (s : AllocationExclusionSegmentPairStatement SPENT NEW) : Prop :=
  ∃ c, auc_public_inputs c = exclusion_public_inputs s ∧
       is_satisfied (exclusion_generate_constraints (SPENT := SPENT) (NEW := NEW) c) = true.

Lemma conservation_in_holds ms {ALLOCS} (s : AllocationConservationSegmentStatement ALLOCS) :
  count_fits ALLOCS → conservation_in ms s →
  ∃ xs amount previous next blinding previous_blinding next_blinding, length xs = ALLOCS ∧
    conservation_holds s xs amount previous next blinding previous_blinding next_blinding ∧
    let t := acs_transcript s in
    segment_message (ats_previous_root t) (ats_side t) (ats_segment_index t) (ats_total_count t)
      (encode_native_allocation <$> xs) ∈ ms ∧
    total_message (ats_side t) (ats_total_count t) previous previous_blinding ∈ ms ∧
    total_message (ats_side t) (ats_total_count t) next next_blinding ∈ ms.
Proof.
  intros HA (w & Hs & Hm). apply (conservation_satisfied {| auc_public_inputs := conservation_public_inputs s; auc_witness := w |}
    s HA eq_refl) in Hs as (xs & E & _ & Hh).
  cbn [auc_witness] in *. pose proof E as [Hn _]%encoded_vec. eexists xs, _, _, _, _, _, _.
  split; [done|]. split; [exact Hh|]. unfold conservation_messages in Hm. cbv zeta in Hm |- *.
  rewrite <-E. split_and!; apply Hm; in_messages.
Qed.

(** Along a chain of witnessed segments the commitments open to a total that
    grows by what each segment holds. *)
Lemma running_totals ms {ALLOCS} side c total i root commitment (v : u64) (blinding : Bytes32)
    (l : list (AllocationConservationSegmentStatement ALLOCS)) :
  count_fits ALLOCS → linked side c total i root (acs_transcript <$> l) →
  totals_linked commitment l → Forall (conservation_in ms) l →
  commitment = allocation_conservation_total_commitment side total v blinding →
  total_message side total v blinding ∈ ms →
  (∃ xss (v' : u64) (blinding' : Bytes32),
     Forall2 (segment_of ms c) (acs_transcript <$> l) xss ∧
     last_total commitment l = allocation_conservation_total_commitment side total v' blinding' ∧
     total_message side total v' blinding' ∈ ms ∧
     (uval v' = v + supply (concat xss))%Z) ∨ collision ms.
Proof.
  intros HA. revert i root commitment v blinding.
  induction l as [|s l IH]; intros i root commitment v blinding Hl Ht Hp Hc Hv.
  { left. exists [], v, blinding. split_and!; [constructor|done|done|].
    change (supply (concat [])) with 0%Z. lia. }
  apply list.Forall_cons in Hp as [Hs Hp]. destruct Ht as [Hprev Ht].
  destruct Hl as (_ & Hside & Hch & _ & Htot & _ & Hl).
  destruct (conservation_in_holds ms s HA Hs) as
    (xs & am & pv & nx & b & pb & nb & Hn & [ [Hsg _ Hr] _ _ Hsum _ Hpv Hnx] & Ms & Mp & Mn).
  rewrite Hside, Htot in Hpv, Hnx, Mp, Mn. rewrite Hprev, Hc in Hpv.
  apply total_commitment_binds in Hpv as [<-|]; [|right; eapply collision_of; [| |eassumption]; assumption].
  destruct (IH _ _ _ nx nb Hl Ht Hp Hnx Mn) as [(xss & v' & b' & Hf & El & Mv & Ev)|]; [left|by right].
  destruct Hsg as [_ Hok Hkeys Ham _]. exists (xs :: xss), v', b'. split_and!; [|done|done|].
  - cbn [fmap list_fmap]. constructor; [|done]. rewrite Hch in Hok. by constructor.
  - cbn [concat]. rewrite total_app, Ev, Ham. lia.
Qed.

(** ... and from zero, for a chain that starts at segment zero. *)
Lemma chain_totals ms {ALLOCS} side c total root (l : list (AllocationConservationSegmentStatement ALLOCS)) :
  count_fits ALLOCS → l ≠ [] → linked side c total 0 root (acs_transcript <$> l) →
  totals_linked (first_total l) l → Forall (conservation_in ms) l →
  (∃ xss (v : u64) (blinding : Bytes32),
     Forall2 (segment_of ms c) (acs_transcript <$> l) xss ∧
     last_total (first_total l) l = allocation_conservation_total_commitment side total v blinding ∧
     total_message side total v blinding ∈ ms ∧
     uval v = supply (concat xss)) ∨ collision ms.
Proof.
  intros HA Hne Hl Ht Hp. destruct l as [|s l]; [done|].
  pose proof Hp as [Hs _]%list.Forall_cons. pose proof Hl as (_ & Hside & _ & Hidx & Htot & _).
  destruct (conservation_in_holds ms s HA Hs) as
    (xs & am & pv & nx & b & pb & nb & Hn & [_ _ _ _ Hfirst Hpv _] & _ & Mp & _).
  rewrite Hside, Htot in Hpv, Mp.
  destruct (running_totals ms side c total 0 root _ pv pb (s :: l) HA Hl Ht Hp Hpv Mp)
    as [(xss & v' & b' & Hf & El & Mv & Ev)|]; [left|by right].
  exists xss, v', b'. split_and!; try done. rewrite Ev, Hfirst; [done|]. by rewrite Hidx.
Qed.

(** * Exclusion *)

Lemma linked_index {ALLOCS} side c total i root (l : list (AllocationTranscriptSegmentStatement ALLOCS)) k s :
  linked side c total i root l → l !! k = Some s →
  (Z.of_nat (i + k) < 2 ^ 64)%Z ∧ ats_segment_index s = wrap 64 (Z.of_nat (i + k)) ∧
  ats_side s = side ∧ ats_chain_id s = c ∧ ats_total_count s = total.
Proof.
  revert i root k. induction l as [|t l IH]; intros i root [|k] Hl Hk; try done.
  - injection Hk as ->. destruct Hl as (? & ? & ? & ? & ? & _). rewrite Nat.add_0_r. by split_and!.
  - destruct Hl as (_ & _ & _ & _ & _ & _ & Hl). rewrite <-Nat.add_succ_comm. by apply (IH _ _ _ Hl Hk).
Qed.

(** In a chain, an index finds the segment that has it. *)
Lemma linked_find {ALLOCS} side c total root (l : list (AllocationTranscriptSegmentStatement ALLOCS)) s :
  linked side c total 0 root l → s ∈ l → find_segment l (ats_segment_index s) = Some s.
Proof.
  intros Hl (k & Hk)%list_elem_of_lookup. unfold find_segment.
  destruct (list_find _ l) as [[j t]|] eqn:E.
  - apply list_find_Some in E as (Hj & Ei & _). cbn. f_equal.
    destruct (linked_index _ _ _ _ _ _ _ _ Hl Hk) as (Hk64 & Ek & _).
    destruct (linked_index _ _ _ _ _ _ _ _ Hl Hj) as (Hj64 & Ej & _).
    rewrite Ek, Ej in Ei. apply (f_equal uval) in Ei. rewrite !uval_wrap_small in Ei by lia.
    replace j with k in Hj by lia. congruence.
  - apply list_find_None in E. rewrite list.Forall_forall in E. exfalso. eapply E; [|reflexivity].
    by eapply list_elem_of_lookup_2.
Qed.

Definition apart xs ys : Prop := ∀ a b, a ∈ xs → b ∈ ys → anchor_key a ≠ anchor_key b.

Lemma pair_apart ms {SPENT NEW} c (s : AllocationTranscriptSegmentStatement SPENT)
    (n : AllocationTranscriptSegmentStatement NEW) e xs ys :
  count_fits SPENT → count_fits NEW → exclusion_in ms e → pair_bound s n e →
  ats_side s = Spent → ats_side n = New →
  segment_of ms c s xs → segment_of ms c n ys → apart xs ys ∨ collision ms.
Proof.
  intros HS HN (w & Hsat & Hm) [_ Es _ _ _ En _ _] Hs Hn [_ _ _ Rs Ms] [_ _ _ Rn Mn].
  apply (exclusion_satisfied {| auc_public_inputs := exclusion_public_inputs e; auc_witness := w |}
    e HS HN eq_refl) in Hsat as (xs' & ys' & Ex & Ey & _ & [_ _ Hfr _ _ Es' En']).
  cbn [auc_witness] in Ex, Ey. unfold exclusion_messages in Hm. rewrite Ex, Ey in Hm.
  rewrite Es, Rs, Hs in Es'. rewrite En, Rn, Hn in En'. rewrite Hs in Ms. rewrite Hn in Mn.
  apply segment_root_binds in Es' as [->|];
    [|right; eapply collision_of; [| |eassumption]; [exact Ms|apply Hm; in_messages] ].
  apply segment_root_binds in En' as [->|];
    [|right; eapply collision_of; [| |eassumption]; [exact Mn|apply Hm; in_messages] ]. by left.
Qed.

(** What holds of each element or fails for one reason. *)
Lemma forall2_or {A B} (R P : A → B → Prop) (C : Prop) l k :
  Forall2 R l k → (∀ x y, x ∈ l → y ∈ k → R x y → P x y ∨ C) → Forall2 P l k ∨ C.
Proof.
  induction 1 as [|x y l k Hxy Hr IH]; intros Hp; [left; constructor|].
  destruct (Hp x y) as [Hx|]; [by left|by left|done| |by right].
  destruct IH as [Hk|]; [|left; by constructor|by right].
  intros x' y' Hx' Hy'. apply Hp; by right.
Qed.

Lemma elem_of_concat {A} (x : A) l : x ∈ concat l ↔ ∃ k, x ∈ k ∧ k ∈ l.
Proof. rewrite list_elem_of_In, in_concat. setoid_rewrite list_elem_of_In. naive_solver. Qed.

Lemma forall2_apart {A} (l : list A) yss xs :
  Forall2 (λ _ ys, apart xs ys) l yss → apart xs (concat yss).
Proof.
  intros Hf a b Ha Hb. apply elem_of_concat in Hb as (ys & Hb & Hys).
  apply list_elem_of_lookup in Hys as (k & Hk).
  destruct (Forall2_lookup_r _ _ _ _ _ Hf Hk) as (x & _ & Hap). by apply Hap.
Qed.

Lemma grid_apart ms {SPENT NEW} c total total' root root' (ss : list (AllocationTranscriptSegmentStatement SPENT))
    (ns : list (AllocationTranscriptSegmentStatement NEW)) es xss yss :
  count_fits SPENT → count_fits NEW → linked Spent c total 0 root ss → linked New c total' 0 root' ns →
  Forall (exclusion_bound ss ns c) es →
  (∀ s n, s ∈ ss → n ∈ ns → (ats_segment_index s, ats_segment_index n) ∈ exclusion_pair <$> es) →
  Forall (exclusion_in ms) es → Forall2 (segment_of ms c) ss xss → Forall2 (segment_of ms c) ns yss →
  apart (concat xss) (concat yss) ∨ collision ms.
Proof.
  intros HS HN Hls Hln Hb Hall Hp Hx Hy.
  assert (Hpair : ∀ s xs, s ∈ ss → segment_of ms c s xs → apart xs (concat yss) ∨ collision ms).
  { intros s xs Hs Hsx.
    destruct (forall2_or _ (λ _ ys, apart xs ys) (collision ms) _ _ Hy) as [Hf|]; [|left; by eapply forall2_apart|by right].
    intros n ys Hn _ Hny.
    destruct (proj1 (list_elem_of_fmap _ _ _) (Hall s n Hs Hn)) as (e & Ei & He).
    rewrite list.Forall_forall in Hb, Hp. destruct (Hb e He) as (_ & s' & n' & Fs & Fn & Hbound).
    injection Ei as Es En. rewrite <-Es in Fs. rewrite <-En in Fn.
    rewrite (linked_find _ _ _ _ _ _ Hls Hs) in Fs. rewrite (linked_find _ _ _ _ _ _ Hln Hn) in Fn.
    injection Fs as <-. injection Fn as <-.
    apply list_elem_of_lookup in Hs as (k & Hk), Hn as (j & Hj).
    destruct (linked_index _ _ _ _ _ _ _ _ Hls Hk) as (_ & _ & ? & _).
    destruct (linked_index _ _ _ _ _ _ _ _ Hln Hj) as (_ & _ & ? & _).
    eapply pair_apart; [exact HS|exact HN|by apply Hp|done..]. }
  destruct (forall2_or _ (λ _ xs, apart xs (concat yss)) (collision ms) _ _ Hx) as [Hf|]; [by eauto| |by right].
  left. intros a b (xs & Ha & Hxs)%elem_of_concat Hbb.
  apply list_elem_of_lookup in Hxs as (k & Hk).
  destruct (Forall2_lookup_r _ _ _ _ _ Hf Hk) as (s & _ & Hap). by apply Hap.
Qed.

(** * The audit *)

(** The allocations behind one side of a report. *)
Record audited (c : KaspaChainId) (size : nat) (side : RgkAllocationTranscriptSide) (total : u64)
    (root : Bytes32) xss : Prop := {
  au_segments : Forall (λ xs, length xs = size ∧ NoDup (anchor_key <$> xs)) xss;
  au_ok : Forall (allocation_ok c) (concat xss);
  au_count : uval total = Z.of_nat (length (concat xss));
  au_root : root = transcript_in_order side total xss
}.

Record bundle_proved {SPENT NEW} (b : AllocationAuditBundle SPENT NEW) : Prop := {
  bp_spent : Forall conservation_proved (aab_spent_conservation b);
  bp_new : Forall conservation_proved (aab_new_conservation b);
  bp_final : final_proved (aab_final_conservation b);
  bp_exclusions : Forall exclusion_proved (aab_exclusions b)
}.

(** A witness for every conservation segment, for the final equality and for every
    exclusion pair of a bundle. *)
Record BundleWitness (SPENT NEW : nat) := {
  bw_spent : list (AllocationConservationSegmentWitness SPENT);
  bw_new : list (AllocationConservationSegmentWitness NEW);
  bw_final : AllocationConservationFinalWitness;
  bw_exclusions : list (AllocationExclusionSegmentPairWitness SPENT NEW)
}.
Arguments bw_spent {SPENT NEW}.
Arguments bw_new {SPENT NEW}.
Arguments bw_final {SPENT NEW}.
Arguments bw_exclusions {SPENT NEW}.

Record bundle_witnessed {SPENT NEW} (b : AllocationAuditBundle SPENT NEW)
    (w : BundleWitness SPENT NEW) : Prop := {
  wd_spent : Forall2 conservation_witnessed (aab_spent_conservation b) (bw_spent w);
  wd_new : Forall2 conservation_witnessed (aab_new_conservation b) (bw_new w);
  wd_final : final_witnessed (aab_final_conservation b) (bw_final w);
  wd_exclusions : Forall2 exclusion_witnessed (aab_exclusions b) (bw_exclusions w)
}.

(** What the circuits of the bundle hash under the witnesses. *)
Definition witness_messages {SPENT NEW} (b : AllocationAuditBundle SPENT NEW)
    (w : BundleWitness SPENT NEW) : list (list byte) :=
  concat (zip_with conservation_messages (aab_spent_conservation b) (bw_spent w)) ++
  concat (zip_with conservation_messages (aab_new_conservation b) (bw_new w)) ++
  final_messages (aab_final_conservation b) (bw_final w) ++
  concat (zip_with exclusion_messages (aab_exclusions b) (bw_exclusions w)).

Lemma forall2_messages {A W} (R : A → W → Prop) (messages : A → W → list (list byte)) ms l ws :
  Forall2 R l ws → concat (zip_with messages l ws) ⊆ ms →
  Forall (λ s, ∃ w, R s w ∧ messages s w ⊆ ms) l.
Proof.
  induction 1 as [|s w l ws Hr _ IH]; [constructor|]. cbn [zip_with concat]. intros Hm. constructor.
  - exists w. split; [done|]. intros m Hin. apply Hm, elem_of_app. by left.
  - apply IH. intros m Hin. apply Hm, elem_of_app. by right.
Qed.

Lemma forall_witnesses {A W} (R : A → W → Prop) l : Forall (λ s, ∃ w, R s w) l → ∃ ws, Forall2 R l ws.
Proof.
  induction 1 as [|s l [w Hw] _ [ws IH] ]; [by exists []|]. exists (w :: ws). by constructor.
Qed.

Lemma bundle_witnessed_proved {SPENT NEW} (b : AllocationAuditBundle SPENT NEW) w :
  bundle_witnessed b w → bundle_proved b.
Proof.
  intros [Hs Hn Hf He]. constructor.
  - eapply Forall2_Forall_l; [exact Hs|]. apply Forall_true. intros v s Hv.
    by exists {| auc_public_inputs := conservation_public_inputs s; auc_witness := v |}.
  - eapply Forall2_Forall_l; [exact Hn|]. apply Forall_true. intros v s Hv.
    by exists {| auc_public_inputs := conservation_public_inputs s; auc_witness := v |}.
  - by exists {| auc_public_inputs := final_public_inputs (aab_final_conservation b); auc_witness := bw_final w |}.
  - eapply Forall2_Forall_l; [exact He|]. apply Forall_true. intros v s Hv.
    by exists {| auc_public_inputs := exclusion_public_inputs s; auc_witness := v |}.
Qed.

Lemma bundle_proved_witnessed {SPENT NEW} (b : AllocationAuditBundle SPENT NEW) :
  bundle_proved b → ∃ w, bundle_witnessed b w.
Proof.
  intros [Ps Pn ([pf wf] & Ef & Pf) Pe]. cbn in Ef. subst pf.
  destruct (forall_witnesses conservation_witnessed (aab_spent_conservation b)) as [ws Hs].
  { eapply Forall_impl; [exact Ps|]. intros s ([p w] & E & Hc). cbn in E. subst p. by exists w. }
  destruct (forall_witnesses conservation_witnessed (aab_new_conservation b)) as [wn Hn].
  { eapply Forall_impl; [exact Pn|]. intros s ([p w] & E & Hc). cbn in E. subst p. by exists w. }
  destruct (forall_witnesses exclusion_witnessed (aab_exclusions b)) as [we He].
  { eapply Forall_impl; [exact Pe|]. intros s ([p w] & E & Hc). cbn in E. subst p. by exists w. }
  by exists {| bw_spent := ws; bw_new := wn; bw_final := wf; bw_exclusions := we |}.
Qed.

Lemma chain_audited ms {ALLOCS} label side (l : list (AllocationTranscriptSegmentStatement ALLOCS)) t xss :
  count_fits ALLOCS → count_fits (length l) →
  verify_allocation_transcript_chain label side l = Ok t →
  Forall2 (segment_of ms (tca_chain_id t)) l xss →
  audited (tca_chain_id t) ALLOCS side (tca_total_count t) (tca_final_root t) xss.
Proof.
  intros HA HL (_ & _ & Ht & Hl & Hr)%transcript_chain_ok Hf. constructor.
  - apply list.Forall_forall. intros xs Hx. apply list_elem_of_lookup in Hx as (k & Hk).
    destruct (Forall2_lookup_r _ _ _ _ _ Hf Hk) as (s & _ & []). done.
  - apply list.Forall_forall. intros a (xs & Ha & Hx)%elem_of_concat.
    apply list_elem_of_lookup in Hx as (k & Hk).
    destruct (Forall2_lookup_r _ _ _ _ _ Hf Hk) as (s & _ & [_ Hok _ _ _]).
    rewrite list.Forall_forall in Hok. by apply Hok.
  - rewrite checked_mul_some in Ht. unfold count_fits in HA, HL. rewrite !uval_usize_of in Ht by done.
    rewrite Ht. clear Ht Hl Hr HL HA. induction Hf as [|s xs l xss [Hn _ _ _ _] Hf IH]; [done|].
    cbn [length concat]. rewrite length_app, Hn. lia.
  - rewrite Hr. by apply (linked_root ms side (tca_chain_id t) (tca_total_count t) 0).
Qed.

(** The allocations an audit report speaks of. *)
Definition audit_holds (SPENT NEW : nat) (r : AllocationAuditBundleReport) : Prop :=
  ∃ xss yss,
    audited (aar_chain_id r) SPENT Spent (aar_spent_total_count r) (aar_spent_final_root r) xss ∧
    audited (aar_chain_id r) NEW New (aar_new_total_count r) (aar_new_final_root r) yss ∧
    supply (concat xss) = supply (concat yss) ∧ (0 < supply (concat xss) < 2 ^ 64)%Z ∧
    apart (concat xss) (concat yss).

(** Fact: What an audit certifies: when [verify_allocation_audit_bundle] accepts a
    bundle and there is a satisfied circuit over the public inputs of each
    conservation segment, of the final equality and of each exclusion pair, there
    are allocations on the reported chain behind the two reported roots, as many
    as the reported counts, whose amounts sum to one nonzero total on both sides,
    and no new allocation has the anchor of a spent one.  (Otherwise two of the
    messages those circuits hash under their witnesses collide.)  The transcript
    proofs are not needed. *)
Theorem audit_conserves SPENT NEW (b : AllocationAuditBundle SPENT NEW) r w :
  count_fits SPENT → count_fits NEW →
  count_fits (length (aab_spent_transcripts b)) → count_fits (length (aab_new_transcripts b)) →
  verify_allocation_audit_bundle b = Ok r → bundle_witnessed b w →
  audit_holds SPENT NEW r ∨ collision (witness_messages b w).
Proof.
  intros HS HN HLs HLn Hv [Ps Pn Pf Pe]. set (ms := witness_messages b w).
  assert (Hms : concat (zip_with conservation_messages (aab_spent_conservation b) (bw_spent w)) ⊆ ms ∧
    concat (zip_with conservation_messages (aab_new_conservation b) (bw_new w)) ⊆ ms ∧
    final_messages (aab_final_conservation b) (bw_final w) ⊆ ms ∧
    concat (zip_with exclusion_messages (aab_exclusions b) (bw_exclusions w)) ⊆ ms)
    by (unfold ms, witness_messages; split_and!; within_messages).
  destruct Hms as (Ms & Mn & Mf & Me). clearbody ms.
  apply (forall2_messages _ conservation_messages ms) in Ps, Pn; [|done..].
  apply (forall2_messages _ exclusion_messages ms) in Pe; [|done].
  unfold verify_allocation_audit_bundle in Hv. cbv zeta in Hv.
  apply bind_unit_ok in Hv as [_ Hv]. apply bind_ok in Hv as (ts & Hs & Hv).
  apply bind_ok in Hv as (tn & Hn & Hv).
  rewrite !bind_unit_ok, !fail_if_neq_ok in Hv. destruct Hv as (Hc & Cs & Cn & Vs & Vn & Vg & [= <-]).
  unfold audit_holds.
  cbn [aar_chain_id aar_spent_total_count aar_spent_final_root aar_new_total_count aar_new_final_root].
  pose proof Hs as (_ & Nes & _ & Ls & _)%transcript_chain_ok.
  pose proof Hn as (_ & Nen & _ & Ln & _)%transcript_chain_ok.
  apply conservation_chain_ok in Vs as (Es & _ & _ & Tls & Fs), Vn as (En & _ & _ & Tln & Fn).
  apply grid_ok in Vg as (_ & Gb & _ & Gall). rewrite <-Hc in Ln.
  assert (Hne : aab_spent_conservation b ≠ [] ∧ aab_new_conservation b ≠ []).
  { split; [intros E; by rewrite E in Es|intros E; by rewrite E in En]. }
  rewrite <-Es in Ls. rewrite <-En in Ln. destruct Hne as [Hnes Hnen].
  destruct (chain_totals ms _ _ _ _ _ HS Hnes Ls Tls Ps) as [(xss & v & bl & Hx & Tx & Mx & Sx)|]; [|by right].
  destruct (chain_totals ms _ _ _ _ _ HN Hnen Ln Tln Pn) as [(yss & v' & bl' & Hy & Ty & My & Sy)|]; [|by right].
  rewrite Es in Ls, Hx. rewrite En in Ln, Hy.
  apply (final_satisfied {| auc_public_inputs := final_public_inputs (aab_final_conservation b);
    auc_witness := bw_final w |} _ eq_refl) in Pf as [_ [Htot _ _ Os On] ]. cbn [auc_witness] in Htot, Os, On.
  unfold final_messages in Mf. rewrite Cs, Cn in Mf.
  rewrite <-Fs, Tx, Cs in Os. rewrite <-Fn, Ty, Cn in On.
  apply total_commitment_binds in Os as [->|];
    [|right; eapply collision_of; [| |eassumption]; [exact Mx|apply Mf; in_messages] ].
  apply total_commitment_binds in On as [->|];
    [|right; eapply collision_of; [| |eassumption]; [exact My|apply Mf; in_messages] ].
  destruct (grid_apart ms _ _ _ _ _ _ _ _ _ _ HS HN Ls Ln Gb Gall Pe Hx Hy) as [Ha|]; [left|by right].
  exists xss, yss. split_and!; [by eapply chain_audited| |congruence| | |done].
  - rewrite Hc. eapply chain_audited; [done|done|exact Hn|by rewrite <-Hc].
  - rewrite <-Sx. pose proof (uint_range (afw_total (bw_final w))). lia.
  - rewrite <-Sx. apply uint_range.
Qed.
End proved.
