(* ===== verification/ZkAuditComplete.v ===== *)
(** Completeness of the segmented audit: what the native builders of
    statements and witnesses make of allocations, and that transcripts of equal
    totals have a bundle that verifies and is proved. *)

From stdpp Require Import base list strings vector sets.
From Stdlib Require Import ZArith Lia Strings.Byte.
From S2P Require Import Prelude.
From S2P Require Import Bytes.
From S2P Require Import Encoding.
From S2P Require Import Types.
From S2P Require Import Commit.
From S2P Require Import AssetTypes.
From S2P Require Import AssetRules.
From S2P Require Import Asset.
From S2P Require Import AssetCorrect.
From S2P Require Import AssetStrategy.
From S2P Require Import Lane.
From S2P Require Import Zk.
From S2P Require Import ZkCorrect.
From S2P Require Import ZkGadgets.
From S2P Require Import ZkCircuits.
From S2P Require Import ZkCircuitsCorrect.
From S2P Require Import ZkAllocation.
From S2P Require Import ZkTransition.
From S2P Require Import ZkAudit.
From S2P Require Import ZkAuditCorrect.
From S2P Require Import ZkAuditBundle.

Open Scope list_scope.

(** * The builders' pieces *)

Lemma amount_sum_ok what xs v : checked_amount_sum what xs = Ok v ↔ uval v = supply xs.
Proof.
  unfold checked_amount_sum.
  assert (Hg : ∀ z : u64, try_fold (λ sum a, ok_or (checked_add sum (al_amount a)) what) z xs = Ok v ↔
                  (uval v = z + supply xs)%Z); [|by rewrite Hg].
  induction xs as [|a xs IH]; intros z; cbn [try_fold].
  { change (supply []) with 0%Z. rewrite Z.add_0_r.
    split; [by intros [= ->]|intros E; f_equal; by apply (inj uval)]. }
  rewrite bind_ok, total_cons. setoid_rewrite ok_or_ok. setoid_rewrite checked_add_some. split.
  - intros (s & Es & Hs). apply IH in Hs. lia.
  - intros E. pose proof (total_nonneg al_amount xs). pose proof (uint_range v). pose proof (uint_range z).
    pose proof (uint_range (al_amount a)). exists (wrap 64 (z + al_amount a)).
    assert (Es : uval (wrap 64 (z + al_amount a)) = (z + al_amount a)%Z) by (apply uval_wrap_small; lia).
    split; [done|]. apply IH. rewrite Es. lia.
Qed.

Lemma encoded_amount a : wrap 64 (le_val (slice (encode_native_allocation a) 117 125)) = al_amount a.
Proof.
  alloc_slices a. unfold u64_le. rewrite le_val_le_bytes. apply (inj uval).
  pose proof (uint_range (al_amount a)). rewrite Z.mod_small by done. by apply uval_wrap_small.
Qed.

Lemma opt_sum_ok (g : u64 → list byte → option u64) xs v :
  (∀ z a, g z (encode_native_allocation a) = checked_add z (al_amount a)) → uval v = supply xs →
  opt_fold g (wrap 64 0) (encode_native_allocation <$> xs) = Some v.
Proof.
  intros Hg. assert (Hz : ∀ z : u64, (uval v = z + supply xs)%Z →
    opt_fold g z (encode_native_allocation <$> xs) = Some v); [|by apply (Hz (wrap 64 0))].
  induction xs as [|a xs IH]; intros z E; cbn [opt_fold fmap list_fmap].
  { change (supply []) with 0%Z in E. rewrite Z.add_0_r in E. by apply (inj uval) in E as ->. }
  rewrite total_cons in E. rewrite Hg.
  pose proof (total_nonneg al_amount xs). pose proof (uint_range v). pose proof (uint_range z).
  pose proof (uint_range (al_amount a)).
  assert (Es : checked_add z (al_amount a) = Some (wrap 64 (z + al_amount a))).
  { apply checked_add_some, uval_wrap_small. lia. }
  rewrite Es. cbn [mbind option_bind]. apply IH. rewrite uval_wrap_small; lia.
Qed.

Lemma allocation_witness_amount_ok xs v : uval v = supply xs →
  allocation_witness_amount (encode_native_allocation <$> xs) = Some v.
Proof.
  apply opt_sum_ok. intros z a. unfold get_slice. rewrite decide_True by (rewrite alloc_length; unfold ALLOCATION_WITNESS_LEN; lia).
  cbn [mbind option_bind]. by rewrite encoded_amount.
Qed.

Lemma witness_amount_ok xs v : uval v = supply xs →
  witness_amount (encode_native_allocation <$> xs) = Some v.
Proof. apply opt_sum_ok. intros z a. by rewrite encoded_amount. Qed.

Lemma fun_to_vec_nth {A} n (l : list A) d : length l = n →
  vec_to_list (fun_to_vec (λ i : fin n, nth i l d)) = l.
Proof.
  intros <-. induction l as [|x l IH]; [done|]. cbn [length fun_to_vec vec_to_list]. f_equal. exact IH.
Qed.

Lemma one_chain_not_mixed c xs : Forall (allocation_ok c) xs → mixed_chains c xs = false.
Proof.
  unfold mixed_chains. induction 1 as [|a xs [_ Hc _ _ _ _ _] _ IH]; [done|].
  cbn [existsb]. by rewrite IH, bool_decide_eq_false_2 by (by intros Hn).
Qed.

Lemma first_chain_ok c xs : Forall (allocation_ok c) xs → xs ≠ [] → first_chain xs = c.
Proof. by intros [|a l [] _]. Qed.

Section complete.
Context `{GadgetLaws}.
Implicit Types (xs ys : list RgkAllocation) (xss yss : list (list RgkAllocation)).

(** One segment's allocations, as the builders are given them. *)
Record segment_input (c : KaspaChainId) (size : nat) xs : Prop := {
  si_length : length xs = size;
  si_nonempty : xs ≠ [];
  si_ok : Forall (allocation_ok c) xs;
  si_keys : NoDup (anchor_key <$> xs);
  si_supply : (supply xs < 2 ^ 64)%Z
}.

Definition amount_of xs : u64 := wrap 64 (supply xs).

Lemma amount_of_supply c size xs : segment_input c size xs →
  uval (amount_of xs) = supply xs ∧ uval (amount_of xs) ≠ 0%Z.
Proof.
  intros []. pose proof (ok_supply_positive _ _ si_ok0 si_nonempty0).
  assert (E : uval (amount_of xs) = supply xs) by (apply uval_wrap_small; lia). split; [done|lia].
Qed.

(** The canonical order of a segment. *)
Definition ordered xs : list RgkAllocation := sort_by_key allocation_key xs.

Lemma ordered_supply xs : supply (ordered xs) = supply xs.
Proof. apply total_perm, sort_by_key_perm. Qed.

Lemma ordered_ok (P : RgkAllocation → Prop) xs : Forall P xs → Forall P (ordered xs).
Proof. unfold ordered. by rewrite sort_by_key_perm. Qed.

Lemma ordered_holds c size xs (blinding : Bytes32) : segment_input c size xs → blinding ≠ zero32 →
  segment_holds c (ordered xs) (amount_of xs) blinding.
Proof.
  intros Hi Hb. pose proof (amount_of_supply _ _ _ Hi) as [E _]. destruct Hi. constructor.
  - intros Hn. apply si_nonempty0, Permutation_nil_r. rewrite <-Hn. symmetry. apply sort_by_key_perm.
  - by apply ordered_ok.
  - unfold ordered. by rewrite (fmap_Permutation _ _ _ (sort_by_key_perm allocation_key xs)).
  - by rewrite ordered_supply.
  - done.
Qed.

Lemma root_ordered (p : Bytes32) s i t xs :
  segment_root p s i t (ordered xs) = extend_allocation_transcript_root p s i t xs.
Proof.
  unfold segment_root, extend_allocation_transcript_root, allocation_transcript_segment_root_from_witness.
  cbv zeta. unfold len_u64. by rewrite length_fmap.
Qed.

Definition built_transcript ALLOCS (root : Bytes32) side (i total : u64) c xs (blinding : Bytes32)
  : AllocationTranscriptSegmentStatement ALLOCS := {|
  ats_previous_root := root;
  ats_next_root := extend_allocation_transcript_root root side i total xs;
  ats_chain_id := c; ats_side := side; ats_segment_index := i; ats_total_count := total;
  ats_segment_amount_commitment :=
    allocation_transcript_amount_commitment side i total (amount_of xs) blinding |}.

Lemma transcript_built ALLOCS root side (i total : u64) c xs blinding :
  segment_input c ALLOCS xs → (usize_of ALLOCS <= total)%Z →
  transcript_from_allocations ALLOCS root side i total xs blinding =
    Ok (built_transcript ALLOCS root side i total c xs blinding).
Proof.
  intros Hi Ht. pose proof (amount_of_supply _ _ _ Hi) as [E E0]. destruct Hi.
  unfold transcript_from_allocations. cbv zeta. rewrite (first_chain_ok c), one_chain_not_mixed by done.
  rewrite !bind_unit_ok, !fail_if_ok, bind_ok.
  split_and!; [by intros ->; destruct xs|by intros Hn|lia|done|].
  exists (amount_of xs). rewrite amount_sum_ok, bind_unit_ok, fail_if_ok. by split_and!.
Qed.

Definition built_witness ALLOCS xs (blinding : Bytes32) : AllocationTranscriptSegmentWitness ALLOCS := {|
  atw_allocations := fun_to_vec (λ i : fin ALLOCS, nth i (encode_native_allocation <$> ordered xs) []);
  atw_segment_amount := amount_of xs; atw_amount_blinding := blinding |}.

Lemma built_allocations ALLOCS c xs blinding : segment_input c ALLOCS xs →
  vec_to_list (atw_allocations (built_witness ALLOCS xs blinding)) =
    encode_native_allocation <$> ordered xs.
Proof.
  intros []. apply fun_to_vec_nth. rewrite length_fmap. unfold ordered. by rewrite sort_by_key_length.
Qed.

Lemma witness_built ALLOCS c xs blinding : segment_input c ALLOCS xs →
  transcript_witness_from_allocations ALLOCS xs blinding = Ok (built_witness ALLOCS xs blinding).
Proof.
  intros Hi. pose proof (amount_of_supply _ _ _ Hi) as [E E0].
  pose proof (built_allocations _ _ _ blinding Hi) as Ew. destruct Hi.
  unfold transcript_witness_from_allocations, transcript_witness_new. cbv zeta.
  rewrite !bind_unit_ok, fail_if_neq_ok, bind_ok. split; [done|].
  exists (amount_of xs). rewrite amount_sum_ok, !bind_unit_ok, !fail_if_ok.
  split_and!; [done|by intros ->; destruct xs| |done|done].
  cbn [built_witness atw_allocations] in Ew. fold (ordered xs). rewrite Ew.
  apply (try_foldi_check (λ _ x, length x = ALLOCATION_WITNESS_LEN)); [intros; apply fail_if_neq_ok|].
  intros j x Hx. pose proof (encoded_lengths (ordered xs)) as Hl. rewrite list.Forall_forall in Hl.
  apply Hl. by eapply list_elem_of_lookup_2.
Qed.

(** The checks of [matches_witness] on encoded allocations. *)
Lemma encoded_same_chain c xs : Forall (allocation_ok c) xs →
  existsb (λ allocation, negb (Byte.eqb (nth 0 allocation x00) (chain_as_u8 c)))
    (encode_native_allocation <$> xs) = false.
Proof.
  induction 1 as [|a xs [_ Hc _ _ _ _ _] _ IH]; [done|]. cbn [fmap list_fmap existsb]. rewrite IH.
  change (nth 0 (encode_native_allocation a) x00) with (chain_as_u8 (an_chain (al_anchor a))).
  rewrite Hc. by destruct c.
Qed.

Lemma encoded_lens xs : some_len_differs (encode_native_allocation <$> xs) = false.
Proof. apply not_true_iff_false, some_len_differs_false, encoded_lengths. Qed.

Lemma transcript_matches ALLOCS root side (i total : u64) c xs blinding :
  segment_input c ALLOCS xs →
  transcript_matches_witness (built_transcript ALLOCS root side i total c xs blinding)
    (built_witness ALLOCS xs blinding) = true.
Proof.
  intros Hi. pose proof (amount_of_supply _ _ _ Hi) as [E _].
  pose proof (built_allocations _ _ _ blinding Hi) as Ew. destruct Hi.
  unfold transcript_matches_witness. rewrite decide_False by (by intros ->; destruct xs).
  rewrite Ew. rewrite encoded_lens, encoded_same_chain by by apply ordered_ok.
  rewrite (witness_amount_ok _ (amount_of xs)) by by rewrite ordered_supply.
  cbn [built_witness built_transcript atw_segment_amount atw_amount_blinding ats_segment_amount_commitment
    ats_side ats_segment_index ats_total_count ats_next_root ats_previous_root].
  rewrite !bool_decide_eq_true_2; [done| |done|done]. symmetry. apply root_ordered.
Qed.

Lemma built_holds ALLOCS root side (i total : u64) c xs blinding :
  segment_input c ALLOCS xs → blinding ≠ zero32 →
  transcript_holds (built_transcript ALLOCS root side i total c xs blinding) (ordered xs)
    (amount_of xs) blinding.
Proof.
  intros Hi Hb. constructor; [by eapply ordered_holds|done|]. symmetry. apply root_ordered.
Qed.

(** * Running totals *)

Definition built_conservation ALLOCS (root : Bytes32) side (i total : u64) c (v : u64) xs (blinding : Bytes32)
  : AllocationConservationSegmentStatement ALLOCS := {|
  acs_transcript := built_transcript ALLOCS root side i total c xs blinding;
  acs_previous_total_commitment := allocation_conservation_total_commitment side total v blinding;
  acs_next_total_commitment :=
    allocation_conservation_total_commitment side total (wrap 64 (v + supply xs)) blinding |}.

Definition built_conservation_witness ALLOCS (v : u64) xs (blinding : Bytes32)
  : AllocationConservationSegmentWitness ALLOCS := {|
  acw_transcript := built_witness ALLOCS xs blinding;
  acw_previous_total := v; acw_next_total := wrap 64 (v + supply xs);
  acw_previous_total_blinding := blinding; acw_next_total_blinding := blinding |}.

Lemma next_total_ok (v : u64) xs c size : segment_input c size xs → (v + supply xs < 2 ^ 64)%Z →
  checked_add v (amount_of xs) = Some (wrap 64 (v + supply xs)).
Proof.
  intros Hi Hv. destruct (amount_of_supply _ _ _ Hi) as [E _]. pose proof (total_nonneg al_amount xs).
  pose proof (uint_range v). apply checked_add_some. rewrite E. apply uval_wrap_small. lia.
Qed.

(** The native builders make this statement, this witness and a circuit of
    them, which is satisfied when the statement's digests are none of them
    zero. *)
Lemma conservation_complete ALLOCS root side (i total : u64) c (v : u64) xs blinding :
  let s := built_conservation ALLOCS root side i total c v xs blinding in
  segment_input c ALLOCS xs → count_fits ALLOCS → (usize_of ALLOCS <= total)%Z →
  (uval i = 0%Z → uval v = 0%Z) → (v + supply xs < 2 ^ 64)%Z → blinding ≠ zero32 →
  conservation_from_allocations ALLOCS root side i total v xs blinding blinding blinding = Ok s ∧
  ∃ w circuit, conservation_witness_from_allocations ALLOCS v xs blinding blinding blinding = Ok w ∧
    conservation_circuit s w = Ok circuit ∧
    (conservation_layout_ok s → is_satisfied (conservation_generate_constraints circuit) = true).
Proof.
  intros s Hi HA Ht Hfirst Hv Hb. destruct (amount_of_supply _ _ _ Hi) as [E E0].
  pose proof (next_total_ok v xs c ALLOCS Hi Hv) as En.
  assert (Hnb : ¬ (blinding = zero32 ∨ blinding = zero32)) by tauto.
  assert (Hn0 : ¬ (uval i = 0%Z ∧ uval v ≠ 0%Z)) by tauto.
  assert (Hsum : allocation_amount_sum xs = Ok (amount_of xs)) by by apply amount_sum_ok.
  pose proof (built_allocations _ _ _ blinding Hi) as Ew.
  assert (Hsat : (conservation_layout_ok s →
    is_satisfied (conservation_generate_constraints {| auc_public_inputs := conservation_public_inputs s;
      auc_witness := built_conservation_witness ALLOCS v xs blinding |}) = true)).
  { intros Hl. apply (conservation_satisfied _ s HA); [done|]. exists (ordered xs). split; [done|].
    split; [done|]. constructor; try done; [by apply built_holds|].
    change (v + amount_of xs = uval (wrap 64 (v + supply xs)))%Z.
    pose proof (uint_range v). pose proof (total_nonneg al_amount xs).
    rewrite uval_wrap_small, E by lia. done. }
  split.
  { unfold conservation_from_allocations. rewrite !bind_unit_ok, !fail_if_ok, bind_ok.
    split; [done|]. split; [done|]. eexists. split; [by apply transcript_built|].
    rewrite bind_ok. exists (amount_of xs). split; [done|]. rewrite bind_ok.
    exists (wrap 64 (v + supply xs)). by rewrite En. }
  exists (built_conservation_witness ALLOCS v xs blinding). eexists. split; [|split; [|exact Hsat] ].
  { unfold conservation_witness_from_allocations. rewrite bind_unit_ok, fail_if_ok, bind_ok.
    split; [done|]. exists (amount_of xs). split; [done|]. rewrite bind_ok.
    exists (wrap 64 (v + supply xs)). rewrite En, bind_ok. split; [done|].
    exists (built_witness ALLOCS xs blinding). split; [by eapply witness_built|done]. }
  unfold conservation_circuit. rewrite bind_unit_ok, fail_if_ok. split; [|done]. apply not_false_iff_true.
  unfold conservation_matches_witness. cbn [built_conservation_witness acw_previous_total_blinding
    acw_next_total_blinding acw_previous_total acw_next_total acw_transcript].
  rewrite decide_False by done. rewrite decide_False by done. unfold s. cbn [built_conservation acs_transcript].
  rewrite transcript_matches by done. cbn [negb]. rewrite Ew.
  rewrite (allocation_witness_amount_ok _ (amount_of xs)) by by rewrite ordered_supply.
  rewrite En, !bool_decide_eq_true_2; done.
Qed.

(** * Exclusions and the final equality *)

Definition built_exclusion SPENT NEW (spent_root new_root : Bytes32) (i j spent_total new_total : u64) c xs ys
    (blinding : Bytes32) : AllocationExclusionSegmentPairStatement SPENT NEW := {|
  aes_spent_previous_root := spent_root;
  aes_spent_next_root := extend_allocation_transcript_root spent_root Spent i spent_total xs;
  aes_new_previous_root := new_root;
  aes_new_next_root := extend_allocation_transcript_root new_root New j new_total ys;
  aes_chain_id := c; aes_spent_segment_index := i; aes_new_segment_index := j;
  aes_spent_total_count := spent_total; aes_new_total_count := new_total;
  aes_spent_amount_commitment :=
    allocation_transcript_amount_commitment Spent i spent_total (amount_of xs) blinding;
  aes_new_amount_commitment :=
    allocation_transcript_amount_commitment New j new_total (amount_of ys) blinding |}.

Lemma encoded_all_same_chain c xs : Forall (allocation_ok c) xs →
  existsb (λ allocation, bool_decide (length allocation ≠ ALLOCATION_WITNESS_LEN) ||
    negb (Byte.eqb (nth 0 allocation x00) (chain_as_u8 c))) (encode_native_allocation <$> xs) = false.
Proof.
  intros Hf. pose proof (encoded_same_chain c xs Hf) as E. revert E. clear Hf.
  induction xs as [|a xs IH]; [done|]. cbn [fmap list_fmap existsb]. rewrite !orb_false_iff.
  intros [Ea Exs]. split_and!; [|done|by apply IH].
  apply bool_decide_eq_false_2. intros Hn. apply Hn, alloc_length.
Qed.

Lemma encoded_apart xs ys : apart xs ys →
  existsb (λ spent, existsb (λ new, bool_decide (slice spent 1 41 = slice new 1 41))
    (encode_native_allocation <$> ys)) (encode_native_allocation <$> xs) = false.
Proof.
  intros Ha. apply not_true_iff_false. rewrite existsb_exists.
  intros (x & (a & -> & Hx)%list_elem_of_In%list_elem_of_fmap & Hy).
  apply existsb_exists in Hy as (y & (b & -> & Hy)%list_elem_of_In%list_elem_of_fmap & E).
  rewrite bool_decide_eq_true, anchor_key_eq in E. by apply (Ha a b).
Qed.

Lemma ordered_apart xs ys : apart xs ys → apart (ordered xs) (ordered ys).
Proof.
  intros Ha a b. unfold ordered. rewrite !(sort_by_key_perm allocation_key). apply Ha.
Qed.

Lemma exclusion_complete SPENT NEW spent_root new_root (i j spent_total new_total : u64) c xs ys blinding :
  let s := built_exclusion SPENT NEW spent_root new_root i j spent_total new_total c xs ys blinding in
  segment_input c SPENT xs → segment_input c NEW ys → count_fits SPENT → count_fits NEW →
  (usize_of SPENT <= spent_total)%Z → (usize_of NEW <= new_total)%Z → apart xs ys → blinding ≠ zero32 →
  exclusion_from_allocations SPENT NEW spent_root new_root i j spent_total new_total xs ys
    blinding blinding = Ok s ∧
  ∃ w circuit, exclusion_witness_from_allocations SPENT NEW xs ys blinding blinding = Ok w ∧
    exclusion_circuit s w = Ok circuit ∧
    (exclusion_layout_ok s → is_satisfied (exclusion_generate_constraints circuit) = true).
Proof.
  intros s Hx Hy HS HN Hts Htn Hap Hb.
  destruct (amount_of_supply _ _ _ Hx) as [Ex Ex0], (amount_of_supply _ _ _ Hy) as [Ey Ey0].
  pose proof (built_allocations _ _ _ blinding Hx) as Ewx. pose proof (built_allocations _ _ _ blinding Hy) as Ewy.
  assert (Hx0 : SPENT ≠ 0%nat) by (destruct Hx; intros ->; by destruct xs).
  assert (Hy0 : NEW ≠ 0%nat) by (destruct Hy; intros ->; by destruct ys).
  split.
  { unfold exclusion_from_allocations. cbv zeta.
    rewrite (first_chain_ok c), one_chain_not_mixed
      by (destruct Hx, Hy; try done; by apply list.Forall_app).
    rewrite !bind_unit_ok, !fail_if_ok, bind_ok. pose proof (si_length _ _ _ Hx). pose proof (si_length _ _ _ Hy).
    split_and!; [tauto|tauto|lia|done|]. exists (amount_of xs). split; [by apply amount_sum_ok|].
    rewrite bind_ok. exists (amount_of ys). split; [by apply amount_sum_ok|].
    rewrite bind_unit_ok, fail_if_ok. split; [tauto|done]. }
  exists {| aew_spent := built_witness SPENT xs blinding; aew_new := built_witness NEW ys blinding |}.
  eexists. split_and!.
  - unfold exclusion_witness_from_allocations. rewrite bind_ok. eexists. split; [by eapply witness_built|].
    rewrite bind_ok. eexists. split; [by eapply witness_built|done].
  - unfold exclusion_circuit. rewrite bind_unit_ok, fail_if_ok. split; [|done]. apply not_false_iff_true.
    unfold exclusion_matches_witness. cbv zeta. cbn [aew_spent aew_new]. rewrite Ewx, Ewy.
    rewrite decide_False by tauto. rewrite <-fmap_app, encoded_all_same_chain, encoded_apart;
      [|by apply ordered_apart|apply list.Forall_app; destruct Hx, Hy; by split; apply ordered_ok].
    rewrite (allocation_witness_amount_ok _ (amount_of xs)), (allocation_witness_amount_ok _ (amount_of ys))
      by by rewrite ordered_supply.
    rewrite !bool_decide_eq_true_2; try done; symmetry; apply root_ordered.
  - intros Hl. apply (exclusion_satisfied _ s HS HN); [done|]. exists (ordered xs), (ordered ys).
    split_and!; [done..|]. constructor; try (symmetry; apply root_ordered); try done;
      [by eapply ordered_holds..|by apply ordered_apart].
Qed.

Lemma final_complete (spent_total new_total v : u64) blinding :
  uval spent_total ≠ 0%Z → uval new_total ≠ 0%Z → uval v ≠ 0%Z → blinding ≠ zero32 →
  ∃ s w circuit, final_from_total spent_total new_total v blinding blinding = Ok s ∧
    final_witness_new v blinding blinding = Ok w ∧ final_circuit s w = Ok circuit ∧
    (final_layout_ok s → is_satisfied (final_generate_constraints circuit) = true).
Proof.
  intros Hs Hn Hv Hb. do 3 eexists. split_and!.
  - unfold final_from_total. rewrite !bind_unit_ok, !fail_if_ok. split_and!; [tauto|tauto|tauto|done].
  - unfold final_witness_new. rewrite !bind_unit_ok, !fail_if_ok. split_and!; [tauto|tauto|done].
  - unfold final_circuit. rewrite bind_unit_ok, fail_if_ok. split; [|done]. apply not_false_iff_true.
    unfold final_matches_witness. by rewrite !bool_decide_eq_true_2.
  - intros Hl. eapply final_satisfied; [reflexivity|]. split; [exact Hl|]. by constructor.
Qed.

Lemma final_nonzero spent_total new_total v b b' s :
  final_from_total spent_total new_total v b b' = Ok s →
  uval spent_total ≠ 0%Z → uval new_total ≠ 0%Z →
  final_layout_ok s ∨
  zero_digest [total_message Spent spent_total v b; total_message New new_total v b'].
Proof.
  unfold final_from_total. rewrite !bind_unit_ok. intros (_ & _ & _ & [= <-]) Hs Hn.
  set (ms := [total_message Spent spent_total v b; total_message New new_total v b']).
  assert (allocation_conservation_total_commitment Spent spent_total v b ≠ zero32 ∨ zero_digest ms) as [|]
    by (unfold ms; nonzero_digest); [|by right].
  assert (allocation_conservation_total_commitment New new_total v b' ≠ zero32 ∨ zero_digest ms) as [|]
    by (unfold ms; nonzero_digest); [|by right].
  left. by split_and!.
Qed.

(** * Chains *)

(** The blinding of every commitment below. *)
Definition some_blinding : Bytes32 := fill 32 x01.

(** The conservation statements of the segments of one side, numbered from
    [i], from a root and a running total. *)
Fixpoint build_chain (ALLOCS : nat) side (c : KaspaChainId) (total : u64) (i : nat) (root : Bytes32) (v : Z) xss
  : list (AllocationConservationSegmentStatement ALLOCS) :=
  match xss with
  | [] => []
  | xs :: xss' =>
      let idx := wrap 64 (Z.of_nat i) in
      built_conservation ALLOCS root side idx total c (wrap 64 v) xs some_blinding ::
      build_chain ALLOCS side c total (S i) (extend_allocation_transcript_root root side idx total xs)
        (v + supply xs) xss'
  end.

Lemma build_linked ALLOCS side c total i root v xss :
  (Z.of_nat i + Z.of_nat (length xss) <= 2 ^ 64)%Z →
  linked side c total i root (acs_transcript <$> build_chain ALLOCS side c total i root v xss).
Proof.
  revert i root v. induction xss as [|xs xss IH]; intros i root v Hi; [done|].
  cbn [length] in Hi. cbn [build_chain fmap list_fmap linked]. split_and!; try done; [lia|].
  apply IH. lia.
Qed.

Lemma build_length ALLOCS side c total i root v xss :
  length (build_chain ALLOCS side c total i root v xss) = length xss.
Proof.
  revert i root v. induction xss as [|xs xss IH]; intros; [done|]. cbn [build_chain length]. by rewrite IH.
Qed.

Lemma build_root ALLOCS side c total i root v xss :
  last_root root (acs_transcript <$> build_chain ALLOCS side c total i root v xss) =
    foldl (λ r s, extend_allocation_transcript_root r side s.1 total s.2) root
      (imap (λ j x, (wrap 64 (Z.of_nat (i + j)), x)) xss).
Proof.
  revert i root v. induction xss as [|xs xss IH]; intros i root v; [done|].
  cbn [build_chain fmap list_fmap last_root foldl imap fst snd].
  etransitivity; [apply IH|]. rewrite Nat.add_0_r. cbn. f_equal.
  apply imap_ext. intros j x _. cbn. by rewrite Nat.add_succ_r.
Qed.

Lemma build_totals ALLOCS side c total i root v xss :
  (0 <= v)%Z → (v + supply (concat xss) < 2 ^ 64)%Z →
  let l := build_chain ALLOCS side c total i root v xss in
  let start := allocation_conservation_total_commitment side total (wrap 64 v) some_blinding in
  totals_linked start l ∧
  last_total start l =
    allocation_conservation_total_commitment side total (wrap 64 (v + supply (concat xss))) some_blinding.
Proof.
  revert i root v. induction xss as [|xs xss IH]; intros i root v Hv Hs.
  { cbn [build_chain totals_linked last_total foldl concat]. split; [done|].
    change (supply []) with 0%Z. by rewrite Z.add_0_r. }
  cbn [concat] in Hs |- *. rewrite total_app in Hs |- *.
  pose proof (total_nonneg al_amount xs). pose proof (total_nonneg al_amount (concat xss)).
  cbn [build_chain totals_linked last_total foldl].
  assert (E : acs_next_total_commitment (built_conservation ALLOCS root side (wrap 64 (Z.of_nat i)) total c
      (wrap 64 v) xs some_blinding) =
    allocation_conservation_total_commitment side total (wrap 64 (v + supply xs)) some_blinding).
  { cbn [built_conservation acs_next_total_commitment]. by rewrite uval_wrap_small by lia. }
  rewrite E. destruct (IH (S i) (extend_allocation_transcript_root root side (wrap 64 (Z.of_nat i)) total xs)
    (v + supply xs)%Z) as [Hl El]; [lia|lia|]. split; [split; [done|exact Hl]|].
  unfold last_total in El. rewrite El. by rewrite Z.add_assoc.
Qed.

(** Each statement of a chain, with its allocations. *)
Record chain_entry ALLOCS side c total (s : AllocationConservationSegmentStatement ALLOCS) xs : Prop := {
  ce_transcript : acs_transcript s = built_transcript ALLOCS (ats_previous_root (acs_transcript s)) side
    (ats_segment_index (acs_transcript s)) total c xs some_blinding;
  ce_layout : conservation_layout_ok s;
  ce_proved : conservation_proved s
}.

(** The messages hashed for one segment of a chain and for a chain. *)
Definition built_messages side (i total v : u64) (root : Bytes32) xs : list (list byte) :=
  [transcript_message root side i total xs;
   ltac:(message_of (allocation_transcript_amount_commitment side i total (amount_of xs) some_blinding));
   total_message side total v some_blinding;
   total_message side total (wrap 64 (v + supply xs)) some_blinding].

Fixpoint build_messages side (total : u64) (i : nat) (root : Bytes32) (v : Z) xss : list (list byte) :=
  match xss with
  | [] => []
  | xs :: xss' =>
      let idx := wrap 64 (Z.of_nat i) in
      built_messages side idx total (wrap 64 v) root xs ++
      build_messages side total (S i) (extend_allocation_transcript_root root side idx total xs)
        (v + supply xs) xss'
  end.

(** A root a chain has when it comes to segment [i], and its message. *)
Definition root_before side total (i : nat) (root : Bytes32) (m : list byte) : Prop :=
  root = allocation_transcript_empty_root side ∧ m = transcript_empty_message side ∨
  ∃ p j xs, (j < i)%nat ∧
    root = extend_allocation_transcript_root p side (wrap 64 (Z.of_nat j)) total xs ∧
    m = transcript_message p side (wrap 64 (Z.of_nat j)) total xs.

Lemma root_moves side total i root m xs : (Z.of_nat i < 2 ^ 64)%Z → root_before side total i root m →
  root ≠ extend_allocation_transcript_root root side (wrap 64 (Z.of_nat i)) total xs ∨
  collision [m; transcript_message root side (wrap 64 (Z.of_nat i)) total xs].
Proof.
  intros Hi Hr. destruct (decide (root = extend_allocation_transcript_root root side (wrap 64 (Z.of_nat i)) total xs))
    as [E|]; [right|by left]. destruct Hr as [ [Hr ->]|(p & j & ys & Hj & Hr & ->)].
  - rewrite Hr in E at 1. by eapply domains_differ, E.
  - rewrite Hr in E at 1. apply extend_transcript_binds in E as [(_ & _ & E & _)|]; [|done].
    apply (f_equal uval) in E. rewrite !uval_wrap_small in E by lia. lia.
Qed.

Lemma build_entries ALLOCS side c (total : u64) i root m v xss :
  let ms := m :: build_messages side total i root v xss in
  count_fits ALLOCS → (usize_of ALLOCS <= total)%Z → uval total ≠ 0%Z →
  Forall (segment_input c ALLOCS) xss → (Z.of_nat i + Z.of_nat (length xss) <= 2 ^ 64)%Z →
  (0 <= v)%Z → (v + supply (concat xss) < 2 ^ 64)%Z → (i = 0%nat → v = 0%Z) →
  root ≠ zero32 → root_before side total i root m →
  Forall2 (chain_entry ALLOCS side c total) (build_chain ALLOCS side c total i root v xss) xss ∨
  zero_digest ms ∨ collision ms.
Proof.
  intros ms HA Hle Ht Hin. revert i root m v ms.
  induction Hin as [|xs xss Hx Hin IH]; intros i root m v ms Hi Hv Hs Hfirst Hr0 Hr; [left; constructor|].
  cbn [length] in Hi. cbn [concat] in Hs. rewrite total_app in Hs.
  pose proof (total_nonneg al_amount xs). pose proof (total_nonneg al_amount (concat xss)).
  set (next := extend_allocation_transcript_root root side (wrap 64 (Z.of_nat i)) total xs).
  set (s := built_conservation ALLOCS root side (wrap 64 (Z.of_nat i)) total c (wrap 64 v) xs some_blinding).
  cbn [build_messages] in ms. fold next in ms. unfold built_messages in ms. cbn [app] in ms.
  assert (next ≠ zero32 ∨ zero_digest ms) as [Hnz|] by (unfold ms; nonzero_digest); [|by right; left].
  destruct (root_moves side total i root m xs ltac:(lia) Hr) as [Hmove|];
    [|right; right; unfold ms; by_messages].
  assert (ats_segment_amount_commitment (acs_transcript s) ≠ zero32 ∨ zero_digest ms) as [Ha|]
    by (unfold ms; nonzero_digest); [|by right; left].
  assert (acs_previous_total_commitment s ≠ zero32 ∨ zero_digest ms) as [Hp|]
    by (unfold ms; nonzero_digest); [|by right; left].
  assert (acs_next_total_commitment s ≠ zero32 ∨ zero_digest ms) as [Hn|]
    by (unfold ms; nonzero_digest); [|by right; left].
  destruct (IH (S i) next (transcript_message root side (wrap 64 (Z.of_nat i)) total xs)
    (v + supply xs)%Z) as [Hrest|Hbad]; [lia|lia|lia|lia|done| |left|].
  { right. exists root, i, xs. split; [lia|done]. }
  2:{ right. destruct Hbad as [Hz|Hc]; [left; eapply hits_mono; [|exact Hz]
        |right; eapply collides_mono; [|exact Hc] ]; unfold ms; solve_messages. }
  cbn [build_chain]. fold next. fold s. constructor; [|exact Hrest].
  assert (Hl : conservation_layout_ok s) by (by repeat constructor).
  constructor; [done|done|].
  destruct (conservation_complete ALLOCS root side (wrap 64 (Z.of_nat i)) total c (wrap 64 v) xs some_blinding)
    as (_ & w & circ & _ & Hc & Hsat); try done.
  { rewrite !uval_wrap_small by lia. lia. }
  { rewrite uval_wrap_small by lia. lia. }
  exists circ. split; [|by apply Hsat]. unfold conservation_circuit in Hc.
  apply bind_unit_ok in Hc as [_ [= <-] ]. done.
Qed.

(** * The grid *)

Definition entry ALLOCS : Type := AllocationConservationSegmentStatement ALLOCS * list RgkAllocation.
Definition entry_index {ALLOCS} (p : entry ALLOCS) : u64 := ats_segment_index (acs_transcript p.1).

(** The exclusion statement of two segments. *)
Definition exclusion_of {SPENT NEW} (c : KaspaChainId) (spent_total new_total : u64)
    (p : entry SPENT * entry NEW) : AllocationExclusionSegmentPairStatement SPENT NEW :=
  built_exclusion SPENT NEW (ats_previous_root (acs_transcript p.1.1))
    (ats_previous_root (acs_transcript p.2.1)) (entry_index p.1) (entry_index p.2)
    spent_total new_total c p.1.2 p.2.2 some_blinding.

Lemma fmap_list_prod {A B C D} (g : A → C) (h : B → D) l k :
  (λ p, (g p.1, h p.2)) <$> list_prod l k = list_prod (g <$> l) (h <$> k).
Proof.
  induction l as [|x l IH]; [done|]. cbn [list_prod fmap list_fmap]. rewrite fmap_app, IH. f_equal.
  change (map (λ y, (x, y)) k) with ((λ y, (x, y)) <$> k).
  change (map (λ y, (g x, y)) (h <$> k)) with ((λ y, (g x, y)) <$> (h <$> k)).
  by rewrite <-!list_fmap_compose.
Qed.

Lemma elem_of_list_prod {A B} (x : A) (y : B) l k : (x, y) ∈ list_prod l k ↔ x ∈ l ∧ y ∈ k.
Proof. by rewrite !list_elem_of_In, in_prod_iff. Qed.

Lemma NoDup_list_prod {A B} (l : list A) (k : list B) : NoDup l → NoDup k → NoDup (list_prod l k).
Proof.
  induction 1 as [|x l Hx Hl IH]; intros Hk; [constructor|]. cbn [list_prod].
  change (map (λ y, (x, y)) k) with ((λ y, (x, y)) <$> k). apply NoDup_app. split_and!; [|..|by apply IH].
  - apply NoDup_fmap_2; [intros y y' E; by injection E|done].
  - intros [a b] (y & [= -> ->] & _)%list_elem_of_fmap [Ha _]%elem_of_list_prod. done.
Qed.

Lemma linked_indexes {ALLOCS} side c total root (l : list (AllocationTranscriptSegmentStatement ALLOCS)) :
  linked side c total 0 root l → NoDup (ats_segment_index <$> l).
Proof.
  intros Hl. apply NoDup_alt. intros i j x Hi Hj. rewrite list_lookup_fmap in Hi, Hj.
  apply fmap_Some in Hi as (s & Hi & ->), Hj as (t & Hj & E).
  destruct (linked_index _ _ _ _ _ _ _ _ Hl Hi) as (Hi64 & Ei & _).
  destruct (linked_index _ _ _ _ _ _ _ _ Hl Hj) as (Hj64 & Ej & _).
  rewrite Ei, Ej in E. apply (f_equal uval) in E. rewrite !uval_wrap_small in E by lia. lia.
Qed.

Lemma zip_indexes {ALLOCS} (l : list (AllocationConservationSegmentStatement ALLOCS)) xss :
  length l = length xss → entry_index <$> zip l xss = ats_segment_index <$> (acs_transcript <$> l).
Proof.
  revert xss. induction l as [|s l IH]; intros [|xs xss] E; try done.
  cbn [zip zip_with fmap list_fmap]. f_equal. apply IH. by injection E.
Qed.

Lemma entries_lookup {ALLOCS} side c total (l : list (AllocationConservationSegmentStatement ALLOCS)) xss p :
  Forall2 (chain_entry ALLOCS side c total) l xss → p ∈ zip l xss →
  chain_entry ALLOCS side c total p.1 p.2 ∧ acs_transcript p.1 ∈ acs_transcript <$> l ∧ p.2 ∈ xss.
Proof.
  intros Hf (k & Hk)%list_elem_of_lookup. destruct p as [s xs].
  apply lookup_zip_Some in Hk as [Hs Hx]. cbn. split_and!.
  - by eapply Forall2_lookup_lr.
  - apply list_elem_of_fmap_2. by eapply list_elem_of_lookup_2.
  - by eapply list_elem_of_lookup_2.
Qed.

(** The statement of a pair is bound to its segments and has a proof. *)
Lemma exclusion_entry {SPENT NEW} c (spent_total new_total : u64) (p : entry SPENT) (q : entry NEW) :
  count_fits SPENT → count_fits NEW → (usize_of SPENT <= spent_total)%Z → (usize_of NEW <= new_total)%Z →
  chain_entry SPENT Spent c spent_total p.1 p.2 → chain_entry NEW New c new_total q.1 q.2 →
  segment_input c SPENT p.2 → segment_input c NEW q.2 → apart p.2 q.2 →
  pair_bound (acs_transcript p.1) (acs_transcript q.1) (exclusion_of c spent_total new_total (p, q)) ∧
  exclusion_proved (exclusion_of c spent_total new_total (p, q)).
Proof.
  destruct p as [s xs], q as [n ys]. cbn [fst snd].
  intros HS HN Hs Hn [Es [Ls _] _] [En [Ln _] _] Hx Hy Hap.
  assert (Hb : pair_bound (acs_transcript s) (acs_transcript n)
    (exclusion_of c spent_total new_total ((s, xs), (n, ys)))).
  { rewrite Es, En. unfold exclusion_of, entry_index. cbn [fst snd]. rewrite Es, En. by constructor. }
  split; [exact Hb|].
  destruct (exclusion_complete SPENT NEW (ats_previous_root (acs_transcript s))
    (ats_previous_root (acs_transcript n)) (ats_segment_index (acs_transcript s))
    (ats_segment_index (acs_transcript n)) spent_total new_total c xs ys some_blinding)
    as (_ & w & circ & _ & Hc & Hsat); try done.
  unfold exclusion_circuit in Hc. apply bind_unit_ok in Hc as [_ [= <-] ].
  unfold exclusion_of, entry_index in *. cbn [fst snd] in *.
  eexists {| auc_public_inputs := _; auc_witness := w |}. split; [reflexivity|]. apply Hsat.
  destruct Hb, Ls, Ln. constructor; congruence.
Qed.

Lemma grid_complete {SPENT NEW} c (spent_total new_total : u64) root root'
    (ss : list (AllocationConservationSegmentStatement SPENT))
    (ns : list (AllocationConservationSegmentStatement NEW)) xss yss :
  let es := exclusion_of c spent_total new_total <$> list_prod (zip ss xss) (zip ns yss) in
  count_fits SPENT → count_fits NEW → (usize_of SPENT <= spent_total)%Z → (usize_of NEW <= new_total)%Z →
  linked Spent c spent_total 0 root (acs_transcript <$> ss) →
  linked New c new_total 0 root' (acs_transcript <$> ns) →
  Forall2 (chain_entry SPENT Spent c spent_total) ss xss →
  Forall2 (chain_entry NEW New c new_total) ns yss →
  Forall (segment_input c SPENT) xss → Forall (segment_input c NEW) yss →
  apart (concat xss) (concat yss) →
  (Z.of_nat (length ss) * Z.of_nat (length ns) < 2 ^ 64)%Z →
  count_fits (length ss) → count_fits (length ns) →
  verify_allocation_exclusion_grid (acs_transcript <$> ss) (acs_transcript <$> ns) es c = Ok () ∧
  Forall exclusion_proved es.
Proof.
  intros es HS HN Hs Hn Ls Ln Fx Fy Ix Iy Hap Hfit Hls Hln.
  pose proof (Forall2_length _ _ _ Fx) as Lx. pose proof (Forall2_length _ _ _ Fy) as Ly.
  assert (Hentry : ∀ p q, p ∈ zip ss xss → q ∈ zip ns yss →
    (acs_transcript p.1 ∈ acs_transcript <$> ss) ∧ (acs_transcript q.1 ∈ acs_transcript <$> ns) ∧
    pair_bound (acs_transcript p.1) (acs_transcript q.1) (exclusion_of c spent_total new_total (p, q)) ∧
    exclusion_proved (exclusion_of c spent_total new_total (p, q))).
  { intros p q Hp Hq. destruct (entries_lookup _ _ _ _ _ _ Fx Hp) as (Ep & Ip & Xp).
    destruct (entries_lookup _ _ _ _ _ _ Fy Hq) as (Eq & Iq & Yq).
    rewrite list.Forall_forall in Ix, Iy. split_and!; [done|done|apply exclusion_entry; auto|
      apply exclusion_entry; auto].
    all: intros a b Ha Hb; apply Hap; apply elem_of_concat; by eexists. }
  assert (Hpairs : exclusion_pair <$> es = list_prod (ats_segment_index <$> (acs_transcript <$> ss))
                                             (ats_segment_index <$> (acs_transcript <$> ns))).
  { unfold es. rewrite <-list_fmap_compose, <-(zip_indexes ss xss), <-(zip_indexes ns yss) by done.
    by rewrite <-fmap_list_prod. }
  split.
  - apply grid_ok. rewrite !length_fmap, Hpairs. split_and!.
    + unfold es. rewrite length_fmap, length_prod, !length_zip_with_l_eq by done. apply checked_mul_some.
      rewrite !uval_usize_of by (done || lia). lia.
    + apply Forall_fmap, list.Forall_forall. intros [p q] [Hp Hq]%elem_of_list_prod. cbn.
      destruct (Hentry p q Hp Hq) as (Ip & Iq & Hb & _). split; [done|].
      exists (acs_transcript p.1), (acs_transcript q.1). split_and!; [|..|done].
      * by eapply linked_find.
      * by eapply linked_find.
    + apply NoDup_list_prod; by eapply linked_indexes.
    + intros s n Hsin Hnin. apply elem_of_list_prod. split; by apply list_elem_of_fmap_2.
  - apply Forall_fmap, list.Forall_forall. intros [p q] [Hp Hq]%elem_of_list_prod. by apply Hentry.
Qed.

(** * The bundle *)

(** Everything [audited] says of one side, for allocations with no root yet. *)
Record side_input (c : KaspaChainId) (size : nat) xss : Prop := {
  in_size : size ≠ 0%nat;
  in_nonempty : xss ≠ [];
  in_segments : Forall (λ xs, length xs = size ∧ NoDup (anchor_key <$> xs)) xss;
  in_ok : Forall (allocation_ok c) (concat xss);
  in_fits : (Z.of_nat (length (concat xss)) < 2 ^ 64)%Z;
  in_supply : (supply (concat xss) < 2 ^ 64)%Z
}.

Lemma side_segments c size xss : side_input c size xss → Forall (segment_input c size) xss.
Proof.
  intros [Hsz _ Hseg Hok _ Hsup]. apply list.Forall_forall. intros xs Hx.
  rewrite list.Forall_forall in Hseg. destruct (Hseg xs Hx) as [Hl Hd].
  assert (Hle : (supply xs <= supply (concat xss))%Z).
  { apply list_elem_of_split in Hx as (k1 & k2 & ->). rewrite concat_app. cbn [concat].
    rewrite !total_app. pose proof (total_nonneg al_amount (concat k1)).
    pose proof (total_nonneg al_amount (concat k2)). lia. }
  constructor; [done|by intros ->| |done|lia].
  apply list.Forall_forall. intros a Ha. rewrite list.Forall_forall in Hok.
  apply Hok, elem_of_concat. by exists xs.
Qed.

Lemma side_count size xss :
  Forall (λ xs, length xs = size ∧ NoDup (anchor_key <$> xs)) xss →
  length (concat xss) = (length xss * size)%nat.
Proof. induction 1 as [|xs xss [Hl _] _ IH]; [done|]. cbn [concat length]. rewrite length_app, IH, Hl. lia. Qed.

Definition total_of xss : u64 := wrap 64 (Z.of_nat (length (concat xss))).

Lemma side_bounds c size xss : side_input c size xss →
  count_fits size ∧ count_fits (length xss) ∧ uval (total_of xss) ≠ 0%Z ∧
  (usize_of size <= total_of xss)%Z ∧ uval (amount_of (concat xss)) ≠ 0%Z ∧
  (uval (total_of xss) = Z.of_nat (length xss) * Z.of_nat size)%Z.
Proof.
  intros [Hsz Hne Hsegs Hok Hfit Hsup]. pose proof (side_count size xss Hsegs) as Hcount.
  assert (Hlen : (0 < length xss)%nat) by (destruct xss; [done|cbn; lia]).
  assert (Hpos : (0 < size)%nat) by lia. unfold count_fits.
  assert (Htot : uval (total_of xss) = (Z.of_nat (length xss) * Z.of_nat size)%Z).
  { unfold total_of. rewrite <-Nat2Z.inj_mul, <-Hcount. apply uval_wrap_small. lia. }
  rewrite Hcount, Nat2Z.inj_mul in Hfit.
  assert (HA : (Z.of_nat size < 2 ^ 64)%Z) by nia.
  assert (HL : (Z.of_nat (length xss) < 2 ^ 64)%Z) by nia.
  rewrite Htot, uval_usize_of by done. split_and!; [done|done|nia|nia| |done].
  pose proof (ok_supply_positive _ _ Hok) as Hpos'.
  unfold amount_of. rewrite uval_wrap_small by (pose proof (total_nonneg al_amount (concat xss)); lia).
  assert (concat xss ≠ []); [|specialize (Hpos' ltac:(done)); lia].
  intros E. rewrite E in Hcount. cbn in Hcount. nia.
Qed.

Record side_built size side c xss (l : list (AllocationConservationSegmentStatement size)) : Prop := {
  sb_chain : verify_allocation_transcript_chain (match side with Spent => "spent" | New => "new" end)
      side (acs_transcript <$> l) =
    Ok {| tca_chain_id := c; tca_total_count := total_of xss;
          tca_final_root := transcript_root side (total_of xss) xss |};
  sb_conservation : ∀ label, verify_allocation_conservation_chain label (acs_transcript <$> l) l
    (allocation_conservation_total_commitment side (total_of xss) (amount_of (concat xss)) some_blinding) = Ok ();
  sb_linked : linked side c (total_of xss) 0 (allocation_transcript_empty_root side) (acs_transcript <$> l);
  sb_entries : Forall2 (chain_entry size side c (total_of xss)) l xss
}.

(** The messages hashed for one side of an audit. *)
Definition side_messages side xss : list (list byte) :=
  transcript_empty_message side ::
  build_messages side (total_of xss) 0 (allocation_transcript_empty_root side) 0 xss.

Lemma side_complete size side c xss : side_input c size xss →
  (∃ l, side_built size side c xss l) ∨
  zero_digest (side_messages side xss) ∨ collision (side_messages side xss).
Proof.
  intros Hin. pose proof (side_segments _ _ _ Hin) as Hseg.
  destruct (side_bounds _ _ _ Hin) as (HA & HL & Ht0 & Hle & _ & Htot).
  destruct Hin as [Hsz Hne _ Hok _ Hsup]. pose proof (total_nonneg al_amount (concat xss)).
  set (root := allocation_transcript_empty_root side).
  set (l := build_chain size side c (total_of xss) 0 root 0 xss).
  assert (root ≠ zero32 ∨ zero_digest (side_messages side xss)) as [Hr|]
    by (unfold side_messages; nonzero_digest); [|by right; left].
  assert (Hll : length l = length xss) by apply build_length.
  destruct (build_entries size side c (total_of xss) 0 root (transcript_empty_message side) 0 xss)
    as [He|]; try done; [..|left|by right].
  { unfold count_fits in HL. lia. }
  { by left. }
  assert (Hl : linked side c (total_of xss) 0 root (acs_transcript <$> l)) by (apply build_linked; unfold count_fits in HL; lia).
  exists l. constructor; [| |done|done].
  - apply transcript_chain_ok. cbn [tca_total_count tca_chain_id tca_final_root]. split_and!; try done.
    + unfold l. by destruct xss.
    + rewrite length_fmap, Hll. apply checked_mul_some. rewrite !uval_usize_of by done. lia.
    + symmetry. unfold l. rewrite build_root. done.
  - intros label. destruct (build_totals size side c (total_of xss) 0 root 0 xss) as [Ht El]; [lia|lia|].
    assert (Ef : first_total l = allocation_conservation_total_commitment side (total_of xss) (wrap 64 0) some_blinding).
    { unfold l. destruct xss; [done|]. reflexivity. }
    apply conservation_chain_ok. rewrite Ef. split_and!; [done| | |done|exact El].
    + unfold l. by destruct xss.
    + intros t Ht'. unfold l in Ht'. destruct xss; [done|]. by injection Ht' as <-.
Qed.

Lemma entries_proved {ALLOCS} side c total (l : list (AllocationConservationSegmentStatement ALLOCS)) xss :
  Forall2 (chain_entry ALLOCS side c total) l xss → Forall conservation_proved l.
Proof. induction 1 as [|s xs l xss [] _ IH]; by constructor. Qed.

(** Everything the builders hash for the two sides, and for the final statement. *)
Definition audit_messages xss yss : list (list byte) :=
  side_messages Spent xss ++ side_messages New yss ++
  [total_message Spent (total_of xss) (amount_of (concat xss)) some_blinding;
   total_message New (total_of yss) (amount_of (concat xss)) some_blinding].

(** C29: Audits are complete: transcripts of two sides with equal totals that meet
    the conditions an accepted audit certifies have a bundle that verifies, every
    statement of it proved, and that reports their native roots; unless one of
    the messages hashed for the roots, amounts and totals of those transcripts
    has the digest zero or two of them have the same.  Nothing holds the segments
    of one side apart: the two may repeat an allocation, which then counts in the
    total twice. *)
Theorem audit_complete SPENT NEW c xss yss :
  side_input c SPENT xss → side_input c NEW yss →
  supply (concat xss) = supply (concat yss) → apart (concat xss) (concat yss) →
  (Z.of_nat (length xss) * Z.of_nat (length yss) < 2 ^ 64)%Z →
  (∃ (b : AllocationAuditBundle SPENT NEW) r,
     verify_allocation_audit_bundle b = Ok r ∧ bundle_proved b ∧
     aar_spent_final_root r = transcript_root Spent (aar_spent_total_count r) xss ∧
     aar_new_final_root r = transcript_root New (aar_new_total_count r) yss) ∨
  zero_digest (audit_messages xss yss) ∨ collision (audit_messages xss yss).
Proof.
  intros Hx Hy Heq Hap Hfit.
  destruct (side_complete SPENT Spent c xss Hx) as [(ls & [Cs Vs Ls Es])|Hb];
    [|right; unfold audit_messages; destruct Hb; by_messages].
  destruct (side_complete NEW New c yss Hy) as [(ln & [Cn Vn Ln En])|Hb];
    [|right; unfold audit_messages; destruct Hb; by_messages].
  pose proof (side_bounds _ _ _ Hx) as (HS & HLx & Htx & Hsx & Hvx & _).
  pose proof (side_bounds _ _ _ Hy) as (HN & HLy & Hty & Hsy & _ & _).
  pose proof (Forall2_length _ _ _ Es) as El. pose proof (Forall2_length _ _ _ En) as Er.
  assert (Hbl : some_blinding ≠ zero32) by done.
  destruct (final_complete (total_of xss) (total_of yss) (amount_of (concat xss)) some_blinding Htx Hty Hvx Hbl)
    as (f & w & circ & Hf & _ & Hc & Hsat).
  destruct (final_nonzero _ _ _ _ _ _ Hf Htx Hty) as [Hlay|];
    [|right; left; unfold audit_messages; by_messages].
  destruct (grid_complete c (total_of xss) (total_of yss) (allocation_transcript_empty_root Spent)
    (allocation_transcript_empty_root New) ls ln xss yss) as [Hg Hpe]; try done.
  { by apply side_segments. }
  { by apply side_segments. }
  { by rewrite El, Er. }
  { unfold count_fits. by rewrite El. }
  { unfold count_fits. by rewrite Er. }
  left. exists {| aab_spent_transcripts := acs_transcript <$> ls; aab_new_transcripts := acs_transcript <$> ln;
    aab_spent_conservation := ls; aab_new_conservation := ln; aab_final_conservation := f;
    aab_exclusions := exclusion_of c (total_of xss) (total_of yss) <$> list_prod (zip ls xss) (zip ln yss) |}.
  unfold final_from_total in Hf. rewrite !bind_unit_ok in Hf. destruct Hf as (_ & _ & _ & [= <-]).
  eexists. split.
  { unfold verify_allocation_audit_bundle. cbn [aab_spent_transcripts aab_new_transcripts
      aab_spent_conservation aab_new_conservation aab_final_conservation aab_exclusions].
    rewrite fail_if_false by (destruct Hx, Hy; tauto). cbn [mbind result_bind].
    rewrite Cs. cbn [mbind result_bind]. rewrite Cn. cbn [mbind result_bind tca_chain_id tca_total_count
      tca_final_root afs_spent_total_count afs_new_total_count afs_spent_total_commitment afs_new_total_commitment].
    rewrite !(fail_if_false (_ ≠ _)) by (by intros Hn). cbn [mbind result_bind].
    rewrite Vs. cbn [mbind result_bind]. unfold amount_of in Vn |- *. rewrite Heq, Vn. cbn [mbind result_bind].
    rewrite Hg. reflexivity. }
  split; [|done]. constructor; cbn [aab_spent_conservation aab_new_conservation aab_final_conservation aab_exclusions].
  - by eapply entries_proved.
  - by eapply entries_proved.
  - unfold final_circuit in Hc. apply bind_unit_ok in Hc as [_ [= <-] ].
    eexists {| auc_public_inputs := _; auc_witness := w |}. split; [reflexivity|]. by apply Hsat.
  - done.
Qed.
End complete.
