(* ===== verification/ZkSamples.v ===== *)
(** A gadget library that evaluates, and concrete statements, witnesses and
    circuits on which the theorems about the circuits are applied.  Its
    variables are their own assignment: bytes, booleans and residues of the
    BN254 scalar field, kept as the 32 bytes of their least representative. *)

From stdpp Require Import base list strings vector.
From Stdlib Require Import ZArith Lia Strings.Byte.
From S2P Require Import Prelude.
From S2P Require Import Bytes.
From S2P Require Import Encoding.
From S2P Require Import Types.
From S2P Require Import Commit.
From S2P Require Import Receipt.
From S2P Require Import CoreSamples.
From S2P Require Import AssetTypes.
From S2P Require Import AssetRules.
From S2P Require Import Asset.
From S2P Require Import AssetCorrect.
From S2P Require Import AssetSamples.
From S2P Require Import Lane.
From S2P Require Import Zk.
From S2P Require Import ZkCorrect.
From S2P Require Import ZkGadgets.
From S2P Require Import ZkCircuits.
From S2P Require Import ZkCircuitsCorrect.
From S2P Require Import ZkAllocation.
From S2P Require Import ZkTransition.
From S2P Require Import ZkLane.
From S2P Require Import ZkLaneCorrect.
From S2P Require Import ZkAudit.
From S2P Require Import ZkAuditCorrect.
From S2P Require Import ZkAuditBundle.
From S2P Require Import ZkAuditComplete.

Open Scope list_scope.

#[local] Instance sample_sha256 : Sha256 := toy_sha256.

(** The order of the BN254 scalar field. *)
Definition bn254_order : Z :=
  21888242871839275222246405745257275088548364400416034343698204186575808495617.

Definition residue (z : Z) : Bytes32 := to_array 32 (le_bytes 32 (z mod bn254_order)).

Lemma residue_val z : le_val (residue z) = (z mod bn254_order)%Z.
Proof.
  unfold residue. rewrite to_array_list by apply le_bytes_length. rewrite le_val_le_bytes.
  apply Z.mod_small. pose proof (Z.mod_pos_bound z bn254_order eq_refl).
  assert (bn254_order < 256 ^ Z.of_nat 32)%Z by done. lia.
Qed.

Lemma residue_eq a b : residue a = residue b ↔ (a mod bn254_order = b mod bn254_order)%Z.
Proof.
  split; [intros E|intros E; unfold residue; by rewrite E].
  by rewrite <-!residue_val, E.
Qed.

#[local] Instance sample_gadgets : Gadgets := {
  Fr := Bytes32; from_le_bytes_mod_order l := residue (le_val l);
  UInt8 := byte; Boolean := bool; FpVar := Bytes32; Constraint := bool;
  u8_constant b := b; u8_new_witness b := b; u8_to_bits_le := byte_bits;
  u8_is_eq x y := bool_decide (x = y); u8_enforce_equal x y := bool_decide (x = y);
  bytes_is_eq l k := bool_decide (l = k); bytes_is_neq l k := bool_decide (l ≠ k);
  bytes_enforce_equal l k := bool_decide (l = k);
  bool_TRUE := true; bool_not := negb; kary_or := existsb id; bool_enforce_equal := Bool.eqb;
  le_bits_to_fp l := residue (bits_val l);
  fp_constant := residue; fp_new_input f := f;
  fp_add x y := residue (le_val x + le_val y); fp_enforce_equal x y := bool_decide (x = y);
  Sha256Gadget_digest l := blist (sha256 l);
  constraint_holds c := c
}.

#[local] Instance sample_gadget_laws : GadgetLaws.
Proof.
  refine {| fr_order := bn254_order; fr_of := residue;
            u8_value x := x; bool_value b := b; fp_value x := x |}; cbn -[bn254_order Z.pow residue].
  all: try (intros; by rewrite ?list_fmap_id, ?bool_decide_eq_true).
  - apply residue_eq.
  - intros b c. split; [apply Bool.eqb_prop|intros ->; apply Bool.eqb_reflx].
  - intros x y a b -> ->. rewrite residue_eq, !residue_val. by rewrite <-Zplus_mod.
Defined.

(** * A transition *)

Definition sample_finalized : RgkFinalizedContinuation := {|
  fc_commitment := cr_commitment (plan_report_of sample_plan);
  fc_transition := sample_transition;
  fc_transition_report := transition_report_of sample_transition |}.

Lemma sample_plan_finalized :
  plan_finalize sample_plan (b32 12) (n64 1010) (n64 6) = Ok sample_finalized.
Proof. by vm_compute. Qed.

Lemma sample_plan_valid : plan_validate sample_plan = Ok (plan_report_of sample_plan).
Proof. by vm_compute. Qed.

Definition sample_statement : SemanticTransitionStatement :=
  statement_of (transition_report_of sample_transition) (plan_report_of sample_plan).

Definition sample_spent : vec RgkAllocation 2 :=
  [# sample_allocation 11 0 60; sample_allocation 11 1 40].
Definition sample_new : vec RgkAllocation 2 := list_to_vec (tr_new_allocations sample_transition).

Definition sample_circuit : FixedAllocationVectorCircuit 2 2 :=
  {| ac_public_inputs := semantic_public_inputs sample_statement;
     ac_statement_witness := semantic_public_inputs sample_statement;
     ac_allocation_witness := {|
       fvw_spent_allocations := vmap encode_native_allocation sample_spent;
       fvw_new_allocations := vmap encode_native_allocation sample_new |} |}.

Lemma sample_circuit_satisfied :
  is_satisfied (fixed_vector_generate_constraints sample_circuit) = true.
Proof. by vm_compute. Qed.

Lemma sample_statement_valid : semantic_validate sample_statement = Ok ().
Proof. by vm_compute. Qed.

Lemma sample_canonical :
  canonical sample_spent ∧ canonical sample_new ∧ canonical_shapes (shape_of <$> vec_to_list sample_new) ∧
  by_output (cp_new_allocation_shapes sample_plan) ∧ outpoints_distinct sample_spent sample_new.
Proof.
  split_and!; [by vm_compute..| |].
  - constructor; [by repeat constructor|]. by constructor.
  - apply (bool_decide_unpack _). by vm_compute.
Qed.

Lemma sample_transition_valid :
  transition_validate sample_transition = Ok (transition_report_of sample_transition).
Proof. by vm_compute. Qed.

(** The same issue, its first allocation held twice under two covenants, and the
    transaction that spends it. *)
Definition sample_doubled : vec RgkAllocation 1 := [# sample_allocation 13 0 120].

(** * A private lane *)

Definition sample_lane_witness : LaneDiscoveryWitness :=
  {| lw_view_key := b32 61; lw_asset_id := b32 2 |}.

Definition sample_segment (previous_root : Bytes32) (i epoch : Z) : LaneGraphSegmentStatement 2 :=
  lane_segment_from_private (b32 61) (b32 2) previous_root (wrap 64 i) [# n64 epoch; n64 (epoch + 1)].

Definition sample_segments : list (LaneGraphSegmentStatement 2) :=
  let s0 := sample_segment private_lane_graph_empty_root 0 5 in
  [s0; sample_segment (lgs_next_root s0) 1 7].

(** * An audit *)

(** Two spent segments of one allocation, one new segment. *)
Definition sample_spent_segments : list (list RgkAllocation) :=
  [[sample_allocation 11 0 60]; [sample_allocation 11 1 40]].
Definition sample_new_segments : list (list RgkAllocation) := [[sample_allocation 13 0 100]].

Definition sample_spent_chain : list (AllocationConservationSegmentStatement 1) :=
  build_chain 1 Spent sample_chain (n64 2) 0 (allocation_transcript_empty_root Spent) 0
    sample_spent_segments.
Definition sample_new_chain : list (AllocationConservationSegmentStatement 1) :=
  build_chain 1 New sample_chain (n64 1) 0 (allocation_transcript_empty_root New) 0
    sample_new_segments.

Definition sample_final : AllocationConservationFinalStatement := {|
  afs_spent_total_count := n64 2; afs_new_total_count := n64 1;
  afs_spent_total_commitment :=
    allocation_conservation_total_commitment Spent (n64 2) (n64 100) some_blinding;
  afs_new_total_commitment :=
    allocation_conservation_total_commitment New (n64 1) (n64 100) some_blinding |}.

Definition sample_bundle : AllocationAuditBundle 1 1 := {|
  aab_spent_transcripts := acs_transcript <$> sample_spent_chain;
  aab_new_transcripts := acs_transcript <$> sample_new_chain;
  aab_spent_conservation := sample_spent_chain; aab_new_conservation := sample_new_chain;
  aab_final_conservation := sample_final;
  aab_exclusions := exclusion_of sample_chain (n64 2) (n64 1) <$>
    list_prod (zip sample_spent_chain sample_spent_segments) (zip sample_new_chain sample_new_segments) |}.

(** What the prover of that audit feeds the circuits. *)
Definition sample_bundle_witness : BundleWitness 1 1 := {|
  bw_spent := [built_conservation_witness 1 (n64 0) [sample_allocation 11 0 60] some_blinding;
               built_conservation_witness 1 (n64 60) [sample_allocation 11 1 40] some_blinding];
  bw_new := [built_conservation_witness 1 (n64 0) [sample_allocation 13 0 100] some_blinding];
  bw_final := {| afw_total := n64 100; afw_spent_total_blinding := some_blinding;
                 afw_new_total_blinding := some_blinding |};
  bw_exclusions := [
    {| aew_spent := built_witness 1 [sample_allocation 11 0 60] some_blinding;
       aew_new := built_witness 1 [sample_allocation 13 0 100] some_blinding |};
    {| aew_spent := built_witness 1 [sample_allocation 11 1 40] some_blinding;
       aew_new := built_witness 1 [sample_allocation 13 0 100] some_blinding |}] |}.

Lemma sample_bundle_witnessed : bundle_witnessed sample_bundle sample_bundle_witness.
Proof. constructor; [..|by vm_compute|]; repeat constructor; by vm_compute. Qed.

(** * Witnesses *)

Lemma lineage_step_has_statement_witness :
  from_reports (transition_report_of sample_transition) (plan_report_of sample_plan) =
    Ok sample_statement.
Proof.
  destruct (lineage_step_has_statement sample_issue _ _ _ _ _ sample_plan (plan_report_of sample_plan)
    (b32 12) (n64 1010) (n64 6) sample_finalized sample_lineage eq_refl sample_plan_valid
    sample_plan_finalized) as [[E _]|[Hz|Hc]]; [by vm_compute..|exact E|no_collision Hz|no_collision Hc].
Defined.

Lemma plan_circuit_complete_witness :
  ∃ wit c, fixed_vector_from_allocations sample_spent sample_new = Ok wit ∧
    fixed_vector_circuit sample_statement wit = Ok c ∧
    is_satisfied (fixed_vector_generate_constraints c) = true.
Proof.
  destruct sample_canonical as (Hs & _ & _ & Ho & _).
  apply (plan_circuit_complete sample_plan (plan_report_of sample_plan) (b32 12) (n64 1010) (n64 6)
    sample_finalized sample_spent sample_new sample_plan_valid sample_plan_finalized
    sample_statement_valid eq_refl eq_refl Hs Ho); done.
Defined.

Lemma satisfied_circuit_is_transition_witness :
  ∃ t r, transition_validate t = Ok r ∧ tr_new_allocations t = sample_new ∧
    trr_transition_digest r = ss_transition_digest sample_statement.
Proof.
  destruct (satisfied_circuit_is_transition 2 2 sample_circuit ltac:(done) ltac:(done)
    sample_circuit_satisfied) as (s & xs & ys & txid & Ep & Ex & Ey & Hall).
  apply (inj semantic_public_inputs) in Ep as <-. cbn [sample_circuit ac_allocation_witness
    fvw_spent_allocations fvw_new_allocations] in Ex, Ey. rewrite vec_to_list_map in Ex, Ey.
  apply (list_fmap_eq_inj encode_native_allocation encode_allocation_inj) in Ex as <-, Ey as <-.
  destruct sample_canonical as (Hx & Hy & Hs & _ & Hd).
  destruct (Hall sample_policy) as (r & Hv & Hn & Ht & _); [by vm_compute|by vm_compute|exact Hx|exact Hy|
    exact Hs|exact Hd|].
  exists (transition_of sample_statement sample_policy sample_spent sample_new txid), r.
  exact (conj Hv (conj Hn Ht)).
Defined.

Lemma circuit_witness_is_transition_witness :
  ∃ xs ys txid, vec_to_list (fvw_spent_allocations (ac_allocation_witness sample_circuit)) =
      encode_native_allocation <$> xs ∧
    (canonical xs ∨ collision (witness_of_messages sample_transition xs ys txid)).
Proof.
  destruct (circuit_witness_is_transition 2 2 sample_circuit sample_transition
    (transition_report_of sample_transition)) as (xs & ys & txid & Hx & _ & Hc);
    [by vm_compute|by vm_compute|exact sample_transition_valid|by vm_compute|by vm_compute|
     exact sample_circuit_satisfied|].
  exists xs, ys, txid. split; [exact Hx|]. destruct Hc as [(_ & _ & _ & Hc & _)|Hc]; [by left|by right].
Defined.

Lemma circuit_spends_outpoint_twice_witness :
  ∃ s wit circuit,
    fixed_vector_from_allocations
      [# sample_allocation 11 0 60; twin (sample_allocation 11 0 60) (b32 78)] sample_doubled = Ok wit ∧
    fixed_vector_circuit s wit = Ok circuit ∧ semantic_validate s = Ok () ∧
    is_satisfied (fixed_vector_generate_constraints circuit) = true.
Proof.
  destruct (circuit_spends_outpoint_twice 1 sample_chain (sample_allocation 11 0 60) (b32 78)
    sample_doubled (b32 13)) as [[_ H]|[Hz|Hc]];
    [| | | | | | | | |exact H|no_collision Hz|no_collision Hc].
  - constructor; by vm_compute.
  - by vm_compute.
  - by vm_compute.
  - by vm_compute.
  - constructor; [|constructor]. split_and!; [constructor; by vm_compute|by vm_compute|by vm_compute].
  - apply (bool_decide_unpack _). by vm_compute.
  - by vm_compute.
  - by vm_compute.
  - by vm_compute.
Defined.

Lemma segment_chain_root_witness :
  chain_end sample_segments = lane_graph_root (segment_nodes <$> sample_segments).
Proof.
  apply (segment_chain_root 2 sample_segments); [by vm_compute|].
  constructor; [|constructor; [|constructor]].
  1,2: eexists {| lc_public_inputs := _; lc_witness := sample_lane_witness |};
    split; [reflexivity|by vm_compute].
Defined.

Lemma audit_conserves_witness :
  ∃ r, verify_allocation_audit_bundle sample_bundle = Ok r ∧ audit_holds 1 1 r.
Proof.
  destruct (verify_allocation_audit_bundle sample_bundle) as [r|] eqn:V; [|by vm_compute in V].
  exists r. split; [done|].
  destruct (audit_conserves 1 1 sample_bundle r sample_bundle_witness) as [Ha|Hc];
    [done|done|done|done|exact V|exact sample_bundle_witnessed|exact Ha|no_collision Hc].
Defined.

(** The two spent segments hold one allocation, counted twice. *)
Lemma audit_complete_witness :
  (∃ (b : AllocationAuditBundle 1 1) r,
     verify_allocation_audit_bundle b = Ok r ∧ bundle_proved b ∧
     aar_spent_final_root r = transcript_root Spent (aar_spent_total_count r)
       [[sample_allocation 11 0 60]; [sample_allocation 11 0 60]]).
Proof.
  destruct (audit_complete 1 1 sample_chain [[sample_allocation 11 0 60]; [sample_allocation 11 0 60]]
    [[sample_allocation 13 0 120]]) as [(b & r & V & P & R & _)|[Hz|Hc]];
    [| |by vm_compute| |by vm_compute|exists b, r; exact (conj V (conj P R))
    |no_collision Hz|no_collision Hc].
  - constructor; [done|done| | |by vm_compute|by vm_compute].
    + apply (bool_decide_unpack _). by vm_compute.
    + constructor; [constructor; by vm_compute|]. constructor; [constructor; by vm_compute|constructor].
  - constructor; [done|done| | |by vm_compute|by vm_compute].
    + apply (bool_decide_unpack _). by vm_compute.
    + constructor; [constructor; by vm_compute|constructor].
  - intros a b Ha Hb. cbn in Ha, Hb. rewrite list_elem_of_singleton in Hb. subst b.
    rewrite !elem_of_cons in Ha. destruct Ha as [-> | [-> | Ha%elem_of_nil] ]; [by vm_compute..|done].
Defined.
