(* ===== verification/ZkStack.v ===== *)
(** The stack of the Groth16 precompile, the proof library behind it, and the
    circuits chosen by the shape of an allocation transition, of
    src/crates/rgk-zk/src/real_zk.rs.

    The library is a class: [Groth16Library] names what the source calls,
    [Groth16Laws] says that what it serialises it reads back.  Its errors are
    the texts the source displays. *)

From stdpp Require Import base list strings vector.
From Stdlib Require Import ZArith Lia Strings.Byte.
From S2P Require Import Prelude.
From S2P Require Import Bytes.
From S2P Require Import Encoding.
From S2P Require Import Types.
From S2P Require Import Commit.
From S2P Require Import Hex.
From S2P Require Import AssetTypes.
From S2P Require Import AssetRules.
From S2P Require Import Asset.
From S2P Require Import Zk.
From S2P Require Import ZkGadgets.
From S2P Require Import ZkCircuits.
From S2P Require Import ZkLane.
From S2P Require Import ZkAudit.

Open Scope string_scope.
Open Scope list_scope.

(** * The library *)

Class Groth16Library {G : Gadgets} := {
  Rng : Type;
  rng_from_seed : Bytes32 → Rng;
  ProvingKey : Type;
  VerifyingKey : Type;
  Groth16Proof : Type;
  circuit_specific_setup : synth unit → Rng → result string (ProvingKey * VerifyingKey);
  library_prove : ProvingKey → synth unit → Rng → result string Groth16Proof;
  library_verify : VerifyingKey → list Fr → Groth16Proof → result string bool;
  vk_serialize_compressed : VerifyingKey → result string (list byte);
  vk_deserialize_compressed : list byte → result string VerifyingKey;
  proof_serialize_compressed : Groth16Proof → result string (list byte);
  proof_deserialize_compressed : list byte → result string Groth16Proof;
  fr_serialize_uncompressed : Fr → result string (list byte);
  fr_deserialize_uncompressed : list byte → result string Fr
}.

Class Groth16Laws `{Groth16Library} := {
  (** A field element takes 32 bytes, and serialising into a vector succeeds. *)
  fr_serialized f : ∃ b, fr_serialize_uncompressed f = Ok b ∧ length b = 32 ∧
    fr_deserialize_uncompressed b = Ok f;
  vk_serialized vk : ∃ b, vk_serialize_compressed vk = Ok b ∧ vk_deserialize_compressed b = Ok vk;
  proof_serialized p :
    ∃ b, proof_serialize_compressed p = Ok b ∧ proof_deserialize_compressed b = Ok p
}.

Definition ZK_TAG_GROTH16 : u8 := x20.

Record Groth16PrecompileStack := {
  gps_tag : u8;
  gps_verifying_key : list byte;
  gps_proof : list byte;
  gps_public_inputs : list (list byte)
}.

#[export] Instance Groth16PrecompileStack_eq_dec : EqDecision Groth16PrecompileStack.
Proof. solve_decision. Defined.

Definition public_input_count (self : Groth16PrecompileStack) : nat :=
  length (gps_public_inputs self).

(** * Shapes of allocation circuits *)

Inductive AllocationCircuitShape : Type :=
| ACS_OneInZeroOut | ACS_OneInOneOut | ACS_TwoInTwoOut | ACS_ThreeInTwoOut | ACS_FourInTwoOut
| ACS_FourInFourOut.

#[export] Instance AllocationCircuitShape_eq_dec : EqDecision AllocationCircuitShape.
Proof. solve_decision. Defined.

Definition SUPPORTED_ALLOCATION_CIRCUIT_SHAPES : list AllocationCircuitShape :=
  [ ACS_OneInZeroOut; ACS_OneInOneOut; ACS_TwoInTwoOut; ACS_ThreeInTwoOut; ACS_FourInTwoOut;
    ACS_FourInFourOut ].

Inductive ProductionAllocationProofStrategy : Type := BoundedSupportedShapes.

Definition DEFAULT_ALLOCATION_PROOF_STRATEGY : ProductionAllocationProofStrategy :=
  BoundedSupportedShapes.
Definition DEFAULT_ALLOCATION_MAX_SPENT : nat := ZK_MAX_SPENT.
Definition DEFAULT_ALLOCATION_MAX_NEW : nat := ZK_MAX_NEW.

Record ProductionAllocationProofPlan := {
  app_strategy : ProductionAllocationProofStrategy;
  app_shape : AllocationCircuitShape
}.

Definition proof_strategy_label (self : ProductionAllocationProofStrategy) : string :=
  match self with BoundedSupportedShapes => "bounded-supported-shapes" end.

Definition max_spent_count (self : ProductionAllocationProofStrategy) : nat :=
  match self with BoundedSupportedShapes => DEFAULT_ALLOCATION_MAX_SPENT end.

Definition max_new_count (self : ProductionAllocationProofStrategy) : nat :=
  match self with BoundedSupportedShapes => DEFAULT_ALLOCATION_MAX_NEW end.

Definition from_native (shape : RgkAllocationProofShape) : AllocationCircuitShape :=
  match shape with
  | OneInZeroOut => ACS_OneInZeroOut
  | OneInOneOut => ACS_OneInOneOut
  | TwoInTwoOut => ACS_TwoInTwoOut
  | ThreeInTwoOut => ACS_ThreeInTwoOut
  | FourInTwoOut => ACS_FourInTwoOut
  | FourInFourOut => ACS_FourInFourOut
  end.

Definition native_shape (self : AllocationCircuitShape) : RgkAllocationProofShape :=
  match self with
  | ACS_OneInZeroOut => OneInZeroOut
  | ACS_OneInOneOut => OneInOneOut
  | ACS_TwoInTwoOut => TwoInTwoOut
  | ACS_ThreeInTwoOut => ThreeInTwoOut
  | ACS_FourInTwoOut => FourInTwoOut
  | ACS_FourInFourOut => FourInFourOut
  end.

Definition circuit_spent_count (self : AllocationCircuitShape) : nat :=
  match self with
  | ACS_OneInZeroOut => 1
  | ACS_OneInOneOut => 1
  | ACS_TwoInTwoOut => 2
  | ACS_ThreeInTwoOut => 3
  | ACS_FourInTwoOut => 4
  | ACS_FourInFourOut => 4
  end.

Definition circuit_new_count (self : AllocationCircuitShape) : nat :=
  match self with
  | ACS_OneInZeroOut => 0
  | ACS_OneInOneOut => 1
  | ACS_TwoInTwoOut | ACS_ThreeInTwoOut | ACS_FourInTwoOut => 2
  | ACS_FourInFourOut => 4
  end.

Definition circuit_label (self : AllocationCircuitShape) : string :=
  match self with
  | ACS_OneInZeroOut => "1x0"
  | ACS_OneInOneOut => "1x1"
  | ACS_TwoInTwoOut => "2x2"
  | ACS_ThreeInTwoOut => "3x2"
  | ACS_FourInTwoOut => "4x2"
  | ACS_FourInFourOut => "4x4"
  end.

(** The only error of [RgkAllocationProofShape::require_counts], displayed, and
    the advice that follows it. *)
Definition unsupported_counts (self : ProductionAllocationProofStrategy) (spent new : nat) : string :=
  ("RGK production ZK allocation proof shape " ++ usize_display (Z.of_nat spent) ++ "x" ++
   usize_display (Z.of_nat new) ++
   " is unsupported; supported shapes are 1x0, 1x1, 2x2, 3x2, 4x2, 4x4; outside RGK production ZK strategy " ++
   proof_strategy_label self ++
   "; keep each full-state intermediate transition inside supported shapes, or use a future recursive/aggregated allocation proof strategy before requesting an allocation proof")%string.

Definition plan_counts (self : ProductionAllocationProofStrategy) (spent_count new_count : nat)
  : sresult ProductionAllocationProofPlan :=
  map_err (λ _, unsupported_counts self spent_count new_count)
    (native ← require_counts spent_count new_count;
     Ok {| app_strategy := self; app_shape := from_native native |}).

(** [statement.spent_allocation_count as usize] *)
Definition statement_counts (statement : SemanticTransitionStatement) : nat * nat :=
  (Z.to_nat (uval (ss_spent_allocation_count statement)),
   Z.to_nat (uval (ss_new_allocation_count statement))).

Definition plan_statement (self : ProductionAllocationProofStrategy)
    (statement : SemanticTransitionStatement) : sresult ProductionAllocationProofPlan :=
  let '(spent, new) := statement_counts statement in
  plan_counts self spent new.

Definition circuit_from_counts (spent_count new_count : nat) : option AllocationCircuitShape :=
  from_native <$> from_counts spent_count new_count.

Definition circuit_from_statement (statement : SemanticTransitionStatement)
  : option AllocationCircuitShape :=
  let '(spent, new) := statement_counts statement in
  circuit_from_counts spent new.

Definition circuit_require_counts (spent_count new_count : nat) : sresult AllocationCircuitShape :=
  plan ← plan_counts DEFAULT_ALLOCATION_PROOF_STRATEGY spent_count new_count;
  Ok (app_shape plan).

Definition circuit_require_statement (statement : SemanticTransitionStatement)
  : sresult AllocationCircuitShape :=
  plan ← plan_statement DEFAULT_ALLOCATION_PROOF_STRATEGY statement;
  Ok (app_shape plan).

(** * The supported witnesses and circuits *)

Inductive SupportedAllocationVectorWitness : Type :=
| SW_OneInZeroOut (witness : OneInZeroOutAllocationWitness)
| SW_OneInOneOut (witness : OneInOneOutAllocationWitness)
| SW_TwoInTwoOut (witness : TwoInTwoOutAllocationWitness)
| SW_ThreeInTwoOut (witness : FixedAllocationVectorWitness 3 2)
| SW_FourInTwoOut (witness : FixedAllocationVectorWitness 4 2)
| SW_FourInFourOut (witness : FixedAllocationVectorWitness 4 4).

Definition witness_shape (self : SupportedAllocationVectorWitness) : AllocationCircuitShape :=
  match self with
  | SW_OneInZeroOut _ => ACS_OneInZeroOut
  | SW_OneInOneOut _ => ACS_OneInOneOut
  | SW_TwoInTwoOut _ => ACS_TwoInTwoOut
  | SW_ThreeInTwoOut _ => ACS_ThreeInTwoOut
  | SW_FourInTwoOut _ => ACS_FourInTwoOut
  | SW_FourInFourOut _ => ACS_FourInFourOut
  end.

Definition terminal_burn_from_allocation (spent : RgkAllocation) (transition_witness_txid : Bytes32)
  : sresult SupportedAllocationVectorWitness :=
  witness ← one_in_zero_out_from_allocation spent transition_witness_txid;
  Ok (SW_OneInZeroOut witness).

(** The slices have the counts of the shape, so the last case, in which an
    index would be out of bounds, is not reached. *)
Definition supported_from_allocations (spent new : list RgkAllocation)
  : sresult SupportedAllocationVectorWitness :=
  shape ← circuit_require_counts (length spent) (length new);
  match shape, spent, new with
  | ACS_OneInZeroOut, _, _ =>
      Err "terminal 1x0 burn witnesses require an explicit transition witness txid"
  | ACS_OneInOneOut, [s0], [n0] =>
      witness ← one_in_one_out_from_allocations s0 n0; Ok (SW_OneInOneOut witness)
  | ACS_TwoInTwoOut, [s0; s1], [n0; n1] =>
      witness ← two_in_two_out_from_allocations [# s0; s1] [# n0; n1]; Ok (SW_TwoInTwoOut witness)
  | ACS_ThreeInTwoOut, [s0; s1; s2], [n0; n1] =>
      witness ← fixed_vector_from_allocations [# s0; s1; s2] [# n0; n1];
      Ok (SW_ThreeInTwoOut witness)
  | ACS_FourInTwoOut, [s0; s1; s2; s3], [n0; n1] =>
      witness ← fixed_vector_from_allocations [# s0; s1; s2; s3] [# n0; n1];
      Ok (SW_FourInTwoOut witness)
  | ACS_FourInFourOut, [s0; s1; s2; s3], [n0; n1; n2; n3] =>
      witness ← fixed_vector_from_allocations [# s0; s1; s2; s3] [# n0; n1; n2; n3];
      Ok (SW_FourInFourOut witness)
  | _, _, _ => Err "index out of bounds"
  end.

Inductive SupportedAllocationVectorCircuit : Type :=
| SC_OneInZeroOut (circuit : OneInZeroOutAllocationCircuit)
| SC_OneInOneOut (circuit : OneInOneOutAllocationCircuit)
| SC_TwoInTwoOut (circuit : TwoInTwoOutAllocationCircuit)
| SC_ThreeInTwoOut (circuit : FixedAllocationVectorCircuit 3 2)
| SC_FourInTwoOut (circuit : FixedAllocationVectorCircuit 4 2)
| SC_FourInFourOut (circuit : FixedAllocationVectorCircuit 4 4).

Definition supported_circuit (statement : SemanticTransitionStatement)
    (witness : SupportedAllocationVectorWitness) : sresult SupportedAllocationVectorCircuit :=
  statement_shape ← circuit_require_statement statement;
  _ ← fail_if (statement_shape ≠ witness_shape witness)
        ("allocation witness shape " ++ circuit_label (witness_shape witness) ++
         " does not match statement shape " ++ circuit_label statement_shape)%string;
  match witness with
  | SW_OneInZeroOut w => circuit ← allocation_circuit statement w; Ok (SC_OneInZeroOut circuit)
  | SW_OneInOneOut w => circuit ← allocation_circuit statement w; Ok (SC_OneInOneOut circuit)
  | SW_TwoInTwoOut w => circuit ← allocation_circuit statement w; Ok (SC_TwoInTwoOut circuit)
  | SW_ThreeInTwoOut w => circuit ← fixed_vector_circuit statement w; Ok (SC_ThreeInTwoOut circuit)
  | SW_FourInTwoOut w => circuit ← fixed_vector_circuit statement w; Ok (SC_FourInTwoOut circuit)
  | SW_FourInFourOut w => circuit ← fixed_vector_circuit statement w; Ok (SC_FourInFourOut circuit)
  end.

Definition circuit_shape (self : SupportedAllocationVectorCircuit) : AllocationCircuitShape :=
  match self with
  | SC_OneInZeroOut _ => ACS_OneInZeroOut
  | SC_OneInOneOut _ => ACS_OneInOneOut
  | SC_TwoInTwoOut _ => ACS_TwoInTwoOut
  | SC_ThreeInTwoOut _ => ACS_ThreeInTwoOut
  | SC_FourInTwoOut _ => ACS_FourInTwoOut
  | SC_FourInFourOut _ => ACS_FourInFourOut
  end.

Definition circuit_public_inputs (self : SupportedAllocationVectorCircuit) : list byte :=
  match self with
  | SC_OneInZeroOut circuit => ac_public_inputs circuit
  | SC_OneInOneOut circuit => ac_public_inputs circuit
  | SC_TwoInTwoOut circuit => ac_public_inputs circuit
  | SC_ThreeInTwoOut circuit => ac_public_inputs circuit
  | SC_FourInTwoOut circuit => ac_public_inputs circuit
  | SC_FourInFourOut circuit => ac_public_inputs circuit
  end.

(** * Public inputs as field elements *)

Section stack.
Context `{Groth16Library}.

Definition public_inputs_as_fr (public_inputs : list byte) : list Fr :=
  (λ chunk, from_le_bytes_mod_order (to_array 32 chunk)) <$> chunks8 public_inputs.

Definition semantic_public_inputs_as_fr := public_inputs_as_fr.
Definition lane_discovery_public_inputs_as_fr := public_inputs_as_fr.
Definition lane_graph_discovery_public_inputs_as_fr := public_inputs_as_fr.
Definition lane_graph_segment_public_inputs_as_fr := public_inputs_as_fr.
Definition allocation_transcript_segment_public_inputs_as_fr := public_inputs_as_fr.
Definition allocation_conservation_segment_public_inputs_as_fr := public_inputs_as_fr.
Definition allocation_conservation_final_public_inputs_as_fr := public_inputs_as_fr.
Definition allocation_exclusion_segment_pair_public_inputs_as_fr := public_inputs_as_fr.

(** [&public_inputs[136..168]] panics ([None]) when it is out of bounds. *)
Definition receipt_id_public_inputs_as_fr (public_inputs : list byte) : option (list Fr) :=
  public_inputs_as_fr <$> get_slice public_inputs 136 168.

Definition serialize_fr (fr : Fr) : sresult (list byte) :=
  bytes ← map_err (λ e, "serialize public input: " ++ e)%string (fr_serialize_uncompressed fr);
  _ ← fail_if (length bytes ≠ 32)
        ("expected 32-byte BN254 Fr serialization, got " ++
         usize_display (Z.of_nat (length bytes)))%string;
  Ok bytes.

Definition public_inputs_as_uncompressed_fr_bytes_with_len (public_inputs : list byte)
    (expected_len : nat) : sresult (list (list byte)) :=
  _ ← fail_if (length public_inputs ≠ expected_len)
        ("expected " ++ usize_display (Z.of_nat expected_len) ++ " public-input bytes, got " ++
         usize_display (Z.of_nat (length public_inputs)))%string;
  mapM serialize_fr (public_inputs_as_fr public_inputs).

(** The two checks of the lane-graph inputs; [what] and [first] name the
    statement and its first part. *)
Definition validate_public_nodes (what first : string) (prefix len : nat) : sresult nat :=
  _ ← fail_if (len <= prefix)%nat
        ("expected " ++ what ++ " public inputs with at least one node, got " ++
         usize_display (Z.of_nat len) ++ " bytes")%string;
  let node_bytes := len - prefix in
  _ ← fail_if (node_bytes mod LANE_DISCOVERY_PUBLIC_INPUT_LEN ≠ 0)%nat
        ("expected " ++ what ++ " public-input bytes after the " ++ first ++
         " to be a multiple of " ++
         usize_display (Z.of_nat LANE_DISCOVERY_PUBLIC_INPUT_LEN) ++ ", got " ++
         usize_display (Z.of_nat node_bytes))%string;
  let nodes := (node_bytes / LANE_DISCOVERY_PUBLIC_INPUT_LEN)%nat in
  _ ← fail_if (nodes = 0)%nat
        (what ++ " public inputs must contain at least one node")%string;
  Ok nodes.

Definition validate_lane_graph_discovery_public_input_len : nat → sresult nat :=
  validate_public_nodes "lane graph" "root" LANE_GRAPH_DISCOVERY_ROOT_LEN.

Definition validate_lane_graph_segment_public_input_len : nat → sresult nat :=
  validate_public_nodes "lane graph segment" "prefix" LANE_GRAPH_SEGMENT_PREFIX_LEN.

Definition public_inputs_as_uncompressed_fr_bytes (p : list byte) : sresult (list (list byte)) :=
  public_inputs_as_uncompressed_fr_bytes_with_len p PUBLIC_INPUT_LEN.

Definition semantic_public_inputs_as_uncompressed_fr_bytes (p : list byte)
  : sresult (list (list byte)) :=
  public_inputs_as_uncompressed_fr_bytes_with_len p SEMANTIC_PUBLIC_INPUT_LEN.

Definition lane_discovery_public_inputs_as_uncompressed_fr_bytes (p : list byte)
  : sresult (list (list byte)) :=
  public_inputs_as_uncompressed_fr_bytes_with_len p LANE_DISCOVERY_PUBLIC_INPUT_LEN.

Definition lane_graph_discovery_public_inputs_as_uncompressed_fr_bytes (p : list byte)
  : sresult (list (list byte)) :=
  _ ← validate_lane_graph_discovery_public_input_len (length p);
  public_inputs_as_uncompressed_fr_bytes_with_len p (length p).

Definition lane_graph_segment_public_inputs_as_uncompressed_fr_bytes (p : list byte)
  : sresult (list (list byte)) :=
  _ ← validate_lane_graph_segment_public_input_len (length p);
  public_inputs_as_uncompressed_fr_bytes_with_len p (length p).

Definition transcript_public_inputs_as_uncompressed_fr_bytes (p : list byte)
  : sresult (list (list byte)) :=
  public_inputs_as_uncompressed_fr_bytes_with_len p ALLOCATION_TRANSCRIPT_SEGMENT_PUBLIC_INPUT_LEN.

Definition conservation_public_inputs_as_uncompressed_fr_bytes (p : list byte)
  : sresult (list (list byte)) :=
  public_inputs_as_uncompressed_fr_bytes_with_len p
    ALLOCATION_CONSERVATION_SEGMENT_PUBLIC_INPUT_LEN.

Definition final_public_inputs_as_uncompressed_fr_bytes (p : list byte)
  : sresult (list (list byte)) :=
  public_inputs_as_uncompressed_fr_bytes_with_len p ALLOCATION_CONSERVATION_FINAL_PUBLIC_INPUT_LEN.

Definition exclusion_public_inputs_as_uncompressed_fr_bytes (p : list byte)
  : sresult (list (list byte)) :=
  public_inputs_as_uncompressed_fr_bytes_with_len p
    ALLOCATION_EXCLUSION_SEGMENT_PAIR_PUBLIC_INPUT_LEN.

(** * Stacks *)

Definition serialize_verifying_key_for_precompile (vk : VerifyingKey) : sresult (list byte) :=
  map_err (λ e, "serialize verifying key: " ++ e)%string (vk_serialize_compressed vk).

Definition serialize_proof_for_precompile (proof : Groth16Proof) : sresult (list byte) :=
  map_err (λ e, "serialize proof: " ++ e)%string (proof_serialize_compressed proof).

(** The body the stack builders share; [items] reads the public inputs. *)
Definition precompile_stack (items : list byte → sresult (list (list byte))) (vk : VerifyingKey)
    (proof : Groth16Proof) (public_inputs : list byte) : sresult Groth16PrecompileStack :=
  verifying_key ← serialize_verifying_key_for_precompile vk;
  proof ← serialize_proof_for_precompile proof;
  public_inputs ← items public_inputs;
  Ok {| gps_tag := ZK_TAG_GROTH16; gps_verifying_key := verifying_key; gps_proof := proof;
        gps_public_inputs := public_inputs |}.

Definition groth16_precompile_stack := precompile_stack public_inputs_as_uncompressed_fr_bytes.
Definition semantic_groth16_precompile_stack :=
  precompile_stack semantic_public_inputs_as_uncompressed_fr_bytes.
Definition lane_discovery_groth16_precompile_stack :=
  precompile_stack lane_discovery_public_inputs_as_uncompressed_fr_bytes.
Definition lane_graph_discovery_groth16_precompile_stack :=
  precompile_stack lane_graph_discovery_public_inputs_as_uncompressed_fr_bytes.
Definition lane_graph_segment_groth16_precompile_stack :=
  precompile_stack lane_graph_segment_public_inputs_as_uncompressed_fr_bytes.
Definition transcript_groth16_precompile_stack :=
  precompile_stack transcript_public_inputs_as_uncompressed_fr_bytes.
Definition conservation_groth16_precompile_stack :=
  precompile_stack conservation_public_inputs_as_uncompressed_fr_bytes.
Definition final_groth16_precompile_stack :=
  precompile_stack final_public_inputs_as_uncompressed_fr_bytes.
Definition exclusion_groth16_precompile_stack :=
  precompile_stack exclusion_public_inputs_as_uncompressed_fr_bytes.

Definition allocation_1x1_groth16_precompile_stack := semantic_groth16_precompile_stack.
Definition allocation_2x2_groth16_precompile_stack := semantic_groth16_precompile_stack.
Definition allocation_fixed_groth16_precompile_stack := semantic_groth16_precompile_stack.

Definition supported_allocation_groth16_precompile_stack (vk : VerifyingKey) (proof : Groth16Proof)
    (circuit : SupportedAllocationVectorCircuit) : sresult Groth16PrecompileStack :=
  semantic_groth16_precompile_stack vk proof (circuit_public_inputs circuit).

Definition encode_proof_for_precompile (proof : Groth16Proof) : sresult (list byte) :=
  bytes ← serialize_proof_for_precompile proof;
  Ok (ZK_TAG_GROTH16 :: bytes).

(** * Keys and proofs *)

Record Groth16Setup := {
  g16_pk : ProvingKey;
  g16_vk : VerifyingKey
}.

(** The seed: "RGK-ZK-v0.1.0001", twice. *)
Definition deterministic_rng : Rng :=
  rng_from_seed (to_array 32
    [x52; x47; x4b; x2d; x5a; x4b; x2d; x76; x30; x2e; x31; x2e; x30; x30; x30; x31;
     x52; x47; x4b; x2d; x5a; x4b; x2d; x76; x30; x2e; x31; x2e; x30; x30; x30; x31]).

Definition setup_for (circuit : synth unit) : sresult Groth16Setup :=
  p ← map_err (λ e, "setup failed: " ++ e)%string (circuit_specific_setup circuit deterministic_rng);
  Ok {| g16_pk := p.1; g16_vk := p.2 |}.

Definition prove_for (pk : ProvingKey) (circuit : synth unit) : sresult Groth16Proof :=
  map_err (λ e, "prove: " ++ e)%string (library_prove pk circuit deterministic_rng).

Definition verify (vk : VerifyingKey) (public_inputs : list Fr) (proof : Groth16Proof)
  : sresult bool :=
  map_err (λ e, "verify: " ++ e)%string (library_verify vk public_inputs proof).

(** The wrappers, one per circuit: a circuit is what it generates. *)
Definition setup (circuit : ReceiptCircuit) : sresult Groth16Setup :=
  setup_for (receipt_generate_constraints circuit).
Definition setup_semantic (circuit : SemanticTransitionCircuit) : sresult Groth16Setup :=
  setup_for (semantic_generate_constraints circuit).
Definition setup_lane_discovery (circuit : LaneCircuit) : sresult Groth16Setup :=
  setup_for (lane_generate_constraints circuit).
Definition setup_lane_graph_discovery (LANES : nat) (circuit : LaneCircuit)
  : sresult Groth16Setup :=
  setup_for (lane_graph_generate_constraints LANES circuit).
Definition setup_lane_graph_segment (LANES : nat) (circuit : LaneCircuit) : sresult Groth16Setup :=
  setup_for (lane_segment_generate_constraints LANES circuit).
Definition setup_allocation_transcript_segment {ALLOCS}
    (circuit : AuditCircuit (AllocationTranscriptSegmentWitness ALLOCS)) : sresult Groth16Setup :=
  setup_for (transcript_generate_constraints circuit).
Definition setup_allocation_conservation_segment {ALLOCS}
    (circuit : AuditCircuit (AllocationConservationSegmentWitness ALLOCS)) : sresult Groth16Setup :=
  setup_for (conservation_generate_constraints circuit).
Definition setup_allocation_conservation_final
    (circuit : AuditCircuit AllocationConservationFinalWitness) : sresult Groth16Setup :=
  setup_for (final_generate_constraints circuit).
Definition setup_allocation_exclusion_segment_pair {SPENT NEW}
    (circuit : AuditCircuit (AllocationExclusionSegmentPairWitness SPENT NEW)) : sresult Groth16Setup :=
  setup_for (exclusion_generate_constraints circuit).
Definition setup_allocation_1x1 (circuit : OneInOneOutAllocationCircuit) : sresult Groth16Setup :=
  setup_for (one_in_one_out_generate_constraints circuit).
Definition setup_allocation_1x0 (circuit : OneInZeroOutAllocationCircuit) : sresult Groth16Setup :=
  setup_for (one_in_zero_out_generate_constraints circuit).
Definition setup_allocation_2x2 (circuit : TwoInTwoOutAllocationCircuit) : sresult Groth16Setup :=
  setup_for (two_in_two_out_generate_constraints circuit).
Definition setup_allocation_fixed {SPENT NEW} (circuit : FixedAllocationVectorCircuit SPENT NEW)
  : sresult Groth16Setup :=
  setup_for (fixed_vector_generate_constraints circuit).

Definition prove (pk : ProvingKey) (circuit : ReceiptCircuit) : sresult Groth16Proof :=
  prove_for pk (receipt_generate_constraints circuit).
Definition prove_semantic (pk : ProvingKey)
  (circuit : SemanticTransitionCircuit) : sresult Groth16Proof :=
  prove_for pk (semantic_generate_constraints circuit).
Definition prove_lane_discovery (pk : ProvingKey) (circuit : LaneCircuit) : sresult Groth16Proof :=
  prove_for pk (lane_generate_constraints circuit).
Definition prove_lane_graph_discovery (LANES : nat) (pk : ProvingKey)
  (circuit : LaneCircuit) : sresult Groth16Proof :=
  prove_for pk (lane_graph_generate_constraints LANES circuit).
Definition prove_lane_graph_segment (LANES : nat) (pk : ProvingKey)
  (circuit : LaneCircuit) : sresult Groth16Proof :=
  prove_for pk (lane_segment_generate_constraints LANES circuit).
Definition prove_allocation_transcript_segment {ALLOCS} (pk : ProvingKey)
  (circuit : AuditCircuit (AllocationTranscriptSegmentWitness ALLOCS)) : sresult Groth16Proof :=
  prove_for pk (transcript_generate_constraints circuit).
Definition prove_allocation_conservation_segment {ALLOCS} (pk : ProvingKey)
  (circuit : AuditCircuit (AllocationConservationSegmentWitness ALLOCS)) : sresult Groth16Proof :=
  prove_for pk (conservation_generate_constraints circuit).
Definition prove_allocation_conservation_final (pk : ProvingKey)
  (circuit : AuditCircuit AllocationConservationFinalWitness) : sresult Groth16Proof :=
  prove_for pk (final_generate_constraints circuit).
Definition prove_allocation_exclusion_segment_pair {SPENT NEW} (pk : ProvingKey)
  (circuit : AuditCircuit (AllocationExclusionSegmentPairWitness SPENT NEW)) : sresult Groth16Proof :=
  prove_for pk (exclusion_generate_constraints circuit).
Definition prove_allocation_1x1 (pk : ProvingKey)
  (circuit : OneInOneOutAllocationCircuit) : sresult Groth16Proof :=
  prove_for pk (one_in_one_out_generate_constraints circuit).
Definition prove_allocation_1x0 (pk : ProvingKey)
  (circuit : OneInZeroOutAllocationCircuit) : sresult Groth16Proof :=
  prove_for pk (one_in_zero_out_generate_constraints circuit).
Definition prove_allocation_2x2 (pk : ProvingKey)
  (circuit : TwoInTwoOutAllocationCircuit) : sresult Groth16Proof :=
  prove_for pk (two_in_two_out_generate_constraints circuit).
Definition prove_allocation_fixed {SPENT NEW} (pk : ProvingKey)
  (circuit : FixedAllocationVectorCircuit SPENT NEW) : sresult Groth16Proof :=
  prove_for pk (fixed_vector_generate_constraints circuit).

Definition setup_supported_allocation (circuit : SupportedAllocationVectorCircuit)
  : sresult Groth16Setup :=
  match circuit with
  | SC_OneInZeroOut circuit => setup_allocation_1x0 circuit
  | SC_OneInOneOut circuit => setup_allocation_1x1 circuit
  | SC_TwoInTwoOut circuit => setup_allocation_2x2 circuit
  | SC_ThreeInTwoOut circuit => setup_allocation_fixed circuit
  | SC_FourInTwoOut circuit => setup_allocation_fixed circuit
  | SC_FourInFourOut circuit => setup_allocation_fixed circuit
  end.

Definition prove_supported_allocation (pk : ProvingKey) (circuit : SupportedAllocationVectorCircuit)
  : sresult Groth16Proof :=
  match circuit with
  | SC_OneInZeroOut circuit => prove_allocation_1x0 pk circuit
  | SC_OneInOneOut circuit => prove_allocation_1x1 pk circuit
  | SC_TwoInTwoOut circuit => prove_allocation_2x2 pk circuit
  | SC_ThreeInTwoOut circuit => prove_allocation_fixed pk circuit
  | SC_FourInTwoOut circuit => prove_allocation_fixed pk circuit
  | SC_FourInFourOut circuit => prove_allocation_fixed pk circuit
  end.
End stack.
