(* ===== verification/ZkCertificate.v ===== *)
(** Certificates of the segmented allocation audit
    (src/crates/rgk-zk/src/real_zk.rs): their entries, their canonical bytes,
    how they are built from a bundle and its proofs, and the two verifiers: one
    against a bundle, one that rebuilds the bundle from the entries.

    A function that writes and can fail is a function of the [Writer] to a
    result. *)

From stdpp Require Import base list strings.
From Stdlib Require Import ZArith Lia Strings.Byte.
From S2P Require Import Prelude.
From S2P Require Import Bytes.
From S2P Require Import Encoding.
From S2P Require Import Types.
From S2P Require Import Records.
From S2P Require Import Commit.
From S2P Require Import Hex.
From S2P Require Import AssetTypes.
From S2P Require Import AssetRules.
From S2P Require Import Lane.
From S2P Require Import ZkGadgets.
From S2P Require Import ZkCircuits.
From S2P Require Import ZkAudit.
From S2P Require Import ZkStack.

Open Scope string_scope.
Open Scope list_scope.

(** [b"rgk:aac1"] *)
Definition ALLOCATION_AUDIT_CERTIFICATE_MAGIC : bytes 8 :=
  to_array 8 [x72; x67; x6b; x3a; x61; x61; x63; x31].
Definition MAX_ALLOCATION_AUDIT_CERTIFICATE_PROOF_ENTRIES : nat := Z.to_nat 16384.
Definition MAX_ALLOCATION_AUDIT_STACK_PUBLIC_INPUTS : nat := Z.to_nat 8192.

(** * Data *)

Inductive AllocationAuditProofKind : Type :=
| SpentTranscriptSegment | NewTranscriptSegment | SpentConservationSegment
| NewConservationSegment | ConservationFinal | ExclusionSegmentPair.

#[export] Instance AllocationAuditProofKind_eq_dec : EqDecision AllocationAuditProofKind.
Proof. solve_decision. Defined.

Definition kind_as_u8 (self : AllocationAuditProofKind) : u8 :=
  match self with
  | SpentTranscriptSegment => x00
  | NewTranscriptSegment => x01
  | SpentConservationSegment => x02
  | NewConservationSegment => x03
  | ConservationFinal => x04
  | ExclusionSegmentPair => x05
  end.

Definition kind_from_u8 (value : u8) : option AllocationAuditProofKind :=
  match value with
  | x00 => Some SpentTranscriptSegment
  | x01 => Some NewTranscriptSegment
  | x02 => Some SpentConservationSegment
  | x03 => Some NewConservationSegment
  | x04 => Some ConservationFinal
  | x05 => Some ExclusionSegmentPair
  | _ => None
  end.

Definition kind_label (self : AllocationAuditProofKind) : string :=
  match self with
  | SpentTranscriptSegment => "spent transcript segment"
  | NewTranscriptSegment => "new transcript segment"
  | SpentConservationSegment => "spent conservation segment"
  | NewConservationSegment => "new conservation segment"
  | ConservationFinal => "conservation final"
  | ExclusionSegmentPair => "exclusion segment pair"
  end.

Record AllocationAuditProofEntry := {
  ape_kind : AllocationAuditProofKind;
  ape_spent_segment_index : option u64;
  ape_new_segment_index : option u64;
  ape_public_inputs : list byte;
  ape_stack : Groth16PrecompileStack
}.

#[export] Instance AllocationAuditBundleReport_eq_dec : EqDecision AllocationAuditBundleReport.
Proof. solve_decision. Defined.

Record AllocationAuditCertificate := {
  aac_certificate_id : Bytes32;
  aac_report : AllocationAuditBundleReport;
  aac_proofs : list AllocationAuditProofEntry
}.

Definition proof_entry_count (self : AllocationAuditCertificate) : nat := length (aac_proofs self).

Definition total_verifying_key_bytes (self : AllocationAuditCertificate) : nat :=
  sum_list ((λ proof, length (gps_verifying_key (ape_stack proof))) <$> aac_proofs self).

Definition total_proof_bytes (self : AllocationAuditCertificate) : nat :=
  sum_list ((λ proof, length (gps_proof (ape_stack proof))) <$> aac_proofs self).

Record AllocationAuditBundleStacks := {
  abs_spent_transcripts : list Groth16PrecompileStack;
  abs_new_transcripts : list Groth16PrecompileStack;
  abs_spent_conservation : list Groth16PrecompileStack;
  abs_new_conservation : list Groth16PrecompileStack;
  abs_final_conservation : Groth16PrecompileStack;
  abs_exclusions : list Groth16PrecompileStack
}.

(** * Writing *)

Definition certificate_decode_err (e : DecodeError) : string :=
  ("allocation audit certificate decode: " ++ decode_error_display e)%string.

Definition certificate_limit (label : string) (value max : Z) : string :=
  (label ++ " count " ++ usize_display value ++
   " exceeds the allocation audit certificate limit " ++ usize_display max)%string.

Definition write_certificate_len (label : string) (value max : nat) (w : Writer) : sresult Writer :=
  _ ← fail_if (max < value)%nat (certificate_limit label (Z.of_nat value) (Z.of_nat max));
  _ ← fail_if (2 ^ 32 - 1 < Z.of_nat value)%Z (label ++ " count exceeds u32")%string;
  Ok (write_u32 (wrap 32 (Z.of_nat value)) w).

Definition write_certificate_blob (label : string) (bytes : list byte) (w : Writer)
  : sresult Writer :=
  _ ← fail_if (uval MAX_BLOB_BYTES < Z.of_nat (length bytes))%Z
        (label ++ " length " ++ usize_display (Z.of_nat (length bytes)) ++
         " exceeds the allocation audit certificate blob limit " ++
         usize_display MAX_BLOB_BYTES)%string;
  Ok (write_blob bytes w).

Definition write_usize_as_u64 (label : string) (value : usize) (w : Writer) : sresult Writer :=
  _ ← fail_if (usize_MAX < uval value)%Z
        ("allocation audit certificate " ++ label ++ " exceeds u64")%string;
  Ok (write_u64 value w).

Definition write_optional_u64 (value : option u64) : Writer → Writer :=
  match value with
  | Some value => write_u8 x01 ▷ write_u64 value
  | None => write_u8 x00 ▷ write_u64 (wrap 64 0)
  end.

Definition encode_allocation_audit_report (report : AllocationAuditBundleReport) (w : Writer)
  : sresult Writer :=
  let w := encode (aar_chain_id report) w in
  w ← write_usize_as_u64 "spent segment count" (aar_spent_segments report) w;
  w ← write_usize_as_u64 "new segment count" (aar_new_segments report) w;
  w ← write_usize_as_u64 "exclusion pair count" (aar_exclusion_pairs report) w;
  Ok ((write_u64 (aar_spent_total_count report) ▷
       write_u64 (aar_new_total_count report) ▷
       write_bytes32 (aar_spent_final_root report) ▷
       write_bytes32 (aar_new_final_root report) ▷
       write_bytes32 (aar_spent_total_commitment report) ▷
       write_bytes32 (aar_new_total_commitment report)) w).

Definition encode_allocation_audit_proof_entry (proof : AllocationAuditProofEntry) (w : Writer)
  : sresult Writer :=
  let stack := ape_stack proof in
  let w := write_u8 (kind_as_u8 (ape_kind proof)) w in
  let w := write_optional_u64 (ape_spent_segment_index proof) w in
  let w := write_optional_u64 (ape_new_segment_index proof) w in
  w ← write_certificate_blob "allocation audit public inputs" (ape_public_inputs proof) w;
  let w := write_u8 (gps_tag stack) w in
  w ← write_certificate_blob "allocation audit verifying key" (gps_verifying_key stack) w;
  w ← write_certificate_blob "allocation audit proof" (gps_proof stack) w;
  w ← write_certificate_len "allocation audit stack public inputs"
        (length (gps_public_inputs stack)) MAX_ALLOCATION_AUDIT_STACK_PUBLIC_INPUTS w;
  try_fold (λ w public_input,
    write_certificate_blob "allocation audit stack public input" public_input w)
    w (gps_public_inputs stack).

Definition allocation_audit_certificate_body (report : AllocationAuditBundleReport)
    (proofs : list AllocationAuditProofEntry) : sresult (list byte) :=
  w ← encode_allocation_audit_report report writer_new;
  w ← write_certificate_len "allocation audit certificate proof entries" (length proofs)
        MAX_ALLOCATION_AUDIT_CERTIFICATE_PROOF_ENTRIES w;
  w ← try_fold (λ w proof, encode_allocation_audit_proof_entry proof w) w proofs;
  Ok (into_vec w).

(** * Reading *)

(** [r.read_x().map_err(allocation_audit_certificate_decode_err)?] *)
Definition acd {A} (p : parser DecodeError A) : parser string A := pmap_err certificate_decode_err p.

Definition read_bounded_len (label : string) (max : nat) : parser string nat :=
  value ← acd read_u32;
  _ ← plift (fail_if (Z.of_nat max < uval value)%Z
        (certificate_limit label (uval value) (Z.of_nat max)));
  mret (Z.to_nat (uval value)).

Definition read_certificate_blob (label : string) : parser string (list byte) :=
  pmap_err (λ e, "allocation audit certificate " ++ label ++ ": " ++ decode_error_display e)%string
    read_blob.

(** [usize::try_from] of a [u64] succeeds on the supported targets. *)
Definition read_usize_from_u64 (label : string) : parser string usize := acd read_u64.

Definition read_optional_u64 (label : string) : parser string (option u64) :=
  tag ← acd read_u8;
  value ← acd read_u64;
  match tag with
  | x00 =>
      if decide (uval value = 0)%Z then mret None
      else plift (Err ("allocation audit certificate " ++ label ++
                       " none tag carried a non-zero value")%string)
  | x01 => mret (Some value)
  | _ => plift (Err ("allocation audit certificate " ++ label ++ " has bad optional tag " ++
                     usize_display (byte_Z tag))%string)
  end.

Definition decode_allocation_audit_report : parser string AllocationAuditBundleReport :=
  chain_id ← acd decode;
  spent_segments ← read_usize_from_u64 "allocation audit certificate spent segment count";
  new_segments ← read_usize_from_u64 "allocation audit certificate new segment count";
  exclusion_pairs ← read_usize_from_u64 "allocation audit certificate exclusion pair count";
  spent_total_count ← acd read_u64;
  new_total_count ← acd read_u64;
  spent_final_root ← acd read_bytes32;
  new_final_root ← acd read_bytes32;
  spent_total_commitment ← acd read_bytes32;
  new_total_commitment ← acd read_bytes32;
  mret {| aar_chain_id := chain_id; aar_spent_segments := spent_segments;
          aar_new_segments := new_segments; aar_exclusion_pairs := exclusion_pairs;
          aar_spent_total_count := spent_total_count; aar_new_total_count := new_total_count;
          aar_spent_final_root := spent_final_root; aar_new_final_root := new_final_root;
          aar_spent_total_commitment := spent_total_commitment;
          aar_new_total_commitment := new_total_commitment |}.

Definition decode_allocation_audit_proof_entry (index : nat)
  : parser string AllocationAuditProofEntry :=
  kind_tag ← acd read_u8;
  kind ← plift (ok_or (kind_from_u8 kind_tag)
    ("allocation audit certificate proof entry " ++ usize_display (Z.of_nat index) ++
     " has unknown kind " ++ usize_display (byte_Z kind_tag))%string);
  spent_segment_index ← read_optional_u64 "spent segment index";
  new_segment_index ← read_optional_u64 "new segment index";
  public_inputs ← read_certificate_blob "allocation audit public inputs";
  tag ← acd read_u8;
  verifying_key ← read_certificate_blob "allocation audit verifying key";
  proof ← read_certificate_blob "allocation audit proof";
  public_input_len ← read_bounded_len "allocation audit stack public inputs"
                       MAX_ALLOCATION_AUDIT_STACK_PUBLIC_INPUTS;
  stack_public_inputs ← read_n public_input_len
                          (read_certificate_blob "allocation audit stack public input");
  mret {| ape_kind := kind; ape_spent_segment_index := spent_segment_index;
          ape_new_segment_index := new_segment_index; ape_public_inputs := public_inputs;
          ape_stack := {| gps_tag := tag; gps_verifying_key := verifying_key; gps_proof := proof;
                          gps_public_inputs := stack_public_inputs |} |}.

(** [for index in 0..len { proofs.push(decode(r, index)?) }], from [index] on *)
Fixpoint decode_entries_from (index len : nat) : parser string (list AllocationAuditProofEntry) :=
  match len with
  | O => mret []
  | S len' =>
      proof ← decode_allocation_audit_proof_entry index;
      proofs ← decode_entries_from (S index) len';
      mret (proof :: proofs)
  end.

Definition decode_allocation_audit_proof_entries : parser string (list AllocationAuditProofEntry) :=
  len ← read_bounded_len "allocation audit certificate proof entries"
          MAX_ALLOCATION_AUDIT_CERTIFICATE_PROOF_ENTRIES;
  decode_entries_from 0 len.

Section certificate.
Context `{Sha256}.

Definition allocation_audit_certificate_id (report : AllocationAuditBundleReport)
    (proofs : list AllocationAuditProofEntry) : sresult Bytes32 :=
  payload ← allocation_audit_certificate_body report proofs;
  Ok (asset_domain_hash "rgk:zk:allocation-audit-certificate:v1" payload).

Definition id_not_bound : string := "allocation audit certificate id does not bind its payload".

Definition certificate_encode (self : AllocationAuditCertificate) : sresult (list byte) :=
  expected_id ← allocation_audit_certificate_id (aac_report self) (aac_proofs self);
  _ ← fail_if (aac_certificate_id self ≠ expected_id) id_not_bound;
  body ← allocation_audit_certificate_body (aac_report self) (aac_proofs self);
  Ok (ALLOCATION_AUDIT_CERTIFICATE_MAGIC ++ aac_certificate_id self ++ body).

Definition certificate_decode (buf : list byte) : sresult AllocationAuditCertificate :=
  run_record (
    magic ← acd (read_array 8);
    _ ← plift (fail_if (magic ≠ ALLOCATION_AUDIT_CERTIFICATE_MAGIC)
          "allocation audit certificate has bad magic");
    certificate_id ← acd read_bytes32;
    report ← decode_allocation_audit_report;
    proofs ← decode_allocation_audit_proof_entries;
    _ ← acd ensure_consumed;
    expected_id ← plift (allocation_audit_certificate_id report proofs);
    _ ← plift (fail_if (certificate_id ≠ expected_id) id_not_bound);
    mret {| aac_certificate_id := certificate_id; aac_report := report; aac_proofs := proofs |}) buf.
End certificate.
