(* ===== verification/ZkManifest.v ===== *)
(** The manifest of an audit certificate (src/crates/rgk-zk/src/real_zk.rs):
    public inputs read back as statements, the entries of a bundle in their
    order, the check of one Groth16 stack, and the functions that build and
    verify certificates. *)

From stdpp Require Import base list strings.
From Stdlib Require Import ZArith Lia Strings.Byte.
From S2P Require Import Prelude.
From S2P Require Import Bytes.
From S2P Require Import Encoding.
From S2P Require Import Types.
From S2P Require Import Commit.
From S2P Require Import Hex.
From S2P Require Import AssetTypes.
From S2P Require Import AssetRules.
From S2P Require Import Lane.
From S2P Require Import ZkGadgets.
From S2P Require Import ZkCircuits.
From S2P Require Import ZkAudit.
From S2P Require Import ZkStack.
From S2P Require Import ZkCertificate.

Open Scope string_scope.
Open Scope list_scope.

(** * Public inputs as statements *)

Definition public_slice_at (public : list byte) (offset len : nat) (label field : string)
  : sresult (list byte) :=
  end_ ← ok_or (checked_add_usize (Z.of_nat offset) (Z.of_nat len))
          (label ++ " " ++ field ++ " offset overflow")%string;
  ok_or (get_slice public offset (Z.to_nat end_)) (label ++ " is missing " ++ field)%string.

Definition public_u32_at (public : list byte) (offset : nat) (label field : string) : sresult u32 :=
  bytes ← public_slice_at public offset 4 label field;
  Ok (wrap 32 (le_val bytes)).

Definition public_u64_at (public : list byte) (offset : nat) (label field : string) : sresult u64 :=
  bytes ← public_slice_at public offset 8 label field;
  Ok (wrap 64 (le_val bytes)).

Definition public_bytes32_at (public : list byte) (offset : nat) (label field : string)
  : sresult Bytes32 :=
  bytes ← public_slice_at public offset 32 label field;
  Ok (to_array 32 bytes).

Definition public_chain_id_at (public : list byte) (offset : nat) (label : string)
  : sresult KaspaChainId :=
  tag ← public_u32_at public offset label "chain id tag";
  _ ← fail_if (uval tag ≠ byte_Z chain_TAG)
        (label ++ " has bad chain id tag " ++ usize_display (uval tag))%string;
  value ← public_u32_at public (offset + 4) label "chain id value";
  _ ← fail_if (255 < uval value)%Z
        (label ++ " has out-of-range chain id value " ++ usize_display (uval value))%string;
  ok_or (chain_from_tag (byte_of_Z (uval value)))
    (label ++ " has unknown chain id value " ++ usize_display (uval value))%string.

Definition parse_allocation_transcript_side (side : u8) (label : string)
  : sresult RgkAllocationTranscriptSide :=
  match side with
  | x00 => Ok Spent
  | x01 => Ok New
  | _ => Err (label ++ " has unknown transcript side " ++ usize_display (byte_Z side))%string
  end.

Definition ensure_canonical_public_inputs (label : string) (actual expected : list byte)
  : sresult unit :=
  fail_if (actual ≠ expected) (label ++ " public inputs are not canonical")%string.

(** The refusal of public inputs of another length. *)
Definition check_public_len (label : string) (public : list byte) (expected : nat) : sresult unit :=
  fail_if (length public ≠ expected)
    (label ++ " has " ++ usize_display (Z.of_nat (length public)) ++
     " public-input bytes, expected " ++ usize_display (Z.of_nat expected))%string.

Definition parse_allocation_transcript_public_inputs (ALLOCS : nat) (public : list byte)
    (label : string) : sresult (AllocationTranscriptSegmentStatement ALLOCS) :=
  _ ← check_public_len label public ALLOCATION_TRANSCRIPT_SEGMENT_PUBLIC_INPUT_LEN;
  side ← parse_allocation_transcript_side (nth 72 public x00) label;
  _ ← fail_if (existsb (λ byte, bool_decide (byte ≠ x00)) (slice public 73 80) = true)
        (label ++ " transcript padding is not canonical")%string;
  previous_root ← public_bytes32_at public 0 label "previous root";
  next_root ← public_bytes32_at public 32 label "next root";
  chain_id ← public_chain_id_at public 64 label;
  segment_index ← public_u64_at public 80 label "segment index";
  total_count ← public_u64_at public 88 label "total count";
  segment_amount_commitment ← public_bytes32_at public 96 label "amount commitment";
  let statement := {|
    ats_previous_root := previous_root; ats_next_root := next_root; ats_chain_id := chain_id;
    ats_side := side; ats_segment_index := segment_index; ats_total_count := total_count;
    ats_segment_amount_commitment := segment_amount_commitment |} in
  _ ← ensure_canonical_public_inputs label public (transcript_public_inputs statement);
  Ok statement.

Definition parse_allocation_conservation_public_inputs (ALLOCS : nat) (public : list byte)
    (label : string) : sresult (AllocationConservationSegmentStatement ALLOCS) :=
  _ ← check_public_len label public ALLOCATION_CONSERVATION_SEGMENT_PUBLIC_INPUT_LEN;
  transcript ← parse_allocation_transcript_public_inputs ALLOCS
                 (take ALLOCATION_TRANSCRIPT_SEGMENT_PUBLIC_INPUT_LEN public) label;
  previous_total_commitment ← public_bytes32_at public 128 label "previous total commitment";
  next_total_commitment ← public_bytes32_at public 160 label "next total commitment";
  let statement := {|
    acs_transcript := transcript; acs_previous_total_commitment := previous_total_commitment;
    acs_next_total_commitment := next_total_commitment |} in
  _ ← ensure_canonical_public_inputs label public (conservation_public_inputs statement);
  Ok statement.

Definition parse_allocation_conservation_final_public_inputs (public : list byte) (label : string)
  : sresult AllocationConservationFinalStatement :=
  _ ← check_public_len label public ALLOCATION_CONSERVATION_FINAL_PUBLIC_INPUT_LEN;
  spent_total_count ← public_u64_at public 0 label "spent total count";
  new_total_count ← public_u64_at public 8 label "new total count";
  spent_total_commitment ← public_bytes32_at public 16 label "spent total commitment";
  new_total_commitment ← public_bytes32_at public 48 label "new total commitment";
  let statement := {|
    afs_spent_total_count := spent_total_count; afs_new_total_count := new_total_count;
    afs_spent_total_commitment := spent_total_commitment;
    afs_new_total_commitment := new_total_commitment |} in
  _ ← ensure_canonical_public_inputs label public (final_public_inputs statement);
  Ok statement.

Definition parse_allocation_exclusion_public_inputs (SPENT NEW : nat) (public : list byte)
    (label : string) : sresult (AllocationExclusionSegmentPairStatement SPENT NEW) :=
  _ ← check_public_len label public ALLOCATION_EXCLUSION_SEGMENT_PAIR_PUBLIC_INPUT_LEN;
  spent_previous_root ← public_bytes32_at public 0 label "spent previous root";
  spent_next_root ← public_bytes32_at public 32 label "spent next root";
  new_previous_root ← public_bytes32_at public 64 label "new previous root";
  new_next_root ← public_bytes32_at public 96 label "new next root";
  chain_id ← public_chain_id_at public 128 label;
  spent_segment_index ← public_u64_at public 136 label "spent segment index";
  new_segment_index ← public_u64_at public 144 label "new segment index";
  spent_total_count ← public_u64_at public 152 label "spent total count";
  new_total_count ← public_u64_at public 160 label "new total count";
  spent_amount_commitment ← public_bytes32_at public 168 label "spent amount commitment";
  new_amount_commitment ← public_bytes32_at public 200 label "new amount commitment";
  let statement := {|
    aes_spent_previous_root := spent_previous_root; aes_spent_next_root := spent_next_root;
    aes_new_previous_root := new_previous_root; aes_new_next_root := new_next_root;
    aes_chain_id := chain_id; aes_spent_segment_index := spent_segment_index;
    aes_new_segment_index := new_segment_index; aes_spent_total_count := spent_total_count;
    aes_new_total_count := new_total_count; aes_spent_amount_commitment := spent_amount_commitment;
    aes_new_amount_commitment := new_amount_commitment |} in
  _ ← ensure_canonical_public_inputs label public (exclusion_public_inputs statement);
  Ok statement.

(** * The entries of a bundle *)

Definition empty_allocation_audit_stack : Groth16PrecompileStack :=
  {| gps_tag := ZK_TAG_GROTH16; gps_verifying_key := []; gps_proof := []; gps_public_inputs := [] |}.

Definition allocation_audit_manifest_entry (kind : AllocationAuditProofKind)
    (spent_segment_index new_segment_index : option u64) (public_inputs : list byte)
  : AllocationAuditProofEntry :=
  {| ape_kind := kind; ape_spent_segment_index := spent_segment_index;
     ape_new_segment_index := new_segment_index; ape_public_inputs := public_inputs;
     ape_stack := empty_allocation_audit_stack |}.

(** The entry of each kind of statement. *)
Definition transcript_entry {ALLOCS} (side : RgkAllocationTranscriptSide)
    (statement : AllocationTranscriptSegmentStatement ALLOCS) : AllocationAuditProofEntry :=
  let index := Some (ats_segment_index statement) in
  match side with
  | Spent => allocation_audit_manifest_entry SpentTranscriptSegment index None
               (transcript_public_inputs statement)
  | New => allocation_audit_manifest_entry NewTranscriptSegment None index
             (transcript_public_inputs statement)
  end.

Definition conservation_entry {ALLOCS} (side : RgkAllocationTranscriptSide)
    (statement : AllocationConservationSegmentStatement ALLOCS) : AllocationAuditProofEntry :=
  let index := Some (ats_segment_index (acs_transcript statement)) in
  match side with
  | Spent => allocation_audit_manifest_entry SpentConservationSegment index None
               (conservation_public_inputs statement)
  | New => allocation_audit_manifest_entry NewConservationSegment None index
             (conservation_public_inputs statement)
  end.

Definition final_entry (statement : AllocationConservationFinalStatement)
  : AllocationAuditProofEntry :=
  allocation_audit_manifest_entry ConservationFinal None None (final_public_inputs statement).

Definition exclusion_entry {SPENT NEW} (statement : AllocationExclusionSegmentPairStatement SPENT NEW)
  : AllocationAuditProofEntry :=
  allocation_audit_manifest_entry ExclusionSegmentPair (Some (aes_spent_segment_index statement))
    (Some (aes_new_segment_index statement)) (exclusion_public_inputs statement).

Definition append_allocation_audit_manifest_entries {SPENT NEW}
    (bundle : AllocationAuditBundle SPENT NEW) : list AllocationAuditProofEntry :=
  (transcript_entry Spent <$> aab_spent_transcripts bundle) ++
  (transcript_entry New <$> aab_new_transcripts bundle) ++
  (conservation_entry Spent <$> aab_spent_conservation bundle) ++
  (conservation_entry New <$> aab_new_conservation bundle) ++
  [final_entry (aab_final_conservation bundle)] ++
  (exclusion_entry <$> aab_exclusions bundle).

Definition check_allocation_audit_entry_indices (entry_index : nat)
    (entry : AllocationAuditProofEntry) (expected_spent expected_new : option u64) : sresult unit :=
  fail_if (ape_spent_segment_index entry ≠ expected_spent ∨
           ape_new_segment_index entry ≠ expected_new)
    ("allocation audit certificate proof entry " ++ usize_display (Z.of_nat entry_index) ++
     " has inconsistent segment indices")%string.

Definition check_stack_count (label : string) (got expected : nat) : sresult unit :=
  fail_if (got ≠ expected)
    ("allocation audit certificate has " ++ usize_display (Z.of_nat got) ++ " " ++ label ++
     " stacks, expected " ++ usize_display (Z.of_nat expected))%string.

(** [actual.kind != expected.kind || .. ], without the stack *)
Definition entry_differs (actual expected : AllocationAuditProofEntry) : bool :=
  bool_decide (ape_kind actual ≠ ape_kind expected) ||
  bool_decide (ape_spent_segment_index actual ≠ ape_spent_segment_index expected) ||
  bool_decide (ape_new_segment_index actual ≠ ape_new_segment_index expected) ||
  bool_decide (ape_public_inputs actual ≠ ape_public_inputs expected).

Definition proof_count_mismatch (got expected : nat) : string :=
  ("allocation audit certificate has " ++ usize_display (Z.of_nat got) ++
   " proof entries, expected " ++ usize_display (Z.of_nat expected))%string.

(** ["allocation audit certificate proof entry {index} .."] *)
Definition entry_error (index : nat) (what : string) : string :=
  ("allocation audit certificate proof entry " ++ usize_display (Z.of_nat index) ++ what)%string.

(** * One stack *)

Section manifest.
Context `{Sha256} `{Groth16Library}.

Definition audit_label (kind : AllocationAuditProofKind) (what : string) : string :=
  ("allocation audit " ++ kind_label kind ++ what)%string.

Definition deserialize_public_input (kind : AllocationAuditProofKind) (p : nat * list byte)
  : sresult Fr :=
  let '(index, input) := p in
  _ ← fail_if (length input ≠ 32)
        (audit_label kind (" public input " ++ usize_display (Z.of_nat index) ++ " has " ++
                           usize_display (Z.of_nat (length input)) ++ " bytes, expected 32"))%string;
  map_err (λ e, audit_label kind (" public input " ++ usize_display (Z.of_nat index) ++
                                  " deserialize: " ++ e))%string
    (fr_deserialize_uncompressed input).

Definition groth16_stack_public_inputs_as_fr (stack : Groth16PrecompileStack)
    (kind : AllocationAuditProofKind) : sresult (list Fr) :=
  mapM (deserialize_public_input kind) (imap pair (gps_public_inputs stack)).

Definition verify_groth16_stack_against_public_inputs (kind : AllocationAuditProofKind)
    (stack : Groth16PrecompileStack) (expected_public_inputs : list byte) : sresult unit :=
  _ ← fail_if (gps_tag stack ≠ ZK_TAG_GROTH16)
        (audit_label kind " stack has the wrong Groth16 tag");
  expected_stack_inputs ← public_inputs_as_uncompressed_fr_bytes_with_len expected_public_inputs
                            (length expected_public_inputs);
  _ ← fail_if (gps_public_inputs stack ≠ expected_stack_inputs)
        (audit_label kind " stack public inputs do not match the statement");
  vk ← map_err (λ e, audit_label kind (" verifying key: " ++ e))%string
         (vk_deserialize_compressed (gps_verifying_key stack));
  proof ← map_err (λ e, audit_label kind (" proof: " ++ e))%string
            (proof_deserialize_compressed (gps_proof stack));
  public_inputs ← groth16_stack_public_inputs_as_fr stack kind;
  verified ← verify vk public_inputs proof;
  fail_if (verified = false) (audit_label kind " Groth16 proof did not verify").

(** [verified_allocation_audit_proof_entry], of the kind, indices and public
    inputs of a manifest entry *)
Definition verified_allocation_audit_proof_entry
    (p : AllocationAuditProofEntry * Groth16PrecompileStack) : sresult AllocationAuditProofEntry :=
  let '(entry, stack) := p in
  _ ← verify_groth16_stack_against_public_inputs (ape_kind entry) stack (ape_public_inputs entry);
  Ok {| ape_kind := ape_kind entry; ape_spent_segment_index := ape_spent_segment_index entry;
        ape_new_segment_index := ape_new_segment_index entry;
        ape_public_inputs := ape_public_inputs entry; ape_stack := stack |}.

(** * Building and verifying against a bundle *)

Definition append_allocation_audit_certificate_entries {SPENT NEW}
    (bundle : AllocationAuditBundle SPENT NEW) (stacks : AllocationAuditBundleStacks)
  : sresult (list AllocationAuditProofEntry) :=
  _ ← check_stack_count "spent transcript" (length (abs_spent_transcripts stacks))
        (length (aab_spent_transcripts bundle));
  _ ← check_stack_count "new transcript" (length (abs_new_transcripts stacks))
        (length (aab_new_transcripts bundle));
  _ ← check_stack_count "spent conservation" (length (abs_spent_conservation stacks))
        (length (aab_spent_conservation bundle));
  _ ← check_stack_count "new conservation" (length (abs_new_conservation stacks))
        (length (aab_new_conservation bundle));
  _ ← check_stack_count "exclusion" (length (abs_exclusions stacks))
        (length (aab_exclusions bundle));
  let push l stacks := mapM verified_allocation_audit_proof_entry (zip l stacks) in
  spent_transcripts ← push (transcript_entry Spent <$> aab_spent_transcripts bundle)
                        (abs_spent_transcripts stacks);
  new_transcripts ← push (transcript_entry New <$> aab_new_transcripts bundle)
                      (abs_new_transcripts stacks);
  spent_conservation ← push (conservation_entry Spent <$> aab_spent_conservation bundle)
                         (abs_spent_conservation stacks);
  new_conservation ← push (conservation_entry New <$> aab_new_conservation bundle)
                       (abs_new_conservation stacks);
  final_conservation ← verified_allocation_audit_proof_entry
                         (final_entry (aab_final_conservation bundle), abs_final_conservation stacks);
  exclusions ← push (exclusion_entry <$> aab_exclusions bundle) (abs_exclusions stacks);
  Ok (spent_transcripts ++ new_transcripts ++ spent_conservation ++ new_conservation ++
      [final_conservation] ++ exclusions).

Definition build_allocation_audit_certificate {SPENT NEW} (bundle : AllocationAuditBundle SPENT NEW)
    (stacks : AllocationAuditBundleStacks) : sresult AllocationAuditCertificate :=
  report ← verify_allocation_audit_bundle bundle;
  proofs ← append_allocation_audit_certificate_entries bundle stacks;
  certificate_id ← allocation_audit_certificate_id report proofs;
  Ok {| aac_certificate_id := certificate_id; aac_report := report; aac_proofs := proofs |}.

Definition verify_allocation_audit_certificate {SPENT NEW} (certificate : AllocationAuditCertificate)
    (bundle : AllocationAuditBundle SPENT NEW) : sresult AllocationAuditBundleReport :=
  expected_report ← verify_allocation_audit_bundle bundle;
  _ ← fail_if (aac_report certificate ≠ expected_report)
        "allocation audit certificate report does not match bundle";
  let expected_entries := append_allocation_audit_manifest_entries bundle in
  _ ← fail_if (length (aac_proofs certificate) ≠ length expected_entries)
        (proof_count_mismatch (length (aac_proofs certificate)) (length expected_entries));
  _ ← try_foldi (λ index _ p,
        _ ← fail_if (entry_differs p.1 p.2 = true)
              (entry_error index " does not match the bundle manifest");
        verify_groth16_stack_against_public_inputs (ape_kind p.1) (ape_stack p.1)
          (ape_public_inputs p.1))
        0 () (zip (aac_proofs certificate) expected_entries);
  expected_id ← allocation_audit_certificate_id (aac_report certificate) (aac_proofs certificate);
  _ ← fail_if (aac_certificate_id certificate ≠ expected_id) id_not_bound;
  Ok (aac_report certificate).

(** * Verifying a certificate by itself *)

(** The vectors of the loop over the entries. *)
Record AuditParts (SPENT NEW : nat) := {
  aup_spent_transcripts : list (AllocationTranscriptSegmentStatement SPENT);
  aup_new_transcripts : list (AllocationTranscriptSegmentStatement NEW);
  aup_spent_conservation : list (AllocationConservationSegmentStatement SPENT);
  aup_new_conservation : list (AllocationConservationSegmentStatement NEW);
  aup_final_conservation : option AllocationConservationFinalStatement;
  aup_exclusions : list (AllocationExclusionSegmentPairStatement SPENT NEW)
}.
Arguments aup_spent_transcripts {SPENT NEW}.
Arguments aup_new_transcripts {SPENT NEW}.
Arguments aup_spent_conservation {SPENT NEW}.
Arguments aup_new_conservation {SPENT NEW}.
Arguments aup_final_conservation {SPENT NEW}.
Arguments aup_exclusions {SPENT NEW}.

Definition no_parts {SPENT NEW} : AuditParts SPENT NEW :=
  {| aup_spent_transcripts := []; aup_new_transcripts := []; aup_spent_conservation := [];
     aup_new_conservation := []; aup_final_conservation := None; aup_exclusions := [] |}.

(** The body of the loop over [certificate.proofs]. *)
Definition collect_entry {SPENT NEW} (entry_index : nat) (parts : AuditParts SPENT NEW)
    (entry : AllocationAuditProofEntry) : sresult (AuditParts SPENT NEW) :=
  let '(Build_AuditParts _ _ st nt sc nc final ex) := parts in
  let public := ape_public_inputs entry in
  let check := check_allocation_audit_entry_indices entry_index entry in
  _ ← verify_groth16_stack_against_public_inputs (ape_kind entry) (ape_stack entry) public;
  match ape_kind entry with
  | SpentTranscriptSegment =>
      s ← parse_allocation_transcript_public_inputs SPENT public
            "allocation audit spent transcript entry";
      _ ← fail_if (ats_side s ≠ Spent) (entry_error entry_index " has the wrong transcript side");
      _ ← check (Some (ats_segment_index s)) None;
      Ok (Build_AuditParts _ _ (st ++ [s]) nt sc nc final ex)
  | NewTranscriptSegment =>
      s ← parse_allocation_transcript_public_inputs NEW public
            "allocation audit new transcript entry";
      _ ← fail_if (ats_side s ≠ New) (entry_error entry_index " has the wrong transcript side");
      _ ← check None (Some (ats_segment_index s));
      Ok (Build_AuditParts _ _ st (nt ++ [s]) sc nc final ex)
  | SpentConservationSegment =>
      s ← parse_allocation_conservation_public_inputs SPENT public
            "allocation audit spent conservation entry";
      _ ← fail_if (ats_side (acs_transcript s) ≠ Spent)
            (entry_error entry_index " has the wrong conservation side");
      _ ← check (Some (ats_segment_index (acs_transcript s))) None;
      Ok (Build_AuditParts _ _ st nt (sc ++ [s]) nc final ex)
  | NewConservationSegment =>
      s ← parse_allocation_conservation_public_inputs NEW public
            "allocation audit new conservation entry";
      _ ← fail_if (ats_side (acs_transcript s) ≠ New)
            (entry_error entry_index " has the wrong conservation side");
      _ ← check None (Some (ats_segment_index (acs_transcript s)));
      Ok (Build_AuditParts _ _ st nt sc (nc ++ [s]) final ex)
  | ConservationFinal =>
      _ ← fail_if (is_Some final)
            "allocation audit certificate has duplicate final conservation entries";
      s ← parse_allocation_conservation_final_public_inputs public
            "allocation audit final conservation entry";
      _ ← check None None;
      Ok (Build_AuditParts _ _ st nt sc nc (Some s) ex)
  | ExclusionSegmentPair =>
      s ← parse_allocation_exclusion_public_inputs SPENT NEW public
            "allocation audit exclusion pair";
      _ ← check (Some (aes_spent_segment_index s)) (Some (aes_new_segment_index s));
      Ok (Build_AuditParts _ _ st nt sc nc final (ex ++ [s]))
  end.

(** The sorts after the loop and the missing final entry. *)
Definition bundle_of_parts {SPENT NEW} (parts : AuditParts SPENT NEW)
  : sresult (AllocationAuditBundle SPENT NEW) :=
  final_conservation ← ok_or (aup_final_conservation parts)
    "allocation audit certificate is missing final conservation entry";
  Ok {| aab_spent_transcripts := sort_by_key ats_segment_index (aup_spent_transcripts parts);
        aab_new_transcripts := sort_by_key ats_segment_index (aup_new_transcripts parts);
        aab_spent_conservation :=
          sort_by_key (λ s, ats_segment_index (acs_transcript s)) (aup_spent_conservation parts);
        aab_new_conservation :=
          sort_by_key (λ s, ats_segment_index (acs_transcript s)) (aup_new_conservation parts);
        aab_final_conservation := final_conservation;
        aab_exclusions :=
          sort_by_key (λ s, (aes_spent_segment_index s, aes_new_segment_index s))
            (aup_exclusions parts) |}.

Definition verify_allocation_audit_certificate_self_contained (SPENT NEW : nat)
    (certificate : AllocationAuditCertificate) : sresult AllocationAuditBundleReport :=
  expected_id ← allocation_audit_certificate_id (aac_report certificate) (aac_proofs certificate);
  _ ← fail_if (aac_certificate_id certificate ≠ expected_id) id_not_bound;
  parts ← try_foldi collect_entry 0 (@no_parts SPENT NEW) (aac_proofs certificate);
  bundle ← bundle_of_parts parts;
  report ← verify_allocation_audit_bundle bundle;
  _ ← fail_if (aac_report certificate ≠ report)
        "allocation audit certificate report does not match reconstructed manifest";
  let expected_entries := append_allocation_audit_manifest_entries bundle in
  _ ← fail_if (length (aac_proofs certificate) ≠ length expected_entries)
        (proof_count_mismatch (length (aac_proofs certificate)) (length expected_entries));
  _ ← try_foldi (λ index _ p,
        fail_if (entry_differs p.1 p.2 = true)
          (entry_error index " is not in deterministic manifest order"))
        0 () (zip (aac_proofs certificate) expected_entries);
  Ok report.

Definition verify_allocation_audit_certificate_canonical (SPENT NEW : nat) (buf : list byte)
  : sresult (AllocationAuditCertificate * AllocationAuditBundleReport) :=
  certificate ← certificate_decode buf;
  report ← verify_allocation_audit_certificate_self_contained SPENT NEW certificate;
  Ok (certificate, report).
End manifest.
