(* ===== verification/ZkCertificateCorrect.v ===== *)
(** The canonical bytes of audit certificates: what the writers write, that the
    readers read exactly that, and that decoding and encoding are inverse. *)

From stdpp Require Import base list strings.
From Stdlib Require Import ZArith Lia Strings.Byte.
From S2P Require Import Prelude.
From S2P Require Import Bytes.
From S2P Require Import Encoding.
From S2P Require Import Types.
From S2P Require Import Records.
From S2P Require Import Commit.
From S2P Require Import AssetTypes.
From S2P Require Import AssetRules.
From S2P Require Import ZkGadgets.
From S2P Require Import ZkCircuits.
From S2P Require Import ZkAudit.
From S2P Require Import ZkStack.
From S2P Require Import ZkCertificate.

Open Scope list_scope.

(** * What fits a certificate, and the bytes of its parts *)

Definition blob_fits (b : list byte) : Prop := (Z.of_nat (length b) <= MAX_BLOB_BYTES)%Z.

Definition entry_fits (e : AllocationAuditProofEntry) : Prop :=
  blob_fits (ape_public_inputs e) ∧ blob_fits (gps_verifying_key (ape_stack e)) ∧
  blob_fits (gps_proof (ape_stack e)) ∧
  (length (gps_public_inputs (ape_stack e)) <= MAX_ALLOCATION_AUDIT_STACK_PUBLIC_INPUTS)%nat ∧
  Forall blob_fits (gps_public_inputs (ape_stack e)).

Definition proofs_fit (l : list AllocationAuditProofEntry) : Prop :=
  (length l <= MAX_ALLOCATION_AUDIT_CERTIFICATE_PROOF_ENTRIES)%nat ∧ Forall entry_fits l.

Definition write_count (n : nat) : Writer → Writer := write_u32 (wrap 32 (Z.of_nat n)).

Definition report_writer (r : AllocationAuditBundleReport) : Writer → Writer :=
  encode (aar_chain_id r) ▷
  write_u64 (aar_spent_segments r) ▷
  write_u64 (aar_new_segments r) ▷
  write_u64 (aar_exclusion_pairs r) ▷
  write_u64 (aar_spent_total_count r) ▷
  write_u64 (aar_new_total_count r) ▷
  write_bytes32 (aar_spent_final_root r) ▷
  write_bytes32 (aar_new_final_root r) ▷
  write_bytes32 (aar_spent_total_commitment r) ▷
  write_bytes32 (aar_new_total_commitment r).

Definition entry_writer (e : AllocationAuditProofEntry) : Writer → Writer :=
  write_u8 (kind_as_u8 (ape_kind e)) ▷
  write_optional_u64 (ape_spent_segment_index e) ▷
  write_optional_u64 (ape_new_segment_index e) ▷
  write_blob (ape_public_inputs e) ▷
  write_u8 (gps_tag (ape_stack e)) ▷
  write_blob (gps_verifying_key (ape_stack e)) ▷
  write_blob (gps_proof (ape_stack e)) ▷
  write_count (length (gps_public_inputs (ape_stack e))) ▷
  write_all write_blob (gps_public_inputs (ape_stack e)).

Definition proofs_writer (l : list AllocationAuditProofEntry) : Writer → Writer :=
  write_count (length l) ▷ write_all entry_writer l.

#[export] Instance write_count_appending n : Appending (write_count n).
Proof. apply _. Qed.
#[export] Instance write_optional_appending o : Appending (write_optional_u64 o).
Proof. destruct o; apply _. Qed.
#[export] Instance report_writer_appending r : Appending (report_writer r).
Proof. unfold report_writer. apply _. Qed.
#[export] Instance entry_writer_appending e : Appending (entry_writer e).
Proof. unfold entry_writer. apply _. Qed.
#[export] Instance proofs_writer_appending l : Appending (proofs_writer l).
Proof. unfold proofs_writer. apply _. Qed.

(** * The writers *)

Lemma write_certificate_len_ok label n max w w' :
  (Z.of_nat max < 2 ^ 32)%Z →
  write_certificate_len label n max w = Ok w' ↔ (n <= max)%nat ∧ w' = write_count n w.
Proof.
  intros Hmax. unfold write_certificate_len. rewrite !bind_unit_ok, !fail_if_ok, (inj_iff Ok).
  split; [intros (? & _ & <-); split; [lia|done]|intros [? ->]; split_and!; [lia..|done]].
Qed.

Lemma write_certificate_blob_ok label b w w' :
  write_certificate_blob label b w = Ok w' ↔ blob_fits b ∧ w' = write_blob b w.
Proof.
  unfold write_certificate_blob, blob_fits. rewrite bind_unit_ok, fail_if_ok, (inj_iff Ok).
  split; [intros (? & <-); split; [lia|done]|intros [? ->]; split; [lia|done]].
Qed.

Lemma write_usize_ok label v w : write_usize_as_u64 label v w = Ok (write_u64 v w).
Proof.
  unfold write_usize_as_u64. rewrite fail_if_false; [done|].
  pose proof (uint_range v). unfold usize_MAX. lia.
Qed.

Lemma encode_report_ok r w : encode_allocation_audit_report r w = Ok (report_writer r w).
Proof.
  unfold encode_allocation_audit_report. cbv zeta. rewrite write_usize_ok. cbn [mbind result_bind].
  rewrite write_usize_ok. cbn [mbind result_bind]. rewrite write_usize_ok. done.
Qed.

(** A loop of fallible writers. *)
Lemma try_write_all_ok {A} (P : A → Prop) (f : A → Writer → Writer) (g : Writer → A → sresult Writer) l w w' :
  (∀ x w w', g w x = Ok w' ↔ P x ∧ w' = f x w) →
  try_fold g w l = Ok w' ↔ Forall P l ∧ w' = write_all f l w.
Proof.
  intros Hg. revert w. induction l as [|x l IH]; intros w; cbn [try_fold].
  { rewrite (inj_iff Ok). split; [intros <-; by split|by intros [_ ->]]. }
  rewrite bind_ok. setoid_rewrite Hg. setoid_rewrite IH. rewrite list.Forall_cons.
  split; [intros (w1 & [? ->] & ? & ->); by split|intros [[? ?] ->]; eauto].
Qed.

Lemma encode_entry_ok e w w' :
  encode_allocation_audit_proof_entry e w = Ok w' ↔ entry_fits e ∧ w' = entry_writer e w.
Proof.
  unfold encode_allocation_audit_proof_entry, entry_fits. cbv zeta.
  rewrite bind_ok. setoid_rewrite write_certificate_blob_ok.
  setoid_rewrite bind_ok. setoid_rewrite write_certificate_blob_ok.
  setoid_rewrite bind_ok. setoid_rewrite write_certificate_blob_ok.
  setoid_rewrite bind_ok. setoid_rewrite write_certificate_len_ok; [|done..].
  setoid_rewrite (try_write_all_ok blob_fits write_blob);
    [|intros; apply write_certificate_blob_ok..].
  split.
  - intros (w1 & [? ->] & w2 & [? ->] & w3 & [? ->] & w4 & [? ->] & ? & ->). by split_and!.
  - intros ((? & ? & ? & ? & ?) & ->). do 4 (eexists; split; [by split|]). by split.
Qed.

Lemma certificate_body_ok r l b :
  allocation_audit_certificate_body r l = Ok b ↔
    proofs_fit l ∧ b = (report_writer r ▷ proofs_writer l) [].
Proof.
  unfold allocation_audit_certificate_body, proofs_fit. rewrite encode_report_ok. cbn [mbind result_bind].
  rewrite bind_ok. setoid_rewrite write_certificate_len_ok; [|done]. setoid_rewrite bind_ok.
  setoid_rewrite (try_write_all_ok entry_fits entry_writer); [|intros; apply encode_entry_ok].
  unfold into_vec. setoid_rewrite (inj_iff Ok). split.
  - intros (w1 & [? ->] & w2 & [? ->] & <-). by split.
  - intros ((? & ?) & ->). do 2 (eexists; split; [by split|]). done.
Qed.

(** * The readers *)

#[export] Instance acd_codec {A} (p : parser DecodeError A) P f : Codec p P f → Codec (acd p) P f.
Proof. apply pmap_err_codec. Qed.

Lemma bounded_len_codec label max :
  (Z.of_nat max < 2 ^ 32)%Z → Codec (read_bounded_len label max) (λ n, n <= max)%nat write_count.
Proof.
  intros Hmax r n r' Hr. unfold read_bounded_len, write_count. split.
  - intros H0. sound_steps. rename select (uint 32) into len. pose proof (uint_range len).
    split; [lia|]. rewrite Z2Nat.id by lia. by rewrite wrap_uval.
  - intros [Hn Hs]. assert (Hv : uval (wrap 32 (Z.of_nat n)) = Z.of_nat n)
      by (apply uval_wrap_small; lia).
    rewrite (pbind_intro _ _ _ (wrap 32 (Z.of_nat n)) r') by by apply codec_iff.
    rewrite (plift_intro _ _ _ ()) by (apply fail_if_false; lia).
    by rewrite Hv, Nat2Z.id.
Qed.

#[export] Instance stack_len_codec label :
  Codec (read_bounded_len label MAX_ALLOCATION_AUDIT_STACK_PUBLIC_INPUTS)
    (λ n, n <= MAX_ALLOCATION_AUDIT_STACK_PUBLIC_INPUTS)%nat write_count.
Proof. by apply bounded_len_codec. Qed.

#[export] Instance proofs_len_codec label :
  Codec (read_bounded_len label MAX_ALLOCATION_AUDIT_CERTIFICATE_PROOF_ENTRIES)
    (λ n, n <= MAX_ALLOCATION_AUDIT_CERTIFICATE_PROOF_ENTRIES)%nat write_count.
Proof. by apply bounded_len_codec. Qed.

#[export] Instance certificate_blob_codec label :
  Codec (read_certificate_blob label) blob_fits write_blob.
Proof. apply pmap_err_codec, read_blob_codec. Qed.

#[export] Instance usize_codec label : Codec (read_usize_from_u64 label) always write_u64.
Proof. apply acd_codec, read_u64_codec. Qed.

#[export] Instance optional_u64_codec label :
  Codec (read_optional_u64 label) always write_optional_u64.
Proof.
  intros r o r' Hr. unfold read_optional_u64, write_optional_u64. split.
  - intros H0. sound_step. sound_step. sound_step. sound_step.
    rename select (u8) into tag. rename select (u64) into v. split; [done|].
    destruct tag; try (by apply plift_ok in H0 as [? _]).
    + case_decide as Hv; [|by apply plift_ok in H0 as [? _]].
      apply pret_ok in H0 as [-> ->]. replace (wrap 64 0) with v; [join_steps|].
      apply (inj uval). by rewrite Hv.
    + apply pret_ok in H0 as [-> ->]. join_steps.
  - intros [_ Hs]. by destruct o as [v|]; split_steps; complete_steps.
Qed.

Lemma kind_from_u8_ok b k : kind_from_u8 b = Some k ↔ b = kind_as_u8 k.
Proof. split; [|by intros ->; destruct k]. by destruct b; intros [= <-]. Qed.

#[export] Instance report_codec : Codec decode_allocation_audit_report always report_writer.
Proof.
  intros r a r' Hr. unfold decode_allocation_audit_report, report_writer. split.
  - intros H. sound_steps. split; [done|]. join_steps.
  - intros [_ H]. split_steps. complete_steps. by destruct a.
Qed.

#[export] Instance stack_inputs_codec n label :
  Codec (read_n n (read_certificate_blob label)) (λ l, length l = n ∧ Forall blob_fits l)
    (write_all write_blob).
Proof. apply read_n_codec; apply _. Qed.

#[export] Instance entry_codec i :
  Codec (decode_allocation_audit_proof_entry i) entry_fits entry_writer.
Proof.
  intros r e r' Hr. unfold decode_allocation_audit_proof_entry, entry_fits, entry_writer. split.
  - intros H. sound_steps.
    match goal with H : kind_from_u8 _ = Some _ |- _ => apply kind_from_u8_ok in H as -> end.
    match goal with H : length _ = _ ∧ Forall _ _ |- _ => destruct H as [<- ?] end.
    split; [done|]. join_steps.
  - intros [(Hp & Hv & Hq & Hn & Hi) H]. split_steps. complete_step.
    rewrite (plift_intro _ _ _ (ape_kind e)) by by apply ok_or_ok, kind_from_u8_ok.
    complete_steps. by destruct e as [? ? ? ? []].
Qed.

Lemma entries_from_codec i n :
  Codec (decode_entries_from i n) (λ l, length l = n ∧ Forall entry_fits l) (write_all entry_writer).
Proof.
  revert i. induction n as [|n IH]; intros i r l r' Hr; cbn [decode_entries_from].
  - rewrite pret_ok. split.
    + intros [-> ->]. split; [by split; [|constructor]|by apply step_refl].
    + intros [[Hl _] Hs]. destruct l; [|done]. by apply step_nil in Hs as ->.
  - split.
    + intros H. sound_steps.
      match goal with H : length _ = _ ∧ Forall _ _ |- _ => destruct H as [Hl Hf] end.
      split; [split; [cbn; lia|by constructor]|].
      rewrite write_all_cons. join_steps.
    + intros [[Hl Hf] Hs]. destruct l as [|x l]; [done|]. apply Forall_cons in Hf as [Hx Hf].
      rewrite write_all_cons in Hs. split_steps. complete_step.
      rewrite (pbind_intro _ _ _ l r'); [done|]. apply IH; [by eapply step_wf|].
      split; [|done]. cbn in Hl. split; [lia|done].
Qed.

#[export] Instance proofs_codec : Codec decode_allocation_audit_proof_entries proofs_fit proofs_writer.
Proof.
  intros r l r' Hr. unfold decode_allocation_audit_proof_entries, proofs_fit, proofs_writer.
  rewrite pbind_ok, step_seq by apply _. split.
  - intros (n & r1 & [Hn Hs]%codec_iff & Hd); [|done].
    apply entries_from_codec in Hd as [[<- Hf] Hs']; [|by eapply step_wf].
    split; [done|]. by exists r1.
  - intros ([Hn Hf] & r1 & Hs & Hs'). exists (length l), r1. split; [by apply codec_iff|].
    apply entries_from_codec; [by eapply step_wf|done].
Qed.

(** * Sizes *)

Lemma blob_size b : blob_fits b → (Z.of_nat (length (write_blob b [])) <= 4 + MAX_BLOB_BYTES)%Z.
Proof. unfold blob_fits. rewrite length_blob. lia. Qed.

Lemma write_all_size {A} (P : A → Prop) (f : A → Writer → Writer) (m : Z) l :
  (∀ x, Appending (f x)) → (0 <= m)%Z → (∀ x, P x → (Z.of_nat (length (f x [])) <= m)%Z) →
  Forall P l → (Z.of_nat (length (write_all f l [])) <= Z.of_nat (length l) * m)%Z.
Proof.
  intros Hf Hm Hx. induction 1 as [|x l Hp _ IH]; [cbn; lia|].
  rewrite write_all_cons, write_seq_nil by apply _. rewrite length_app. cbn [length].
  specialize (Hx x Hp). nia.
Qed.

Lemma entry_size e : entry_fits e → (Z.of_nat (length (entry_writer e [])) <= 2 ^ 34)%Z.
Proof.
  intros (Hp & Hv & Hq & Hn & Hi). apply blob_size in Hp, Hv, Hq.
  pose proof (write_all_size blob_fits write_blob (4 + MAX_BLOB_BYTES) _ _ ltac:(done) blob_size Hi) as Hl.
  assert (Ho : ∀ o, length (write_optional_u64 o []) = 9%nat) by by intros [].
  assert (Hc : ∀ n, length (write_count n []) = 4%nat) by (intros; apply length_u32).
  unfold entry_writer. rewrite !write_seq_nil by apply _.
  rewrite !length_app, !Ho, Hc. cbn [write_u8 app length].
  change (uval MAX_BLOB_BYTES) with (2 ^ 20)%Z in *.
  unfold MAX_ALLOCATION_AUDIT_STACK_PUBLIC_INPUTS in Hn. lia.
Qed.

Lemma report_size r : (Z.of_nat (length (report_writer r [])) <= 200)%Z.
Proof.
  unfold report_writer. rewrite !write_seq_nil by apply _.
  rewrite !length_app, !length_bytes32, !length_u64, length_chain. lia.
Qed.

Section certificates.
Context `{Sha256}.
Implicit Types (c : AllocationAuditCertificate) (buf : list byte).

(** The certificate is bound to its id. *)
Definition id_bound c : Prop :=
  allocation_audit_certificate_id (aac_report c) (aac_proofs c) = Ok (aac_certificate_id c).

Lemma id_bound_fits c : id_bound c → proofs_fit (aac_proofs c).
Proof.
  unfold id_bound, allocation_audit_certificate_id. intros (b & [Hf _]%certificate_body_ok & _)%bind_ok.
  exact Hf.
Qed.

Definition certificate_writer c : Writer → Writer :=
  write_bytes ALLOCATION_AUDIT_CERTIFICATE_MAGIC ▷ write_bytes32 (aac_certificate_id c) ▷
  report_writer (aac_report c) ▷ proofs_writer (aac_proofs c).

Lemma certificate_encode_ok c buf :
  certificate_encode c = Ok buf ↔ id_bound c ∧ buf = certificate_writer c [].
Proof.
  unfold certificate_encode, certificate_writer, id_bound.
  rewrite !write_seq_nil by apply _. rewrite bind_ok. split.
  - intros (i & Hi & Hr). rewrite bind_unit_ok, fail_if_neq_ok in Hr. destruct Hr as [-> Hr].
    split; [done|]. apply bind_ok in Hr as (b & [_ ->]%certificate_body_ok & [= <-]).
    by rewrite write_seq_nil by apply _.
  - intros [Hi ->]. exists (aac_certificate_id c). split; [done|].
    rewrite bind_unit_ok, fail_if_neq_ok, bind_ok. split; [done|].
    exists ((report_writer (aac_report c) ▷ proofs_writer (aac_proofs c)) []).
    rewrite certificate_body_ok. split; [split; [|done]|].
    + exact (id_bound_fits c Hi).
    + by rewrite write_seq_nil by apply _.
Qed.

Lemma certificate_size c : id_bound c → (Z.of_nat (length (certificate_writer c [])) < 2 ^ 64)%Z.
Proof.
  intros Hi. destruct (id_bound_fits c Hi) as [Hn Hf].
  pose proof (write_all_size entry_fits entry_writer (2 ^ 34) _ _ ltac:(done) entry_size Hf) as Hl.
  pose proof (report_size (aac_report c)). pose proof (length_u32 (wrap 32 (Z.of_nat (length (aac_proofs c))))).
  unfold certificate_writer, proofs_writer, write_count. rewrite !write_seq_nil by apply _.
  rewrite !length_app, length_bytes32, length_magic.
  assert (Hm : (Z.of_nat (length (aac_proofs c)) <= 16384)%Z)
    by (unfold MAX_ALLOCATION_AUDIT_CERTIFICATE_PROOF_ENTRIES in Hn; lia).
  nia.
Qed.

Lemma certificate_decode_ok buf c :
  certificate_decode buf = Ok c ↔ certificate_encode c = Ok buf.
Proof.
  rewrite certificate_encode_ok. unfold certificate_decode. rewrite run_record_ok. split.
  - intros (r' & Hd). pose proof (wf_new buf) as Hw. sound_steps.
    match goal with H : acd ensure_consumed _ = _ |- _ => apply ensure_consumed_ok in H as [-> He] end.
    split; [done|]. eapply step_whole; [|exact He]. unfold certificate_writer. cbn. join_steps.
  - intros [Hi ->]. pose proof (step_whole_intro _ (certificate_size c Hi)) as Hs.
    exists (MkReader (certificate_writer c []) (length (certificate_writer c []))).
    set (r' := MkReader _ _) in Hs |- *. assert (He : r_pos r' = length (r_buf r')) by done.
    clearbody r'. pose proof (wf_new (certificate_writer c [])) as Hw.
    revert Hs Hw. generalize (reader_new (certificate_writer c [])). intros r Hs Hw.
    unfold certificate_writer in Hs. split_steps. complete_steps.
    2: by apply id_bound_fits.
    unfold acd. rewrite consumed_intro by done. rewrite (plift_intro _ _ _ _ Hi). cbn beta.
    rewrite (plift_intro _ _ _ ()) by by apply fail_if_neq_ok. destruct c. reflexivity.
Qed.

(** C27: Certificates are strict: [decode_canonical] accepts a buffer exactly
    when it is what [encode_canonical] writes for the certificate it returns, so
    its id is the hash of its body.  A wrong magic, trailing bytes, an unknown
    kind, a non-canonical option, an oversized blob or count, and a report or
    proof that the id does not bind are all refused, and every certificate that
    was written can be read. *)
Theorem certificate_decode_iff buf c :
  certificate_decode buf = Ok c ↔ certificate_encode c = Ok buf.
Proof. apply certificate_decode_ok. Qed.
End certificates.
