(* ===== verification/ZkManifestCorrect.v ===== *)
(** Stacks of the Groth16 precompile (what their public inputs are, when a stack
    proves a statement), and the certificate of a bundle: the verifier accepts
    what the builder makes. *)

From stdpp Require Import base list strings vector sets.
From Stdlib Require Import ZArith Lia Strings.Byte.
From S2P Require Import Prelude.
From S2P Require Import Bytes.
From S2P Require Import Encoding.
From S2P Require Import Types.
From S2P Require Import Commit.
From S2P Require Import AssetTypes.
From S2P Require Import AssetRules.
From S2P Require Import Asset.
From S2P Require Import AssetCorrect.
From S2P Require Import Lane.
From S2P Require Import Zk.
From S2P Require Import ZkCorrect.
From S2P Require Import ZkGadgets.
From S2P Require Import ZkCircuits.
From S2P Require Import ZkCircuitsCorrect.
From S2P Require Import ZkTransition.
From S2P Require Import ZkLane.
From S2P Require Import ZkAudit.
From S2P Require Import ZkAuditCorrect.
From S2P Require Import ZkAuditBundle.
From S2P Require Import ZkStack.
From S2P Require Import ZkCertificate.
From S2P Require Import ZkManifest.
From S2P Require Import ZkCertificateCorrect.

Open Scope list_scope.

(** * Loops *)

Lemma mapM_ok {E A B} (f : A → result E B) l k :
  mapM f l = Ok k ↔ Forall2 (λ x y, f x = Ok y) l k.
Proof.
  revert k. induction l as [|x l IH]; intros k; cbn.
  - split; [by intros [= <-]|by intros ->%Forall2_nil_inv_l].
  - rewrite bind_ok. setoid_rewrite bind_ok. setoid_rewrite IH. split.
    + intros (y & Hy & k' & Hk & [= <-]). by constructor.
    + intros (y & k' & Hy & Hk & ->)%Forall2_cons_inv_l. by exists y; split; [|exists k'].
Qed.

Lemma mapM_total {E A B} (f : A → result E B) g l : (∀ x, f x = Ok (g x)) → mapM f l = Ok (g <$> l).
Proof. intros Hf. apply mapM_ok. induction l; by constructor. Qed.

(** A loop of checks. *)
Lemma try_foldi_forall {E A} (P : A → Prop) (f : nat → A → result E unit) i l :
  (∀ i x, f i x = Ok () ↔ P x) → try_foldi (λ i _ x, f i x) i () l = Ok () ↔ Forall P l.
Proof.
  intros Hf. revert i. induction l as [|x l IH]; intros i; cbn [try_foldi]; [by split|].
  by rewrite bind_unit_ok, Hf, IH, list.Forall_cons.
Qed.

Lemma try_foldi_app {E S A} (f : nat → S → A → result E S) i s l k :
  try_foldi f i s (l ++ k) = s' ← try_foldi f i s l; try_foldi f (i + length l) s' k.
Proof.
  revert i s. induction l as [|x l IH]; intros i s; cbn [app try_foldi length].
  - cbn. by rewrite Nat.add_0_r.
  - destruct (f i s x) as [s'|e]; cbn; [|done]. rewrite IH. by rewrite Nat.add_succ_r.
Qed.

(** * Shapes *)

(** Fact: A plan for a circuit exists exactly for the counts of a supported
    shape, and it is that shape; the shape's own counts give it back, and none
    exceeds the bounds of the strategy. *)
Theorem plan_counts_iff str sc nc p :
  plan_counts str sc nc = Ok p ↔
    app_strategy p = str ∧ circuit_spent_count (app_shape p) = sc ∧ circuit_new_count (app_shape p) = nc.
Proof.
  unfold plan_counts. rewrite map_err_ok. unfold require_counts. rewrite bind_ok.
  setoid_rewrite ok_or_ok. setoid_rewrite from_counts_iff. split.
  - intros (s & [<- <-] & [= <-]). by destruct s.
  - destruct p as [str' sh]. cbn. intros (-> & <- & <-). exists (native_shape sh).
    by destruct sh.
Qed.

Lemma supported_shapes_within sh str :
  (circuit_spent_count sh <= max_spent_count str)%nat ∧ (circuit_new_count sh <= max_new_count str)%nat ∧
  sh ∈ SUPPORTED_ALLOCATION_CIRCUIT_SHAPES.
Proof.
  unfold max_spent_count, max_new_count, DEFAULT_ALLOCATION_MAX_SPENT, DEFAULT_ALLOCATION_MAX_NEW,
    ZK_MAX_SPENT, ZK_MAX_NEW, SUPPORTED_ALLOCATION_CIRCUIT_SHAPES.
  destruct str, sh; cbn; split_and!; try lia; set_solver.
Qed.

(** The length checks of the lane statements. *)
Lemma public_nodes_iff what first prefix len n :
  validate_public_nodes what first prefix len = Ok n ↔
    (0 < n)%nat ∧ len = (prefix + n * LANE_DISCOVERY_PUBLIC_INPUT_LEN)%nat.
Proof.
  unfold validate_public_nodes, LANE_DISCOVERY_PUBLIC_INPUT_LEN. cbv zeta.
  rewrite !bind_unit_ok, !fail_if_ok, (inj_iff Ok). split.
  - intros (Hl & Hm & Hn & <-). pose proof (Nat.div_mod_eq (len - prefix) 72). lia.
  - intros [Hn ->]. replace (prefix + n * 72 - prefix)%nat with (n * 72)%nat by lia.
    rewrite Nat.Div0.mod_mul, Nat.div_mul by done. lia.
Qed.

Section stacks.
Context `{Groth16Laws}.
Implicit Types (p : list byte) (st : Groth16PrecompileStack).

(** The 32 bytes of a field element. *)
Definition fr_bytes (f : Fr) : list byte :=
  match fr_serialize_uncompressed f with Ok b => b | Err _ => [] end.

Lemma fr_bytes_ok f : serialize_fr f = Ok (fr_bytes f) ∧ length (fr_bytes f) = 32%nat ∧
  fr_deserialize_uncompressed (fr_bytes f) = Ok f.
Proof.
  destruct (fr_serialized f) as (b & Hb & Hl & Hd). unfold serialize_fr, fr_bytes. rewrite Hb.
  cbn [map_err mbind result_bind]. rewrite fail_if_false by (intros Hn; by apply Hn). done.
Qed.

Definition stack_items p : list (list byte) := fr_bytes <$> public_inputs_as_fr p.

Lemma items_ok p n items :
  public_inputs_as_uncompressed_fr_bytes_with_len p n = Ok items ↔ length p = n ∧ items = stack_items p.
Proof.
  unfold public_inputs_as_uncompressed_fr_bytes_with_len.
  rewrite bind_unit_ok, fail_if_neq_ok, (mapM_total _ fr_bytes), (inj_iff Ok);
    [|intros; apply fr_bytes_ok]. unfold stack_items. naive_solver.
Qed.

Lemma items_as_fr k st p :
  gps_public_inputs st = stack_items p →
  groth16_stack_public_inputs_as_fr st k = Ok (public_inputs_as_fr p).
Proof.
  intros E. unfold groth16_stack_public_inputs_as_fr. rewrite E. apply mapM_ok. unfold stack_items.
  generalize (public_inputs_as_fr p). intros l. apply Forall2_same_length_lookup.
  rewrite length_imap, length_fmap. split; [done|]. intros i x y Hx Hy.
  rewrite list_lookup_imap, list_lookup_fmap, Hy in Hx. injection Hx as <-.
  destruct (fr_bytes_ok y) as (_ & Hl & Hd). unfold deserialize_public_input.
  rewrite fail_if_false by (intros Hn; by apply Hn). cbn [mbind result_bind]. by rewrite Hd.
Qed.

(** The stack holds a key and a proof that verifies for the statement's bytes. *)
Record stack_proves st p : Prop := {
  sp_tag : gps_tag st = ZK_TAG_GROTH16;
  sp_items : gps_public_inputs st = stack_items p;
  sp_verified : ∃ vk π, vk_deserialize_compressed (gps_verifying_key st) = Ok vk ∧
    proof_deserialize_compressed (gps_proof st) = Ok π ∧
    library_verify vk (public_inputs_as_fr p) π = Ok true
}.

Lemma verify_stack_iff k st p :
  verify_groth16_stack_against_public_inputs k st p = Ok () ↔ stack_proves st p.
Proof.
  unfold verify_groth16_stack_against_public_inputs.
  rewrite bind_unit_ok, fail_if_neq_ok, bind_ok. setoid_rewrite items_ok. split.
  - intros (Ht & items & [_ ->] & Hr). rewrite bind_unit_ok, fail_if_neq_ok in Hr.
    destruct Hr as [Hi Hr]. inv_ok. rewrite (items_as_fr k st p Hi) in *. unfold verify in *. inv_ok.
    constructor; [done..|]. do 2 eexists. split_and!; [done..|].
    match goal with H : _ = Ok ?b, Hn : ¬ (?b = false) |- _ =>
      apply not_false_iff_true in Hn; rewrite Hn in H; exact H end.
  - intros [Ht Hi (vk & π & Hvk & Hπ & Hv)]. split; [done|]. exists (stack_items p). split; [done|].
    rewrite bind_unit_ok, fail_if_neq_ok. split; [done|]. rewrite Hvk, Hπ.
    cbn [map_err mbind result_bind]. rewrite (items_as_fr k st p Hi). cbn [mbind result_bind].
    unfold verify. rewrite Hv. cbn [map_err mbind result_bind]. by apply fail_if_false.
Qed.

(** Fact: A stack built for a proof that verifies proves its statement: the
    builder for a layout of [n] bytes, over a verifying key and a proof that the
    library accepts for the public inputs, succeeds exactly on inputs of that
    length, and the certificate's check accepts what it returns. *)
Theorem built_stack_proves items vk π p n k :
  items = (λ p, public_inputs_as_uncompressed_fr_bytes_with_len p n) →
  library_verify vk (public_inputs_as_fr p) π = Ok true →
  (length p = n ↔ ∃ st, precompile_stack items vk π p = Ok st) ∧
  ∀ st, precompile_stack items vk π p = Ok st →
    verify_groth16_stack_against_public_inputs k st p = Ok ().
Proof.
  intros -> Hv. destruct (vk_serialized vk) as (bv & Ev & Dv).
  destruct (proof_serialized π) as (bp & Ep & Dp).
  assert (Hb : ∀ st, precompile_stack (λ p, public_inputs_as_uncompressed_fr_bytes_with_len p n) vk π p
      = Ok st ↔ length p = n ∧ st = {| gps_tag := ZK_TAG_GROTH16; gps_verifying_key := bv;
        gps_proof := bp; gps_public_inputs := stack_items p |}).
  { intros st. unfold precompile_stack, serialize_verifying_key_for_precompile,
      serialize_proof_for_precompile. rewrite Ev, Ep. cbn [map_err mbind result_bind].
    rewrite bind_ok. setoid_rewrite items_ok. split.
    - intros (i & [Hl ->] & [= <-]). done.
    - intros [Hl ->]. by exists (stack_items p). }
  split.
  - split; [intros Hl; eexists; by apply Hb|by intros (st & [Hl _]%Hb)].
  - intros st [_ ->]%Hb. apply verify_stack_iff. constructor; [done..|]. by exists vk, π.
Qed.
End stacks.

(** * Reading statements back *)

Lemma public_slice_ok p off len label field :
  (off + len <= length p)%nat → (Z.of_nat (off + len) < 2 ^ 64)%Z →
  public_slice_at p off len label field = Ok (slice p off (off + len)).
Proof.
  intros Hl Hz. unfold public_slice_at, checked_add_usize. rewrite decide_True by lia.
  cbn [ok_or mbind result_bind]. unfold get_slice. rewrite decide_True by lia. cbn [ok_or].
  do 2 f_equal. lia.
Qed.

Lemma public_bytes32_ok p off label field (b : Bytes32) :
  (off + 32 <= length p)%nat → (Z.of_nat (off + 32) < 2 ^ 64)%Z → slice p off (off + 32) = b →
  public_bytes32_at p off label field = Ok b.
Proof.
  intros Hl Hz E. unfold public_bytes32_at. rewrite public_slice_ok, E by done.
  cbn [mbind result_bind]. by rewrite to_array_blist.
Qed.

Lemma public_u64_ok p off label field (v : u64) :
  (off + 8 <= length p)%nat → (Z.of_nat (off + 8) < 2 ^ 64)%Z → slice p off (off + 8) = u64_le v →
  public_u64_at p off label field = Ok v.
Proof.
  intros Hl Hz E. unfold public_u64_at. rewrite public_slice_ok, E by done.
  cbn [mbind result_bind]. f_equal. by apply wrap_le_val.
Qed.

Lemma public_chain_ok p off label c :
  (off + 8 <= length p)%nat → (Z.of_nat (off + 8) < 2 ^ 64)%Z →
  slice p off (off + 8) = chain_id_tagged_le_u32 c → public_chain_id_at p off label = Ok c.
Proof.
  intros Hl Hz E. unfold public_chain_id_at, public_u32_at.
  rewrite !public_slice_ok by lia. cbn [mbind result_bind].
  assert (E0 : slice p off (off + 4) = take 4 (chain_id_tagged_le_u32 c)).
  { rewrite <-E. unfold slice. rewrite take_take. f_equal. lia. }
  assert (E1 : slice p (off + 4) (off + 4 + 4) = drop 4 (chain_id_tagged_le_u32 c)).
  { rewrite <-E. unfold slice. rewrite skipn_firstn_comm, drop_drop. f_equal; lia. }
  rewrite E0, E1. by destruct c.
Qed.

(** Solves the length side conditions of the readers. *)
Ltac in_public len := rewrite len; vm_compute; lia.

Lemma parse_transcript_iff {ALLOCS} p label (s : AllocationTranscriptSegmentStatement ALLOCS) :
  parse_allocation_transcript_public_inputs ALLOCS p label = Ok s ↔ p = transcript_public_inputs s.
Proof.
  unfold parse_allocation_transcript_public_inputs. cbv zeta. split.
  - intros Hp. unfold check_public_len, ensure_canonical_public_inputs in Hp. inv_ok. done.
  - intros ->. unfold check_public_len, ensure_canonical_public_inputs.
    pose proof (transcript_length s) as Hl. destruct (transcript_bytes s) as [_ E72].
    rewrite (fail_if_false (length _ ≠ _)) by (rewrite Hl; intros Hn; by apply Hn). cbn [mbind result_bind].
    rewrite E72. assert (parse_allocation_transcript_side (side_as_u8 (ats_side s)) label = Ok (ats_side s))
      as -> by by destruct (ats_side s). cbn [mbind result_bind].
    assert (slice (transcript_public_inputs s) 73 80 = replicate 7 x00) as -> by by transcript_slices s.
    rewrite fail_if_false by done. cbn [mbind result_bind].
    erewrite !public_bytes32_ok, public_chain_ok, !public_u64_ok;
      try (by transcript_slices s); try (in_public Hl). cbn [mbind result_bind].
    destruct s. rewrite fail_if_false by (intros Hn; by apply Hn). done.
Qed.

Lemma parse_conservation_iff {ALLOCS} p label (s : AllocationConservationSegmentStatement ALLOCS) :
  parse_allocation_conservation_public_inputs ALLOCS p label = Ok s ↔ p = conservation_public_inputs s.
Proof.
  unfold parse_allocation_conservation_public_inputs. cbv zeta. split.
  - intros Hp. unfold check_public_len, ensure_canonical_public_inputs in Hp. inv_ok. done.
  - intros ->. unfold check_public_len, ensure_canonical_public_inputs.
    pose proof (conservation_length s) as Hl.
    rewrite (fail_if_false (length _ ≠ _)) by (rewrite Hl; intros Hn; by apply Hn). cbn [mbind result_bind].
    assert (take 128 (conservation_public_inputs s) = transcript_public_inputs (acs_transcript s)) as E.
    { change (take 128 ?l) with (slice l 0 128). by conservation_slices s. }
    unfold ALLOCATION_TRANSCRIPT_SEGMENT_PUBLIC_INPUT_LEN. rewrite E.
    rewrite (proj2 (parse_transcript_iff _ label (acs_transcript s)) eq_refl). cbn [mbind result_bind].
    erewrite !public_bytes32_ok; try (by conservation_slices s); try (in_public Hl).
    cbn [mbind result_bind]. destruct s. rewrite fail_if_false by (intros Hn; by apply Hn). done.
Qed.

Lemma parse_final_iff p label s :
  parse_allocation_conservation_final_public_inputs p label = Ok s ↔ p = final_public_inputs s.
Proof.
  unfold parse_allocation_conservation_final_public_inputs. cbv zeta. split.
  - intros Hp. unfold check_public_len, ensure_canonical_public_inputs in Hp. inv_ok. done.
  - intros ->. unfold check_public_len, ensure_canonical_public_inputs.
    pose proof (final_length s) as Hl.
    rewrite (fail_if_false (length _ ≠ _)) by (rewrite Hl; intros Hn; by apply Hn). cbn [mbind result_bind].
    erewrite !public_u64_ok, !public_bytes32_ok; try (by final_slices s); try (in_public Hl).
    cbn [mbind result_bind]. destruct s. rewrite fail_if_false by (intros Hn; by apply Hn). done.
Qed.

Lemma parse_exclusion_iff {SPENT NEW} p label (s : AllocationExclusionSegmentPairStatement SPENT NEW) :
  parse_allocation_exclusion_public_inputs SPENT NEW p label = Ok s ↔ p = exclusion_public_inputs s.
Proof.
  unfold parse_allocation_exclusion_public_inputs. cbv zeta. split.
  - intros Hp. unfold check_public_len, ensure_canonical_public_inputs in Hp. inv_ok. done.
  - intros ->. unfold check_public_len, ensure_canonical_public_inputs.
    pose proof (exclusion_length s) as Hl.
    rewrite (fail_if_false (length _ ≠ _)) by (rewrite Hl; intros Hn; by apply Hn). cbn [mbind result_bind].
    erewrite !public_bytes32_ok, public_chain_ok, !public_u64_ok;
      try (by exclusion_slices s); try (in_public Hl).
    cbn [mbind result_bind]. destruct s. rewrite fail_if_false by (intros Hn; by apply Hn). done.
Qed.

(** * Entries *)

(** An entry and a row of the manifest agree up to the stack. *)
Record same_row (a e : AllocationAuditProofEntry) : Prop := {
  sr_kind : ape_kind a = ape_kind e;
  sr_spent : ape_spent_segment_index a = ape_spent_segment_index e;
  sr_new : ape_new_segment_index a = ape_new_segment_index e;
  sr_public : ape_public_inputs a = ape_public_inputs e
}.

Lemma entry_differs_false a e : entry_differs a e = false ↔ same_row a e.
Proof.
  unfold entry_differs. rewrite !orb_false_iff, !bool_decide_eq_false. split.
  - intros [[[? ?] ?] ?]. constructor; by apply dec_stable.
  - intros []. by split_and!; intros Hn; apply Hn.
Qed.

(** The entries of a certificate are the manifest of the bundle. *)
Definition follows (l : list AllocationAuditProofEntry) {SPENT NEW} (b : AllocationAuditBundle SPENT NEW)
  : Prop := Forall2 same_row l (append_allocation_audit_manifest_entries b).

Lemma zip_forall {A B} (R : A → B → Prop) l k :
  length l = length k → Forall (λ p, R p.1 p.2) (zip l k) ↔ Forall2 R l k.
Proof.
  revert k. induction l as [|x l IH]; intros [|y k] Hl; try done.
  cbn [zip zip_with]. injection Hl as Hl. rewrite list.Forall_cons, IH by done. cbn.
  split; [intros [? ?]; by constructor|by intros [? ?]%Forall2_cons].
Qed.

Lemma forall2_fst {A B} (P : A → Prop) (R : A → B → Prop) l k :
  Forall2 (λ x y, R x y ∧ P x) l k ↔ Forall2 R l k ∧ Forall P l.
Proof.
  split.
  - induction 1 as [|x y l k [Hr Hp] _ [IHr IHp]]; by split; constructor.
  - intros [HR HP]. induction HR as [|x y l k Hr _ IH]; [by constructor|].
    apply list.Forall_cons in HP as [Hp HP]. constructor; [by split|by apply IH].
Qed.

Section certificates.
Context `{Sha256} `{Groth16Laws}.
Implicit Types (c : AllocationAuditCertificate) (e : AllocationAuditProofEntry)
  (l : list AllocationAuditProofEntry).

Definition entry_proves e : Prop := stack_proves (ape_stack e) (ape_public_inputs e).

Lemma verify_certificate_iff {SPENT NEW} c (b : AllocationAuditBundle SPENT NEW) r :
  verify_allocation_audit_certificate c b = Ok r ↔
    verify_allocation_audit_bundle b = Ok r ∧ aac_report c = r ∧ follows (aac_proofs c) b ∧
    Forall entry_proves (aac_proofs c) ∧ id_bound c.
Proof.
  unfold verify_allocation_audit_certificate, id_bound, follows. cbv zeta.
  generalize (verify_allocation_audit_bundle b) as V. intros V. rewrite bind_ok. setoid_rewrite bind_unit_ok. setoid_rewrite fail_if_neq_ok.
  setoid_rewrite bind_unit_ok. setoid_rewrite fail_if_neq_ok. setoid_rewrite bind_unit_ok.
  assert (Hloop : ∀ k : list AllocationAuditProofEntry, length (aac_proofs c) = length k →
    try_foldi (λ index _ p,
        _ ← fail_if (entry_differs p.1 p.2 = true)
              (entry_error index " does not match the bundle manifest");
        verify_groth16_stack_against_public_inputs (ape_kind p.1) (ape_stack p.1)
          (ape_public_inputs p.1)) 0 () (zip (aac_proofs c) k) = Ok () ↔
    Forall2 same_row (aac_proofs c) k ∧ Forall entry_proves (aac_proofs c)).
  { intros k Hl. rewrite (try_foldi_forall (λ p, same_row p.1 p.2 ∧ entry_proves p.1)).
    - rewrite (zip_forall (λ x y, same_row x y ∧ entry_proves x)) by done. apply forall2_fst.
    - intros i [x y]. cbn [fst snd]. rewrite bind_unit_ok, fail_if_ok, verify_stack_iff.
      by rewrite not_true_iff_false, entry_differs_false. }
  split.
  - intros (r' & Hb & <- & Hl & Hr). rewrite Hloop in Hr by done. destruct Hr as ([Hf Hp] & Hr).
    apply bind_ok in Hr as (i & Hi & Hr). rewrite bind_unit_ok, fail_if_neq_ok in Hr.
    destruct Hr as [-> [= <-]]. by split_and!.
  - intros (Hb & <- & Hf & Hp & Hi). exists (aac_report c).
    do 2 (split; [done|]). split; [by eapply Forall2_length|].
    rewrite Hloop by (by eapply Forall2_length). split; [done|]. rewrite Hi. cbn [mbind result_bind].
    rewrite fail_if_false by (intros Hn; by apply Hn). done.
Qed.

(** * What the builder makes *)

Lemma verified_entry_ok e st out :
  verified_allocation_audit_proof_entry (e, st) = Ok out ↔
    same_row out e ∧ ape_stack out = st ∧ entry_proves out.
Proof.
  unfold verified_allocation_audit_proof_entry, entry_proves.
  rewrite bind_unit_ok, verify_stack_iff, (inj_iff Ok). split.
  - intros [Hp <-]. split_and!; [by constructor|done|done].
  - intros ([] & <- & Hp). destruct out. cbn in *. subst. done.
Qed.

(** One side of the certificate: the rows of some statements, with the stacks. *)
Definition rows l rs (sts : list Groth16PrecompileStack) : Prop :=
  Forall2 same_row l rs ∧ ape_stack <$> l = sts ∧ Forall entry_proves l.

Lemma push_rows rs sts out :
  length sts = length rs →
  mapM verified_allocation_audit_proof_entry (zip rs sts) = Ok out ↔ rows out rs sts.
Proof.
  unfold rows. rewrite mapM_ok. revert sts out. induction rs as [|e rs IH]; intros [|st sts] out Hl; try done.
  - cbn. split; [intros ->%Forall2_nil_inv_l|intros (->%Forall2_nil_inv_r & _)]; [by split_and!|constructor].
  - cbn [zip zip_with]. injection Hl as Hl. split.
    + intros (o & out' & (Hs & <- & Hp)%verified_entry_ok & Ho & ->)%Forall2_cons_inv_l.
      apply IH in Ho as (? & <- & ?); [|done]. split_and!; by constructor.
    + intros (Hf & Hst & Hp). apply Forall2_cons_inv_r in Hf as (o & out' & Hs & Hf & ->).
      injection Hst as <- Hst. apply list.Forall_cons in Hp as [Hp Hps]. constructor.
      * by apply verified_entry_ok.
      * by apply IH.
Qed.
Lemma rows_app l rs rs' sts sts' :
  length sts = length rs →
  rows l (rs ++ rs') (sts ++ sts') ↔ ∃ l1 l2, l = l1 ++ l2 ∧ rows l1 rs sts ∧ rows l2 rs' sts'.
Proof.
  intros Hl. unfold rows. split.
  - intros (Hf & Hs & Hp). apply Forall2_app_inv_r in Hf as (l1 & l2 & Q1 & Q2 & ->).
    rewrite fmap_app in Hs. apply app_inj_1 in Hs as [Hs1 Hs2];
      [|by rewrite length_fmap, (Forall2_length _ _ _ Q1)].
    apply Forall_app in Hp as [? ?]. exists l1, l2. by split_and!.
  - intros (l1 & l2 & -> & (? & <- & ?) & (? & <- & ?)).
    rewrite fmap_app. split_and!; [by apply Forall2_app|done|by apply Forall_app].
Qed.

(** The stacks in the order of the manifest. *)
Definition stack_list (s : AllocationAuditBundleStacks) : list Groth16PrecompileStack :=
  abs_spent_transcripts s ++ abs_new_transcripts s ++ abs_spent_conservation s ++
  abs_new_conservation s ++ [abs_final_conservation s] ++ abs_exclusions s.

Record stacks_for {SPENT NEW} (b : AllocationAuditBundle SPENT NEW) (s : AllocationAuditBundleStacks)
  : Prop := {
  sk_spent_transcripts : length (abs_spent_transcripts s) = length (aab_spent_transcripts b);
  sk_new_transcripts : length (abs_new_transcripts s) = length (aab_new_transcripts b);
  sk_spent_conservation : length (abs_spent_conservation s) = length (aab_spent_conservation b);
  sk_new_conservation : length (abs_new_conservation s) = length (aab_new_conservation b);
  sk_exclusions : length (abs_exclusions s) = length (aab_exclusions b)
}.

Lemma append_entries_iff {SPENT NEW} (b : AllocationAuditBundle SPENT NEW) stacks l :
  append_allocation_audit_certificate_entries b stacks = Ok l ↔
    stacks_for b stacks ∧ rows l (append_allocation_audit_manifest_entries b) (stack_list stacks).
Proof.
  unfold append_allocation_audit_certificate_entries, check_stack_count,
    append_allocation_audit_manifest_entries, stack_list. cbv zeta.
  rewrite !bind_unit_ok, !fail_if_neq_ok.
  assert (Hrows : ∀ (l : list AllocationAuditProofEntry) e st, rows l [e] [st] ↔
    ∃ o, l = [o] ∧ verified_allocation_audit_proof_entry (e, st) = Ok o).
  { intros k e st. rewrite <-(push_rows [e] [st]), mapM_ok by done. cbn [zip zip_with]. split.
    - intros (o & ? & Ho & ->%Forall2_nil_inv_l & ->)%Forall2_cons_inv_l. by exists o.
    - intros (o & -> & Ho). by repeat constructor. }
  split.
  - intros (Q1 & Q2 & Q3 & Q4 & Q5 & Hr). split; [by constructor|].
    apply bind_ok in Hr as (l1 & Hl1 & Hr). apply bind_ok in Hr as (l2 & Hl2 & Hr).
    apply bind_ok in Hr as (l3 & Hl3 & Hr). apply bind_ok in Hr as (l4 & Hl4 & Hr).
    apply bind_ok in Hr as (o & Ho & Hr). apply bind_ok in Hr as (l6 & Hl6 & [= <-]).
    rewrite push_rows in Hl1, Hl2, Hl3, Hl4, Hl6 by by rewrite length_fmap.
    rewrite !rows_app by (rewrite ?length_fmap; done).
    exists l1, (l2 ++ l3 ++ l4 ++ [o] ++ l6). split; [done|]. split; [done|].
    repeat (rewrite rows_app by (rewrite ?length_fmap; done); do 2 eexists; split; [reflexivity|];
            split; [eassumption || (apply Hrows; eauto)|]). done.
  - intros ([Q1 Q2 Q3 Q4 Q5] & Hr). split_and!; try done.
    rewrite rows_app in Hr by by rewrite length_fmap. destruct Hr as (l1 & ? & -> & Hl1 & Hr).
    rewrite rows_app in Hr by by rewrite length_fmap. destruct Hr as (l2 & ? & -> & Hl2 & Hr).
    rewrite rows_app in Hr by by rewrite length_fmap. destruct Hr as (l3 & ? & -> & Hl3 & Hr).
    rewrite rows_app in Hr by by rewrite length_fmap. destruct Hr as (l4 & ? & -> & Hl4 & Hr).
    rewrite rows_app in Hr by done. destruct Hr as (l5 & l6 & -> & Hl5 & Hl6).
    apply Hrows in Hl5 as (o & -> & Ho).
    rewrite <-push_rows in Hl1, Hl2, Hl3, Hl4, Hl6 by by rewrite length_fmap.
    rewrite Hl1. cbn [mbind result_bind]. rewrite Hl2. cbn [mbind result_bind].
    rewrite Hl3. cbn [mbind result_bind]. rewrite Hl4. cbn [mbind result_bind].
    rewrite Ho. cbn [mbind result_bind]. by rewrite Hl6.
Qed.

Lemma stacks_exist {SPENT NEW} (b : AllocationAuditBundle SPENT NEW) l :
  follows l b → ∃ stacks, stacks_for b stacks ∧ stack_list stacks = ape_stack <$> l.
Proof.
  unfold follows, append_allocation_audit_manifest_entries. intros Hf.
  apply Forall2_app_inv_r in Hf as (l1 & ? & Q1 & Hf & ->).
  apply Forall2_app_inv_r in Hf as (l2 & ? & Q2 & Hf & ->).
  apply Forall2_app_inv_r in Hf as (l3 & ? & Q3 & Hf & ->).
  apply Forall2_app_inv_r in Hf as (l4 & ? & Q4 & Hf & ->).
  apply Forall2_cons_inv_r in Hf as (e & l6 & _ & Q6 & ->).
  apply Forall2_length in Q1, Q2, Q3, Q4, Q6. rewrite length_fmap in Q1. rewrite length_fmap in Q2.
  rewrite length_fmap in Q3. rewrite length_fmap in Q4. rewrite length_fmap in Q6.
  exists {| abs_spent_transcripts := ape_stack <$> l1; abs_new_transcripts := ape_stack <$> l2;
    abs_spent_conservation := ape_stack <$> l3; abs_new_conservation := ape_stack <$> l4;
    abs_final_conservation := ape_stack e; abs_exclusions := ape_stack <$> l6 |}.
  split; [by constructor; cbn; rewrite length_fmap|]. unfold stack_list. cbn.
  by rewrite !fmap_app.
Qed.

Lemma build_certificate_iff {SPENT NEW} (b : AllocationAuditBundle SPENT NEW) stacks c :
  build_allocation_audit_certificate b stacks = Ok c ↔
    verify_allocation_audit_bundle b = Ok (aac_report c) ∧ stacks_for b stacks ∧
    rows (aac_proofs c) (append_allocation_audit_manifest_entries b) (stack_list stacks) ∧ id_bound c.
Proof.
  unfold build_allocation_audit_certificate, id_bound. split.
  - intros (r & HV & (l & Hl & (i & Hi & [= <-])%bind_ok)%bind_ok)%bind_ok.
    apply append_entries_iff in Hl as [Hs Hr]. by split_and!.
  - intros (HV & Hs & Hr & Hi). rewrite HV. cbn [mbind result_bind].
    rewrite (proj2 (append_entries_iff b stacks (aac_proofs c)) (conj Hs Hr)). cbn [mbind result_bind].
    rewrite Hi. cbn [mbind result_bind]. by destruct c.
Qed.

(** C26: A certificate verifies against a bundle exactly when it is what
    [build_allocation_audit_certificate] makes of that bundle from some stacks,
    and the report returned is the one it carries: no entry can be missing,
    added, moved or changed, no proof can fail, and the id is that of its body. *)
Theorem certificate_verifies_iff_built {SPENT NEW} c (b : AllocationAuditBundle SPENT NEW) r :
  verify_allocation_audit_certificate c b = Ok r ↔
    aac_report c = r ∧ ∃ stacks, build_allocation_audit_certificate b stacks = Ok c.
Proof.
  rewrite verify_certificate_iff. setoid_rewrite build_certificate_iff. unfold rows, follows. split.
  - intros (Hb & <- & Hf & Hp & Hi). split; [done|].
    destruct (stacks_exist b (aac_proofs c) Hf) as (stacks & Hs & E). exists stacks. by split_and!.
  - intros (<- & stacks & Hb & Hs & (Hf & _ & Hp) & Hi). by split_and!.
Qed.
End certificates.
