(* ===== verification/ZkCertificateAudit.v ===== *)
(** Audit certificates by themselves: the self-contained verifier against the
    verifier that is given the bundle, and what a verified certificate shows. *)

From stdpp Require Import base list strings vector sorting.
From Stdlib Require Import ZArith Lia Strings.Byte.
From S2P Require Import Prelude.
From S2P Require Import Bytes.
From S2P Require Import Encoding.
From S2P Require Import Types.
From S2P Require Import Commit.
From S2P Require Import AssetTypes.
From S2P Require Import AssetRules.
From S2P Require Import Asset.
From S2P Require Import AssetCorrect.
From S2P Require Import Lane.
From S2P Require Import ZkCorrect.
From S2P Require Import ZkGadgets.
From S2P Require Import ZkCircuits.
From S2P Require Import ZkAudit.
From S2P Require Import ZkAuditCorrect.
From S2P Require Import ZkAuditBundle.
From S2P Require Import ZkStack.
From S2P Require Import ZkCertificate.
From S2P Require Import ZkCertificateCorrect.
From S2P Require Import ZkManifest.
From S2P Require Import ZkManifestCorrect.

Open Scope list_scope.

(** * Sorted by key *)

Section sorted.
Context {A K : Type} `{OrdLaws K} (key : A → K).

Definition in_key_order (l : list A) : Prop := StronglySorted (λ x y, ole (key x) (key y)) l.

Lemma sort_in_order l : in_key_order l → sort_by_key key l = l.
Proof.
  induction 1 as [|x l Hl IH Hx]; [done|]. cbn [sort_by_key foldr]. fold (sort_by_key key l).
  rewrite IH. destruct Hx as [|y l Hxy Hx]; [done|]. cbn [insert_by_key]. unfold ole in Hxy.
  by destruct (cmp (key x) (key y)).
Qed.
End sorted.

Lemma in_order_fmap {A B K} `{OrdLaws K} (key : B → K) (f : A → B) l :
  in_key_order key (f <$> l) → in_key_order (λ x, key (f x)) l.
Proof.
  unfold in_key_order. induction l as [|x l IH]; cbn; [constructor|].
  intros [Hl Hx]%StronglySorted_inv. constructor; [by apply IH|].
  apply (list.Forall_fmap f) in Hx. exact Hx.
Qed.

Lemma linked_in_order {ALLOCS} side c total i root (l : list (AllocationTranscriptSegmentStatement ALLOCS)) :
  linked side c total i root l →
  in_key_order ats_segment_index l ∧ Forall (λ s, (Z.of_nat i <= uval (ats_segment_index s))%Z) l ∧
  Forall (λ s, ats_side s = side) l.
Proof.
  revert i root. induction l as [|s l IH]; intros i root; cbn [linked].
  { intros _. split_and!; constructor. }
  intros (Hi & Hs & _ & Hx & _ & _ & Hl). apply IH in Hl as (Ho & Hge & Hsd).
  assert (Ei : uval (ats_segment_index s) = Z.of_nat i) by (rewrite Hx; apply uval_wrap_small; lia).
  split_and!; constructor; try done; try lia.
  - eapply Forall_impl; [exact Hge|]. cbn. intros t Ht. unfold ole, cmp, uint_ord.
    intros Hc%Z.compare_gt_iff. lia.
  - eapply Forall_impl; [exact Hge|]. cbn. intros t Ht. lia.
Qed.

Section verified.
Context `{Sha256} `{Groth16Laws}.
Implicit Types (c : AllocationAuditCertificate) (e : AllocationAuditProofEntry)
  (l : list AllocationAuditProofEntry).

(** What the order of the manifest needs of an accepted bundle. *)
Record bundle_ordered {SPENT NEW} (b : AllocationAuditBundle SPENT NEW) : Prop := {
  bo_spent : in_key_order ats_segment_index (aab_spent_transcripts b);
  bo_new : in_key_order ats_segment_index (aab_new_transcripts b);
  bo_spent_side : Forall (λ s, ats_side s = Spent) (aab_spent_transcripts b);
  bo_new_side : Forall (λ s, ats_side s = New) (aab_new_transcripts b);
  bo_spent_bound : acs_transcript <$> aab_spent_conservation b = aab_spent_transcripts b;
  bo_new_bound : acs_transcript <$> aab_new_conservation b = aab_new_transcripts b
}.

Lemma accepted_ordered {SPENT NEW} (b : AllocationAuditBundle SPENT NEW) r :
  verify_allocation_audit_bundle b = Ok r → bundle_ordered b.
Proof.
  unfold verify_allocation_audit_bundle. cbv zeta. intros Hv.
  apply bind_unit_ok in Hv as [_ Hv]. apply bind_ok in Hv as (ts & Hs & Hv).
  apply bind_ok in Hv as (tn & Hn & Hv).
  rewrite !bind_unit_ok in Hv. destruct Hv as (_ & _ & _ & Vs & Vn & _).
  apply transcript_chain_ok in Hs as (_ & _ & _ & Ls & _), Hn as (_ & _ & _ & Ln & _).
  apply conservation_chain_ok in Vs as (Es & _), Vn as (En & _).
  destruct (linked_in_order _ _ _ _ _ _ Ls) as (? & _ & ?).
  destruct (linked_in_order _ _ _ _ _ _ Ln) as (? & _ & ?). by constructor.
Qed.

Lemma bound_sides {ALLOCS} side (l : list (AllocationConservationSegmentStatement ALLOCS)) ts :
  acs_transcript <$> l = ts → Forall (λ s, ats_side s = side) ts →
  Forall (λ s, ats_side (acs_transcript s) = side) l.
Proof. intros <- Hf. apply (list.Forall_fmap acs_transcript) in Hf. exact Hf. Qed.

(** * The loop over the entries *)

Lemma collect_proves {SPENT NEW} i (p p' : AuditParts SPENT NEW) l :
  try_foldi collect_entry i p l = Ok p' → Forall entry_proves l.
Proof.
  revert i p. induction l as [|e l IH]; intros i p; cbn [try_foldi]; [constructor|].
  intros (q & He & Hl)%bind_ok. constructor; [|by eapply IH].
  destruct p. unfold collect_entry in He. apply bind_unit_ok in He as [He _].
  by apply verify_stack_iff in He.
Qed.

(** A run of entries of one kind appends their statements. *)
Lemma collect_run {SPENT NEW S} (row : S → AllocationAuditProofEntry) (P : S → Prop)
    (upd : AuditParts SPENT NEW → list S → AuditParts SPENT NEW) i p l ss :
  (∀ p, upd p [] = p) → (∀ p s ss, upd (upd p [s]) ss = upd p (s :: ss)) →
  (∀ i p e s, P s → same_row e (row s) → entry_proves e → collect_entry i p e = Ok (upd p [s])) →
  Forall P ss → Forall2 same_row l (row <$> ss) → Forall entry_proves l →
  try_foldi collect_entry i p l = Ok (upd p ss).
Proof.
  intros Hn Hc Hr HP Hf Hp. revert i p l Hf Hp. induction HP as [|s ss Hs _ IH]; intros i p l Hf Hp.
  - apply Forall2_nil_inv_r in Hf as ->. cbn. by rewrite Hn.
  - apply Forall2_cons_inv_r in Hf as (e & l' & He & Hf & ->).
    apply list.Forall_cons in Hp as [Hpe Hp]. cbn [try_foldi].
    rewrite (Hr i p e s Hs He Hpe). cbn [mbind result_bind]. rewrite IH by done. by rewrite Hc.
Qed.

(** Runs the body of the loop on an entry of a known row. *)
Ltac run_row Hrow Hp parse :=
  destruct Hrow as [Ek Es En Ep]; unfold collect_entry; cbn in Ek, Es, En, Ep;
  rewrite Ek, (proj2 (verify_stack_iff _ _ _) Hp); cbn [mbind result_bind];
  rewrite (proj2 (parse _ _ _) Ep); cbn [mbind result_bind].

Ltac pass_checks :=
  repeat (rewrite fail_if_false by (try (intros [|]); congruence || (intros Hn; by apply Hn)));
  cbn [mbind result_bind].

Definition add_transcripts {SPENT NEW} (p : AuditParts SPENT NEW) ss : AuditParts SPENT NEW :=
  let '(Build_AuditParts _ _ st nt sc nc f ex) := p in Build_AuditParts _ _ (st ++ ss) nt sc nc f ex.
Definition add_new_transcripts {SPENT NEW} (p : AuditParts SPENT NEW) ss : AuditParts SPENT NEW :=
  let '(Build_AuditParts _ _ st nt sc nc f ex) := p in Build_AuditParts _ _ st (nt ++ ss) sc nc f ex.
Definition add_conservation {SPENT NEW} (p : AuditParts SPENT NEW) ss : AuditParts SPENT NEW :=
  let '(Build_AuditParts _ _ st nt sc nc f ex) := p in Build_AuditParts _ _ st nt (sc ++ ss) nc f ex.
Definition add_new_conservation {SPENT NEW} (p : AuditParts SPENT NEW) ss : AuditParts SPENT NEW :=
  let '(Build_AuditParts _ _ st nt sc nc f ex) := p in Build_AuditParts _ _ st nt sc (nc ++ ss) f ex.
Definition add_exclusions {SPENT NEW} (p : AuditParts SPENT NEW) ss : AuditParts SPENT NEW :=
  let '(Build_AuditParts _ _ st nt sc nc f ex) := p in Build_AuditParts _ _ st nt sc nc f (ex ++ ss).

Ltac add_laws :=
  [> intros []; cbn; by rewrite app_nil_r | intros [] ??; cbn; by rewrite <-app_assoc | idtac ].

Lemma collect_transcripts {SPENT NEW} i (p : AuditParts SPENT NEW) l ss :
  Forall (λ s, ats_side s = Spent) ss → Forall2 same_row l (transcript_entry Spent <$> ss) →
  Forall entry_proves l → try_foldi collect_entry i p l = Ok (add_transcripts p ss).
Proof.
  apply collect_run; add_laws. intros j [] e s Hs Hrow Hp.
  run_row Hrow Hp (@parse_transcript_iff SPENT).
  unfold check_allocation_audit_entry_indices. pass_checks. done.
Qed.

Lemma collect_new_transcripts {SPENT NEW} i (p : AuditParts SPENT NEW) l ss :
  Forall (λ s, ats_side s = New) ss → Forall2 same_row l (transcript_entry New <$> ss) →
  Forall entry_proves l → try_foldi collect_entry i p l = Ok (add_new_transcripts p ss).
Proof.
  apply collect_run; add_laws. intros j [] e s Hs Hrow Hp.
  run_row Hrow Hp (@parse_transcript_iff NEW).
  unfold check_allocation_audit_entry_indices. pass_checks. done.
Qed.

Lemma collect_conservation {SPENT NEW} i (p : AuditParts SPENT NEW) l ss :
  Forall (λ s, ats_side (acs_transcript s) = Spent) ss →
  Forall2 same_row l (conservation_entry Spent <$> ss) →
  Forall entry_proves l → try_foldi collect_entry i p l = Ok (add_conservation p ss).
Proof.
  apply collect_run; add_laws. intros j [] e s Hs Hrow Hp.
  run_row Hrow Hp (@parse_conservation_iff SPENT).
  unfold check_allocation_audit_entry_indices. pass_checks. done.
Qed.

Lemma collect_new_conservation {SPENT NEW} i (p : AuditParts SPENT NEW) l ss :
  Forall (λ s, ats_side (acs_transcript s) = New) ss →
  Forall2 same_row l (conservation_entry New <$> ss) →
  Forall entry_proves l → try_foldi collect_entry i p l = Ok (add_new_conservation p ss).
Proof.
  apply collect_run; add_laws. intros j [] e s Hs Hrow Hp.
  run_row Hrow Hp (@parse_conservation_iff NEW).
  unfold check_allocation_audit_entry_indices. pass_checks. done.
Qed.

Lemma collect_exclusions {SPENT NEW} i (p : AuditParts SPENT NEW) l ss :
  Forall2 same_row l (exclusion_entry <$> ss) →
  Forall entry_proves l → try_foldi collect_entry i p l = Ok (add_exclusions p ss).
Proof.
  apply (collect_run exclusion_entry (λ _, True)); [| | |by apply Forall_true].
  { intros []; cbn. by rewrite app_nil_r. }
  { intros [] ??; cbn. by rewrite <-app_assoc. }
  intros j [] e s _ Hrow Hp. run_row Hrow Hp (@parse_exclusion_iff SPENT NEW).
  unfold check_allocation_audit_entry_indices. pass_checks. done.
Qed.

Lemma collect_final {SPENT NEW} i st nt sc nc ex e s :
  same_row e (final_entry s) → entry_proves e →
  collect_entry i (Build_AuditParts SPENT NEW st nt sc nc None ex) e =
    Ok (Build_AuditParts SPENT NEW st nt sc nc (Some s) ex).
Proof.
  intros Hrow Hp. destruct Hrow as [Ek Es En Ep]. unfold collect_entry. cbn in Ek, Es, En, Ep.
  rewrite Ek, (proj2 (verify_stack_iff _ _ _) Hp). cbn [mbind result_bind].
  rewrite fail_if_false by by intros [? ?]. cbn [mbind result_bind].
  rewrite (proj2 (parse_final_iff _ _ _) Ep). cbn [mbind result_bind].
  unfold check_allocation_audit_entry_indices. pass_checks. done.
Qed.

(** The loop rebuilds an accepted bundle from entries that follow it. *)
Lemma collect_follows {SPENT NEW} (b : AllocationAuditBundle SPENT NEW) l :
  bundle_ordered b → follows l b → Forall entry_proves l →
  try_foldi collect_entry 0 no_parts l = Ok (Build_AuditParts _ _
    (aab_spent_transcripts b) (aab_new_transcripts b) (aab_spent_conservation b)
    (aab_new_conservation b) (Some (aab_final_conservation b)) (aab_exclusions b)).
Proof.
  intros [_ _ Ss Sn Es En] Hf Hp. unfold follows, append_allocation_audit_manifest_entries in Hf.
  apply Forall2_app_inv_r in Hf as (l1 & ? & Q1 & Hf & ->). apply Forall_app in Hp as [P1 Hp].
  apply Forall2_app_inv_r in Hf as (l2 & ? & Q2 & Hf & ->). apply Forall_app in Hp as [P2 Hp].
  apply Forall2_app_inv_r in Hf as (l3 & ? & Q3 & Hf & ->). apply Forall_app in Hp as [P3 Hp].
  apply Forall2_app_inv_r in Hf as (l4 & ? & Q4 & Hf & ->). apply Forall_app in Hp as [P4 Hp].
  apply Forall2_cons_inv_r in Hf as (e & l6 & Q5 & Q6 & ->). apply list.Forall_cons in Hp as [P5 P6].
  rewrite try_foldi_app, (collect_transcripts _ _ _ _ Ss Q1 P1). cbn [mbind result_bind].
  rewrite try_foldi_app, (collect_new_transcripts _ _ _ _ Sn Q2 P2). cbn [mbind result_bind].
  rewrite try_foldi_app, (collect_conservation _ _ _ _ (bound_sides _ _ _ Es Ss) Q3 P3).
  cbn [mbind result_bind].
  rewrite try_foldi_app, (collect_new_conservation _ _ _ _ (bound_sides _ _ _ En Sn) Q4 P4).
  cbn [mbind result_bind try_foldi]. unfold no_parts.
  cbn [add_transcripts add_new_transcripts add_conservation add_new_conservation].
  rewrite (collect_final _ _ _ _ _ _ _ _ Q5 P5). cbn [mbind result_bind].
  by rewrite (collect_exclusions _ _ _ _ Q6 P6).
Qed.

(** The pairs of the grid are listed in the order of their indices. *)
Definition grid_in_order {SPENT NEW} (b : AllocationAuditBundle SPENT NEW) : Prop :=
  in_key_order exclusion_pair (aab_exclusions b).

Lemma bundle_of_collected {SPENT NEW} (b : AllocationAuditBundle SPENT NEW) :
  bundle_ordered b → grid_in_order b →
  bundle_of_parts (Build_AuditParts _ _
    (aab_spent_transcripts b) (aab_new_transcripts b) (aab_spent_conservation b)
    (aab_new_conservation b) (Some (aab_final_conservation b)) (aab_exclusions b)) = Ok b.
Proof.
  intros [Os On _ _ Es En] Hg. unfold bundle_of_parts. cbn [aup_final_conservation ok_or mbind result_bind].
  cbn [aup_spent_transcripts aup_new_transcripts aup_spent_conservation aup_new_conservation aup_exclusions].
  rewrite <-Es in Os. rewrite <-En in On.
  rewrite (sort_in_order _ _ (in_order_fmap _ _ _ Os)), (sort_in_order _ _ (in_order_fmap _ _ _ On)).
  rewrite Es in Os. rewrite En in On.
  pose proof (sort_in_order exclusion_pair _ Hg) as Eg. unfold exclusion_pair in Eg.
  rewrite (sort_in_order _ _ Os), (sort_in_order _ _ On), Eg.
  by destruct b.
Qed.

Lemma manifest_order_ok l k :
  length l = length k →
  try_foldi (λ index _ p, fail_if (entry_differs p.1 p.2 = true)
      (entry_error index " is not in deterministic manifest order")) 0 () (zip l k) = Ok () ↔
    Forall2 same_row l k.
Proof.
  intros Hl. rewrite <-zip_forall by done. apply try_foldi_forall. intros i [x y]. cbn [fst snd].
  by rewrite fail_if_ok, not_true_iff_false, entry_differs_false.
Qed.

Lemma self_contained_ok SPENT NEW c r :
  verify_allocation_audit_certificate_self_contained SPENT NEW c = Ok r ↔
    ∃ b : AllocationAuditBundle SPENT NEW,
      grid_in_order b ∧ verify_allocation_audit_certificate c b = Ok r.
Proof.
  setoid_rewrite verify_certificate_iff.
  unfold verify_allocation_audit_certificate_self_contained, id_bound. cbv zeta. split.
  - intros (i & Hi & Hr)%bind_ok. apply bind_unit_ok in Hr as [Ei%fail_if_neq_ok Hr].
    apply bind_ok in Hr as (parts & Hc & Hr). apply bind_ok in Hr as (b & Hb & Hr).
    apply bind_ok in Hr as (r' & Hv & Hr). apply bind_unit_ok in Hr as [Er%fail_if_neq_ok Hr].
    apply bind_unit_ok in Hr as [Hl%fail_if_neq_ok Hr]. apply bind_unit_ok in Hr as [Hf [= <-]].
    exists b. split.
    { apply bind_ok in Hb as (f & _ & [= <-]). apply (sort_by_key_sorted exclusion_pair). }
    split_and!; [done|done| |by eapply collect_proves|by rewrite Ei].
    by apply manifest_order_ok in Hf.
  - intros (b & Hg & Hv & Er & Hf & Hp & Hi). pose proof (accepted_ordered b r Hv) as Ho.
    rewrite Hi. cbn [mbind result_bind]. rewrite (fail_if_false (_ ≠ _)) by (intros Hn; by apply Hn).
    cbn [mbind result_bind]. rewrite (collect_follows b) by done. cbn [mbind result_bind].
    rewrite (bundle_of_collected b Ho Hg). cbn [mbind result_bind]. rewrite Hv. cbn [mbind result_bind].
    rewrite (fail_if_false (aac_report c ≠ r)) by (intros Hn; by apply Hn). cbn [mbind result_bind].
    rewrite (fail_if_false (length _ ≠ _)) by (intros Hn; apply Hn; by eapply Forall2_length).
    cbn [mbind result_bind]. rewrite (proj2 (manifest_order_ok _ _ (Forall2_length _ _ _ Hf)) Hf). done.
Qed.
(** C25: Verifying a certificate by itself is verifying it against a bundle: the
    self-contained verifier accepts exactly the certificates that verify against
    some bundle whose exclusion pairs are listed by their indices, with that
    bundle's report; what it rebuilds from the public inputs of the entries is
    that bundle. *)
Theorem self_contained_iff SPENT NEW c r :
  verify_allocation_audit_certificate_self_contained SPENT NEW c = Ok r ↔
    ∃ b : AllocationAuditBundle SPENT NEW,
      grid_in_order b ∧ verify_allocation_audit_certificate c b = Ok r.
Proof. apply self_contained_ok. Qed.

(** * Keys of one's own *)

(** For public inputs of the size of a statement there are a key and a proof that
    the library accepts, of the size of a blob: a key of a circuit that is always
    satisfied will do. *)
Definition own_keys : Prop :=
  ∀ p, (length p <= MAX_ALLOCATION_AUDIT_STACK_PUBLIC_INPUTS)%nat →
    ∃ vk π bv bp, library_verify vk (public_inputs_as_fr p) π = Ok true ∧
    vk_serialize_compressed vk = Ok bv ∧ proof_serialize_compressed π = Ok bp ∧
    blob_fits bv ∧ blob_fits bp.

(** The public inputs of a row are within the bound of a stack. *)
Definition short_row (e : AllocationAuditProofEntry) : Prop :=
  (length (ape_public_inputs e) <= MAX_ALLOCATION_AUDIT_STACK_PUBLIC_INPUTS)%nat.

Lemma length_chunks8 {A} (l : list A) : (length (chunks8 l) <= length l)%nat.
Proof.
  induction l as [l Hl|a b c d e f g h l IH] using list_ind8.
  - destruct (chunks8_short l Hl) as [-> | [Hn ->]]; [done|]. destruct l; [done|cbn; lia].
  - cbn. lia.
Qed.

Lemma own_entry row :
  own_keys → short_row row → ∃ e, same_row e row ∧ entry_proves e ∧ entry_fits e.
Proof.
  unfold short_row. intros Ho Hl.
  destruct (Ho (ape_public_inputs row) Hl) as (vk & π & bv & bp & Hv & Ev & Ep & Fv & Fp).
  destruct (vk_serialized vk) as (? & Ev' & Dv), (proof_serialized π) as (? & Ep' & Dp).
  rewrite Ev in Ev'. injection Ev' as <-. rewrite Ep in Ep'. injection Ep' as <-.
  exists {| ape_kind := ape_kind row; ape_spent_segment_index := ape_spent_segment_index row;
    ape_new_segment_index := ape_new_segment_index row; ape_public_inputs := ape_public_inputs row;
    ape_stack := {| gps_tag := ZK_TAG_GROTH16; gps_verifying_key := bv; gps_proof := bp;
      gps_public_inputs := stack_items (ape_public_inputs row) |} |}.
  assert (Hb : (uval MAX_BLOB_BYTES = 1048576)%Z) by done.
  assert (Hm : MAX_ALLOCATION_AUDIT_STACK_PUBLIC_INPUTS = Z.to_nat 8192) by done.
  pose proof (length_chunks8 (ape_public_inputs row)) as Hc.
  split; [by constructor|]. split; [constructor; [done..|by exists vk, π]|].
  unfold entry_fits, stack_items, public_inputs_as_fr.
  cbn [ape_public_inputs ape_stack gps_verifying_key gps_proof gps_public_inputs].
  rewrite !length_fmap. split; [unfold blob_fits; lia|]. split; [done|]. split; [done|]. split; [lia|].
  apply list.Forall_fmap, Forall_true. intros f. unfold compose, blob_fits.
  destruct (fr_bytes_ok f) as (_ & -> & _). lia.
Qed.

Lemma own_entries rs :
  own_keys → Forall short_row rs →
  ∃ l, Forall2 same_row l rs ∧ Forall entry_proves l ∧ Forall entry_fits l.
Proof.
  intros Ho. induction 1 as [|row rs Hr _ (l & Hf & Hp & Hs)].
  - by exists [].
  - destruct (own_entry row Ho Hr) as (e & ? & ? & ?). exists (e :: l). by split_and!; constructor.
Qed.

Lemma manifest_short {SPENT NEW} (b : AllocationAuditBundle SPENT NEW) :
  Forall short_row (append_allocation_audit_manifest_entries b).
Proof.
  assert (Hm : MAX_ALLOCATION_AUDIT_STACK_PUBLIC_INPUTS = Z.to_nat 8192) by done.
  unfold append_allocation_audit_manifest_entries, short_row.
  rewrite !Forall_app, !list.Forall_fmap, list.Forall_singleton, Hm.
  split_and!; try (apply Forall_true; intros s); unfold compose;
    cbn [ape_public_inputs transcript_entry conservation_entry final_entry exclusion_entry
      allocation_audit_manifest_entry];
    rewrite ?transcript_length, ?conservation_length, ?final_length, ?exclusion_length;
    apply Nat.leb_le; by vm_compute.
Qed.

(** C28: A certificate vouches for the verifying keys it brings: no verifier
    compares them with known keys.  With a key and a proof of one's own for any
    public inputs, every bundle that passes the native checks (within the bound on
    entries, its pairs in order) has a certificate that verifies against it, whose
    bytes decode and verify by themselves with the bundle's report, whether or not
    any circuit over its statements is satisfied. *)
Theorem certificate_trusts_its_keys {SPENT NEW} (b : AllocationAuditBundle SPENT NEW) r :
  own_keys → verify_allocation_audit_bundle b = Ok r → grid_in_order b →
  (length (append_allocation_audit_manifest_entries b) <=
    MAX_ALLOCATION_AUDIT_CERTIFICATE_PROOF_ENTRIES)%nat →
  ∃ c buf, verify_allocation_audit_certificate c b = Ok r ∧ certificate_encode c = Ok buf ∧
    verify_allocation_audit_certificate_canonical SPENT NEW buf = Ok (c, r).
Proof.
  intros Ho Hv Hg Hn. destruct (own_entries _ Ho (manifest_short b)) as (l & Hf & Hp & Hs).
  assert (Hl : proofs_fit l) by (split; [by rewrite (Forall2_length _ _ _ Hf)|done]).
  destruct (allocation_audit_certificate_id r l) as [i|] eqn:Hi.
  2:{ unfold allocation_audit_certificate_id in Hi.
      by rewrite (proj2 (certificate_body_ok r l _) (conj Hl eq_refl)) in Hi. }
  set (c := {| aac_certificate_id := i; aac_report := r; aac_proofs := l |}).
  assert (Hc : verify_allocation_audit_certificate c b = Ok r) by by apply verify_certificate_iff.
  assert (He : certificate_encode c = Ok (certificate_writer c [])) by by apply certificate_encode_ok.
  exists c, (certificate_writer c []). split; [done|]. split; [done|].
  unfold verify_allocation_audit_certificate_canonical.
  rewrite (proj2 (certificate_decode_ok _ _) He). cbn [mbind result_bind].
  by rewrite (proj2 (self_contained_ok SPENT NEW c r)) by by exists b.
Qed.
End verified.

(** * What a verified certificate shows *)

Section conserved.
Context `{GadgetLaws} {GL : Groth16Library} {GLaws : Groth16Laws}.
Implicit Types (c : AllocationAuditCertificate) (l : list AllocationAuditProofEntry).

(** The field elements of a statement determine its bytes. *)
Lemma public_inputs_as_fr_inj p q :
  length p = length q → public_inputs_as_fr p = public_inputs_as_fr q → p = q.
Proof.
  intros Hl E. rewrite <-(concat_chunks8 p), <-(concat_chunks8 q). f_equal. unfold public_inputs_as_fr in E.
  pose proof (chunks8_lengths p q Hl) as Hc. pose proof (chunks8_le p) as H8. clear Hl.
  revert E Hc H8. generalize (chunks8 p), (chunks8 q). clear p q.
  intros cs. induction cs as [|c cs IH]; intros [|d ds] E Hc H8; try done.
  apply list.Forall_cons in H8 as [Hc8 H8]. cbn [fmap list_fmap] in E, Hc.
  injection Hc as Hcd Hc. injection E as Ecd E. f_equal; [|by apply IH].
  apply fr_of_bytes_inj; [lia|done|].
  etransitivity; [symmetry; apply chunk_input_value; lia|]. etransitivity; [|apply chunk_input_value; lia].
  exact (f_equal (λ f, fp_value (fp_new_input f)) Ecd).
Qed.

(** The circuit of an entry's kind is satisfied over public inputs [p]. *)
Definition circuit_satisfied (SPENT NEW : nat) (k : AllocationAuditProofKind) (p : list byte) : Prop :=
  match k with
  | SpentTranscriptSegment => ∃ a, auc_public_inputs a = p ∧
      is_satisfied (transcript_generate_constraints (ALLOCS := SPENT) a) = true
  | NewTranscriptSegment => ∃ a, auc_public_inputs a = p ∧
      is_satisfied (transcript_generate_constraints (ALLOCS := NEW) a) = true
  | SpentConservationSegment => ∃ a, auc_public_inputs a = p ∧
      is_satisfied (conservation_generate_constraints (ALLOCS := SPENT) a) = true
  | NewConservationSegment => ∃ a, auc_public_inputs a = p ∧
      is_satisfied (conservation_generate_constraints (ALLOCS := NEW) a) = true
  | ConservationFinal => ∃ a, auc_public_inputs a = p ∧
      is_satisfied (final_generate_constraints a) = true
  | ExclusionSegmentPair => ∃ a, auc_public_inputs a = p ∧
      is_satisfied (exclusion_generate_constraints (SPENT := SPENT) (NEW := NEW) a) = true
  end.

Definition kind_public_len (k : AllocationAuditProofKind) : nat :=
  match k with
  | SpentTranscriptSegment | NewTranscriptSegment => ALLOCATION_TRANSCRIPT_SEGMENT_PUBLIC_INPUT_LEN
  | SpentConservationSegment | NewConservationSegment =>
      ALLOCATION_CONSERVATION_SEGMENT_PUBLIC_INPUT_LEN
  | ConservationFinal => ALLOCATION_CONSERVATION_FINAL_PUBLIC_INPUT_LEN
  | ExclusionSegmentPair => ALLOCATION_EXCLUSION_SEGMENT_PAIR_PUBLIC_INPUT_LEN
  end.

(** Groth16 is sound for the key: it is a key of the kind's circuit, so a proof
    that verifies for public inputs comes from a satisfying assignment. *)
Definition key_sound (SPENT NEW : nat) (k : AllocationAuditProofKind) (vk : VerifyingKey) : Prop :=
  ∀ p π, length p = kind_public_len k → library_verify vk (public_inputs_as_fr p) π = Ok true →
    circuit_satisfied SPENT NEW k p.

(** The keys in the certificate are those of the audit circuits. *)
Definition keys_sound (SPENT NEW : nat) c : Prop :=
  ∀ e vk, e ∈ aac_proofs c → vk_deserialize_compressed (gps_verifying_key (ape_stack e)) = Ok vk →
    key_sound SPENT NEW (ape_kind e) vk.

(** Every row of a certificate that verifies has a satisfied circuit. *)
Lemma rows_satisfied SPENT NEW l rs :
  Forall2 same_row l rs → Forall entry_proves l →
  (∀ e vk, e ∈ l → vk_deserialize_compressed (gps_verifying_key (ape_stack e)) = Ok vk →
     key_sound SPENT NEW (ape_kind e) vk) →
  Forall (λ r, length (ape_public_inputs r) = kind_public_len (ape_kind r) →
    circuit_satisfied SPENT NEW (ape_kind r) (ape_public_inputs r)) rs.
Proof.
  intros Hf. induction Hf as [|e r l rs Hrow _ IH]; intros Hp Hk; [constructor|].
  apply list.Forall_cons in Hp as [Hp Hps]. constructor.
  - destruct Hrow as [<- _ _ <-]. destruct Hp as [_ _ (vk & π & Hvk & _ & Hv)]. intros Hl.
    refine (Hk e vk _ Hvk _ π Hl Hv). apply list_elem_of_here.
  - apply IH; [done|]. intros e' vk He. apply Hk. by right.
Qed.

Lemma certificate_bundle_proved SPENT NEW c (b : AllocationAuditBundle SPENT NEW) :
  follows (aac_proofs c) b → Forall entry_proves (aac_proofs c) → keys_sound SPENT NEW c →
  bundle_proved b.
Proof.
  intros Hf Hp Hk. pose proof (rows_satisfied _ _ _ _ Hf Hp Hk) as Hr.
  unfold append_allocation_audit_manifest_entries in Hr.
  rewrite !Forall_app, !list.Forall_fmap in Hr.
  destruct Hr as (_ & _ & Hs & Hn & Hc & He). apply list.Forall_cons in Hc as [Hc _].
  constructor.
  - eapply Forall_impl; [exact Hs|]. intros s Hx. apply Hx, conservation_length.
  - eapply Forall_impl; [exact Hn|]. intros s Hx. apply Hx, conservation_length.
  - apply Hc, final_length.
  - eapply Forall_impl; [exact He|]. intros s Hx. apply Hx, exclusion_length.
Qed.

Lemma certificate_sizes {SPENT NEW} c (b : AllocationAuditBundle SPENT NEW) :
  id_bound c → follows (aac_proofs c) b →
  count_fits (length (aab_spent_transcripts b)) ∧ count_fits (length (aab_new_transcripts b)).
Proof.
  intros [Hl _]%id_bound_fits Hf. apply Forall2_length in Hf.
  unfold append_allocation_audit_manifest_entries in Hf. rewrite !length_app, !length_fmap in Hf.
  assert (Z.of_nat (length (aac_proofs c)) <= 16384)%Z
    by (unfold MAX_ALLOCATION_AUDIT_CERTIFICATE_PROOF_ENTRIES in Hl; lia).
  unfold count_fits. lia.
Qed.

(** C6: What a certificate proves, from its bytes to the allocations: when
    [verify_allocation_audit_certificate_canonical] accepts a buffer and the
    verifying keys in it are keys of the audit circuits for which Groth16 is
    sound, its entries are the manifest of a bundle that passes the native checks
    with the returned report, and there are witnesses that satisfy the circuits of
    that bundle.  For every such bundle and witnesses there are allocations on the
    reported chain behind the two reported roots, as many as the reported counts,
    whose amounts sum to one nonzero total on both sides, and no new allocation
    has the anchor of a spent one, unless two of the messages the circuits hash
    under these witnesses, for the roots and the totals, have one digest. *)
Theorem certificate_conserves SPENT NEW buf c r :
  count_fits SPENT → count_fits NEW →
  verify_allocation_audit_certificate_canonical SPENT NEW buf = Ok (c, r) → keys_sound SPENT NEW c →
  (∃ (b : AllocationAuditBundle SPENT NEW) w, follows (aac_proofs c) b ∧
     verify_allocation_audit_bundle b = Ok r ∧ bundle_witnessed b w) ∧
  ∀ (b : AllocationAuditBundle SPENT NEW) w, follows (aac_proofs c) b →
    verify_allocation_audit_bundle b = Ok r → bundle_witnessed b w →
    audit_holds SPENT NEW r ∨ collision (witness_messages b w).
Proof.
  intros HS HN Hv Hk. unfold verify_allocation_audit_certificate_canonical in Hv.
  apply bind_ok in Hv as (c' & _ & Hv). apply bind_ok in Hv as (r' & Hv & [= -> ->]).
  apply self_contained_ok in Hv as (b & _ & Hv).
  apply verify_certificate_iff in Hv as (Hb & _ & Hf & Hp & Hi). split.
  - destruct (bundle_proved_witnessed b) as [w Hw]; [by eapply certificate_bundle_proved|].
    by exists b, w.
  - intros b' w Hf' Hb' Hw. destruct (certificate_sizes c b' Hi Hf'). by eapply audit_conserves.
Qed.
End conserved.
