(* ===== verification/ZkCertificateSamples.v ===== *)
(** A proof library that evaluates, and concrete certificates on which the
    theorems about certificates are applied.  A verifying key of the library is
    the statement it accepts. *)

From stdpp Require Import base list strings vector sorting.
From Stdlib Require Import ZArith Lia Strings.Byte.
From S2P Require Import Prelude.
From S2P Require Import Bytes.
From S2P Require Import Encoding.
From S2P Require Import Types.
From S2P Require Import Commit.
From S2P Require Import CoreSamples.
From S2P Require Import AssetTypes.
From S2P Require Import AssetRules.
From S2P Require Import Asset.
From S2P Require Import AssetCorrect.
From S2P Require Import AssetSamples.
From S2P Require Import Lane.
From S2P Require Import ZkCorrect.
From S2P Require Import ZkGadgets.
From S2P Require Import ZkCircuits.
From S2P Require Import ZkAudit.
From S2P Require Import ZkAuditCorrect.
From S2P Require Import ZkAuditBundle.
From S2P Require Import ZkAuditComplete.
From S2P Require Import ZkSamples.
From S2P Require Import ZkStack.
From S2P Require Import ZkManifestCorrect.
From S2P Require Import ZkCertificate.
From S2P Require Import ZkCertificateCorrect.
From S2P Require Import ZkManifest.
From S2P Require Import ZkCertificateAudit.

Open Scope string_scope.
Open Scope list_scope.

#[local] Existing Instance sample_sha256.
#[local] Existing Instance sample_gadgets.
#[local] Existing Instance sample_gadget_laws.

(** * The library *)

#[local] Instance sample_library : Groth16Library := {
  Rng := Bytes32; rng_from_seed s := s;
  ProvingKey := unit; VerifyingKey := list byte; Groth16Proof := list byte;
  circuit_specific_setup _ _ := Err "no setup";
  library_prove _ _ _ := Err "no prover";
  library_verify vk inputs _ := Ok (bool_decide (inputs = public_inputs_as_fr vk));
  vk_serialize_compressed vk := Ok vk; vk_deserialize_compressed b := Ok b;
  proof_serialize_compressed p := Ok p; proof_deserialize_compressed b := Ok b;
  fr_serialize_uncompressed f := Ok (blist f);
  fr_deserialize_uncompressed b :=
    if decide (length b = 32%nat) then Ok (to_array 32 b) else Err "bad length"
}.

#[local] Instance sample_library_laws : Groth16Laws.
Proof.
  constructor.
  - intros f. exists (blist f). split; [done|]. split; [apply bytes_length|]. cbn.
    rewrite decide_True by apply bytes_length. by rewrite to_array_blist.
  - intros vk. by exists vk.
  - intros p. by exists p.
Qed.

Lemma sample_own_keys : own_keys.
Proof.
  intros p Hl. exists p, [], p, []. cbn. rewrite bool_decide_true by done.
  assert (uval MAX_BLOB_BYTES = 1048576)%Z by done.
  assert (MAX_ALLOCATION_AUDIT_STACK_PUBLIC_INPUTS = Z.to_nat 8192) by done.
  do 3 (split; [done|]). unfold blob_fits. change (length (@nil byte)) with 0%nat. split; lia.
Qed.

(** A key of the library is sound when the statement it accepts is satisfied. *)
Lemma sample_key_sound SPENT NEW k vk :
  length vk = kind_public_len k → circuit_satisfied SPENT NEW k vk → key_sound SPENT NEW k vk.
Proof.
  intros Hl Hs p π Hp Hv. cbn in Hv. injection Hv as Hv%bool_decide_eq_true.
  by rewrite (public_inputs_as_fr_inj p vk) by congruence.
Qed.

(** * A certificate of the sample audit *)

Definition certified (row : AllocationAuditProofEntry) : AllocationAuditProofEntry :=
  {| ape_kind := ape_kind row; ape_spent_segment_index := ape_spent_segment_index row;
     ape_new_segment_index := ape_new_segment_index row; ape_public_inputs := ape_public_inputs row;
     ape_stack := {| gps_tag := ZK_TAG_GROTH16; gps_verifying_key := ape_public_inputs row;
       gps_proof := []; gps_public_inputs := stack_items (ape_public_inputs row) |} |}.

Definition certificate_of {SPENT NEW} (b : AllocationAuditBundle SPENT NEW)
  : sresult (AllocationAuditCertificate * list byte) :=
  report ← verify_allocation_audit_bundle b;
  let proofs := certified <$> append_allocation_audit_manifest_entries b in
  i ← allocation_audit_certificate_id report proofs;
  let c := {| aac_certificate_id := i; aac_report := report; aac_proofs := proofs |} in
  buf ← certificate_encode c;
  Ok (c, buf).

#[local] Instance AllocationAuditProofEntry_eq_dec : EqDecision AllocationAuditProofEntry.
Proof. solve_decision. Defined.
#[local] Instance AllocationAuditCertificate_eq_dec : EqDecision AllocationAuditCertificate.
Proof. solve_decision. Defined.

(** The certificate of a bundle and whether its bytes verify as it. *)
Definition certifies {SPENT NEW} (b : AllocationAuditBundle SPENT NEW) : bool :=
  match certificate_of b with
  | Ok (c, buf) => bool_decide (verify_allocation_audit_certificate_canonical SPENT NEW buf =
      Ok (c, aac_report c))
  | Err _ => false
  end.

Lemma certifies_ok {SPENT NEW} (b : AllocationAuditBundle SPENT NEW) :
  certifies b = true → ∃ c buf,
    verify_allocation_audit_certificate_canonical SPENT NEW buf = Ok (c, aac_report c) ∧
    aac_proofs c = certified <$> append_allocation_audit_manifest_entries b ∧
    verify_allocation_audit_bundle b = Ok (aac_report c).
Proof.
  unfold certifies. destruct (certificate_of b) as [[c buf]|] eqn:E; [|done].
  intros Hv%bool_decide_eq_true. exists c, buf. split; [done|]. unfold certificate_of in E.
  apply bind_ok in E as (r & Hr & E). apply bind_ok in E as (i & _ & E).
  by apply bind_ok in E as (w & _ & [= <- _]).
Qed.

(** The transcript circuits of the sample audit are satisfied. *)
Lemma sample_rows_satisfied :
  Forall (λ e, circuit_satisfied 1 1 (ape_kind e) (ape_public_inputs e))
    (append_allocation_audit_manifest_entries sample_bundle).
Proof.
  destruct (bundle_witnessed_proved _ _ sample_bundle_witnessed) as [Ps Pn Pf Pe].
  unfold append_allocation_audit_manifest_entries. rewrite !Forall_app, !list.Forall_fmap.
  split; [|split; [|split; [exact Ps|split; [exact Pn|split; [by constructor|exact Pe] ] ] ] ].
  - repeat constructor.
    + eexists {| auc_public_inputs := _;
        auc_witness := built_witness 1 [sample_allocation 11 0 60] some_blinding |}.
      split; [reflexivity|by vm_compute].
    + eexists {| auc_public_inputs := _;
        auc_witness := built_witness 1 [sample_allocation 11 1 40] some_blinding |}.
      split; [reflexivity|by vm_compute].
  - repeat constructor.
    eexists {| auc_public_inputs := _;
      auc_witness := built_witness 1 [sample_allocation 13 0 100] some_blinding |}.
    split; [reflexivity|by vm_compute].
Qed.

Lemma sample_keys_sound c :
  aac_proofs c = certified <$> append_allocation_audit_manifest_entries sample_bundle →
  keys_sound 1 1 c.
Proof.
  intros E e vk He [= <-]. rewrite E in He. apply list_elem_of_fmap in He as (row & -> & He).
  pose proof sample_rows_satisfied as Hs. rewrite list.Forall_forall in Hs.
  apply sample_key_sound; [|exact (Hs row He)].
  assert (Hl : Forall (λ e, length (ape_public_inputs e) = kind_public_len (ape_kind e))
    (append_allocation_audit_manifest_entries sample_bundle)) by (repeat constructor).
  rewrite list.Forall_forall in Hl. exact (Hl row He).
Qed.

(** * Witnesses *)

Lemma certified_follows {SPENT NEW} (b : AllocationAuditBundle SPENT NEW) :
  follows (certified <$> append_allocation_audit_manifest_entries b) b.
Proof.
  unfold follows. apply Forall2_fmap_l, Forall_Forall2_diag, list.Forall_forall. intros row _. by constructor.
Qed.

(** The certificate of the sample audit: what its report says holds, since no two
    messages of the prover's witnesses collide. *)
Lemma certificate_conserves_witness :
  ∃ buf c r, verify_allocation_audit_certificate_canonical 1 1 buf = Ok (c, r) ∧
    keys_sound 1 1 c ∧ audit_holds 1 1 r.
Proof.
  destruct (certifies_ok sample_bundle) as (c & buf & Hv & Hp & Hb); [by vm_compute|].
  exists buf, c, (aac_report c). split; [done|]. pose proof (sample_keys_sound c Hp) as Hk.
  split; [exact Hk|].
  destruct (certificate_conserves 1 1 buf c (aac_report c)) as [_ Hall]; [done|done|exact Hv|exact Hk|].
  destruct (Hall sample_bundle sample_bundle_witness) as [Ha|Hc];
    [rewrite Hp; apply certified_follows|exact Hb|exact sample_bundle_witnessed|exact Ha|no_collision Hc].
Defined.

(** An audit of one hundred spent and a thousand created. *)
Definition inflated_segments : list (list RgkAllocation) := [[sample_allocation 13 0 1000]].
Definition inflated_chain : list (AllocationConservationSegmentStatement 1) :=
  build_chain 1 New sample_chain (n64 1) 0 (allocation_transcript_empty_root New) 0
    inflated_segments.
Definition inflated_bundle : AllocationAuditBundle 1 1 := {|
  aab_spent_transcripts := acs_transcript <$> sample_spent_chain;
  aab_new_transcripts := acs_transcript <$> inflated_chain;
  aab_spent_conservation := sample_spent_chain; aab_new_conservation := inflated_chain;
  aab_final_conservation := {|
    afs_spent_total_count := n64 2; afs_new_total_count := n64 1;
    afs_spent_total_commitment :=
      allocation_conservation_total_commitment Spent (n64 2) (n64 100) some_blinding;
    afs_new_total_commitment :=
      allocation_conservation_total_commitment New (n64 1) (n64 1000) some_blinding |};
  aab_exclusions := exclusion_of sample_chain (n64 2) (n64 1) <$>
    list_prod (zip sample_spent_chain sample_spent_segments) (zip inflated_chain inflated_segments) |}.

Lemma certificate_trusts_its_keys_witness :
  ∃ c buf r, certificate_encode c = Ok buf ∧
    verify_allocation_audit_certificate_canonical 1 1 buf = Ok (c, r).
Proof.
  destruct (verify_allocation_audit_bundle inflated_bundle) as [r|] eqn:V; [|by vm_compute in V].
  destruct (certificate_trusts_its_keys inflated_bundle r sample_own_keys V) as (c & buf & _ & He & Hc).
  - assert (Hs : sort_by_key exclusion_pair (aab_exclusions inflated_bundle) =
      aab_exclusions inflated_bundle) by by vm_compute.
    unfold grid_in_order. rewrite <-Hs. apply (sort_by_key_sorted exclusion_pair).
  - apply (bool_decide_unpack _). by vm_compute.
  - exists c, buf, r. exact (conj He Hc).
Defined.

(** The certificate of the sample audit, and what verifies of it. *)
Lemma sample_certificate : ∃ c buf,
  certificate_decode buf = Ok c ∧
  verify_allocation_audit_certificate_self_contained 1 1 c = Ok (aac_report c).
Proof.
  destruct (certifies_ok sample_bundle) as (c & buf & Hv & _); [by vm_compute|].
  unfold verify_allocation_audit_certificate_canonical in Hv.
  apply bind_ok in Hv as (c' & Hd & Hv). apply bind_ok in Hv as (r & Hs & [= -> ->]).
  by exists c, buf.
Qed.

Lemma self_contained_iff_witness : ∃ c (b : AllocationAuditBundle 1 1),
  grid_in_order b ∧ verify_allocation_audit_certificate c b = Ok (aac_report c).
Proof.
  destruct sample_certificate as (c & _ & _ & Hs). exists c.
  exact (proj1 (self_contained_iff 1 1 c (aac_report c)) Hs).
Defined.

Lemma certificate_verifies_iff_built_witness : ∃ c (b : AllocationAuditBundle 1 1) stacks,
  build_allocation_audit_certificate b stacks = Ok c.
Proof.
  destruct sample_certificate as (c & _ & _ & Hs).
  apply self_contained_ok in Hs as (b & _ & Hv). exists c, b.
  exact (proj2 (proj1 (certificate_verifies_iff_built c b (aac_report c)) Hv)).
Defined.
