(* ===== verification/WalletText.v ===== *)
(** Texts of the wallet daemon (src/crates/rgk-walletd/src/main.rs): trimming,
    validation of the fields of a request, and the handles and labels in which
    digests are written.  A Rust string is its UTF-8 bytes. *)

From stdpp Require Import base list strings pretty sets.
From Stdlib Require Import ZArith Lia Strings.Byte.
From S2P Require Import Prelude.
From S2P Require Import Bytes.
From S2P Require Import Encoding.
From S2P Require Import Types.
From S2P Require Import Commit.
From S2P Require Import Hex.

Open Scope string_scope.
Open Scope list_scope.

Definition of_bytes (l : list byte) : string := String.string_of_list_byte l.

Lemma as_bytes_of_bytes l : as_bytes (of_bytes l) = l.
Proof. apply String.list_byte_of_string_of_list_byte. Qed.

Lemma of_bytes_as_bytes s : of_bytes (as_bytes s) = s.
Proof. apply String.string_of_list_byte_of_string. Qed.

(** [s.len()] *)
Definition len (s : string) : nat := length (as_bytes s).
Definition is_empty (s : string) : bool := bool_decide (s = "").

(** * The methods of [str] and [u8] *)

Definition byte_in (lo hi : Z) (b : byte) : bool := (lo <=? byte_Z b)%Z && (byte_Z b <=? hi)%Z.

Definition is_ascii_digit : byte → bool := byte_in 48 57.
Definition is_ascii_uppercase : byte → bool := byte_in 65 90.
Definition is_ascii_lowercase : byte → bool := byte_in 97 122.
Definition is_ascii_alphanumeric (b : byte) : bool :=
  is_ascii_digit b || is_ascii_uppercase b || is_ascii_lowercase b.
Definition is_ascii_hexdigit (b : byte) : bool :=
  is_ascii_digit b || byte_in 65 70 b || byte_in 97 102 b.
(** Tab, line feed, form feed, carriage return and space. *)
Definition is_ascii_whitespace (b : byte) : bool :=
  bool_decide (b ∈ [x09; x0a; x0c; x0d; x20]).

Definition lower_byte (b : byte) : byte :=
  if is_ascii_uppercase b then byte_of_Z (byte_Z b + 32) else b.
Definition to_ascii_lowercase (s : string) : string := of_bytes (lower_byte <$> as_bytes s).

(** The characters of Unicode's White_Space, by the length of their encoding. *)
Definition space1 (a : byte) : bool := byte_in 9 13 a || Byte.eqb a x20.
Definition space2 (a b : byte) : bool := Byte.eqb a xc2 && (Byte.eqb b x85 || Byte.eqb b xa0).
Definition space3 (a b c : byte) : bool :=
  (Byte.eqb a xe1 && Byte.eqb b x9a && Byte.eqb c x80) ||
  (Byte.eqb a xe2 && Byte.eqb b x80 &&
     (byte_in 128 138 c || Byte.eqb c xa8 || Byte.eqb c xa9 || Byte.eqb c xaf)) ||
  (Byte.eqb a xe2 && Byte.eqb b x81 && Byte.eqb c x9f) ||
  (Byte.eqb a xe3 && Byte.eqb b x80 && Byte.eqb c x80).

(** Drops white space from the front; [flip] reads the bytes of a character
    backwards, for the end of a reversed string. *)
Fixpoint drop_spaces (flip : bool) (l : list byte) : list byte :=
  match l with
  | [] => []
  | a :: l1 =>
      if space1 a then drop_spaces flip l1 else
      match l1 with
      | [] => l
      | b :: l2 =>
          if (if flip then space2 b a else space2 a b) then drop_spaces flip l2 else
          match l2 with
          | [] => l
          | c :: l3 =>
              if (if flip then space3 c b a else space3 a b c) then drop_spaces flip l3 else l
          end
      end
  end.

Definition trim (s : string) : string :=
  of_bytes (rev (drop_spaces true (rev (drop_spaces false (as_bytes s))))).

(** [s.split(c)]: the parts between the separators, at least one. *)
Fixpoint split_bytes (c : byte) (l : list byte) : list (list byte) :=
  match l with
  | [] => [[]]
  | b :: l' =>
      if Byte.eqb b c then [] :: split_bytes c l'
      else match split_bytes c l' with
           | part :: parts => (b :: part) :: parts
           | [] => [[b]]
           end
  end.
Definition split (c : byte) (s : string) : list string := of_bytes <$> split_bytes c (as_bytes s).

Fixpoint strip_bytes (p l : list byte) : option (list byte) :=
  match p, l with
  | [], _ => Some l
  | x :: p', y :: l' => if Byte.eqb x y then strip_bytes p' l' else None
  | _ :: _, [] => None
  end.
Definition strip_prefix (p s : string) : option string :=
  of_bytes <$> strip_bytes (as_bytes p) (as_bytes s).
Definition starts_with (s p : string) : bool := bool_decide (is_Some (strip_prefix p s)).

(** [s.strip_prefix("0x").unwrap_or(s)] *)
Definition without_0x (s : string) : string := default s (strip_prefix "0x" s).

(** [s.bytes().all(f)] *)
Definition all_bytes_are (f : byte → bool) (s : string) : bool := forallb f (as_bytes s).

(** * Defaults and decimals *)

Definition trimmed_or_default (value fallback : string) : string :=
  let trimmed := trim value in
  if is_empty trimmed then fallback else trimmed.

Definition trimmed_optional (value : string) : option string :=
  let trimmed := trim value in
  if is_empty trimmed then None else Some trimmed.

Definition valid_decimal (value : string) (max_fractional_digits : nat) : bool :=
  match split x2e value with
  | [] => false
  | whole :: parts =>
      if is_empty whole || negb (all_bytes_are is_ascii_digit whole) then false else
      match parts with
      | [] => true
      | [fractional] =>
          negb (is_empty fractional) && bool_decide (len fractional <= max_fractional_digits)%nat &&
          all_bytes_are is_ascii_digit fractional
      | _ => false
      end
  end.

(** * Errors of the daemon *)

Inductive WalletdError : Type :=
| WE_NotFound
| WE_Locked
| WE_Unauthorized
| WE_BadRequest (msg : string)
| WE_PoisonedState
| WE_PoisonedIdentitySession
| WE_Persist (msg : string)
| WE_Crypto (msg : string)
| WE_Entropy (msg : string).

Definition walletd_error_display (e : WalletdError) : string :=
  match e with
  | WE_NotFound => "wallet profile has not been created"
  | WE_Locked => "wallet is locked"
  | WE_Unauthorized => "passphrase was not accepted"
  | WE_BadRequest msg => msg
  | WE_PoisonedState => "state lock is poisoned"
  | WE_PoisonedIdentitySession => "identity session lock is poisoned"
  | WE_Persist msg => "state persistence failed: " ++ msg
  | WE_Crypto msg => "identity vault operation failed: " ++ msg
  | WE_Entropy msg => "failed to read local entropy: " ++ msg
  end%string.

(** The status codes the daemon answers with. *)
Inductive StatusCode : Type := NO_CONTENT | BAD_REQUEST | UNAUTHORIZED | NOT_FOUND
| INTERNAL_SERVER_ERROR.

Record ApiError := {
  ae_code : string;
  ae_message : string
}.

Definition api_failure : Type := StatusCode * ApiError.
Abbreviation api := (result api_failure).

Definition error_code (e : WalletdError) : StatusCode * string :=
  match e with
  | WE_NotFound => (NOT_FOUND, "wallet_not_found")
  | WE_Locked => (UNAUTHORIZED, "wallet_locked")
  | WE_Unauthorized => (UNAUTHORIZED, "unauthorized")
  | WE_BadRequest _ => (BAD_REQUEST, "bad_request")
  | WE_PoisonedState => (INTERNAL_SERVER_ERROR, "poisoned_state")
  | WE_PoisonedIdentitySession => (INTERNAL_SERVER_ERROR, "poisoned_identity_session")
  | WE_Persist _ => (INTERNAL_SERVER_ERROR, "persist_failed")
  | WE_Crypto _ => (INTERNAL_SERVER_ERROR, "crypto_failed")
  | WE_Entropy _ => (INTERNAL_SERVER_ERROR, "entropy_failed")
  end.

Definition api_error (error : WalletdError) : api_failure :=
  let '(status, code) := error_code error in
  (status, {| ae_code := code; ae_message := walletd_error_display error |}).

Definition bad_request (msg : string) : api_failure := api_error (WE_BadRequest msg).

(** * Validation of the fields of a request *)

Definition validate_wallet_id (value : string) : api string :=
  let trimmed := trim value in
  _ ← fail_if (len trimmed < 3 ∨ 64 < len trimmed)%nat
        (bad_request "walletId must be 3-64 characters");
  _ ← fail_if (all_bytes_are (λ byte, is_ascii_alphanumeric byte ||
                 bool_decide (byte ∈ [x2d; x5f; x2e])) trimmed = false)
        (bad_request "walletId may contain only letters, numbers, dash, underscore, or dot");
  Ok trimmed.

Definition validate_passphrase (value : string) : api string :=
  _ ← fail_if (len value < 8 ∨ 256 < len value)%nat
        (bad_request "passphrase must contain 8-256 characters");
  Ok value.

(** [mnemonic] is [Mnemonic::parse_in_normalized] for English. *)
Definition validate_recovery_phrase (mnemonic : string → bool) (words : list string)
  : api (list string) :=
  _ ← fail_if (length words < 12)%nat
        (bad_request "recoveryPhrase must contain at least 12 words");
  let normalised := (λ word, to_ascii_lowercase (trim word)) <$> words in
  _ ← fail_if (existsb is_empty normalised = true)
        (bad_request "recoveryPhrase words must be non-empty");
  let phrase := String.concat " " normalised in
  _ ← fail_if (mnemonic phrase = false)
        (bad_request "recoveryPhrase must be a valid English BIP39 mnemonic");
  Ok normalised.

Definition validate_optional_kaspa_endpoint (value : string) : api (option string) :=
  let trimmed := trim value in
  if is_empty trimmed then Ok None else
  _ ← fail_if ((2048 < len trimmed)%nat ∨ existsb is_ascii_whitespace (as_bytes trimmed) = true ∨
               (starts_with trimmed "ws://" || starts_with trimmed "wss://") = false)
        (bad_request "kaspaEndpoint must be a ws:// or wss:// URL without whitespace");
  Ok (Some trimmed).

Definition validate_lane_label (value : string) : api string :=
  let label := trimmed_or_default value "New RGK lane" in
  _ ← fail_if (64 < len label)%nat (bad_request "label must be 64 characters or fewer");
  Ok label.

Definition validate_ticker (value : string) : api string :=
  let ticker := trimmed_or_default value "RGK" in
  _ ← fail_if ((len ticker < 2)%nat ∨ (12 < len ticker)%nat ∨
               all_bytes_are (λ byte, is_ascii_uppercase byte || is_ascii_digit byte) ticker = false)
        (bad_request "ticker must be 2-12 uppercase letters or digits");
  Ok ticker.

Definition validate_balance (value : string) : api string :=
  let balance := trimmed_or_default value "0.0000" in
  _ ← fail_if ((40 < len balance)%nat ∨ valid_decimal balance 8 = false)
        (bad_request "balance must be a non-negative decimal with up to 8 fractional digits");
  Ok balance.

Definition validate_strategy (value : string) : api string :=
  let strategy := trimmed_or_default value "verifier-receipt-baseline" in
  _ ← fail_if ((80 < len strategy)%nat ∨
               all_bytes_are (λ byte, is_ascii_alphanumeric byte ||
                 bool_decide (byte ∈ [x2d; x5f; x2e; x3a])) strategy = false)
        (bad_request "strategy must be 80 characters or fewer and contain only letters, numbers, dash, underscore, dot, or colon");
  Ok strategy.

Definition validate_optional_txid (value : string) : api (option string) :=
  match trimmed_optional value with
  | None => Ok None
  | Some txid =>
      _ ← fail_if ((len txid ≠ 64)%nat ∨ all_bytes_are is_ascii_hexdigit txid = false)
            (bad_request "txid must be 64 hexadecimal characters");
      Ok (Some (to_ascii_lowercase txid))
  end.

(** * Handles and labels *)

Definition hex32_label (value : Bytes32) : string := ("0x" ++ to_hex value)%string.
Definition hex32_plain (value : Bytes32) : string := to_hex value.

(** The part after the last colon, in either case, with or without [0x]. *)
Definition parse_bytes32_handle (value : string) : option Bytes32 :=
  segment ← trim <$> last (split x3a value);
  to_option (from_hex 32 (without_0x (to_ascii_lowercase segment))).

Definition parse_bytes32_required (value field : string) : result string Bytes32 :=
  ok_or (parse_bytes32_handle value)
    (field ++ " must be a 32-byte lowercase hexadecimal value, with optional 0x prefix")%string.

(** The [hex] crate. *)
Class HexCrate := {
  hex_encode : list byte → string;
  hex_decode : string → result string (list byte)
}.

Class HexLaws `{HexCrate} := {
  (** Two lower-case digits for each byte, and decoding takes them back. *)
  hex_encode_digits l : hex_encode l = of_bytes (to_hex_bytes l);
  hex_decode_encode l : hex_decode (hex_encode l) = Ok l
}.

Section hex.
Context `{HexCrate}.

Definition parse_hex_blob (value field : string) : result string (list byte) :=
  let lower := to_ascii_lowercase (trim value) in
  let hex := without_0x lower in
  _ ← fail_if (hex = "") (field ++ " must not be empty")%string;
  _ ← fail_if (len hex mod 2 ≠ 0)%nat
        (field ++ " must contain an even number of hex characters")%string;
  bytes ← map_err (λ error, field ++ " is not valid hex: " ++ error)%string (hex_decode hex);
  _ ← fail_if (uval MAX_BLOB_BYTES < Z.of_nat (length bytes))%Z
        (field ++ " is too large: " ++ usize_display (Z.of_nat (length bytes)) ++ " bytes exceeds " ++
         usize_display MAX_BLOB_BYTES)%string;
  Ok bytes.

Definition decode_prefixed_hex (value field : string) : result WalletdError (list byte) :=
  let hex := without_0x (trim value) in
  _ ← fail_if (hex = "" ∨ (len hex mod 2 ≠ 0)%nat) (WE_Crypto (field ++ " is not valid hex")%string);
  map_err (λ error, WE_Crypto (field ++ " is not valid hex: " ++ error)%string) (hex_decode hex).

(** [format!("0x{}", hex::encode(bytes))] *)
Definition prefixed_hex (bytes : list byte) : string := ("0x" ++ hex_encode bytes)%string.

Definition hex_digest `{Sha256} (domain value : string) (bytes : nat) : string :=
  let digest := sha256 (as_bytes domain ++ as_bytes ":" ++ as_bytes value) in
  prefixed_hex (take (min bytes (length digest)) digest).
End hex.

(** * Amounts *)

Definition SOMPI_PER_KAS : Z := 100000000.

(** [{:08}] *)
Definition pad8 (z : Z) : string :=
  let digits := as_bytes (usize_display z) in
  of_bytes (replicate (8 - length digits) x30 ++ digits).

Definition format_kas_balance (sompi : u64) : string :=
  (usize_display (sompi / SOMPI_PER_KAS) ++ "." ++ pad8 (sompi mod SOMPI_PER_KAS) ++ " KAS")%string.

(** A visible ASCII character that is neither a capital nor a colon. *)
Definition plain (b : byte) : bool :=
  byte_in 33 126 b && negb (is_ascii_uppercase b) && negb (Byte.eqb b x3a).

Lemma plain_spec b : plain b = true →
  (byte_Z b < 128)%Z ∧ space1 b = false ∧ lower_byte b = b ∧ b ≠ x3a.
Proof.
  revert b. refine (byte_ind (λ b, plain b = true → _ ∧ _ ∧ _ ∧ _) _). vm_compute. reflexivity.
Qed.

Lemma plain_hex_digit b :
  plain (hex_digit (Z.shiftr (byte_Z b) 4)) = true ∧ plain (hex_digit (Z.land (byte_Z b) 15)) = true.
Proof. revert b. apply (byte_ind _). vm_compute. reflexivity. Qed.

Lemma plain_to_hex l : Forall (λ b, plain b = true) (to_hex_bytes l).
Proof.
  induction l as [|b l IH]; cbn; [done|]. destruct (plain_hex_digit b). by repeat constructor.
Qed.

(** * Trimming, lowering, splitting *)

Lemma space_high a b : (byte_Z b < 128)%Z → space2 a b = false ∧ space2 b a = false.
Proof.
  intros Hb. unfold space2. split.
  - destruct (Byte.eqb b x85) eqn:E1; [apply Byte.byte_dec_bl in E1 as ->; done|].
    destruct (Byte.eqb b xa0) eqn:E2; [apply Byte.byte_dec_bl in E2 as ->; done|].
    by rewrite andb_false_r.
  - destruct (Byte.eqb b xc2) eqn:E; [apply Byte.byte_dec_bl in E as ->; done|done].
Qed.

Lemma space3_high a b c : (byte_Z c < 128)%Z → space3 a b c = false ∧ space3 c b a = false.
Proof.
  assert (D : ∀ c, (byte_Z c < 128)%Z →
    Byte.eqb c xe1 = false ∧ Byte.eqb c xe2 = false ∧ Byte.eqb c xe3 = false ∧
    Byte.eqb c x80 = false ∧ Byte.eqb c xa8 = false ∧ Byte.eqb c xa9 = false ∧
    Byte.eqb c xaf = false ∧ Byte.eqb c x9f = false ∧ byte_in 128 138 c = false).
  { refine (byte_ind (λ c, _ → _ ∧ _ ∧ _ ∧ _ ∧ _ ∧ _ ∧ _ ∧ _ ∧ _) _). vm_compute. reflexivity. }
  intros (E1 & E2 & E3 & E4 & E5 & E6 & E7 & E8 & E9)%D. unfold space3.
  rewrite E1, E2, E3, E4, E5, E6, E7, E8, E9. cbn. by rewrite !andb_false_r.
Qed.

Lemma drop_spaces_stop flip l :
  (∀ b, head l = Some b → plain b = true) → drop_spaces flip l = l.
Proof.
  destruct l as [|a l]; [done|]. intros Ha.
  destruct (plain_spec a (Ha a eq_refl)) as (Hlt & Hs & _). cbn. rewrite Hs.
  destruct l as [|b l]; [done|].
  destruct (space_high b a Hlt) as [-> ->]. destruct flip.
  all: destruct l as [|c l]; [done|]; destruct (space3_high c b a Hlt) as [E1 E2].
  all: by rewrite ?E1, ?E2.
Qed.

Lemma trim_plain s : Forall (λ b, plain b = true) (as_bytes s) → trim s = s.
Proof.
  intros H. rewrite list.Forall_forall in H. unfold trim. rewrite drop_spaces_stop.
  - rewrite drop_spaces_stop, rev_involutive; [apply of_bytes_as_bytes|].
    intros b Hb. apply H. by apply head_Some_elem_of in Hb.
  - intros b Hb%head_Some_elem_of. apply H. rewrite drop_spaces_stop in Hb.
    + by apply list_elem_of_In, in_rev, list_elem_of_In in Hb.
    + intros c Hc%head_Some_elem_of. by apply H.
Qed.

Lemma lower_plain s : Forall (λ b, plain b = true) (as_bytes s) → to_ascii_lowercase s = s.
Proof.
  intros H. rewrite list.Forall_forall in H. unfold to_ascii_lowercase.
  rewrite <-(of_bytes_as_bytes s) at 2. f_equal.
  rewrite <-(list_fmap_id (as_bytes s)) at 2. apply list_fmap_ext. intros i b Hb.
  by destruct (plain_spec b (H b (list_elem_of_lookup_2 _ _ _ Hb))) as (_ & _ & -> & _).
Qed.

Lemma split_bytes_none c l : c ∉ l → split_bytes c l = [l].
Proof.
  induction l as [|b l IH]; cbn; [done|]. intros Hc.
  destruct (Byte.eqb b c) eqn:E; [apply Byte.byte_dec_bl in E as ->; set_solver|].
  by rewrite IH by set_solver.
Qed.

Lemma split_bytes_app c l k :
  ∃ part parts, split_bytes c (l ++ c :: k) = part :: parts ++ split_bytes c k.
Proof.
  induction l as [|b l (p & ps & IH)]; cbn.
  - exists [], []. by rewrite (Byte.byte_dec_lb (eq_refl c)).
  - rewrite IH. destruct (Byte.eqb b c); [by exists [], (p :: ps)|by exists (b :: p), ps].
Qed.

(** * Handles *)

Lemma as_bytes_app s t : as_bytes (s ++ t)%string = as_bytes s ++ as_bytes t.
Proof.
  induction s as [|a s IH]; [done|].
  change (String.String a s ++ t)%string with (String.String a (s ++ t))%string.
  unfold as_bytes, String.list_byte_of_string in *. cbn in *. by rewrite IH.
Qed.

Lemma last_split_plain c s : c ∉ as_bytes s → last (split c s) = Some s.
Proof.
  intros H. unfold split. rewrite split_bytes_none by done. cbn. by rewrite of_bytes_as_bytes.
Qed.

Lemma last_split_colon s t : x3a ∉ as_bytes t → last (split x3a (s ++ ":" ++ t)%string) = Some t.
Proof.
  intros H. unfold split. rewrite !as_bytes_app. change (as_bytes ":") with [x3a]. cbn [app].
  destruct (split_bytes_app x3a (as_bytes s) (as_bytes t)) as (p & ps & ->).
  rewrite split_bytes_none by done. rewrite fmap_cons, fmap_app. cbn.
  rewrite app_comm_cons, last_snoc. by rewrite of_bytes_as_bytes.
Qed.

Lemma plain_no_colon s : Forall (λ b, plain b = true) (as_bytes s) → x3a ∉ as_bytes s.
Proof. intros H Hin. rewrite list.Forall_forall in H. by destruct (plain_spec _ (H _ Hin)) as (_&_&_&?). Qed.

Lemma plain_0x l : Forall (λ b, plain b = true) l →
  Forall (λ b, plain b = true) (as_bytes ("0x" ++ of_bytes l)%string).
Proof. intros H. rewrite as_bytes_app, as_bytes_of_bytes. by repeat constructor. Qed.

Lemma without_0x_app s : without_0x ("0x" ++ s)%string = s.
Proof.
  unfold without_0x, strip_prefix. rewrite as_bytes_app.
  assert (E : ∀ l, strip_bytes (as_bytes "0x") (as_bytes "0x" ++ l) = Some l) by done.
  rewrite E. exact (of_bytes_as_bytes s).
Qed.

Lemma hex32_label_plain x : Forall (λ b, plain b = true) (as_bytes (hex32_label x)).
Proof. apply plain_0x, plain_to_hex. Qed.

Lemma parse_segment x : to_option (from_hex 32 (without_0x (to_ascii_lowercase (trim (hex32_label x)))))
  = Some x.
Proof.
  rewrite trim_plain, lower_plain by apply hex32_label_plain.
  unfold hex32_label. rewrite without_0x_app. by rewrite (proj2 (from_hex_iff _ _ x)).
Qed.

Lemma parse_hex32_label x : parse_bytes32_handle (hex32_label x) = Some x.
Proof.
  unfold parse_bytes32_handle.
  rewrite last_split_plain by apply plain_no_colon, hex32_label_plain. cbn. apply parse_segment.
Qed.

(** A handle [s:0x...]. *)
Lemma parse_handle s x : parse_bytes32_handle (s ++ ":" ++ hex32_label x)%string = Some x.
Proof.
  unfold parse_bytes32_handle.
  rewrite last_split_colon by apply plain_no_colon, hex32_label_plain. cbn. apply parse_segment.
Qed.

Lemma parse_required x field : parse_bytes32_required (hex32_label x) field = Ok x.
Proof. unfold parse_bytes32_required. by rewrite parse_hex32_label. Qed.

(** * Blobs *)

Section blobs.
Context `{HexLaws}.

Lemma prefixed_hex_digits l : prefixed_hex l = ("0x" ++ of_bytes (to_hex_bytes l))%string.
Proof. unfold prefixed_hex. by rewrite hex_encode_digits. Qed.

Lemma prefixed_hex_plain l : Forall (λ b, plain b = true) (as_bytes (prefixed_hex l)).
Proof. rewrite prefixed_hex_digits. apply plain_0x, plain_to_hex. Qed.

Lemma hex_encode_len l : len (hex_encode l) = (2 * length l)%nat.
Proof. unfold len. by rewrite hex_encode_digits, as_bytes_of_bytes, to_hex_bytes_length. Qed.

Lemma hex_encode_empty l : hex_encode l = "" ↔ l = [].
Proof.
  split.
  - intros E. destruct l as [|b l]; [done|]. pose proof (hex_encode_len (b :: l)) as E'.
    rewrite E in E'. done.
  - intros ->. by rewrite hex_encode_digits.
Qed.

(** The parsers of blobs invert [prefixed_hex]. *)
Lemma parse_hex_blob_prefixed l field :
  l ≠ [] → (Z.of_nat (length l) <= uval MAX_BLOB_BYTES)%Z → parse_hex_blob (prefixed_hex l) field = Ok l.
Proof.
  intros Hne Hl. unfold parse_hex_blob. cbv zeta. rewrite trim_plain, lower_plain by apply prefixed_hex_plain.
  unfold prefixed_hex. rewrite without_0x_app.
  rewrite (fail_if_false (hex_encode l = "")) by (by intros ?%hex_encode_empty).
  rewrite (fail_if_false (_ mod 2 ≠ 0)%nat) by (rewrite hex_encode_len, Nat.mul_comm, Nat.Div0.mod_mul; lia).
  cbn [mbind result_bind]. rewrite hex_decode_encode. cbn [map_err mbind result_bind].
  by rewrite fail_if_false by lia.
Qed.

Lemma decode_prefixed_hex_prefixed l field :
  l ≠ [] → decode_prefixed_hex (prefixed_hex l) field = Ok l.
Proof.
  intros Hne. unfold decode_prefixed_hex. cbv zeta. rewrite trim_plain by apply prefixed_hex_plain.
  unfold prefixed_hex. rewrite without_0x_app. rewrite fail_if_false.
  - cbn [mbind result_bind]. by rewrite hex_decode_encode.
  - rewrite hex_encode_len, Nat.mul_comm, Nat.Div0.mod_mul. by intros [?%hex_encode_empty|?].
Qed.
End blobs.
