(* ===== verification/WalletTypes.v ===== *)
(** The data of the wallet daemon (src/crates/rgk-walletd/src/main.rs): the
    networks it serves, the state it keeps in memory and on disk, the requests it
    takes and the evidence it passes between them. *)

From stdpp Require Import base list strings pretty.
From Stdlib Require Import ZArith Lia Strings.Byte.
From S2P Require Import Prelude.
From S2P Require Import Bytes.
From S2P Require Import Encoding.
From S2P Require Import Types.
From S2P Require Import IndexerTypes.
From S2P Require Import Sync.
From S2P Require Import Wrpc.
From S2P Require Import WalletText.

Open Scope string_scope.

(** * Networks *)

Inductive CliNetwork : Type := Mainnet | Testnet10 | Testnet12 | Devnet | Simnet | LocalToccata.

#[export] Instance CliNetwork_eq_dec : EqDecision CliNetwork.
Proof. solve_decision. Defined.

Definition cli_network_id (self : CliNetwork) : string :=
  match self with
  | Mainnet => "rgk:kaspa-mainnet"
  | Testnet10 => "rgk:testnet-10"
  | Testnet12 => "rgk:testnet-12"
  | Devnet => "rgk:kaspa-devnet"
  | Simnet => "rgk:kaspa-simnet"
  | LocalToccata => "rgk:kaspa-local-toccata"
  end.

Definition protocol_network_id (self : CliNetwork) : string :=
  match self with
  | Mainnet => "kaspa-mainnet"
  | Testnet10 => "testnet-10"
  | Testnet12 => "testnet-12"
  | Devnet => "kaspa-devnet"
  | Simnet => "kaspa-simnet"
  | LocalToccata => "kaspa-local-toccata"
  end.

Definition cli_chain_id (self : CliNetwork) : KaspaChainId :=
  match self with
  | Mainnet => KaspaMainnet
  | Testnet10 | Testnet12 => KaspaTestnet
  | Devnet => KaspaDevnet
  | Simnet => KaspaSimnet
  | LocalToccata => KaspaLocalToccata
  end.

Definition default_kaspa_endpoint (self : CliNetwork) : option string :=
  match self with
  | Mainnet | Testnet10 | Testnet12 => None
  | Devnet => Some "ws://127.0.0.1:19111/v2/kaspa/devnet/no-tls/wrpc/borsh"
  | Simnet | LocalToccata => Some "ws://127.0.0.1:18111/v2/kaspa/simnet/no-tls/wrpc/borsh"
  end.

Definition wrpc_network (self : CliNetwork) : WrpcNetwork :=
  match self with
  | Mainnet => WN_Mainnet
  | Testnet10 | Testnet12 => WN_Testnet
  | Devnet => WN_Devnet
  | Simnet => WN_Simnet
  | LocalToccata => WN_LocalToccata
  end.

(** The prefix of [kaspa_addresses]. *)
Inductive KaspaAddressPrefix : Type := PrefixMainnet | PrefixTestnet | PrefixDevnet | PrefixSimnet.

Definition address_prefix (self : CliNetwork) : KaspaAddressPrefix :=
  match self with
  | Mainnet => PrefixMainnet
  | Testnet10 | Testnet12 => PrefixTestnet
  | Devnet => PrefixDevnet
  | Simnet | LocalToccata => PrefixSimnet
  end.

Record DaemonConfig := {
  dc_network : CliNetwork;
  dc_kaspa_endpoint : option string
}.

(** The endpoint of the command line, or the network's default. *)
Definition daemon_config (network : CliNetwork) (kaspa_endpoint : option string) : DaemonConfig :=
  {| dc_network := network;
     dc_kaspa_endpoint := match kaspa_endpoint with
                          | Some endpoint => Some endpoint
                          | None => default_kaspa_endpoint network
                          end |}.

(** * What the daemon keeps *)

Inductive IdentityVaultStatus : Type := IV_Missing | IV_Encrypted | IV_Unlocked.
Inductive WalletLifecycle : Type :=
| WL_NotCreated | WL_Locked | WL_Ready | WL_Syncing | WL_ServiceRequired.
Inductive PrivacyMode : Type := PrivateLane | PublicLineage.
Inductive ReceiptPolicyName : Type := RN_Any | RN_VerifierOnly | RN_ZkOrVerifier.
Inductive LaneEvidenceStatus : Type := MetadataOnly | Indexed.
Inductive ResolverStateName : Type :=
| SN_Open | SN_NativeTransitionedValid | SN_NativeTransitionedInvalid | SN_Unconfirmed
| SN_ReorgRisk | SN_CompetingBranch | SN_ReplayRejected | SN_PolicyMigrationRequired
| SN_Unknown | SN_NodeDown.
Inductive ProofModeName : Type := MN_VerifierReceipt | MN_ZkReceipt | MN_P2mrRet.
Inductive ProofVerifierStatus : Type := PV_Verified | PV_Pending | PV_Unsupported | PV_Rejected.
Inductive ScanMode : Type := SM_Idle | SM_Scanning | SM_Paused | SM_Unavailable.
Inductive ServiceMode : Type := SV_Unavailable | SV_Connected.

#[export] Instance IdentityVaultStatus_eq_dec : EqDecision IdentityVaultStatus.
Proof. solve_decision. Defined.
#[export] Instance WalletLifecycle_eq_dec : EqDecision WalletLifecycle.
Proof. solve_decision. Defined.
#[export] Instance PrivacyMode_eq_dec : EqDecision PrivacyMode.
Proof. solve_decision. Defined.
#[export] Instance ReceiptPolicyName_eq_dec : EqDecision ReceiptPolicyName.
Proof. solve_decision. Defined.
#[export] Instance LaneEvidenceStatus_eq_dec : EqDecision LaneEvidenceStatus.
Proof. solve_decision. Defined.
#[export] Instance ResolverStateName_eq_dec : EqDecision ResolverStateName.
Proof. solve_decision. Defined.
#[export] Instance ProofModeName_eq_dec : EqDecision ProofModeName.
Proof. solve_decision. Defined.
#[export] Instance ScanMode_eq_dec : EqDecision ScanMode.
Proof. solve_decision. Defined.

Record WalletProfile := {
  wp_wallet_id : string;
  wp_protocol : string;
  wp_network_id : string;
  wp_protocol_network_id : string;
  wp_canonical_chain_domain : string;
  wp_kaspa_endpoint : string;
  wp_wallet_set_id : option string;
  wp_address : option string;
  wp_identity_vault_status : IdentityVaultStatus;
  wp_identity_fingerprint : option string;
  wp_lifecycle : WalletLifecycle
}.

Record IdentityVaultKdf := {
  kdf_algorithm : string;
  kdf_memory_kib : u32;
  kdf_iterations : u32;
  kdf_parallelism : u32
}.

Record IdentityVault := {
  iv_version : u16;
  iv_cipher : string;
  iv_kdf : IdentityVaultKdf;
  iv_salt : string;
  iv_nonce : string;
  iv_ciphertext : string
}.

Record AssetLane := {
  al_lineage_id : string;
  al_lane_id : string;
  al_label : string;
  al_ticker : string;
  al_balance : string;
  al_privacy : PrivacyMode;
  al_proof_policy : ReceiptPolicyName;
  al_evidence_status : LaneEvidenceStatus;
  al_resolver_state : ResolverStateName;
  al_covenant_id : string;
  al_state_digest : string;
  al_latest_receipt_id : option string;
  al_updated_at : string
}.

Record ProofSummary := {
  pf_receipt_id : string;
  pf_proof_mode : ProofModeName;
  pf_receipt_policy : ReceiptPolicyName;
  pf_strategy : string;
  pf_verifier_status : ProofVerifierStatus;
  pf_txid : option string;
  pf_confirmations : u64;
  pf_receipt_bytes : option string;
  pf_transition_digest : option string;
  pf_continuation_commitment : option string;
  pf_continuation_shape_root : option string;
  pf_new_state_digest : option string;
  pf_updated_at : string
}.

Record ScanStatus := {
  st_cursor_name : string;
  st_scan_mode : ScanMode;
  st_last_daa_score : option u64;
  st_indexed_spends : u64;
  st_observed_spends : u64;
  st_reorg_risk_count : u64
}.

Definition scan_status (mode : ScanMode) : ScanStatus :=
  {| st_cursor_name := "avato-rgk"; st_scan_mode := mode; st_last_daa_score := None;
     st_indexed_spends := wrap 64 0; st_observed_spends := wrap 64 0;
     st_reorg_risk_count := wrap 64 0 |}.

Record PersistedState := {
  ps_profile : option WalletProfile;
  ps_passphrase_salt : option string;
  ps_passphrase_verifier : option string;
  ps_identity_vault : option IdentityVault;
  ps_kas_balance : string;
  ps_lanes : list AssetLane;
  ps_proofs : list ProofSummary;
  ps_scan : ScanStatus;
  ps_scan_notice : option string
}.

Definition persisted_default : PersistedState :=
  {| ps_profile := None; ps_passphrase_salt := None; ps_passphrase_verifier := None;
     ps_identity_vault := None; ps_kas_balance := ""; ps_lanes := []; ps_proofs := [];
     ps_scan := scan_status SM_Unavailable; ps_scan_notice := None |}.

Record RuntimeIdentitySession := {
  rs_wallet_id : option string;
  rs_identity_fingerprint : option string;
  rs_identity_secret : option (list byte)
}.

Record UnlockedIdentity := {
  ui_identity_fingerprint : string;
  ui_identity_secret : list byte
}.

Definition session_default : RuntimeIdentitySession :=
  {| rs_wallet_id := None; rs_identity_fingerprint := None; rs_identity_secret := None |}.

Definition session_unlock (self : RuntimeIdentitySession) (wallet_id : string)
    (identity : UnlockedIdentity) : RuntimeIdentitySession :=
  {| rs_wallet_id := Some wallet_id;
     rs_identity_fingerprint := Some (ui_identity_fingerprint identity);
     rs_identity_secret := Some (ui_identity_secret identity) |}.

Definition session_clear (self : RuntimeIdentitySession) : RuntimeIdentitySession :=
  {| rs_wallet_id := None; rs_identity_fingerprint := None; rs_identity_secret := None |}.

Record IdentityVaultContext := {
  vc_wallet_id : string;
  vc_network_id : string;
  vc_protocol_network_id : string;
  vc_canonical_chain_domain : string
}.

Record WalletIdentityMaterial := {
  im_passphrase_salt : string;
  im_passphrase_verifier : string;
  im_vault : IdentityVault;
  im_identity_fingerprint : string;
  im_identity_secret : list byte
}.

Record IdentityVaultPlaintext := {
  vp_version : u16;
  vp_wallet_id : string;
  vp_network_id : string;
  vp_protocol_network_id : string;
  vp_canonical_chain_domain : string;
  vp_recovery_phrase : list string
}.

Record DashboardSnapshot := {
  ds_profile : WalletProfile;
  ds_kas_balance : string;
  ds_lanes : list AssetLane;
  ds_proofs : list ProofSummary;
  ds_scan : ScanStatus;
  ds_service_mode : ServiceMode;
  ds_service_notice : string
}.

(** * Requests and answers *)

Record CreateWalletInput := {
  cw_wallet_id : string;
  cw_network_id : string;
  cw_protocol_network_id : string;
  cw_canonical_chain_domain : string;
  cw_kaspa_endpoint : string;
  cw_passphrase : string;
  cw_recovery_phrase : list string
}.

Record UnlockWalletInput := { uw_passphrase : string }.
Record UpdateKaspaEndpointInput := { ue_kaspa_endpoint : string }.

Record CreateLaneInput := {
  cl_label : string;
  cl_ticker : string;
  cl_balance : string;
  cl_privacy : PrivacyMode;
  cl_proof_policy : ReceiptPolicyName;
  cl_covenant_id : string;
  cl_lineage_id : string;
  cl_asset_id : string;
  cl_lane_id : string;
  cl_scan_tag : string;
  cl_state_digest : string;
  cl_open_txid : string;
  cl_open_index : u32;
  cl_epoch : u64;
  cl_daa_score : u64
}.

Record RecordProofInput := {
  rp_lane_id : string;
  rp_proof_mode : ProofModeName;
  rp_receipt_policy : ReceiptPolicyName;
  rp_strategy : string;
  rp_txid : string;
  rp_confirmations : u64;
  rp_receipt_bytes : string;
  rp_covenant_id : string;
  rp_spent_txid : string;
  rp_spent_index : u32;
  rp_new_txid : string;
  rp_new_index : u32;
  rp_continuation_shape_root : string;
  rp_daa_score : u64
}.

Record RecordTransitionInput := {
  rt_lane_id : string;
  rt_proof_mode : ProofModeName;
  rt_receipt_policy : ReceiptPolicyName;
  rt_strategy : string;
  rt_new_state_digest : string;
  rt_transition_digest : string;
  rt_continuation_commitment : string;
  rt_continuation_shape_root : string;
  rt_new_txid : string;
  rt_new_index : u32;
  rt_daa_score : u64
}.

Record HealthResponse := {
  hr_service : string;
  hr_status : string;
  hr_protocol : string;
  hr_network_id : string;
  hr_protocol_network_id : string;
  hr_canonical_chain_domain : string;
  hr_version : string
}.

(** * Evidence *)

Record LaneEvidence := {
  le_covenant_id : Bytes32;
  le_lineage_id : Bytes32;
  le_asset_id : Bytes32;
  le_lane_id : Bytes32;
  le_state_digest : Bytes32;
  le_state : RgkStateCommitment;
  le_open_outpoint : KaspaOutpoint;
  le_lane : IndexedLane
}.

(** [VerifiedProofEvidence] and [TransitionReceiptEvidence], which have the same
    fields. *)
Record ReceiptEvidence := {
  re_receipt_id : Bytes32;
  re_proof_mode : ProofModeName;
  re_receipt_policy : ReceiptPolicyName;
  re_new_outpoint : KaspaOutpoint;
  re_new_state_digest : Bytes32;
  re_receipt_bytes : string;
  re_transition_digest : Bytes32;
  re_continuation_commitment : Bytes32;
  re_continuation_shape_root : Bytes32
}.

Record LaneResolutionUpdate := {
  lu_lane_id : string;
  lu_resolver_state : ResolverStateName;
  lu_covenant_id : option string;
  lu_state_digest : option string;
  lu_latest_receipt_id : option string
}.

Record WalletdScanResult := {
  sr_tick : ScanTick;
  sr_indexed_spends : nat;
  sr_lane_updates : list LaneResolutionUpdate;
  sr_kas_balance_sompi : option u64
}.

(** * Names *)

Definition privacy_slug (value : PrivacyMode) : string :=
  match value with PrivateLane => "private" | PublicLineage => "public" end.

Definition proof_mode_name (value : ProofMode) : ProofModeName :=
  match value with
  | VerifierReceipt => MN_VerifierReceipt | ZkReceipt => MN_ZkReceipt | P2mrRet => MN_P2mrRet
  end.

Definition proof_mode (value : ProofModeName) : ProofMode :=
  match value with
  | MN_VerifierReceipt => VerifierReceipt | MN_ZkReceipt => ZkReceipt | MN_P2mrRet => P2mrRet
  end.

Definition receipt_policy_name (value : ReceiptPolicy) : ReceiptPolicyName :=
  match value with
  | Any => RN_Any | VerifierOnly => RN_VerifierOnly | ZkOrVerifier => RN_ZkOrVerifier
  end.

Definition receipt_policy (value : ReceiptPolicyName) : ReceiptPolicy :=
  match value with
  | RN_Any => Any | RN_VerifierOnly => VerifierOnly | RN_ZkOrVerifier => ZkOrVerifier
  end.

Lemma receipt_policy_names p n : receipt_policy_name p = n ↔ p = receipt_policy n.
Proof. by destruct p, n. Qed.

Lemma proof_mode_names m n : proof_mode_name m = n ↔ m = proof_mode n.
Proof. by destruct m, n. Qed.
