(* ===== verification/WalletIdentity.v ===== *)
(** The identity vault of the wallet daemon (src/crates/rgk-walletd/src/main.rs):
    deriving the identity and the address of a wallet from its recovery phrase,
    and keeping the phrase encrypted under a passphrase.  Argon2, the cipher, the
    curve, addresses and JSON are [WalletCrypto]. *)

From stdpp Require Import base list strings pretty.
From Stdlib Require Import ZArith Lia Strings.Byte.
From S2P Require Import Prelude.
From S2P Require Import Bytes.
From S2P Require Import Encoding.
From S2P Require Import Types.
From S2P Require Import Commit.
From S2P Require Import Hex.
From S2P Require Import WalletText.
From S2P Require Import WalletTypes.

Open Scope string_scope.
Open Scope list_scope.

(** * Libraries *)

Class WalletCrypto := {
  (** [argon2]: [Params::new] with an output of 32 bytes, [hash_password_into]. *)
  Argon2Params : Type;
  argon2_params : u32 → u32 → u32 → result string Argon2Params;
  hash_password : Argon2Params → list byte → list byte → result string Bytes32;
  (** [XChaCha20Poly1305]: key, nonce, text, associated data. *)
  cipher_encrypt : Bytes32 → list byte → list byte → list byte → option (list byte);
  cipher_decrypt : Bytes32 → list byte → list byte → list byte → option (list byte);
  (** [serde_json] on the plaintext of a vault. *)
  plaintext_to_json : IdentityVaultPlaintext → result string (list byte);
  plaintext_from_json : list byte → result string IdentityVaultPlaintext;
  (** [secp256k1] and [kaspa_addresses]: a secret key's x-only public key, and
      the text of the address of a public key. *)
  SecretKey : Type;
  secret_key_from_slice : list byte → option SecretKey;
  x_only_public_key : SecretKey → list byte;
  pubkey_address : KaspaAddressPrefix → list byte → string;
  (** [bip39]: whether a phrase is an English mnemonic. *)
  english_mnemonic : string → bool
}.

Class WalletCryptoLaws `{WalletCrypto} := {
  (** The parameters the daemon uses are valid, and hashing with a salt of 8
      bytes or more succeeds. *)
  argon2_params_valid : is_ok (argon2_params (wrap 32 (19 * 1024)) (wrap 32 2) (wrap 32 1)) = true;
  hash_password_total params password salt :
    (8 <= length salt)%nat → is_ok (hash_password params password salt) = true;
  (** What is encrypted decrypts, with the key, the nonce and the data it was
      encrypted with. *)
  decrypt_encrypt key nonce msg aad :
    (length nonce = 24)%nat → ∃ ct, cipher_encrypt key nonce msg aad = Some ct ∧
      cipher_decrypt key nonce ct aad = Some msg ∧ ct ≠ [];
  plaintext_json p : ∃ b, plaintext_to_json p = Ok b ∧ plaintext_from_json b = Ok p
}.

Definition IDENTITY_VAULT_VERSION : u16 := wrap 16 1.
Definition IDENTITY_VAULT_KDF_ALGORITHM : string := "argon2id".
Definition IDENTITY_VAULT_CIPHER : string := "xchacha20poly1305".
Definition IDENTITY_VAULT_KDF_MEMORY_KIB : u32 := wrap 32 (19 * 1024).
Definition IDENTITY_VAULT_KDF_ITERATIONS : u32 := wrap 32 2.
Definition IDENTITY_VAULT_KDF_PARALLELISM : u32 := wrap 32 1.
Definition IDENTITY_VAULT_SALT_BYTES : nat := 16.
Definition IDENTITY_VAULT_NONCE_BYTES : nat := 24.

(** One call of [getrandom] for [n] bytes, as the operating system answered it. *)
Definition entropy : Type := result string (list byte).

Section identity.
Context `{Sha256} `{HexCrate} `{WalletCrypto}.

Definition random_hex (draw : entropy) : result WalletdError string :=
  value ← map_err WE_Entropy draw;
  Ok (prefixed_hex value).

Definition derive_argon2_key (domain : list byte) (passphrase : string) (salt : list byte)
  : result WalletdError Bytes32 :=
  params ← map_err (λ error, WE_Crypto ("invalid Argon2 parameters: " ++ error)%string)
             (argon2_params IDENTITY_VAULT_KDF_MEMORY_KIB IDENTITY_VAULT_KDF_ITERATIONS
                IDENTITY_VAULT_KDF_PARALLELISM);
  let password_material := domain ++ [x00] ++ as_bytes passphrase in
  map_err (λ error, WE_Crypto ("Argon2 failed: " ++ error)%string)
    (hash_password params password_material salt).

(** The material is a wallet id, a zero byte and a passphrase, which are UTF-8, so
    [from_utf8] takes it back. *)
Definition passphrase_verifier_with_salt (salt wallet_id passphrase : string)
  : result WalletdError string :=
  salt_bytes ← decode_prefixed_hex salt "passphrase salt";
  let password_material := as_bytes wallet_id ++ [x00] ++ as_bytes passphrase in
  verifier ← derive_argon2_key (as_bytes "rgk-walletd:passphrase-verifier:v2")
               (of_bytes password_material) salt_bytes;
  Ok ("argon2id:v2:0x" ++ hex_encode (blist verifier))%string.

Definition identity_digest (domain : list byte) (context : IdentityVaultContext)
    (recovery_phrase : list string) : Bytes32 :=
  sha256 (domain ++ as_bytes ":" ++ as_bytes (vc_network_id context) ++ as_bytes ":" ++
          as_bytes (vc_protocol_network_id context) ++ as_bytes ":" ++
          as_bytes (vc_canonical_chain_domain context) ++ as_bytes ":" ++
          concat ((λ word, as_bytes word ++ [x00]) <$> recovery_phrase)).

Definition identity_fingerprint (context : IdentityVaultContext) (recovery_phrase : list string)
  : string :=
  prefixed_hex (identity_digest (as_bytes "rgk-walletd:identity-fingerprint:v1") context
                  recovery_phrase).

Definition identity_secret (context : IdentityVaultContext) (recovery_phrase : list string)
  : list byte :=
  identity_digest (as_bytes "rgk-walletd:identity-secret:v1") context recovery_phrase.

Definition identity_vault_aad (context : IdentityVaultContext) : string :=
  ("rgk-walletd:identity-vault:v1:" ++ vc_wallet_id context ++ ":" ++ vc_network_id context ++ ":" ++
   vc_protocol_network_id context ++ ":" ++ vc_canonical_chain_domain context)%string.

Definition vault_key (passphrase : string) (salt : list byte) : result WalletdError Bytes32 :=
  derive_argon2_key (as_bytes "rgk-walletd:identity-vault-key:v1") passphrase salt.

(** The draws are those of the salt and of the nonce. *)
Definition encrypt_identity_vault (salt_draw nonce_draw : entropy) (context : IdentityVaultContext)
    (recovery_phrase : list string) (passphrase : string) : result WalletdError IdentityVault :=
  salt ← map_err WE_Entropy salt_draw;
  nonce ← map_err WE_Entropy nonce_draw;
  let plaintext := {|
    vp_version := IDENTITY_VAULT_VERSION; vp_wallet_id := vc_wallet_id context;
    vp_network_id := vc_network_id context;
    vp_protocol_network_id := vc_protocol_network_id context;
    vp_canonical_chain_domain := vc_canonical_chain_domain context;
    vp_recovery_phrase := recovery_phrase |} in
  plaintext_bytes ← map_err (λ error, WE_Crypto ("encode identity plaintext: " ++ error)%string)
                      (plaintext_to_json plaintext);
  key ← vault_key passphrase salt;
  ciphertext ← ok_or (cipher_encrypt key nonce plaintext_bytes (as_bytes (identity_vault_aad context)))
                 (WE_Crypto "identity vault encryption failed");
  Ok {| iv_version := IDENTITY_VAULT_VERSION; iv_cipher := IDENTITY_VAULT_CIPHER;
        iv_kdf := {| kdf_algorithm := IDENTITY_VAULT_KDF_ALGORITHM;
                     kdf_memory_kib := IDENTITY_VAULT_KDF_MEMORY_KIB;
                     kdf_iterations := IDENTITY_VAULT_KDF_ITERATIONS;
                     kdf_parallelism := IDENTITY_VAULT_KDF_PARALLELISM |};
        iv_salt := prefixed_hex salt; iv_nonce := prefixed_hex nonce;
        iv_ciphertext := prefixed_hex ciphertext |}.

Definition context_from_profile (profile : WalletProfile) : IdentityVaultContext :=
  {| vc_wallet_id := wp_wallet_id profile; vc_network_id := wp_network_id profile;
     vc_protocol_network_id := wp_protocol_network_id profile;
     vc_canonical_chain_domain := wp_canonical_chain_domain profile |}.

Definition validate_identity_vault_header (vault : IdentityVault) : result WalletdError unit :=
  _ ← fail_if (iv_version vault ≠ IDENTITY_VAULT_VERSION)
        (WE_Crypto ("unsupported identity vault version " ++ u16_display (iv_version vault))%string);
  _ ← fail_if (iv_cipher vault ≠ IDENTITY_VAULT_CIPHER)
        (WE_Crypto ("unsupported identity vault cipher " ++ iv_cipher vault)%string);
  fail_if (kdf_algorithm (iv_kdf vault) ≠ IDENTITY_VAULT_KDF_ALGORITHM ∨
           kdf_memory_kib (iv_kdf vault) ≠ IDENTITY_VAULT_KDF_MEMORY_KIB ∨
           kdf_iterations (iv_kdf vault) ≠ IDENTITY_VAULT_KDF_ITERATIONS ∨
           kdf_parallelism (iv_kdf vault) ≠ IDENTITY_VAULT_KDF_PARALLELISM)
    (WE_Crypto "unsupported identity vault KDF parameters").

Definition validate_identity_plaintext (context : IdentityVaultContext)
    (plaintext : IdentityVaultPlaintext) : result WalletdError unit :=
  fail_if (vp_version plaintext ≠ IDENTITY_VAULT_VERSION ∨
           vp_wallet_id plaintext ≠ vc_wallet_id context ∨
           vp_network_id plaintext ≠ vc_network_id context ∨
           vp_protocol_network_id plaintext ≠ vc_protocol_network_id context ∨
           vp_canonical_chain_domain plaintext ≠ vc_canonical_chain_domain context)
    (WE_Crypto "identity vault plaintext does not match wallet profile").

Definition decrypt_identity_vault (profile : WalletProfile) (vault : IdentityVault)
    (passphrase : string) : result WalletdError UnlockedIdentity :=
  _ ← validate_identity_vault_header vault;
  let context := context_from_profile profile in
  salt ← decode_prefixed_hex (iv_salt vault) "identity vault salt";
  nonce ← decode_prefixed_hex (iv_nonce vault) "identity vault nonce";
  _ ← fail_if (length nonce ≠ IDENTITY_VAULT_NONCE_BYTES)
        (WE_Crypto "identity vault nonce must be 24 bytes");
  ciphertext ← decode_prefixed_hex (iv_ciphertext vault) "identity vault ciphertext";
  key ← vault_key passphrase salt;
  plaintext_bytes ← ok_or (cipher_decrypt key nonce ciphertext
                             (as_bytes (identity_vault_aad context))) WE_Unauthorized;
  plaintext ← map_err (λ error, WE_Crypto ("decode identity plaintext: " ++ error)%string)
                (plaintext_from_json plaintext_bytes);
  _ ← validate_identity_plaintext context plaintext;
  Ok {| ui_identity_fingerprint := identity_fingerprint context (vp_recovery_phrase plaintext);
        ui_identity_secret := identity_secret context (vp_recovery_phrase plaintext) |}.

(** What one request draws from the operating system. *)
Record Draws := {
  dr_passphrase_salt : entropy;
  dr_salt : entropy;
  dr_nonce : entropy
}.

Definition build_wallet_identity_material (draws : Draws) (context : IdentityVaultContext)
    (recovery_phrase : list string) (passphrase : string)
  : result WalletdError WalletIdentityMaterial :=
  passphrase_salt ← random_hex (dr_passphrase_salt draws);
  passphrase_verifier ← passphrase_verifier_with_salt passphrase_salt (vc_wallet_id context)
                          passphrase;
  vault ← encrypt_identity_vault (dr_salt draws) (dr_nonce draws) context recovery_phrase passphrase;
  Ok {| im_passphrase_salt := passphrase_salt; im_passphrase_verifier := passphrase_verifier;
        im_vault := vault; im_identity_fingerprint := identity_fingerprint context recovery_phrase;
        im_identity_secret := identity_secret context recovery_phrase |}.

(** * The address *)

Definition wallet_secret_key (network : CliNetwork) (identity_secret : list byte) (nonce : Z)
  : option SecretKey :=
  secret_key_from_slice (blist (sha256
    (as_bytes "rgk-walletd:kaspa-wallet-address-key:v1" ++
     as_bytes (chain_as_domain_str (cli_chain_id network)) ++ identity_secret ++ le_bytes 4 nonce))).

(** The first value of [f] on [start], [start + 1], .. below [start + 2 ^ k]. *)
Fixpoint first_some {A} (k : nat) (start : Z) (f : Z → option A) : option A :=
  match k with
  | O => f start
  | S k' =>
      match first_some k' start f with
      | Some a => Some a
      | None => first_some k' (start + 2 ^ Z.of_nat k') f
      end
  end.

(** [for nonce in 0u32..=u32::MAX] *)
Definition derive_wallet_address (network : CliNetwork) (identity_secret : list byte)
  : result WalletdError string :=
  secret_key ← ok_or (first_some 32 0 (wallet_secret_key network identity_secret))
    (WE_Crypto "could not derive a valid Kaspa wallet address");
  Ok (pubkey_address (address_prefix network) (x_only_public_key secret_key)).
End identity.
