(* ===== verification/WalletIndex.v ===== *)
(** What the wallet daemon (src/crates/rgk-walletd/src/main.rs) does with the
    index of covenants: the evidence of a new lane, receipts handed in, transitions
    it builds itself, and the resolution of the lanes of a profile, over the
    [Indexer] and chain-backend interfaces. *)

From stdpp Require Import base list strings pretty.
From Stdlib Require Import ZArith Lia Strings.Byte.
From S2P Require Import Prelude.
From S2P Require Import Bytes.
From S2P Require Import Encoding.
From S2P Require Import Types.
From S2P Require Import Commit.
From S2P Require Import Hex.
From S2P Require Import Receipt.
From S2P Require Import IndexerTypes.
From S2P Require Import Kaspa.
From S2P Require Import Resolver.
From S2P Require Import Sync.
From S2P Require Import Wrpc.
From S2P Require Import WalletText.
From S2P Require Import WalletTypes.

Open Scope string_scope.
Open Scope list_scope.

(** * Messages *)

Definition debug_u64_opt (o : option u64) : string :=
  match o with Some n => "Some(" ++ usize_display n ++ ")" | None => "None" end%string.

Definition indexer_error_display (e : IndexerError) : string :=
  match e with
  | IE_NotIndexed c => "covenant not indexed: " ++ hex_display c
  | IE_AlreadyIndexed c => "covenant already indexed: " ++ hex_display c
  | IE_ChainMismatch existing requested =>
      "chain id mismatch: entry is for " ++ debug_chain existing ++ ", request is for " ++
      debug_chain requested
  | IE_LineageMismatch existing requested =>
      "lineage mismatch: entry is " ++ hex_display existing ++ ", request is " ++
      hex_display requested
  | IE_Replay id => "replay detected: receipt " ++ hex_display id ++ " already accepted"
  | IE_NoHistory => "reorg rollback failed: covenant has no spend history"
  | IE_RollbackTooDeep requested available =>
      "reorg rollback exceeded depth: requested " ++ usize_display requested ++ ", available " ++
      usize_display (Z.of_nat available)
  | IE_OpenOutpointSet => "open outpoint already set; spend before registering a new state"
  | IE_ContinuationProofIncomplete msg => "continuation proof is incomplete: " ++ msg
  | IE_PolicyMigrationProofInvalid msg => "policy migration proof is invalid: " ++ msg
  | IE_AllocationAuditCertificateInvalid msg =>
      "allocation audit certificate is invalid: " ++ msg
  | IE_LaneInvariant msg => "lane index invariant violated: " ++ msg
  | IE_SpendReceiptNotIndexed covenant receipt_id =>
      "spend receipt " ++ hex_display receipt_id ++ " is not indexed for covenant " ++
      hex_display covenant
  | IE_RebuildSource msg => "rebuild source failed: " ++ msg
  | IE_RebuildSpendMissing spent =>
      "rebuild source has no spend evidence for " ++ debug_outpoint spent
  | IE_RebuildTxMismatch spent expected actual =>
      "rebuild source saw tx " ++ hex_display actual ++ " spending " ++ debug_outpoint spent ++
      ", expected " ++ hex_display expected
  | IE_RebuildMissingDaaScore txid =>
      "rebuild source did not report a block DAA score for spending tx " ++ hex_display txid
  | IE_RebuildInsufficientConfirmations txid required actual =>
      "rebuild tx " ++ hex_display txid ++ " has confirmation depth " ++ debug_u64_opt actual ++
      ", required " ++ usize_display required
  | IE_Invariant msg => "invariant violated: " ++ msg
  | IE_Storage msg => "storage I/O failure: " ++ msg
  end%string.

Definition debug_mode (m : ProofMode) : string :=
  match m with
  | VerifierReceipt => "VerifierReceipt" | ZkReceipt => "ZkReceipt" | P2mrRet => "P2mrRet"
  end.
Definition debug_policy (p : ReceiptPolicy) : string :=
  match p with
  | Any => "Any" | VerifierOnly => "VerifierOnly" | ZkOrVerifier => "ZkOrVerifier"
  end.

Definition receipt_error_display (e : ReceiptError) : string :=
  match e with
  | RE_ChainMismatch receipt verifier =>
      "chain id mismatch: receipt declares " ++ debug_chain receipt ++
      ", verifier configured for " ++ debug_chain verifier
  | RE_CovenantMismatch covenant actual =>
      "covenant id mismatch: receipt declares " ++ hex_display covenant ++
      ", covenant under spend is " ++ hex_display actual
  | RE_AssetMismatch expected actual =>
      "asset id mismatch: receipt expects " ++ hex_display expected ++ ", current state is " ++
      hex_display actual
  | RE_OldStateMismatch expected actual =>
      "old state digest mismatch: receipt expects " ++ hex_display expected ++
      ", current state is " ++ hex_display actual
  | RE_PolicyRejectsMode policy mode =>
      "receipt policy does not admit proof mode " ++ debug_mode mode ++ " (policy " ++
      debug_policy policy ++ ")"
  | RE_DecodeFailure e => "receipt decode failure: " ++ decode_error_display e
  | RE_Structural msg => "receipt structural failure: " ++ msg
  | RE_Replay id => "receipt " ++ hex_display id ++ " was already consumed (replay detected)"
  | RE_UnknownChain c => "receipt references unknown chain " ++ debug_chain c
  | RE_MissingTransitionDigest => "transition digest missing (must be non-zero)"
  | RE_MissingContinuationCommitment => "continuation commitment missing (must be non-zero)"
  | RE_MissingReplayNonce => "replay nonce missing (must be non-zero)"
  end%string.

Definition sync_error_display (e : SyncError) : string :=
  match e with
  | SE_CursorChainMismatch expected actual =>
      "scan cursor is for " ++ debug_chain actual ++ ", expected " ++ debug_chain expected
  | SE_Reorg removed =>
      "scan reorg detected: " ++ usize_display (Z.of_nat (length removed)) ++
      " removed chain block(s)"
  | SE_MissingAddedDaaScore => "scan batch added blocks but did not report a DAA score"
  | SE_ObservedSpendRecordMismatch observed_spends records =>
      "scan batch reported " ++ usize_display observed_spends ++ " observed spend(s) but supplied " ++
      usize_display (Z.of_nat records) ++ " durable record(s)"
  | SE_Indexer e => "indexer cursor storage error: " ++ indexer_error_display e
  | SE_Chain msg => "chain scan error: " ++ msg
  end%string.

(** * The scanner database *)

(** How opening and flushing the database went.  The content of the database is
    the store a computation runs on; the handle is per task. *)
Record DbOutcome := {
  db_open : result IndexerError unit;
  db_flush : result IndexerError unit
}.

(** [tokio::task::spawn_blocking(body).await.map_err(..)?]: the body, unless
    joining it fails; the error then comes with the store the body left. *)
Definition spawn_blocking {S A} (join : option (string * S)) (label : string)
    (body : stateful S string A) : stateful S string A := λ s,
  match join with
  | None => body s
  | Some (error, s') => (Err (label ++ " failed: " ++ error)%string, s')
  end.

Definition failed {A} (what : string) (r : result IndexerError A) : result string A :=
  map_err (λ error, what ++ ": " ++ indexer_error_display error)%string r.

Definition open_path {I} (db : DbOutcome) : stateful I string unit :=
  reading (λ _, failed "failed to open scanner database" (db_open db)).
Definition flush {I} (db : DbOutcome) : stateful I string unit :=
  reading (λ _, failed "failed to flush scanner database" (db_flush db)).

(** [for (name, value) in [..] { if value.trim().is_empty() { return Err(..) } }] *)
Definition require_fields (what : string) (fields : list (string * string)) : result string unit :=
  try_fold (λ _ '(name, value),
    fail_if (trim value = "") (name ++ " is required when " ++ what ++ " is supplied")%string)
    () fields.

(** * The evidence of a lane *)

Definition supplied (value : string) : bool := negb (is_empty (trim value)).

Definition lane_evidence_supplied (input : CreateLaneInput) : bool :=
  supplied (cl_covenant_id input) || supplied (cl_lineage_id input) ||
  supplied (cl_asset_id input) || supplied (cl_lane_id input) || supplied (cl_scan_tag input) ||
  supplied (cl_state_digest input) || supplied (cl_open_txid input).

Definition require_lane_evidence_bundle (input : CreateLaneInput) : result string unit :=
  require_fields "lane evidence" [
    ("covenantId", cl_covenant_id input); ("lineageId", cl_lineage_id input);
    ("assetId", cl_asset_id input); ("laneId", cl_lane_id input);
    ("stateDigest", cl_state_digest input); ("openTxid", cl_open_txid input)].

Definition validate_lane_evidence_invariants (lane_id : Bytes32) (scan_tag : option Bytes32)
    (state_digest : Bytes32) : result string unit :=
  _ ← fail_if (lane_id = zero32) "laneId must not be zero when lane evidence is supplied";
  _ ← fail_if (state_digest = zero32) "stateDigest must not be zero when lane evidence is supplied";
  fail_if (scan_tag = Some zero32) "scanTag must not be zero when lane evidence is supplied".

(** [trimmed_optional(&scan_tag).map(..).transpose()?] *)
Definition parse_scan_tag (value : string) : result string (option Bytes32) :=
  match trimmed_optional value with
  | None => Ok None
  | Some scan_tag => Some <$> parse_bytes32_required scan_tag "scanTag"
  end.

Definition parse_lane_evidence (chain_id : KaspaChainId) (input : CreateLaneInput)
  : result string (option LaneEvidence) :=
  if negb (lane_evidence_supplied input) then Ok None else
  _ ← require_lane_evidence_bundle input;
  covenant_id ← parse_bytes32_required (cl_covenant_id input) "covenantId";
  lineage_id ← parse_bytes32_required (cl_lineage_id input) "lineageId";
  asset_id ← parse_bytes32_required (cl_asset_id input) "assetId";
  lane_id ← parse_bytes32_required (cl_lane_id input) "laneId";
  scan_tag ← parse_scan_tag (cl_scan_tag input);
  state_digest ← parse_bytes32_required (cl_state_digest input) "stateDigest";
  _ ← validate_lane_evidence_invariants lane_id scan_tag state_digest;
  open_txid ← parse_bytes32_required (cl_open_txid input) "openTxid";
  state ← map_err (λ error, "indexed state commitment is invalid: " ++ decode_error_display error)%string
            (state_new chain_id covenant_id asset_id state_digest
               (receipt_policy (cl_proof_policy input)));
  Ok (Some {|
    le_covenant_id := covenant_id; le_lineage_id := lineage_id; le_asset_id := asset_id;
    le_lane_id := lane_id; le_state_digest := state_digest; le_state := state;
    le_open_outpoint := {| transaction_id := open_txid; index := cl_open_index input |};
    le_lane := {|
      il_chain_id := chain_id; il_covenant_id := covenant_id; il_asset_id := asset_id;
      il_lane_id := lane_id; il_epoch := cl_epoch input; il_scan_tag := scan_tag;
      il_public_lineage := bool_decide (cl_privacy input = PublicLineage);
      il_state_digest := state_digest; il_last_update_daa_score := cl_daa_score input |} |}).

Definition already_present : api_failure :=
  bad_request "lane or covenant is already present in the wallet profile".

Definition validate_lane_profile_uniqueness (store : PersistedState) (evidence : LaneEvidence)
  : api unit :=
  fail_if (Exists (λ existing,
             parse_bytes32_handle (al_lane_id existing) = Some (le_lane_id evidence) ∨
             parse_bytes32_handle (al_covenant_id existing) = Some (le_covenant_id evidence))
             (ps_lanes store))
    already_present.

Section evidence.
Context {I : Type} `{Indexer I} `{Sha256} `{HexCrate}.

Definition index_lane_evidence_at_path (db : DbOutcome) (chain_id : KaspaChainId)
    (evidence : LaneEvidence) : stateful I string (option LaneEvidence) :=
  _ ← reading (λ _, fail_if (il_chain_id (le_lane evidence) ≠ chain_id)
                      "lane evidence chain id does not match walletd network");
  _ ← open_path db;
  _ ← updating (λ indexer, failed "failed to index covenant"
        (open indexer chain_id (le_covenant_id evidence) (le_lineage_id evidence)
           (le_state evidence) (le_open_outpoint evidence)
           (il_last_update_daa_score (le_lane evidence))));
  _ ← updating (λ indexer, failed "failed to register lane"
        (register_lane indexer (le_lane evidence)));
  _ ← flush db;
  mret (Some evidence).

Definition index_lane_evidence (db : DbOutcome) (join : option (string * I))
    (chain_id : KaspaChainId) (evidence : option LaneEvidence)
  : stateful I string (option LaneEvidence) :=
  match evidence with
  | None => mret None
  | Some evidence =>
      spawn_blocking join "lane evidence task" (index_lane_evidence_at_path db chain_id evidence)
  end.

(** * Receipts handed in *)

Definition proof_evidence_supplied (input : RecordProofInput) : bool :=
  supplied (rp_receipt_bytes input) || supplied (rp_covenant_id input) ||
  supplied (rp_spent_txid input) || supplied (rp_new_txid input) ||
  supplied (rp_continuation_shape_root input).

Definition require_proof_evidence_bundle (input : RecordProofInput) : result string unit :=
  require_fields "proof evidence" [
    ("receiptBytes", rp_receipt_bytes input); ("covenantId", rp_covenant_id input);
    ("spentTxid", rp_spent_txid input); ("newTxid", rp_new_txid input);
    ("continuationShapeRoot", rp_continuation_shape_root input)].

Definition validate_proof_lane_binding (input : RecordProofInput)
    (selected_lane_covenant_id : string) : result string unit :=
  if negb (proof_evidence_supplied input) then Ok () else
  selected ← parse_bytes32_required selected_lane_covenant_id "selected lane covenantId";
  supplied ← parse_bytes32_required (rp_covenant_id input) "covenantId";
  fail_if (selected ≠ supplied)
    "covenantId must match the selected lane before proof evidence can be indexed".

(** The check of the optional [txid] against [newTxid]. *)
Definition check_txid (input : RecordProofInput) (new_outpoint : KaspaOutpoint)
  : result string unit :=
  match trimmed_optional (rp_txid input) with
  | None => Ok ()
  | Some txid =>
      txid ← parse_bytes32_required txid "txid";
      fail_if (txid ≠ transaction_id new_outpoint)
        "txid must match newTxid when receipt evidence is supplied"
  end.

(** What [ingest_proof_evidence_at_path] reads from its input before it opens
    the database. *)
Record ProofRequest := {
  pq_receipt_bytes : list byte;
  pq_covenant_id : Bytes32;
  pq_spent : KaspaOutpoint;
  pq_new_outpoint : KaspaOutpoint;
  pq_shape_root : Bytes32;
  pq_receipt : RgkReceipt
}.

Definition parse_proof_request (input : RecordProofInput) : result string ProofRequest :=
  _ ← require_proof_evidence_bundle input;
  receipt_bytes ← parse_hex_blob (rp_receipt_bytes input) "receiptBytes";
  covenant_id ← parse_bytes32_required (rp_covenant_id input) "covenantId";
  spent_txid ← parse_bytes32_required (rp_spent_txid input) "spentTxid";
  new_txid ← parse_bytes32_required (rp_new_txid input) "newTxid";
  let new_outpoint := {| transaction_id := new_txid; index := rp_new_index input |} in
  _ ← check_txid input new_outpoint;
  shape_root ← parse_bytes32_required (rp_continuation_shape_root input) "continuationShapeRoot";
  receipt ← map_err (λ error, "receiptBytes could not be decoded: " ++ decode_error_display error)%string
              (decode_canonical (A := RgkReceipt) receipt_bytes);
  _ ← fail_if (proof_mode_name (rc_proof_mode receipt) ≠ rp_proof_mode input)
        "proofMode does not match the canonical receipt";
  _ ← fail_if (receipt_policy_name (sc_receipt_policy (rc_new_state receipt))
               ≠ rp_receipt_policy input)
        "receiptPolicy does not match the canonical receipt new state";
  Ok {| pq_receipt_bytes := receipt_bytes; pq_covenant_id := covenant_id;
        pq_spent := {| transaction_id := spent_txid; index := rp_spent_index input |};
        pq_new_outpoint := new_outpoint; pq_shape_root := shape_root; pq_receipt := receipt |}.

Definition ingest_proof_evidence_at_path (db : DbOutcome) (chain_id : KaspaChainId)
    (input : RecordProofInput) : stateful I string (option ReceiptEvidence) :=
  if negb (proof_evidence_supplied input) then mret None else
  q ← reading (λ _, parse_proof_request input);
  _ ← open_path db;
  let covenant_id := pq_covenant_id q in
  let receipt := pq_receipt q in
  expected_old ← reading (λ indexer, ok_or (latest_state indexer covenant_id)
                   "covenantId is not indexed in the wallet database");
  receipt_id ← reading (λ _, map_err
                 (λ error, "receipt verification failed: " ++ receipt_error_display error)%string
                 (verify_local_structured receipt covenant_id expected_old chain_id));
  _ ← reading (λ _, fail_if (receipt_id ≠ receipt_commitment receipt)
                      "receipt verifier returned a non-canonical receipt id");
  let continuation := {| co_commitment := rc_continuation_commitment receipt;
                         co_shape_root := pq_shape_root q;
                         co_transition_digest := rc_transition_digest receipt |} in
  _ ← updating (λ indexer, failed "failed to index receipt spend"
        (apply_spend_with_continuation indexer covenant_id receipt_id (pq_spent q)
           (pq_new_outpoint q) (rc_new_state receipt) (rp_daa_score input) continuation));
  _ ← flush db;
  mret (Some {|
    re_receipt_id := receipt_id; re_proof_mode := proof_mode_name (rc_proof_mode receipt);
    re_receipt_policy := receipt_policy_name (sc_receipt_policy (rc_new_state receipt));
    re_new_outpoint := pq_new_outpoint q;
    re_new_state_digest := sc_state_digest (rc_new_state receipt);
    re_receipt_bytes := prefixed_hex (pq_receipt_bytes q);
    re_transition_digest := rc_transition_digest receipt;
    re_continuation_commitment := rc_continuation_commitment receipt;
    re_continuation_shape_root := pq_shape_root q |}).

Definition ingest_proof_evidence (db : DbOutcome) (join : option (string * I))
    (chain_id : KaspaChainId) (input : RecordProofInput)
  : stateful I string (option ReceiptEvidence) :=
  if negb (proof_evidence_supplied input) then mret None else
  spawn_blocking join "proof evidence task" (ingest_proof_evidence_at_path db chain_id input).
End evidence.

(** * Transitions the daemon builds *)

(** What [build_transition_receipt_at_path] reads from its input before it opens
    the database. *)
Record TransitionRequest := {
  tq_lane_id : Bytes32;
  tq_covenant_id : Bytes32;
  tq_new_state_digest : Bytes32;
  tq_transition_digest : Bytes32;
  tq_continuation_commitment : Bytes32;
  tq_continuation_shape_root : Bytes32;
  tq_new_outpoint : KaspaOutpoint
}.

Definition parse_transition_request (input : RecordTransitionInput)
    (selected_lane_covenant_id : string) : result string TransitionRequest :=
  lane_id ← parse_bytes32_required (rt_lane_id input) "laneId";
  covenant_id ← parse_bytes32_required selected_lane_covenant_id "selected lane covenantId";
  new_state_digest ← parse_bytes32_required (rt_new_state_digest input) "newStateDigest";
  transition_digest ← parse_bytes32_required (rt_transition_digest input) "transitionDigest";
  continuation_commitment ←
    parse_bytes32_required (rt_continuation_commitment input) "continuationCommitment";
  continuation_shape_root ←
    parse_bytes32_required (rt_continuation_shape_root input) "continuationShapeRoot";
  new_txid ← parse_bytes32_required (rt_new_txid input) "newTxid";
  Ok {| tq_lane_id := lane_id; tq_covenant_id := covenant_id;
        tq_new_state_digest := new_state_digest; tq_transition_digest := transition_digest;
        tq_continuation_commitment := continuation_commitment;
        tq_continuation_shape_root := continuation_shape_root;
        tq_new_outpoint := {| transaction_id := new_txid; index := rt_new_index input |} |}.

Section transitions.
Context {I : Type} `{Indexer I} `{Sha256} `{HexCrate}.

(** The lane's covenant as it is indexed: its state and open outpoint. *)
Definition indexed_tip (q : TransitionRequest) (indexer : I)
  : result string (RgkStateCommitment * KaspaOutpoint) :=
  indexed_lane ← ok_or (lane_by_id indexer (tq_lane_id q))
                   "laneId is not indexed in the wallet database";
  _ ← fail_if (il_covenant_id indexed_lane ≠ tq_covenant_id q)
        "indexed lane covenant does not match the selected wallet lane";
  old_state ← ok_or (latest_state indexer (tq_covenant_id q))
                "selected lane covenant is not indexed in the wallet database";
  spent ← ok_or (open_outpoint indexer (tq_covenant_id q))
            "selected lane has no indexed open outpoint";
  Ok (old_state, spent).

(** The receipt of the transition, built and verified, with its new state. *)
Definition transition_receipt (chain_id : KaspaChainId) (input : RecordTransitionInput)
    (q : TransitionRequest) (old_state : RgkStateCommitment) (spent : KaspaOutpoint)
  : result string (RgkStateCommitment * ReceiptId * list byte) :=
  _ ← fail_if (receipt_policy_name (sc_receipt_policy old_state) ≠ rt_receipt_policy input)
        "receiptPolicy must match the indexed lane current policy";
  new_state ← map_err (λ error,
                "transition state commitment is invalid: " ++ decode_error_display error)%string
              (state_new chain_id (tq_covenant_id q) (sc_asset_id old_state)
                 (tq_new_state_digest q) (receipt_policy (rt_receipt_policy input)));
  let nonce := replay_nonce (encode_canonical spent) (tq_transition_digest q) in
  receipt_input ← map_err (λ error,
                    "transition receipt input is invalid: " ++ receipt_error_display error)%string
                  (receipt_input_new chain_id (tq_covenant_id q) old_state new_state
                     (tq_transition_digest q) (tq_continuation_commitment q)
                     (proof_mode (rt_proof_mode input)) nonce);
  '(receipt, receipt_id, receipt_bytes) ← map_err (λ error,
      "failed to build transition receipt: " ++ receipt_error_display error)%string
    (receipt_build receipt_input);
  verified_id ← map_err (λ error,
      "transition receipt verification failed: " ++ receipt_error_display error)%string
    (verify_local_structured receipt (tq_covenant_id q) old_state chain_id);
  _ ← fail_if (verified_id ≠ receipt_id)
        "transition receipt verifier returned a non-canonical receipt id";
  Ok (new_state, receipt_id, receipt_bytes).

Definition build_transition_receipt_at_path (db : DbOutcome) (chain_id : KaspaChainId)
    (input : RecordTransitionInput) (selected_lane_covenant_id : string)
  : stateful I string ReceiptEvidence :=
  q ← reading (λ _, parse_transition_request input selected_lane_covenant_id);
  _ ← open_path db;
  '(old_state, spent) ← reading (indexed_tip q);
  '(new_state, receipt_id, receipt_bytes) ←
    reading (λ _, transition_receipt chain_id input q old_state spent);
  let continuation := {| co_commitment := tq_continuation_commitment q;
                         co_shape_root := tq_continuation_shape_root q;
                         co_transition_digest := tq_transition_digest q |} in
  _ ← updating (λ indexer, failed "failed to index transition receipt"
        (apply_spend_with_continuation indexer (tq_covenant_id q) receipt_id spent
           (tq_new_outpoint q) new_state (rt_daa_score input) continuation));
  _ ← flush db;
  mret {|
    re_receipt_id := receipt_id; re_proof_mode := rt_proof_mode input;
    re_receipt_policy := rt_receipt_policy input; re_new_outpoint := tq_new_outpoint q;
    re_new_state_digest := tq_new_state_digest q; re_receipt_bytes := prefixed_hex receipt_bytes;
    re_transition_digest := tq_transition_digest q;
    re_continuation_commitment := tq_continuation_commitment q;
    re_continuation_shape_root := tq_continuation_shape_root q |}.

Definition build_transition_receipt (db : DbOutcome) (join : option (string * I))
    (chain_id : KaspaChainId) (input : RecordTransitionInput) (selected_lane_covenant_id : string)
  : stateful I string ReceiptEvidence :=
  spawn_blocking join "transition receipt task"
    (build_transition_receipt_at_path db chain_id input selected_lane_covenant_id).
End transitions.

(** * Resolving the lanes of a profile *)

Definition resolver_state_name (state : ResolverState) : ResolverStateName :=
  match state with
  | RS_Open _ _ _ => SN_Open
  | RS_NativeTransitionedValid _ _ _ _ _ _ _ => SN_NativeTransitionedValid
  | RS_NativeTransitionedInvalid _ _ => SN_NativeTransitionedInvalid
  | RS_Unconfirmed _ _ => SN_Unconfirmed
  | RS_ReorgRisk _ _ => SN_ReorgRisk
  | RS_CompetingBranch _ _ _ _ _ => SN_CompetingBranch
  | RS_PolicyMigrationRequired _ _ _ => SN_PolicyMigrationRequired
  | RS_ReplayRejected _ _ => SN_ReplayRejected
  | RS_Unknown _ => SN_Unknown
  | RS_NodeDown _ _ => SN_NodeDown
  end.

Definition receipt_label (receipt_id : Bytes32) : string :=
  ("rgk:receipt:" ++ hex32_label receipt_id)%string.

Definition lane_update_from_resolver_state (lane : AssetLane) (indexed_lane : option IndexedLane)
    (state : ResolverState) : LaneResolutionUpdate :=
  let '(state_digest, latest_receipt_id) :=
    match state with
    | RS_Open _ _ state => (Some (hex32_label (sc_state_digest state)), None)
    | RS_NativeTransitionedValid _ _ _ receipt_id new_state _ _ =>
        (Some (hex32_label (sc_state_digest new_state)), Some (receipt_label receipt_id))
    | _ => (None, None)
    end in
  {| lu_lane_id := al_lane_id lane; lu_resolver_state := resolver_state_name state;
     lu_covenant_id := (λ indexed, hex32_label (il_covenant_id indexed)) <$> indexed_lane;
     lu_state_digest := state_digest; lu_latest_receipt_id := latest_receipt_id |}.

Definition unresolved (lane : AssetLane) : LaneResolutionUpdate :=
  {| lu_lane_id := al_lane_id lane; lu_resolver_state := SN_Unknown; lu_covenant_id := None;
     lu_state_digest := None; lu_latest_receipt_id := None |}.

Section resolve.
Context {B I : Type} `{KaspaChainBackend B, Indexer I, Sha256}.

(** [resolve_indexed_lane] of the daemon: by the lane's id, or else by its
    covenant. *)
Definition resolve_asset_lane (resolver : RgkResolver B I) (lane : AssetLane)
  : LaneResolutionUpdate :=
  let by_covenant :=
    match parse_bytes32_handle (al_covenant_id lane) with
    | Some covenant_id =>
        lane_update_from_resolver_state lane None (resolve_by_covenant resolver covenant_id)
    | None => unresolved lane
    end in
  match parse_bytes32_handle (al_lane_id lane) with
  | Some lane_id =>
      match resolve_lane resolver lane_id with
      | LR_Resolved indexed_lane state =>
          lane_update_from_resolver_state lane (Some indexed_lane) state
      | LR_UnknownLane _ | LR_UnknownScanTag _ => by_covenant
      end
  | None => by_covenant
  end.

Definition resolve_indexed_lanes (backend : B) (indexer : I) (chain_id : KaspaChainId)
    (lanes : list AssetLane) : list LaneResolutionUpdate :=
  resolve_asset_lane (resolver_new backend indexer chain_id) <$> lanes.

(** * One turn of the scanner *)

Context `{ScanBackend B, KaspaWalletBackend B, ScanCursorStore I, ObservedSpendStore I}.

(** [address.as_deref().map(str::trim)]: an address that is not blank *)
Definition funding_balance (backend : B) (address : option string) : result string (option u64) :=
  match trim <$> address with
  | Some address =>
      if is_empty address then Ok None else
      Some <$> map_err (λ error, "failed to refresh funding-address balance: " ++
                                 network_error_display error)%string
                 (balance_by_address backend address)
  | None => Ok None
  end.

(** [service.tick()]; the backend answers from then on as the tick left it. *)
Definition service_tick (config : ScanServiceConfig) (backend : B)
  : stateful I string (ScanTick * B) := λ indexer,
  match tick config (backend, indexer) with
  | (Ok t, (backend', indexer')) => (Ok (t, backend'), indexer')
  | (Err error, (_, indexer')) => (Err (sync_error_display error), indexer')
  end.

Definition scan_config (chain_id : KaspaChainId) : ScanServiceConfig :=
  {| cf_cursor_name := "avato-rgk"; cf_chain_id := chain_id; cf_min_confirmation_count := None |}.

Definition scan_task (db : DbOutcome) (chain_id : KaspaChainId) (lanes : list AssetLane)
    (address : option string) (backend : B) : stateful I string WalletdScanResult :=
  _ ← open_path db;
  '(t, backend) ← service_tick (scan_config chain_id) backend;
  _ ← flush db;
  indexed_spends ← reading (λ indexer, failed "failed to count observed spends"
                     (observed_spend_count indexer));
  lane_updates ← reading (λ indexer, Ok (resolve_indexed_lanes backend indexer chain_id lanes));
  kas_balance_sompi ← reading (λ _, funding_balance backend address);
  mret {| sr_tick := t; sr_indexed_spends := indexed_spends; sr_lane_updates := lane_updates;
          sr_kas_balance_sompi := kas_balance_sompi |}.

(** [connect] is [WrpcBackend::connect_borsh]. *)
Definition run_scan_tick (connect : string → WrpcNetwork → result string B) (db : DbOutcome)
    (join : option (string * I)) (config : DaemonConfig) (kaspa_endpoint : string)
    (lanes : list AssetLane) (address : option string) : stateful I string WalletdScanResult :=
  backend ← reading (λ _, map_err (λ error, "failed to connect to Kaspa wRPC: " ++ error)%string
              (connect kaspa_endpoint (wrpc_network (dc_network config))));
  spawn_blocking join "scanner task"
    (scan_task db (cli_chain_id (dc_network config)) lanes address backend).
End resolve.
