(* ===== verification/WalletIndexCorrect.v ===== *)
(** What the wallet daemon puts in the index: the receipt of a transition it
    builds, and that the same receipt handed to another daemon has the same
    effect. *)

From stdpp Require Import base list strings gmap.
From Stdlib Require Import ZArith Lia Strings.Byte.
From S2P Require Import Prelude.
From S2P Require Import Bytes.
From S2P Require Import Encoding.
From S2P Require Import Types.
From S2P Require Import Commit.
From S2P Require Import Hex.
From S2P Require Import Receipt.
From S2P Require Import IndexerTypes.
From S2P Require Import Indexer.
From S2P Require Import IndexerCorrect.
From S2P Require Import Rebuild.
From S2P Require Import Kaspa.
From S2P Require Import Resolver.
From S2P Require Import WalletText.
From S2P Require Import WalletTypes.
From S2P Require Import WalletIndex.

Open Scope string_scope.
Open Scope list_scope.

(** The part of the [Indexer] contract the daemon relies on. *)
Class LaneIndexLaws (S : Type) `{Indexer S, Sha256} := {
  law_continue (s s' : S) cov rid o o' st daa c :
    apply_spend_with_continuation s cov rid o o' st daa c = Ok s' →
    ∃ e e', lookup_covenant s cov = Some e ∧
      apply_spend_to_entry e rid o o' st daa (Some c) None = Ok e' ∧
      lookup_covenant s' cov = Some e' ∧
      ∀ cov', cov' ≠ cov → lookup_covenant s' cov' = lookup_covenant s cov';
  law_latest_state (s : S) cov : latest_state s cov = ic_latest_state <$> lookup_covenant s cov;
  law_open_outpoint (s : S) cov : open_outpoint s cov = lookup_covenant s cov ≫= ic_open_outpoint;
  law_register_lane (s s' : S) lane :
    register_lane s lane = Ok s' →
    lane_by_id s' (il_lane_id lane) = Some lane ∧
    ∀ cov, lookup_covenant s' cov = lookup_covenant s cov
}.

#[export] Instance in_memory_lane_laws `{Sha256} : LaneIndexLaws InMemoryIndexer.
Proof.
  split; cbn; try done.
  - unfold im_update. intros s s' cov rid o o' st daa c E. inv_ok. cbn.
    exists x, x0. split_and!; [done..|apply lookup_insert_eq|]. intros c' Hc. by apply lookup_insert_ne.
  - unfold im_register_lane. intros s s' lane E. inv_ok. cbn. split; [apply lookup_insert_eq|done].
Qed.

Section transitions.
Context {I : Type} `{LaneIndexLaws I} `{HexLaws}.
Implicit Types i : I.

(** * The receipt of a transition *)

Lemma policy_name_inv n : receipt_policy_name (receipt_policy n) = n.
Proof. by destruct n. Qed.
Lemma mode_name_inv n : proof_mode_name (proof_mode n) = n.
Proof. by destruct n. Qed.

(** The new state and the receipt [transition_receipt] builds. *)
Definition next_state (chain_id : KaspaChainId) (input : RecordTransitionInput)
    (q : TransitionRequest) (old_state : RgkStateCommitment) : RgkStateCommitment :=
  {| sc_version := ENCODING_VERSION; sc_chain_id := chain_id; sc_covenant_id := tq_covenant_id q;
     sc_asset_id := sc_asset_id old_state; sc_state_digest := tq_new_state_digest q;
     sc_receipt_policy := receipt_policy (rt_receipt_policy input) |}.

Definition next_receipt (chain_id : KaspaChainId) (input : RecordTransitionInput)
    (q : TransitionRequest) (old_state : RgkStateCommitment) (spent : KaspaOutpoint) : RgkReceipt :=
  {| rc_version := ENCODING_VERSION; rc_chain_id := chain_id; rc_covenant_id := tq_covenant_id q;
     rc_old_state := old_state; rc_new_state := next_state chain_id input q old_state;
     rc_transition_digest := tq_transition_digest q;
     rc_continuation_commitment := tq_continuation_commitment q;
     rc_proof_mode := proof_mode (rt_proof_mode input);
     rc_replay_nonce := replay_nonce (encode_canonical spent) (tq_transition_digest q) |}.

Lemma transition_receipt_ok chain_id input q old spent st rid bs :
  transition_receipt chain_id input q old spent = Ok (st, rid, bs) →
  let r := next_receipt chain_id input q old spent in
  sc_receipt_policy old = receipt_policy (rt_receipt_policy input) ∧
  st = next_state chain_id input q old ∧ receipt_valid r ∧ rid = receipt_commitment r ∧
  bs = encode_canonical r ∧ verify_local_structured r (tq_covenant_id q) old chain_id = Ok rid.
Proof.
  unfold transition_receipt. intros E.
  apply bind_ok in E as (? & Hp%fail_if_neq_ok%receipt_policy_names & E).
  apply bind_ok in E as (st' & [-> _]%map_err_ok%state_new_ok & E).
  apply bind_ok in E as (ri & Hri%map_err_ok & E).
  apply bind_ok in E as ([[r rid'] bs'] & Hb%map_err_ok & E).
  apply bind_ok in E as (v & Hv%map_err_ok & E). apply bind_ok in E as (? & ->%fail_if_neq_ok & E).
  injection E as <- <- <-. unfold receipt_input_new in Hri.
  apply bind_ok in Hri as (r' & Hr' & [= <-]). unfold receipt_build in Hb.
  apply bind_ok in Hb as (r'' & Hr & [= <- <- <-]). apply to_validated_receipt_ok in Hr as (_ & Hval & ->).
  cbn in *. by split_and!.
Qed.

Lemma failed_ok {A} what (r : result IndexerError A) a : failed what r = Ok a ↔ r = Ok a.
Proof. apply map_err_ok. Qed.

Definition continuation_of (q : TransitionRequest) : ContinuationProof :=
  {| co_commitment := tq_continuation_commitment q; co_shape_root := tq_continuation_shape_root q;
     co_transition_digest := tq_transition_digest q |}.

Definition evidence_of (input : RecordTransitionInput) (q : TransitionRequest) (r : RgkReceipt)
  : ReceiptEvidence :=
  {| re_receipt_id := receipt_commitment r; re_proof_mode := rt_proof_mode input;
     re_receipt_policy := rt_receipt_policy input; re_new_outpoint := tq_new_outpoint q;
     re_new_state_digest := tq_new_state_digest q;
     re_receipt_bytes := prefixed_hex (encode_canonical r);
     re_transition_digest := tq_transition_digest q;
     re_continuation_commitment := tq_continuation_commitment q;
     re_continuation_shape_root := tq_continuation_shape_root q |}.

(** A transition that was recorded: the tip it left, the receipt, and the spend
    it applied. *)
Lemma build_transition_ok db chain_id input covenant i ev i' :
  build_transition_receipt_at_path db chain_id input covenant i = (Ok ev, i') →
  ∃ q old spent,
    parse_transition_request input covenant = Ok q ∧ indexed_tip q i = Ok (old, spent) ∧
    db_open db = Ok () ∧ db_flush db = Ok () ∧
    let r := next_receipt chain_id input q old spent in
    sc_receipt_policy old = receipt_policy (rt_receipt_policy input) ∧ receipt_valid r ∧
    verify_local_structured r (tq_covenant_id q) old chain_id = Ok (receipt_commitment r) ∧
    apply_spend_with_continuation i (tq_covenant_id q) (receipt_commitment r) spent
      (tq_new_outpoint q) (rc_new_state r) (rt_daa_score input) (continuation_of q) = Ok i' ∧
    ev = evidence_of input q r.
Proof.
  unfold build_transition_receipt_at_path, open_path, flush. intros E.
  apply sbind_ok in E as (q & ? & [Hq ->]%reading_ok & E).
  apply sbind_ok in E as ([] & ? & [Ho%failed_ok ->]%reading_ok & E).
  apply sbind_ok in E as ([old spent] & ? & [Ht ->]%reading_ok & E).
  apply sbind_ok in E as ([[st rid] bs] & ? & [Hr ->]%reading_ok & E).
  apply transition_receipt_ok in Hr as (Hp & -> & Hv & -> & -> & Hver).
  apply sbind_ok in E as ([] & i1 & Ha%updating_ok%failed_ok & E).
  apply sbind_ok in E as ([] & ? & [Hf%failed_ok ->]%reading_ok & E).
  injection E as <- <-. by exists q, old, spent.
Qed.

Lemma indexed_tip_ok q i old spent :
  indexed_tip q i = Ok (old, spent) →
  (∃ lane, lane_by_id i (tq_lane_id q) = Some lane ∧ il_covenant_id lane = tq_covenant_id q) ∧
  latest_state i (tq_covenant_id q) = Some old ∧ open_outpoint i (tq_covenant_id q) = Some spent.
Proof.
  unfold indexed_tip. intros E. inv_ok. subst. split; [by eexists|]. by subst.
Qed.

(** * Handing a receipt over *)

(** The request that hands the receipt of a recorded transition to another
    daemon. *)
Definition handed_over (input : RecordTransitionInput) (lane_id strategy : string)
    (covenant : Bytes32) (spent : KaspaOutpoint) (ev : ReceiptEvidence) : RecordProofInput :=
  {| rp_lane_id := lane_id; rp_proof_mode := rt_proof_mode input;
     rp_receipt_policy := rt_receipt_policy input; rp_strategy := strategy;
     rp_txid := hex32_label (transaction_id (re_new_outpoint ev)); rp_confirmations := wrap 64 0;
     rp_receipt_bytes := re_receipt_bytes ev; rp_covenant_id := hex32_label covenant;
     rp_spent_txid := hex32_label (transaction_id spent); rp_spent_index := index spent;
     rp_new_txid := hex32_label (transaction_id (re_new_outpoint ev));
     rp_new_index := index (re_new_outpoint ev);
     rp_continuation_shape_root := hex32_label (re_continuation_shape_root ev);
     rp_daa_score := rt_daa_score input |}.

Lemma supplied_plain s : s ≠ "" → Forall (λ b, plain b = true) (as_bytes s) → supplied s = true.
Proof.
  intros Hs Hp. unfold supplied, is_empty. rewrite trim_plain by done.
  by rewrite bool_decide_eq_false_2.
Qed.

Lemma label_nonempty x : hex32_label x ≠ "".
Proof. done. Qed.

Lemma supplied_label x : supplied (hex32_label x) = true.
Proof. apply supplied_plain; [apply label_nonempty|apply hex32_label_plain]. Qed.

Lemma supplied_blob l : supplied (prefixed_hex l) = true.
Proof. apply supplied_plain; [done|apply prefixed_hex_plain]. Qed.

Lemma trimmed_label x : trimmed_optional (hex32_label x) = Some (hex32_label x).
Proof.
  unfold trimmed_optional. rewrite trim_plain by apply hex32_label_plain.
  unfold is_empty. by rewrite bool_decide_eq_false_2 by apply label_nonempty.
Qed.

Lemma require_fields_ok what fields :
  Forall (λ f, supplied f.2 = true) fields → require_fields what fields = Ok ().
Proof.
  unfold require_fields. induction 1 as [|[n v] fields Hs _ IH]; cbn; [done|].
  rewrite fail_if_false; [exact IH|]. change (supplied v = true) in Hs.
  unfold supplied, is_empty in Hs. intros E. by rewrite E in Hs.
Qed.

Lemma parse_handed_over input lane_id strategy q r spent :
  receipt_valid r → rc_proof_mode r = proof_mode (rt_proof_mode input) →
  sc_receipt_policy (rc_new_state r) = receipt_policy (rt_receipt_policy input) →
  parse_proof_request (handed_over input lane_id strategy (tq_covenant_id q) spent
                         (evidence_of input q r)) =
  Ok {| pq_receipt_bytes := encode_canonical r; pq_covenant_id := tq_covenant_id q;
        pq_spent := spent; pq_new_outpoint := tq_new_outpoint q;
        pq_shape_root := tq_continuation_shape_root q; pq_receipt := r |}.
Proof.
  intros Hv Hm Hp. unfold parse_proof_request, require_proof_evidence_bundle.
  rewrite require_fields_ok by (repeat constructor; cbn; auto using supplied_label, supplied_blob).
  pose proof (receipt_encoding_length r) as Hl. cbn [mbind result_bind handed_over evidence_of
    rp_receipt_bytes re_receipt_bytes rp_covenant_id rp_spent_txid rp_new_txid rp_new_index
    rp_spent_index rp_continuation_shape_root re_continuation_shape_root re_new_outpoint].
  rewrite parse_hex_blob_prefixed; [|by intros E; rewrite E in Hl|rewrite Hl; by vm_compute].
  rewrite !parse_required. cbn [mbind result_bind]. unfold check_txid. cbn [handed_over rp_txid
    evidence_of re_new_outpoint transaction_id]. rewrite trimmed_label, parse_required.
  cbn [mbind result_bind]. rewrite fail_if_false by (intros Hn; by apply Hn). cbn [mbind result_bind].
  rewrite (proj2 (receipt_decode_iff _ r)) by done. cbn [map_err mbind result_bind].
  rewrite Hm, Hp, mode_name_inv, policy_name_inv. cbn [rp_proof_mode rp_receipt_policy].
  rewrite !fail_if_false by (intros Hn; by apply Hn). cbn [mbind result_bind].
  by destruct (tq_new_outpoint q), spent.
Qed.

(** C18: A transition recorded by one wallet is ingested by another: when
    [record_transition]'s builder succeeds on an index, handing its receipt bytes
    with the spent and created outpoints to [record_proof]'s ingestion, on a
    daemon of the same network whose index is in the same state, succeeds, gives
    the same evidence and leaves the same index. *)
Theorem recorded_transition_ingests db chain_id input covenant i ev i' lane_id strategy :
  build_transition_receipt_at_path db chain_id input covenant i = (Ok ev, i') →
  ∃ cov spent, parse_bytes32_handle covenant = Some cov ∧ open_outpoint i cov = Some spent ∧
    ingest_proof_evidence_at_path db chain_id (handed_over input lane_id strategy cov spent ev) i =
      (Ok (Some ev), i').
Proof.
  intros (q & old & spent & Hq & Ht & Ho & Hf & Hp & Hv & Hver & Ha & ->)%build_transition_ok.
  apply indexed_tip_ok in Ht as (_ & Hs & Hout). exists (tq_covenant_id q), spent.
  split; [|split; [done|]].
  { unfold parse_transition_request, parse_bytes32_required in Hq. inv_ok. by subst. }
  unfold ingest_proof_evidence_at_path, proof_evidence_supplied.
  cbn [handed_over rp_receipt_bytes evidence_of re_receipt_bytes]. rewrite supplied_blob. cbn [orb negb].
  unfold open_path, flush, reading, updating, mbind, stateful_bind.
  rewrite (parse_handed_over input lane_id strategy q _ spent Hv); [|done..].
  cbn [pq_receipt pq_covenant_id pq_spent pq_new_outpoint pq_shape_root pq_receipt_bytes].
  rewrite Ho. cbn [failed map_err]. rewrite Hs. cbn [ok_or]. rewrite Hver. cbn [map_err].
  rewrite fail_if_false by (intros Hn; by apply Hn). cbn [handed_over rp_daa_score].
  unfold continuation_of in Ha. cbn [next_receipt rc_continuation_commitment rc_transition_digest] in *.
  rewrite Ha. cbn [failed map_err]. rewrite Hf. cbn [failed map_err mret stateful_ret].
  unfold evidence_of, next_receipt, next_state. cbn [rc_proof_mode rc_new_state sc_receipt_policy
    sc_state_digest]. by rewrite mode_name_inv, policy_name_inv.
Qed.

(** C17: What the daemon records as a verified transition: the receipt bytes it
    returns are accepted by the local verifier for the covenant, the network and
    the state the index had, under the receipt id it returns, which was not
    accepted before; the index then has the new state and the new open outpoint
    for that covenant, with the receipt accepted and one spend more in its
    history, of the outpoint that was open; and no other covenant changes. *)
Theorem recorded_transition_extends db chain_id input covenant i ev i' :
  build_transition_receipt_at_path db chain_id input covenant i = (Ok ev, i') →
  ∃ cov e e' bs spend, parse_bytes32_handle covenant = Some cov ∧
    lookup_covenant i cov = Some e ∧ lookup_covenant i' cov = Some e' ∧
    (∀ c, c ≠ cov → lookup_covenant i' c = lookup_covenant i c) ∧
    re_receipt_bytes ev = prefixed_hex bs ∧
    verify_local bs cov (ic_latest_state e) chain_id = Ok (re_receipt_id ev) ∧
    (re_receipt_id ev ∉ ic_accepted_receipts e) ∧
    ic_accepted_receipts e' = ic_accepted_receipts e ++ [re_receipt_id ev] ∧
    ic_spend_history e' = ic_spend_history e ++ [spend] ∧
    ic_open_outpoint e = Some (se_spent spend) ∧
    ic_open_outpoint e' = Some (re_new_outpoint ev) ∧
    sc_state_digest (ic_latest_state e') = re_new_state_digest ev ∧
    sc_receipt_policy (ic_latest_state e') = sc_receipt_policy (ic_latest_state e).
Proof.
  intros (q & old & spent & Hq & Ht & _ & _ & Hp & Hv & Hver & Ha & ->)%build_transition_ok.
  apply indexed_tip_ok in Ht as (_ & Hs & Hout).
  apply law_continue in Ha as (e & e' & He & Ha & He' & Hframe).
  rewrite law_latest_state, He in Hs. injection Hs as Hs.
  rewrite law_open_outpoint, He in Hout. cbn in Hout.
  apply apply_spend_ok in Ha as (Hr & _ & _ & _ & Ho & _ & ->).
  eexists (tq_covenant_id q), e, _, (encode_canonical (next_receipt chain_id input q old spent)), _.
  split; [unfold parse_transition_request, parse_bytes32_required in Hq; inv_ok; by subst|].
  split; [done|]. split; [exact He'|]. split; [exact Hframe|]. split; [done|]. split.
  - unfold verify_local. rewrite (proj2 (receipt_decode_iff _ _)) by (split; [exact Hv|done]).
    cbn [map_err mbind result_bind]. rewrite Hs. exact Hver.
  - split; [exact Hr|]. cbn. rewrite Hs, Hp. done.
Qed.
End transitions.
