(* ===== verification/Wallet.v ===== *)
(** The state of the wallet daemon (src/crates/rgk-walletd/src/main.rs) and the
    operations on it: loading and saving, locking, the readiness checks, and what
    a scan does to the profile, the lanes and the notice. *)

From stdpp Require Import base list strings pretty.
From Stdlib Require Import ZArith Lia Strings.Byte.
From S2P Require Import Prelude.
From S2P Require Import Bytes.
From S2P Require Import Encoding.
From S2P Require Import Types.
From S2P Require Import Commit.
From S2P Require Import Hex.
From S2P Require Import IndexerTypes.
From S2P Require Import Sync.
From S2P Require Import WalletText.
From S2P Require Import WalletTypes.
From S2P Require Import WalletIdentity.
From S2P Require Import WalletIndex.

Open Scope string_scope.
Open Scope list_scope.

(** * Assignments to fields *)

Definition set_profile (profile : option WalletProfile) (s : PersistedState) : PersistedState :=
  {| ps_profile := profile; ps_passphrase_salt := ps_passphrase_salt s;
     ps_passphrase_verifier := ps_passphrase_verifier s; ps_identity_vault := ps_identity_vault s;
     ps_kas_balance := ps_kas_balance s; ps_lanes := ps_lanes s; ps_proofs := ps_proofs s;
     ps_scan := ps_scan s; ps_scan_notice := ps_scan_notice s |}.

Definition set_scan (scan : ScanStatus) (notice : option string) (s : PersistedState)
  : PersistedState :=
  {| ps_profile := ps_profile s; ps_passphrase_salt := ps_passphrase_salt s;
     ps_passphrase_verifier := ps_passphrase_verifier s; ps_identity_vault := ps_identity_vault s;
     ps_kas_balance := ps_kas_balance s; ps_lanes := ps_lanes s; ps_proofs := ps_proofs s;
     ps_scan := scan; ps_scan_notice := notice |}.

Definition set_lanes (lanes : list AssetLane) (proofs : list ProofSummary) (s : PersistedState)
  : PersistedState :=
  {| ps_profile := ps_profile s; ps_passphrase_salt := ps_passphrase_salt s;
     ps_passphrase_verifier := ps_passphrase_verifier s; ps_identity_vault := ps_identity_vault s;
     ps_kas_balance := ps_kas_balance s; ps_lanes := lanes; ps_proofs := proofs;
     ps_scan := ps_scan s; ps_scan_notice := ps_scan_notice s |}.

Definition set_balance (balance : string) (s : PersistedState) : PersistedState :=
  {| ps_profile := ps_profile s; ps_passphrase_salt := ps_passphrase_salt s;
     ps_passphrase_verifier := ps_passphrase_verifier s; ps_identity_vault := ps_identity_vault s;
     ps_kas_balance := balance; ps_lanes := ps_lanes s; ps_proofs := ps_proofs s;
     ps_scan := ps_scan s; ps_scan_notice := ps_scan_notice s |}.

Definition set_lifecycle (lifecycle : WalletLifecycle) (p : WalletProfile) : WalletProfile :=
  {| wp_wallet_id := wp_wallet_id p; wp_protocol := wp_protocol p;
     wp_network_id := wp_network_id p; wp_protocol_network_id := wp_protocol_network_id p;
     wp_canonical_chain_domain := wp_canonical_chain_domain p;
     wp_kaspa_endpoint := wp_kaspa_endpoint p; wp_wallet_set_id := wp_wallet_set_id p;
     wp_address := wp_address p; wp_identity_vault_status := wp_identity_vault_status p;
     wp_identity_fingerprint := wp_identity_fingerprint p; wp_lifecycle := lifecycle |}.

Definition set_vault_status (status : IdentityVaultStatus) (p : WalletProfile) : WalletProfile :=
  {| wp_wallet_id := wp_wallet_id p; wp_protocol := wp_protocol p;
     wp_network_id := wp_network_id p; wp_protocol_network_id := wp_protocol_network_id p;
     wp_canonical_chain_domain := wp_canonical_chain_domain p;
     wp_kaspa_endpoint := wp_kaspa_endpoint p; wp_wallet_set_id := wp_wallet_set_id p;
     wp_address := wp_address p; wp_identity_vault_status := status;
     wp_identity_fingerprint := wp_identity_fingerprint p; wp_lifecycle := wp_lifecycle p |}.

Definition set_endpoint (endpoint : string) (p : WalletProfile) : WalletProfile :=
  {| wp_wallet_id := wp_wallet_id p; wp_protocol := wp_protocol p;
     wp_network_id := wp_network_id p; wp_protocol_network_id := wp_protocol_network_id p;
     wp_canonical_chain_domain := wp_canonical_chain_domain p;
     wp_kaspa_endpoint := endpoint; wp_wallet_set_id := wp_wallet_set_id p;
     wp_address := wp_address p; wp_identity_vault_status := wp_identity_vault_status p;
     wp_identity_fingerprint := wp_identity_fingerprint p; wp_lifecycle := wp_lifecycle p |}.

Definition set_identity (fingerprint address : string) (p : WalletProfile) : WalletProfile :=
  {| wp_wallet_id := wp_wallet_id p; wp_protocol := wp_protocol p;
     wp_network_id := wp_network_id p; wp_protocol_network_id := wp_protocol_network_id p;
     wp_canonical_chain_domain := wp_canonical_chain_domain p;
     wp_kaspa_endpoint := wp_kaspa_endpoint p; wp_wallet_set_id := wp_wallet_set_id p;
     wp_address := Some address; wp_identity_vault_status := wp_identity_vault_status p;
     wp_identity_fingerprint := Some fingerprint; wp_lifecycle := wp_lifecycle p |}.

Definition set_scan_mode (mode : ScanMode) (s : ScanStatus) : ScanStatus :=
  {| st_cursor_name := st_cursor_name s; st_scan_mode := mode;
     st_last_daa_score := st_last_daa_score s; st_indexed_spends := st_indexed_spends s;
     st_observed_spends := st_observed_spends s; st_reorg_risk_count := st_reorg_risk_count s |}.

(** * What is stored *)

Definition stored_identity_vault_status (has_vault : bool) : IdentityVaultStatus :=
  if has_vault then IV_Encrypted else IV_Missing.

Definition has_vault (s : PersistedState) : bool :=
  match ps_identity_vault s with Some _ => true | None => false end.

Definition normalise_loaded_state (state : PersistedState) : PersistedState :=
  set_profile ((λ profile, set_vault_status (stored_identity_vault_status (has_vault state))
                             (set_lifecycle WL_Locked profile)) <$> ps_profile state) state.

Definition state_for_disk (state : PersistedState) : PersistedState :=
  set_profile ((λ profile, set_vault_status (stored_identity_vault_status (has_vault state))
                 (if decide (wp_lifecycle profile = WL_NotCreated) then profile
                  else set_lifecycle WL_Locked profile)) <$> ps_profile state) state.

Definition profile_matches_network (profile : WalletProfile) (network : CliNetwork) : bool :=
  bool_decide (wp_network_id profile = cli_network_id network ∧
               wp_protocol_network_id profile = protocol_network_id network ∧
               wp_canonical_chain_domain profile = chain_as_domain_str (cli_chain_id network)).

(** The state, and whether it was dropped. *)
Definition isolate_state_for_network (state : PersistedState) (network : CliNetwork)
  : PersistedState * bool :=
  match ps_profile state with
  | None => (state, false)
  | Some profile =>
      if profile_matches_network profile network then (state, false) else (persisted_default, true)
  end.

(** [serde_json] on the state. *)
Class StateJson := {
  state_to_json : PersistedState → result string (list byte);
  state_from_json : list byte → result string PersistedState
}.

Class StateJsonLaws `{StateJson} := {
  state_json s : ∃ bytes, state_to_json s = Ok bytes ∧ state_from_json bytes = Ok s
}.

(** The state file: what it holds, if it exists. *)
Definition file : Type := option (list byte).

(** How each call on the file system went. *)
Record SaveIo := {
  io_create_dir : result string unit;
  io_open : result string unit;
  io_restrict_temp : result string unit;
  io_write : result string unit;
  io_sync : result string unit;
  io_rename : result string unit;
  io_restrict : result string unit
}.

(** The state file changes at the rename alone. *)
Definition write_private_state_file (io : SaveIo) (bytes : list byte) : stateful file string unit :=
  _ ← reading (λ _, io_open io);
  _ ← reading (λ _, io_restrict_temp io);
  _ ← reading (λ _, io_write io);
  _ ← reading (λ _, io_sync io);
  _ ← updating (λ _, _ ← io_rename io; Ok (Some bytes));
  reading (λ _, io_restrict io).

Section storage.
Context `{StateJson}.

Definition load_state (read : result string unit) (path : file) : result string PersistedState :=
  match path with
  | None => Ok persisted_default
  | Some bytes =>
      _ ← read;
      state ← state_from_json bytes;
      Ok (normalise_loaded_state state)
  end.

Definition persist {A} (r : result string A) : result WalletdError A := map_err WE_Persist r.

Definition save_file (io : SaveIo) (state : PersistedState) : stateful file WalletdError unit :=
  _ ← reading (λ _, persist (io_create_dir io));
  bytes ← reading (λ _, persist (state_to_json (state_for_disk state)));
  let write : stateful file WalletdError unit := λ path,
    let '(r, path') := write_private_state_file io bytes path in (persist r, path') in
  write.
End storage.

(** * Readiness *)

Definition ready_profile (store : PersistedState) : api WalletProfile :=
  profile ← ok_or (ps_profile store) (api_error WE_NotFound);
  _ ← fail_if (wp_lifecycle profile = WL_Locked) (api_error WE_Locked);
  Ok profile.

Definition ready_wallet_id (store : PersistedState) : api string :=
  profile ← ready_profile store;
  Ok (wp_wallet_id profile).

Definition dashboard_snapshot (store : PersistedState) : api DashboardSnapshot :=
  profile ← ready_profile store;
  _ ← fail_if (wp_lifecycle profile = WL_Locked) (api_error WE_Locked);
  Ok {| ds_profile := profile; ds_kas_balance := ps_kas_balance store; ds_lanes := ps_lanes store;
        ds_proofs := ps_proofs store; ds_scan := ps_scan store;
        ds_service_mode := if decide (st_scan_mode (ps_scan store) = SM_Unavailable)
                           then SV_Unavailable else SV_Connected;
        ds_service_notice := default "Connected to the local RGK wallet daemon."
                               (ps_scan_notice store) |}.

Definition validate_input_network (config : DaemonConfig) (input : CreateWalletInput) : api unit :=
  let network := dc_network config in
  let expected_chain := chain_as_domain_str (cli_chain_id network) in
  fail_if (cw_network_id input ≠ cli_network_id network ∨
           cw_protocol_network_id input ≠ protocol_network_id network ∨
           cw_canonical_chain_domain input ≠ expected_chain)
    (bad_request ("request network " ++ cw_network_id input ++ ", " ++ cw_protocol_network_id input ++
       ", " ++ cw_canonical_chain_domain input ++ " does not match daemon network " ++
       cli_network_id network ++ ", " ++ protocol_network_id network ++ ", " ++ expected_chain)%string).

Definition select_kaspa_endpoint (config : DaemonConfig) (value : string) : api string :=
  chosen ← validate_optional_kaspa_endpoint value;
  match chosen with
  | Some endpoint => Ok endpoint
  | None =>
      ok_or (dc_kaspa_endpoint config)
        (bad_request "kaspaEndpoint is required when rgk-walletd has no configured Kaspa wRPC endpoint")
  end.

(** * What a scan changes *)

(** The clock, in seconds, as [now_label] shows it. *)
Definition now_label (seconds : u64) : string := ("unix:" ++ usize_display seconds)%string.

(** [lanes.iter_mut().find(|lane| lane.lane_id == id)], assigned [f] of it. *)
Definition update_lane (id : string) (f : AssetLane → AssetLane) (lanes : list AssetLane)
  : option (list AssetLane) :=
  '(i, lane) ← list_find (λ lane, al_lane_id lane = id) lanes;
  Some (<[i := f lane]> lanes).

(** Whether [update] assigns to a field of [lane]. *)
Definition differs {A} `{EqDecision A} (update : option A) (current : A) : bool :=
  match update with Some a => bool_decide (current ≠ a) | None => false end.

Definition counts_as_indexed (update : LaneResolutionUpdate) : bool :=
  bool_decide (is_Some (lu_covenant_id update) ∨ is_Some (lu_state_digest update) ∨
               lu_resolver_state update ≠ SN_Unknown).

Definition apply_lane_update (now : u64) (update : LaneResolutionUpdate) (lane : AssetLane)
  : AssetLane :=
  let promoted := counts_as_indexed update && bool_decide (al_evidence_status lane ≠ Indexed) in
  let changed :=
    bool_decide (al_resolver_state lane ≠ lu_resolver_state update) ||
    differs (lu_covenant_id update) (al_covenant_id lane) ||
    differs (lu_state_digest update) (al_state_digest lane) ||
    differs (Some <$> lu_latest_receipt_id update) (al_latest_receipt_id lane) || promoted in
  {| al_lineage_id := al_lineage_id lane; al_lane_id := al_lane_id lane; al_label := al_label lane;
     al_ticker := al_ticker lane; al_balance := al_balance lane; al_privacy := al_privacy lane;
     al_proof_policy := al_proof_policy lane;
     al_evidence_status := if promoted then Indexed else al_evidence_status lane;
     al_resolver_state := lu_resolver_state update;
     al_covenant_id := default (al_covenant_id lane) (lu_covenant_id update);
     al_state_digest := default (al_state_digest lane) (lu_state_digest update);
     al_latest_receipt_id := match lu_latest_receipt_id update with
                             | Some id => Some id
                             | None => al_latest_receipt_id lane
                             end;
     al_updated_at := if changed then now_label now else al_updated_at lane |}.

(** [now n] is the clock when the [n]th update is applied. *)
Fixpoint apply_lane_resolution_updates (now : nat → u64) (lanes : list AssetLane)
    (updates : list LaneResolutionUpdate) : list AssetLane :=
  match updates with
  | [] => lanes
  | update :: updates' =>
      apply_lane_resolution_updates (λ n, now (S n))
        (default lanes (update_lane (lu_lane_id update) (apply_lane_update (now 0%nat) update) lanes))
        updates'
  end.

(** [u64::try_from(n).unwrap_or(u64::MAX)] *)
Definition saturate_u64 (n : nat) : u64 := wrap 64 (Z.min (Z.of_nat n) (2 ^ 64 - 1)).

Definition scan_notice (tick : ScanTick) : string :=
  if tk_initialised_cursor tick
  then ("RGK scanner cursor initialised at DAA " ++ usize_display (cu_daa_score (tk_end_cursor tick))
        ++ ".")%string
  else ("RGK scanner tick completed: " ++ usize_display (tk_added_chain_blocks tick) ++
        " added chain block(s), " ++ usize_display (tk_observed_spends tick) ++
        " observed spend(s), cursor DAA " ++ usize_display (cu_daa_score (tk_end_cursor tick)) ++
        ".")%string.

Definition apply_successful_scan (now : nat → u64) (scan : WalletdScanResult)
    (store : PersistedState) : PersistedState :=
  let tick := sr_tick scan in
  let indexed_spends := saturate_u64 (sr_indexed_spends scan) in
  set_scan
    {| st_cursor_name := st_cursor_name (ps_scan store); st_scan_mode := SM_Idle;
       st_last_daa_score := Some (cu_daa_score (tk_end_cursor tick));
       st_indexed_spends := indexed_spends; st_observed_spends := indexed_spends;
       st_reorg_risk_count := st_reorg_risk_count (ps_scan store) |}
    (Some (scan_notice tick))
    (set_lanes (apply_lane_resolution_updates now (ps_lanes store) (sr_lane_updates scan))
       (ps_proofs store)
       (set_balance (match sr_kas_balance_sompi scan with
                     | Some kas_balance_sompi => format_kas_balance kas_balance_sompi
                     | None => ps_kas_balance store
                     end)
          (set_profile (set_lifecycle WL_Ready <$> ps_profile store) store))).

Definition apply_failed_scan (message : string) (store : PersistedState) : PersistedState :=
  set_scan (set_scan_mode SM_Unavailable (ps_scan store))
    (Some ("RGK scanner unavailable: " ++ message)%string)
    (set_profile (set_lifecycle WL_ServiceRequired <$> ps_profile store) store).
