(* ===== verification/WalletDaemon.v ===== *)
(** The requests of the wallet daemon (src/crates/rgk-walletd/src/main.rs) and how
    they interleave.

    A handler holds the locks of the state and of the identity session for a
    stretch of its code and gives them up while a worker runs or before it takes
    them again.  Each stretch is one phase; a handler is a [task], which answers
    or has a phase to run, so the daemon is a world and a list of tasks of which
    any may move next. *)

From stdpp Require Import base list strings pretty.
From Stdlib Require Import ZArith Lia Strings.Byte.
From S2P Require Import Prelude.
From S2P Require Import Bytes.
From S2P Require Import Encoding.
From S2P Require Import Types.
From S2P Require Import Commit.
From S2P Require Import Hex.
From S2P Require Import IndexerTypes.
From S2P Require Import Kaspa.
From S2P Require Import Sync.
From S2P Require Import Wrpc.
From S2P Require Import WalletText.
From S2P Require Import WalletTypes.
From S2P Require Import WalletIdentity.
From S2P Require Import WalletIndex.
From S2P Require Import Wallet.

Open Scope string_scope.
Open Scope list_scope.

(** [AppState] and what lies behind it: the state and the session with whether
    their locks are poisoned, the scanner database and the state file. *)
Record World (I : Type) := {
  w_store : PersistedState;
  w_store_poisoned : bool;
  w_session : RuntimeIdentitySession;
  w_session_poisoned : bool;
  w_index : I;
  w_file : file
}.
Arguments w_store {I}. Arguments w_store_poisoned {I}. Arguments w_session {I}.
Arguments w_session_poisoned {I}. Arguments w_index {I}. Arguments w_file {I}.

Inductive response : Type :=
| R_Health (health : HealthResponse)
| R_Profile (profile : WalletProfile)
| R_NoContent
| R_Dashboard (dashboard : DashboardSnapshot)
| R_Lane (lane : AssetLane)
| R_Proof (proof : ProofSummary).

#[warnings="-register-all"]
Inductive task (I : Type) : Type :=
| Answer (r : api response)
| Phase (run : World I → task I * World I).
Arguments Answer {I}. Arguments Phase {I}.

(** What one request meets outside the daemon: the draws of the operating
    system, the workers, the database, the file system, the node and the clock. *)
Record Env (B I : Type) := {
  en_draws : Draws;
  en_identity_join : option string;
  en_db : DbOutcome;
  en_join : option (string * I);
  en_connect : string → WrpcNetwork → result string B;
  en_io : SaveIo;
  en_now : nat → u64
}.
Arguments en_draws {B I}. Arguments en_identity_join {B I}. Arguments en_db {B I}.
Arguments en_join {B I}. Arguments en_connect {B I}. Arguments en_io {B I}. Arguments en_now {B I}.

Section phases.
Context {I : Type}.
Abbreviation handler := (stateful (World I) api_failure).

(** A phase that computes an answer or what the rest of the handler needs. *)
Definition critical {A} (m : handler A) (k : A → task I) : task I :=
  Phase (λ w, match m w with
              | (Ok a, w') => (k a, w')
              | (Err e, w') => (Answer (Err e), w')
              end).

(** A last phase. *)
Definition finally (m : handler response) : task I := critical m (λ r, Answer (Ok r)).

(** What a handler computes without the world. *)
Definition alone {A} (r : api A) (k : A → task I) : task I :=
  match r with Ok a => k a | Err e => Answer (Err e) end.

Definition set_store (s : PersistedState) (w : World I) : World I :=
  {| w_store := s; w_store_poisoned := w_store_poisoned w; w_session := w_session w;
     w_session_poisoned := w_session_poisoned w; w_index := w_index w; w_file := w_file w |}.
Definition set_session (s : RuntimeIdentitySession) (w : World I) : World I :=
  {| w_store := w_store w; w_store_poisoned := w_store_poisoned w; w_session := s;
     w_session_poisoned := w_session_poisoned w; w_index := w_index w; w_file := w_file w |}.
Definition set_index (i : I) (w : World I) : World I :=
  {| w_store := w_store w; w_store_poisoned := w_store_poisoned w; w_session := w_session w;
     w_session_poisoned := w_session_poisoned w; w_index := i; w_file := w_file w |}.
Definition set_file (f : file) (w : World I) : World I :=
  {| w_store := w_store w; w_store_poisoned := w_store_poisoned w; w_session := w_session w;
     w_session_poisoned := w_session_poisoned w; w_index := w_index w; w_file := f |}.

(** [state.store()?] and [state.identity_session()?], read. *)
Definition store : handler PersistedState :=
  reading (λ w, _ ← fail_if (w_store_poisoned w = true) (api_error WE_PoisonedState);
                Ok (w_store w)).
Definition identity_session : handler RuntimeIdentitySession :=
  reading (λ w, _ ← fail_if (w_session_poisoned w = true) (api_error WE_PoisonedIdentitySession);
                Ok (w_session w)).

Definition put (f : World I → World I) : handler unit := λ w, (Ok (), f w).

(** The scanner database in a worker; its error is a value. *)
Definition with_index {A} (m : stateful I string A) : handler (result string A) := λ w,
  let '(r, i) := m (w_index w) in (Ok r, set_index i w).

Definition save_state `{StateJson} (io : SaveIo) (s : PersistedState) : handler unit := λ w,
  let '(r, f) := save_file io s (w_file w) in (map_err api_error r, set_file f w).
End phases.

Arguments critical : simpl never.

(** * The handlers *)

Section handlers.
Context {B I : Type} `{Sha256, HexCrate, WalletCrypto, StateJson}.
Context `{Indexer I, ScanCursorStore I, ObservedSpendStore I}.
Context `{KaspaChainBackend B, ScanBackend B, KaspaWalletBackend B}.
Context (version : string) (config : DaemonConfig) (env : Env B I).

Abbreviation handler := (stateful (World I) api_failure).
Abbreviation task := (task I).

Definition health : task :=
  Answer (Ok (R_Health {|
    hr_service := "rgk-wallet"; hr_status := "ok"; hr_protocol := "rgk";
    hr_network_id := cli_network_id (dc_network config);
    hr_protocol_network_id := protocol_network_id (dc_network config);
    hr_canonical_chain_domain := chain_as_domain_str (cli_chain_id (dc_network config));
    hr_version := version |})).

Definition profile : task :=
  finally (s ← store;
           profile ← reading (λ _, ok_or (ps_profile s) (api_error WE_NotFound));
           mret (R_Profile profile)).

Definition update_kaspa_endpoint (input : UpdateKaspaEndpointInput) : task :=
  alone (select_kaspa_endpoint config (ue_kaspa_endpoint input)) (λ kaspa_endpoint,
  finally (
    s ← store;
    profile ← reading (λ _, ok_or (ps_profile s) (api_error WE_NotFound));
    _ ← reading (λ _, fail_if (wp_lifecycle profile = WL_Locked) (api_error WE_Locked));
    let profile := set_lifecycle WL_Ready (set_endpoint kaspa_endpoint profile) in
    let s := set_scan (set_scan_mode SM_Idle (ps_scan s))
               (Some "Kaspa wRPC endpoint updated. Sync the wallet to verify the new endpoint.")
               (set_profile (Some profile) s) in
    _ ← put (set_store s);
    _ ← save_state (en_io env) s;
    mret (R_Profile profile))).

Definition lock_wallet : task :=
  finally (
    s ← store;
    profile ← reading (λ _, ok_or (ps_profile s) (api_error WE_NotFound));
    let s := set_profile (Some (set_vault_status (stored_identity_vault_status (has_vault s))
                                  (set_lifecycle WL_Locked profile))) s in
    _ ← put (set_store s);
    session ← identity_session;
    _ ← put (set_session (session_clear session));
    _ ← save_state (en_io env) s;
    mret R_NoContent).

(** [spawn_blocking(..).await.map_err(..)?.map_err(api_error)?] *)
Definition identity_worker {A} (r : result WalletdError A) : api A :=
  match en_identity_join env with
  | Some error => Err (api_error (WE_Crypto ("identity worker did not complete: " ++ error)%string))
  | None => map_err api_error r
  end.

Definition wallet_address (identity_secret : list byte) : api string :=
  map_err api_error (derive_wallet_address (dc_network config) identity_secret).

(** The profile and the vault an unlock starts from. *)
Definition unlock_snapshot : handler (WalletProfile * IdentityVault) :=
  s ← store;
  profile ← reading (λ _, ok_or (ps_profile s) (api_error WE_NotFound));
  vault ← reading (λ _, ok_or (ps_identity_vault s)
            (bad_request "identity vault is missing; re-import this RGK wallet"));
  mret (profile, vault).

(** The second stretch of [unlock_wallet]: it takes the profile of the moment. *)
Definition unlock_commit (unlocked_identity : UnlockedIdentity) (address : string)
  : handler response :=
  s ← store;
  profile ← reading (λ _, ok_or (ps_profile s) (api_error WE_NotFound));
  let profile := set_identity (ui_identity_fingerprint unlocked_identity) address
                   (set_vault_status IV_Unlocked (set_lifecycle WL_Ready profile)) in
  let s := set_profile (Some profile) s in
  _ ← put (set_store s);
  session ← identity_session;
  _ ← put (set_session (session_unlock session (wp_wallet_id profile) unlocked_identity));
  _ ← save_state (en_io env) s;
  mret (R_Profile profile).

Definition unlock_wallet (input : UnlockWalletInput) : task :=
  alone (validate_passphrase (uw_passphrase input)) (λ passphrase,
  critical unlock_snapshot (λ '(profile_snapshot, vault),
  alone (identity_worker (decrypt_identity_vault profile_snapshot vault passphrase))
    (λ unlocked_identity,
  alone (wallet_address (ui_identity_secret unlocked_identity)) (λ address,
  finally (unlock_commit unlocked_identity address))))).

Definition identity_context (wallet_id : string) : IdentityVaultContext :=
  {| vc_wallet_id := wallet_id; vc_network_id := cli_network_id (dc_network config);
     vc_protocol_network_id := protocol_network_id (dc_network config);
     vc_canonical_chain_domain := chain_as_domain_str (cli_chain_id (dc_network config)) |}.

(** What [upsert_wallet] works out before it takes the state. *)
Record PreparedWallet := {
  pw_wallet_id : string;
  pw_kaspa_endpoint : string;
  pw_material : WalletIdentityMaterial;
  pw_address : string
}.

Definition prepare_wallet (input : CreateWalletInput) : api PreparedWallet :=
  _ ← validate_input_network config input;
  wallet_id ← validate_wallet_id (cw_wallet_id input);
  recovery_phrase ← validate_recovery_phrase english_mnemonic (cw_recovery_phrase input);
  passphrase ← validate_passphrase (cw_passphrase input);
  kaspa_endpoint ← select_kaspa_endpoint config (cw_kaspa_endpoint input);
  material ← identity_worker (build_wallet_identity_material (en_draws env)
               (identity_context wallet_id) recovery_phrase passphrase);
  address ← wallet_address (im_identity_secret material);
  Ok {| pw_wallet_id := wallet_id; pw_kaspa_endpoint := kaspa_endpoint;
        pw_material := material; pw_address := address |}.

Definition new_profile (p : PreparedWallet) : WalletProfile :=
  let chain_domain := chain_as_domain_str (cli_chain_id (dc_network config)) in
  {| wp_wallet_id := pw_wallet_id p; wp_protocol := "rgk";
     wp_network_id := cli_network_id (dc_network config);
     wp_protocol_network_id := protocol_network_id (dc_network config);
     wp_canonical_chain_domain := chain_domain;
     wp_kaspa_endpoint := pw_kaspa_endpoint p;
     wp_wallet_set_id := Some (hex_digest "wallet-set"
       (chain_domain ++ ":" ++ im_identity_fingerprint (pw_material p))%string 32);
     wp_address := Some (pw_address p);
     wp_identity_vault_status := IV_Unlocked;
     wp_identity_fingerprint := Some (im_identity_fingerprint (pw_material p));
     wp_lifecycle := WL_Ready |}.

Definition new_store (p : PreparedWallet) : PersistedState :=
  {| ps_profile := Some (new_profile p);
     ps_passphrase_salt := Some (im_passphrase_salt (pw_material p));
     ps_passphrase_verifier := Some (im_passphrase_verifier (pw_material p));
     ps_identity_vault := Some (im_vault (pw_material p));
     ps_kas_balance := format_kas_balance (wrap 64 0);
     ps_lanes := []; ps_proofs := []; ps_scan := scan_status SM_Idle; ps_scan_notice := None |}.

Definition upsert_commit (p : PreparedWallet) : handler response :=
  _ ← store;
  _ ← put (set_store (new_store p));
  session ← identity_session;
  _ ← put (set_session (session_unlock session (wp_wallet_id (new_profile p))
        {| ui_identity_fingerprint := im_identity_fingerprint (pw_material p);
           ui_identity_secret := im_identity_secret (pw_material p) |}));
  _ ← save_state (en_io env) (new_store p);
  mret (R_Profile (new_profile p)).

Definition upsert_wallet (input : CreateWalletInput) : task :=
  alone (prepare_wallet input) (λ p, finally (upsert_commit p)).

Definition sync_snapshot : handler (WalletProfile * list AssetLane) :=
  s ← store;
  profile ← reading (λ _, ready_profile s);
  _ ← reading (λ _, fail_if (wp_lifecycle profile = WL_Locked) (api_error WE_Locked));
  mret (profile, ps_lanes s).

Definition sync_commit (scan_result : result string WalletdScanResult) : handler response :=
  s ← store;
  _ ← reading (λ _, fail_if (wp_lifecycle <$> ps_profile s = Some WL_Locked) (api_error WE_Locked));
  let s := match scan_result with
           | Ok scan => apply_successful_scan (en_now env) scan s
           | Err message => apply_failed_scan message s
           end in
  _ ← put (set_store s);
  _ ← save_state (en_io env) s;
  snapshot ← reading (λ _, dashboard_snapshot s);
  mret (R_Dashboard snapshot).

Definition sync_wallet : task :=
  critical sync_snapshot (λ '(profile, lanes),
  critical (with_index (run_scan_tick (en_connect env) (en_db env) (en_join env) config
                          (wp_kaspa_endpoint profile) lanes (wp_address profile))) (λ scan_result,
  finally (sync_commit scan_result))).

Definition dashboard : task :=
  finally (s ← store;
           snapshot ← reading (λ _, dashboard_snapshot s);
           mret (R_Dashboard snapshot)).

(** The error of a worker, as a bad request. *)
Definition answered {A} (m : stateful I string A) : handler A :=
  r ← with_index m;
  reading (λ _, map_err bad_request r).

Definition lane_of (input : CreateLaneInput) (label ticker balance wallet_id : string)
    (lane_count : nat) (indexed : option LaneEvidence) : AssetLane :=
  let seed := (wallet_id ++ ":" ++ label ++ ":" ++ ticker ++ ":" ++
               usize_display (Z.of_nat lane_count))%string in
  let slug := privacy_slug (cl_privacy input) in
  let indexed_or field domain := match indexed with
    | Some evidence => hex32_label (field evidence)
    | None => hex_digest domain seed 32
    end in
  {| al_lineage_id := ("rgk:lineage:" ++ indexed_or le_lineage_id "lineage")%string;
     al_lane_id := ("rgk:lane:" ++ slug ++ ":" ++ indexed_or le_lane_id "lane")%string;
     al_label := label; al_ticker := ticker; al_balance := balance;
     al_privacy := cl_privacy input; al_proof_policy := cl_proof_policy input;
     al_evidence_status := match indexed with Some _ => Indexed | None => MetadataOnly end;
     al_resolver_state := SN_Unknown;
     al_covenant_id := indexed_or le_covenant_id "covenant";
     al_state_digest := indexed_or le_state_digest "state";
     al_latest_receipt_id := None;
     al_updated_at := now_label (en_now env 0%nat) |}.

Definition lane_commit (lane : AssetLane) : handler response :=
  s ← store;
  _ ← reading (λ _, fail_if (Exists (λ existing, al_lane_id existing = al_lane_id lane ∨
                                       al_covenant_id existing = al_covenant_id lane) (ps_lanes s))
                      already_present);
  let s := set_lanes (ps_lanes s ++ [lane]) (ps_proofs s) s in
  _ ← put (set_store s);
  _ ← save_state (en_io env) s;
  mret (R_Lane lane).

(** [if let Some(evidence) = evidence.as_ref() { .. }], which takes the lock. *)
Definition check_uniqueness (evidence : LaneEvidence) : handler unit :=
  s ← store;
  reading (λ _, validate_lane_profile_uniqueness s evidence).

Definition create_lane (input : CreateLaneInput) : task :=
  critical (s ← store;
            wallet_id ← reading (λ _, ready_wallet_id s);
            mret (wallet_id, length (ps_lanes s))) (λ '(wallet_id, lane_count),
  alone (validate_lane_label (cl_label input)) (λ label,
  alone (validate_ticker (cl_ticker input)) (λ ticker,
  alone (validate_balance (cl_balance input)) (λ balance,
  alone (map_err bad_request (parse_lane_evidence (cli_chain_id (dc_network config)) input))
    (λ evidence,
  let index := critical (answered (index_lane_evidence (en_db env) (en_join env)
                                     (cli_chain_id (dc_network config)) evidence)) (λ indexed,
    finally (lane_commit (lane_of input label ticker balance wallet_id lane_count indexed))) in
  match evidence with
  | Some evidence => critical (check_uniqueness evidence) (λ _, index)
  | None => index
  end))))).

(** [store.lanes.iter().find(|lane| lane.lane_id == input.lane_id)] *)
Definition lane_not_found (lane_id : string) : api_failure :=
  bad_request ("laneId " ++ lane_id ++ " was not found")%string.
Definition find_lane (lane_id : string) (lanes : list AssetLane) : api AssetLane :=
  ok_or (snd <$> list_find (λ lane, al_lane_id lane = lane_id) lanes) (lane_not_found lane_id).

(** What both handlers read first: the wallet and the lane's covenant. *)
Definition select_lane (lane_id : string) : handler (string * string) :=
  s ← store;
  wallet_id ← reading (λ _, ready_wallet_id s);
  lane ← reading (λ _, find_lane lane_id (ps_lanes s));
  mret (wallet_id, al_covenant_id lane).

(** [lane.latest_receipt_id], [lane.state_digest] and [lane.updated_at] *)
Definition record_on_lane (proof : ProofSummary) (lane : AssetLane) : AssetLane :=
  {| al_lineage_id := al_lineage_id lane; al_lane_id := al_lane_id lane; al_label := al_label lane;
     al_ticker := al_ticker lane; al_balance := al_balance lane; al_privacy := al_privacy lane;
     al_proof_policy := al_proof_policy lane; al_evidence_status := al_evidence_status lane;
     al_resolver_state := al_resolver_state lane; al_covenant_id := al_covenant_id lane;
     al_state_digest := default (al_state_digest lane) (pf_new_state_digest proof);
     al_latest_receipt_id := Some (pf_receipt_id proof);
     al_updated_at := pf_updated_at proof |}.

(** The last stretch of both handlers, once the proof is made. *)
Definition proof_commit (lane_id : string) (make_proof : PersistedState → ProofSummary)
  : handler response :=
  s ← store;
  let proof := make_proof s in
  lanes ← reading (λ _, ok_or (update_lane lane_id (record_on_lane proof) (ps_lanes s))
                          (lane_not_found lane_id));
  let s := set_lanes lanes (ps_proofs s ++ [proof]) s in
  _ ← put (set_store s);
  _ ← save_state (en_io env) s;
  mret (R_Proof proof).

(** A summary of receipt evidence. *)
Definition verified_summary (strategy : string) (confirmations : u64) (evidence : ReceiptEvidence)
  : ProofSummary :=
  {| pf_receipt_id := receipt_label (re_receipt_id evidence);
     pf_proof_mode := re_proof_mode evidence; pf_receipt_policy := re_receipt_policy evidence;
     pf_strategy := strategy; pf_verifier_status := PV_Verified;
     pf_txid := Some (hex32_plain (transaction_id (re_new_outpoint evidence)));
     pf_confirmations := confirmations;
     pf_receipt_bytes := Some (re_receipt_bytes evidence);
     pf_transition_digest := Some (hex32_label (re_transition_digest evidence));
     pf_continuation_commitment := Some (hex32_label (re_continuation_commitment evidence));
     pf_continuation_shape_root := Some (hex32_label (re_continuation_shape_root evidence));
     pf_new_state_digest := Some (hex32_label (re_new_state_digest evidence));
     pf_updated_at := now_label (en_now env 0%nat) |}.

(** A summary of a proof without evidence, named by a digest of a seed. *)
Definition pending_summary (input : RecordProofInput) (wallet_id strategy : string)
    (txid : option string) (s : PersistedState) : ProofSummary :=
  let seed := (wallet_id ++ ":" ++ strategy ++ ":" ++
               usize_display (Z.of_nat (length (ps_proofs s))))%string in
  {| pf_receipt_id := ("rgk:receipt:" ++ hex_digest "receipt" seed 32)%string;
     pf_proof_mode := rp_proof_mode input; pf_receipt_policy := rp_receipt_policy input;
     pf_strategy := strategy; pf_verifier_status := PV_Pending; pf_txid := txid;
     pf_confirmations := rp_confirmations input; pf_receipt_bytes := None;
     pf_transition_digest := None; pf_continuation_commitment := None;
     pf_continuation_shape_root := None; pf_new_state_digest := None;
     pf_updated_at := now_label (en_now env 0%nat) |}.

Definition proof_summary (input : RecordProofInput) (wallet_id strategy : string)
    (txid : option string) (verified : option ReceiptEvidence) (s : PersistedState)
  : ProofSummary :=
  match verified with
  | Some evidence => verified_summary strategy (rp_confirmations input) evidence
  | None => pending_summary input wallet_id strategy txid s
  end.

Definition record_proof (input : RecordProofInput) : task :=
  critical (select_lane (rp_lane_id input)) (λ '(wallet_id, selected_lane_covenant_id),
  alone (validate_strategy (rp_strategy input)) (λ strategy,
  alone (validate_optional_txid (rp_txid input)) (λ txid,
  alone (map_err bad_request (validate_proof_lane_binding input selected_lane_covenant_id)) (λ _,
  critical (answered (ingest_proof_evidence (en_db env) (en_join env)
                        (cli_chain_id (dc_network config)) input)) (λ verified,
  finally (proof_commit (rp_lane_id input)
             (proof_summary input wallet_id strategy txid verified))))))).

Definition record_transition (input : RecordTransitionInput) : task :=
  critical (select_lane (rt_lane_id input)) (λ '(_, selected_lane_covenant_id),
  alone (validate_strategy (rt_strategy input)) (λ strategy,
  critical (answered (build_transition_receipt (en_db env) (en_join env)
                        (cli_chain_id (dc_network config)) input selected_lane_covenant_id))
    (λ evidence,
  finally (proof_commit (rt_lane_id input)
             (λ _, verified_summary strategy (wrap 64 0) evidence))))).

(** * The router *)

Inductive request : Type :=
| Q_Health
| Q_Profile
| Q_CreateWallet (input : CreateWalletInput)
| Q_ImportWallet (input : CreateWalletInput)
| Q_Lock
| Q_Unlock (input : UnlockWalletInput)
| Q_KaspaEndpoint (input : UpdateKaspaEndpointInput)
| Q_Sync
| Q_Dashboard
| Q_CreateLane (input : CreateLaneInput)
| Q_RecordProof (input : RecordProofInput)
| Q_RecordTransition (input : RecordTransitionInput).

Definition build_router (q : request) : task :=
  match q with
  | Q_Health => health
  | Q_Profile => profile
  | Q_CreateWallet input | Q_ImportWallet input => upsert_wallet input
  | Q_Lock => lock_wallet
  | Q_Unlock input => unlock_wallet input
  | Q_KaspaEndpoint input => update_kaspa_endpoint input
  | Q_Sync => sync_wallet
  | Q_Dashboard => dashboard
  | Q_CreateLane input => create_lane input
  | Q_RecordProof input => record_proof input
  | Q_RecordTransition input => record_transition input
  end.
End handlers.

(** * The daemon *)

(** A handler run without another in between. *)
Fixpoint run_alone {I} (fuel : nat) (t : task I) (w : World I) : option (api response * World I) :=
  match fuel, t with
  | _, Answer r => Some (r, w)
  | O, Phase _ => None
  | S fuel, Phase run => let '(t', w') := run w in run_alone fuel t' w'
  end.

Section daemon.
Context {B I : Type} `{Sha256, HexCrate, WalletCrypto, StateJson}.
Context `{Indexer I, ScanCursorStore I, ObservedSpendStore I}.
Context `{KaspaChainBackend B, ScanBackend B, KaspaWalletBackend B}.
Context (version : string) (config : DaemonConfig).

(** [main]: the world a daemon starts with on a database and a state file. *)
Definition start (read : result string unit) (i : I) (f : file) : result string (World I) :=
  loaded ← load_state read f;
  Ok {| w_store := (isolate_state_for_network loaded (dc_network config)).1;
        w_store_poisoned := false; w_session := session_default; w_session_poisoned := false;
        w_index := i; w_file := f |}.

(** A request arrives, a task runs its next phase, or the daemon ends and is
    started again; a failed start leaves it down. *)
Inductive daemon_step : World I * list (task I) → World I * list (task I) → Prop :=
| step_request w ts (env : Env B I) q :
    daemon_step (w, ts) (w, ts ++ [build_router version config env q])
| step_phase w ts n run t w' :
    ts !! n = Some (Phase run) → run w = (t, w') →
    daemon_step (w, ts) (w', <[n := t]> ts)
| step_restart w ts read w' :
    start read (w_index w) (w_file w) = Ok w' →
    daemon_step (w, ts) (w', []).

Inductive reachable (i : I) : World I * list (task I) → Prop :=
| reachable_start read w :
    start read i None = Ok w → reachable i (w, [])
| reachable_step s s' :
    reachable i s → daemon_step s s' → reachable i s'.
End daemon.
