(* ===== verification/WalletDaemonCorrect.v ===== *)
(** The wallet daemon under any interleaving of requests: what always holds of
    its state, its identity session and its state file. *)

From stdpp Require Import base list strings.
From Stdlib Require Import ZArith Lia Strings.Byte.
From S2P Require Import Prelude.
From S2P Require Import Bytes.
From S2P Require Import Encoding.
From S2P Require Import Types.
From S2P Require Import Commit.
From S2P Require Import IndexerTypes.
From S2P Require Import Kaspa.
From S2P Require Import Sync.
From S2P Require Import WalletText.
From S2P Require Import WalletTypes.
From S2P Require Import WalletIdentity.
From S2P Require Import WalletIndex.
From S2P Require Import Wallet.
From S2P Require Import WalletDaemon.

Open Scope string_scope.
Open Scope list_scope.

(** * Invariants *)

(** The profile is of the daemon's network and has a vault, and no lane id
    occurs twice. *)
Record store_inv (config : DaemonConfig) (s : PersistedState) : Prop := {
  si_network p : ps_profile s = Some p → profile_matches_network p (dc_network config) = true;
  si_vault : is_Some (ps_profile s) → is_Some (ps_identity_vault s);
  si_lanes : NoDup (al_lane_id <$> ps_lanes s)
}.

(** A locked wallet has no session; an unlocked one has the session of its
    profile. *)
Definition session_of (p : option WalletProfile) (session : RuntimeIdentitySession) : Prop :=
  match p with
  | None => session = session_default
  | Some p =>
      if decide (wp_lifecycle p = WL_Locked)
      then session = session_default ∧ wp_identity_vault_status p = IV_Encrypted
      else rs_wallet_id session = Some (wp_wallet_id p) ∧
           rs_identity_fingerprint session = wp_identity_fingerprint p ∧
           is_Some (rs_identity_secret session) ∧ wp_identity_vault_status p = IV_Unlocked
  end.

Section invariant.
Context `{StateJson} {I : Type} (config : DaemonConfig).

(** The file, when there is one, is a state that was saved. *)
Definition file_inv (f : file) : Prop :=
  ∀ bytes, f = Some bytes → ∃ s, state_to_json (state_for_disk s) = Ok bytes ∧ store_inv config s.

Record world_inv (w : World I) : Prop := {
  wi_store : store_inv config (w_store w);
  wi_session : session_of (ps_profile (w_store w)) (w_session w);
  wi_file : file_inv (w_file w);
  wi_store_lock : w_store_poisoned w = false;
  wi_session_lock : w_session_poisoned w = false
}.

(** A task all of whose phases keep a property of the world. *)
Inductive preserves (P : World I → Prop) : task I → Prop :=
| preserves_answer r : preserves P (Answer r)
| preserves_phase run :
    (∀ w, P w → P (run w).2) → (∀ w, P w → preserves P (run w).1) → preserves P (Phase run).

(** A stretch of a handler that keeps it. *)
Definition keeps (P : World I → Prop) {A} (m : stateful (World I) api_failure A) : Prop :=
  ∀ w, P w → P (m w).2.

Section preserves.
Context (P : World I → Prop).

Lemma preserves_critical {A} (m : stateful (World I) api_failure A) k :
  keeps P m → (∀ a, preserves P (k a)) → preserves P (critical m k).
Proof.
  intros Hm Hk. constructor; intros w Hw; specialize (Hm w Hw).
  - by destruct (m w) as [[a|e] w'].
  - destruct (m w) as [[a|e] w']; cbn; [apply Hk|constructor].
Qed.

Lemma preserves_finally m : keeps P m → preserves P (finally m).
Proof. intros Hm. apply preserves_critical; [done|]. intros r. constructor. Qed.

Lemma preserves_alone {A} (r : api A) k : (∀ a, preserves P (k a)) → preserves P (alone r k).
Proof. intros Hk. destruct r; cbn; [apply Hk|constructor]. Qed.

Lemma keeps_bind {A B} (m : stateful (World I) api_failure A) (k : A → stateful (World I) api_failure B) :
  keeps P m → (∀ a, keeps P (k a)) → keeps P (m ≫= k).
Proof.
  intros Hm Hk w Hw. unfold mbind, stateful_bind. specialize (Hm w Hw).
  destruct (m w) as [[a|e] w1]; cbn in *; [by apply Hk|done].
Qed.

Lemma keeps_reading {A} (f : World I → api A) : keeps P (reading f).
Proof. by intros w Hw. Qed.
Lemma keeps_ret {A} (a : A) : keeps P (mret a).
Proof. by intros w Hw. Qed.
Lemma keeps_store : keeps P store.
Proof. apply keeps_reading. Qed.

(** What follows a reading of the state may use that it is the world's. *)
Lemma keeps_store_bind {B} (k : PersistedState → stateful (World I) api_failure B) :
  (∀ w, P w → P (k (w_store w) w).2) → keeps P (store ≫= k).
Proof.
  intros Hk w Hw. unfold store, reading, mbind, stateful_bind.
  destruct (fail_if (E := api_failure) (w_store_poisoned w = true) (api_error WE_PoisonedState));
    cbn; [by apply Hk|done].
Qed.

Lemma reading_bind {A B} (f : World I → api A) (k : A → stateful (World I) api_failure B) w :
  (∀ a, f w = Ok a → P (k a w).2) → P w → P ((reading f ≫= k) w).2.
Proof.
  intros Hk Hw. unfold reading, mbind, stateful_bind. destruct (f w) eqn:E; cbn; [by apply Hk|done].
Qed.
End preserves.

(** * The file *)

Lemma write_file_cases io bytes f :
  (write_private_state_file io bytes f).2 = f ∨
  (write_private_state_file io bytes f).2 = Some bytes.
Proof.
  unfold write_private_state_file, mbind, stateful_bind, reading, updating, result_bind.
  destruct (io_open io), (io_restrict_temp io), (io_write io), (io_sync io), (io_rename io); cbn; auto.
Qed.

Lemma save_file_cases io s f :
  (save_file io s f).2 = f ∨
  ∃ bytes, state_to_json (state_for_disk s) = Ok bytes ∧ (save_file io s f).2 = Some bytes.
Proof.
  unfold save_file, mbind, stateful_bind, reading.
  destruct (persist (io_create_dir io)); cbn; [|by left].
  unfold persist at 1. destruct (state_to_json (state_for_disk s)) as [bytes|]; cbn; [|by left].
  pose proof (write_file_cases io bytes f) as Hw.
  destruct (write_private_state_file io bytes f) as [r f']; cbn in *.
  destruct Hw as [->| ->]; [by left|right; by exists bytes].
Qed.

Lemma save_keeps io s w : w_store w = s → world_inv w → world_inv (save_state io s w).2.
Proof.
  intros <- [Hs Hss Hf H1 H2]. unfold save_state.
  pose proof (save_file_cases io (w_store w) (w_file w)) as Hc.
  destruct (save_file io (w_store w) (w_file w)) as [r f]; cbn in *.
  constructor; cbn; try done. destruct Hc as [->|(bytes & Hb & ->)]; [done|].
  intros ? [= <-]. by exists (w_store w).
Qed.

Lemma save_then {A} io s w (k : stateful (World I) api_failure A) :
  keeps world_inv k → w_store w = s → world_inv w → world_inv ((_ ← save_state io s; k) w).2.
Proof.
  intros Hk Hs Hw. pose proof (save_keeps io s w Hs Hw) as Hw'.
  unfold mbind, stateful_bind. by destruct (save_state io s w) as [[[]|e] w']; [apply Hk|].
Qed.

(** * The lanes *)

Lemma update_lane_ids id f lanes lanes' :
  (∀ lane, al_lane_id (f lane) = al_lane_id lane) →
  update_lane id f lanes = Some lanes' → al_lane_id <$> lanes' = al_lane_id <$> lanes.
Proof.
  intros Hf. unfold update_lane. destruct (list_find _ lanes) as [[n lane]|] eqn:E; [|done].
  intros [= <-]. apply list_find_Some in E as (Hn & _ & _).
  rewrite list_fmap_insert, Hf. apply list_insert_id. by rewrite list_lookup_fmap, Hn.
Qed.

Lemma apply_updates_ids now lanes updates :
  al_lane_id <$> apply_lane_resolution_updates now lanes updates = al_lane_id <$> lanes.
Proof.
  revert now lanes. induction updates as [|u us IH]; intros now lanes; cbn; [done|].
  rewrite IH. destruct (update_lane _ _ lanes) as [lanes'|] eqn:E; [|done].
  by eapply update_lane_ids in E.
Qed.

(** * The store alone *)

Lemma set_store_keeps s w :
  world_inv w → store_inv config s → session_of (ps_profile s) (w_session w) →
  world_inv (set_store s w).
Proof. intros [_ _ Hf H1 H2] Hs Hss. by constructor. Qed.

(** Assigning to the store and saving it, at the end of a handler. *)
Lemma store_saved {A} io s w (k : stateful (World I) api_failure A) :
  keeps world_inv k → world_inv w → store_inv config s → session_of (ps_profile s) (w_session w) →
  world_inv ((_ ← put (set_store s); _ ← save_state io s; k) w).2.
Proof.
  intros Hk Hw Hs Hss. apply (save_then io s (set_store s w)); [done..|by apply set_store_keeps].
Qed.

Lemma session_same_identity p p' session :
  session_of (Some p) session → wp_lifecycle p ≠ WL_Locked → wp_lifecycle p' ≠ WL_Locked →
  wp_wallet_id p' = wp_wallet_id p → wp_identity_fingerprint p' = wp_identity_fingerprint p →
  wp_identity_vault_status p' = wp_identity_vault_status p → session_of (Some p') session.
Proof.
  cbn. intros Hs H1 H2 Hi Hf Hv. rewrite decide_False in Hs by done. rewrite decide_False by done.
  by rewrite Hi, Hf, Hv.
Qed.

Lemma matches_same p p' network :
  wp_network_id p' = wp_network_id p → wp_protocol_network_id p' = wp_protocol_network_id p →
  wp_canonical_chain_domain p' = wp_canonical_chain_domain p →
  profile_matches_network p network = true → profile_matches_network p' network = true.
Proof. unfold profile_matches_network. by intros -> -> ->. Qed.

(** Moving to another unlocked lifecycle keeps the invariants. *)
Lemma relifed_inv s s' l session :
  store_inv config s → session_of (ps_profile s) session →
  wp_lifecycle <$> ps_profile s ≠ Some WL_Locked →
  ps_profile s' = set_lifecycle l <$> ps_profile s → l ≠ WL_Locked →
  ps_identity_vault s' = ps_identity_vault s →
  al_lane_id <$> ps_lanes s' = al_lane_id <$> ps_lanes s →
  store_inv config s' ∧ session_of (ps_profile s') session.
Proof.
  intros [Hn Hv Hd] Hs Hl Hp Hl' Hv' Hi. split.
  - constructor; rewrite ?Hp, ?Hv', ?Hi; [|by rewrite fmap_is_Some|done].
    intros p (p0 & Hp0 & ->)%fmap_Some. by apply (matches_same p0), Hn.
  - rewrite Hp. destruct (ps_profile s) as [p|]; [|done].
    apply (session_same_identity p); try done. intros E. apply Hl. cbn. by rewrite E.
Qed.

(** Assigning to the store and the session under both locks. *)
Lemma session_saved io s f w (r : response) :
  world_inv w → store_inv config s → session_of (ps_profile s) (f (w_session w)) →
  world_inv ((_ ← put (set_store s); session ← identity_session;
              _ ← put (set_session (f session)); _ ← save_state io s; mret r) w).2.
Proof.
  intros Hw Hs Hss. unfold put, identity_session, reading.
  unfold mbind at 1 2 3, stateful_bind at 1 2 3. cbn [set_store w_session_poisoned w_session].
  rewrite (wi_session_lock w) by done. rewrite (fail_if_false (false = true)) by done.
  cbn [mbind result_bind]. apply save_then; [apply keeps_ret|done|]. destruct Hw. by constructor.
Qed.
End invariant.

(** * The handlers *)

Section handlers.
Context {B I : Type} `{Sha256, HexCrate, WalletCrypto, StateJson}.
Context `{Indexer I, ScanCursorStore I, ObservedSpendStore I}.
Context `{KaspaChainBackend B, ScanBackend B, KaspaWalletBackend B}.
Context (version : string) (config : DaemonConfig) (env : Env B I).

Abbreviation inv := (world_inv config).

Lemma with_index_keeps {A} (m : stateful I string A) : keeps inv (with_index m).
Proof. intros w []. unfold with_index. destruct (m (w_index w)) as [r i]. by constructor. Qed.

Lemma answered_keeps {A} (m : stateful I string A) : keeps inv (answered m).
Proof. apply keeps_bind; [apply with_index_keeps|]. intros r. apply keeps_reading. Qed.

Lemma update_kaspa_endpoint_preserves input :
  preserves inv (update_kaspa_endpoint config env input).
Proof.
  apply preserves_alone. intros endpoint. apply preserves_finally, keeps_store_bind.
  intros w Hw. apply reading_bind; [|done]. intros p Hp%ok_or_ok.
  apply reading_bind; [|done]. intros u Hl%fail_if_ok. apply store_saved; [apply keeps_ret|done|..].
  - destruct Hw as [[Hn Hv Hd] _ _ _ _]. constructor; cbn; try done.
    + intros p' [= <-]. by apply (matches_same p), Hn.
    + intros _. apply Hv. by exists p.
  - destruct Hw as [_ Hs _ _ _]. rewrite Hp in Hs. by apply (session_same_identity p).
Qed.

Lemma lock_wallet_preserves : preserves inv (lock_wallet env).
Proof.
  apply preserves_finally, keeps_store_bind. intros w Hw. apply reading_bind; [|done].
  intros p Hp%ok_or_ok. destruct (wi_store _ w Hw) as [Hn Hv Hd].
  destruct Hv as [v Hv]; [by exists p|]. unfold has_vault. rewrite Hv.
  apply (session_saved config _ _ session_clear); [done|..].
  - constructor; cbn; [|by eexists|done]. intros p' [= <-]. by apply (matches_same p), Hn.
  - done.
Qed.

Lemma unlock_commit_keeps identity address : keeps inv (unlock_commit env identity address).
Proof.
  apply keeps_store_bind. intros w Hw. apply reading_bind; [|done]. intros p Hp%ok_or_ok.
  destruct (wi_store _ w Hw) as [Hn Hv Hd].
  apply (session_saved config _ _ (λ session, session_unlock session (wp_wallet_id p) identity));
    [done|..].
  - constructor; cbn; [|intros _; apply Hv; by exists p|done].
    intros p' [= <-]. by apply (matches_same p), Hn.
  - cbn. by split_and!.
Qed.

Lemma unlock_wallet_preserves input : preserves inv (unlock_wallet config env input).
Proof.
  apply preserves_alone. intros pass. apply preserves_critical.
  - apply keeps_store_bind. intros w Hw. apply reading_bind; [|done]. intros p _.
    by apply reading_bind.
  - intros [p v]. apply preserves_alone. intros identity. apply preserves_alone. intros address.
    apply preserves_finally, unlock_commit_keeps.
Qed.

Lemma upsert_wallet_preserves input : preserves inv (upsert_wallet config env input).
Proof.
  apply preserves_alone. intros pw. apply preserves_finally, keeps_store_bind. intros w Hw.
  apply (session_saved config _ _ (λ session, session_unlock session (pw_wallet_id pw) _)); [done|..].
  - constructor; cbn; [|by eexists|constructor]. intros p [= <-].
    by apply bool_decide_eq_true.
  - by split_and!.
Qed.

Lemma sync_wallet_preserves : preserves inv (sync_wallet config env).
Proof.
  apply preserves_critical.
  { apply keeps_store_bind. intros w Hw. apply reading_bind; [|done]. intros p _.
    by apply reading_bind. }
  intros [p lanes]. apply preserves_critical; [apply with_index_keeps|]. intros result.
  apply preserves_finally, keeps_store_bind. intros w Hw. apply reading_bind; [|done].
  intros u Hl%fail_if_ok.
  set (s := match result with Ok scan => _ | Err message => _ end).
  assert (Hs : store_inv config s ∧ session_of (ps_profile s) (w_session w)).
  { pose proof (wi_store _ w Hw) as Hi. pose proof (wi_session _ w Hw) as Hss.
    assert (∃ l, ps_profile s = set_lifecycle l <$> ps_profile (w_store w) ∧ l ≠ WL_Locked ∧
      ps_identity_vault s = ps_identity_vault (w_store w) ∧
      al_lane_id <$> ps_lanes s = al_lane_id <$> ps_lanes (w_store w)) as (l & Hp & Hl' & Hv & Hd).
    { destruct result as [scan|msg]; [exists WL_Ready|exists WL_ServiceRequired];
        (split_and!; try done). apply apply_updates_ids. }
    by apply (relifed_inv config (w_store w) s l). }
  destruct Hs as [Hs Hss].
  apply store_saved; [|done..].
  apply keeps_bind; [apply keeps_reading|]. intros d. apply keeps_ret.
Qed.

Lemma dashboard_preserves : preserves inv (dashboard : task I).
Proof.
  apply preserves_finally, keeps_bind; [apply keeps_store|]. intros s.
  apply keeps_bind; [apply keeps_reading|]. intros d. apply keeps_ret.
Qed.

Lemma profile_preserves : preserves inv (profile : task I).
Proof.
  apply preserves_finally, keeps_bind; [apply keeps_store|]. intros s.
  apply keeps_bind; [apply keeps_reading|]. intros p. apply keeps_ret.
Qed.

(** Changing the lanes and the proofs alone. *)
Lemma lanes_saved io lanes proofs (w : World I) (r : response) :
  inv w → NoDup (al_lane_id <$> lanes) →
  inv ((_ ← put (set_store (set_lanes lanes proofs (w_store w)));
        _ ← save_state io (set_lanes lanes proofs (w_store w)); mret r) w).2.
Proof.
  intros Hw Hd. apply store_saved; [apply keeps_ret|done|..]; destruct Hw as [[] ? _ _ _]; by try constructor.
Qed.

Lemma lane_commit_keeps lane : keeps inv (lane_commit env lane).
Proof.
  apply keeps_store_bind. intros w Hw. apply reading_bind; [|done]. intros u Hn%fail_if_ok.
  apply lanes_saved; [done|]. rewrite fmap_app, NoDup_app. destruct (wi_store _ w Hw) as [_ _ Hd].
  split; [done|]. split; [|apply NoDup_singleton]. intros id (l & -> & Hl)%list_elem_of_fmap Hin.
  apply list_elem_of_singleton in Hin. apply Hn, Exists_exists. exists l. split; [done|by left].
Qed.

Lemma create_lane_preserves input : preserves inv (create_lane config env input).
Proof.
  apply preserves_critical.
  { apply keeps_store_bind. intros w Hw. by apply reading_bind. }
  intros [wallet_id count]. do 4 (apply preserves_alone; intros ?).
  match goal with |- preserves _ (let index := ?t in _) => assert (Hi : preserves inv t) end.
  { apply preserves_critical; [apply answered_keeps|]. intros indexed.
    apply preserves_finally, lane_commit_keeps. }
  match goal with |- context [match ?e with Some _ => _ | None => _ end] => destruct e end; [|done].
  apply preserves_critical; [|done]. apply keeps_bind; [apply keeps_store|]. intros s. apply keeps_reading.
Qed.

Lemma select_lane_keeps lane_id : keeps (I := I) inv (select_lane lane_id).
Proof.
  apply keeps_bind; [apply keeps_store|]. intros s. apply keeps_bind; [apply keeps_reading|]. intros i.
  apply keeps_bind; [apply keeps_reading|]. intros l. apply keeps_ret.
Qed.

Lemma proof_commit_keeps lane_id make : keeps inv (proof_commit env lane_id make).
Proof.
  apply keeps_store_bind. intros w Hw. apply reading_bind; [|done]. intros lanes Hl%ok_or_ok.
  apply lanes_saved; [done|]. apply update_lane_ids in Hl; [|done]. rewrite Hl.
  apply (si_lanes _ _ (wi_store _ w Hw)).
Qed.

Lemma record_proof_preserves input : preserves inv (record_proof config env input).
Proof.
  apply preserves_critical; [apply select_lane_keeps|]. intros [wallet_id covenant].
  do 3 (apply preserves_alone; intros ?). apply preserves_critical; [apply answered_keeps|].
  intros verified. apply preserves_finally, proof_commit_keeps.
Qed.

Lemma record_transition_preserves input : preserves inv (record_transition config env input).
Proof.
  apply preserves_critical; [apply select_lane_keeps|]. intros [wallet_id covenant].
  apply preserves_alone; intros ?. apply preserves_critical; [apply answered_keeps|].
  intros evidence. apply preserves_finally, proof_commit_keeps.
Qed.

Lemma router_preserves q : preserves inv (build_router version config env q).
Proof.
  destruct q; cbn [build_router].
  - constructor.
  - apply profile_preserves.
  - apply upsert_wallet_preserves.
  - apply upsert_wallet_preserves.
  - apply lock_wallet_preserves.
  - apply unlock_wallet_preserves.
  - apply update_kaspa_endpoint_preserves.
  - apply sync_wallet_preserves.
  - apply dashboard_preserves.
  - apply create_lane_preserves.
  - apply record_proof_preserves.
  - apply record_transition_preserves.
Qed.
End handlers.

(** * The daemon *)

Section daemon.
Context {B I : Type} `{Sha256, HexCrate, WalletCrypto} `{StateJsonLaws}.
Context `{Indexer I, ScanCursorStore I, ObservedSpendStore I}.
Context `{KaspaChainBackend B, ScanBackend B, KaspaWalletBackend B}.
Context (version : string) (config : DaemonConfig).

(** What was saved is read back, locked. *)
Lemma load_saved s bytes s' :
  state_to_json s = Ok bytes → load_state (Ok ()) (Some bytes) = Ok s' → s' = normalise_loaded_state s.
Proof.
  intros Hj Hl. destruct (state_json s) as (b & Hb & Hf). rewrite Hj in Hb. injection Hb as <-.
  unfold load_state in Hl. cbn in Hl. rewrite Hf in Hl. cbn in Hl. by injection Hl as <-.
Qed.

Lemma default_inv : store_inv config persisted_default.
Proof. constructor; [done|by intros []|constructor]. Qed.

Lemma normalised_inv s :
  store_inv config s →
  store_inv config (normalise_loaded_state (state_for_disk s)) ∧
  session_of (ps_profile (normalise_loaded_state (state_for_disk s))) session_default.
Proof.
  intros [Hn Hv Hd]. unfold normalise_loaded_state, state_for_disk, has_vault. cbn.
  destruct (ps_profile s) as [p|] eqn:Hp; cbn; [|by split; [constructor; cbn; [done|by intros []|]|]].
  destruct Hv as [v Hv]; [by exists p|]. rewrite Hv. cbn. split; [|done].
  constructor; cbn; [|by eexists|done]. intros p' [= <-].
  apply (matches_same p); try by (case_decide). by apply Hn.
Qed.

Lemma isolate_cases s network :
  (isolate_state_for_network s network).1 = s ∨
  (isolate_state_for_network s network).1 = persisted_default.
Proof.
  unfold isolate_state_for_network. destruct (ps_profile s) as [p|]; [|by left].
  destruct (profile_matches_network p network); [by left|by right].
Qed.

Lemma start_inv read (i : I) f (w : World I) :
  file_inv config f → start config read i f = Ok w → world_inv config w.
Proof.
  intros Hf E. unfold start in E. apply bind_ok in E as (s & Hl & [= <-]).
  assert (Hs : store_inv config s ∧ session_of (ps_profile s) session_default).
  { destruct f as [bytes|]; [|injection Hl as <-; split; [apply default_inv|done] ].
    destruct (Hf bytes eq_refl) as (s0 & Hb & Hs0). apply bind_ok in Hl as ([] & Hr & Hl).
    assert (load_state (Ok ()) (Some bytes) = Ok s) as Hl' by exact Hl.
    rewrite (load_saved _ _ _ Hb Hl'). by apply normalised_inv. }
  destruct Hs as [Hs Hss].
  destruct (isolate_cases s (dc_network config)) as [E|E]; constructor; cbn; rewrite ?E; try done.
  apply default_inv.
Qed.

Lemma reachable_inv (i : I) w ts :
  reachable (B := B) version config i (w, ts) →
  world_inv config w ∧ Forall (preserves (world_inv config)) ts.
Proof.
  remember (w, ts) as c eqn:Ec. intros Hr. revert w ts Ec.
  induction Hr as [read w0 Hs|c0 c1 Hr IH Hstep]; intros w ts Ec.
  - injection Ec as <- <-. split; [|done]. eapply start_inv; [|exact Hs]. by intros bytes.
  - destruct Hstep as [w0 ts0 env q|w0 ts0 n run t w1 Hn Ht|w0 ts0 read w1 Hs];
      injection Ec as <- <-; destruct (IH _ _ eq_refl) as [Hw Hts].
    + split; [done|]. apply Forall_app. split; [done|]. apply Forall_singleton, router_preserves.
    + pose proof (Forall_lookup_1 _ _ _ _ Hts Hn) as Hp. inversion Hp as [|? Hrun Hnext]; subst.
      specialize (Hrun w0 Hw). specialize (Hnext w0 Hw). rewrite Ht in *. cbn in *.
      split; [done|]. by apply Forall_insert.
    + split; [|done]. eapply start_inv; [|exact Hs]. apply Hw.
Qed.

(** C7: What always holds of the wallet daemon, whatever requests arrive, however
    their handlers interleave, whatever fails outside, and across restarts: the
    profile is of the daemon's network; while the wallet is locked, or there is
    none, no identity is held in memory, and while it is not locked the session
    is that of the profile, with its wallet id and fingerprint; no lane id occurs
    twice; and the state file, if there is one, is a saved state of that kind, so
    that loading it gives a wallet that is locked. *)
Theorem daemon_invariant (i : I) w ts :
  reachable (B := B) version config i (w, ts) →
  let s := w_store w in
  (∀ p, ps_profile s = Some p →
    profile_matches_network p (dc_network config) = true ∧
    (wp_lifecycle p = WL_Locked → w_session w = session_default) ∧
    (wp_lifecycle p ≠ WL_Locked →
      rs_wallet_id (w_session w) = Some (wp_wallet_id p) ∧
      rs_identity_fingerprint (w_session w) = wp_identity_fingerprint p ∧
      is_Some (rs_identity_secret (w_session w)))) ∧
  (ps_profile s = None → w_session w = session_default) ∧
  NoDup (al_lane_id <$> ps_lanes s) ∧
  ∀ read s', is_Some (w_file w) → load_state read (w_file w) = Ok s' →
    store_inv config s' ∧ ∀ p, ps_profile s' = Some p → wp_lifecycle p = WL_Locked.
Proof.
  intros [[[Hn Hv Hd] Hs Hf _ _] _]%reachable_inv s. split; [|split; [|split; [exact Hd|]]].
  - intros p Hp. fold s in Hs, Hn. rewrite Hp in Hs. cbn in Hs. split; [by apply Hn|].
    case_decide; (split; [tauto|]); intros; naive_solver.
  - intros Hp. fold s in Hs. by rewrite Hp in Hs.
  - intros read s' [bytes Hb] Hl. rewrite Hb in Hl. destruct (Hf bytes Hb) as (s0 & Hj & Hs0).
    apply bind_ok in Hl as ([] & _ & Hl). assert (load_state (Ok ()) (Some bytes) = Ok s') as Hl' by exact Hl.
    rewrite (load_saved _ _ _ Hj Hl'). split; [by apply normalised_inv|].
    intros p Hp. unfold normalise_loaded_state in Hp. cbn in Hp.
    apply fmap_Some in Hp as (p0 & _ & ->). done.
Qed.
End daemon.
