(* ===== verification/WalletBehaviour.v ===== *)
(** What a client of the wallet daemon sees over several requests: creating a
    wallet, restarting and unlocking gives the identity back; what a scan does to
    each lane; and what happens when an unlock finishes after an import, or a
    lane is made while the wallet is being locked. *)

From stdpp Require Import base list strings.
From Stdlib Require Import ZArith Lia Strings.Byte.
From S2P Require Import Prelude.
From S2P Require Import Bytes.
From S2P Require Import Encoding.
From S2P Require Import Types.
From S2P Require Import Commit.
From S2P Require Import IndexerTypes.
From S2P Require Import Rebuild.
From S2P Require Import Kaspa.
From S2P Require Import Sync.
From S2P Require Import Resolver.
From S2P Require Import SyncCorrect.
From S2P Require Import Wrpc.
From S2P Require Import WrpcCorrect.
From S2P Require Import WalletText.
From S2P Require Import WalletTypes.
From S2P Require Import WalletIdentity.
From S2P Require Import WalletIndex.
From S2P Require Import Wallet.
From S2P Require Import WalletDaemon.
From S2P Require Import WalletDaemonCorrect.

Open Scope string_scope.
Open Scope list_scope.

(** * The vault *)

Section vault.
Context `{Sha256} `{HexLaws} `{WalletCryptoLaws}.

Definition identity_of (context : IdentityVaultContext) (phrase : list string) : UnlockedIdentity :=
  {| ui_identity_fingerprint := identity_fingerprint context phrase;
     ui_identity_secret := identity_secret context phrase |}.

(** A vault opens with the passphrase it was made with. *)
Lemma vault_opens salt nonce context phrase pass vault profile :
  length salt = IDENTITY_VAULT_SALT_BYTES → length nonce = IDENTITY_VAULT_NONCE_BYTES →
  encrypt_identity_vault (Ok salt) (Ok nonce) context phrase pass = Ok vault →
  context_from_profile profile = context →
  decrypt_identity_vault profile vault pass = Ok (identity_of context phrase).
Proof.
  intros Hs Hn E Hc. unfold encrypt_identity_vault in E. cbn [map_err mbind result_bind] in E.
  apply bind_ok in E as (plain & Hp%map_err_ok & E). apply bind_ok in E as (key & Hk & E).
  apply bind_ok in E as (ct & Hct%ok_or_ok & [= <-]).
  destruct (plaintext_json {| vp_version := IDENTITY_VAULT_VERSION; vp_wallet_id := vc_wallet_id context;
    vp_network_id := vc_network_id context; vp_protocol_network_id := vc_protocol_network_id context;
    vp_canonical_chain_domain := vc_canonical_chain_domain context;
    vp_recovery_phrase := phrase |}) as (b & Hb & Hfrom). rewrite Hp in Hb. injection Hb as <-.
  destruct (decrypt_encrypt key nonce plain (as_bytes (identity_vault_aad context)) Hn)
    as (ct' & Hct' & Hdec & Hne). rewrite Hct in Hct'. injection Hct' as <-.
  unfold decrypt_identity_vault, validate_identity_vault_header.
  cbn [iv_version iv_cipher iv_kdf kdf_algorithm kdf_memory_kib kdf_iterations kdf_parallelism
    iv_salt iv_nonce iv_ciphertext]. rewrite !fail_if_false by (intros ?; naive_solver).
  cbn [mbind result_bind]. rewrite !decode_prefixed_hex_prefixed by (by intros ->).
  cbn [mbind result_bind]. rewrite fail_if_false by (intros Hx; by apply Hx).
  cbn [mbind result_bind]. rewrite Hc, Hk. cbn [mbind result_bind]. rewrite Hdec.
  cbn [ok_or mbind result_bind]. rewrite Hfrom. cbn [map_err mbind result_bind].
  unfold validate_identity_plaintext. cbn [vp_version vp_wallet_id vp_network_id
    vp_protocol_network_id vp_canonical_chain_domain vp_recovery_phrase].
  by rewrite fail_if_false by naive_solver.
Qed.
End vault.

(** * Saving *)

Definition io_fine (io : SaveIo) : Prop :=
  io = {| io_create_dir := Ok (); io_open := Ok (); io_restrict_temp := Ok (); io_write := Ok ();
          io_sync := Ok (); io_rename := Ok (); io_restrict := Ok () |}.

Section restart.
Context {B I : Type} `{Sha256} `{HexLaws} `{WalletCryptoLaws} `{StateJsonLaws}.
Context `{Indexer I, ScanCursorStore I, ObservedSpendStore I}.
Context `{KaspaChainBackend B, ScanBackend B, KaspaWalletBackend B}.
Context (version : string) (config : DaemonConfig).

(** A save that succeeds writes the state as it is stored, and nothing else
    changes. *)
Lemma save_state_ok io s (w w' : World I) u :
  save_state io s w = (Ok u, w') →
  ∃ bytes, state_to_json (state_for_disk s) = Ok bytes ∧ w' = set_file (Some bytes) w.
Proof.
  unfold save_state, save_file, mbind, stateful_bind, reading. intros E.
  destruct (persist (io_create_dir io)); [|by cbn in E].
  destruct (state_to_json (state_for_disk s)) as [bytes|]; [|by cbn in E]. exists bytes.
  split; [done|]. cbn in E. unfold write_private_state_file, mbind, stateful_bind, reading,
    updating, result_bind in E.
  destruct (io_open io), (io_restrict_temp io), (io_write io), (io_sync io), (io_rename io),
    (io_restrict io); cbn in E; congruence.
Qed.

Lemma save_state_fine io s (w : World I) bytes :
  io_fine io → state_to_json (state_for_disk s) = Ok bytes →
  save_state io s w = (Ok (), set_file (Some bytes) w).
Proof.
  intros -> Hb. unfold save_state, save_file, mbind, stateful_bind, reading. cbn. by rewrite Hb.
Qed.

(** What a created wallet leaves. *)
Lemma upsert_answered (env : Env B I) input w p w1 :
  run_alone 1 (upsert_wallet config env input) w = Some (Ok (R_Profile p), w1) →
  ∃ pw bytes, prepare_wallet config env input = Ok pw ∧ p = new_profile config pw ∧
    w_store w1 = new_store config pw ∧
    w_session w1 = session_unlock session_default (wp_wallet_id p)
      {| ui_identity_fingerprint := im_identity_fingerprint (pw_material pw);
         ui_identity_secret := im_identity_secret (pw_material pw) |} ∧
    w_file w1 = Some bytes ∧ state_to_json (state_for_disk (new_store config pw)) = Ok bytes.
Proof.
  unfold upsert_wallet. destruct (prepare_wallet config env input) as [pw|e] eqn:Hp; [|done].
  unfold finally, critical. cbn [alone run_alone].
  destruct (upsert_commit config env pw w) as [[r|e] w'] eqn:Hc; [|done]. intros [= -> ->]. unfold upsert_commit in Hc.
  apply sbind_ok in Hc as (s & w2 & [_ ->]%reading_ok & Hc).
  apply sbind_ok in Hc as ([] & w3 & [= <-] & Hc).
  apply sbind_ok in Hc as (sess & w4 & [_ ->]%reading_ok & Hc).
  apply sbind_ok in Hc as ([] & w5 & [= <-] & Hc).
  apply sbind_ok in Hc as ([] & w6 & Hs & Hc). apply save_state_ok in Hs as (bytes & Hb & ->).
  injection Hc as <- <-. by exists pw, bytes.
Qed.

Lemma prepared_ok (env : Env B I) input pw :
  prepare_wallet config env input = Ok pw →
  validate_passphrase (cw_passphrase input) = Ok (cw_passphrase input) ∧
  ∃ phrase, build_wallet_identity_material (en_draws env) (identity_context config (pw_wallet_id pw))
      phrase (cw_passphrase input) = Ok (pw_material pw) ∧
    wallet_address config (im_identity_secret (pw_material pw)) = Ok (pw_address pw).
Proof.
  unfold prepare_wallet. intros E.
  apply bind_ok in E as (? & _ & E). apply bind_ok in E as (id & _ & E).
  apply bind_ok in E as (phrase & _ & E). apply bind_ok in E as (pass & Hpass & E).
  apply bind_ok in E as (endpoint & _ & E). apply bind_ok in E as (m & Hm & E).
  apply bind_ok in E as (address & Ha & [= <-]).
  assert (pass = cw_passphrase input) as ->.
  { unfold validate_passphrase in Hpass. by inv_ok. }
  split; [done|]. exists phrase. split; [|exact Ha]. unfold identity_worker in Hm.
  destruct (en_identity_join env); [done|]. by apply map_err_ok in Hm.
Qed.

Lemma upsert_profile (env : Env B I) input w p w1 :
  run_alone 1 (upsert_wallet config env input) w = Some (Ok (R_Profile p), w1) →
  ps_profile (w_store w1) = Some p.
Proof. by intros (pw & bytes & _ & -> & -> & _)%upsert_answered. Qed.

(** The draws a request was given are of the length it asked for. *)
Definition draws_sized (draws : Draws) : Prop :=
  (∀ salt, dr_salt draws = Ok salt → length salt = IDENTITY_VAULT_SALT_BYTES) ∧
  (∀ nonce, dr_nonce draws = Ok nonce → length nonce = IDENTITY_VAULT_NONCE_BYTES).

Lemma material_opens (env : Env B I) input pw profile :
  draws_sized (en_draws env) → prepare_wallet config env input = Ok pw →
  context_from_profile profile = identity_context config (pw_wallet_id pw) →
  decrypt_identity_vault profile (im_vault (pw_material pw)) (cw_passphrase input) =
    Ok {| ui_identity_fingerprint := im_identity_fingerprint (pw_material pw);
          ui_identity_secret := im_identity_secret (pw_material pw) |}.
Proof.
  intros [Hs Hn] (_ & phrase & Hm & _)%prepared_ok Hc. unfold build_wallet_identity_material in Hm.
  apply bind_ok in Hm as (ps & _ & Hm). apply bind_ok in Hm as (pv & _ & Hm).
  apply bind_ok in Hm as (v & Hv & [= <-]). cbn.
  destruct (dr_salt (en_draws env)) as [salt|]; [|by cbn in Hv].
  destruct (dr_nonce (en_draws env)) as [nonce|]; [|by cbn in Hv].
  by eapply vault_opens; [apply Hs|apply Hn|exact Hv|].
Qed.

(** The profile and the store of a created wallet after a restart. *)
Definition locked_profile (p : WalletProfile) : WalletProfile :=
  set_vault_status IV_Encrypted (set_lifecycle WL_Locked p).

Lemma restarted read i pw bytes w2 :
  state_to_json (state_for_disk (new_store config pw)) = Ok bytes →
  start config read i (Some bytes) = Ok (w2 : World I) →
  ps_profile (w_store w2) = Some (locked_profile (new_profile config pw)) ∧
  ps_identity_vault (w_store w2) = Some (im_vault (pw_material pw)) ∧
  w_session w2 = session_default ∧ w_store_poisoned w2 = false ∧ w_session_poisoned w2 = false.
Proof.
  intros Hb E. unfold start in E. apply bind_ok in E as (s & Hl & [= <-]).
  apply bind_ok in Hl as ([] & _ & Hl). assert (load_state (Ok ()) (Some bytes) = Ok s) as Hl' by exact Hl.
  rewrite (load_saved _ _ _ Hb Hl'). cbn. unfold isolate_state_for_network. cbn.
  unfold profile_matches_network. cbn. rewrite bool_decide_eq_true_2 by done. by cbn.
Qed.

(** The last stretch of an unlock, when saving does not fail. *)
Lemma unlock_commit_fine (env : Env B I) identity address (w : World I) p0 :
  io_fine (en_io env) → w_store_poisoned w = false → w_session_poisoned w = false →
  ps_profile (w_store w) = Some p0 →
  let p := set_identity (ui_identity_fingerprint identity) address
             (set_vault_status IV_Unlocked (set_lifecycle WL_Ready p0)) in
  ∃ w', unlock_commit env identity address w = (Ok (R_Profile p), w') ∧
    w_session w' = session_unlock (w_session w) (wp_wallet_id p0) identity.
Proof.
  intros Hio L1 L2 Hp p. unfold unlock_commit, store, identity_session, put, reading.
  unfold mbind, stateful_bind. rewrite L1. rewrite (fail_if_false (false = true)) by done.
  cbn [result_bind]. rewrite Hp. cbn [ok_or set_store w_session_poisoned w_session]. rewrite L2.
  rewrite (fail_if_false (false = true)) by done.
  destruct (state_json (state_for_disk (set_profile (Some p) (w_store w)))) as (bytes & Hb & _).
  cbv zeta. fold p. cbn [result_bind]. rewrite (save_state_fine _ _ _ bytes Hio Hb). cbn. by eexists.
Qed.

(** C16: Creating, restarting, unlocking: when a wallet was created with a
    passphrase, in whatever state the daemon was, and the daemon is then started
    again from the file that left, it has no identity in memory and the profile
    is locked; and unlocking with that passphrase, with a worker and a file
    system that do not fail, answers with the very profile that creating the
    wallet answered with, and the session holds the same wallet, fingerprint and
    secret as then. *)
Theorem unlock_restores_identity (env env' : Env B I) input w p w1 read w2 :
  run_alone 1 (upsert_wallet config env input) w = Some (Ok (R_Profile p), w1) →
  draws_sized (en_draws env) →
  start config read (w_index w1) (w_file w1) = Ok w2 →
  en_identity_join env' = None → io_fine (en_io env') →
  w_session w2 = session_default ∧ ps_profile (w_store w2) = Some (locked_profile p) ∧
  ∃ w3, run_alone 2 (unlock_wallet config env' {| uw_passphrase := cw_passphrase input |}) w2 =
      Some (Ok (R_Profile p), w3) ∧ w_session w3 = w_session w1.
Proof.
  intros (pw & bytes & Hpw & -> & _ & Hsess & Hf & Hb)%upsert_answered Hd Hst Hj Hio.
  rewrite Hf in Hst. pose proof Hst as Hst'. apply (restarted _ _ pw) in Hst as (Hp & Hv & Hs & L1 & L2); [|done].
  split; [done|]. split; [done|]. destruct (prepared_ok env input pw Hpw) as (Hpass & _ & _ & Haddr).
  unfold unlock_wallet. cbn [uw_passphrase]. rewrite Hpass. cbn [alone].
  unfold finally, critical. cbn [run_alone]. unfold unlock_snapshot, store, reading.
  unfold mbind at 1 2 3, stateful_bind. rewrite L1. rewrite (fail_if_false (false = true)) by done.
  cbn [mbind result_bind]. rewrite Hp. cbn [ok_or]. rewrite Hv. cbn [ok_or mret stateful_ret].
  rewrite (material_opens env input pw) by done. unfold identity_worker. rewrite Hj.
  cbn [map_err alone]. cbn [ui_identity_secret]. rewrite Haddr. cbn [alone run_alone].
  destruct (unlock_commit_fine env' {| ui_identity_fingerprint := im_identity_fingerprint (pw_material pw);
    ui_identity_secret := im_identity_secret (pw_material pw) |} (pw_address pw) w2 _ Hio L1 L2 Hp)
    as (w3 & -> & Hw3).
  exists w3. split; [done|]. by rewrite Hw3, Hs, Hsess.
Qed.
End restart.

(** * Lanes and a node that does not answer *)

Section resolution.
Context {B I : Type} `{KaspaChainBackend B, Indexer I, Sha256}.
Implicit Types (b : B) (i : I).

(** A resolution on a backend that fails is that the node is down, whatever is
    indexed. *)
Lemma resolve_node_down b i chain_id cov e :
  network_id b = Err e →
  resolve_by_covenant (resolver_new b i chain_id) cov = RS_NodeDown cov (network_error_display e).
Proof. intros E. unfold resolve_by_covenant, check_network. cbn. by rewrite E. Qed.

Lemma resolve_asset_lane_down b i chain_id lane lid cov e :
  network_id b = Err e → parse_bytes32_handle (al_lane_id lane) = Some lid →
  lane_by_id i lid = None → parse_bytes32_handle (al_covenant_id lane) = Some cov →
  resolve_asset_lane (resolver_new b i chain_id) lane =
    {| lu_lane_id := al_lane_id lane; lu_resolver_state := SN_NodeDown; lu_covenant_id := None;
       lu_state_digest := None; lu_latest_receipt_id := None |}.
Proof.
  intros He Hl Hn Hc. unfold resolve_asset_lane. rewrite Hl, Hc. unfold resolve_lane. cbn [rv_indexer resolver_new].
  rewrite Hn. by rewrite (resolve_node_down _ _ _ _ e).
Qed.

Lemma update_lane_at (pre post : list AssetLane) lane f :
  al_lane_id lane ∉ al_lane_id <$> pre →
  update_lane (al_lane_id lane) f (pre ++ lane :: post) = Some (pre ++ f lane :: post).
Proof.
  intros Hn. unfold update_lane.
  assert (list_find (λ l, al_lane_id l = al_lane_id lane) (pre ++ lane :: post) =
    Some (length pre, lane)) as ->.
  { apply list_find_Some. split_and!; [by apply list_lookup_middle|done|].
    intros n l Hl Hlt Hid. rewrite lookup_app_l in Hl by done. apply Hn. rewrite <-Hid.
    apply list_elem_of_fmap_2. by eapply list_elem_of_lookup_2. }
  cbn. by rewrite insert_app_r_alt, Nat.sub_diag by done.
Qed.

(** Every lane of a profile gets its own update, and that one only. *)
Lemma apply_updates_each (f : AssetLane → LaneResolutionUpdate) :
  (∀ l, lu_lane_id (f l) = al_lane_id l) →
  ∀ todo now pre, NoDup (al_lane_id <$> pre ++ todo) →
  apply_lane_resolution_updates now (pre ++ todo) (f <$> todo) =
    pre ++ imap (λ n l, apply_lane_update (now n) (f l) l) todo.
Proof.
  intros Hf. induction todo as [|l todo IH]; intros now pre Hd; [done|].
  rewrite fmap_cons, imap_cons. cbn [apply_lane_resolution_updates]. rewrite Hf. pose proof Hd as Hd'. rewrite fmap_app, fmap_cons in Hd'.
  apply NoDup_app in Hd' as (_ & Hpre & _).
  rewrite update_lane_at by (intros Hin; apply (Hpre _ Hin); by left).
  cbn [default]. unfold id. rewrite cons_middle, app_assoc, IH.
  - by rewrite <-app_assoc.
  - revert Hd. rewrite <-app_assoc, !fmap_app, !fmap_cons. done.
Qed.

Lemma resolve_asset_lane_id (r : RgkResolver B I) lane :
  lu_lane_id (resolve_asset_lane r lane) = al_lane_id lane.
Proof.
  assert (Hu : ∀ o s, lu_lane_id (lane_update_from_resolver_state lane o s) = al_lane_id lane).
  { intros o s. unfold lane_update_from_resolver_state. by destruct s. }
  unfold resolve_asset_lane.
  destruct (parse_bytes32_handle (al_lane_id lane)) as [lid|];
    [destruct (resolve_lane r lid); [apply Hu| |]|];
    destruct (parse_bytes32_handle (al_covenant_id lane)); (apply Hu || done).
Qed.

(** Fact: A scan updates each lane by its own resolution: in a profile whose lane
    ids are distinct, the lane at a position becomes the lane with the update
    resolved for it applied, and nothing else; and a lane that has metadata only,
    with an id and a covenant the index does not know, is marked as indexed by a
    scan during which the node's network query fails. *)
Theorem scan_updates_each_lane b i chain_id lanes now n lane :
  NoDup (al_lane_id <$> lanes) → lanes !! n = Some lane →
  let lanes' := apply_lane_resolution_updates now lanes (resolve_indexed_lanes b i chain_id lanes) in
  lanes' !! n = Some (apply_lane_update (now n)
    (resolve_asset_lane (resolver_new b i chain_id) lane) lane) ∧
  length lanes' = length lanes ∧
  ∀ e lid cov, network_id b = Err e → al_evidence_status lane = MetadataOnly →
    parse_bytes32_handle (al_lane_id lane) = Some lid → lane_by_id i lid = None →
    parse_bytes32_handle (al_covenant_id lane) = Some cov → lookup_covenant i cov = None →
    ∃ lane', lanes' !! n = Some lane' ∧ al_evidence_status lane' = Indexed ∧
      al_resolver_state lane' = SN_NodeDown ∧ al_covenant_id lane' = al_covenant_id lane ∧
      al_state_digest lane' = al_state_digest lane.
Proof.
  intros Hd Hn lanes'. assert (Hl : lanes' !! n = Some (apply_lane_update (now n)
    (resolve_asset_lane (resolver_new b i chain_id) lane) lane) ∧ length lanes' = length lanes).
  { unfold lanes', resolve_indexed_lanes.
    rewrite (apply_updates_each _ (resolve_asset_lane_id _) lanes now []) by done. cbn.
    by rewrite list_lookup_imap, Hn, length_imap. }
  destruct Hl as [Hl Hlen]. split; [done|]. split; [done|].
  intros e lid cov He Hm Hlid Hnone Hcov _. eexists. split; [exact Hl|].
  rewrite (resolve_asset_lane_down _ _ _ _ lid cov e) by done. cbn. rewrite Hm.
  unfold counts_as_indexed. by rewrite bool_decide_eq_true_2 by (cbn; naive_solver).
Qed.
End resolution.

(** * Lanes and a scan that observes nothing *)

Section live.
Context {C I : Type} `{RpcApi C} `{Indexer I} `{ScanStoreLaws I} `{Sha256}.

(** [connect_borsh], as [run_scan_tick] reports its error. *)
Definition live_connect (url : string) (network : WrpcNetwork) : result string (WrpcBackend C) :=
  map_err network_error_display (connect_borsh url network).

Lemma resolve_asset_lane_unseen (b : WrpcBackend C) (i : I) chain_id lane :
  wb_poisoned b = false → wb_observed_spends b = ∅ →
  let state := lu_resolver_state (resolve_asset_lane (resolver_new b i chain_id) lane) in
  state = SN_Unknown ∨ state = SN_NodeDown.
Proof.
  intros Hp He. cbv zeta.
  assert (Hs : ∀ cov, let n := resolver_state_name (resolve_by_covenant (resolver_new b i chain_id) cov) in
    n = SN_Unknown ∨ n = SN_NodeDown).
  { intros cov. assert (Hu : unseen i b cov). { intros entry o _ _. by rewrite He. }
    destruct (resolve_unseen i chain_id b cov Hp Hu) as [ [->|[msg ->] ] _]; [by left|by right]. }
  assert (Hl : ∀ o st, lu_resolver_state (lane_update_from_resolver_state lane o st) =
    resolver_state_name st) by (intros o st; unfold lane_update_from_resolver_state; by destruct st).
  assert (Hc : ∀ text, let u := match parse_bytes32_handle text with
      | Some cov => lane_update_from_resolver_state lane None
                      (resolve_by_covenant (resolver_new b i chain_id) cov)
      | None => unresolved lane end in
    lu_resolver_state u = SN_Unknown ∨ lu_resolver_state u = SN_NodeDown).
  { intros text. destruct (parse_bytes32_handle text); cbv zeta; [rewrite Hl; apply Hs|by left]. }
  unfold resolve_asset_lane. destruct (parse_bytes32_handle (al_lane_id lane)) as [lid|]; [|apply Hc].
  unfold resolve_lane. destruct (lane_by_id _ lid) as [il|]; [|apply Hc].
  cbn [resolve_indexed_lane]. unfold resolve_indexed_lane. rewrite Hl. apply Hs.
Qed.

(** C33: A scan that observes no new spend forgets what is known of every lane.
    The daemon connects anew for each scan, with an empty cache, and resolves the
    lanes over it: when the tick of the scan observes nothing, the update of every
    lane says that its state is unknown or the node down, whatever transitions
    the index holds for it. *)
Theorem idle_scan_forgets_lanes db join config url lanes address (i i' : I) scan :
  run_scan_tick live_connect db join config url lanes address i = (Ok scan, i') →
  uval (tk_observed_spends (sr_tick scan)) = 0%Z →
  length (sr_lane_updates scan) = length lanes ∧
  Forall (λ update, lu_resolver_state update = SN_Unknown ∨ lu_resolver_state update = SN_NodeDown)
    (sr_lane_updates scan).
Proof.
  unfold run_scan_tick, scan_task. intros Hrun Hidle.
  apply sbind_ok in Hrun as (b & i0 & [Hcon ->]%reading_ok & Hrun).
  apply map_err_ok in Hcon. unfold live_connect in Hcon. apply map_err_ok, connect_borsh_empty in Hcon as (He & Hp & _).
  unfold spawn_blocking in Hrun. destruct join as [[error s]|]; [done|].
  apply sbind_ok in Hrun as ([] & i1 & _ & Hrun).
  apply sbind_ok in Hrun as ([t b'] & i2 & Ht & Hrun).
  apply sbind_ok in Hrun as ([] & i3 & _ & Hrun).
  apply sbind_ok in Hrun as (n & i4 & _ & Hrun).
  apply sbind_ok in Hrun as (updates & i5 & [ [= <-] ->]%reading_ok & Hrun).
  apply sbind_ok in Hrun as (balance & i6 & _ & [= <- <-]). cbn [sr_tick sr_lane_updates] in *.
  unfold service_tick in Ht. destruct (tick _ (b, i1)) as [ [t'|e] [b2 i7] ] eqn:E; [|done].
  injection Ht as -> -> ->. destruct (idle_tick_cache _ _ _ _ _ _ E Hidle) as [He' Hp'].
  unfold resolve_indexed_lanes. split; [by rewrite length_fmap|]. apply Forall_fmap, Forall_forall.
  intros lane _. apply resolve_asset_lane_unseen; congruence.
Qed.
End live.

(** * Interleaved handlers *)

Section interleaved.
Context {B I : Type} `{Sha256, HexCrate, WalletCrypto, StateJson}.
Context `{Indexer I, ScanCursorStore I, ObservedSpendStore I}.
Context `{KaspaChainBackend B, ScanBackend B, KaspaWalletBackend B}.
Context (version : string) (config : DaemonConfig).

Lemma alone_phase {A} (r : api A) (k : A → task I) run :
  alone r k = Phase run → ∃ a, r = Ok a ∧ k a = Phase run.
Proof. destruct r as [a|]; [|done]. intros E. by exists a. Qed.

Lemma critical_phase {A} (m : stateful (World I) api_failure A) k run0 run (w w' : World I) :
  critical m k = Phase run0 → run0 w = (Phase run, w') → ∃ a, m w = (Ok a, w') ∧ k a = Phase run.
Proof.
  unfold critical. intros [= <-]. destruct (m w) as [[a|e] w1]; [|done]. intros [= E ->]. by exists a.
Qed.

Lemma unlock_snapshot_ok (w w' : World I) p v :
  unlock_snapshot w = (Ok (p, v), w') →
  ps_profile (w_store w) = Some p ∧ ps_identity_vault (w_store w) = Some v.
Proof.
  unfold unlock_snapshot. intros Hs.
  apply sbind_ok in Hs as (s & ? & [Hst ->]%reading_ok & Hs). apply bind_ok in Hst as (_ & _ & [= <-]).
  apply sbind_ok in Hs as (p' & ? & [Hp%ok_or_ok ->]%reading_ok & Hs).
  by apply sbind_ok in Hs as (v' & ? & [Hv%ok_or_ok ->]%reading_ok & [= <- <- <-]).
Qed.

(** An unlock that has run its first stretch. *)
Lemma unlock_begun (env : Env B I) input (w w' : World I) run0 run :
  unlock_wallet config env input = Phase run0 → run0 w = (Phase run, w') →
  ∃ p v identity address, ps_profile (w_store w) = Some p ∧ ps_identity_vault (w_store w) = Some v ∧
    decrypt_identity_vault p v (uw_passphrase input) = Ok identity ∧
    wallet_address config (ui_identity_secret identity) = Ok address ∧
    Phase run = finally (unlock_commit env identity address).
Proof.
  intros (pass & Hpass & E0)%alone_phase E.
  assert (pass = uw_passphrase input) as -> by (unfold validate_passphrase in Hpass; by inv_ok).
  destruct (critical_phase _ _ _ _ _ _ E0 E) as ([p v] & Hs & E1).
  apply alone_phase in E1 as (identity & Hi & E1). apply alone_phase in E1 as (address & Ha & E1).
  exists p, v, identity, address. apply unlock_snapshot_ok in Hs as [Hp Hv]. do 2 (split; [done|]).
  split; [|split; [exact Ha|exact (eq_sym E1)] ]. unfold identity_worker in Hi.
  destruct (en_identity_join env); [done|]. by apply map_err_ok in Hi.
Qed.

(** C30: An unlock that finishes after an import mixes two wallets.  When an
    unlock has read and opened the vault of a wallet, an import then replaces the
    wallet and answers, and the unlock then finishes, it answers with a profile
    that has the imported wallet's id but the first wallet's fingerprint and
    address, and the session has the imported wallet's id with the first wallet's
    secret, while the vault that is kept is the imported one. *)
Theorem unlock_finishes_after_import (env envb : Env B I) pass input (w : World I) run0 run pb w1 p w2 :
  unlock_wallet config env {| uw_passphrase := pass |} = Phase run0 →
  run0 w = (Phase run, w) →
  run_alone 1 (upsert_wallet config envb input) w = Some (Ok (R_Profile pb), w1) →
  run w1 = (Answer (Ok (R_Profile p)), w2) →
  ∃ pa va identity address,
    ps_profile (w_store w) = Some pa ∧ ps_identity_vault (w_store w) = Some va ∧
    decrypt_identity_vault pa va pass = Ok identity ∧
    wallet_address config (ui_identity_secret identity) = Ok address ∧
    wp_wallet_id p = wp_wallet_id pb ∧
    wp_identity_fingerprint p = Some (ui_identity_fingerprint identity) ∧
    wp_address p = Some address ∧
    ps_profile (w_store w2) = Some p ∧
    ps_identity_vault (w_store w2) = ps_identity_vault (w_store w1) ∧
    rs_wallet_id (w_session w2) = Some (wp_wallet_id pb) ∧
    rs_identity_secret (w_session w2) = Some (ui_identity_secret identity).
Proof.
  intros H0' H1' Hup Hrun. destruct (unlock_begun _ _ _ _ _ _ H0' H1') as
    (pa & va & identity & address & Hpa & Hva & Hd & Ha & Er).
  exists pa, va, identity, address. do 4 (split; [done|]).
  apply upsert_profile in Hup. injection Er as Er. rewrite Er in Hrun.
  destruct (unlock_commit env identity address w1) as [[r|e] w3] eqn:Hc; [|done].
  injection Hrun as -> ->. unfold unlock_commit in Hc.
  apply sbind_ok in Hc as (s & ? & [Hst ->]%reading_ok & Hc). apply bind_ok in Hst as (_ & _ & [= <-]).
  apply sbind_ok in Hc as (p0 & ? & [Hp0%ok_or_ok ->]%reading_ok & Hc). rewrite Hup in Hp0.
  injection Hp0 as <-. apply sbind_ok in Hc as ([] & ? & [= <-] & Hc).
  apply sbind_ok in Hc as (sess & ? & [_ ->]%reading_ok & Hc).
  apply sbind_ok in Hc as ([] & ? & [= <-] & Hc).
  apply sbind_ok in Hc as ([] & w4 & Hs & Hc). apply save_state_ok in Hs as (bytes & _ & ->).
  injection Hc as <- <-. by cbn.
Qed.

(** Fact: A lane goes in and is saved whatever the lifecycle: the last stretch of
    [create_lane] does not look at it, so a lane whose evidence was being indexed
    while the wallet was locked is added to the locked wallet. *)
Theorem lane_added_while_locked (env : Env B I) lane (w : World I) bytes :
  w_store_poisoned w = false → io_fine (en_io env) →
  Forall (λ l, al_lane_id l ≠ al_lane_id lane ∧ al_covenant_id l ≠ al_covenant_id lane)
    (ps_lanes (w_store w)) →
  let s := set_lanes (ps_lanes (w_store w) ++ [lane]) (ps_proofs (w_store w)) (w_store w) in
  state_to_json (state_for_disk s) = Ok bytes →
  lane_commit env lane w = (Ok (R_Lane lane), set_file (Some bytes) (set_store s w)).
Proof.
  intros Hl Hio Hf s Hb. unfold lane_commit, store, put, reading, mbind, stateful_bind. rewrite Hl.
  rewrite (fail_if_false (false = true)) by done. cbn [result_bind].
  rewrite fail_if_false.
  - fold s. by rewrite (save_state_fine _ _ _ bytes).
  - intros (l & Hin & Hx)%Exists_exists. rewrite list.Forall_forall in Hf.
    destruct (Hf l Hin). naive_solver.
Qed.
End interleaved.
