(* ===== verification/WalletSamples.v ===== *)
(** Concrete libraries, wallets and worlds on which the theorems about the wallet
    daemon apply, and their witnesses. *)

From stdpp Require Import base list strings gmap.
From Stdlib Require Import ZArith Lia Strings.Byte.
From S2P Require Import Prelude.
From S2P Require Import Bytes.
From S2P Require Import Encoding.
From S2P Require Import Types.
From S2P Require Import Commit.
From S2P Require Import Hex.
From S2P Require Import IndexerTypes.
From S2P Require Import Indexer.
From S2P Require Import CoreSamples.
From S2P Require Import Kaspa.
From S2P Require Import Sync.
From S2P Require Import Receipt.
From S2P Require Import Resolver.
From S2P Require Import SyncCorrect.
From S2P Require Import Wrpc.
From S2P Require Import WrpcCorrect.
From S2P Require Import WrpcSamples.
From S2P Require Import WalletText.
From S2P Require Import WalletTypes.
From S2P Require Import WalletIdentity.
From S2P Require Import WalletIndex.
From S2P Require Import WalletIndexCorrect.
From S2P Require Import Wallet.
From S2P Require Import WalletDaemon.
From S2P Require Import WalletDaemonCorrect.
From S2P Require Import WalletBehaviour.

Open Scope string_scope.
Open Scope list_scope.

(** * Texts of states *)

(** A printer and a parser of what it prints. *)
Class Text (A : Type) := {
  put_text : A → list byte;
  get_text : list byte → option (A * list byte);
  get_put a rest : get_text (put_text a ++ rest) = Some (a, rest)
}.

(** The bits of a positive, with an end mark. *)
Fixpoint bits (p : positive) : list byte :=
  match p with xH => [x02] | xO p => x00 :: bits p | xI p => x01 :: bits p end.
Fixpoint read_bits (l : list byte) : option (positive * list byte) :=
  match l with
  | x00 :: l => '(p, l) ← read_bits l; Some (xO p, l)
  | x01 :: l => '(p, l) ← read_bits l; Some (xI p, l)
  | x02 :: l => Some (xH, l)
  | _ => None
  end.

Lemma read_bits_bits p rest : read_bits (bits p ++ rest) = Some (p, rest).
Proof. induction p as [p IH|p IH|]; cbn; [by rewrite IH..|done]. Qed.

#[local] Instance countable_text {A} `{Countable A} : Text A.
Proof.
  refine {| put_text a := bits (countable.encode a);
            get_text l := '(p, l) ← read_bits l; a ← countable.decode p; Some (a, l) |}.
  intros a rest. rewrite read_bits_bits. cbn. by rewrite decode_encode.
Defined.

#[local] Instance pair_text {A B} `{Text A, Text B} : Text (A * B).
Proof.
  refine {| put_text p := put_text p.1 ++ put_text p.2;
            get_text l := '(a, l) ← get_text l; '(b, l) ← get_text l; Some ((a, b), l) |}.
  intros [a b] rest. rewrite <-app_assoc, get_put. cbn. by rewrite get_put.
Defined.

#[local] Instance option_text {A} `{Text A} : Text (option A).
Proof.
  refine {| put_text o := match o with Some a => x01 :: put_text a | None => [x00] end;
            get_text l := match l with
            | x01 :: l => '(a, l) ← get_text l; Some (Some a, l)
            | x00 :: l => Some (None, l)
            | _ => None
            end |}.
  intros [a|] rest; cbn; [by rewrite get_put|done].
Defined.

(** Elements, each after a mark; at most as many as there are bytes. *)
Fixpoint get_all {A} `{Text A} (fuel : nat) (l : list byte) : option (list A * list byte) :=
  match fuel, l with
  | _, x00 :: l => Some ([], l)
  | S fuel, x01 :: l => '(a, l) ← get_text l; '(k, l) ← get_all fuel l; Some (a :: k, l)
  | _, _ => None
  end.
Fixpoint put_all {A} `{Text A} (k : list A) : list byte :=
  match k with [] => [x00] | a :: k => x01 :: put_text a ++ put_all k end.

Lemma get_put_all {A} `{Text A} (k : list A) rest fuel :
  (length k <= fuel)%nat → get_all fuel (put_all k ++ rest) = Some (k, rest).
Proof.
  revert fuel. induction k as [|a k IH]; intros fuel Hf; [by destruct fuel|].
  destruct fuel as [|fuel]; cbn in Hf; [lia|]. cbn. rewrite <-app_assoc, get_put. cbn.
  by rewrite IH by lia.
Qed.

Lemma put_all_length {A} `{Text A} (k : list A) : (length k <= length (put_all k))%nat.
Proof. induction k as [|a k IH]; cbn; [lia|]. rewrite length_app. lia. Qed.

#[local] Instance list_text {A} `{Text A} : Text (list A).
Proof.
  refine {| put_text := put_all; get_text l := get_all (length l) l |}.
  intros k rest. apply get_put_all. rewrite length_app. pose proof (put_all_length k). lia.
Defined.

(** A type read back from another. *)
Definition text_by {A B} `{Text B} (f : A → B) (g : B → A) (Hg : ∀ a, g (f a) = a) : Text A.
Proof.
  refine {| put_text a := put_text (f a); get_text l := '(b, l) ← get_text l; Some (g b, l) |}.
  intros a rest. rewrite get_put. cbn. by rewrite Hg.
Defined.

(** A type with a list of its values. *)
Definition text_of_values {A} `{EqDecision A} (values : list A) (a0 : A)
    (Hall : ∀ a, a ∈ values) : Text A.
Proof.
  refine (text_by (λ a, default 0%nat (fst <$> list_find (λ b, b = a) values))
                  (λ n, default a0 (values !! n)) _).
  intros a. destruct (list_find (λ b, b = a) values) as [[n b]|] eqn:E.
  - apply list_find_Some in E as (Hn & -> & _). cbn. by rewrite Hn.
  - apply list_find_None in E. rewrite list.Forall_forall in E. by destruct (E a (Hall a)).
Defined.

Ltac all_values := intros []; set_solver.

#[local] Instance ProofVerifierStatus_eq_dec : EqDecision ProofVerifierStatus.
Proof. solve_decision. Defined.
#[local] Instance vault_status_text : Text IdentityVaultStatus.
Proof. refine (text_of_values [IV_Missing; IV_Encrypted; IV_Unlocked] IV_Missing _). all_values. Defined.
#[local] Instance lifecycle_text : Text WalletLifecycle.
Proof.
  refine (text_of_values [WL_NotCreated; WL_Locked; WL_Ready; WL_Syncing; WL_ServiceRequired]
            WL_Locked _). all_values.
Defined.
#[local] Instance privacy_text : Text PrivacyMode.
Proof. refine (text_of_values [PrivateLane; PublicLineage] PrivateLane _). all_values. Defined.
#[local] Instance policy_text : Text ReceiptPolicyName.
Proof. refine (text_of_values [RN_Any; RN_VerifierOnly; RN_ZkOrVerifier] RN_Any _). all_values. Defined.
#[local] Instance evidence_text : Text LaneEvidenceStatus.
Proof. refine (text_of_values [MetadataOnly; Indexed] Indexed _). all_values. Defined.
#[local] Instance state_name_text : Text ResolverStateName.
Proof.
  refine (text_of_values [SN_Open; SN_NativeTransitionedValid; SN_NativeTransitionedInvalid;
    SN_Unconfirmed; SN_ReorgRisk; SN_CompetingBranch; SN_ReplayRejected;
    SN_PolicyMigrationRequired; SN_Unknown; SN_NodeDown] SN_Open _). all_values.
Defined.
#[local] Instance mode_text : Text ProofModeName.
Proof. refine (text_of_values [MN_VerifierReceipt; MN_ZkReceipt; MN_P2mrRet] MN_ZkReceipt _). all_values. Defined.
#[local] Instance verifier_text : Text ProofVerifierStatus.
Proof.
  refine (text_of_values [PV_Verified; PV_Pending; PV_Unsupported; PV_Rejected] PV_Pending _). all_values.
Defined.
#[local] Instance scan_mode_text : Text ScanMode.
Proof. refine (text_of_values [SM_Idle; SM_Scanning; SM_Paused; SM_Unavailable] SM_Idle _). all_values. Defined.

#[local] Instance profile_text : Text WalletProfile.
Proof.
  refine (text_by (λ p, (wp_wallet_id p, wp_protocol p, wp_network_id p, wp_protocol_network_id p,
      wp_canonical_chain_domain p, wp_kaspa_endpoint p, wp_wallet_set_id p, wp_address p,
      (wp_identity_vault_status p, wp_identity_fingerprint p, wp_lifecycle p)))
    (λ '(a, b, c, d, e, f, g, h, (i, j, k)), Build_WalletProfile a b c d e f g h i j k) _).
  by intros [].
Defined.
#[local] Instance kdf_text : Text IdentityVaultKdf.
Proof.
  refine (text_by (λ k, (kdf_algorithm k, kdf_memory_kib k, kdf_iterations k, kdf_parallelism k))
    (λ '(a, b, c, d), Build_IdentityVaultKdf a b c d) _). by intros [].
Defined.
#[local] Instance vault_text : Text IdentityVault.
Proof.
  refine (text_by (λ v, (iv_version v, iv_cipher v, iv_kdf v, iv_salt v, iv_nonce v, iv_ciphertext v))
    (λ '(a, b, c, d, e, f), Build_IdentityVault a b c d e f) _). by intros [].
Defined.
#[local] Instance lane_text : Text AssetLane.
Proof.
  refine (text_by (λ l, (al_lineage_id l, al_lane_id l, al_label l, al_ticker l, al_balance l,
      (al_privacy l, al_proof_policy l, al_evidence_status l, al_resolver_state l),
      (al_covenant_id l, al_state_digest l, al_latest_receipt_id l, al_updated_at l)))
    (λ '(a, b, c, d, e, (f, g, h, i), (j, k, l, m)), Build_AssetLane a b c d e f g h i j k l m) _).
  by intros [].
Defined.
#[local] Instance proof_text : Text ProofSummary.
Proof.
  refine (text_by (λ p, (pf_receipt_id p, pf_proof_mode p, pf_receipt_policy p, pf_strategy p,
      (pf_verifier_status p, pf_txid p, pf_confirmations p, pf_receipt_bytes p),
      (pf_transition_digest p, pf_continuation_commitment p, pf_continuation_shape_root p,
       pf_new_state_digest p, pf_updated_at p)))
    (λ '(a, b, c, d, (e, f, g, h), (i, j, k, l, m)), Build_ProofSummary a b c d e f g h i j k l m) _).
  by intros [].
Defined.
#[local] Instance scan_text : Text ScanStatus.
Proof.
  refine (text_by (λ s, (st_cursor_name s, st_scan_mode s, st_last_daa_score s, st_indexed_spends s,
      st_observed_spends s, st_reorg_risk_count s))
    (λ '(a, b, c, d, e, f), Build_ScanStatus a b c d e f) _). by intros [].
Defined.
#[local] Instance state_text : Text PersistedState.
Proof.
  refine (text_by (λ s, (ps_profile s, ps_passphrase_salt s, ps_passphrase_verifier s,
      ps_identity_vault s, ps_kas_balance s, ps_lanes s, ps_proofs s, ps_scan s, ps_scan_notice s))
    (λ '(a, b, c, d, e, f, g, h, i), Build_PersistedState a b c d e f g h i) _). by intros [].
Defined.
#[local] Instance plaintext_text : Text IdentityVaultPlaintext.
Proof.
  refine (text_by (λ p, (vp_version p, vp_wallet_id p, vp_network_id p, vp_protocol_network_id p,
      vp_canonical_chain_domain p, vp_recovery_phrase p))
    (λ '(a, b, c, d, e, f), Build_IdentityVaultPlaintext a b c d e f) _). by intros [].
Defined.

(** All of the bytes, read. *)
Definition of_text {A} `{Text A} (l : list byte) : result string A :=
  match get_text l with Some (a, []) => Ok a | _ => Err "trailing or malformed" end.

Lemma of_text_put {A} `{Text A} (a : A) : of_text (put_text a) = Ok a.
Proof. unfold of_text. rewrite <-(app_nil_r (put_text a)), get_put. done. Qed.

(** * Libraries *)

#[local] Instance sample_sha256 : Sha256 := toy_sha256.

#[local] Instance sample_hex : HexCrate := {
  hex_encode l := of_bytes (to_hex_bytes l);
  hex_decode s := map_err (λ _, "invalid digit") (from_hex_chunks (as_bytes s))
}.

#[local] Instance sample_hex_laws : HexLaws.
Proof.
  split; [done|]. intros l. unfold hex_encode, hex_decode, sample_hex.
  by rewrite as_bytes_of_bytes, from_hex_chunks_to_hex.
Qed.

#[local] Instance sample_state_json : StateJson := {
  state_to_json s := Ok (put_text s);
  state_from_json := of_text
}.

#[local] Instance sample_state_json_laws : StateJsonLaws.
Proof. split. intros s. exists (put_text s). split; [done|apply of_text_put]. Qed.

(** A tag of the key, the nonce and the associated data before the text. *)
Definition cipher_tag (key : Bytes32) (nonce aad : list byte) : Bytes32 :=
  sha256 (key ++ nonce ++ aad).

#[local] Instance sample_crypto : WalletCrypto := {
  Argon2Params := unit;
  argon2_params _ _ _ := Ok ();
  hash_password _ password salt := Ok (sha256 (password ++ salt));
  cipher_encrypt key nonce msg aad := Some (blist (cipher_tag key nonce aad) ++ msg);
  cipher_decrypt key nonce ct aad :=
    if decide (take 32 ct = blist (cipher_tag key nonce aad)) then Some (drop 32 ct) else None;
  plaintext_to_json p := Ok (put_text p);
  plaintext_from_json := of_text;
  SecretKey := list byte;
  secret_key_from_slice l := if decide (length l = 32)%nat then Some l else None;
  x_only_public_key l := l;
  pubkey_address _ l := ("kaspasim:" ++ of_bytes (to_hex_bytes l))%string;
  english_mnemonic _ := true
}.

#[local] Instance sample_crypto_laws : WalletCryptoLaws.
Proof.
  split.
  - done.
  - done.
  - intros key nonce msg aad _. eexists. split; [reflexivity|]. cbn [cipher_decrypt sample_crypto].
    rewrite take_app_length' by (symmetry; apply bytes_length). rewrite decide_True by done.
    rewrite drop_app_length' by (symmetry; apply bytes_length). split; [done|].
    intros E. pose proof (bytes_length (cipher_tag key nonce aad)) as Hl. apply (f_equal length) in E.
    rewrite length_app in E. cbn in E. lia.
  - intros p. exists (put_text p). split; [done|apply of_text_put].
Qed.

(** A node that has no blocks beyond its tip. *)
#[local] Instance sample_scan : ScanBackend FixtureBackend := {
  current_scan_cursor chain := λ b,
    (Ok {| cu_chain_id := chain; cu_block_hash := b32 1; cu_daa_score := n64 1 |}, b);
  scan_from_cursor _ _ := λ b, (Ok batch_empty, b)
}.

(** * Worlds *)

Abbreviation world := (World InMemoryIndexer).
Abbreviation environment := (Env FixtureBackend InMemoryIndexer).

Definition sample_config : DaemonConfig := daemon_config LocalToccata None.

Definition working_io : SaveIo :=
  {| io_create_dir := Ok (); io_open := Ok (); io_restrict_temp := Ok (); io_write := Ok ();
     io_sync := Ok (); io_rename := Ok (); io_restrict := Ok () |}.
Definition working_db : DbOutcome := {| db_open := Ok (); db_flush := Ok () |}.

(** Everything works, and the draws are the byte [k]. *)
Definition working (k : byte) : environment :=
  {| en_draws := {| dr_passphrase_salt := Ok (replicate 16 k); dr_salt := Ok (replicate 16 k);
                    dr_nonce := Ok (replicate 24 k) |};
     en_identity_join := None; en_db := working_db; en_join := None;
     en_connect _ _ := Ok (fixture_new KaspaLocalToccata); en_io := working_io;
     en_now _ := n64 1700000000 |}.

Definition sample_start : result string world := start sample_config (Ok ()) in_memory_new None.

Definition no_world : world :=
  {| w_store := persisted_default; w_store_poisoned := false; w_session := session_default;
     w_session_poisoned := false; w_index := in_memory_new; w_file := None |}.

Definition wallet_input (id passphrase : string) (word : string) : CreateWalletInput :=
  {| cw_wallet_id := id; cw_network_id := "rgk:kaspa-local-toccata";
     cw_protocol_network_id := "kaspa-local-toccata";
     cw_canonical_chain_domain := "kaspa-local-toccata";
     cw_kaspa_endpoint := ""; cw_passphrase := passphrase; cw_recovery_phrase := replicate 12 word |}.

Abbreviation create env input w := (run_alone 1 (upsert_wallet sample_config env input) w).

Definition after (r : option (api response * world)) : world :=
  match r with Some (_, w) => w | None => no_world end.
Definition answered_profile (r : option (api response * world)) : option WalletProfile :=
  match r with Some (Ok (R_Profile p), _) => Some p | _ => None end.

Lemma answered_profile_some r p :
  answered_profile r = Some p → r = Some (Ok (R_Profile p), after r).
Proof. destruct r as [[[[]|] w]|]; cbn; try done. by intros [= ->]. Qed.

Definition alice := wallet_input "alice" "correct horse" "abandon".
Definition bob := wallet_input "bob.savings" "battery staple" "zoo".

Abbreviation with_alice := (create (working x0a) alice no_world).

(** * Witnesses of the identity *)

Lemma alice_created : ∃ p, with_alice = Some (Ok (R_Profile p), after with_alice).
Proof.
  destruct (answered_profile with_alice) as [p|] eqn:E; [|by vm_compute in E].
  exists p. by apply answered_profile_some.
Qed.

Lemma working_draws k : draws_sized (en_draws (working k)).
Proof. by split; intros ? [= <-]. Qed.

Lemma unlock_restores_identity_witness : ∃ p w2 w3,
  w_session w2 = session_default ∧ ps_profile (w_store w2) = Some (locked_profile p) ∧
  run_alone 2 (unlock_wallet sample_config (working x0b) {| uw_passphrase := "correct horse" |}) w2 =
    Some (Ok (R_Profile p), w3).
Proof.
  destruct alice_created as [p Hp].
  destruct (start sample_config (Ok ()) (w_index (after with_alice)) (w_file (after with_alice)))
    as [w2|] eqn:Hs; [|by vm_compute in Hs].
  destruct (unlock_restores_identity sample_config (working x0a) (working x0b) alice no_world p
    (after with_alice) (Ok ()) w2 Hp (working_draws x0a) Hs eq_refl eq_refl) as (H1 & H2 & w3 & H3 & _).
  exists p, w2, w3. exact (conj H1 (conj H2 H3)).
Defined.

Definition phase_of (t : task InMemoryIndexer) : world → task InMemoryIndexer * world :=
  match t with Phase run => run | Answer r => λ w, (Answer r, w) end.
Definition is_phase (t : task InMemoryIndexer) : bool :=
  match t with Phase _ => true | Answer _ => false end.
Definition profile_answer (t : task InMemoryIndexer) : option WalletProfile :=
  match t with Answer (Ok (R_Profile p)) => Some p | _ => None end.

Lemma is_phase_of t : is_phase t = true → t = Phase (phase_of t).
Proof. by destruct t. Qed.
Lemma profile_answered t p : profile_answer t = Some p → t = Answer (Ok (R_Profile p)).
Proof. destruct t as [[[]|]|]; cbn; try done. by intros [= ->]. Qed.

(** The unlock of Alice's wallet, the import of Bob's, and the rest of the
    unlock. *)
Abbreviation alice_unlock :=
  (unlock_wallet sample_config (working x0b) {| uw_passphrase := "correct horse" |}).
Abbreviation alice_opened := (phase_of alice_unlock (after with_alice)).
Abbreviation with_bob := (create (working x0c) bob (after with_alice)).
Abbreviation finished := (phase_of alice_opened.1 (after with_bob)).

Lemma opened_pair (tw : task InMemoryIndexer * world) w :
  is_phase tw.1 = true → tw.2 = w → tw = (Phase (phase_of tw.1), w).
Proof. destruct tw as [t w']. cbn. by intros <-%is_phase_of <-. Qed.

Lemma opened_answer (tw : task InMemoryIndexer * world) r :
  tw.1 = Answer r → tw = (Answer r, tw.2).
Proof. destruct tw as [t w]. cbn. by intros ->. Qed.

Lemma unlock_snapshot_same (w : world) : (unlock_snapshot w).2 = w.
Proof.
  unfold unlock_snapshot, store, reading, mbind, stateful_bind.
  destruct (result_bind _ _ _ _); cbn; [|done]. destruct (ok_or _ _); cbn; [|done].
  by destruct (ok_or _ _).
Qed.

(** The first stretch of an unlock changes nothing. *)
Lemma unlock_begins (env : environment) input w :
  (phase_of (unlock_wallet sample_config env input) w).2 = w.
Proof.
  unfold unlock_wallet. destruct (validate_passphrase _) as [pass|]; [|done].
  cbn [alone]. unfold critical at 1. cbn [phase_of]. pose proof (unlock_snapshot_same w) as E.
  by destruct (unlock_snapshot w) as [[[p v]|e] w'].
Qed.

Lemma alice_opens : alice_opened = (Phase (phase_of alice_opened.1), after with_alice).
Proof. apply opened_pair; [by vm_compute|apply unlock_begins]. Qed.

(** Both answers are profiles, of Bob's wallet under different addresses. *)
Definition mixed (imported unlocked : option WalletProfile) : bool :=
  match imported, unlocked with
  | Some pb, Some p =>
      bool_decide (wp_wallet_id pb = "bob.savings" ∧ wp_address p ≠ wp_address pb)
  | _, _ => false
  end.

Lemma mixed_ok imported unlocked : mixed imported unlocked = true → ∃ pb p,
  imported = Some pb ∧ unlocked = Some p ∧
  wp_wallet_id pb = "bob.savings" ∧ wp_address p ≠ wp_address pb.
Proof.
  destruct imported as [pb|], unlocked as [p|]; try done. cbn. intros [H1 H2]%bool_decide_eq_true.
  by exists pb, p.
Qed.

Lemma unlock_finishes_after_import_witness : ∃ pb p (w2 : world),
  wp_wallet_id p = wp_wallet_id pb ∧ wp_wallet_id pb = "bob.savings" ∧
  ps_profile (w_store w2) = Some p ∧ wp_address p ≠ wp_address pb ∧
  rs_wallet_id (w_session w2) = Some (wp_wallet_id pb).
Proof.
  destruct (mixed_ok (answered_profile with_bob) (profile_answer finished.1))
    as (pb & p & Eb & Ep & H1 & H2); [by vm_compute|].
  apply answered_profile_some in Eb. apply profile_answered in Ep.
  destruct (unlock_finishes_after_import sample_config (working x0b) (working x0c) "correct horse" bob
    (after with_alice) (phase_of alice_unlock) (phase_of alice_opened.1) pb (after with_bob) p finished.2)
    as (pa & va & identity & address & _ & _ & _ & _ & Hid & _ & _ & Hp & _ & Hs & _).
  - apply is_phase_of. by vm_compute.
  - exact alice_opens.
  - exact Eb.
  - exact (opened_answer _ _ Ep).
  - exists pb, p, finished.2. exact (conj Hid (conj H1 (conj Hp (conj H2 Hs)))).
Defined.

(** A daemon that was started and to which a request to create a wallet came and
    was served. *)
Abbreviation create_task := (upsert_wallet sample_config (working x0a) alice).
Abbreviation sample_reachable :=
  (reachable (B := FixtureBackend) "0.1.0" sample_config in_memory_new).

Lemma created_reachable : ∃ t, sample_reachable ((phase_of create_task no_world).2, [t]).
Proof.
  assert (H0 : sample_reachable (no_world, [])) by by apply (reachable_start _ _ _ (Ok ())).
  assert (H1 : sample_reachable (no_world, [create_task])).
  { exact (reachable_step _ _ _ _ _ H0
      (step_request "0.1.0" sample_config no_world [] (working x0a) (Q_CreateWallet alice))). }
  exists (phase_of create_task no_world).1. refine (reachable_step _ _ _ _ _ H1 _).
  apply (step_phase "0.1.0" sample_config no_world [create_task] 0 (phase_of create_task)).
  - assert (E : is_phase create_task = true) by by vm_compute. exact (f_equal Some (is_phase_of _ E)).
  - apply surjective_pairing.
Qed.

Lemma run_alone_one (t : task InMemoryIndexer) w r w' :
  run_alone 1 t w = Some (r, w') → is_phase t = true → (phase_of t w).2 = w'.
Proof.
  destruct t as [|run]; [done|]. cbn. destruct (run w) as [[] w1]; [|done]. by intros [= _ ->].
Qed.

Lemma daemon_invariant_witness : ∃ (w : world) p,
  ps_profile (w_store w) = Some p ∧ rs_wallet_id (w_session w) = Some (wp_wallet_id p).
Proof.
  destruct alice_created as [p Hp]. destruct created_reachable as [t Hr].
  rewrite (run_alone_one _ _ _ _ Hp) in Hr by by vm_compute.
  destruct (daemon_invariant _ _ _ _ _ Hr) as (Hi & _).
  assert (Hq : ps_profile (w_store (after with_alice)) = Some p) by exact (upsert_profile _ _ _ _ _ _ Hp).
  destruct (upsert_answered _ _ _ _ _ _ Hp) as (pw & _ & _ & Ep & _).
  assert (Hl : wp_lifecycle p ≠ WL_Locked) by (rewrite Ep; discriminate).
  destruct (Hi p Hq) as (_ & _ & Hs). destruct (Hs Hl) as (Hid & _).
  exists (after with_alice), p. exact (conj Hq Hid).
Defined.

(** * Witnesses of the index *)

(** The index of a covenant that was opened and has a lane. *)
Definition sample_index : InMemoryIndexer :=
  default in_memory_new (to_option (
    s ← im_open in_memory_new KaspaLocalToccata (b32 21) (b32 70) (sample_state 100)
          {| transaction_id := b32 1; index := n32 0 |} (n64 1000);
    im_register_lane s {| il_chain_id := KaspaLocalToccata; il_covenant_id := b32 21;
      il_asset_id := b32 22; il_lane_id := b32 60; il_epoch := n64 1; il_scan_tag := None;
      il_public_lineage := true; il_state_digest := b32 100; il_last_update_daa_score := n64 1000 |})).

Definition sample_transition : RecordTransitionInput := {|
  rt_lane_id := "rgk:lane:public:" ++ hex32_label (b32 60); rt_proof_mode := MN_VerifierReceipt;
  rt_receipt_policy := RN_Any; rt_strategy := "";
  rt_new_state_digest := hex32_label (b32 101); rt_transition_digest := hex32_label (b32 41);
  rt_continuation_commitment := hex32_label (b32 42);
  rt_continuation_shape_root := hex32_label (b32 44);
  rt_new_txid := hex32_label (b32 2); rt_new_index := n32 0; rt_daa_score := n64 1001 |}%string.

Abbreviation sample_built :=
  (build_transition_receipt_at_path working_db KaspaLocalToccata sample_transition
     (hex32_label (b32 21)) sample_index).

Definition built_evidence {S E A} (r : result E A * S) : option A :=
  match r with (Ok a, _) => Some a | _ => None end.

Lemma built_ok {S E A} (r : result E A * S) :
  match built_evidence r with Some _ => true | None => false end = true → ∃ a, r = (Ok a, r.2).
Proof. destruct r as [[a|] s]; [|done]. by exists a. Qed.

Lemma recorded_transition_extends_witness : ∃ ev i', sample_built = (Ok ev, i') ∧
  ∃ bs e, verify_local bs (b32 21) (ic_latest_state e) KaspaLocalToccata = Ok (re_receipt_id ev).
Proof.
  destruct (built_ok sample_built) as [ev Hb]; [by vm_compute|].
  exists ev, sample_built.2. split; [exact Hb|].
  destruct (recorded_transition_extends _ _ _ _ _ _ _ Hb)
    as (cov & e & e' & bs & spend & Hc & _ & _ & _ & _ & Hv & _).
  rewrite parse_hex32_label in Hc. injection Hc as <-. exists bs, e. exact Hv.
Defined.

Lemma recorded_transition_ingests_witness : ∃ ev i' spent, sample_built = (Ok ev, i') ∧
  ingest_proof_evidence_at_path working_db KaspaLocalToccata
    (handed_over sample_transition "lane" "" (b32 21) spent ev) sample_index = (Ok (Some ev), i').
Proof.
  destruct (built_ok sample_built) as [ev Hb]; [by vm_compute|].
  destruct (recorded_transition_ingests _ _ _ _ _ _ _ "lane" "" Hb) as (cov & spent & Hc & _ & Hi).
  rewrite parse_hex32_label in Hc. injection Hc as <-. exists ev, sample_built.2, spent. exact (conj Hb Hi).
Defined.

(** A lane with metadata only, and a node that answers nothing. *)
Definition sample_asset_lane (k : Z) : AssetLane := {|
  al_lineage_id := ""; al_lane_id := "rgk:lane:private:" ++ hex32_label (b32 k); al_label := "";
  al_ticker := "RGK"; al_balance := "0"; al_privacy := PrivateLane; al_proof_policy := RN_Any;
  al_evidence_status := MetadataOnly; al_resolver_state := SN_Unknown;
  al_covenant_id := hex32_label (b32 (k + 1)); al_state_digest := hex32_label (b32 (k + 2));
  al_latest_receipt_id := None; al_updated_at := "" |}%string.

Definition silent_node : FixtureBackend :=
  with_failure (fixture_new KaspaLocalToccata) (NodeUnavailable "gone").

Lemma scan_updates_each_lane_witness :
  ∃ lane', apply_lane_resolution_updates (λ _, n64 5) [sample_asset_lane 80; sample_asset_lane 90]
      (resolve_indexed_lanes silent_node sample_index KaspaLocalToccata
         [sample_asset_lane 80; sample_asset_lane 90]) !! 1%nat = Some lane' ∧
    al_evidence_status lane' = Indexed.
Proof.
  destruct (scan_updates_each_lane silent_node sample_index KaspaLocalToccata
    [sample_asset_lane 80; sample_asset_lane 90] (λ _, n64 5) 1 (sample_asset_lane 90)) as (_ & _ & Hf).
  - apply (bool_decide_unpack _). by vm_compute.
  - done.
  - destruct (Hf (NodeUnavailable "gone") (b32 90) (b32 91)) as (l & Hl & He & _);
      [reflexivity|reflexivity|vm_compute; reflexivity|reflexivity|apply parse_hex32_label|reflexivity|].
    exists l. exact (conj Hl He).
Defined.

(** The first scan of a daemon, which sets its cursor and observes nothing, over
    an index that has the covenant of the lane open. *)
Definition first_scan : result string WalletdScanResult * InMemoryIndexer :=
  run_scan_tick (live_connect (C := unit)) working_db None sample_config "ws://node"
    [sample_asset_lane 80] None sample_index.

Lemma idle_scan_forgets_lanes_witness :
  ∃ scan, first_scan = (Ok scan, first_scan.2) ∧
    Forall (λ update, lu_resolver_state update = SN_Unknown ∨ lu_resolver_state update = SN_NodeDown)
      (sr_lane_updates scan).
Proof.
  destruct (answered_ok first_scan) as [scan E]; [by vm_compute|]. exists scan. split; [exact E|].
  assert (Ht : (λ s, uval (tk_observed_spends (sr_tick s))) <$> to_option first_scan.1 = Some 0%Z)
    by (by vm_compute).
  rewrite E in Ht. injection Ht as Ht.
  destruct (idle_scan_forgets_lanes working_db None sample_config "ws://node" [sample_asset_lane 80]
    None sample_index first_scan.2 scan E Ht) as [_ Hf].
  exact Hf.
Defined.
